(* ===== verification/_CoqProject ===== *)
-Q . S2P
Prelude.v
Params.v
HashTree.v
Usertxs.v
Accounts.v
Servers.v
Ledger.v
Process.v
Undo.v
Invariant.v
Demo.v
ProcessProps.v
UndoProps.v
Numbers.v
Hlog.v
Block.v
BlockInv.v
BlockSteps.v
BlockProps.v
Chain.v
Message.v
MerklePath.v
MsgTree.v
TxProof.v
MsgFile.v
MsgFileProps.v
MsgHead.v
MsgHeadProps.v
Pool.v
PoolInv.v
PoolProps.v
Merge.v
MergeProps.v
PoolBlocks.v
Snapshot.v
SnapshotProps.v
Join.v
JoinProps.v
Archive.v
ArchiveProps.v
Election.v
ElectionProps.v
Sync.v
SyncProps.v
CandidateProps.v
Userlog.v
Commands.v
Office.v
Handlers.v
OfficeProps.v
OfficeLedger.v
