(* ===== verification/Prelude.v ===== *)
(** * The ledger of the ESC / ADS node, verified

    The program ([src/src]) is a block chain node, [escd], with a client and
    tools.  A network has up to 65534 nodes (banks); each bank holds accounts
    in a file [usr/%04X.dat].  Users send signed transactions to their bank,
    the bank packs them in numbered messages, all nodes execute all messages,
    and every [BLOCKSEC] seconds the nodes close a block: they execute what
    was collected for the end of the block, check the totals of the banks,
    hash the state and vote on the hash.

    ** What is modelled, and where

    - [Prelude]: machine integers as [Z] with their wrap-around ([u8], [u16],
      [u32], [u64], [i64]), byte strings as lists of [Z] with little-endian
      fields ([le_bytes], [rdz]), maps in key order ([elems]), sums and xors.
    - [Params]: the constants of [default_ads.h.in], [common/default.hpp] and
      [common/helper/txsname.h].
    - [HashTree]: [common/hash.hpp], the incremental Merkle tree.  SHA-256 is
      the class [Sha256] (a function with results of 32 bytes); witnesses use
      the instances [toy_sha] and [quick_sha].
    - [Usertxs]: [common/user.hpp], the layout of transactions and the two
      scanners [parse] and [get_size].
    - [Accounts], [Servers], [Chain]: [common/servers.hpp]; account and node
      records, account files as maps from account number to record (a hole
      in a file reads as zeros, behind its end a read fails: [read_user],
      [check_nodehash]), the undo file of a block, the key file
      ([find_key]), the hash of a
      block, the choice of VIP nodes, the files [servers.srv], [header.hdr]
      and the file of block hashes, the signatures of a block.
    - [Ledger], [Process]: the state of [escd/server.hpp] and
      [server::process_message] of [escd/server.cpp].  A routine returns
      [Ok], rejects the message ([Rej], with the state it leaves) or ends the
      process ([Ex]: [exit] or a failed assertion).  The locals of
      [process_message] are the record [locals]; each kind of transaction is a
      function [tx_*]; [process_loop] is the loop over the message.
    - [Undo]: [server::undo_message] and [server::undo_bank].
    - [Block]: the end of a block, [commit_block], [commit_dividends],
      [commit_deposit], [commit_bankfee] and [finish_block].
    - [Hlog]: [common/helper/hlog.cpp], the history log of a block.
    - [Message]: [common/message.hpp], the part about peers.
    - [MerklePath]: [hashtree::hashpath] of [common/hash.hpp], the positions of
      a path in the list of all hashes of a tree.
    - [MsgTree]: the hash tree of a message in [common/message.hpp],
      [hash_tree], [hash_tree_fast] and [hash_tree_get]; a routine returns
      ([Gives]), returns false ([Refuses]) or fails an assertion ([Aborts]).
    - [MsgFile]: messages as objects ([mobj]) and their files, [load], [save],
      [move], [bad_insert] and others of [common/message.hpp], on a [disk] of
      message, undo and index files.
    - [MsgHead]: making and signing a message, reading its header and checking
      its signature, proofs of double spends ([common/message.hpp], and
      [handle_read_body] of [escd/peer.hpp]).  Ed25519 is the class [Ed25519];
      [toy_ed] is its instance in examples.
    - [Pool]: the messages a node keeps ([message_insert] and its parts,
      [check_dbl], [create_double_spend_proof], [bad_insert], [message_find] and
      the [validator] of [escd/server.cpp]).  Containers share objects, so the
      record [pool] has a heap and the containers hold pointers; calls of other
      components are events, [process_message] is an argument.
    - [Merge]: the elected list and the messages of the node (second part of
      [LAST_block_final]): the merge of the two, then each message is undone,
      moved, removed, queued or asked for; [undo_message] is an argument.
    - [Snapshot]: accounts at an earlier block, from the account files and the
      undo files of blocks: a bank sent to a node that joins and received there
      ([write_bank], [handle_read_bank] of [escd/peer.hpp]), the snapshot of a
      period ([db_backup] of [common/helper/blocks.cpp]), the answer of
      [get_accounts].  Open files are lists of records with a position.
    - [Join]: a node that joins: the headers of blocks ([write_headers],
      [handle_read_headers], [handle_next_header] of [escd/peer.hpp],
      [add_headers] and [add_next_header] of [escd/server.cpp]), the signed
      message lists ([write_msglist], [handle_read_msglist]), the list of nodes
      ([write_servers], [handle_read_servers]) and the decision of
      [authenticate].  A read from a peer is an argument that holds the bytes;
      the state of the joining node is [joiner].
    - [Archive]: archives of old blocks ([common/helper/libarchive.cpp]), the
      reader of files of a block ([common/helper/blockfilereader.cpp]) and
      [arch_old_blocks]; a block is a directory or the bytes of its archive.
    - [TxProof]: the list of the messages of a block in [common/servers.hpp]
      ([msgl_put], [msgl_load], [msgl_hash_tree_get]), the request of a
      transaction ([escd/commandhandler/gettransactionhandler.cpp]) and the
      check of its proof by the client ([common/command/gettransaction.cpp]).
    - [Commands]: [common/command] and [common/abstraction/interfaces.h], the
      13 commands of clients that change the chain: their bytes on the wire
      and in a message, what is signed, fees and amounts.
    - [Userlog], [Office]: [escd/office.cpp], the bank's copy of its accounts,
      the queue of transactions and its file, the locks of users, dividends
      and deposits after a block, the log files of the accounts.  A call
      returns ([Done]), fails with an error and the state it leaves ([Fail]),
      waits for the queue ([Wait]) or ends the process ([Exit]).  What the
      office reads of the server is the record [srv].
    - [Handlers]: [escd/commandhandler] and the frame around it in
      [escd/client.hpp], validation and execution of the commands.

    - [Election]: the election of a block ([prepare_poll], [count_votes],
      [save_candidate], [cnd_validate] and others of [escd/server.cpp],
      [escd/candidate.hpp]): the record [poll] is the part of [server] it
      works on.
    - [Sync]: lists of messages between nodes ([sync_start] and [parse_vote]
      of [escd/peer.hpp]) and the list of the elected candidate (first part of
      [LAST_block_final]); a connection is the list of the bytes sent.

    ** What the theorems show

    - [Invariant], [ProcessProps]: executing a message keeps the books of the
      bank (the weight and the xor of checksums [check_nodehash] compares),
      nobody overspends within the total mass, the loop terminates; two theorems show where the code goes wrong (an
      overflow in the balance test, a rejected message that leaves an
      account).
    - [UndoProps]: [undo_message] is the inverse of [process_message], for a
      node whose key is in its key file; with a transfer of a negative amount
      the deposits are not restored.
    - [Numbers]: over a whole message the numbers of the transactions of an
      account are consecutive, none executes twice, and the account file holds
      the next number.
    - [BlockInv], [BlockSteps], [BlockProps]: the end of a block keeps the
      books of all banks; the votes, dividends and fee shares; the takeover of
      a dead bank as the case that fails.
    - [HashTree], [Usertxs], [Hlog], [Chain], [Message]: refinement of the
      Merkle tree, agreement of the scanners, round trips of the files, the
      checks of a syncing node, filters of signatures, sets of peers.
    - [MerklePath], [MsgTree], [TxProof]: the two hash functions of a message
      agree; every transaction of a stored block has a path, found in the
      files, that the client accepts against the block hash.  The path is
      right for an odd number of leaves and for at most 1026; an example shows
      that it is refused at 1028.
    - [MsgFileProps]: messages and undo files are read back as written, a message
      set aside and recovered is as before.
    - [MsgHeadProps]: a message that a node makes is accepted by its peers, proofs
      of double spends are accepted and sound; the accounts are written into the
      transactions that log them; a peer reads the node of a proof
      from the wrong place.
    - [PoolInv], [PoolProps]: over a step relation of insertions, bad messages and
      rounds of the validator within a block the messages of a node are executed
      in order; an announced message is stored and queued, a second one with the
      number of a stored one is found and proved; an example in which it is not.
    - [PoolBlocks]: the containers stay consistent over runs of any number of
      blocks, through the merges of elected lists.
    - [MergeProps]: after the election the elected messages are in the container
      of the node, executed, queued or asked for, and no other is executed; an
      executed message with the key of an elected one is not undone, a second
      rival is not marked bad.
    - [SnapshotProps]: the undo file of a block leads back to the accounts it
      began with; a bank sent to another node arrives as it was at the block;
      the snapshot stands for the undo file it replaces; examples in which a
      bank is not sent, never completed, or stored with wrong checksums.
    - [JoinProps]: headers, message lists and the list of nodes that a node sends
      are the ones a joining node takes; the list of headers is linked by hashes after any
      order of answers of peers; a block is joined only with enough signatures
      of known nodes; a request that ends the node that answers it.
    - [ArchiveProps]: archiving loses nothing of a block of transactions; an example in which a
      double spend shifts the messages of an archive.
    - [Commands]: a command is read as it was sent, its transaction parses
      back to it, its price is what the nodes charge.
    - [OfficeProps]: as a step relation over all calls, the queue of the office
      is always a message of whole transactions that a restart recovers.
    - [OfficeLedger]: the office's copy of an account follows the ledger
      through commands and dividends, accepted commands can be paid, logs are
      delivered; and the cases in which office and ledger part.
    - [ElectionProps]: over a step relation of votes, candidates and messages
      in any order, votes are conserved and nodes with the same voters elect
      the same candidate.
    - [SyncProps], [CandidateProps]: two nodes obtain each other's list, in one
      round when they agree on common messages; every stored candidate stands
      for a list with its hash, so the list of the elected candidate has the
      elected hash and no assertion on candidates fails; votes carry lists
      between nodes.
    - [Demo] holds the concrete network the witnesses run on.

    ** Conventions and bounds

    Constants are those of the build without [DEBUG]; assertions are taken as
    active.  Signed overflow wraps around, as it does on the machine.  The
    fuel of [process_loop] and [undo_loop] is the length of the message, of
    [printJson] the length of the log; every step consumes at least one byte,
    so it is never used up (proved for [process_loop]); the loops over a log
    file have the length of the file.  The loop of [hashpath] has 32 steps, one
    per level of a tree of less than 2^32 leaves.  [undo_loop] stops on
    a transaction that does not parse, which no executed message has.
    Floating point is used once by the code, for the dividend of a period in
    [nextblock]; it is the parameter [div_of].  The check of signatures
    ([e_sign_open], [sign_open]), the derivation of a public key ([e_public]) and
    the clock are parameters; so is what the code reads behind the vector of
    nodes when a position is used as a node number ([e_stray]).  [write_chunks]
    has the number of accounts as fuel, each message takes one; [backup_blocks]
    the number of seconds, each step takes [BLOCKSEC].

    ** Not modelled

    Network connections ([escd/peer.hpp], [escd/network], the sockets of
    [escd/client.hpp] and [escd/office.cpp]), threads and mutexes, the
    loops of [load_chain] and [load_banks] that wait for peers, commands that
    only read (but for the request of a transaction and of accounts), command
    line, logging, JSON output and the tools: they are input and output around
    the ledger, or not reached.  SHA-256 and Ed25519 are
    third-party code. *)

From stdpp Require Import base gmap list sorting.
From Stdlib Require Import ZArith Lia.
From coqutil Require Export Datatypes.RecordSettersUsingExistingGetters.

Open Scope Z_scope.

(** Record updates [r <| field := v |>] compute under [cbn]. *)
#[global] Arguments RecordSettersUsingExistingGetters.const {E} newValue / _.

(** * Machine integers

    A w-bit integer of the C++ code is a [Z]; every assignment to a
    variable of that width goes through the function that wraps to it. *)

Declare Scope esc_scope.
Delimit Scope esc_scope with esc.

Definition u8 (x : Z) : Z := x mod 2 ^ 8.
Definition u16 (x : Z) : Z := x mod 2 ^ 16.
Definition u32 (x : Z) : Z := x mod 2 ^ 32.
Definition u64 (x : Z) : Z := x mod 2 ^ 64.

(** Two's complement wrap-around of an [int64_t]. *)
Definition i64 (x : Z) : Z := (x + 2 ^ 63) mod 2 ^ 64 - 2 ^ 63.

Lemma u8_small x : 0 <= x < 2 ^ 8 -> u8 x = x.
Proof. apply Z.mod_small. Qed.
Lemma u16_small x : 0 <= x < 2 ^ 16 -> u16 x = x.
Proof. apply Z.mod_small. Qed.
Lemma u32_small x : 0 <= x < 2 ^ 32 -> u32 x = x.
Proof. apply Z.mod_small. Qed.
Lemma u64_small x : 0 <= x < 2 ^ 64 -> u64 x = x.
Proof. apply Z.mod_small. Qed.

(** C++ integer division truncates towards zero. *)
Notation "x ÷ y" := (Z.quot x y) (at level 40, left associativity) : esc_scope.
Open Scope esc_scope.

(** A C++ test on a masked value, [if(x & m)]. *)
Definition has_bits (x m : Z) : bool := negb (Z.land x m =? 0).

(** Clearing bits of a w-bit word, [x &= ~m]. *)
Definition clear_bits (x m : Z) : Z := Z.ldiff x m.

Lemma has_bits_set x b : b <> 0 -> has_bits (Z.lor x b) b = true.
Proof.
  intros Hb. unfold has_bits. rewrite Z.land_comm, Z.lor_comm, Z.land_lor_distr_r, Z.land_diag.
  apply negb_true_iff, Z.eqb_neq. intros E. apply Z.lor_eq_0_iff in E as [E _]. contradiction.
Qed.

Lemma has_bits_other x y b : Z.land y b = 0 -> has_bits (Z.lor x y) b = has_bits x b.
Proof. intros Hy. unfold has_bits. now rewrite Z.land_lor_distr_l, Hy, Z.lor_0_r. Qed.

(** ** Congruence modulo 2^64

    Sums of [int64_t] are exact only up to wrap-around, so the weight
    invariants are first proved in this equivalence. *)

Definition eqm (x y : Z) : Prop := exists k, x = y + k * 2 ^ 64.
Notation "x ≡64 y" := (eqm x y) (at level 70, no associativity) : esc_scope.

Lemma eqm_mod x y : x ≡64 y <-> x mod 2 ^ 64 = y mod 2 ^ 64.
Proof.
  split; [intros [k ->]; now rewrite Z.mod_add by lia|].
  intros E. exists (x / 2 ^ 64 - y / 2 ^ 64).
  pose proof (Z.div_mod x (2 ^ 64)). pose proof (Z.div_mod y (2 ^ 64)). lia.
Qed.

Lemma eqm_eq x y : x = y -> x ≡64 y.
Proof. intros ->. exists 0. lia. Qed.

#[export] Instance eqm_equiv : Equivalence eqm.
Proof.
  split.
  - intros x. now apply eqm_eq.
  - intros x y [k ->]. exists (- k). lia.
  - intros x y z [k ->] [j ->]. exists (k + j). lia.
Qed.

#[export] Instance eqm_add : Proper (eqm ==> eqm ==> eqm) Z.add.
Proof. intros a b [k ->] c d [j ->]. exists (k + j). lia. Qed.

#[export] Instance eqm_sub : Proper (eqm ==> eqm ==> eqm) Z.sub.
Proof. intros a b [k ->] c d [j ->]. exists (k - j). lia. Qed.

#[export] Instance eqm_opp : Proper (eqm ==> eqm) Z.opp.
Proof. intros a b [k ->]. exists (- k). lia. Qed.

Lemma i64_eqm x : i64 x ≡64 x.
Proof. unfold i64. exists (- ((x + 2 ^ 63) / 2 ^ 64)). pose proof (Z.div_mod (x + 2 ^ 63) (2 ^ 64)). lia. Qed.

Lemma u64_eqm x : u64 x ≡64 x.
Proof. unfold u64. exists (- (x / 2 ^ 64)). pose proof (Z.div_mod x (2 ^ 64)). lia. Qed.

#[export] Instance i64_proper : Proper (eqm ==> eqm) i64.
Proof. intros a b E. now rewrite !i64_eqm. Qed.
#[export] Instance u64_proper : Proper (eqm ==> eqm) u64.
Proof. intros a b E. now rewrite !u64_eqm. Qed.

Lemma i64_range x : - 2 ^ 63 <= i64 x < 2 ^ 63.
Proof. unfold i64. pose proof (Z.mod_pos_bound (x + 2 ^ 63) (2 ^ 64)). lia. Qed.

Lemma i64_small x : - 2 ^ 63 <= x < 2 ^ 63 -> i64 x = x.
Proof. intros H. unfold i64. rewrite Z.mod_small; lia. Qed.

Lemma i64_of_eqm x y : x ≡64 y -> i64 x = i64 y.
Proof. intros [k ->]. unfold i64. rewrite <- (Z.mod_add (y + 2 ^ 63) k (2 ^ 64)) by lia. do 2 f_equal. lia. Qed.

(** Two values in the range of [int64_t] that are congruent are equal. *)
Lemma eqm_i64_eq x y : - 2 ^ 63 <= x < 2 ^ 63 -> - 2 ^ 63 <= y < 2 ^ 63 -> x ≡64 y -> x = y.
Proof. intros Hx Hy H. rewrite <- (i64_small x Hx), <- (i64_small y Hy). now apply i64_of_eqm. Qed.

Create HintDb esc.
#[export] Hint Resolve i64_range i64_small : esc.

(** [wrap_solve] proves a congruence by removing the wraps on both sides. *)
Ltac wrap_solve := rewrite ?i64_eqm, ?u64_eqm; first [reflexivity | apply eqm_eq; lia].

(** * Bytes, buffers and little-endian fields *)

Definition is_byte (b : Z) : Prop := 0 <= b < 256.
Definition bytes (l : list Z) : Prop := Forall is_byte l.

Lemma bytes_check l : forallb (fun b => (0 <=? b) && (b <? 256)) l = true -> bytes l.
Proof.
  intros H. apply List.Forall_forall. intros b Hb.
  rewrite List.forallb_forall in H. specialize (H b Hb). unfold is_byte. lia.
Qed.

Fixpoint le_bytes (n : nat) (x : Z) : list Z :=
  match n with
  | O => []
  | S n => x mod 256 :: le_bytes n (x / 256)
  end.

Fixpoint le_val (l : list Z) : Z :=
  match l with
  | [] => 0
  | b :: t => b + 256 * le_val t
  end.

Lemma length_le_bytes n x : length (le_bytes n x) = n.
Proof. revert x; induction n; intros; simpl; auto. Qed.

Lemma bytes_le_bytes n x : bytes (le_bytes n x).
Proof.
  revert x; induction n; intros; simpl; constructor; [|apply IHn].
  unfold is_byte. apply Z.mod_pos_bound. lia.
Qed.

Lemma le_val_bytes n x : le_val (le_bytes n x) = x mod 256 ^ Z.of_nat n.
Proof.
  revert x; induction n as [|n IH]; intros x.
  - change (0 = x mod 1). now rewrite Z.mod_1_r.
  - cbn [le_bytes le_val]. rewrite IH.
    rewrite Nat2Z.inj_succ, Z.pow_succ_r by lia.
    rewrite Z.rem_mul_r by lia. lia.
Qed.

Lemma le_val_bytes_small n x : 0 <= x < 256 ^ Z.of_nat n -> le_val (le_bytes n x) = x.
Proof. intros H. rewrite le_val_bytes. now apply Z.mod_small. Qed.

Lemma le_val_bound l : bytes l -> 0 <= le_val l < 256 ^ Z.of_nat (length l).
Proof.
  induction 1 as [|b l Hb _ IH]; [simpl; lia|].
  cbn [le_val length]. rewrite Nat2Z.inj_succ, Z.pow_succ_r by lia.
  unfold is_byte in Hb. lia.
Qed.

Lemma le_bytes_val l : bytes l -> le_bytes (length l) (le_val l) = l.
Proof.
  induction 1 as [|b l Hb _ IH]; [reflexivity|].
  cbn [le_val length le_bytes]. unfold is_byte in Hb.
  rewrite (Z.mul_comm 256), Z.mod_add, Z.mod_small, Z.div_add, Z.div_small by lia.
  now rewrite Z.add_0_l, IH.
Qed.

Lemma le_val_inj l k : bytes l -> bytes k -> length l = length k -> le_val l = le_val k -> l = k.
Proof. intros Hl Hk Hn Hv. rewrite <- (le_bytes_val l Hl), <- (le_bytes_val k Hk). congruence. Qed.

(** [memcpy] out of a buffer; a read past its end is modelled as zeros. *)
Definition rd (buf : list Z) (off n : nat) : list Z :=
  take n (drop off buf ++ replicate n 0).

(** An unsigned little-endian field of [n] bytes. *)
Definition rdz (buf : list Z) (off n : nat) : Z := le_val (rd buf off n).

(** [memcpy] into a buffer. *)
Definition wr (buf : list Z) (off : nat) (src : list Z) : list Z :=
  take off buf ++ src ++ drop (off + length src) buf.

Lemma length_rd buf off n : length (rd buf off n) = n.
Proof. unfold rd. rewrite length_take, length_app, length_replicate. lia. Qed.

Lemma bytes_take n l : bytes l -> bytes (take n l).
Proof. apply Forall_take. Qed.
Lemma bytes_drop n l : bytes l -> bytes (drop n l).
Proof. apply Forall_drop. Qed.
Lemma bytes_app l k : bytes l -> bytes k -> bytes (l ++ k).
Proof. intros; now apply Forall_app. Qed.
Lemma bytes_replicate0 n : bytes (replicate n 0).
Proof. apply Forall_replicate. unfold is_byte. lia. Qed.

Lemma bytes_rd buf off n : bytes buf -> bytes (rd buf off n).
Proof. intros H. apply bytes_take, bytes_app; [now apply bytes_drop | apply bytes_replicate0]. Qed.

#[export] Hint Resolve bytes_le_bytes bytes_take bytes_drop bytes_app bytes_replicate0 bytes_rd : esc.

(** Reading inside a buffer is a plain slice. *)
Lemma rd_in buf off n : (off + n <= length buf)%nat -> rd buf off n = take n (drop off buf).
Proof.
  intros H. unfold rd. rewrite take_app_le; [reflexivity|]. rewrite length_drop. lia.
Qed.

Lemma rd_app_skip a b off n : (length a <= off)%nat -> rd (a ++ b) off n = rd b (off - length a) n.
Proof. intros H. unfold rd. now rewrite drop_app_ge. Qed.

Lemma rd_app_here a b n : length a = n -> rd (a ++ b) 0 n = a.
Proof.
  intros H. unfold rd. rewrite drop_0, <- (assoc_L (++)), take_app_le, take_ge by lia. reflexivity.
Qed.

(** Reading back a record that was written field by field. *)
Lemma rdz_cons x l off n : rdz (x :: l) (S off) n = rdz l off n.
Proof. reflexivity. Qed.
Lemma rdz_type x l : rdz (x :: l) 0 1 = x.
Proof. unfold rdz, rd. rewrite drop_0. cbn [app take le_val]. rewrite take_0. cbn [le_val]. lia. Qed.
Lemma rdz_here n x l : 0 <= x < 256 ^ Z.of_nat n -> rdz (le_bytes n x ++ l) 0 n = x.
Proof. intros Hx. unfold rdz. rewrite rd_app_here by apply length_le_bytes. now apply le_val_bytes_small. Qed.
Lemma rdz_skip k x l off n : (k <= off)%nat -> rdz (le_bytes k x ++ l) off n = rdz l (off - k) n.
Proof.
  intros Hk. unfold rdz. rewrite rd_app_skip by (rewrite length_le_bytes; lia). now rewrite length_le_bytes.
Qed.

Lemma rdz_app_l a b o k : (o + k <= length a)%nat -> rdz (a ++ b) o k = rdz a o k.
Proof. intros Hk. unfold rdz. rewrite !rd_in by (rewrite ?length_app; lia). rewrite drop_app_le, take_app_le by (rewrite ?length_drop; lia). reflexivity. Qed.

Lemma rdz_i64 w l : - 2 ^ 63 <= w < 2 ^ 63 -> i64 (rdz (le_bytes 8 w ++ l) 0 8) = w.
Proof.
  intros Hw. unfold rdz. rewrite rd_app_here, le_val_bytes by apply length_le_bytes. rewrite (i64_of_eqm _ w); [now apply i64_small|].
  apply eqm_mod. apply Z.mod_mod. lia.
Qed.

(** [read_fields] evaluates the reads of the fields of a written record; the
    ranges of the fields are left to [lia]. *)
Ltac read_fields :=
  repeat first
    [ rewrite rdz_type
    | rewrite rdz_cons
    | rewrite rdz_here by (cbn [Z.of_nat Pos.of_succ_nat Pos.succ]; lia)
    | rewrite rdz_skip by lia; cbn [Nat.sub] ].

(** * Ordered maps

    A [std::map] is a [gmap]; a loop over it visits the keys in increasing
    order, which [elems] makes explicit. *)

Definition key_le {A} (p q : Z * A) : Prop := p.1 <= q.1.
#[export] Instance key_le_dec {A} : RelDecision (@key_le A).
Proof. intros p q. unfold key_le. apply _. Defined.

Definition elems {A} (m : gmap Z A) : list (Z * A) := merge_sort key_le (map_to_list m).

Lemma elems_perm {A} (m : gmap Z A) : elems m ≡ₚ map_to_list m.
Proof. apply merge_sort_Permutation. Qed.

Lemma elem_of_elems {A} (m : gmap Z A) k x : (k, x) ∈ elems m <-> m !! k = Some x.
Proof. rewrite elems_perm. apply elem_of_map_to_list. Qed.

Lemma elems_nodup {A} (m : gmap Z A) : NoDup (elems m).*1.
Proof. rewrite elems_perm. apply NoDup_fst_map_to_list. Qed.

Lemma elems_keys {A} (m : gmap Z A) k : k ∈ (elems m).*1 <-> is_Some (m !! k).
Proof.
  rewrite list_elem_of_fmap. split.
  - intros ([k' x] & -> & Hx). apply elem_of_elems in Hx. eauto.
  - intros [x Hx]. exists (k, x). split; [reflexivity|]. now apply elem_of_elems.
Qed.

(** The keys of [elems] increase, and this determines it. *)
Definition key_lt {A} (p q : Z * A) : Prop := p.1 < q.1.

Lemma elems_sorted {A} (m : gmap Z A) : StronglySorted key_le (elems m).
Proof.
  apply StronglySorted_merge_sort; [intros p q r; unfold key_le; lia|].
  intros p q. unfold key_le. lia.
Qed.

Lemma elems_strict {A} (m : gmap Z A) : StronglySorted key_lt (elems m).
Proof.
  pose proof (elems_nodup m) as Hnd. induction (elems_sorted m) as [|p l Hl IH Hp]; [constructor|]. cbn in Hnd. apply NoDup_cons in Hnd as [Hni Hnd].
  constructor; [now apply IH|]. rewrite Forall_forall in *. intros q Hq. specialize (Hp q Hq). unfold key_le, key_lt in *.
  enough (p.1 <> q.1) by lia. intros E. apply Hni. rewrite E. now apply list_elem_of_fmap_2.
Qed.

Lemma elems_eq {A} (m : gmap Z A) l : StronglySorted key_lt l -> (forall k x, (k, x) ∈ l <-> m !! k = Some x) -> elems m = l.
Proof.
  intros Hs Hin. assert (Hin' : forall p, p ∈ elems m <-> p ∈ l) by (intros [k x]; now rewrite elem_of_elems, Hin).
  apply (StronglySorted_unique_strong key_le).
  - intros [j x] [k y] Hx Hy. unfold key_le. cbn. intros H1 H2. assert (j = k) as <- by lia. apply Hin', Hin in Hx. apply Hin in Hy. congruence.
  - apply elems_sorted.
  - clear -Hs. induction Hs as [|p l _ IH Hp]; constructor; [exact IH|]. eapply Forall_impl; [exact Hp|]. unfold key_lt, key_le. intros; lia.
  - apply NoDup_Permutation; [apply NoDup_fmap_1 with (f := fst), elems_nodup| |exact Hin'].
    clear -Hs. induction Hs as [|p l _ IH Hp]; constructor; [|exact IH]. intros Hi. rewrite Forall_forall in Hp. specialize (Hp p Hi). unfold key_lt in Hp. lia.
Qed.

(** A map whose keys and values are changed in order. *)
Lemma elems_map {A B} (m : gmap Z A) (m' : gmap Z B) (f : Z * A -> Z * B) :
  (forall p q, p ∈ elems m -> q ∈ elems m -> p.1 < q.1 -> (f p).1 < (f q).1) ->
  (forall k y, m' !! k = Some y <-> exists p, p ∈ elems m /\ f p = (k, y)) -> elems m' = map f (elems m).
Proof.
  intros Hf Hm. apply elems_eq.
  - pose proof (elems_strict m) as Hs. revert Hf. generalize (elems m) Hs. clear. intros l Hs. induction Hs as [|p l _ IH Hp]; intros Hf; [constructor|].
    cbn [map]. constructor; [apply IH; intros; apply Hf; auto; now right|]. apply Forall_forall. intros q Hq.
    apply list_elem_of_fmap in Hq as (x & -> & Hx). rewrite Forall_forall in Hp. apply Hf; [left|now right|now apply Hp].
  - intros k y. rewrite Hm. change (map f (elems m)) with (f <$> elems m). rewrite list_elem_of_fmap. firstorder congruence.
Qed.

Lemma elems_fmap {A B} (g : A -> B) (m : gmap Z A) : elems (g <$> m) = map (fun p => (p.1, g p.2)) (elems m).
Proof.
  apply elems_map; [tauto|]. intros k y. rewrite lookup_fmap_Some. split.
  - intros (x & <- & Hx). exists (k, x). split; [now apply elem_of_elems|reflexivity].
  - intros ([j x] & Hx & [= <- <-]). exists x. split; [reflexivity|now apply elem_of_elems].
Qed.

(** Insertion of entries with different keys. *)
Lemma insert_entries {A} (l : list (Z * A)) (st : gmap Z A) k :
  NoDup l.*1 -> foldl (fun st q => <[q.1 := q.2]> st) st l !! k = match (list_to_map l : gmap Z A) !! k with Some x => Some x | None => st !! k end.
Proof.
  revert st. induction l as [|[j x] l IH]; intros st Hnd; [reflexivity|]. cbn in Hnd. apply NoDup_cons in Hnd as [Hni Hnd]. cbn [foldl list_to_map fst snd].
  rewrite IH by exact Hnd. cbn. destruct (decide (j = k)) as [->|Hn].
  - rewrite (not_elem_of_list_to_map_1 l k Hni), !lookup_insert_eq. reflexivity.
  - rewrite !lookup_insert_ne by exact Hn. reflexivity.
Qed.

Lemma insert_list_spec {A} (l : list (Z * A)) k x : NoDup l.*1 -> foldl (fun st q => <[q.1 := q.2]> st) (∅ : gmap Z A) l !! k = Some x <-> (k, x) ∈ l.
Proof.
  intros Hnd. rewrite insert_entries, lookup_empty by exact Hnd. rewrite (elem_of_list_to_map (M := gmap Z) l k x) by exact Hnd.
  now destruct (list_to_map l !! k).
Qed.

Lemma insert_elems {A} (m : gmap Z A) : foldl (fun st q => <[q.1 := q.2]> st) ∅ (elems m) = m.
Proof.
  apply map_eq. intros k. apply option_eq. intros x. rewrite insert_list_spec by apply elems_nodup. apply elem_of_elems.
Qed.

(** [m[k] += d] on a map whose absent entries read as zero. *)
Definition zget (m : gmap Z Z) (k : Z) : Z := default 0 (m !! k).
Definition add_at (k d : Z) (m : gmap Z Z) : gmap Z Z := <[k := i64 (zget m k + d)]> m.

Lemma zget_add_at k d m j : zget (add_at k d m) j = if decide (j = k) then i64 (zget m k + d) else zget m j.
Proof.
  unfold zget, add_at. destruct (decide (j = k)) as [->|Hn].
  - now rewrite lookup_insert_eq.
  - now rewrite lookup_insert_ne.
Qed.

(** An element of a vector of integers. *)
Definition nthz (l : list Z) (i : nat) : Z := default 0 (l !! i).

Lemma nthz_byte l i : bytes l -> 0 <= nthz l i < 256.
Proof. intros Hb. unfold nthz. destruct (l !! i) as [x|] eqn:E; cbn; [exact (Forall_lookup_1 _ _ _ _ Hb E)|lia]. Qed.

(** * Sums *)

Definition zsum (l : list Z) : Z := foldr Z.add 0 l.

Lemma zsum_app l k : zsum (l ++ k) = zsum l + zsum k.
Proof. induction l as [|a l IH]; simpl; [|rewrite IH]; lia. Qed.

Lemma zsum_perm l k : l ≡ₚ k -> zsum l = zsum k.
Proof. induction 1; simpl; lia. Qed.

Lemma zsum_insert (l : list Z) i x y :
  l !! i = Some x -> zsum (<[i := y]> l) = zsum l - x + y.
Proof.
  revert i; induction l as [|a l IH]; intros [|i] H; simplify_eq/=; [lia|].
  rewrite (IH i H). lia.
Qed.

Definition zxor (l : list Z) : Z := foldr Z.lxor 0 l.

Lemma zxor_app l k : zxor (l ++ k) = Z.lxor (zxor l) (zxor k).
Proof. induction l as [|a l IH]; simpl; [now rewrite Z.lxor_0_l|]. now rewrite IH, Z.lxor_assoc. Qed.

Lemma lxor_cancel a b : Z.lxor (Z.lxor a b) b = a.
Proof. now rewrite Z.lxor_assoc, Z.lxor_nilpotent, Z.lxor_0_r. Qed.

Lemma zxor_insert (l : list Z) i x y :
  l !! i = Some x -> zxor (<[i := y]> l) = Z.lxor (Z.lxor (zxor l) x) y.
Proof.
  revert i; induction l as [|a l IH]; intros [|i] H; simplify_eq/=.
  - rewrite (Z.lxor_comm x), lxor_cancel. apply Z.lxor_comm.
  - rewrite (IH i H). now rewrite !Z.lxor_assoc.
Qed.

(** * Error results

    A routine that can return early is a value of [option]; [guard] stops
    with [None] when its condition fails. *)

Notation "'let*' x ':=' c 'in' k" :=
  (match c with Some x => k | None => None end)
    (at level 10, x pattern, c at level 100, k at level 200) : esc_scope.

Notation "'check' b 'in' k" :=
  (if b then k else None)
    (at level 10, b at level 100, k at level 200) : esc_scope.

(** [inv_opt] splits the hypotheses that say such a routine succeeded. *)
Ltac inv_opt :=
  repeat match goal with
  | H : match ?c with Some _ => _ | None => None end = Some _ |- _ =>
      let E := fresh "E" in destruct c eqn:E; [|discriminate H]
  | H : (if ?b then _ else None) = Some _ |- _ =>
      let E := fresh "E" in destruct b eqn:E; [|discriminate H]
  | H : (if ?b then None else _) = Some _ |- _ =>
      let E := fresh "E" in destruct b eqn:E; [discriminate H|]
  | p : (_ * _)%type |- _ => destruct p
  | H : Some _ = Some _ |- _ => injection H as H
  end.

(** * Files *)

(** [read(fd,p,n)] at the position of a file; a file too short is [None]. *)
Definition fread (n : nat) (f : list Z) : option (list Z * list Z) :=
  check (n <=? length f)%nat in Some (take n f, drop n f).
Definition fread_le (n : nat) (f : list Z) : option (Z * list Z) :=
  let* (b, f) := fread n f in Some (le_val b, f).

(** Writing at offset [off] of a file opened without truncation; a gap is
    filled with zeros. *)
Definition pwrite (off : nat) (data f : list Z) : list Z :=
  take off (f ++ replicate (off - length f) 0) ++ data ++ drop (off + length data) f.

Lemma fread_app n a f : length a = n -> fread n (a ++ f) = Some (a, f).
Proof.
  intros <-. unfold fread. rewrite length_app, (proj2 (Nat.leb_le _ _)) by lia.
  now rewrite take_app_length, drop_app_length.
Qed.

Lemma fread_le_app n x f : 0 <= x < 256 ^ Z.of_nat n -> fread_le n (le_bytes n x ++ f) = Some (x, f).
Proof.
  intros Hx. unfold fread_le. rewrite fread_app by apply length_le_bytes. now rewrite le_val_bytes_small.
Qed.

Lemma fread_i64_app x f : - 2 ^ 63 <= x < 2 ^ 63 -> exists y, fread_le 8 (le_bytes 8 x ++ f) = Some (y, f) /\ i64 y = x.
Proof.
  intros Hx. unfold fread_le. rewrite fread_app by apply length_le_bytes. eexists. split; [reflexivity|].
  rewrite le_val_bytes. change (256 ^ Z.of_nat 8) with (2 ^ 64).
  apply eqm_i64_eq; [apply i64_range|exact Hx|]. rewrite i64_eqm. apply eqm_mod. apply Z.mod_mod. lia.
Qed.

(** [fread_fields H] reads the fields of a record in the order in which they
    were written. *)
Ltac fread_fields :=
  repeat (rewrite <- ?(assoc_L (++));
          first [ rewrite fread_le_app by (cbn [Z.of_nat Pos.of_succ_nat Pos.succ]; lia)
                | rewrite fread_app by first [assumption | apply length_le_bytes] ]).
