(* ===== verification/Params.v ===== *)
(** The network constants of [default_ads.h.in] (release configuration), the
    status bits and message types of [common/default.hpp] and the transaction
    types of [common/helper/txsname.h].

    [USER_MIN_AGE], [OFFICE_USER_MIN_AGE], [BANK_MIN_MTIME] and [MAX_LOG_AGE] are
    written with the suffix [L]: sums and differences with them have 64 bits and
    do not wrap around, unlike those with [LOCK_TIME], [BLOCKSEC] and the ages of
    accounts, which have the 32 bits of the times. *)

From Stdlib Require Import ZArith Lia.
From S2P Require Import Prelude.

Definition BLOCKSEC := 512.
Definition BLOCKDIV := 2048.
Definition VIP_MAX := 31.
Definition VOTE_DELAY := 4.
Definition MESSAGE_MAXAGE := 100.
Definition USER_MIN_AGE := BLOCKSEC * 10000.
Definition BANK_MIN_MTIME := BLOCKSEC * 1000.
Definition SHARED_PROFIT_NODES := 100.
Definition ACCOUNT_INACTIVE_AGE := 365 * 24 * 3600.
Definition ACCOUNT_DORMANT_AGE := 2 * 365 * 24 * 3600.
Definition TOTALMASS := 3875820600000000000.
Definition LOCK_TIME := BLOCKDIV * BLOCKSEC.
Definition MAX_MSGWAIT := 0x10.
Definition MAX_BROADCAST_LENGTH := 32000.
Definition USER_STAT_DELETED := 0x1.
Definition BANK_MAX := 0xffff.
Definition MESSAGE_CHUNK := 0x100000.
Definition MESSAGE_LEN_OK := 0x10000.
Definition MESSAGE_TNUM_OK := 0x1000.
Definition MESSAGE_TNUM_MAX := 0xFFF0.
Definition MESSAGE_WAIT := 5.
Definition OFFICE_USER_MIN_AGE := USER_MIN_AGE * 8.
Definition MAX_USERS := 0x8000000.
Definition MAX_USER_QUEUE := 10000.
Definition MIN_LOG_SIZE := 128 * 1024.
Definition MAX_LOG_AGE := 16384 * BLOCKSEC.
Definition CLIENT_POOL := 16.

Definition TXS_MIN_FEE := 10000.
Definition TXS_DIV_FEE := 20000000.
Definition TXS_KEY_FEE := 10000000.
Definition TXS_BRO_FEE (x : Z) : Z := if x <? 32 then TXS_MIN_FEE else TXS_MIN_FEE + 1000 * (x - 32).
Definition TXS_PUT_FEE (x : Z) : Z := x ÷ 2000.
Definition TXS_LNG_FEE (x : Z) : Z := x ÷ 2000.
Definition TXS_MPT_FEE (x : Z) : Z := x ÷ 2000.
Definition TXS_MINMPT_FEE (n : Z) : Z := if n <? 10 then 10000 else 1000 * n.
Definition TXS_GET_FEE := 1000000.
Definition TXS_GOK_FEE (x : Z) : Z := x ÷ 1000.
Definition TXS_USR_FEE := 100000000.
Definition TXS_RUS_FEE := 100000000.
Definition TXS_SUS_FEE := 10000000.
Definition TXS_SBS_FEE := 10000000.
Definition TXS_UUS_FEE := 10000000.
Definition TXS_UBS_FEE := 10000000.
Definition TXS_SAV_FEE := 10000000.
Definition TXS_BNK_FEE := 100000000000000.
Definition TXS_BKY_FEE := 10000000000.
Definition USER_MIN_MASS := 20000000.
Definition BANK_MIN_UMASS := 100000000000.
Definition BANK_MIN_TMASS := 0.
Definition BANK_PROFIT (x : Z) : Z := x ÷ 5.
Definition BANK_USER_FEE (x : Z) : Z := 1000 * x.
Definition MESSAGE_FEE (x : Z) : Z := 4096 + x.
Definition SHARED_PROFIT (x : Z) : Z := (x ÷ 5) * 2.

(** Status bits of a node. *)
Definition SERVER_DBL := 0x1.
Definition SERVER_VIP := 0x2.
Definition SERVER_UNO := 0x4.
Definition SERVER_FST := 0x80000000.

(** Status bits of a message. *)
Definition MSGSTAT_DAT := 0x1.
Definition MSGSTAT_SAV := 0x2.
Definition MSGSTAT_COM := 0x4.
Definition MSGSTAT_VAL := 0x8.
Definition MSGSTAT_BAD := 0x10.
Definition MSGSTAT_SIG := 0x20.

Definition MSGTYPE_DBL := 0.
Definition MSGTYPE_DBP := 1.
Definition MSGTYPE_DBG := 2.
Definition MSGTYPE_MSG := 3.
Definition MSGTYPE_PUT := 4.
Definition MSGTYPE_GET := 5.
Definition MSGTYPE_INI := 6.
Definition MSGTYPE_STP := 8.
Definition MSGTYPE_CND := 10.
Definition MSGTYPE_CNP := 11.
Definition MSGTYPE_CNG := 12.
Definition MSGTYPE_BLK := 13.
Definition MSGTYPE_BLP := 14.
Definition MSGTYPE_BLG := 15.
Definition MSGTYPE_SER := 16.
Definition MSGTYPE_HEA := 17.
Definition MSGTYPE_MSL := 18.
Definition MSGTYPE_MSP := 19.
Definition MSGTYPE_PAT := 20.
Definition MSGTYPE_USR := 21.
Definition MSGTYPE_USG := 22.
Definition MSGTYPE_NHR := 23.
Definition MSGTYPE_NHD := 24.
Definition MSGTYPE_SOK := 99.

Definition TXSTYPE_NON := 0.
Definition TXSTYPE_CON := 1.
Definition TXSTYPE_UOK := 2.
Definition TXSTYPE_BRO := 3.
Definition TXSTYPE_PUT := 4.
Definition TXSTYPE_MPT := 5.
Definition TXSTYPE_USR := 6.
Definition TXSTYPE_BNK := 7.
Definition TXSTYPE_GET := 8.
Definition TXSTYPE_KEY := 9.
Definition TXSTYPE_BKY := 10.
Definition TXSTYPE_SUS := 11.
Definition TXSTYPE_SBS := 12.
Definition TXSTYPE_UUS := 13.
Definition TXSTYPE_UBS := 14.
Definition TXSTYPE_SAV := 15.
Definition TXSTYPE_DIV := 16.
Definition TXSTYPE_FEE := 17.
Definition TXSTYPE_INF := 16.
Definition TXSTYPE_LOG := 17.
Definition TXSTYPE_BLG := 18.
Definition TXSTYPE_BLK := 19.
Definition TXSTYPE_TXS := 20.
Definition TXSTYPE_VIP := 21.
Definition TXSTYPE_SIG := 22.
Definition TXSTYPE_NDS := 23.
Definition TXSTYPE_NOD := 24.
Definition TXSTYPE_MGS := 25.
Definition TXSTYPE_MSG := 26.
Definition TXSTYPE_GFI := 27.
Definition TXSTYPE_MAX := 28.

(** A share of a non-negative amount is non-negative and not larger. *)
Lemma quot_share x n : 0 <= x -> 0 < n -> 0 <= x ÷ n <= x.
Proof.
  intros Hx Hn. rewrite Z.quot_div_nonneg by lia. split; [apply Z.div_pos; lia|].
  apply Z.div_le_upper_bound; [lia|]. nia.
Qed.
