(* ===== verification/HashTree.v ===== *)
(** The hash tree of [common/hash.hpp]: the order-independent pair hash
    [addhash], the bit counter, the incremental tree ([update]/[finish]) that
    produces the message, node and block hashes, and the path positions used
    to report a transaction's proof.  The tree is shown to compute the root
    obtained by hashing adjacent pairs level by level. *)

From stdpp Require Import base list.
From Stdlib Require Import ZArith Lia.
From S2P Require Import Prelude.

(** * The digest

    SHA-256 is OpenSSL's; only the shape of its output is used. *)

Class Sha256 := {
  SHA256 : list Z -> list Z;
  SHA256_length : forall m, length (SHA256 m) = 32%nat;
  SHA256_bytes : forall m, bytes (SHA256 m)
}.

Definition is_hash (h : list Z) : Prop := length h = 32%nat /\ bytes h.
Definition zero_hash : list Z := replicate 32 0.

Lemma SHA256_hash `{Sha256} m : is_hash (SHA256 m).
Proof. split; [apply SHA256_length | apply SHA256_bytes]. Qed.

Lemma zero_hash_hash : is_hash zero_hash.
Proof. split; [reflexivity | apply bytes_replicate0]. Qed.

Lemma le_bytes_hash n : is_hash (le_bytes 32 n).
Proof. split; [apply length_le_bytes | apply bytes_le_bytes]. Qed.

#[export] Hint Resolve SHA256_hash zero_hash_hash le_bytes_hash : esc.

(** A concrete digest on which the witnesses of the development compute. *)
Definition mix (m : list Z) : Z := foldl (fun a b => (a * 257 + b + 1) mod 2 ^ 256) 1 m.
Definition toy_sha : Sha256 :=
  {| SHA256 m := le_bytes 32 (mix m);
     SHA256_length m := length_le_bytes 32 (mix m);
     SHA256_bytes m := bytes_le_bytes 32 (mix m) |}.

(** * Counting bits *)

Definition bits12 (x : Z) : Z :=
  Z.land (u64 (x * 0x1001001001001)) 0x84210842108421 mod 0x1f.

Definition bits (v : Z) : Z :=
  if v <? 0x4000 then
    u32 (Z.land (u64 (v * 0x200040008001)) 0x111111111111111 mod 0xf)
  else if v <? 0x1000000 then
    let c := u32 (bits12 (Z.land v 0xfff)) in
    u32 (c + bits12 (Z.shiftr (Z.land v 0xfff000) 12))
  else
    let c := u32 (bits12 (Z.land v 0xfff)) in
    let c := u32 (c + bits12 (Z.shiftr (Z.land v 0xfff000) 12)) in
    u32 (c + bits12 (Z.shiftr v 24)).

(** The number of one bits, by recursion on the binary representation. *)
Fixpoint pos_popcount (p : positive) : Z :=
  match p with
  | xH => 1
  | xO q => pos_popcount q
  | xI q => 1 + pos_popcount q
  end.

Definition popcount (v : Z) : Z := match v with Zpos p => pos_popcount p | _ => 0 end.

Lemma popcount_div2 v : 0 <= v -> popcount v = v mod 2 + popcount (v / 2).
Proof.
  intros Hv. destruct v as [|p|p]; [reflexivity| |lia].
  destruct p as [p|p|]; cbn [popcount pos_popcount].
  - rewrite Pos2Z.inj_xI, (Z.add_comm (2 * _)), (Z.mul_comm 2).
    rewrite Z.mod_add, Z.div_add by lia. reflexivity.
  - rewrite Pos2Z.inj_xO, (Z.mul_comm 2), Z.mod_mul, Z.div_mul by lia. reflexivity.
  - reflexivity.
Qed.

Lemma popcount_split n v :
  0 <= v -> popcount v = popcount (v mod 2 ^ Z.of_nat n) + popcount (v / 2 ^ Z.of_nat n).
Proof.
  revert v; induction n as [|n IH]; intros v Hv.
  - change (2 ^ Z.of_nat 0) with 1. now rewrite Z.mod_1_r, Z.div_1_r.
  - rewrite Nat2Z.inj_succ, Z.pow_succ_r by lia.
    set (m := 2 ^ Z.of_nat n) in *. assert (Hm : 0 < m) by (unfold m; lia).
    rewrite (popcount_div2 v Hv), (IH (v / 2)) by (apply Z.div_pos; lia).
    rewrite (Z.rem_mul_r v 2 m) by lia.
    rewrite (popcount_div2 (v mod 2 + 2 * ((v / 2) mod m)))
      by (pose proof (Z.mod_pos_bound v 2); pose proof (Z.mod_pos_bound (v / 2) m); lia).
    rewrite (Z.mul_comm 2 ((v / 2) mod m)), Z.mod_add, Z.div_add, Zmod_mod by lia.
    rewrite (Z.div_small (v mod 2)) by (apply Z.mod_pos_bound; lia).
    rewrite Z.add_0_l, <- Z.div_div by lia. lia.
Qed.

(** Table check of a predicate on [k <= v < k + n]. *)
Fixpoint between (n : nat) (k : Z) (p : Z -> bool) : bool :=
  match n with O => true | S m => p k && between m (k + 1) p end.

Lemma between_spec n k p : between n k p = true -> forall v, k <= v < k + Z.of_nat n -> p v = true.
Proof.
  revert k; induction n as [|n IH]; intros k H v Hv; [lia|]. cbn [between] in H.
  apply andb_prop in H as [H1 H2].
  destruct (Z.eq_dec v k) as [->|]; [assumption|]. apply (IH (k + 1)); [assumption|lia].
Qed.

Lemma bits12_table : between 4096 0 (fun x => bits12 x =? popcount x) = true.
Proof. vm_compute. reflexivity. Qed.

Lemma bits14_table : between (4 * 4096) 0 (fun x => bits x =? popcount x) = true.
Proof. vm_compute. reflexivity. Qed.

Lemma bits12_popcount x : 0 <= x < 4096 -> bits12 x = popcount x.
Proof. intros Hx. apply Z.eqb_eq. apply (between_spec _ _ _ bits12_table). lia. Qed.

Lemma bits14_popcount x : 0 <= x < 16384 -> bits x = popcount x.
Proof. intros Hx. apply Z.eqb_eq. apply (between_spec _ _ _ bits14_table). lia. Qed.

Lemma bits12_range x : 0 <= bits12 x < 31.
Proof. apply Z.mod_pos_bound. lia. Qed.

Lemma land_low v : Z.land v 0xfff = v mod 4096.
Proof. change 0xfff with (Z.ones 12). now rewrite Z.land_ones by lia. Qed.

Lemma land_mid v : Z.shiftr (Z.land v 0xfff000) 12 = v / 4096 mod 4096.
Proof.
  rewrite Z.shiftr_land, !Z.shiftr_div_pow2 by lia.
  change (0xfff000 / 2 ^ 12) with (Z.ones 12). now rewrite Z.land_ones by lia.
Qed.

Lemma bits_exact v : 0 <= v < 2 ^ 32 -> bits v = popcount v.
Proof.
  intros Hv. destruct (Z.ltb_spec v 0x4000) as [H|H]; [apply bits14_popcount; lia|].
  unfold bits. rewrite (proj2 (Z.ltb_ge v 0x4000)) by lia.
  rewrite land_low, land_mid, Z.shiftr_div_pow2 by lia.
  pose proof (bits12_range (v mod 4096)). pose proof (bits12_range (v / 4096 mod 4096)).
  pose proof (bits12_range (v / 2 ^ 24)).
  assert (H4 : 0 <= v / 4096) by (apply Z.div_pos; lia).
  assert (H5 : 0 <= v / 2 ^ 24 < 4096) by (split; [apply Z.div_pos | apply Z.div_lt_upper_bound]; lia).
  rewrite (popcount_split 12 v) by lia. change (2 ^ Z.of_nat 12) with 4096.
  rewrite (popcount_split 12 (v / 4096)) by lia. change (2 ^ Z.of_nat 12) with 4096.
  rewrite Z.div_div by lia. change (4096 * 4096) with (2 ^ 24).
  pose proof (Z.mod_pos_bound v 4096). pose proof (Z.mod_pos_bound (v / 4096) 4096).
  rewrite <- !bits12_popcount by lia.
  rewrite (u32_small (bits12 (v mod 4096))) by lia.
  destruct (Z.ltb_spec v 0x1000000) as [H'|H'].
  - rewrite (Z.div_small v (2 ^ 24)) by lia. change (bits12 0) with 0.
    rewrite u32_small by lia. lia.
  - rewrite (u32_small (bits12 (v mod 4096) + _)) by lia. rewrite u32_small by lia. lia.
Qed.

(** [bits] counts the one bits of every 32-bit value, on all three of
    its multiply-and-mask branches. *)
Theorem bits_popcount v : 0 <= v < 2 ^ 32 -> bits v = popcount v.
Proof. apply bits_exact. Qed.

Lemma bits_popcount_witness : bits 0xF0F0F0F1 = 17.
Proof. rewrite bits_popcount by lia. reflexivity. Defined.

(** * The pair hash *)

(** The byte loop of [addhash]: true when it finds [hash[i]>add[i]] first. *)
Fixpoint hash_gt (hash add : list Z) : bool :=
  match hash, add with
  | x :: hash', y :: add' => if x <? y then false else if y <? x then true else hash_gt hash' add'
  | _, _ => false
  end.

Definition addhash `{Sha256} (hash add : list Z) : list Z :=
  if hash_gt hash add then SHA256 (add ++ hash) else SHA256 (hash ++ add).

Lemma hash_gt_asym h a :
  length h = length a -> h <> a -> hash_gt a h = negb (hash_gt h a).
Proof.
  revert a; induction h as [|x h IH]; intros [|y a] Hl Hne; simplify_eq/=.
  destruct (Z.ltb_spec x y), (Z.ltb_spec y x); try reflexivity; try lia.
  assert (x = y) as -> by lia. apply IH; congruence.
Qed.

Lemma addhash_comm_len `{Sha256} h a : length h = length a -> addhash h a = addhash a h.
Proof.
  intros Hl. unfold addhash. destruct (decide (h = a)) as [->|Hne]; [reflexivity|].
  rewrite (hash_gt_asym h a Hl Hne). now destruct (hash_gt h a).
Qed.

Lemma addhash_hash `{Sha256} h a : is_hash (addhash h a).
Proof. unfold addhash. destruct (hash_gt h a); apply SHA256_hash. Qed.
#[export] Hint Resolve addhash_hash : esc.

(** Runs the path: [hashes[0]] combined with the remaining hashes in turn. *)
Definition hashpathrun `{Sha256} (hash : list Z) (hashes : list (list Z)) : list Z :=
  match hashes with
  | [] => hash
  | h :: rest => foldl addhash h rest
  end.

(** * The incremental tree *)

Definition MAXTREE : nat := 32.

Record hashtree := {
  hash_loaded : list bool;
  hash_ : list (list Z);
  hashes : list (list Z)
}.

Definition hashtree_init : hashtree :=
  {| hash_loaded := replicate MAXTREE false; hash_ := replicate MAXTREE zero_hash; hashes := [] |}.

Definition set_slot (t : hashtree) (i : nat) (loaded : bool) (h : list Z) : hashtree :=
  {| hash_loaded := <[i := loaded]> t.(hash_loaded);
     hash_ := <[i := h]> t.(hash_);
     hashes := t.(hashes) |}.

Definition push_hash (t : hashtree) (h : list Z) : hashtree :=
  {| hash_loaded := t.(hash_loaded); hash_ := t.(hash_); hashes := t.(hashes) ++ [h] |}.

Definition loaded (t : hashtree) (i : nat) : bool := t.(hash_loaded) !!! i.
Definition slot (t : hashtree) (i : nat) : list Z := t.(hash_) !!! i.

(** The loop of [update] from index [i]; [fuel] is the number of slots left. *)
Fixpoint update_from `{Sha256} (fuel i : nat) (t : hashtree) : hashtree * nat :=
  match fuel with
  | O => (t, i)
  | S fuel =>
      if loaded t i then
        let h := addhash (slot t i) (slot t (i - 1)) in
        update_from fuel (S i) (set_slot (push_hash t h) i false h)
      else (set_slot t i true (slot t (i - 1)), i)
  end.

(** [update]: the new tree and the number of new hashes it returns. *)
Definition update `{Sha256} (t : hashtree) (hash : list Z) : hashtree * nat :=
  if loaded t 0 then
    let h := addhash (slot t 0) hash in
    update_from (MAXTREE - 1) 1 (set_slot (push_hash t h) 0 false h)
  else (set_slot t 0 true hash, O).

(** The second loop of [finish]. *)
Fixpoint finish_from `{Sha256} (fuel i : nat) (t : hashtree) (hash : list Z) : hashtree * list Z :=
  match fuel with
  | O => (t, hash)
  | S fuel =>
      if loaded t i then
        let h := addhash hash (slot t i) in
        finish_from fuel (S i) (push_hash t h) h
      else finish_from fuel (S i) t hash
  end.

Fixpoint first_loaded (fuel i : nat) (t : hashtree) : nat :=
  match fuel with
  | O => i
  | S fuel => if loaded t i then i else first_loaded fuel (S i) t
  end.

(** [finish]: the tree (with the hashes it appends), the result and the root. *)
Definition finish `{Sha256} (t : hashtree) : hashtree * Z * list Z :=
  let i := first_loaded MAXTREE 0 t in
  if (i =? MAXTREE)%nat then (t, 0, zero_hash)
  else let '(t', h) := finish_from (MAXTREE - S i) (S i) t (slot t i) in (t', 1, h).

(** Feeding a list of hashes, as every caller of the tree does. *)
Definition tree_of `{Sha256} (l : list (list Z)) : hashtree :=
  foldl (fun t h => (update t h).1) hashtree_init l.

Definition tree_root `{Sha256} (l : list (list Z)) : list Z := (finish (tree_of l)).2.

(** ** The reference: hash adjacent pairs level by level, an odd last
    element moves up unchanged. *)

Fixpoint level_up `{Sha256} (l : list (list Z)) : list (list Z) :=
  match l with
  | a :: b :: t => addhash a b :: level_up t
  | [a] => [a]
  | [] => []
  end.

Fixpoint merkle_fuel `{Sha256} (n : nat) (l : list (list Z)) : list Z :=
  match l with
  | [] => zero_hash
  | [h] => h
  | _ => match n with O => zero_hash | S n => merkle_fuel n (level_up l) end
  end.

Definition merkle_root `{Sha256} (l : list (list Z)) : list Z := merkle_fuel (length l) l.

(** ** The counter view of the tree

    Slot [i] is a hash when [hash_loaded[i]]; an update carries through the
    loaded slots like the increment of a binary counter. *)

Definition slots (t : hashtree) : list (option (list Z)) :=
  zip_with (fun (b : bool) h => if b then Some h else None) t.(hash_loaded) t.(hash_).

Definition tree_wf (t : hashtree) : Prop :=
  length t.(hash_loaded) = MAXTREE /\ length t.(hash_) = MAXTREE.

Section Counter.
Context `{Sha256}.

Fixpoint carry (s : list (option (list Z))) (x : list Z) : list (option (list Z)) :=
  match s with
  | [] => []
  | None :: r => Some x :: r
  | Some a :: r => None :: carry r (addhash a x)
  end.

Fixpoint collect (s : list (option (list Z))) (acc : list Z) : list Z :=
  match s with
  | [] => acc
  | None :: r => collect r acc
  | Some a :: r => collect r (addhash acc a)
  end.

Fixpoint collect_first (s : list (option (list Z))) : list Z :=
  match s with
  | [] => zero_hash
  | None :: r => collect_first r
  | Some a :: r => collect r a
  end.

Fixpoint pairs (l : list (list Z)) : list (list Z) :=
  match l with a :: b :: t => addhash a b :: pairs t | _ => [] end.

Fixpoint last_odd (l : list (list Z)) : option (list Z) :=
  match l with a :: b :: t => last_odd t | [a] => Some a | [] => None end.

(** The slots of a tree fed with [l]: slot 0 holds the unpaired last leaf,
    the others the tree of the pairs. *)
Fixpoint holds (s : list (option (list Z))) (l : list (list Z)) : Prop :=
  match s with
  | [] => l = []
  | o :: r => o = last_odd l /\ holds r (pairs l)
  end.

(** Induction in steps of two elements. *)
Lemma list_ind2 {A} (P : list A -> Prop) :
  P [] -> (forall a, P [a]) -> (forall a b l, P l -> P (a :: b :: l)) -> forall l, P l.
Proof.
  intros H0 H1 H2. fix IH 1. intros [|a [|b l]]; [assumption|apply H1|apply H2, IH].
Qed.

Lemma level_up_pairs l : level_up l = pairs l ++ match last_odd l with Some a => [a] | None => [] end.
Proof. induction l using list_ind2; simpl; congruence. Qed.

Lemma snoc_even l x : last_odd l = None -> pairs (l ++ [x]) = pairs l /\ last_odd (l ++ [x]) = Some x.
Proof.
  induction l using list_ind2; simpl; intros Hl; try done.
  destruct (IHl Hl) as [-> ->]; auto.
Qed.

Lemma snoc_odd l a x :
  last_odd l = Some a -> pairs (l ++ [x]) = pairs l ++ [addhash a x] /\ last_odd (l ++ [x]) = None.
Proof.
  induction l using list_ind2; simpl; intros Hl; simplify_eq; auto.
  destruct (IHl Hl) as [-> ->]; auto.
Qed.

Lemma length_pairs l : (2 * length (pairs l) <= length l)%nat.
Proof. induction l using list_ind2; simpl; lia. Qed.

Lemma length_level_up l : (2 <= length l)%nat -> (0 < length (level_up l) < length l)%nat.
Proof.
  destruct l as [|a [|b t]]; simpl; try lia. intros _.
  assert (length (level_up t) <= length t)%nat; [|lia].
  induction t using list_ind2; simpl; lia.
Qed.

Lemma carry_holds s l x :
  (length l + 1 < 2 ^ length s)%nat -> holds s l -> holds (carry s x) (l ++ [x]).
Proof.
  revert l x; induction s as [|o s IH]; intros l x Hn Hs; simpl in *; [lia|].
  destruct Hs as [-> Hs]. destruct (last_odd l) as [a|] eqn:E; simpl.
  - destruct (snoc_odd l a x E) as [-> ->]. split; [reflexivity|].
    apply IH; [|assumption]. pose proof (length_pairs l).
    assert (2 * length (pairs l) < length l)%nat; [|lia].
    clear -E. induction l using list_ind2; simplify_eq/=; [lia|]. specialize (IHl E). lia.
  - destruct (snoc_even l x E) as [-> ->]. auto.
Qed.

Lemma merkle_fuel_more n m l :
  (length l <= S n)%nat -> (n <= m)%nat -> merkle_fuel n l = merkle_fuel m l.
Proof.
  revert m l; induction n as [|n IH]; intros m l Hl Hm.
  - destruct l as [|? [|? ?]], m; simpl in *; done || lia.
  - destruct m as [|m]; [lia|]. destruct l as [|a [|b t]]; [done..|].
    cbn [merkle_fuel]. apply IH; [|lia].
    pose proof (length_level_up (a :: b :: t)). cbn [length] in *. lia.
Qed.

Lemma merkle_root_level l : l <> [] -> merkle_root (level_up l) = merkle_root l.
Proof.
  destruct l as [|a [|b t]]; [done|reflexivity|intros _]. unfold merkle_root.
  change (merkle_fuel (length (a :: b :: t)) (a :: b :: t))
    with (merkle_fuel (length (b :: t)) (level_up (a :: b :: t))).
  apply merkle_fuel_more; [lia|].
  pose proof (length_level_up (a :: b :: t)). cbn [length] in *. lia.
Qed.

Lemma pairs_hashes l : Forall is_hash l -> Forall is_hash (pairs l).
Proof.
  induction l using list_ind2; simpl; intros Hl; [done|done|].
  constructor; [apply addhash_hash|]. apply IHl. now inversion Hl as [|? ? ? Hl']; inversion Hl'.
Qed.

Lemma last_odd_hash l a : Forall is_hash l -> last_odd l = Some a -> is_hash a.
Proof.
  induction l using list_ind2; simpl; intros Hl Ha; simplify_eq; [now inversion Hl|].
  apply IHl; [|assumption]. now inversion Hl as [|? ? ? Hl']; inversion Hl'.
Qed.

Lemma collect_root s l c :
  (length l < 2 ^ length s)%nat -> Forall is_hash l -> is_hash c -> holds s l ->
  collect s c = merkle_root (l ++ [c]).
Proof.
  revert l c; induction s as [|o s IH]; intros l c Hn Hl Hc Hs; simpl in *; [now subst|].
  destruct Hs as [-> Hs]. pose proof (length_pairs l).
  rewrite <- merkle_root_level by (now destruct l). rewrite level_up_pairs.
  destruct (last_odd l) as [a|] eqn:E; simpl.
  - destruct (snoc_odd l a c E) as [-> ->]. rewrite app_nil_r.
    rewrite (IH (pairs l)); [| lia | now apply pairs_hashes | apply addhash_hash | assumption].
    do 3 f_equal. apply addhash_comm_len.
    transitivity 32%nat; [apply Hc | symmetry; now apply (last_odd_hash l a)].
  - destruct (snoc_even l c E) as [-> ->].
    apply IH; [lia | now apply pairs_hashes | assumption | assumption].
Qed.

Lemma collect_first_root s l :
  (length l < 2 ^ length s)%nat -> Forall is_hash l -> holds s l -> collect_first s = merkle_root l.
Proof.
  revert l; induction s as [|o s IH]; intros l Hn Hl Hs; simpl in *; [now subst|].
  destruct Hs as [-> Hs]. pose proof (length_pairs l).
  destruct (decide (l = [])) as [->|Hne]; [apply IH; simpl; [lia|done|done]|].
  rewrite <- merkle_root_level, level_up_pairs by assumption.
  destruct (last_odd l) as [a|] eqn:E; simpl.
  - apply collect_root; [lia | now apply pairs_hashes | now apply (last_odd_hash l) | assumption].
  - rewrite app_nil_r. apply IH; [lia | now apply pairs_hashes | assumption].
Qed.
End Counter.

(** ** The arrays implement the counter *)

Section Refinement.
Context `{Sha256}.

Lemma wf_set t i b h : tree_wf t -> tree_wf (set_slot t i b h).
Proof. intros [? ?]. split; simpl; rewrite length_insert; assumption. Qed.

Lemma wf_init : tree_wf hashtree_init.
Proof. split; reflexivity. Qed.

Lemma length_slots t : tree_wf t -> length (slots t) = MAXTREE.
Proof. intros [H1 H2]. unfold slots. rewrite length_zip_with. lia. Qed.

Lemma slots_push t h : slots (push_hash t h) = slots t.
Proof. reflexivity. Qed.

Lemma slots_set t i b h :
  tree_wf t -> slots (set_slot t i b h) = <[i := if b then Some h else None]> (slots t).
Proof.
  intros _. unfold slots, set_slot; simpl. symmetry.
  exact (insert_zip_with _ t.(hash_loaded) t.(hash_) i b h).
Qed.

Lemma slots_at t i :
  tree_wf t -> (i < MAXTREE)%nat -> slots t !! i = Some (if loaded t i then Some (slot t i) else None).
Proof.
  intros [H1 H2] Hi. unfold slots, loaded, slot. apply lookup_zip_with_Some.
  destruct (lookup_lt_is_Some_2 t.(hash_loaded) i) as [b Hb]; [lia|].
  destruct (lookup_lt_is_Some_2 t.(hash_) i) as [h Hh]; [lia|].
  exists b, h. rewrite !list_lookup_total_alt, Hb, Hh. auto.
Qed.

Lemma slots_from t i :
  tree_wf t -> (i < MAXTREE)%nat ->
  drop i (slots t) = (if loaded t i then Some (slot t i) else None) :: drop (S i) (slots t).
Proof. intros Hw Hi. apply drop_S. now apply slots_at. Qed.

Lemma slot_set_prev t i b h : tree_wf t -> (i < MAXTREE)%nat -> slot (set_slot t i b h) (S i - 1) = h.
Proof.
  intros [_ H2] Hi. unfold slot; simpl. rewrite Nat.sub_0_r.
  apply list_lookup_total_insert_eq. lia.
Qed.

Lemma take_drop_set {A} (l : list A) i x :
  (i < length l)%nat -> <[i := x]> l = take i l ++ x :: drop (S i) l.
Proof. intros Hi. now apply insert_take_drop. Qed.

Lemma update_from_slots fuel i t :
  tree_wf t -> (i + fuel)%nat = MAXTREE ->
  slots (update_from fuel i t).1 = take i (slots t) ++ carry (drop i (slots t)) (slot t (i - 1)).
Proof.
  revert i t; induction fuel as [|fuel IH]; intros i t Hw Hi; cbn [update_from].
  - rewrite (drop_ge (slots t)) by (rewrite length_slots; auto; lia).
    rewrite take_ge by (rewrite length_slots; auto; lia). simpl. now rewrite app_nil_r.
  - assert (Hlt : (i < MAXTREE)%nat) by lia.
    pose proof (length_slots t Hw) as Hn.
    rewrite (slots_from t i Hw Hlt). destruct (loaded t i) eqn:E; simpl.
    + set (h := addhash _ _).
      rewrite IH by (try apply wf_set; auto; lia).
      change (slots (set_slot _ i false h)) with (slots (set_slot t i false h)).
      rewrite slots_set, take_drop_set by (auto; lia).
      rewrite slot_set_prev by auto.
      rewrite cons_middle, (assoc_L (++)).
      rewrite take_app_length', drop_app_length' by (rewrite length_app, length_take; simpl; lia).
      now rewrite <- (assoc_L (++)).
    + rewrite slots_set, take_drop_set by (auto; lia). reflexivity.
Qed.

Lemma update_from_wf fuel i t : tree_wf t -> tree_wf (update_from fuel i t).1.
Proof.
  revert i t; induction fuel as [|fuel IH]; intros i t Hw; cbn [update_from]; [assumption|].
  destruct (loaded t i); [apply IH|]; now apply wf_set.
Qed.

Lemma update_slots t h :
  tree_wf t -> slots (update t h).1 = carry (slots t) h /\ tree_wf (update t h).1.
Proof.
  intros Hw. unfold update.
  pose proof (slots_from t 0 Hw ltac:(unfold MAXTREE; lia)) as H0. rewrite drop_0 in H0.
  pose proof (length_slots t Hw) as Hn.
  destruct (loaded t 0) eqn:E.
  - set (x := addhash _ _). split; [|now apply update_from_wf, wf_set].
    rewrite update_from_slots by (try apply wf_set; auto).
    change (slots (set_slot _ 0 false x)) with (slots (set_slot t 0 false x)).
    rewrite slots_set, slot_set_prev by (auto; unfold MAXTREE; lia).
    rewrite take_drop_set by (rewrite Hn; unfold MAXTREE; lia). simpl. rewrite H0. simpl.
    now rewrite drop_0.
  - split; [|now apply wf_set]. cbn [fst]. rewrite slots_set, H0 by assumption. reflexivity.
Qed.

Lemma tree_of_holds l :
  (length l < 2 ^ MAXTREE)%nat -> holds (slots (tree_of l)) l /\ tree_wf (tree_of l).
Proof.
  induction l as [|x l IH] using rev_ind; intros Hl.
  - split; [|apply wf_init]. vm_compute. repeat split.
  - rewrite length_app in Hl; cbn [length] in Hl. unfold tree_of. rewrite foldl_app; cbn [foldl].
    fold (tree_of l). destruct IH as [Hs Hw]; [lia|].
    destruct (update_slots (tree_of l) x Hw) as [-> Hw']. split; [|assumption].
    apply carry_holds; [|assumption]. rewrite length_slots by assumption. lia.
Qed.

Lemma finish_from_collect fuel i t h :
  tree_wf t -> (i + fuel)%nat = MAXTREE ->
  (finish_from fuel i t h).2 = collect (drop i (slots t)) h.
Proof.
  revert i t h; induction fuel as [|fuel IH]; intros i t h Hw Hi; cbn [finish_from].
  - rewrite drop_ge by (rewrite length_slots; auto; lia). reflexivity.
  - rewrite (slots_from t i Hw) by lia.
    destruct (loaded t i); simpl; rewrite IH by (auto; lia); reflexivity.
Qed.

Lemma first_loaded_collect fuel i t :
  tree_wf t -> (i + fuel)%nat = MAXTREE ->
  let k := first_loaded fuel i t in
  (k = MAXTREE /\ collect_first (drop i (slots t)) = zero_hash) \/
  ((k < MAXTREE)%nat /\ collect_first (drop i (slots t)) = collect (drop (S k) (slots t)) (slot t k)).
Proof.
  revert i; induction fuel as [|fuel IH]; intros i Hw Hi; cbn [first_loaded].
  - left. split; [lia|]. now rewrite drop_ge by (rewrite length_slots; auto; lia).
  - rewrite (slots_from t i Hw) by lia. destruct (loaded t i) eqn:E; simpl.
    + right. split; [lia|reflexivity].
    + apply (IH (S i)); [assumption|lia].
Qed.

Lemma finish_collect t : tree_wf t -> (finish t).2 = collect_first (slots t).
Proof.
  intros Hw. unfold finish. rewrite <- (drop_0 (slots t)).
  destruct (first_loaded_collect MAXTREE 0 t Hw eq_refl) as [[-> ->]|[Hk ->]]; [reflexivity|].
  rewrite (proj2 (Nat.eqb_neq _ _)) by lia.
  set (k := first_loaded _ _ _) in *.
  pose proof (finish_from_collect (MAXTREE - S k) (S k) t (slot t k) Hw ltac:(lia)) as Hc.
  destruct (finish_from _ _ _ _). exact Hc.
Qed.

Lemma tree_root_merkle l :
  (length l < 2 ^ MAXTREE)%nat -> Forall is_hash l -> tree_root l = merkle_root l.
Proof.
  intros Hl Hh. destruct (tree_of_holds l Hl) as [Hs Hw].
  unfold tree_root. rewrite finish_collect by assumption.
  apply collect_first_root; [|assumption|assumption]. now rewrite length_slots.
Qed.
End Refinement.

(** C35: feeding any list of fewer than 2^32 hashes to [update] and calling
    [finish] gives the root of the tree that hashes adjacent pairs level by
    level (the empty list gives the zero hash). *)
Theorem hashtree_refines_merkle `{Sha256} (l : list (list Z)) :
  Z.of_nat (length l) < 2 ^ 32 -> Forall is_hash l ->
  (finish (foldl (fun t h => (update t h).1) hashtree_init l)).2 = merkle_root l.
Proof.
  intros Hl Hh. apply tree_root_merkle; [|assumption].
  apply Nat2Z.inj_lt. rewrite Nat2Z.inj_pow. exact Hl.
Qed.

Lemma hashtree_refines_merkle_witness :
  let l := map (fun n => le_bytes 32 n) [5; 7; 11; 13; 17] in
  (finish (H := toy_sha) (foldl (fun t h => (update (H := toy_sha) t h).1) hashtree_init l)).2
    = merkle_root (H := toy_sha) l.
Proof.
  intros l. apply (hashtree_refines_merkle (H := toy_sha)); [vm_compute; reflexivity|].
  repeat apply Forall_cons_2; try apply le_bytes_hash. apply Forall_nil_2.
Defined.

(** The pair hash does not depend on the order of its arguments. *)
Theorem addhash_comm `{Sha256} (a b : list Z) : is_hash a -> is_hash b -> addhash a b = addhash b a.
Proof. intros [Ha _] [Hb _]. apply addhash_comm_len. congruence. Qed.

Lemma addhash_comm_witness :
  addhash (H := toy_sha) (le_bytes 32 9) (le_bytes 32 4) = addhash (H := toy_sha) (le_bytes 32 4) (le_bytes 32 9).
Proof.
  apply addhash_comm; apply le_bytes_hash.
Defined.
