(* ===== verification/Usertxs.v ===== *)
(** The transaction format of [common/user.hpp]: the length table, the two
    scanners [get_size] and [parse], the positions of the signature and of
    the variable fields, and the constructors the node itself uses. *)

From stdpp Require Import base list.
From Stdlib Require Import ZArith Lia.
From S2P Require Import Prelude Params.

(** [sizeof(user_t)] of the packed structure in [common/default.hpp]. *)
Definition sizeof_user_t : Z := 4 + 4 + 32 + 32 + 4 + 4 + 2 + 2 + 4 + 8 + 32.

(** The table has [TXSTYPE_MAX+1] entries and 28 initialisers, so its last
    entry is zero. *)
Definition txslen : list Z := [
  1+3;
  1+2+4+16;
  1+2+4+4+4+2+4+32;
  1+2+4+4+4+2;
  1+2+4+4+4+2+4+8+32;
  1+2+4+4+4+2;
  1+2+4+4+4+2;
  1+2+4+4+4;
  1+2+4+4+4+2+4;
  1+2+4+4+4+32;
  1+2+4+4+4+2+32;
  1+2+4+4+4+2+4+2;
  1+2+4+4+4+2+4;
  1+2+4+4+4+2+4+2;
  1+2+4+4+4+2+4;
  1+2+4+4+4;
  1+2+4+2+4+4;
  1+2+4+2+4+4;
  1+2+4+4+4;
  1+2+4+4+4+4;
  1+2+4+4+4+4+2;
  1+2+4+4+32;
  1+2+4+4+4;
  1+2+4+4+4;
  1+2+4+4+4+2;
  1+2+4+4+4;
  1+2+4+4+4+2+4;
  1+2+4+4+4+2+4+8+32;
  0].

(** [txslen[t]]; [None] when the index is outside the table. *)
Definition txslen_at (t : Z) : option Z := if t <? 0 then None else txslen !! Z.to_nat t.

(** The same for an index the caller has checked. *)
Definition tlen (t : Z) : Z := default 0 (txslen_at t).

(** A byte read through a [char*], which is signed. *)
Definition schar (b : Z) : Z := if b <? 128 then b else b - 256.

(** The first byte of a transaction. *)
Definition txs_type (txs : list Z) : Z := rdz txs 0 1.

Record usertxs := {
  ttype : Z; abank : Z; auser : Z; amsid : Z; ttime : Z;
  bbank : Z; buser : Z; tmass : Z; tinfo : list Z; size : Z
}.

(** [get_size]: the size on the network; [None] is the read outside the
    table that a type byte of 128 or more leads to. *)
Definition get_size (txs : list Z) : option Z :=
  let t := schar (txs_type txs) in
  if TXSTYPE_MAX <=? t then Some 0xFFFFFFFF
  else if t =? TXSTYPE_CON then txslen_at TXSTYPE_CON
  else if t =? TXSTYPE_UOK then txslen_at TXSTYPE_UOK
  else if t =? TXSTYPE_BKY then Some (tlen TXSTYPE_BKY + 64 + 32)
  else if t =? TXSTYPE_USR then Some (tlen TXSTYPE_USR + 64 + 4 + 32)
  else if t =? TXSTYPE_BRO then Some (tlen TXSTYPE_BRO + 64 + rdz txs (1+14) 2)
  else if t =? TXSTYPE_MPT then Some (tlen TXSTYPE_MPT + 64 + rdz txs (1+14) 2 * (6+8))
  else if t =? TXSTYPE_NON then
    let len := rdz txs 1 3 in Some (if len <? 4 then 4 else len)
  else if t =? TXSTYPE_SAV then Some (tlen TXSTYPE_SAV + 64 + sizeof_user_t)
  else let* l := txslen_at t in Some (l + 64).

Definition no_info : list Z := replicate 32 0.

(** [parse] on a fresh [usertxs] (every field starts at zero); [None] is its
    [return(false)]. *)
Definition parse (txs : list Z) : option usertxs :=
  let f := rdz txs in
  let t := txs_type txs in
  let mk am tt bb bu tm ti sz :=
    Some {| ttype := t; abank := f 1%nat 2%nat; auser := f 3%nat 4%nat; amsid := am; ttime := tt;
            bbank := bb; buser := bu; tmass := tm; tinfo := ti; size := sz |} in
  if TXSTYPE_MAX <=? t then None
  else if t =? TXSTYPE_NON then
    let len := f 1%nat 3%nat in
    Some {| ttype := t; abank := 0; auser := 0; amsid := 0; ttime := 0; bbank := 0; buser := 0;
            tmass := 0; tinfo := no_info; size := if len <? 4 then 4 else len |}
  else if t =? TXSTYPE_SAV then mk (f 7 4)%nat (f 11 4)%nat 0 0 0 no_info (tlen t + 64 + sizeof_user_t)
  else
  let size := tlen t + 64 in
  if t =? TXSTYPE_BLK then mk (f 11 4)%nat (f 7 4)%nat 0 (f 15 4)%nat 0 no_info size
  else if t =? TXSTYPE_TXS then mk (f 11 4)%nat (f 7 4)%nat (f 19 2)%nat (f 15 4)%nat 0 no_info size
  else if t =? TXSTYPE_VIP then mk 0 (f 7 4)%nat 0 0 0 (rd txs 11 32) size
  else if (t =? TXSTYPE_SIG) || (t =? TXSTYPE_NDS) || (t =? TXSTYPE_MGS) then
    mk (f 11 4)%nat (f 7 4)%nat 0 0 0 no_info size
  else if t =? TXSTYPE_NOD then mk (f 11 4)%nat (f 7 4)%nat (f 15 2)%nat 0 0 no_info size
  else if t =? TXSTYPE_MSG then mk (f 11 4)%nat (f 7 4)%nat (f 15 2)%nat (f 17 4)%nat 0 no_info size
  else if (t =? TXSTYPE_SUS) || (t =? TXSTYPE_UUS) then
    mk (f 7 4)%nat (f 11 4)%nat (f 15 2)%nat (f 17 4)%nat (f 21 2)%nat no_info size
  else if (t =? TXSTYPE_SBS) || (t =? TXSTYPE_UBS) then
    mk (f 7 4)%nat (f 11 4)%nat (f 15 2)%nat 0 (f 17 4)%nat no_info size
  else if t =? TXSTYPE_CON then mk 0 0 0 0 0 no_info (tlen TXSTYPE_CON)
  else if t =? TXSTYPE_BLG then mk 0 (f 7 4)%nat 0 0 0 no_info size
  else if (t =? TXSTYPE_INF) || (t =? TXSTYPE_LOG) then
    mk 0 (f 13 4)%nat (f 7 2)%nat (f 9 4)%nat 0 no_info size
  else
  let am := (f 7 4)%nat in let tt := (f 11 4)%nat in let bb := (f 15 2)%nat in
  if t =? TXSTYPE_GET then mk am tt bb (f 17 4)%nat 0 no_info size
  else if t =? TXSTYPE_UOK then mk am tt bb (f 17 4)%nat 0 no_info (tlen TXSTYPE_UOK)
  else if t =? TXSTYPE_PUT then mk am tt bb (f 17 4)%nat (i64 (f 21 8)%nat) (rd txs 29 32) size
  else
    mk am tt bb 0 0 no_info
       (if t =? TXSTYPE_BKY then size + 32
        else if t =? TXSTYPE_USR then size + 4 + 32
        else if t =? TXSTYPE_BRO then size + bb
        else if t =? TXSTYPE_MPT then size + bb * (6 + 8)
        else size).

(** The offset of the 64-byte signature ([get_sig]) and the length of what
    it signs ([sign_mlen2]). *)
Definition get_sig (u : usertxs) (buf : list Z) : Z :=
  let t := schar (txs_type buf) in
  if t =? TXSTYPE_BRO then tlen TXSTYPE_BRO + u.(bbank)
  else if t =? TXSTYPE_MPT then tlen TXSTYPE_MPT + u.(bbank) * (6 + 8)
  else tlen t.

Definition sign_mlen2 (u : usertxs) : Z :=
  if u.(ttype) =? TXSTYPE_BRO then tlen TXSTYPE_BRO + u.(bbank)
  else if u.(ttype) =? TXSTYPE_MPT then tlen TXSTYPE_MPT + u.(bbank) * (6 + 8)
  else tlen u.(ttype).

(** The variable fields. *)
Definition usr_off : nat := 1+2+4+4+4+64.
Definition usr (buf : list Z) : list Z := rd buf usr_off (Z.to_nat sizeof_user_t).
Definition key (buf : list Z) : list Z :=
  if txs_type buf =? TXSTYPE_BKY then rd buf (1+2+4+4+4+2) 32 else rd buf (1+2+4+4+4) 32.
Definition opkey (buf : list Z) : list Z := rd buf (1+2+4+4+4+2+32+64) 32.
Definition upkey (buf : list Z) : list Z := rd buf (1+2+4+4+4+2+4) 32.
Definition toaddresses : nat := 1+2+4+4+4+2.
Definition nuser (buf : list Z) : Z := rdz buf (1+2+4+4+4+2+64) 4.
Definition npkey (buf : list Z) : list Z := rd buf (1+2+4+4+4+2+64+4) 32.

(** The target list of a [MPT] transaction: bank, user and amount. *)
Fixpoint mpt_targets (n : nat) (tbuf : list Z) : list (Z * Z * Z) :=
  match n with
  | O => []
  | S n => (rdz tbuf 0 2, rdz tbuf 2 4, i64 (rdz tbuf 6 8)) :: mpt_targets n (drop 14 tbuf)
  end.

(** * Scanning *)

Lemma rdz_bound buf off n : bytes buf -> 0 <= rdz buf off n < 256 ^ Z.of_nat n.
Proof.
  intros H. unfold rdz. pose proof (le_val_bound _ (bytes_rd buf off n H)) as Hb.
  now rewrite length_rd in Hb.
Qed.

Lemma txs_type_bound txs : bytes txs -> 0 <= txs_type txs < 256.
Proof. intros H. exact (rdz_bound txs 0 1 H). Qed.

(** Case analysis on the type of a transaction that parses. *)
Ltac type_cases t :=
  let H := fresh in
  assert (t = 0 \/ t = 1 \/ t = 2 \/ t = 3 \/ t = 4 \/ t = 5 \/ t = 6 \/ t = 7 \/ t = 8 \/ t = 9 \/
          t = 10 \/ t = 11 \/ t = 12 \/ t = 13 \/ t = 14 \/ t = 15 \/ t = 16 \/ t = 17 \/ t = 18 \/
          t = 19 \/ t = 20 \/ t = 21 \/ t = 22 \/ t = 23 \/ t = 24 \/ t = 25 \/ t = 26 \/ t = 27) as H by lia;
  repeat (destruct H as [H|H]).

Lemma parse_type txs u : parse txs = Some u -> u.(ttype) = txs_type txs /\ txs_type txs < TXSTYPE_MAX.
Proof.
  unfold parse. set (t := txs_type txs). intros H.
  destruct (Z.leb_spec TXSTYPE_MAX t); [discriminate|]. split; [|assumption].
  repeat match type of H with (if ?b then _ else _) = _ => destruct b end; now simplify_eq.
Qed.

(** Evaluates the table reads at constant types. *)
Ltac tlen_eval :=
  unfold tlen, sizeof_user_t in *;
  repeat match goal with
  | |- context [from_option id 0 ?x] =>
      let y := eval vm_compute in (from_option id 0 x) in change (from_option id 0 x) with y
  end.

Lemma get_size_parse txs u :
  bytes txs -> parse txs = Some u -> get_size txs = Some u.(size).
Proof.
  intros Hb Hp. pose proof (parse_type _ _ Hp) as [_ Ht].
  pose proof (txs_type_bound txs Hb) as Ht0.
  unfold parse in Hp. unfold get_size, schar. unfold TXSTYPE_MAX in *. cbn [Nat.add] in *.
  remember (txs_type txs) as t eqn:E. clear E.
  type_cases t; subst t; cbn in Hp |- *; simplify_eq; reflexivity.
Qed.

Lemma parse_size txs u : bytes txs -> parse txs = Some u -> 4 <= u.(size) < 2 ^ 24.
Proof.
  intros Hb Hp. pose proof (parse_type _ _ Hp) as [_ Ht].
  pose proof (txs_type_bound txs Hb) as Ht0.
  pose proof (rdz_bound txs 15 2 Hb) as H2. pose proof (rdz_bound txs 1 3 Hb) as H3.
  change (256 ^ Z.of_nat 2) with 65536 in H2. change (256 ^ Z.of_nat 3) with 16777216 in H3.
  unfold parse in Hp. unfold TXSTYPE_MAX in *.
  remember (txs_type txs) as t eqn:E. clear E.
  type_cases t; subst t; cbn in Hp; simplify_eq; cbn [size]; tlen_eval;
    try lia.
  destruct (Z.ltb_spec (rdz txs 1 3) 4); lia.
Qed.

(** The fields of a parsed transaction are in the range of their type. *)
Lemma parse_bounds txs u :
  bytes txs -> parse txs = Some u ->
  0 <= u.(abank) < 2 ^ 16 /\ 0 <= u.(auser) < 2 ^ 32 /\ 0 <= u.(bbank) < 2 ^ 16 /\ 0 <= u.(buser) < 2 ^ 32 /\
  - 2 ^ 63 <= u.(tmass) < 2 ^ 63.
Proof.
  intros Hb Hp.
  pose proof (fun o => rdz_bound txs o 2 Hb) as H2. pose proof (fun o => rdz_bound txs o 4 Hb) as H4.
  change (256 ^ Z.of_nat 2) with (2 ^ 16) in H2. change (256 ^ Z.of_nat 4) with (2 ^ 32) in H4.
  assert (H2' : forall o, - 2 ^ 63 <= rdz txs o 2 < 2 ^ 63) by (intros o; specialize (H2 o); lia).
  assert (H4' : forall o, - 2 ^ 63 <= rdz txs o 4 < 2 ^ 63) by (intros o; specialize (H4 o); lia).
  unfold parse in Hp.
  repeat match type of Hp with (if ?b then _ else _) = _ => destruct b end;
    simplify_eq/=; split_and!; first [apply H2 | apply H4 | apply H2' | apply H4' | apply i64_range | lia].
Qed.

Lemma mpt_targets_bounds n tbuf tbank tuser mass :
  bytes tbuf -> (tbank, tuser, mass) ∈ mpt_targets n tbuf ->
  0 <= tbank < 2 ^ 16 /\ 0 <= tuser < 2 ^ 32 /\ - 2 ^ 63 <= mass < 2 ^ 63.
Proof.
  revert tbuf; induction n as [|n IH]; intros tbuf Hb Hin; cbn [mpt_targets] in Hin.
  - now apply elem_of_nil in Hin.
  - apply elem_of_cons in Hin as [E|Hin]; [|eapply IH, Hin; now apply bytes_drop].
    injection E as -> -> ->. split; [apply (rdz_bound tbuf 0 2 Hb)|].
    split; [apply (rdz_bound tbuf 2 4 Hb) | apply i64_range].
Qed.

(** C37: the scanner that builds the hash tree ([get_size]) and the one that
    executes transactions ([parse]) cut a message at the same places: on every
    transaction [parse] accepts they give the same size, which is at least 4
    (every step of a scan advances) and below 2^24. *)
Theorem parse_get_size txs u :
  bytes txs -> parse txs = Some u -> get_size txs = Some u.(size) /\ 4 <= u.(size) < 2 ^ 24.
Proof. eauto using get_size_parse, parse_size. Qed.

Lemma parse_get_size_witness :
  let txs := [TXSTYPE_BRO; 1; 0; 0; 0; 0; 0; 1; 0; 0; 0; 9; 9; 9; 9; 2; 0; 77; 88] in
  get_size txs = Some 83.
Proof.
  intros txs. assert (Hb : bytes txs) by (apply bytes_check; reflexivity).
  exact (proj1 (parse_get_size txs _ Hb eq_refl)).
Defined.

(** C39: for every transaction signed by a user, [get_sig] points right behind
    the signed part [sign_mlen2], and the 64 signature bytes lie inside the
    transaction. *)
Theorem sig_inside txs u :
  bytes txs -> parse txs = Some u -> TXSTYPE_BRO <= u.(ttype) <= TXSTYPE_SAV ->
  get_sig u txs = sign_mlen2 u /\ 0 < sign_mlen2 u /\ sign_mlen2 u + 64 <= u.(size).
Proof.
  intros Hb Hp Ht. pose proof (parse_type _ _ Hp) as [Et _].
  pose proof (rdz_bound txs 15 2 Hb) as H2. change (256 ^ Z.of_nat 2) with 65536 in H2.
  unfold parse in Hp. unfold get_sig, sign_mlen2, schar. rewrite Et in *.
  unfold TXSTYPE_BRO, TXSTYPE_SAV in Ht. cbn [Nat.add] in *.
  remember (txs_type txs) as t eqn:E. clear E Et.
  type_cases t; subst t; try (exfalso; lia); cbn in Hp; simplify_eq; cbn -[Z.add Z.le Z.lt];
    tlen_eval; lia.
Qed.

Lemma sig_inside_witness :
  let txs := [TXSTYPE_MPT; 1; 0; 0; 0; 0; 0; 1; 0; 0; 0; 9; 9; 9; 9; 2; 0] in
  exists u, parse txs = Some u /\ get_sig u txs = 45 /\ sign_mlen2 u = 45.
Proof.
  intros txs. assert (Hb : bytes txs) by (apply bytes_check; reflexivity).
  destruct (parse txs) as [u|] eqn:E; [|discriminate].
  exists u. split; [reflexivity|].
  destruct (sig_inside txs u Hb E) as [H _]; [vm_compute in E; injection E as <-; vm_compute; split; discriminate|].
  rewrite H. vm_compute in E. injection E as <-. split; reflexivity.
Defined.

(** The length test of [get_size] is made on a signed [char], so a type
    byte of 128 or more passes it and the length table is read outside its
    bounds, while [parse] rejects the same transaction. *)
Theorem get_size_signed_type txs :
  bytes txs -> 128 <= txs_type txs -> get_size txs = None /\ parse txs = None.
Proof.
  intros Hb Ht. pose proof (txs_type_bound txs Hb).
  unfold get_size, parse, schar, txslen_at, TXSTYPE_MAX. cbv zeta.
  rewrite (proj2 (Z.ltb_ge (txs_type txs) 128)) by lia.
  rewrite (proj2 (Z.leb_le 28 (txs_type txs))) by lia.
  rewrite (proj2 (Z.leb_gt 28 (txs_type txs - 256))) by lia.
  rewrite (proj2 (Z.ltb_lt (txs_type txs - 256) 0)) by lia.
  unfold TXSTYPE_CON, TXSTYPE_UOK, TXSTYPE_BKY, TXSTYPE_USR, TXSTYPE_BRO, TXSTYPE_MPT, TXSTYPE_NON, TXSTYPE_SAV.
  repeat rewrite (proj2 (Z.eqb_neq (txs_type txs - 256) _)) by lia. split; reflexivity.
Qed.

Lemma get_size_signed_type_witness : get_size [200; 1; 0] = None /\ parse [200; 1; 0] = None.
Proof.
  apply get_size_signed_type; [apply bytes_check; reflexivity | vm_compute; discriminate].
Defined.

(** * Scanning a whole message body

    The transaction loop [for(; p<end; p+=l)] of [hash_tree] and
    [process_message]: the transactions in order, each as the rest of the
    buffer from its first byte, with its size.  [None] when a transaction does
    not parse or the last one runs past the end. *)

Fixpoint cut (fuel : nat) (p : list Z) (left : Z) : option (list (list Z * usertxs)) :=
  if left <=? 0 then (if left =? 0 then Some [] else None)
  else match fuel with
  | O => None
  | S fuel =>
      let* u := parse p in
      let* rest := cut fuel (drop (Z.to_nat u.(size)) p) (left - u.(size)) in
      Some ((p, u) :: rest)
  end.

(** The fuel that is always enough: one step per four bytes. *)
Lemma cut_fuel fuel p left :
  bytes p -> left <= 4 * Z.of_nat fuel ->
  forall fuel', (fuel <= fuel')%nat -> cut fuel' p left = cut fuel p left.
Proof.
  revert p left; induction fuel as [|fuel IH]; intros p left Hb Hl fuel' Hf.
  - destruct fuel'; cbn [cut]; rewrite (proj2 (Z.leb_le left 0)) by lia; reflexivity.
  - destruct fuel' as [|fuel']; [lia|]. cbn [cut].
    destruct (left <=? 0); [reflexivity|].
    destruct (parse p) as [u|] eqn:E; [|reflexivity].
    pose proof (parse_size p u Hb E) as Hs.
    rewrite IH; [reflexivity | now apply bytes_drop | lia | lia].
Qed.
