(* ===== verification/Accounts.v ===== *)
(** Accounts and nodes of [common/servers.hpp] and [common/default.hpp]: the
    records [user_t] and [node], the account files [usr/%04X.dat], the undo
    files of a block, the account checksum and the consistency check
    [check_nodehash]. *)

From stdpp Require Import base gmap list.
From Stdlib Require Import ZArith Lia.
From S2P Require Import Prelude Params HashTree.

(** * Records *)

Record user_t := {
  u_msid : Z; u_time : Z; u_pkey : list Z; u_hash : list Z; u_lpath : Z; u_user : Z;
  u_node : Z; u_stat : Z; u_rpath : Z; u_weight : Z; u_csum : Z
}.

(** A record of zero bytes: a hole of an account file. *)
Definition zero_user : user_t :=
  {| u_msid := 0; u_time := 0; u_pkey := zero_hash; u_hash := zero_hash; u_lpath := 0; u_user := 0;
     u_node := 0; u_stat := 0; u_rpath := 0; u_weight := 0; u_csum := 0 |}.

#[export] Instance user_inhabited : Inhabited user_t := populate zero_user.

(** [class node]; [n_changed] is the vector of bit words of accounts already
    saved in the undo file of the block. *)
Record node := {
  n_pk : list Z; n_hash : Z; n_msha : list Z; n_msid : Z; n_mtim : Z; n_weight : Z;
  n_status : Z; n_users : Z; n_port : Z; n_ipv4 : Z; n_changed : list Z
}.

Definition zero_node : node :=
  {| n_pk := zero_hash; n_hash := 0; n_msha := zero_hash; n_msid := 0; n_mtim := 0; n_weight := 0;
     n_status := 0; n_users := 0; n_port := 0; n_ipv4 := 0; n_changed := [] |}.

#[export] Instance node_inhabited : Inhabited node := populate zero_node.

(** * Account files

    [usr/%04X.dat] is an array of [user_t]; what was never written reads as
    zeros, as do the holes of the file. *)

Abbreviation bank := (gmap Z user_t).
Abbreviation banks := (gmap Z bank).

Definition get_user (b : bank) (uid : Z) : user_t := b !!! uid.

Definition bank_of (bs : banks) (svid : Z) : bank := bs !!! svid.

Definition write_user (bs : banks) (svid uid : Z) (u : user_t) : banks :=
  <[svid := <[uid := u]> (bank_of bs svid)]> bs.

(** [changed.resize(n)]. *)
Definition resize (n : Z) (ch : list Z) : list Z :=
  take (Z.to_nat n) ch ++ replicate (Z.to_nat n - length ch) 0.

(** The node part of [put_user]: a new account extends the node. *)
Definition put_user_node (n : node) (uid : Z) : node :=
  if n.(n_users) <=? uid then
    n <| n_users := u32 (uid + 1) |> <| n_changed := resize (1 + uid / 64) n.(n_changed) |>
  else n.

(** * Checksums *)

Section Checksum.
Context `{Sha256}.

(** The bytes of the packed [user_t] before [csum]. *)
Definition user_bytes (u : user_t) : list Z :=
  le_bytes 4 u.(u_msid) ++ le_bytes 4 u.(u_time) ++ u.(u_pkey) ++ u.(u_hash) ++
  le_bytes 4 u.(u_lpath) ++ le_bytes 4 u.(u_user) ++ le_bytes 2 u.(u_node) ++
  le_bytes 2 u.(u_stat) ++ le_bytes 4 u.(u_rpath) ++ le_bytes 8 u.(u_weight).

(** [user_csum]: the four words as one 256-bit value, so that [xor4] is
    [Z.lxor]. *)
Definition user_csum (u : user_t) (peer uid : Z) : user_t :=
  u <| u_csum := le_val (SHA256 (user_bytes u ++ le_bytes 2 peer ++ le_bytes 4 uid)) |>.

(** [init_user_hash]; the third update hashes [u.user] a second time, with
    the size of [u.time]. *)
Definition init_user_hash (net : list Z) (u : user_t) : list Z :=
  SHA256 (net ++ le_bytes 2 u.(u_node) ++ le_bytes 4 u.(u_user) ++ le_bytes 4 u.(u_user) ++ u.(u_pkey)).

(** [init_user]; [net] is [nodes[0].msha]. *)
Definition init_user (net : list Z) (peer uid weight : Z) (pk : list Z) (when : Z) : user_t :=
  let u := {| u_msid := 1; u_time := when; u_pkey := pk; u_hash := zero_hash; u_lpath := when;
              u_user := 0; u_node := 0; u_stat := 0; u_rpath := when; u_weight := weight; u_csum := 0 |} in
  user_csum (u <| u_hash := init_user_hash net u |>) peer uid.

(** [init_node_hash]. *)
Definition init_node_hash (net : list Z) (hash : Z) (pk : list Z) : list Z :=
  SHA256 (net ++ le_bytes 32 hash ++ pk).

#[global] Arguments user_csum : simpl never.
#[global] Arguments init_user : simpl never.

Lemma user_csum_weight u peer uid : u_weight (user_csum u peer uid) = u_weight u.
Proof. reflexivity. Qed.

(** The checksum does not depend on the old one. *)
Lemma user_csum_idem u peer uid : user_csum (user_csum u peer uid) peer uid = user_csum u peer uid.
Proof. reflexivity. Qed.
End Checksum.

(** [check_user]. *)
Definition check_user (nodes : list node) (peer uid : Z) : bool :=
  match nodes !! Z.to_nat peer with
  | None => false
  | Some n => negb (n.(n_users) <=? uid)
  end.

(** * Consistency of a bank *)

(** The accounts [0 .. n-1]. *)
Definition uids (n : Z) : list Z := seqZ 0 n.

Definition bank_weights (b : bank) (n : Z) : list Z := (fun i => (get_user b i).(u_weight)) <$> uids n.
Definition bank_csums (b : bank) (n : Z) : list Z := (fun i => (get_user b i).(u_csum)) <$> uids n.

(** The number of records of an account file; reading behind it fails. *)
Definition file_users (b : bank) : Z := foldr Z.max 0 (map (fun p : Z * user_t => p.1 + 1) (map_to_list b)).

(** [lseek] and [read] of one account. [None]: the file ends before it, and what
    the code goes on with was never set. *)
Definition read_user (b : bank) (uid : Z) : option user_t :=
  if uid <? file_users b then Some (get_user b uid) else None.

(** The running [int64_t] sum and xor over the accounts against the totals of
    the node. *)
Definition node_sums (n : node) (b : bank) : bool :=
  let weight := foldl (fun s w => i64 (s + w)) 0 (bank_weights b n.(n_users)) in
  let csum := foldl Z.lxor 0 (bank_csums b n.(n_users)) in
  (n.(n_weight) =? weight) && (n.(n_hash) =? csum).

(** [check_nodehash] on the account file, if there is one. [None]: the file is
    missing or ends before the accounts of the node, and the process exits. *)
Definition check_nodehash (n : node) (file : option bank) : option bool :=
  let* b := file in
  check n.(n_users) <=? file_users b in
  Some (node_sums n b).

(** * The undo file of a block

    [save_undo]: the first saved value of an account in a block stays. *)

Definition changed_bit (ch : list Z) (uid : Z) : bool := Z.testbit (nthz ch (Z.to_nat (uid / 64))) (uid mod 64).

Definition mark_changed (ch : list Z) (uid : Z) : list Z :=
  let i := Z.to_nat (uid / 64) in <[i := Z.lor (nthz ch i) (Z.shiftl 1 (uid mod 64))]> ch.

Fixpoint save_undo_loop (l : list (Z * user_t)) (ch : list Z) (file : bank) : option (list Z * bank) :=
  match l with
  | [] => Some (ch, file)
  | (uid, u) :: l =>
      check (Z.to_nat (uid / 64) <? length ch)%nat in
      if changed_bit ch uid then save_undo_loop l ch file
      else save_undo_loop l (mark_changed ch uid) (<[uid := u]> file)
  end.

(** [None] is the failing [assert(i<nodes[svid].changed.size())]. *)
Definition save_undo (n : node) (undo : gmap Z user_t) (users : Z) (file : bank) : option (node * bank) :=
  let n := if n.(n_users) <=? users then
             n <| n_users := users |> <| n_changed := resize (1 + users / 64) n.(n_changed) |>
           else n in
  let* (ch, file) := save_undo_loop (elems undo) n.(n_changed) file in
  Some (n <| n_changed := ch |>, file).

(** * Lemmas *)

(** The exact totals behind [node_sums]. *)
Definition bank_sum (b : bank) (n : Z) : Z := zsum (bank_weights b n).
Definition bank_xor (b : bank) (n : Z) : Z := zxor (bank_csums b n).

(** ** Totals as sums of a function over the account numbers *)

Definition fsum (f : Z -> Z) (n : Z) : Z := zsum (f <$> uids n).
Definition fxor (f : Z -> Z) (n : Z) : Z := zxor (f <$> uids n).

Lemma uids_succ n : 0 <= n -> uids (n + 1) = uids n ++ [n].
Proof. intros Hn. unfold uids. rewrite seqZ_app by lia. f_equal. Qed.

Lemma fsum_succ f n : 0 <= n -> fsum f (n + 1) = fsum f n + f n.
Proof. intros Hn. unfold fsum. rewrite uids_succ, fmap_app, zsum_app by assumption. cbn. lia. Qed.
Lemma fxor_succ f n : 0 <= n -> fxor f (n + 1) = Z.lxor (fxor f n) (f n).
Proof.
  intros Hn. unfold fxor. rewrite uids_succ, fmap_app, zxor_app by assumption. cbn. now rewrite Z.lxor_0_r.
Qed.

Lemma uids_fmap_ext (f g : Z -> Z) n : (forall i, 0 <= i < n -> f i = g i) -> f <$> uids n = g <$> uids n.
Proof.
  intros E. apply list_fmap_ext. intros i x Hx. apply E.
  unfold uids in Hx. apply lookup_seqZ in Hx. lia.
Qed.

Lemma fsum_ext f g n : (forall i, 0 <= i < n -> f i = g i) -> fsum f n = fsum g n.
Proof. intros E. unfold fsum. now rewrite (uids_fmap_ext f g). Qed.
Lemma fxor_ext f g n : (forall i, 0 <= i < n -> f i = g i) -> fxor f n = fxor g n.
Proof. intros E. unfold fxor. now rewrite (uids_fmap_ext f g). Qed.

(** Changing the value of one account. *)
Lemma uids_fmap_upd (f g : Z -> Z) k n :
  0 <= k < n -> (forall i, i <> k -> g i = f i) ->
  g <$> uids n = <[Z.to_nat k := g k]> (f <$> uids n) /\ (f <$> uids n) !! Z.to_nat k = Some (f k).
Proof.
  intros Hk E. unfold uids. split.
  - apply list_eq. intros i. destruct (decide (i = Z.to_nat k)) as [->|Hi].
    + rewrite list_lookup_insert_eq by (rewrite length_fmap, length_seqZ; lia).
      rewrite list_lookup_fmap, lookup_seqZ_lt by lia. cbn. do 2 f_equal. lia.
    + rewrite list_lookup_insert_ne by congruence. rewrite !list_lookup_fmap.
      destruct (seqZ 0 n !! i) eqn:Ei; [|reflexivity]. cbn. f_equal. apply E.
      apply lookup_seqZ in Ei. lia.
  - rewrite list_lookup_fmap, lookup_seqZ_lt by lia. cbn. do 2 f_equal. lia.
Qed.

Lemma fsum_upd f g k n :
  0 <= k < n -> (forall i, i <> k -> g i = f i) -> fsum g n = fsum f n - f k + g k.
Proof.
  intros Hk E. destruct (uids_fmap_upd f g k n Hk E) as [Eg Ef].
  unfold fsum. rewrite Eg. now apply zsum_insert.
Qed.
Lemma fxor_upd f g k n :
  0 <= k < n -> (forall i, i <> k -> g i = f i) -> fxor g n = Z.lxor (Z.lxor (fxor f n) (f k)) (g k).
Proof.
  intros Hk E. destruct (uids_fmap_upd f g k n Hk E) as [Eg Ef].
  unfold fxor. rewrite Eg. now apply zxor_insert.
Qed.

Lemma bank_sum_fsum b n : bank_sum b n = fsum (fun i => (get_user b i).(u_weight)) n.
Proof. reflexivity. Qed.
Lemma bank_xor_fxor b n : bank_xor b n = fxor (fun i => (get_user b i).(u_csum)) n.
Proof. reflexivity. Qed.

(** ** Account files *)

Lemma bank_of_write bs svid uid u j :
  bank_of (write_user bs svid uid u) j = if decide (j = svid) then <[uid := u]> (bank_of bs svid) else bank_of bs j.
Proof.
  unfold write_user, bank_of at 1. destruct (decide (j = svid)) as [->|Hj].
  - apply lookup_total_insert_eq.
  - now apply lookup_total_insert_ne.
Qed.

Lemma get_user_insert (b : bank) uid u i :
  get_user (<[uid := u]> b) i = if decide (i = uid) then u else get_user b i.
Proof.
  unfold get_user. destruct (decide (i = uid)) as [->|Hi].
  - apply lookup_total_insert_eq.
  - now apply lookup_total_insert_ne.
Qed.

Lemma foldl_i64_sum l s : foldl (fun s w => i64 (s + w)) s l ≡64 s + zsum l.
Proof.
  revert s; induction l as [|w l IH]; intros s; cbn [foldl zsum foldr]; [wrap_solve|].
  rewrite IH, i64_eqm. unfold zsum; cbn [foldr]. wrap_solve.
Qed.

Lemma foldl_i64_range l s : - 2 ^ 63 <= s < 2 ^ 63 -> - 2 ^ 63 <= foldl (fun s w => i64 (s + w)) s l < 2 ^ 63.
Proof. revert s; induction l; intros s Hs; cbn [foldl]; [assumption|]. apply IHl, i64_range. Qed.

Lemma foldl_lxor l s : foldl Z.lxor s l = Z.lxor s (zxor l).
Proof.
  revert s; induction l as [|w l IH]; intros s; cbn [foldl zxor foldr]; [now rewrite Z.lxor_0_r|].
  rewrite IH. apply Z.lxor_assoc.
Qed.

(** ** The length of a file *)

Lemma file_users_spec b uid : file_users b <= uid -> b !! uid = None.
Proof.
  intros Hu. destruct (b !! uid) as [u|] eqn:E; [|reflexivity].
  apply elem_of_map_to_list in E. unfold file_users in Hu.
  assert (Hm : forall l : list Z, uid + 1 ∈ l -> uid + 1 <= foldr Z.max 0 l).
  { induction l as [|x l IH]; intros Hin; [now apply elem_of_nil in Hin|]. cbn. apply elem_of_cons in Hin as [->|Hin]; [lia|]. specialize (IH Hin). lia. }
  set (f := fun p : Z * user_t => p.1 + 1) in Hu. assert (Hin : uid + 1 ∈ map f (map_to_list b)) by exact (list_elem_of_fmap_2 f _ (uid, u) E).
  specialize (Hm _ Hin). lia.
Qed.

Lemma file_users_pos b : 0 <= file_users b.
Proof. unfold file_users. induction (map _ _); cbn; lia. Qed.

(** The last record of a file was written. *)
Lemma file_users_last b : file_users b = 0 \/ is_Some (b !! (file_users b - 1)).
Proof.
  unfold file_users. assert (Hm : forall l : list Z, foldr Z.max 0 l = 0 \/ foldr Z.max 0 l ∈ l).
  { induction l as [|x l IH]; [now left|]. cbn. destruct (Z.max_spec x (foldr Z.max 0 l)) as [[_ ->]|[_ ->]].
    - destruct IH as [->|Hi]; [now left|right; now right].
    - right. left. }
  destruct (Hm (map (fun p : Z * user_t => p.1 + 1) (map_to_list b))) as [E|Hi]; [now left|right].
  apply list_elem_of_fmap in Hi as ([k u] & -> & Hi). apply elem_of_map_to_list in Hi. cbn. exists u. now rewrite Z.add_simpl_r.
Qed.

Lemma file_users_insert b k u : file_users b <= file_users (<[k := u]> b) /\ k + 1 <= file_users (<[k := u]> b).
Proof.
  assert (Hk : forall i, is_Some ((<[k := u]> b) !! i) -> i + 1 <= file_users (<[k := u]> b)).
  { intros i [x Hi]. destruct (Z.le_gt_cases (file_users (<[k := u]> b)) i) as [Hf|]; [|lia]. apply file_users_spec in Hf. congruence. }
  split; [|apply Hk; rewrite lookup_insert_eq; eauto].
  destruct (file_users_last b) as [->|Hl]; [apply file_users_pos|]. specialize (Hk (file_users b - 1)). rewrite lookup_insert_is_Some' in Hk. specialize (Hk (or_intror Hl)). lia.
Qed.

Lemma read_user_Some b uid u : read_user b uid = Some u -> u = get_user b uid.
Proof. unfold read_user. destruct (_ <? _); congruence. Qed.

(** Bank [j] has a file with at least [n] accounts. *)
Definition long_file (bs : banks) (j n : Z) : Prop := exists b, bs !! j = Some b /\ n <= file_users b.

Lemma long_file_write bs svid uid u j n : long_file bs j n -> long_file (write_user bs svid uid u) j n.
Proof.
  intros (b & Eb & Hn). unfold long_file, write_user. destruct (decide (svid = j)) as [->|Hj].
  - rewrite lookup_insert_eq. eexists. split; [reflexivity|]. unfold bank_of. rewrite (lookup_total_correct _ _ _ Eb).
    pose proof (file_users_insert b uid u). lia.
  - rewrite lookup_insert_ne by assumption. eauto.
Qed.

Lemma long_file_new bs svid uid u n : n <= uid + 1 -> long_file (write_user bs svid uid u) svid n.
Proof.
  intros Hn. unfold long_file, write_user. rewrite lookup_insert_eq. eexists. split; [reflexivity|].
  pose proof (file_users_insert (bank_of bs svid) uid u). lia.
Qed.

(** What [node_sums] decides: the weights agree up to wrap-around and the hash
    is the xor of the checksums. *)
Definition bank_ok (n : node) (b : bank) : Prop :=
  n.(n_weight) ≡64 bank_sum b n.(n_users) /\ n.(n_hash) = bank_xor b n.(n_users) /\
  - 2 ^ 63 <= n.(n_weight) < 2 ^ 63.

Lemma node_sums_ok n b :
  - 2 ^ 63 <= n.(n_weight) < 2 ^ 63 -> node_sums n b = true <-> bank_ok n b.
Proof.
  intros Hr. unfold node_sums, bank_ok. rewrite foldl_lxor, Z.lxor_0_l.
  pose proof (foldl_i64_sum (bank_weights b n.(n_users)) 0) as Hs.
  pose proof (foldl_i64_range (bank_weights b n.(n_users)) 0 ltac:(lia)) as Hf.
  rewrite Z.add_0_l in Hs. rewrite andb_true_iff, !Z.eqb_eq. split.
  - intros [-> ->]. now split_and!.
  - intros (Hw & Hx & _). split; [|assumption].
    apply eqm_i64_eq; [assumption..|]. now rewrite Hs.
Qed.

(** A file with all accounts and the right totals passes the check. *)
Lemma check_nodehash_ok n bs j :
  long_file bs j n.(n_users) -> bank_ok n (bank_of bs j) -> check_nodehash n (bs !! j) = Some true.
Proof.
  intros (b & Eb & Hn) Ok. unfold bank_of in Ok. rewrite (lookup_total_correct _ _ _ Eb) in Ok. rewrite Eb.
  unfold check_nodehash. cbn. rewrite (proj2 (Z.leb_le _ _)) by assumption. f_equal. apply node_sums_ok; [apply Ok|exact Ok].
Qed.

Lemma check_nodehash_sums n bs j r :
  check_nodehash n (bs !! j) = Some r -> long_file bs j n.(n_users) /\ node_sums n (bank_of bs j) = r.
Proof.
  unfold check_nodehash, bank_of. destruct (bs !! j) as [b|] eqn:Eb; [|discriminate]. cbn.
  destruct (Z.leb_spec (n_users n) (file_users b)); [|discriminate]. intros [= <-]. rewrite (lookup_total_correct _ _ _ Eb).
  split; [exists b; auto|reflexivity].
Qed.

(** A vector that is resized keeps the marks it has room for. *)
Lemma changed_bit_resize n ch uid : 0 <= uid -> uid / 64 < n -> changed_bit (resize n ch) uid = changed_bit ch uid.
Proof.
  intros Hu Hn. unfold changed_bit, resize, nthz. f_equal. pose proof (Z.div_pos uid 64).
  destruct (decide (Z.to_nat (uid / 64) < length ch)%nat) as [H1|H1].
  - rewrite lookup_app_l by (rewrite length_take; lia). now rewrite lookup_take_lt by lia.
  - rewrite lookup_app_r by (rewrite length_take; lia). rewrite length_take, (lookup_ge_None_2 ch) by lia.
    rewrite lookup_replicate_2 by lia. reflexivity.
Qed.

(** What [save_undo] keeps of the node. *)
Lemma save_undo_node n undo users file n' file' :
  save_undo n undo users file = Some (n', file') ->
  n_weight n' = n_weight n /\ n_hash n' = n_hash n /\ n_msid n' = n_msid n /\ n_msha n' = n_msha n /\
  n_mtim n' = n_mtim n /\ n_status n' = n_status n /\ n_pk n' = n_pk n /\ n_users n' = Z.max (n_users n) users.
Proof.
  unfold save_undo. intros E. destruct (Z.leb_spec (n_users n) users); inv_opt; simplify_eq/=;
    split_and!; try reflexivity; lia.
Qed.
