(* ===== verification/Servers.v ===== *)
(** The block state of [common/servers.hpp]: the [servers] record, the hash
    chain of block headers, the links and headers exchanged while syncing, the
    files [header.hdr] / [servers.srv], the choice of VIP nodes and the
    signatures of a block. *)

From stdpp Require Import base gmap list sorting.
From Stdlib Require Import ZArith Lia.
From S2P Require Import Prelude Params HashTree Usertxs Accounts.

(** * Records *)

Record servers := {
  sv_now : Z; sv_msg : Z; sv_nod : Z; sv_div : Z;
  sv_oldhash : list Z; sv_minhash : list Z; sv_msghash : list Z;
  sv_nodhash : list Z; sv_viphash : list Z; sv_nowhash : list Z;
  sv_vok : Z; sv_vno : Z; sv_vtot : Z; sv_txs : Z;
  sv_nodes : list node
}.

(** [nodes[i]]. *)
Definition nth_node (s : servers) (i : Z) : node := s.(sv_nodes) !!! Z.to_nat i.
Definition set_node (s : servers) (i : Z) (n : node) : servers :=
  s <| sv_nodes := <[Z.to_nat i := n]> s.(sv_nodes) |>.
Definition n_nodes (s : servers) : Z := Z.of_nat (length s.(sv_nodes)).

(** [headlink_t] and [header_t]. *)
Record headlink_t := {
  l_msg : Z; l_nod : Z; l_div : Z; l_msghash : list Z; l_nodhash : list Z; l_viphash : list Z
}.

Record header_t := {
  h_now : Z; h_msg : Z; h_nod : Z; h_div : Z; h_oldhash : list Z; h_msghash : list Z;
  h_nodhash : list Z; h_viphash : list Z; h_nowhash : list Z; h_vok : Z; h_vno : Z
}.

(** * The key file

    [key/key.txt]: [fgets] with a buffer of 255 bytes, [strlen], and the
    characters of a key, each byte read by [strtoul] from two of them. *)

Fixpoint fgets (n : nat) (d : list Z) : list Z :=
  match n, d with
  | S n, c :: d => c :: (if c =? 10 then [] else fgets n d)
  | _, _ => []
  end.

Fixpoint file_lines (fuel : nat) (d : list Z) : list (list Z) :=
  match fuel, d with
  | S fuel, _ :: _ => let l := fgets 254 d in l :: file_lines fuel (drop (length l) d)
  | _, _ => []
  end.

Fixpoint c_string (d : list Z) : list Z :=
  match d with [] => [] | c :: d => if c =? 0 then [] else c :: c_string d end.

Definition hex_digit (c : Z) : option Z :=
  if (48 <=? c) && (c <=? 57) then Some (c - 48)
  else if (65 <=? c) && (c <=? 70) then Some (c - 55)
  else if (97 <=? c) && (c <=? 102) then Some (c - 87)
  else None.

Definition is_space (c : Z) : bool := (c =? 32) || ((9 <=? c) && (c <=? 13)).

(** [strtoul(x,NULL,16)] of two characters, as a byte. *)
Definition hex_byte (a b : Z) : Z :=
  let one := default 0 (hex_digit b) in
  if is_space a || (a =? 43) then one
  else if a =? 45 then u8 (- one)
  else match hex_digit a with
  | None => 0
  | Some x => match hex_digit b with Some y => 16 * x + y | None => x end
  end.

Fixpoint ed25519_text2key (text : list Z) (len : nat) : list Z :=
  match len with
  | O => []
  | S len => hex_byte (nthz text 0) (nthz text 1) :: ed25519_text2key (drop 2 text) len
  end.

(** [find_key]: whether the file has the secret key of [pkey]; [public] is
    [ed25519_publickey]. *)
Definition find_key (public : list Z -> list Z) (file : option (list Z)) (pkey : list Z) : bool :=
  match file with
  | None => false
  | Some d =>
      existsb (fun l => let line := c_string l in
        negb ((nthz l 0 =? 35) || (length line <? 64)%nat) && bool_decide (pkey = public (ed25519_text2key line 32)))
        (file_lines (length d) d)
  end.

Section Blocks.
Context `{Sha256}.

(** * The hash of a block *)

(** [hashnow]: also keeps the hash before the last step as [minhash]. *)
Definition hashnow (s : servers) : servers :=
  let h := SHA256 (le_bytes 4 s.(sv_now) ++ le_bytes 4 s.(sv_msg) ++ le_bytes 4 s.(sv_nod) ++ le_bytes 4 s.(sv_div)) in
  let h := addhash h s.(sv_nodhash) in
  let h := addhash h s.(sv_viphash) in
  let h := addhash h s.(sv_oldhash) in
  s <| sv_minhash := h |> <| sv_nowhash := addhash h s.(sv_msghash) |>.

Definition loadlink (s : servers) (link : headlink_t) (path : Z) (oldh : list Z) : servers :=
  hashnow (s <| sv_now := path |> <| sv_msg := link.(l_msg) |> <| sv_nod := link.(l_nod) |>
             <| sv_div := link.(l_div) |> <| sv_oldhash := oldh |> <| sv_msghash := link.(l_msghash) |>
             <| sv_nodhash := link.(l_nodhash) |> <| sv_viphash := link.(l_viphash) |>).

Definition filllink (s : servers) : headlink_t :=
  {| l_msg := s.(sv_msg); l_nod := s.(sv_nod); l_div := s.(sv_div); l_msghash := s.(sv_msghash);
     l_nodhash := s.(sv_nodhash); l_viphash := s.(sv_viphash) |}.

Definition loadhead (s : servers) (head : header_t) : servers :=
  hashnow (s <| sv_now := head.(h_now) |> <| sv_msg := head.(h_msg) |> <| sv_nod := head.(h_nod) |>
             <| sv_div := head.(h_div) |> <| sv_oldhash := head.(h_oldhash) |>
             <| sv_msghash := head.(h_msghash) |> <| sv_nodhash := head.(h_nodhash) |>
             <| sv_viphash := head.(h_viphash) |>).

Definition header (s : servers) : header_t :=
  {| h_now := s.(sv_now); h_msg := s.(sv_msg); h_nod := s.(sv_nod); h_div := s.(sv_div);
     h_oldhash := s.(sv_oldhash); h_msghash := s.(sv_msghash); h_nodhash := s.(sv_nodhash);
     h_viphash := s.(sv_viphash); h_nowhash := s.(sv_nowhash); h_vok := s.(sv_vok); h_vno := s.(sv_vno) |}.

(** The hash of one node inside [finish]. *)
Definition node_hash (n : node) : list Z :=
  SHA256 (n.(n_pk) ++ le_bytes 32 n.(n_hash) ++ n.(n_msha) ++ le_bytes 4 n.(n_msid) ++ le_bytes 4 n.(n_mtim) ++
          le_bytes 4 n.(n_status) ++ le_bytes 8 n.(n_weight) ++ le_bytes 4 n.(n_users)).

(** The hash of all nodes. *)
Definition nodes_hash (nodes : list node) : list Z := tree_root (map node_hash nodes).

(** [check_nodes]: whether a node list received from a peer has the given
    hash; the loop feeds the bytes of each node to the tree. *)
Fixpoint check_nodes_loop (peer_node : list node) (tree : hashtree) : hashtree :=
  match peer_node with
  | [] => tree
  | n :: peer_node =>
      let hash := SHA256 (n.(n_pk) ++ le_bytes 32 n.(n_hash) ++ n.(n_msha) ++ le_bytes 4 n.(n_msid) ++ le_bytes 4 n.(n_mtim) ++
                          le_bytes 4 n.(n_status) ++ le_bytes 8 n.(n_weight) ++ le_bytes 4 n.(n_users)) in
      check_nodes_loop peer_node (update tree hash).1
  end.

Definition check_nodes (peer_node : list node) (peer_nodehash : list Z) : bool :=
  bool_decide ((finish (check_nodes_loop peer_node hashtree_init)).2 = peer_nodehash).

(** The loop computes the hash that [finish] of the servers stored. *)
Lemma check_nodes_hash ns h : check_nodes ns h = bool_decide (nodes_hash ns = h).
Proof.
  unfold check_nodes, nodes_hash, tree_root, tree_of. enough (E : forall t, check_nodes_loop ns t = foldl (fun t h => (update t h).1) t (map node_hash ns)) by now rewrite E.
  induction ns as [|n ns IH]; intros t; [reflexivity|]. cbn [check_nodes_loop map foldl]. now rewrite IH.
Qed.

(** [copy_nodes] and [overwrite] (the node vector is only extended): field by
    field, [changed] is not copied. *)
Definition peer_copy (to from : node) : node :=
  {| n_pk := from.(n_pk); n_hash := from.(n_hash); n_msha := from.(n_msha); n_msid := from.(n_msid); n_mtim := from.(n_mtim);
     n_weight := from.(n_weight); n_status := from.(n_status); n_users := from.(n_users); n_port := from.(n_port);
     n_ipv4 := from.(n_ipv4); n_changed := to.(n_changed) |}.

Definition copy_nodes (s : servers) (peer_srvn : nat) : option (list node) :=
  if (length s.(sv_nodes) =? peer_srvn)%nat then Some (map (peer_copy zero_node) s.(sv_nodes)) else None.

Definition overwrite (s : servers) (head : header_t) (peer_node : list node) : servers :=
  let nod := Z.to_nat head.(h_nod) in
  let old := s.(sv_nodes) ++ replicate (nod - length s.(sv_nodes)) zero_node in
  s <| sv_now := head.(h_now) |> <| sv_msg := head.(h_msg) |> <| sv_nod := head.(h_nod) |>
    <| sv_div := head.(h_div) |> <| sv_oldhash := head.(h_oldhash) |> <| sv_msghash := head.(h_msghash) |>
    <| sv_nodhash := head.(h_nodhash) |> <| sv_viphash := head.(h_viphash) |>
    <| sv_nowhash := head.(h_nowhash) |> <| sv_vok := head.(h_vok) |> <| sv_vno := head.(h_vno) |>
    <| sv_nodes := zip_with peer_copy (take nod old) peer_node ++ drop nod old |>.

(** [nowh32] and [nowh64]; the latter returns a [uint32_t]. *)
Definition nowh32 (s : servers) : Z := rdz s.(sv_nowhash) 0 4.
Definition nowh64 (s : servers) : Z := u32 (rdz s.(sv_nowhash) 0 8).

(** * VIP nodes *)

(** Eligible nodes in rank order: by weight, descending, stable in the id. *)
Definition eligible (now : Z) (n : node) : bool :=
  negb (has_bits n.(n_status) SERVER_DBL) &&
  negb ((0 <? n.(n_mtim)) && (n.(n_mtim) <? u32 (now - BLOCKDIV * BLOCKSEC))).

Fixpoint insert_rank (x : Z * node) (l : list (Z * node)) : list (Z * node) :=
  match l with
  | [] => [x]
  | y :: l' => if y.2.(n_weight) <? x.2.(n_weight) then x :: l else y :: insert_rank x l'
  end.

(** [std::stable_sort] by decreasing weight. *)
Definition stable_rank (l : list (Z * node)) : list (Z * node) :=
  foldl (fun acc x => insert_rank x acc) [] l.

(** The nodes with their ids. *)
Definition numbered (nodes : list node) : list (Z * node) :=
  zip (seqZ 0 (Z.of_nat (length nodes))) nodes.

Definition svid_rank (s : servers) : list (Z * node) :=
  stable_rank (filter (fun p => eligible s.(sv_now) p.2 = true) (drop 1 (numbered s.(sv_nodes)))).

(** The keys of the other VIPs, in the order of a map by id. *)
Definition vip_keys (rank : list (Z * node)) : gmap Z (list Z) :=
  list_to_map (map (fun p : Z * node => (p.1, p.2.(n_pk))) (take (Z.to_nat VIP_MAX - 1) (drop 1 rank))).

Definition vip_list (s : servers) : option (list (Z * list Z)) :=
  match svid_rank s with
  | [] => None
  | (svid, n) :: _ => Some ((svid, n.(n_pk)) :: elems (vip_keys (svid_rank s)))
  end.

Definition vip_bytes (l : list (Z * list Z)) : list Z :=
  concat (map (fun p : Z * list Z => le_bytes 2 p.1 ++ p.2) l).

(** [update_viphash]: the new state and the content of the file
    [vip/<viphash>.vip].  [None]: no node is eligible and [svid_rank[0]] is
    read from an empty vector. *)
Definition update_viphash (s : servers) : option (servers * list Z) :=
  let* vips := vip_list s in
  let h := foldl (fun h p => addhash h p.2) zero_hash vips in
  let i := Z.min VIP_MAX (Z.of_nat (length (svid_rank s))) in
  Some (s <| sv_viphash := h |> <| sv_vtot := u16 (if i <? VIP_MAX then i else VIP_MAX) |>, vip_bytes vips).

(** [vip_check]: recomputes the hash from the keys of the file. *)
Fixpoint vip_hash_run (num : nat) (h vipkeys : list Z) : list Z :=
  match num with
  | O => h
  | S num => vip_hash_run num (addhash h (rd vipkeys 0 32)) (drop (32 + 2) vipkeys)
  end.

Definition vip_check (viphash vipkeys : list Z) (num : nat) : bool :=
  bool_decide (vip_hash_run num zero_hash (drop 2 vipkeys) = viphash).

(** The loop of [update_vipstatus] over the file [buf] (without its length
    prefix); [None] is the failing assertion on the node id. *)
Fixpoint mark_vips (fuel : nat) (first : bool) (buf : list Z) (s : servers) : option servers :=
  match buf with
  | [] => Some s
  | _ =>
    match fuel with
    | O => None
    | S fuel =>
        let svid := rdz buf 0 2 in
        check (0 <? svid) && (svid <? n_nodes s) in
        let n := nth_node s svid in
        let st := Z.lor n.(n_status) SERVER_VIP in
        let st := if first then Z.lor st SERVER_UNO else st in
        mark_vips fuel false (drop (2 + 32) buf) (set_node s svid (n <| n_status := st |>))
    end
  end.

Definition clear_vips (s : servers) : servers :=
  s <| sv_nodes := match s.(sv_nodes) with
                   | [] => []
                   | n0 :: ns => n0 :: map (fun n => n <| n_status := clear_bits n.(n_status) (Z.lor SERVER_VIP SERVER_UNO) |>) ns
                   end |>.

(** [update_vipstatus]; [vips] are the files of [vip/] by hash. *)
Definition update_vipstatus (s : servers) (vips : gmap (list Z) (list Z)) :
    option (servers * gmap (list Z) (list Z)) :=
  let s := clear_vips s in
  let* (s, vips, buf) :=
    match vips !! s.(sv_viphash) with
    | Some (b :: buf) => Some (s, vips, b :: buf)
    | _ => let* (s, data) := update_viphash s in
           Some (s, <[s.(sv_viphash) := data]> vips, data)
    end in
  let* s := mark_vips (length buf) true buf s in
  Some (s, vips).

(** [get_vipuno]: the first node with the UNO bit, 0 when there is none. *)
Definition get_vipuno (s : servers) : Z :=
  match filter (fun p => has_bits p.2.(n_status) SERVER_UNO = true) (drop 1 (numbered s.(sv_nodes))) with
  | [] => 0
  | p :: _ => p.1
  end.

End Blocks.
