(* ===== verification/Ledger.v ===== *)
(** The ledger state of [escd/server.hpp] and the parts of [escd/server.cpp]
    shared by the execution of messages and of blocks: transaction
    identifiers, the state and its events, [dividend], the logs. *)

From stdpp Require Import base gmap list.
From Stdlib Require Import ZArith Lia.
From S2P Require Import Prelude Params HashTree Usertxs Accounts Servers.

(** * Data *)

Record log_t := {
  lg_time : Z; lg_type : Z; lg_node : Z; lg_nmid : Z; lg_mpos : Z; lg_user : Z; lg_umid : Z;
  lg_weight : Z; lg_info : list Z
}.

Record get_t := { g_auser : Z; g_buser : Z; g_pkey : list Z }.
Record usr_t := { us_auser : Z; us_bbank : Z; us_pkey : list Z }.
Record uok_t := { uo_auser : Z; uo_bbank : Z; uo_buser : Z; uo_pkey : list Z }.

(** Pending deposit and status changes of a local account. *)
Record dsu_t := { d_deposit : Z; d_sus : Z; d_uus : Z }.
Definition zero_dsu : dsu_t := {| d_deposit := 0; d_sus := 0; d_uus := 0 |}.
#[export] Instance dsu_inhabited : Inhabited dsu_t := populate zero_dsu.

(** A message of transactions: the part of [class message] execution reads.
    [m_data] is the whole buffer, hash tree included; [m_len] the length of
    the message proper. *)
Record message := {
  m_svid : Z; m_msid : Z; m_now : Z; m_path : Z; m_status : Z; m_len : Z; m_data : list Z
}.

(** The undo file of one message. *)
Record msg_undo := {
  mu_undo : gmap Z user_t; mu_users : Z; mu_csum : Z; mu_weight : Z; mu_fee : Z;
  mu_msha : list Z; mu_mtim : Z
}.

(** Calls into the office of this node. *)
Inductive event :=
  | EvRemoteUser (abank auser : Z) (pkey : list Z)
  | EvChangePkey (pkey : list Z)
  | EvGup (auser node user time delta : Z)
  | EvDeposit (user weight : Z)
  | EvDeleteUser (user : Z).

Record server := {
  srvs_ : servers;
  last_srvs_ : servers;
  usr_ : banks;                              (* usr/%04X.dat *)
  und_ : gmap (Z * Z) bank;                  (* undo files of a block: (block, bank) *)
  msgund_ : gmap (Z * Z * Z) msg_undo;       (* undo file of a message: (block, bank, msid) *)
  deposit : gmap Z Z;
  blk_bky : gmap Z Z;
  blk_bnk : gmap Z Z;
  blk_get : gmap Z get_t;
  blk_usr : gmap Z usr_t;
  blk_uok : gmap Z uok_t;
  blk_sbs : gmap Z Z;
  blk_ubs : gmap Z Z;
  bank_fee : list Z;
  mydiv_fee : Z;
  myusr_fee : Z;
  myget_fee : Z;
  period_start : Z;
  pkey_ : list Z;
  msglog_ : gmap (Z * Z * Z) (list (Z * log_t)); (* log files: (block, bank, msid) *)
  brolog_ : gmap Z (list Z);                 (* bro.log of a block *)
  events : list event
}.

(** What the code reads from its options and surroundings: this node's id, the
    sync flags, the clock, the key file, the public key of a secret one
    ([ed25519_publickey]), the signature check [ed25519_sign_open_batch2] on
    (first part, second part, key, signature), and the number that is found in
    memory where a vector of nodes is read behind its end. *)
Record env := {
  e_svid : Z; e_do_sync : bool; e_iamvip : bool; e_block_only : bool; e_start_path : Z;
  e_office : bool; e_time : Z;
  e_key_file : option (list Z); e_public : list Z -> list Z;
  e_sign_open : list (list Z * list Z * list Z * list Z) -> bool;
  e_stray : Z -> Z
}.

Definition e_find_key (e : env) (pkey : list Z) : bool := find_key e.(e_public) e.(e_key_file) pkey.

(** A routine that returns, returns [false] (with what it changed), or ends
    the process ([exit] or a failed [assert]). *)
Inductive res (A : Type) :=
  | Ok (a : A)
  | Rej (s : server)
  | Ex.
Arguments Ok {A} a.
Arguments Rej {A} s.
Arguments Ex {A}.

Definition rbind {A B} (c : res A) (k : A -> res B) : res B :=
  match c with Ok a => k a | Rej s => Rej s | Ex => Ex end.

Notation "'do' x '<-' c 'in' k" := (rbind c (fun x => k))
  (at level 10, x pattern, c at level 100, k at level 200) : esc_scope.

(** [if(!b) return(false)] in state [s]. *)
Notation "'require' b 'else' s 'in' k" := (if b then k else Rej s)
  (at level 10, b at level 100, s at level 9, k at level 200) : esc_scope.

(** * Identifiers *)

(** [make_ppi]: four 16-bit fields, the bank [bbank] in the top one. *)
Definition make_ppi (tmpos omsid amsid abank bbank : Z) : Z :=
  u16 tmpos + 2 ^ 16 * u16 (amsid - omsid) + 2 ^ 32 * u16 abank + 2 ^ 48 * u16 bbank.

Definition ppi_v16 (ppi i : Z) : Z := (ppi / 2 ^ (16 * i)) mod 2 ^ 16.
Definition ppi_abank (ppi : Z) : Z := ppi_v16 ppi 2.
Definition ppi_bbank (ppi : Z) : Z := ppi_v16 ppi 3.

(** [ppi_txid]: it overwrites the top field with the position before it uses
    that field as the node index, which may be behind the last node. *)
Definition ppi_txid (e : env) (last : servers) (ppi : Z) : Z :=
  let v3 := ppi_v16 ppi 0 in
  let msid := match last.(sv_nodes) !! Z.to_nat v3 with Some n => n.(n_msid) | None => e.(e_stray) v3 end in
  let lo := u32 (msid + ppi_v16 ppi 1) in
  lo + 2 ^ 32 * ppi_v16 ppi 2 + 2 ^ 48 * v3.

(** The key of a deposit: user in the low word, bank in the high one. *)
Definition dep_key (bank user : Z) : Z := user + 2 ^ 32 * bank.

(** * Fees of holding an account *)

Definition NODIV : Z := i64 0x8FFFFFFFFFFFFFFF.

(** [dividend(u,fee)]: the account, the fee and the returned value. *)
Definition dividend (s : server) (u : user_t) (fee : Z) : user_t * Z * Z :=
  let now := s.(srvs_).(sv_now) in
  if (u.(u_rpath) <? s.(period_start)) && (u.(u_lpath) <? s.(period_start)) then
    let div :=
      if u.(u_lpath) <? u32 (now - ACCOUNT_DORMANT_AGE) then - TXS_GOK_FEE u.(u_weight)
      else if u.(u_lpath) <? u32 (now - ACCOUNT_INACTIVE_AGE) then 0
      else i64 (Z.shiftr u.(u_weight) 16 * s.(srvs_).(sv_div)) in
    let div := i64 (div - TXS_DIV_FEE) in
    let '(div, fee) := if div <? i64 (- u.(u_weight)) then (i64 (- u.(u_weight)), fee) else (div, i64 (fee + TXS_DIV_FEE)) in
    (u <| u_rpath := now |> <| u_weight := i64 (u.(u_weight) + div) |>, fee, div)
  else (u, fee, NODIV).

(** A weight in the range of [int64_t]. *)
Definition wrange (u : user_t) : Prop := - 2 ^ 63 <= u.(u_weight) < 2 ^ 63.

(** The change of a total by the value [dividend] returned. *)
Definition add_div (div w : Z) : Z := if div =? NODIV then w else i64 (w + div).

(** * Updates of the state *)

Definition cur_node (s : server) (i : Z) : node := nth_node s.(srvs_) i.
Definition last_node (s : server) (i : Z) : node := nth_node s.(last_srvs_) i.
Definition put_cur_node (s : server) (i : Z) (n : node) : server := s <| srvs_ ::= fun v => set_node v i n |>.

(** [srvs_.put_user]. *)
Definition put_user (s : server) (u : user_t) (peer uid : Z) : server :=
  let s := s <| usr_ ::= fun b => write_user b peer uid u |> in
  put_cur_node s peer (put_user_node (cur_node s peer) uid).

(** [srvs_.save_undo]: the file is the one of the current block. *)
Definition server_save_undo (s : server) (svid : Z) (undo : gmap Z user_t) (users : Z) : option server :=
  let k := (s.(srvs_).(sv_now), svid) in
  let* (n, file) := save_undo (cur_node s svid) undo users (s.(und_) !!! k) in
  Some ((put_cur_node s svid n) <| und_ ::= <[k := file]> |>).

(** [bank_fee[i] += d]. *)
Definition add_fee (l : list Z) (i d : Z) : list Z :=
  <[Z.to_nat i := i64 (nthz l (Z.to_nat i) + d)]> l.

(** [put_msglog]: a message log is written anew, the block log (msid 0) is
    appended. *)
Definition put_msglog (s : server) (now svid msid : Z) (log : gmap Z log_t) : server :=
  let recs := map (fun p : Z * log_t => (u32 (p.1 / 2 ^ 32), p.2)) (elems log) in
  let old := if msid =? 0 then s.(msglog_) !!! (now, svid, msid) else [] in
  s <| msglog_ ::= <[(now, svid, msid) := old ++ recs]> |>.

Definition del_msglog (s : server) (now svid msid : Z) : server :=
  s <| msglog_ ::= delete (now, svid, msid) |>.

(** [log_broadcast]: appends the transaction with the sender's hash and key. *)
Definition log_broadcast (s : server) (path : Z) (txs hash pkey : list Z) (msid mpos : Z) : server :=
  s <| brolog_ ::= fun f => <[path := f !!! path ++ txs ++ hash ++ pkey ++ le_bytes 4 msid ++ le_bytes 4 mpos]> f |>.

Definition emit (s : server) (ev : event) : server := s <| events ::= fun l => l ++ [ev] |>.

(** * Lemmas *)

Lemma rbind_Ok {A B} (c : res A) (k : A -> res B) b :
  rbind c k = Ok b -> exists a, c = Ok a /\ k a = Ok b.
Proof. destruct c; simpl; intros; try discriminate. eauto. Qed.

Lemma Ok_inj {A} (a b : A) : Ok a = Ok b -> a = b.
Proof. now intros [= ->]. Qed.
Lemma pair_inj {A B} (a a' : A) (b b' : B) : (a, b) = (a', b') -> a = a' /\ b = b'.
Proof. now intros [= -> ->]. Qed.

(** Eliminates the variable of an equation. *)
Ltac subst_eq E :=
  match type of E with ?x = ?y => first [is_var y; subst y | is_var x; subst x | idtac] end.

(** [inv_ok] opens a hypothesis that a routine returned normally. *)
Ltac inv_ok :=
  repeat match goal with
  | H : rbind _ _ = Ok _ |- _ =>
      let a := fresh "r" in let E := fresh "E" in
      apply rbind_Ok in H as (a & E & H);
      repeat match type of a with (_ * _)%type => let x := fresh "x" in destruct a as [a x] end
  | H : (if ?b then _ else Rej _) = Ok _ |- _ =>
      let E := fresh "C" in destruct b eqn:E; [|discriminate H]
  | H : (if ?b then Rej _ else _) = Ok _ |- _ =>
      let E := fresh "C" in destruct b eqn:E; [discriminate H|]
  | H : (if ?b then _ else Ex) = Ok _ |- _ =>
      let E := fresh "C" in destruct b eqn:E; [|discriminate H]
  | H : (if ?b then Ex else _) = Ok _ |- _ =>
      let E := fresh "C" in destruct b eqn:E; [discriminate H|]
  | H : Ok _ = Ok _ |- _ =>
      apply Ok_inj in H;
      repeat match type of H with
      | (_, _) = (_, _) => let E := fresh "E" in apply pair_inj in H as [H E]; subst_eq E
      end; subst_eq H
  end.

Lemma cur_put s i n j :
  0 <= i < n_nodes s.(srvs_) -> 0 <= j -> cur_node (put_cur_node s i n) j = if decide (j = i) then n else cur_node s j.
Proof.
  intros Hi Hj. unfold n_nodes in Hi. unfold cur_node, put_cur_node, set_node, nth_node; cbn.
  destruct (decide (j = i)) as [->|Hn].
  - apply list_lookup_total_insert_eq. lia.
  - apply list_lookup_total_insert_ne. lia.
Qed.

Lemma length_put s i n : length (put_cur_node s i n).(srvs_).(sv_nodes) = length s.(srvs_).(sv_nodes).
Proof. unfold put_cur_node, set_node. cbn. apply length_insert. Qed.

(** With a rate below a quarter no value of [dividend] is mistaken for "none":
    the change of the total is the change of the account. *)
Lemma dividend_weight s u fee u' fee' div :
  0 <= s.(srvs_).(sv_div) < 2 ^ 14 -> wrange u -> dividend s u fee = (u', fee', div) ->
  wrange u' /\ u_csum u' = u_csum u /\ u_msid u' = u_msid u /\
  forall w, add_div div w ≡64 w + (u_weight u' - u_weight u).
Proof.
  unfold wrange, dividend, add_div. intros Hd Hw E.
  destruct (_ && _); [|injection E as <- <- <-; rewrite Z.eqb_refl; split_and!; try lia; intros; apply eqm_eq; lia].
  cbv zeta in E. match type of E with context [i64 (?d - TXS_DIV_FEE)] => set (d0 := d) in E end.
  assert (Hd0 : - 2 ^ 61 <= d0 <= 2 ^ 61).
  { subst d0. clear E. destruct (u_lpath u <? _); [|destruct (u_lpath u <? _); [lia|]].
    - unfold TXS_GOK_FEE. Z.to_euclidean_division_equations. lia.
    - assert (- 2 ^ 47 <= Z.shiftr (u_weight u) 16 < 2 ^ 47).
      { rewrite Z.shiftr_div_pow2 by lia. Z.to_euclidean_division_equations. lia. }
      rewrite i64_small; nia. }
  clearbody d0. rewrite (i64_small (d0 - TXS_DIV_FEE)) in E by (unfold TXS_DIV_FEE; lia).
  assert (Hm : i64 (- u_weight u) = - u_weight u \/ i64 (- u_weight u) = - 2 ^ 63).
  { destruct (decide (u_weight u = - 2 ^ 63)) as [->|]; [now right|left; apply i64_small; lia]. }
  change NODIV with (-8070450532247928833).
  destruct (Z.ltb_spec (d0 - TXS_DIV_FEE) (i64 (- u_weight u))) as [Hlt|Hge]; injection E as <- <- <-.
  - rewrite (proj2 (Z.eqb_neq (i64 (- u_weight u)) _)) by (unfold TXS_DIV_FEE in *; lia).
    split_and!; try reflexivity; try apply i64_range. intros w. cbn. wrap_solve.
  - rewrite (proj2 (Z.eqb_neq (d0 - TXS_DIV_FEE) _)) by (unfold TXS_DIV_FEE in *; lia).
    split_and!; try reflexivity; try apply i64_range. intros w. cbn. wrap_solve.
Qed.

(** The fields of an identifier are read back as they were packed. *)
Lemma ppi_fields a b c d i :
  0 <= a < 2 ^ 16 -> 0 <= b < 2 ^ 16 -> 0 <= c < 2 ^ 16 -> 0 <= d < 2 ^ 16 ->
  (i = 0 \/ i = 1 \/ i = 2 \/ i = 3) ->
  ppi_v16 (a + 2 ^ 16 * b + 2 ^ 32 * c + 2 ^ 48 * d) i =
    if i =? 0 then a else if i =? 1 then b else if i =? 2 then c else d.
Proof.
  intros Ha Hb Hc Hd Hi. unfold ppi_v16.
  assert (Hdiv : forall x k m, 0 <= x < m -> (x + k * m) / m = k)
    by (intros; rewrite Z.div_add, Z.div_small; lia).
  assert (Hmod : forall x k, 0 <= x < 2 ^ 16 -> (x + k * 2 ^ 16) mod 2 ^ 16 = x)
    by (intros; rewrite Z.mod_add, Z.mod_small; lia).
  destruct Hi as [->|[->|[->| ->]]]; cbn [Z.eqb Z.mul Pos.eqb].
  - rewrite Z.div_1_r.
    replace (a + _ + _ + _) with (a + (b + 2 ^ 16 * c + 2 ^ 32 * d) * 2 ^ 16) by lia. auto.
  - replace (a + _ + _ + _) with (a + (b + (c + 2 ^ 16 * d) * 2 ^ 16) * 2 ^ 16) by lia.
    change (16 * 1) with 16. rewrite Hdiv by lia. auto.
  - replace (a + _ + _ + _) with ((a + 2 ^ 16 * b) + (c + d * 2 ^ 16) * 2 ^ 32) by lia.
    change (16 * 2) with 32. rewrite Hdiv by lia. auto.
  - replace (a + _ + _ + _) with ((a + 2 ^ 16 * b + 2 ^ 32 * c) + d * 2 ^ 48) by lia.
    change (16 * 3) with 48. rewrite Hdiv by lia. apply Z.mod_small. lia.
Qed.
