(* ===== verification/Process.v ===== *)
(** [server::process_message] and [server::undo_message] of
    [escd/server.cpp]: the execution of a message of transactions and its
    reversal.  The local variables of [process_message] are the record
    [locals]; one transaction is [process_tx]; what follows the loop is
    [commit_message]. *)

From stdpp Require Import base gmap list.
From Stdlib Require Import ZArith Lia.
From S2P Require Import Prelude Params HashTree Usertxs Accounts Servers Ledger.

Record locals := {
  l_log : gmap Z log_t;
  l_changes : gmap Z user_t;
  l_undo : gmap Z user_t;
  l_dsu : gmap Z dsu_t;
  l_deposit : gmap Z Z;
  l_bky : gmap Z (list Z);
  l_bnk : gmap Z Z;
  l_get : gmap Z get_t;
  l_usr : gmap Z usr_t;
  l_uok : gmap Z uok_t;
  l_sbs : gmap Z Z;
  l_ubs : gmap Z Z;
  l_users : Z;
  l_lpos : Z;
  l_csum : Z;
  l_weight : Z;
  l_local_fee : Z;
  l_lodiv_fee : Z;
  l_myput_fee : Z;
  l_tmpos : Z;
  l_sigs : list (list Z * list Z * list Z * list Z)
}.

Definition locals_init (users : Z) : locals :=
  {| l_log := ∅; l_changes := ∅; l_undo := ∅; l_dsu := ∅; l_deposit := ∅; l_bky := ∅; l_bnk := ∅;
     l_get := ∅; l_usr := ∅; l_uok := ∅; l_sbs := ∅; l_ubs := ∅; l_users := users; l_lpos := 1;
     l_csum := 0; l_weight := 0; l_local_fee := 0; l_lodiv_fee := 0; l_myput_fee := 0; l_tmpos := 0;
     l_sigs := [] |}.

(** What one transaction costs its sender: [deduct], [fee], [remote_fee], the
    amount kept in [utxs.tmass] for the log and the [MPT] targets in this
    node's bank. *)
Record cost := {
  c_deduct : Z; c_fee : Z; c_remote : Z; c_tmass : Z; c_mpt : list (Z * Z)
}.
Definition flat (fee tmass : Z) : cost :=
  {| c_deduct := 0; c_fee := fee; c_remote := 0; c_tmass := tmass; c_mpt := [] |}.

Section Process.
Context `{Sha256}.

(** * Accounts touched by the message *)

(** The first access to an account copies it to [changes] and [undo]. *)
Definition load_account (b : bank) (uid : Z) (l : locals) : user_t * locals :=
  match l.(l_changes) !! uid with
  | Some u => (u, l)
  | None =>
      let u := get_user b uid in
      (u, l <| l_changes ::= <[uid := u]> |> <| l_undo ::= <[uid := u]> |>)
  end.

(** The test that allows an account to be overwritten. *)
Definition reusable (now : Z) (u : user_t) : bool :=
  negb (negb (has_bits u.(u_stat) USER_STAT_DELETED) || (TXS_DIV_FEE <=? u.(u_weight)) ||
        (now - USER_MIN_AGE <=? u.(u_lpath))).

(** The creation of a local account by [USR] or [UOK]. *)
Definition open_account (s : server) (svid nuser mass : Z) (npkey : list Z) (ttime : Z) (l : locals) :
    res (server * locals) :=
  require (nuser <=? l.(l_users)) else s in
  do (usera, l) <-
    (if nuser <? l.(l_users) then
       let '(u, l) := load_account (bank_of s.(usr_) svid) nuser l in
       require (reusable s.(srvs_).(sv_now) u) else s in
       Ok (u, l <| l_local_fee ::= fun f => i64 (f + u.(u_weight)) |>
                <| l_weight ::= fun w => i64 (w - u.(u_weight)) |>)
     else Ok (zero_user, l <| l_users ::= fun n => u32 (n + 1) |>)) in
  let nu := init_user (cur_node s 0).(n_msha) svid nuser mass npkey ttime in
  let l := l <| l_csum ::= fun c => Z.lxor (Z.lxor c usera.(u_csum)) nu.(u_csum) |>
             <| l_changes ::= <[nuser := nu]> |> in
  Ok (put_user s nu svid nuser, l).

(** * The kinds of transactions *)

(** Adding to the pending changes of a local account. *)
Definition dsu_deposit (uid mass : Z) (d : gmap Z dsu_t) : gmap Z dsu_t :=
  <[uid := (d !!! uid) <| d_deposit ::= fun x => u64 (x + mass) |>]> d.

(** [PUT]. *)
Definition tx_put (e : env) (s : server) (u : usertxs) (l : locals) : res (cost * locals) :=
  let mass := if u.(tmass) <? 0 then 0 else u.(tmass) in
  require (check_user s.(srvs_).(sv_nodes) u.(bbank) u.(buser)) else s in
  let l := if u.(bbank) =? u.(abank) then l <| l_dsu ::= dsu_deposit u.(buser) mass |>
           else l <| l_deposit ::= add_at (dep_key u.(bbank) u.(buser)) mass |> in
  let remote := negb (u.(abank) =? u.(bbank)) in
  let l := if remote && (u.(bbank) =? e.(e_svid)) then l <| l_myput_fee ::= fun f => i64 (f + TXS_LNG_FEE mass) |> else l in
  let remote_fee := if remote then TXS_LNG_FEE mass else 0 in
  let fee := i64 (TXS_PUT_FEE mass + remote_fee) in
  let fee := if fee <? TXS_MIN_FEE then TXS_MIN_FEE else fee in
  Ok ({| c_deduct := mass; c_fee := fee; c_remote := remote_fee; c_tmass := mass; c_mpt := [] |}, l).

(** The loop of [MPT] over its targets; [out] are the targets already seen. *)
Fixpoint mpt_loop (e : env) (s : server) (abank : Z) (out : gset Z) (ts : list (Z * Z * Z)) (c : cost) (l : locals) :
    res (cost * locals) :=
  match ts with
  | [] => Ok (c, l)
  | (tbank, tuser, mass) :: ts =>
      let to := dep_key tbank tuser in
      require (0 <? mass) else s in
      require (bool_decide (to ∉ out)) else s in
      require (check_user s.(srvs_).(sv_nodes) tbank tuser) else s in
      let l := if tbank =? abank then l <| l_dsu ::= dsu_deposit tuser mass |>
               else l <| l_deposit ::= add_at to mass |> in
      let mine := tbank =? e.(e_svid) in
      let remote := negb (abank =? tbank) in
      let l := if remote && mine then l <| l_myput_fee ::= fun f => i64 (f + TXS_LNG_FEE mass) |> else l in
      let fee := i64 (c.(c_fee) + TXS_MPT_FEE mass) in
      let c := {| c_deduct := 0;
                  c_fee := if remote then i64 (fee + TXS_LNG_FEE mass) else fee;
                  c_remote := if remote then i64 (c.(c_remote) + TXS_LNG_FEE mass) else c.(c_remote);
                  c_tmass := i64 (c.(c_tmass) + mass);
                  c_mpt := if mine then c.(c_mpt) ++ [(tuser, mass)] else c.(c_mpt) |} in
      mpt_loop e s abank ({[to]} ∪ out) ts c l
  end.

(** [MPT]. *)
Definition tx_mpt (e : env) (s : server) (p : list Z) (u : usertxs) (l : locals) : res (cost * locals) :=
  let ts := mpt_targets (Z.to_nat u.(bbank)) (drop toaddresses p) in
  do (c, l) <- mpt_loop e s u.(abank) ∅ ts (flat 0 0) l in
  let fee := if c.(c_fee) <? TXS_MINMPT_FEE u.(bbank) then TXS_MINMPT_FEE u.(bbank) else c.(c_fee) in
  Ok (c <| c_fee := fee |> <| c_deduct := c.(c_tmass) |>, l).

(** The identifier of the transaction with target bank [bbank]. *)
Definition tx_ppi (s : server) (m : message) (l : locals) (bbank : Z) : Z :=
  make_ppi l.(l_tmpos) (last_node s m.(m_svid)).(n_msid) m.(m_msid) m.(m_svid) bbank.

(** [USR]: a remote request is recorded and passed to the office of its bank. *)
Definition tx_usr (e : env) (s : server) (m : message) (p : list Z) (u : usertxs) (l : locals) :
    server * cost * locals :=
  let remote := negb (u.(abank) =? u.(bbank)) in
  let c := {| c_deduct := USER_MIN_MASS;
              c_fee := TXS_USR_FEE + (if remote then TXS_RUS_FEE else 0);
              c_remote := if remote then TXS_RUS_FEE else 0; c_tmass := 0; c_mpt := [] |} in
  if remote then
    let r := {| us_auser := u.(auser); us_bbank := u.(bbank); us_pkey := npkey p |} in
    let s := if u.(bbank) =? e.(e_svid) then emit s (EvRemoteUser u.(abank) u.(auser) r.(us_pkey)) else s in
    (s, c, l <| l_usr ::= <[tx_ppi s m l m.(m_svid) := r]> |>)
  else (s, c, l).

(** The node whose key a [BKY] transaction changes, 0 for none. *)
Definition bky_node (s : server) (svid bbank : Z) : Z :=
  if bbank =? 0 then svid
  else if has_bits (cur_node s svid).(n_status) SERVER_UNO && has_bits (last_node s bbank).(n_status) SERVER_DBL
       then bbank else 0.

(** [BKY]. *)
Definition tx_bky (e : env) (s : server) (m : message) (p : list Z) (u : usertxs) (l : locals) :
    res (server * cost * locals) :=
  require (u.(auser) =? 0) else s in
  require (u.(bbank) <? n_nodes s.(last_srvs_)) else s in
  let node := bky_node s m.(m_svid) u.(bbank) in
  if node =? 0 then Ok (s, flat TXS_BKY_FEE 0, l)
  else
    require (bool_decide ((cur_node s node).(n_pk) = opkey p)) else s in
    let s := if node =? e.(e_svid) then emit s (EvChangePkey (key p)) else s in
    Ok (s, flat TXS_BKY_FEE 0, l <| l_bky ::= <[tx_ppi s m l node := key p]> |>).

(** Who may change node status bits: VIP nodes, and every node its own. *)
Definition status_voter (s : server) (m : message) (u : usertxs) : bool :=
  has_bits (last_node s m.(m_svid)).(n_status) SERVER_VIP || (u.(abank) =? u.(bbank)).

(** [SBS] and [UBS]. *)
Definition tx_node_status (set : bool) (s : server) (m : message) (u : usertxs) (l : locals) : res (cost * locals) :=
  require (u.(auser) =? 0) else s in
  require (u.(bbank) <? n_nodes s.(last_srvs_)) else s in
  let k := tx_ppi s m l u.(bbank) in
  let v := u32 u.(tmass) in
  let l := if status_voter s m u then
             if set then l <| l_sbs ::= <[k := v]> |> else l <| l_ubs ::= <[k := v]> |>
           else l in
  Ok (flat (if set then TXS_SBS_FEE else TXS_UBS_FEE) u.(tmass), l).

(** [SUS] and [UUS] on a local account; the DELETED bit can not be changed. *)
Definition dsu_sus (bits : Z) (d : dsu_t) : dsu_t :=
  let mask := Z.land d.(d_uus) bits in
  d <| d_uus := clear_bits d.(d_uus) mask |> <| d_sus := Z.lor d.(d_sus) (clear_bits bits mask) |>.
Definition dsu_uus (bits : Z) (d : dsu_t) : dsu_t :=
  let mask := Z.land d.(d_sus) bits in
  d <| d_sus := clear_bits d.(d_sus) mask |> <| d_uus := Z.lor d.(d_uus) (clear_bits bits mask) |>.

Definition tx_account_status (set : bool) (s : server) (u : usertxs) (l : locals) : res (cost * locals) :=
  require (check_user s.(srvs_).(sv_nodes) u.(bbank) u.(buser)) else s in
  let bits := Z.land (u16 u.(tmass)) 0xFFFE in
  let d := l.(l_dsu) !!! u.(buser) in
  let l := if u.(bbank) =? u.(abank)
           then l <| l_dsu ::= <[u.(buser) := if set then dsu_sus bits d else dsu_uus bits d]> |> else l in
  Ok (flat (if set then TXS_SUS_FEE else TXS_UUS_FEE) u.(tmass), l).

(** [message::get_user]: the account as it was before the blocks from the
    message's own one on. *)
Fixpoint undo_lookup (fuel : nat) (und : gmap (Z * Z) bank) (svid user block path : Z) : option user_t :=
  match fuel with
  | O => None
  | S fuel =>
      if path <? block then None
      else match und !! (block, svid) with
           | Some file =>
               let ou := get_user file user in
               if ou.(u_msid) =? 0 then undo_lookup fuel und svid user (block + BLOCKSEC) path else Some ou
           | None => undo_lookup fuel und svid user (block + BLOCKSEC) path
           end
  end.

Definition message_get_user (s : server) (m : message) (user : Z) : user_t :=
  let block := m.(m_now) - m.(m_now) mod BLOCKSEC in
  let fuel := S (Z.to_nat ((m.(m_path) - block) / BLOCKSEC)) in
  default (get_user (bank_of s.(usr_) m.(m_svid)) user) (undo_lookup fuel s.(und_) m.(m_svid) user block m.(m_path)).

(** The bytes of a whole [user_t]. *)
Definition user_t_bytes (u : user_t) : list Z := user_bytes u ++ le_bytes 32 u.(u_csum).

(** [SAV]: a VIP checks the account data that the bank has added. *)
Definition tx_sav (e : env) (s : server) (m : message) (p : list Z) (u : usertxs) (l : locals) : res (cost * locals) :=
  let inspect := negb (has_bits m.(m_status) MSGSTAT_VAL) && e.(e_iamvip) && negb e.(e_do_sync) &&
               (e.(e_start_path) <=? m.(m_path)) in
  require (negb inspect || bool_decide (user_t_bytes (message_get_user s m u.(auser)) = usr p)) else s in
  Ok (flat TXS_SAV_FEE 0, l).

(** * One transaction *)

(** An account whose funds another account has asked for. *)
Definition locked (now : Z) (u : usertxs) (a : user_t) : bool :=
  (u32 (a.(u_time) + LOCK_TIME) <? now) && negb (a.(u_user) =? 0) && negb (a.(u_node) =? 0) &&
  (negb (a.(u_user) =? u.(auser)) || negb (a.(u_node) =? u.(abank))).

(** The dispatch on the kind of the transaction; [usera] is the sender. *)
Definition tx_charge (e : env) (s : server) (m : message) (p : list Z) (u : usertxs) (usera : user_t) (l : locals) :
    res (server * cost * user_t * locals) :=
  let t := u.(ttype) in
  if locked s.(srvs_).(sv_now) u usera then
    require ((t =? TXSTYPE_PUT) && (u.(abank) =? u.(bbank)) && (u.(auser) =? u.(buser)) && (u.(tmass) =? 0)) else s in
    Ok (s, flat 0 u.(tmass), usera, l)
  else if t =? TXSTYPE_BRO then
    require (u.(bbank) <=? MAX_BROADCAST_LENGTH) else s in
    let s := log_broadcast s s.(srvs_).(sv_now) (rd p 0 (Z.to_nat u.(size))) usera.(u_hash) usera.(u_pkey) m.(m_msid) l.(l_tmpos) in
    Ok (s, flat (TXS_BRO_FEE u.(bbank)) 0, usera, l)
  else if t =? TXSTYPE_PUT then do (c, l) <- tx_put e s u l in Ok (s, c, usera, l)
  else if t =? TXSTYPE_MPT then do (c, l) <- tx_mpt e s p u l in Ok (s, c, usera, l)
  else if t =? TXSTYPE_USR then let '(s, c, l) := tx_usr e s m p u l in Ok (s, c, usera, l)
  else if t =? TXSTYPE_BNK then
    Ok (s, (flat TXS_BNK_FEE 0) <| c_deduct := BANK_MIN_UMASS + BANK_MIN_TMASS |>, usera,
        l <| l_bnk ::= <[tx_ppi s m l m.(m_svid) := u.(auser)]> |>)
  else if t =? TXSTYPE_GET then
    require (negb (u.(abank) =? u.(bbank))) else s in
    let g := {| g_auser := u.(auser); g_buser := u.(buser); g_pkey := usera.(u_pkey) |} in
    Ok (s, flat TXS_GET_FEE 0, usera, l <| l_get ::= <[tx_ppi s m l u.(bbank) := g]> |>)
  else if t =? TXSTYPE_KEY then Ok (s, flat TXS_KEY_FEE 0, usera <| u_pkey := key p |>, l)
  else if t =? TXSTYPE_BKY then do (s, c, l) <- tx_bky e s m p u l in Ok (s, c, usera, l)
  else if t =? TXSTYPE_SBS then do (c, l) <- tx_node_status true s m u l in Ok (s, c, usera, l)
  else if t =? TXSTYPE_UBS then do (c, l) <- tx_node_status false s m u l in Ok (s, c, usera, l)
  else if t =? TXSTYPE_SUS then do (c, l) <- tx_account_status true s u l in Ok (s, c, usera, l)
  else if t =? TXSTYPE_UUS then do (c, l) <- tx_account_status false s u l in Ok (s, c, usera, l)
  else if t =? TXSTYPE_SAV then do (c, l) <- tx_sav e s m p u l in Ok (s, c, usera, l)
  else Ok (s, flat 0 u.(tmass), usera, l).

(** The balance test: the sender, or the sender with its pending deposits,
    can pay; the owner of the bank keeps half of the minimum. *)
Definition affordable (u : usertxs) (c : cost) (usera : user_t) (pending : Z) : bool :=
  let need := i64 (i64 (c.(c_deduct) + c.(c_fee)) + (if u.(auser) =? 0 then BANK_MIN_UMASS ÷ 2 else 0)) in
  negb ((usera.(u_weight) <? need) && (i64 (usera.(u_weight) + i64 pending) <? need)).

(** The log entries of transactions that concern accounts of this node. *)
Definition tx_info (usera : user_t) (c : cost) : list Z :=
  le_bytes 8 usera.(u_weight) ++ le_bytes 8 c.(c_deduct) ++ le_bytes 8 c.(c_fee) ++ le_bytes 2 usera.(u_stat) ++
  take 6 usera.(u_pkey).

Fixpoint log_mpt (e : env) (base : log_t) (first : bool) (ts : list (Z * Z)) (l : locals) : locals :=
  match ts with
  | [] => l
  | (user, mass) :: ts =>
      let blog := base <| lg_weight := mass |> <| lg_info ::= <[31%nat := if first then 1 else 0]> |> in
      log_mpt e base false ts
        (l <| l_log ::= <[2 ^ 32 * user + l.(l_lpos) := blog]> |> <| l_lpos ::= fun n => u32 (n + 1) |>)
  end.

Definition tx_log (e : env) (m : message) (u : usertxs) (c : cost) (usera : user_t) (l : locals) : locals :=
  if m.(m_svid) =? e.(e_svid) then l
  else
    let t := u.(ttype) in
    let blog := {| lg_time := e.(e_time); lg_type := Z.lor t 0x8000; lg_node := u.(abank); lg_nmid := m.(m_msid);
                   lg_mpos := l.(l_tmpos); lg_user := u.(auser); lg_umid := u.(amsid); lg_weight := c.(c_tmass);
                   lg_info := if t =? TXSTYPE_PUT then u.(tinfo) else tx_info usera c |} in
    let l :=
      if ((t =? TXSTYPE_PUT) || (t =? TXSTYPE_SUS) || (t =? TXSTYPE_UUS) || (t =? TXSTYPE_GET)) &&
         (u.(bbank) =? e.(e_svid))
      then l <| l_log ::= <[2 ^ 32 * u.(buser) + l.(l_lpos) := blog]> |> <| l_lpos ::= fun n => u32 (n + 1) |>
      else l in
    if t =? TXSTYPE_MPT then log_mpt e blog true c.(c_mpt) l else l.

(** The signature the sender's account has to match, kept for the batch. *)
Definition tx_signature (p : list Z) (u : usertxs) (usera : user_t) : list Z * list Z * list Z * list Z :=
  let n := Z.to_nat (sign_mlen2 u) in (usera.(u_hash), rd p 0 n, usera.(u_pkey), rd p n 64).

(** The end of a transaction: the sender's record moves on, its pending
    deposits are credited and the cost is taken. *)
Definition settle (now : Z) (p : list Z) (u : usertxs) (c : cost) (usera : user_t) (l : locals) : locals :=
  let d := l.(l_dsu) !!! u.(auser) in
  let delta := d.(d_deposit) - c.(c_deduct) - c.(c_fee) in
  let h := SHA256 (usera.(u_hash) ++ SHA256 (rd p (Z.to_nat (get_sig u p)) 64)) in
  let usera := {| u_msid := u32 (usera.(u_msid) + 1); u_time := u.(ttime); u_pkey := usera.(u_pkey); u_hash := h;
                  u_lpath := now; u_user := 0; u_node := 0;
                  u_stat := clear_bits (Z.lor usera.(u_stat) d.(d_sus)) d.(d_uus);
                  u_rpath := usera.(u_rpath); u_weight := i64 (usera.(u_weight) + delta); u_csum := usera.(u_csum) |} in
  l <| l_changes ::= <[u.(auser) := usera]> |>
    <| l_weight ::= fun w => i64 (w + delta) |>
    <| l_dsu ::= <[u.(auser) := zero_dsu]> |>
    <| l_local_fee ::= fun f => i64 (f + (c.(c_fee) - c.(c_remote))) |>.

(** The two assertions made when a signature is put in the batch: [tmax] slots
    are reserved for the batch, and [left] bytes of the message remain. *)
Definition sig_fits (tmax left : Z) (u : usertxs) (l : locals) : bool :=
  (Z.of_nat (length l.(l_sigs)) <? tmax) && (sign_mlen2 u <? left).

(** The part of a transaction after the creation of accounts; [tmax] is
    [None] when signatures are not checked. *)
Definition tx_spend (e : env) (tmax : option Z) (s : server) (m : message) (p : list Z) (left : Z) (u : usertxs)
    (l : locals) : res (server * locals) :=
  require (u.(auser) <? l.(l_users)) else s in
  let '(usera, l) := load_account (bank_of s.(usr_) m.(m_svid)) u.(auser) l in
  do l <- match tmax with
          | Some tmax =>
              if sig_fits tmax left u l then Ok (l <| l_sigs ::= fun q => q ++ [tx_signature p u usera] |>) else Ex
          | None => Ok l
          end in
  require (usera.(u_msid) =? u.(amsid)) else s in
  do (s, c, usera, l) <- tx_charge e s m p u usera l in
  let '(usera, lodiv, div) := dividend s usera l.(l_lodiv_fee) in
  let l := l <| l_lodiv_fee := lodiv |> <| l_weight ::= add_div div |> in
  require (negb ((c.(c_deduct) <? 0) || (c.(c_fee) <? 0))) else s in
  require (affordable u c usera (l.(l_dsu) !!! u.(auser)).(d_deposit)) else s in
  let l := tx_log e m u c usera l in
  Ok (s, settle s.(srvs_).(sv_now) p u c usera l).

(** The body of the transaction loop. *)
Definition process_tx (e : env) (tmax : option Z) (s : server) (m : message) (p : list Z) (left : Z) (u : usertxs)
    (l : locals) : res (server * locals) :=
  let t := u.(ttype) in
  let l := l <| l_tmpos ::= fun n => u32 (n + 1) |> in
  if t =? TXSTYPE_NON then Ok (s, l)
  else if t =? TXSTYPE_CON then
    Ok (put_cur_node s m.(m_svid) ((cur_node s m.(m_svid)) <| n_port := u.(abank) |> <| n_ipv4 := u.(auser) |>), l)
  else
  require (t <? TXSTYPE_INF) else s in
  require (u.(ttime) <=? u32 (s.(srvs_).(sv_now) + BLOCKSEC + 5)) else s in
  require (u.(abank) =? m.(m_svid)) else s in
  if t =? TXSTYPE_UOK then
    do (s, l) <- open_account s m.(m_svid) u.(auser) 0 (upkey p) u.(ttime) l in
    let o := {| uo_auser := u.(auser); uo_bbank := u.(bbank); uo_buser := u.(buser); uo_pkey := upkey p |} in
    Ok (s, l <| l_uok ::= <[tx_ppi s m l m.(m_svid) := o]> |>)
  else
  do (s, l) <-
    (if (t =? TXSTYPE_USR) && (u.(abank) =? u.(bbank)) then
       do (s, l) <- open_account s m.(m_svid) (nuser p) USER_MIN_MASS (npkey p) u.(ttime) l in
       Ok (s, l <| l_weight ::= fun w => i64 (w + USER_MIN_MASS) |>)
     else Ok (s, l)) in
  tx_spend e tmax s m p left u l.

(** The transaction loop; [left] is what remains of the message. *)
Fixpoint process_loop (e : env) (tmax : option Z) (fuel : nat) (s : server) (m : message) (p : list Z) (left : Z)
    (l : locals) : res (server * locals) :=
  if left <=? 0 then Ok (s, l)
  else match fuel with
  | O => Ex
  | S fuel =>
      match parse p with
      | None => Rej s
      | Some u =>
          do (s, l) <- process_tx e tmax s m p left u l in
          process_loop e tmax fuel s m (drop (Z.to_nat u.(size)) p) (left - u.(size)) l
      end
  end.

(** * After the loop *)

(** One entry of [local_dsu]: pending deposits reach the accounts that did not
    settle them, and the checksums of all touched accounts are renewed. *)
Definition apply_dsu (s : server) (svid : Z) (l : locals) (p : Z * dsu_t) : locals :=
  let '(uid, d) := p in
  let bump (u : user_t) :=
    user_csum (u <| u_weight := i64 (u.(u_weight) + d.(d_deposit)) |>
                 <| u_stat := clear_bits (Z.lor u.(u_stat) d.(d_sus)) d.(d_uus) |>) svid uid in
  match l.(l_changes) !! uid with
  | Some u =>
      let u' := bump u in
      l <| l_changes ::= <[uid := u']> |>
        <| l_weight ::= fun w => i64 (w + d.(d_deposit)) |>
        <| l_csum ::= fun c => Z.lxor (Z.lxor c u.(u_csum)) u'.(u_csum) |>
  | None =>
      let u := get_user (bank_of s.(usr_) svid) uid in
      let '(v, lodiv, div) := dividend s u l.(l_lodiv_fee) in
      let u' := bump v in
      l <| l_undo ::= <[uid := u]> |>
        <| l_changes ::= <[uid := u']> |>
        <| l_lodiv_fee := lodiv |>
        <| l_weight ::= fun w => i64 (add_div div w + d.(d_deposit)) |>
        <| l_csum ::= fun c => Z.lxor (Z.lxor c u.(u_csum)) u'.(u_csum) |>
  end.

(** The log entry of the bank's own fees. *)
Definition fee_log (e : env) (m : message) (l : locals) (profit : Z) : log_t :=
  {| lg_time := e.(e_time); lg_type := Z.lor TXSTYPE_FEE 0x8000; lg_node := m.(m_svid); lg_nmid := m.(m_msid);
     lg_mpos := 0; lg_user := 0; lg_umid := 0; lg_weight := i64 (profit + MESSAGE_FEE m.(m_len));
     lg_info := le_bytes 8 (BANK_PROFIT l.(l_local_fee)) ++ le_bytes 8 (BANK_PROFIT l.(l_lodiv_fee)) ++
                le_bytes 8 (MESSAGE_FEE m.(m_len)) ++ le_bytes 8 (BANK_PROFIT l.(l_myput_fee)) |}.

(** The key changes of the message. *)
Fixpoint commit_bky (e : env) (bk : list (Z * list Z)) (s : server) : res server :=
  match bk with
  | [] => Ok s
  | (ppb, k) :: bk =>
      let node := ppi_bbank ppb in
      let s := if has_bits (last_node s node).(n_status) SERVER_DBL then s <| blk_bky ::= <[ppb := node]> |> else s in
      let s := put_cur_node s node ((cur_node s node) <| n_pk := k |>) in
      if node =? e.(e_svid) then
        if e_find_key e k then commit_bky e bk (s <| pkey_ := k |>) else Ex
      else commit_bky e bk s
  end.

Definition add_deposits (l : list (Z * Z)) (m : gmap Z Z) : gmap Z Z :=
  foldl (fun m p => add_at p.1 p.2 m) m l.

(** Writing [changes] to the account file. *)
Definition write_changes (svid : Z) (ch : list (Z * user_t)) (bs : banks) : banks :=
  foldl (fun bs p => write_user bs svid p.1 p.2) bs ch.

(** The totals of the bank and the accounts on disk. *)
Definition commit_accounts (s : server) (m : message) (ousers : Z) (l : locals) : option server :=
  let svid := m.(m_svid) in
  let profit := i64 (BANK_PROFIT (i64 (l.(l_local_fee) + l.(l_lodiv_fee))) - MESSAGE_FEE m.(m_len)) in
  let n := cur_node s svid in
  let mu := {| mu_undo := l.(l_undo); mu_users := ousers; mu_csum := l.(l_csum); mu_weight := l.(l_weight);
               mu_fee := profit; mu_msha := n.(n_msha); mu_mtim := n.(n_mtim) |} in
  let s := s <| bank_fee ::= fun f => add_fee f svid profit |>
             <| msgund_ ::= <[(m.(m_path), svid, m.(m_msid)) := mu]> |> in
  let s := put_cur_node s svid (n <| n_weight := i64 (n.(n_weight) + l.(l_weight)) |>
                                  <| n_hash := Z.lxor n.(n_hash) l.(l_csum) |>) in
  let* s := server_save_undo s svid l.(l_undo) ousers in
  Some (s <| usr_ ::= write_changes svid (elems l.(l_changes)) |>).

(** The changes that wait for the end of the block. *)
Definition commit_block_txs (e : env) (s : server) (l : locals) : res server :=
  let s := s <| deposit ::= add_deposits (elems l.(l_deposit)) |> in
  do s <- commit_bky e (elems l.(l_bky)) s in
  let s := s <| blk_bnk ::= fun b => b ∪ l.(l_bnk) |> <| blk_get ::= fun b => b ∪ l.(l_get) |>
             <| blk_usr ::= fun b => b ∪ l.(l_usr) |> <| blk_uok ::= fun b => b ∪ l.(l_uok) |>
             <| blk_sbs ::= fun b => b ∪ l.(l_sbs) |> <| blk_ubs ::= fun b => b ∪ l.(l_ubs) |> in
  Ok (if e.(e_block_only) then s
      else s <| srvs_ ::= fun v => v <| sv_msg ::= fun n => u32 (n + 1) |>
                                     <| sv_txs ::= fun n => u64 (n + l.(l_tmpos)) |> |>).

Definition commit_message (e : env) (check_sig : bool) (s : server) (m : message) (ousers : Z) (l : locals) : res server :=
  let svid := m.(m_svid) in
  require (negb check_sig || e.(e_sign_open) l.(l_sigs)) else s in
  let l := foldl (apply_dsu s svid) l (elems l.(l_dsu)) in
  match commit_accounts s m ousers l with
  | None => Ex
  | Some s =>
      let profit := i64 (BANK_PROFIT (i64 (l.(l_local_fee) + l.(l_lodiv_fee))) - MESSAGE_FEE m.(m_len)) in
      let log := if svid =? e.(e_svid) then <[0 := fee_log e m l profit]> l.(l_log) else l.(l_log) in
      do s <- commit_block_txs e s l in
      Ok (put_msglog s s.(srvs_).(sv_now) svid m.(m_msid) log)
  end.

(** The first byte of the transactions. *)
Definition data_offset : nat := 4 + 64 + 10.

(** [process_message]. *)
Definition process_message (e : env) (s : server) (m : message) : res server :=
  require (negb (m.(m_now) <? s.(last_srvs_).(sv_now))) else s in
  let check_sig := negb (has_bits m.(m_status) MSGSTAT_VAL) && negb e.(e_do_sync) && negb (m.(m_svid) =? e.(e_svid)) in
  let tpos_max := rdz m.(m_data) (Z.to_nat m.(m_len) + 32 + 4 + 4) 4 in
  if tpos_max =? 0 then Ex else
  let u0 := get_user (bank_of s.(usr_) m.(m_svid)) 0 in
  require (negb (u0.(u_weight) <? MESSAGE_FEE m.(m_len))) else s in
  let ousers := (cur_node s m.(m_svid)).(n_users) in
  do (s, l) <- process_loop e (if check_sig then Some tpos_max else None) (Z.to_nat m.(m_len)) s m (drop data_offset m.(m_data))
                 (m.(m_len) - Z.of_nat data_offset) (locals_init ousers) in
  commit_message e check_sig s m ousers l.

End Process.
