(* ===== verification/Undo.v ===== *)
(** Going back: [server::undo_message] reverses one executed message from its
    undo file, [server::undo_bank] reverses whole blocks of a bank from the
    undo files of the blocks ([escd/server.cpp]). *)

From stdpp Require Import base gmap list.
From Stdlib Require Import ZArith Lia.
From S2P Require Import Prelude Params HashTree Usertxs Accounts Servers Ledger Process.

(** * One message *)

Section Undo.
Context `{Sha256}.

(** The locals of the loop of [undo_message]: deposits to take back and nodes
    whose key is already restored. *)
Record undo_locals := { ul_deposit : gmap Z Z; ul_bky : gset Z }.

Definition undo_mpt (abank : Z) (ts : list (Z * Z * Z)) (d : gmap Z Z) : gmap Z Z :=
  foldl (fun d t => let '(tbank, tuser, mass) := t in
                    if tbank =? abank then d else add_at (dep_key tbank tuser) mass d) d ts.

(** The node key that a [BKY] transaction replaced is restored, once per node. *)
Definition undo_bky (e : env) (s : server) (m : message) (p : list Z) (u : usertxs) (l : undo_locals) :
    res (server * undo_locals) :=
  let node := bky_node s m.(m_svid) u.(bbank) in
  if (node =? 0) || bool_decide (node ∈ l.(ul_bky)) then Ok (s, l)
  else
    let s := put_cur_node s node ((cur_node s node) <| n_pk := opkey p |>) in
    let l := l <| ul_bky ::= fun b => {[node]} ∪ b |> in
    if (node =? e.(e_svid)) && negb (u.(bbank) =? 0) then
      if e_find_key e (opkey p) then Ok (emit (s <| pkey_ := opkey p |>) (EvChangePkey (opkey p)), l) else Ex
    else Ok (s, l).

(** One transaction; [tmpos] counts from 1. *)
Definition undo_tx (e : env) (s : server) (m : message) (tmpos : Z) (p : list Z) (u : usertxs) (l : undo_locals) :
    res (server * undo_locals) :=
  let t := u.(ttype) in
  let ppb bbank := make_ppi tmpos (last_node s m.(m_svid)).(n_msid) m.(m_msid) m.(m_svid) bbank in
  if t =? TXSTYPE_PUT then
    Ok (s, if u.(bbank) =? u.(abank) then l else l <| ul_deposit ::= add_at (dep_key u.(bbank) u.(buser)) u.(tmass) |>)
  else if t =? TXSTYPE_MPT then
    Ok (s, l <| ul_deposit ::= undo_mpt u.(abank) (mpt_targets (Z.to_nat u.(bbank)) (drop toaddresses p)) |>)
  else if t =? TXSTYPE_BKY then
    let node := bky_node s m.(m_svid) u.(bbank) in
    do (s, l) <- undo_bky e s m p u l in
    Ok (if node =? 0 then s else s <| blk_bky ::= delete (ppb node) |>, l)
  else if t =? TXSTYPE_BNK then Ok (s <| blk_bnk ::= delete (ppb m.(m_svid)) |>, l)
  else if t =? TXSTYPE_GET then Ok (s <| blk_get ::= delete (ppb u.(bbank)) |>, l)
  else if t =? TXSTYPE_USR then Ok (s <| blk_usr ::= delete (ppb m.(m_svid)) |>, l)
  else if t =? TXSTYPE_UOK then Ok (s <| blk_uok ::= delete (ppb m.(m_svid)) |>, l)
  else if t =? TXSTYPE_SBS then Ok (s <| blk_sbs ::= delete (ppb u.(bbank)) |>, l)
  else if t =? TXSTYPE_UBS then Ok (s <| blk_ubs ::= delete (ppb u.(bbank)) |>, l)
  else Ok (s, l).

(** The loop; a type of [INF] or more fails the assertion. *)
Fixpoint undo_loop (e : env) (fuel : nat) (s : server) (m : message) (tmpos : Z) (p : list Z) (left : Z)
    (l : undo_locals) : res (server * undo_locals) :=
  if left <=? 0 then Ok (s, l)
  else match fuel with
  | O => Ex
  | S fuel =>
      let tmpos := u32 (tmpos + 1) in
      match parse p with
      | Some u =>
          if u.(ttype) <? TXSTYPE_INF then
            do (s, l) <- undo_tx e s m tmpos p u l in
            undo_loop e fuel s m tmpos (drop (Z.to_nat u.(size)) p) (left - u.(size)) l
          else Ex
      | None => Ex
      end
  end.

(** [deposit[k] -= d] for every deposit of the message. *)
Definition sub_deposits (l : list (Z * Z)) (m : gmap Z Z) : gmap Z Z :=
  foldl (fun m p => add_at p.1 (- p.2) m) m l.

(** The totals of the bank and its accounts from the undo file. *)
Definition undo_accounts (s : server) (m : message) (mu : msg_undo) : server :=
  let svid := m.(m_svid) in
  let n := cur_node s svid in
  let s := s <| bank_fee ::= fun f => add_fee f svid (- mu.(mu_fee)) |> in
  let s := put_cur_node s svid
    (n <| n_weight := i64 (n.(n_weight) - mu.(mu_weight)) |>
       <| n_hash := Z.lxor n.(n_hash) mu.(mu_csum) |>
       <| n_msid := u32 (m.(m_msid) - 1) |>
       <| n_msha := mu.(mu_msha) |>
       <| n_mtim := mu.(mu_mtim) |>
       <| n_users := if mu.(mu_users) =? 0 then n.(n_users) else mu.(mu_users) |>) in
  s <| usr_ ::= write_changes svid (elems mu.(mu_undo)) |>.

(** [undo_message]; the message must be a committed one and its undo file
    must exist. *)
Definition undo_message (e : env) (s : server) (m : message) : res (server * message) :=
  if negb (has_bits m.(m_status) MSGSTAT_COM) then Ex else
  do (s, l) <- undo_loop e (Z.to_nat m.(m_len)) s m 0 (drop data_offset m.(m_data))
                 (m.(m_len) - Z.of_nat data_offset) {| ul_deposit := ∅; ul_bky := ∅ |} in
  let s := s <| deposit ::= sub_deposits (elems l.(ul_deposit)) |> in
  match s.(msgund_) !! (m.(m_path), m.(m_svid), m.(m_msid)) with
  | None => Ex
  | Some mu =>
      let s := undo_accounts s m mu in
      Ok (del_msglog s s.(srvs_).(sv_now) m.(m_svid) m.(m_msid),
          m <| m_status := clear_bits m.(m_status) MSGSTAT_COM |>)
  end.

End Undo.

(** * Whole blocks *)

(** The value of an account before the blocks of the undo files [ud] (the
    oldest first): the first file that holds a record of it, which is one with
    a non-zero [msid]. *)
Fixpoint undo_value (ud : list bank) (uid : Z) : option user_t :=
  match ud with
  | [] => None
  | f :: ud => let u := get_user f uid in if u.(u_msid) =? 0 then undo_value ud uid else Some u
  end.

(** The undo files that exist for blocks [path], [path+BLOCKSEC], ...: [n]+1
    of them. *)
Fixpoint undo_files (s : server) (bk path : Z) (n : nat) : list bank :=
  option_list (s.(und_) !! (path, bk)) ++
  match n with O => [] | S n => undo_files s bk (u32 (path + BLOCKSEC)) n end.

(** The loop over the accounts of one bank: the account file, the sum, the xor
    and whether every read succeeded; the file is written when [commit] is
    set. *)
Fixpoint undo_users (commit : bool) (ud : list bank) (ids : list Z) (b : bank) (weight csum : Z) (ok : bool) :
    bank * Z * Z * bool :=
  match ids with
  | [] => (b, weight, csum, ok)
  | uid :: ids =>
      match undo_value ud uid with
      | Some u =>
          undo_users commit ud ids (if commit then <[uid := u]> b else b)
            (i64 (weight + u.(u_weight))) (Z.lxor csum u.(u_csum)) ok
      | None =>
          let u := get_user b uid in
          undo_users commit ud ids b (i64 (weight + u.(u_weight))) (Z.lxor csum u.(u_csum)) (ok && (uid <? file_users b))
      end
  end.

(** One bank: the new account file and whether the totals agree with the node
    of the last block. *)
Definition undo_one_bank (commit : bool) (rollback : nat) (s : server) (bk : Z) : server * bool :=
  match s.(usr_) !! bk with
  | None => (s, false)
  | Some b =>
      let n := last_node s bk in
      let ud := undo_files s bk (u32 (s.(last_srvs_).(sv_now) + BLOCKSEC)) rollback in
      let '(b', weight, csum, ok) := undo_users commit ud (uids n.(n_users)) b 0 0 true in
      (s <| usr_ ::= <[bk := b']> |>, ok && (n.(n_weight) =? weight) && (n.(n_hash) =? csum))
  end.

(** [undo_bank]: every bank but bank 0; true when all are consistent. *)
Definition undo_bank (commit : bool) (rollback : nat) (s : server) : server * bool :=
  foldl (fun '(s, ok) bk => let '(s, ok') := undo_one_bank commit rollback s bk in (s, ok && ok'))
        (s, true) (drop 1 (uids (n_nodes s.(last_srvs_)))).
