(* ===== verification/Invariant.v ===== *)
(** The bookkeeping of [process_message]: the running difference of weights
    and checksums that the transaction loop keeps equals the difference
    between the accounts before and after it, so the totals of a bank stay
    those of its account file. *)

From stdpp Require Import base gmap list.
From Stdlib Require Import ZArith Lia.
From S2P Require Import Prelude Params HashTree Usertxs Accounts Servers Ledger Process.

(** * What a transaction may touch *)

(** Only the broadcast log and the calls to the office change. *)
Definition s_frame (s s' : server) : Prop := exists b ev, s' = s <| brolog_ := b |> <| events := ev |>.

Lemma s_frame_refl s : s_frame s s.
Proof. exists s.(brolog_), s.(events). now destruct s. Qed.
Lemma s_frame_emit s ev : s_frame s (emit s ev).
Proof. exists s.(brolog_), (s.(events) ++ [ev]). now destruct s. Qed.
Lemma s_frame_log s a b c d f g : s_frame s (log_broadcast s a b c d f g).
Proof. exists (log_broadcast s a b c d f g).(brolog_), s.(events). now destruct s. Qed.
#[export] Hint Resolve s_frame_refl s_frame_emit s_frame_log : esc.

Lemma s_frame_fields s s' :
  s_frame s s' -> usr_ s' = usr_ s /\ srvs_ s' = srvs_ s /\ last_srvs_ s' = last_srvs_ s /\ und_ s' = und_ s /\
                  period_start s' = period_start s.
Proof. intros (b & ev & ->). destruct s; split_and!; reflexivity. Qed.

(** The accounts and totals are untouched, [local_dsu] gets entries of
    existing accounts only. *)
Record l_frame (users : Z) (l l' : locals) : Prop := {
  lf_changes : l_changes l' = l_changes l;
  lf_undo : l_undo l' = l_undo l;
  lf_users : l_users l' = l_users l;
  lf_csum : l_csum l' = l_csum l;
  lf_weight : l_weight l' = l_weight l;
  lf_local_fee : l_local_fee l' = l_local_fee l;
  lf_lodiv_fee : l_lodiv_fee l' = l_lodiv_fee l;
  lf_grow : forall k, is_Some (l_dsu l !! k) -> is_Some (l_dsu l' !! k);
  lf_range : forall k, is_Some (l_dsu l' !! k) -> is_Some (l_dsu l !! k) \/ 0 <= k < users
}.

Lemma l_frame_trans n l l' l'' : l_frame n l l' -> l_frame n l' l'' -> l_frame n l l''.
Proof.
  intros [] []. split; try congruence; auto.
  intros k Hk. edestruct lf_range1; eauto.
Qed.

(** A change of the fields that are not framed. *)
Lemma l_frame_same n l l' :
  l_changes l' = l_changes l -> l_undo l' = l_undo l -> l_users l' = l_users l -> l_csum l' = l_csum l ->
  l_weight l' = l_weight l -> l_local_fee l' = l_local_fee l -> l_lodiv_fee l' = l_lodiv_fee l ->
  l_dsu l' = l_dsu l -> l_frame n l l'.
Proof. intros. split; auto; intros k Hk; rewrite ?H6 in *; auto. Qed.

Lemma l_frame_ins n uid d l l' :
  0 <= uid < n ->
  l_changes l' = l_changes l -> l_undo l' = l_undo l -> l_users l' = l_users l -> l_csum l' = l_csum l ->
  l_weight l' = l_weight l -> l_local_fee l' = l_local_fee l -> l_lodiv_fee l' = l_lodiv_fee l ->
  l_dsu l' = <[uid := d]> (l_dsu l) -> l_frame n l l'.
Proof.
  intros Hu ??????? Ed. split; auto; intros k; rewrite Ed, lookup_insert_is_Some.
  - intros Hk. destruct (decide (uid = k)); auto.
  - intros [->|[_ ?]]; auto.
Qed.

(** Decides a frame after a record update. *)
Ltac lframe := first [apply l_frame_same; reflexivity | eapply l_frame_ins; [..|reflexivity]; [|reflexivity..]].

Lemma check_user_bound nodes peer uid :
  check_user nodes peer uid = true -> uid < (nodes !!! Z.to_nat peer).(n_users).
Proof.
  unfold check_user. intros E. rewrite list_lookup_total_alt.
  destruct (nodes !! Z.to_nat peer); [|discriminate]. cbn. destruct (Z.leb_spec (n_users n) uid); [discriminate|lia].
Qed.

Section Frame.
Context `{Sha256}.

Abbreviation users_of s m := (n_users (cur_node s (m_svid m))).

Lemma tx_put_frame e s m u l c l' :
  u.(abank) = m.(m_svid) -> 0 <= u.(buser) -> tx_put e s u l = Ok (c, l') -> l_frame (users_of s m) l l'.
Proof.
  intros Ha Hu E. unfold tx_put in E. inv_ok.
  apply check_user_bound in C.
  destruct (negb (u.(abank) =? u.(bbank)) && _); destruct (Z.eqb_spec u.(bbank) u.(abank)) as [Eb|]; lframe;
    unfold cur_node, nth_node; rewrite <- Ha, <- Eb; lia.
Qed.

Lemma mpt_loop_frame e s m abk out ts c l c' l' :
  abk = m.(m_svid) -> (forall tb tu ms, (tb, tu, ms) ∈ ts -> 0 <= tu) ->
  mpt_loop e s abk out ts c l = Ok (c', l') -> l_frame (users_of s m) l l'.
Proof.
  intros Ha. revert out c l; induction ts as [|[[tb tu] ms] ts IH]; intros out c l Hts E; cbn [mpt_loop] in E.
  - inv_ok. lframe.
  - inv_ok. apply check_user_bound in C1.
    assert (Hu : 0 <= tu) by (eapply Hts; left).
    eapply l_frame_trans; [|eapply IH, E; intros; eapply Hts; right; eassumption].
    destruct (negb (abk =? tb) && _); destruct (Z.eqb_spec tb abk) as [Eb|]; lframe;
      unfold cur_node, nth_node; rewrite <- Ha, <- Eb; lia.
Qed.

Lemma tx_mpt_frame e s m p u l c l' :
  u.(abank) = m.(m_svid) -> bytes p -> tx_mpt e s p u l = Ok (c, l') -> l_frame (users_of s m) l l'.
Proof.
  intros Ha Hb E. unfold tx_mpt in E. inv_ok.
  eapply mpt_loop_frame; [eassumption| |eassumption].
  intros tb tu ms Hin. apply mpt_targets_bounds in Hin; [lia | now apply bytes_drop].
Qed.

Lemma tx_account_status_frame set s m u l c l' :
  u.(abank) = m.(m_svid) -> 0 <= u.(buser) -> tx_account_status set s u l = Ok (c, l') ->
  l_frame (users_of s m) l l'.
Proof.
  intros Ha Hu E. unfold tx_account_status in E. inv_ok. apply check_user_bound in C.
  destruct (Z.eqb_spec u.(bbank) u.(abank)) as [Eb|]; lframe. unfold cur_node, nth_node. rewrite <- Ha, <- Eb. lia.
Qed.

(** The dispatch on the kind of transaction touches no account and no total. *)
Lemma tx_charge_frame e s m p u a l s' c a' l' :
  u.(abank) = m.(m_svid) -> 0 <= u.(buser) -> bytes p ->
  tx_charge e s m p u a l = Ok (s', c, a', l') ->
  s_frame s s' /\ l_frame (users_of s m) l l' /\ u_weight a' = u_weight a /\ u_csum a' = u_csum a /\
  u_msid a' = u_msid a.
Proof.
  intros Ha Hu Hb E. unfold tx_charge in E.
  repeat match type of E with (if ?b then _ else _) = _ => destruct b end; try discriminate E;
    [..|]; inv_ok; try (split_and!; [auto with esc|lframe|reflexivity..]; fail).
  - split_and!; auto with esc. eapply tx_put_frame; eassumption.
  - split_and!; auto with esc. eapply tx_mpt_frame; eassumption.
  - destruct (tx_usr e s m p u l) as [[s1 c1] l1] eqn:E'. inv_ok. unfold tx_usr in E'.
    destruct (negb _); injection E' as <- <- <-; [destruct (u.(bbank) =? _)|];
      split_and!; auto with esc; lframe.
  - unfold tx_bky in E0. inv_ok. destruct (bky_node _ _ _ =? 0); inv_ok; [split_and!; auto with esc; lframe|].
    destruct (bky_node _ _ _ =? _); split_and!; auto with esc; lframe.
  - unfold tx_node_status in E0. inv_ok. split_and!; auto with esc. destruct (status_voter _ _ _); lframe.
  - unfold tx_node_status in E0. inv_ok. split_and!; auto with esc. destruct (status_voter _ _ _); lframe.
  - split_and!; auto with esc. eapply tx_account_status_frame; eassumption.
  - split_and!; auto with esc. eapply tx_account_status_frame; eassumption.
  - unfold tx_sav in E0. inv_ok. split_and!; auto with esc. lframe.
Qed.
End Frame.

(** Writing a list of accounts. *)
Lemma write_changes_spec svid ch bs j i :
  NoDup ch.*1 ->
  get_user (bank_of (write_changes svid ch bs) j) i =
    if decide (j = svid) then default (get_user (bank_of bs j) i) ((list_to_map ch : gmap Z user_t) !! i)
    else get_user (bank_of bs j) i.
Proof.
  unfold write_changes. revert bs; induction ch as [|[k u] ch IH]; intros bs Hn; cbn [foldl fmap list_fmap] in *.
  - cbn. rewrite lookup_empty. now destruct (decide _).
  - apply NoDup_cons in Hn as [Hk Hn]. rewrite IH by assumption. rewrite bank_of_write.
    destruct (decide (j = svid)) as [->|]; [|reflexivity]. cbn [list_to_map foldr uncurry].
    destruct (decide (k = i)) as [->|Hne].
    + rewrite lookup_insert_eq, get_user_insert, decide_True by reflexivity.
      now rewrite not_elem_of_list_to_map_1.
    + rewrite lookup_insert_ne by assumption. rewrite get_user_insert, (decide_False (P := i = k)) by congruence. reflexivity.
Qed.

Lemma write_elems svid (ch : gmap Z user_t) bs j i :
  get_user (bank_of (write_changes svid (elems ch) bs) j) i =
    if decide (j = svid) then default (get_user (bank_of bs j) i) (ch !! i) else get_user (bank_of bs j) i.
Proof.
  rewrite write_changes_spec by apply elems_nodup.
  enough ((list_to_map (elems ch) : gmap Z user_t) !! i = ch !! i) as -> by reflexivity.
  destruct (ch !! i) as [u|] eqn:E.
  - apply elem_of_list_to_map_1; [apply elems_nodup|]. now apply elem_of_elems.
  - apply not_elem_of_list_to_map_1. rewrite elems_keys, E. now intros [? ?].
Qed.

Lemma long_file_changes svid l bs j n : long_file bs j n -> long_file (write_changes svid l bs) j n.
Proof. unfold write_changes. revert bs. induction l as [|[k u] l IH]; intros bs Hf; [exact Hf|]. cbn. apply IH. now apply long_file_write. Qed.

Lemma long_file_changed svid (ch : gmap Z user_t) bs uid n : is_Some (ch !! uid) -> n <= uid + 1 -> long_file (write_changes svid (elems ch) bs) svid n.
Proof.
  intros [u Hu] Hn. apply elem_of_elems in Hu. unfold write_changes. revert bs. induction (elems ch) as [|[k v] l IH]; intros bs; [now apply elem_of_nil in Hu|].
  cbn [foldl fst snd]. apply elem_of_cons in Hu as [[= <- <-]|Hu]; [|now apply IH]. apply (long_file_changes svid l). now apply long_file_new.
Qed.

(** * The invariant of the transaction loop *)

Section Inv.
Context `{Sha256}.

(** The state when the loop starts, the bank and its number of accounts. *)
Context (s0 : server) (svid ousers : Z).

(** The account as the loop finds it: accounts from [ousers] on are new. *)
Definition base (uid : Z) : user_t :=
  if uid <? ousers then get_user (bank_of s0.(usr_) svid) uid else zero_user.

(** The account as the loop sees it now. *)
Definition view (ch : gmap Z user_t) (uid : Z) : user_t := default (base uid) (ch !! uid).

Definition csum_ok (u : user_t) (uid : Z) : Prop := user_csum u svid uid = u.

(** The node record of bank [svid] with the number of accounts [n], the other
    nodes unchanged. *)
Record nodes_inv (s : server) (n : Z) : Prop := {
  ni_len : length s.(srvs_).(sv_nodes) = length s0.(srvs_).(sv_nodes);
  ni_other : forall j, 0 <= j -> j <> svid -> cur_node s j = cur_node s0 j;
  ni_users : (cur_node s svid).(n_users) = n;
  ni_weight : (cur_node s svid).(n_weight) = (cur_node s0 svid).(n_weight);
  ni_hash : (cur_node s svid).(n_hash) = (cur_node s0 svid).(n_hash);
  ni_msha : (cur_node s svid).(n_msha) = (cur_node s0 svid).(n_msha);
  ni_mtim : (cur_node s svid).(n_mtim) = (cur_node s0 svid).(n_mtim);
  ni_grow : (cur_node s0 svid).(n_users) <= n;
  ni_changed : forall uid, 0 <= uid < (cur_node s0 svid).(n_users) ->
    changed_bit (cur_node s svid).(n_changed) uid = changed_bit (cur_node s0 svid).(n_changed) uid;
  ni_div : s.(srvs_).(sv_div) = s0.(srvs_).(sv_div);
  ni_now : s.(srvs_).(sv_now) = s0.(srvs_).(sv_now)
}.

Record disk_inv (s : server) (ch : gmap Z user_t) : Prop := {
  di_bank : forall uid, ch !! uid = None -> get_user (bank_of s.(usr_) svid) uid = get_user (bank_of s0.(usr_) svid) uid;
  di_other : forall j, j <> svid -> bank_of s.(usr_) j = bank_of s0.(usr_) j;
  di_file : forall j n, long_file s0.(usr_) j n -> long_file s.(usr_) j n
}.

Record loc_inv (l : locals) : Prop := {
  li_users : ousers <= l.(l_users);
  li_dom : forall uid, is_Some (l.(l_changes) !! uid) -> 0 <= uid < l.(l_users);
  li_new : forall uid, ousers <= uid < l.(l_users) -> is_Some (l.(l_changes) !! uid);
  li_range : forall uid, 0 <= uid < l.(l_users) -> wrange (view l.(l_changes) uid);
  li_dsu : forall uid, is_Some (l.(l_dsu) !! uid) -> 0 <= uid < l.(l_users);
  li_csum : forall uid u, l.(l_changes) !! uid = Some u -> csum_ok u uid \/ is_Some (l.(l_dsu) !! uid);
  li_undo : forall uid, l.(l_undo) !! uid =
              match l.(l_changes) !! uid with
              | Some _ => if uid <? ousers then Some (get_user (bank_of s0.(usr_) svid) uid) else None
              | None => None
              end;
  li_weight : l.(l_weight) ≡64 fsum (fun i => u_weight (view l.(l_changes) i)) l.(l_users)
                             - fsum (fun i => u_weight (base i)) ousers;
  li_xor : l.(l_csum) = Z.lxor (fxor (fun i => u_csum (base i)) ousers)
                               (fxor (fun i => u_csum (view l.(l_changes) i)) l.(l_users))
}.

Definition inv (s : server) (l : locals) : Prop :=
  nodes_inv s l.(l_users) /\ disk_inv s l.(l_changes) /\ loc_inv l.

(** ** Accounts *)

Hypothesis ousers_pos : 0 <= ousers.
Hypothesis svid_pos : 0 <= svid.
Hypothesis base_range : forall uid, 0 <= uid < ousers -> wrange (base uid).
Hypothesis base_csum : forall uid, 0 <= uid < ousers -> csum_ok (base uid) uid.

Lemma view_insert ch uid u i : view (<[uid := u]> ch) i = if decide (i = uid) then u else view ch i.
Proof.
  unfold view. destruct (decide (i = uid)) as [->|Hi].
  - now rewrite lookup_insert_eq.
  - now rewrite lookup_insert_ne.
Qed.

Lemma zero_wrange : wrange zero_user.
Proof. unfold wrange. cbn. lia. Qed.

(** The account [uid] gets the record [u'] and the totals follow. *)
Lemma loc_inv_set l l' uid u u' :
  loc_inv l -> l.(l_changes) !! uid = Some u -> wrange u' ->
  l_changes l' = <[uid := u']> (l_changes l) -> l_undo l' = l_undo l -> l_users l' = l_users l ->
  (forall k, is_Some (l_dsu l !! k) -> is_Some (l_dsu l' !! k)) ->
  (forall k, is_Some (l_dsu l' !! k) -> 0 <= k < l_users l) ->
  csum_ok u' uid \/ is_Some (l_dsu l' !! uid) ->
  l_weight l' ≡64 l_weight l + (u_weight u' - u_weight u) ->
  l_csum l' = Z.lxor (Z.lxor (l_csum l) (u_csum u)) (u_csum u') ->
  loc_inv l'.
Proof.
  intros I Eu Hr Ec En Es Hg Hd Hc Hw Hx. destruct I as [Iu Id In Ir Ids Ic Iun Iw Ix].
  assert (Hu : 0 <= uid < l_users l) by (apply Id; eauto).
  assert (Ev : view (l_changes l) uid = u) by (unfold view; now rewrite Eu).
  split; rewrite ?Ec, ?Es, ?En.
  - lia.
  - intros k [x Hk]. destruct (decide (uid = k)) as [<-|Hn]; [assumption|].
    rewrite lookup_insert_ne in Hk by assumption. eauto.
  - intros k Hk. apply lookup_insert_is_Some'. auto.
  - intros k Hk. rewrite view_insert. destruct (decide (k = uid)); auto.
  - assumption.
  - intros k x Hk. destruct (decide (uid = k)) as [<-|Hn].
    + rewrite lookup_insert_eq in Hk. now simplify_eq.
    + rewrite lookup_insert_ne in Hk by assumption. destruct (Ic k x Hk); auto.
  - intros k. rewrite Iun. destruct (decide (uid = k)) as [<-|Hn].
    + now rewrite lookup_insert_eq, Eu.
    + now rewrite lookup_insert_ne by assumption.
  - rewrite Hw, Iw.
    rewrite (fsum_upd (fun i => u_weight (view (l_changes l) i)) (fun i => u_weight (view (<[_ := _]> _) i)) uid) by
      first [assumption | intros i Hi; rewrite view_insert; now destruct (decide (i = uid))].
    cbv beta. rewrite Ev, view_insert, decide_True by reflexivity. apply eqm_eq. lia.
  - rewrite Hx, Ix.
    rewrite (fxor_upd (fun i => u_csum (view (l_changes l) i)) (fun i => u_csum (view (<[_ := _]> _) i)) uid) by
      first [assumption | intros i Hi; rewrite view_insert; now destruct (decide (i = uid))].
    cbv beta. rewrite Ev, view_insert, decide_True by reflexivity. now rewrite !Z.lxor_assoc.
Qed.

(** Fields outside the bookkeeping, and more entries of [local_dsu]. *)
Lemma loc_inv_frame l l' :
  loc_inv l ->
  l_changes l' = l_changes l -> l_undo l' = l_undo l -> l_users l' = l_users l ->
  (forall k, is_Some (l_dsu l !! k) -> is_Some (l_dsu l' !! k)) ->
  (forall k, is_Some (l_dsu l' !! k) -> is_Some (l_dsu l !! k) \/ 0 <= k < l_users l) ->
  l_weight l' ≡64 l_weight l -> l_csum l' = l_csum l -> loc_inv l'.
Proof.
  intros I Ec En Es Hg Hd Hw Hx. destruct I as [Iu Id In Ir Ids Ic Iun Iw Ix].
  split; rewrite ?Ec, ?Es, ?En, ?Hx; auto.
  - intros k Hk. destruct (Hd k Hk); auto.
  - intros k x Hk. destruct (Ic k x Hk); auto.
  - now rewrite Hw.
Qed.

Lemma loc_inv_lframe l l' : loc_inv l -> l_frame (l_users l) l l' -> loc_inv l'.
Proof. intros I []. eapply loc_inv_frame; eauto. now rewrite lf_weight0. Qed.

(** Reading an account into [changes] and [undo]. *)
Lemma load_account_inv s l uid u l' :
  loc_inv l -> disk_inv s l.(l_changes) -> 0 <= uid < l.(l_users) ->
  load_account (bank_of s.(usr_) svid) uid l = (u, l') ->
  loc_inv l' /\ disk_inv s l'.(l_changes) /\ l'.(l_changes) !! uid = Some u /\ wrange u /\
  u = view l.(l_changes) uid /\
  l' = l <| l_changes := l_changes l' |> <| l_undo := l_undo l' |>.
Proof.
  intros I [Db Do Df] Hu E. unfold load_account in E.
  assert (Hv := li_range l I uid Hu).
  destruct (l_changes l !! uid) as [x|] eqn:Ex; injection E as <- <-.
  { unfold view in *. rewrite Ex in *. split_and!; auto; [now split | now destruct l]. }
  assert (Ho : uid < ousers).
  { destruct (Z.lt_ge_cases uid ousers); [assumption|].
    destruct (li_new l I uid) as [y Hy]; [lia|congruence]. }
  set (u := get_user (bank_of s.(usr_) svid) uid).
  assert (Eu : u = base uid). { unfold u, base. rewrite (Db uid Ex), (proj2 (Z.ltb_lt uid ousers)) by assumption. reflexivity. }
  assert (Ev : view (l_changes l) uid = u) by (unfold view; now rewrite Ex).
  assert (Evw : forall i, view (<[uid := u]> (l_changes l)) i = view (l_changes l) i).
  { intros i. rewrite view_insert. destruct (decide (i = uid)) as [->|]; auto. }
  split_and!; [| |cbn; apply lookup_insert_eq|now rewrite Ev in Hv|now rewrite Ev|now destruct l].
  - destruct I as [Iu Id In Ir Ids Ic Iun Iw Ix]. split; cbn; auto.
    + intros k. rewrite lookup_insert_is_Some. intros [<-|[_ ?]]; auto.
    + intros k Hk. apply lookup_insert_is_Some'. auto.
    + intros k Hk. rewrite Evw. auto.
    + intros k x Hk. destruct (decide (uid = k)) as [<-|Hn].
      * rewrite lookup_insert_eq in Hk. simplify_eq. left. rewrite Eu. apply base_csum. lia.
      * rewrite lookup_insert_ne in Hk by assumption. eauto.
    + intros k. destruct (decide (uid = k)) as [<-|Hn].
      * rewrite !lookup_insert_eq. rewrite (proj2 (Z.ltb_lt uid ousers)) by assumption. now rewrite <- (Db uid Ex).
      * now rewrite !lookup_insert_ne by assumption.
    + rewrite Iw. apply eqm_eq. f_equal. apply fsum_ext. intros i _. now rewrite Evw.
    + rewrite Ix. f_equal. apply fxor_ext. intros i _. now rewrite Evw.
  - split; cbn; [|assumption..]. intros k Hk. apply lookup_insert_None in Hk. now apply Db.
Qed.

(** A new account at the end of the bank. *)
Lemma loc_inv_new l l' u' :
  loc_inv l -> wrange u' -> csum_ok u' (l_users l) ->
  l_changes l' = <[l_users l := u']> (l_changes l) -> l_undo l' = l_undo l -> l_users l' = l_users l + 1 ->
  l_dsu l' = l_dsu l -> l_weight l' ≡64 l_weight l + u_weight u' -> l_csum l' = Z.lxor (l_csum l) (u_csum u') ->
  loc_inv l'.
Proof.
  intros I Hr Hc Ec En Es Hd Hw Hx. destruct I as [Iu Id In Ir Ids Ic Iun Iw Ix].
  assert (Hz : l_changes l !! l_users l = None).
  { destruct (l_changes l !! l_users l) eqn:E; [|reflexivity].
    assert (0 <= l_users l < l_users l) by (apply Id; eauto). lia. }
  assert (Hext : forall i, 0 <= i < l_users l -> view (<[l_users l := u']> (l_changes l)) i = view (l_changes l) i).
  { intros i Hi. rewrite view_insert. destruct (decide (i = l_users l)); [lia|reflexivity]. }
  split; rewrite ?Ec, ?Es, ?En, ?Hd.
  - lia.
  - intros k. rewrite lookup_insert_is_Some. intros [<-|[_ Hk]]; [lia|]. specialize (Id k Hk). lia.
  - intros k Hk. apply lookup_insert_is_Some'. destruct (decide (k = l_users l)); [left; congruence|].
    right. apply In. lia.
  - intros k Hk. rewrite view_insert. destruct (decide (k = l_users l)); [assumption|]. apply Ir. lia.
  - intros k Hk. specialize (Ids k Hk). lia.
  - intros k x Hk. destruct (decide (l_users l = k)) as [<-|Hn].
    + rewrite lookup_insert_eq in Hk. simplify_eq. auto.
    + rewrite lookup_insert_ne in Hk by assumption. auto.
  - intros k. rewrite Iun. destruct (decide (l_users l = k)) as [<-|Hn].
    + rewrite lookup_insert_eq, Hz, (proj2 (Z.ltb_ge _ _)) by lia. reflexivity.
    + now rewrite lookup_insert_ne by assumption.
  - rewrite Hw, Iw, fsum_succ by lia. rewrite view_insert, decide_True by reflexivity.
    rewrite (fsum_ext (fun i => u_weight (view (<[_ := _]> _) i)) (fun i => u_weight (view (l_changes l) i)) (l_users l))
      by (intros i Hi; cbv beta; now rewrite Hext).
    apply eqm_eq. lia.
  - rewrite Hx, Ix, fxor_succ by lia. rewrite view_insert, decide_True by reflexivity.
    rewrite (fxor_ext (fun i => u_csum (view (<[_ := _]> _) i)) (fun i => u_csum (view (l_changes l) i)) (l_users l))
      by (intros i Hi; cbv beta; now rewrite Hext).
    now rewrite !Z.lxor_assoc.
Qed.

(** ** The steps of the loop *)

Hypothesis svid_in : svid < n_nodes s0.(srvs_).
Hypothesis div_rate : 0 <= s0.(srvs_).(sv_div) < 2 ^ 14.

Lemma nodes_inv_in s n : nodes_inv s n -> 0 <= svid < n_nodes s.(srvs_).
Proof. intros []. unfold n_nodes in *. lia. Qed.

(** A change of the node record of the bank that keeps its totals. *)
Lemma nodes_inv_put s n nd :
  nodes_inv s n -> n_weight nd = n_weight (cur_node s svid) -> n_hash nd = n_hash (cur_node s svid) ->
  n_msha nd = n_msha (cur_node s svid) -> n_mtim nd = n_mtim (cur_node s svid) -> n <= n_users nd ->
  (forall uid, 0 <= uid < n -> changed_bit (n_changed nd) uid = changed_bit (n_changed (cur_node s svid)) uid) ->
  nodes_inv (put_cur_node s svid nd) (n_users nd).
Proof.
  intros I Hw Hh Hs Ht Hn Hc. pose proof (nodes_inv_in s n I) as Hin. destruct I as [Il Io Iu Iw Ih Is It Ig Ic Id In].
  split; [now rewrite length_put | intros j Hj Hn'; rewrite cur_put, decide_False by assumption; auto | | | | | | lia | |
          exact Id | exact In];
    rewrite cur_put, decide_True by (assumption || reflexivity); try congruence.
  intros uid Hu. rewrite Hc by lia. auto.
Qed.

Lemma disk_inv_write s ch uid u :
  disk_inv s ch -> is_Some (ch !! uid) -> disk_inv (s <| usr_ := write_user s.(usr_) svid uid u |>) ch.
Proof.
  intros [Db Do Df] [x Hx]. split; cbn.
  - intros k Hk. rewrite bank_of_write, decide_True by reflexivity. rewrite get_user_insert, decide_False by congruence. auto.
  - intros j Hj. rewrite bank_of_write, decide_False by assumption. auto.
  - intros j n Hn. apply long_file_write. auto.
Qed.

Lemma put_user_inv s l uid u k :
  nodes_inv s k -> k = l_users l \/ uid = l_users l - 1 /\ k = l_users l - 1 ->
  disk_inv s l.(l_changes) -> is_Some (l.(l_changes) !! uid) -> 0 <= uid < l_users l -> l_users l < 2 ^ 32 ->
  nodes_inv (put_user s u svid uid) (l_users l) /\ disk_inv (put_user s u svid uid) l.(l_changes).
Proof.
  intros Hn Hk Hd Hu Hb Hl.
  pose proof (disk_inv_write s _ uid u Hd Hu) as Hd'.
  split; [|destruct Hd' as [? ? ?]; split; assumption].
  unfold put_user. set (s1 := s <| usr_ ::= _ |>).
  assert (Hn1 : nodes_inv s1 k) by (destruct Hn; split; assumption).
  assert (Ek : n_users (put_user_node (cur_node s1 svid) uid) = l_users l).
  { unfold put_user_node. rewrite (ni_users _ _ Hn1).
    destruct (Z.leb_spec k uid); cbn; [rewrite u32_small; lia|rewrite (ni_users _ _ Hn1); lia]. }
  assert (Hcb : forall i, 0 <= i < k -> changed_bit (n_changed (put_user_node (cur_node s1 svid) uid)) i = changed_bit (n_changed (cur_node s1 svid)) i).
  { intros i Hi. unfold put_user_node. rewrite (ni_users _ _ Hn1). destruct (Z.leb_spec k uid); [|reflexivity].
    apply changed_bit_resize; [lia|]. pose proof (Z.div_le_mono i uid 64). lia. }
  rewrite <- Ek. eapply nodes_inv_put; [exact Hn1|..]; [..|rewrite Ek; lia|exact Hcb]; unfold put_user_node; now destruct (_ <=? _).
Qed.

(** Opening an account: after the caller has added the initial amount to the
    running weight, the invariant holds again. *)
Lemma open_account_inv s l nuser mass npk tt s' l' :
  inv s l -> 0 <= nuser -> - 2 ^ 63 <= mass < 2 ^ 63 -> l_users l + 1 < 2 ^ 32 ->
  open_account s svid nuser mass npk tt l = Ok (s', l') ->
  inv s' (l' <| l_weight ::= fun w => i64 (w + mass) |>) /\ l_users l <= l_users l' <= l_users l + 1 /\
  last_srvs_ s' = last_srvs_ s /\ l_dsu l' = l_dsu l.
Proof.
  intros (In & Id & Il) Hu Hm Hl E. unfold open_account in E. inv_ok.
  pose proof (li_users l Il) as Hou.
  set (nu := init_user (n_msha (cur_node s 0)) svid nuser mass npk tt) in *.
  assert (Hr : wrange nu) by exact Hm.
  assert (Hc : csum_ok nu nuser) by reflexivity.
  destruct (Z.ltb_spec nuser (l_users l)) as [Hlt|Hge].
  - destruct (load_account (bank_of (usr_ s) svid) nuser l) as [u l1] eqn:Eu. inv_ok.
    destruct (load_account_inv s l nuser u l1 Il Id ltac:(lia) Eu) as (I1 & D1 & C1 & _ & _ & E1).
    assert (Eus : l_users l1 = l_users l) by (rewrite E1; now destruct l).
    assert (Eds : l_dsu l1 = l_dsu l) by (rewrite E1; now destruct l).
    assert (D2 : disk_inv s (<[nuser := nu]> (l_changes l1))).
    { destruct D1 as [Db Do Df]. split; [|assumption..]. intros k Hk. apply lookup_insert_None in Hk. now apply Db. }
    set (l2 := l1 <| l_local_fee ::= _ |> <| l_weight ::= _ |> <| l_csum ::= _ |> <| l_changes ::= _ |>) in *.
    destruct (put_user_inv s l2 nuser nu (l_users l)) as [N3 D3]; cbn; rewrite ?Eus; auto; try lia.
    { apply lookup_insert_is_Some'. auto. }
    split_and!; try (cbn; lia); [|reflexivity|exact Eds].
    split_and!; [exact N3 | exact D3 |].
    eapply (loc_inv_set l1 _ nuser u nu); try reflexivity; auto.
    + intros k Hk. now apply (li_dsu l1).
    + change (u_weight nu) with mass. cbn. wrap_solve.
  - assert (nuser = l_users l) as -> by (apply Z.leb_le in C; lia). inv_ok.
    assert (D2 : disk_inv s (<[l_users l := nu]> (l_changes l))).
    { destruct Id as [Db Do Df]. split; [|assumption..]. intros k Hk. apply lookup_insert_None in Hk. now apply Db. }
    set (l2 := l <| l_users ::= _ |> <| l_csum ::= _ |> <| l_changes ::= _ |>) in *.
    assert (Eu : l_users l2 = l_users l + 1) by (cbn; rewrite u32_small; lia).
    destruct (put_user_inv s l2 (l_users l) nu (l_users l)) as [N3 D3]; rewrite ?Eu; auto; try lia.
    { apply lookup_insert_is_Some'. auto. }
    split_and!; try (rewrite ?Eu; lia); [|reflexivity|reflexivity].
    split_and!; [exact N3 | exact D3 |].
    eapply (loc_inv_new l _ nu); try reflexivity; auto.
    + change (u_weight nu) with mass. cbn. wrap_solve.
    + cbn. now rewrite Z.lxor_0_r.
Qed.

Lemma tx_log_frame e m u c a l :
  tx_log e m u c a l = l <| l_log := l_log (tx_log e m u c a l) |> <| l_lpos := l_lpos (tx_log e m u c a l) |>.
Proof.
  assert (Hm : forall b f ts l, log_mpt e b f ts l = l <| l_log := l_log (log_mpt e b f ts l) |>
                                                     <| l_lpos := l_lpos (log_mpt e b f ts l) |>).
  { intros b f ts. revert f. induction ts as [|[us ms] ts IH]; intros f k; [now destruct k|].
    cbn [log_mpt]. rewrite IH at 1. now destruct k. }
  unfold tx_log. destruct (_ =? _); [now destruct l|].
  destruct (_ && _), (_ =? TXSTYPE_MPT); try rewrite Hm at 1; now destruct l.
Qed.

(** The part of a transaction paid by its sender. *)
Lemma tx_spend_inv e tmax s m p left u l s' l' :
  m.(m_svid) = svid -> u.(abank) = svid -> 0 <= u.(auser) -> 0 <= u.(buser) -> bytes p ->
  inv s l -> tx_spend e tmax s m p left u l = Ok (s', l') ->
  inv s' l' /\ l_users l' = l_users l.
Proof.
  intros Hm Ha Hu Hbu Hb (In & Id & Il) E. unfold tx_spend in E. inv_ok.
  apply Z.ltb_lt in C. rewrite Hm in E.
  destruct (load_account (bank_of (usr_ s) svid) (auser u) l) as [a l1] eqn:Ea.
  destruct (load_account_inv s l (auser u) a l1 Il Id ltac:(lia) Ea) as (I1 & D1 & C1 & R1 & _ & E1).
  assert (Eus : l_users l1 = l_users l) by (rewrite E1; now destruct l).
  clear Ea E1. inv_ok.
  assert (F1 : l_frame (l_users l1) l1 x).
  { eapply l_frame_trans with r; [destruct tmax; inv_ok; lframe|].
    apply tx_charge_frame in E1 as (_ & F & _); try assumption; [|congruence].
    now rewrite Hm, (ni_users _ _ In), <- Eus in F. }
  apply tx_charge_frame in E1 as (Fs & _ & Ew & Ec & _); try assumption; [|congruence].
  destruct (s_frame_fields _ _ Fs) as (Fu & Fsv & Fl & _).
  destruct (dividend r0 x0 (l_lodiv_fee x)) as [[a' lodiv] div] eqn:Ed. inv_ok.
  apply dividend_weight in Ed as (R2 & Ec2 & _ & Hw); cycle 1.
  { rewrite Fsv, (ni_div _ _ In). assumption. }
  { unfold wrange in *. now rewrite Ew. }
  pose proof (loc_inv_lframe _ _ I1 F1) as I2.
  set (l3 := x <| l_lodiv_fee := lodiv |> <| l_weight ::= add_div div |>) in *.
  rewrite tx_log_frame. set (lg := tx_log _ _ _ _ _ _). clearbody lg.
  assert (Eus' : l_users x = l_users l) by (rewrite (lf_users _ _ _ F1); exact Eus).
  assert (Ech : l_changes x !! auser u = Some a) by (now rewrite (lf_changes _ _ _ F1)).
  split; [|exact Eus'].
  split_and!.
  - unfold settle; cbn. rewrite Eus'. destruct In; split; unfold cur_node in *; rewrite ?Fsv; auto.
  - unfold settle; cbn. rewrite (lf_changes _ _ _ F1). destruct D1 as [Db Do Df]. split; rewrite Fu; [|assumption..].
    intros k Hk. apply lookup_insert_None in Hk as [Hk _]. now apply Db.
  - eapply (loc_inv_set x _ (auser u) a); [exact I2|exact Ech| |reflexivity|reflexivity|reflexivity| | | | |].
    + apply i64_range.
    + intros k Hk. apply lookup_insert_is_Some'. auto.
    + intros k. cbn. rewrite lookup_insert_is_Some. intros [<-|[_ Hk]]; [lia|]. now apply (li_dsu x I2).
    + right. apply lookup_insert_is_Some'. auto.
    + cbn. rewrite ?i64_eqm, Hw, Ew. apply eqm_eq. lia.
    + cbn. rewrite Ec2, Ec. now rewrite lxor_cancel.
Qed.

Lemma inv_loc_frame s l l' : inv s l -> l_frame (l_users l) l l' -> inv s l'.
Proof.
  intros (In & Id & Il) F. split_and!; [now rewrite (lf_users _ _ _ F) | now rewrite (lf_changes _ _ _ F) |].
  now apply (loc_inv_lframe l).
Qed.

Lemma inv_weight s l w : w ≡64 l_weight l -> inv s l -> inv s (l <| l_weight := w |>).
Proof.
  intros Hw (In & Id & Il). split_and!; [exact In|exact Id|].
  eapply loc_inv_frame; try exact Il; auto.
Qed.

Lemma process_tx_inv e tmax s m p left u l s' l' :
  m.(m_svid) = svid -> bytes p -> parse p = Some u -> l_users l + 1 < 2 ^ 32 ->
  inv s l -> process_tx e tmax s m p left u l = Ok (s', l') ->
  inv s' l' /\ l_users l' <= l_users l + 1.
Proof.
  intros Hm Hb Hp Hl I E.
  pose proof (parse_bounds p u Hb Hp) as (_ & Hau & _ & Hbu & _).
  unfold process_tx in E. set (l0 := l <| l_tmpos ::= _ |>) in *.
  assert (I0 : inv s l0) by (apply (inv_loc_frame s l); [exact I|lframe]).
  assert (Hl0 : l_users l0 = l_users l) by reflexivity. clearbody l0. clear I.
  destruct (ttype u =? TXSTYPE_NON); [inv_ok; split; [exact I0|lia]|].
  destruct (ttype u =? TXSTYPE_CON).
  { inv_ok. split; [|lia]. destruct I0 as (In & Id & Il).
    split_and!; [|destruct Id; split; assumption|exact Il].
    rewrite <- (ni_users _ _ In). rewrite Hm.
    match goal with |- nodes_inv (put_cur_node _ _ ?nd) _ => change (n_users (cur_node s svid)) with (n_users nd) end.
    eapply nodes_inv_put; [exact In|reflexivity..|cbn; now rewrite (ni_users _ _ In)|reflexivity]. }
  inv_ok. apply Z.eqb_eq in C1. rewrite Hm in C1.
  destruct (ttype u =? TXSTYPE_UOK).
  { inv_ok. rewrite Hm in E0.
    apply open_account_inv in E0 as (I1 & Hu1 & _); try assumption; try lia.
    split; [|cbn; lia]. apply (inv_loc_frame _ x); [|lframe].
    apply (inv_weight _ _ (l_weight x)) in I1; [|cbn; wrap_solve].
    destruct x; exact I1. }
  inv_ok. destruct (_ && _).
  - inv_ok. rewrite Hm in E1.
    apply open_account_inv in E1 as (I1 & Hu1 & _); try assumption; try (unfold USER_MIN_MASS; lia);
      try (apply (rdz_bound p _ 4 Hb)).
    apply tx_spend_inv in E as [I2 Hu2]; try assumption; try lia.
    split; [exact I2|]. rewrite Hu2. cbn. lia.
  - inv_ok. apply tx_spend_inv in E as [I2 Hu2]; try assumption; try lia.
    split; [exact I2|]. lia.
Qed.

Lemma process_loop_inv e tmax fuel s m p left l s' l' :
  m.(m_svid) = svid -> bytes p -> l_users l + Z.max 0 left < 2 ^ 32 ->
  inv s l -> process_loop e tmax fuel s m p left l = Ok (s', l') -> inv s' l' /\ l_users l' < 2 ^ 32.
Proof.
  intros Hm. revert s p left l; induction fuel as [|fuel IH]; intros s p left l Hb Hl I E;
    cbn [process_loop] in E; destruct (Z.leb_spec left 0); try discriminate; inv_ok; try (split; [exact I|lia]).
  destruct (parse p) as [u|] eqn:Ep; [|discriminate]. inv_ok.
  pose proof (parse_size p u Hb Ep) as Hs.
  apply process_tx_inv in E0 as [I1 Hu1]; try assumption; try lia.
  eapply IH, E; [now apply bytes_drop|lia|exact I1].
Qed.

(** ** After the loop *)

Lemma apply_dsu_inv s l uid d :
  loc_inv l -> nodes_inv s (l_users l) -> disk_inv s l.(l_changes) -> is_Some (l_dsu l !! uid) ->
  let l' := apply_dsu s svid l (uid, d) in
  loc_inv l' /\ disk_inv s l'.(l_changes) /\ l_users l' = l_users l /\ l_dsu l' = l_dsu l /\
  (forall k u, l_changes l' !! k = Some u -> k = uid /\ csum_ok u k \/ k <> uid /\ l_changes l !! k = Some u).
Proof.
  intros Il In Id Hd l'. pose proof (li_dsu l Il uid Hd) as Hu.
  assert (Hds : forall k, is_Some (l_dsu l !! k) -> 0 <= k < l_users l) by exact (li_dsu l Il).
  destruct (load_account (bank_of (usr_ s) svid) uid l) as [a l1] eqn:Ea.
  destruct (load_account_inv s l uid a l1 Il Id Hu Ea) as (I1 & D1 & C1 & R1 & _ & E1).
  assert (Eus : l_users l1 = l_users l) by (rewrite E1; now destruct l).
  assert (Eds : l_dsu l1 = l_dsu l) by (rewrite E1; now destruct l).
  assert (Hin : forall k v u, <[uid := v]> (l_changes l) !! k = Some u -> csum_ok v uid ->
                k = uid /\ csum_ok u k \/ k <> uid /\ l_changes l !! k = Some u).
  { intros k v u Hk Hv. destruct (decide (uid = k)) as [<-|Hn].
    - rewrite lookup_insert_eq in Hk. simplify_eq. auto.
    - rewrite lookup_insert_ne in Hk by assumption. auto. }
  unfold load_account in Ea. unfold l', apply_dsu.
  destruct (l_changes l !! uid) as [x|] eqn:Ex.
  - injection Ea as <- <-. cbn.
    split_and!; try reflexivity; [| |intros k u Hk; eapply Hin; [exact Hk|reflexivity]].
    + eapply (loc_inv_set l _ uid x); [exact Il|exact Ex| |reflexivity..| | | | |reflexivity]; cbn; auto.
      * apply i64_range.
      * rewrite user_csum_weight. cbn. rewrite ?i64_eqm. apply eqm_eq. lia.
    + destruct Id as [Db Do Df]. split; [|assumption..]. intros k Hk. apply lookup_insert_None in Hk as [Hk _]. auto.
  - injection Ea as <- <-. set (a := get_user (bank_of (usr_ s) svid) uid) in *.
    destruct (dividend s a (l_lodiv_fee l)) as [[v lodiv] div] eqn:Ed.
    apply dividend_weight in Ed as (R2 & Ec2 & _ & Hw); [|rewrite (ni_div _ _ In); assumption|exact R1].
    cbn. split_and!; try reflexivity; [| |intros k u Hk; eapply Hin; [exact Hk|reflexivity]].
    + eapply (loc_inv_set _ _ uid a); [exact I1|apply lookup_insert_eq| |cbn; now rewrite insert_insert_eq
                                      |reflexivity..| | | | |reflexivity]; cbn; auto.
      * apply i64_range.
      * rewrite user_csum_weight. cbn. rewrite ?i64_eqm, Hw. apply eqm_eq. lia.
    + destruct Id as [Db Do Df]. split; [|assumption..]. intros k Hk. apply lookup_insert_None in Hk as [Hk _]. auto.
Qed.

Lemma apply_dsus_inv s ds l :
  loc_inv l -> nodes_inv s (l_users l) -> disk_inv s l.(l_changes) ->
  (forall uid d, (uid, d) ∈ ds -> is_Some (l_dsu l !! uid)) ->
  (forall uid u, l_changes l !! uid = Some u -> csum_ok u uid \/ uid ∈ ds.*1) ->
  let l' := foldl (apply_dsu s svid) l ds in
  loc_inv l' /\ disk_inv s l'.(l_changes) /\ l_users l' = l_users l /\
  (forall uid u, l_changes l' !! uid = Some u -> csum_ok u uid).
Proof.
  revert l; induction ds as [|[uid d] ds IH]; intros l Il In Id Hds Hc; cbn [foldl].
  - split_and!; auto. intros uid u Hu. destruct (Hc uid u Hu) as [?|Hn]; [assumption|]. now apply elem_of_nil in Hn.
  - destruct (apply_dsu_inv s l uid d) as (I1 & D1 & U1 & S1 & C1); auto; [eapply Hds; left|].
    set (l1 := apply_dsu s svid l (uid, d)) in *. rewrite <- U1. apply IH; auto.
    + now rewrite U1.
    + intros k x Hk. rewrite S1. eapply Hds. right. eassumption.
    + intros k u Hk. destruct (C1 k u Hk) as [[-> ?]|[Hne Hk']]; [now left|].
      destruct (Hc k u Hk') as [?|Hi]; [now left|]. cbn in Hi. apply elem_of_cons in Hi as [->|?]; [easy|now right].
Qed.
End Inv.

(** * Banks in good order *)

Section Wf.
Context `{Sha256}.

(** The totals of bank [j] are those of its account file, the file has all its
    accounts, and every account has a weight of 64 bits and its own checksum. *)
Record bank_wf (s : server) (j : Z) : Prop := {
  bw_ok : bank_ok (cur_node s j) (bank_of s.(usr_) j);
  bw_users : 0 <= (cur_node s j).(n_users);
  bw_file : long_file s.(usr_) j (cur_node s j).(n_users);
  bw_range : forall uid, 0 <= uid < (cur_node s j).(n_users) -> wrange (get_user (bank_of s.(usr_) j) uid);
  bw_csum : forall uid, 0 <= uid < (cur_node s j).(n_users) -> csum_ok j (get_user (bank_of s.(usr_) j) uid) uid
}.

(** A bank is untouched when its totals and accounts are. *)
Definition same_bank (s s' : server) (j : Z) : Prop :=
  n_weight (cur_node s' j) = n_weight (cur_node s j) /\ n_hash (cur_node s' j) = n_hash (cur_node s j) /\
  n_users (cur_node s' j) = n_users (cur_node s j) /\
  (forall uid, get_user (bank_of s'.(usr_) j) uid = get_user (bank_of s.(usr_) j) uid) /\
  forall n, long_file s.(usr_) j n -> long_file s'.(usr_) j n.

Lemma bank_wf_same s s' j : same_bank s s' j -> bank_wf s j -> bank_wf s' j.
Proof.
  intros (Hw & Hh & Hu & Hd & Hf) [[O1 [O2 O3]] U F R C].
  split; rewrite ?Hu; auto; [|intros uid Hi; rewrite Hd; auto..].
  split_and!; rewrite ?Hw, ?Hh, ?Hu; [| |lia..].
  - rewrite O1. apply eqm_eq. apply fsum_ext. intros i _. now rewrite Hd.
  - rewrite O2. apply fxor_ext. intros i _. now rewrite Hd.
Qed.

Lemma same_bank_refl s j : same_bank s s j.
Proof. now split_and!. Qed.

Lemma same_bank_trans s s' s'' j : same_bank s s' j -> same_bank s' s'' j -> same_bank s s'' j.
Proof. intros (?&?&?&D&F) (?&?&?&D'&F'). split_and!; [congruence..| |auto]. intros. now rewrite D', D. Qed.

(** A new node key changes no bank. *)
Lemma same_bank_pk s i k j :
  0 <= j -> same_bank s (put_cur_node s i ((cur_node s i) <| n_pk := k |>)) j.
Proof.
  intros Hj. unfold same_bank, put_cur_node, cur_node, set_node, nth_node; cbn.
  destruct (decide (Z.to_nat i = Z.to_nat j)) as [->|Hn].
  - destruct (decide (Z.to_nat j < length s.(srvs_).(sv_nodes))%nat).
    + rewrite list_lookup_total_insert_eq by assumption. now split_and!.
    + rewrite list_insert_ge by lia. now split_and!.
  - rewrite list_lookup_total_insert_ne by assumption. now split_and!.
Qed.

Lemma commit_bky_same e bk s s' j :
  0 <= j -> commit_bky e bk s = Ok s' -> same_bank s s' j /\ n_nodes s'.(srvs_) = n_nodes s.(srvs_).
Proof.
  intros Hj. revert s; induction bk as [|[ppb k] bk IH]; intros s E; cbn [commit_bky] in E.
  - inv_ok. split; [apply same_bank_refl|reflexivity].
  - set (s1 := if has_bits _ _ then _ else _) in E.
    assert (H1 : same_bank s s1 j /\ n_nodes s1.(srvs_) = n_nodes s.(srvs_)).
    { unfold s1. destruct (has_bits _ _); split; now try apply same_bank_refl. }
    set (s2 := put_cur_node s1 _ _) in E.
    assert (H2 : same_bank s1 s2 j /\ n_nodes s2.(srvs_) = n_nodes s1.(srvs_)).
    { split; [now apply same_bank_pk|]. unfold n_nodes, s2. now rewrite length_put. }
    clearbody s1 s2.
    assert (H3 : same_bank s2 s' j /\ n_nodes s'.(srvs_) = n_nodes s2.(srvs_)).
    { destruct (_ =? _); [destruct (e_find_key _ _); [|discriminate]|]; apply IH in E; exact E. }
    destruct H1, H2, H3. split; [eauto using same_bank_trans|congruence].
Qed.

(** The accounts after [commit_accounts] are the ones the loop saw. *)
Lemma commit_accounts_disk s m ousers l s' j uid :
  commit_accounts s m ousers l = Some s' ->
  get_user (bank_of s'.(usr_) j) uid =
    if decide (j = m.(m_svid)) then default (get_user (bank_of s.(usr_) j) uid) (l_changes l !! uid)
    else get_user (bank_of s.(usr_) j) uid.
Proof.
  unfold commit_accounts. intros E. inv_opt. subst s'. cbn. rewrite write_elems.
  unfold server_save_undo in E0. inv_opt. now subst.
Qed.

(** The files only grow, and hold the accounts that were changed. *)
Lemma commit_accounts_file s m ousers l s' :
  commit_accounts s m ousers l = Some s' ->
  (forall j n, long_file s.(usr_) j n -> long_file s'.(usr_) j n) /\
  (forall uid n, is_Some (l_changes l !! uid) -> n <= uid + 1 -> long_file s'.(usr_) m.(m_svid) n).
Proof.
  unfold commit_accounts. intros E. inv_opt. subst s'. cbn. unfold server_save_undo in E0. inv_opt. subst.
  split; [intros j n'; apply long_file_changes|intros uid n'; apply long_file_changed].
Qed.

(** And the node of the bank. *)
Lemma commit_accounts_node s m ousers l s' :
  0 <= m.(m_svid) < n_nodes s.(srvs_) -> commit_accounts s m ousers l = Some s' ->
  let n := cur_node s m.(m_svid) in let n' := cur_node s' m.(m_svid) in
  n_weight n' = i64 (n_weight n + l_weight l) /\ n_hash n' = Z.lxor (n_hash n) (l_csum l) /\
  n_users n' = Z.max (n_users n) ousers /\ n_msha n' = n_msha n /\ n_mtim n' = n_mtim n /\
  n_nodes s'.(srvs_) = n_nodes s.(srvs_) /\
  (forall j, 0 <= j -> j <> m.(m_svid) -> cur_node s' j = cur_node s j).
Proof.
  intros Hin E. unfold commit_accounts in E. inv_opt. subst s'. unfold server_save_undo in E0. inv_opt.
  match type of E with save_undo (cur_node (put_cur_node ?s1 _ _) _) _ _ _ = _ =>
    assert (Hin1 : 0 <= m_svid m < n_nodes (srvs_ s1)) by exact Hin;
    rewrite cur_put, decide_True in E by (first [exact Hin1|reflexivity|lia]) end.
  apply save_undo_node in E as (Hw & Hh & _ & Hs & Ht & _ & _ & Hu). cbn in Hw, Hh, Hs, Ht, Hu.
  subst s0.
  assert (Hc : forall j, 0 <= j -> forall s2 (f : banks -> banks) k w,
    0 <= m_svid m < n_nodes (srvs_ s2) ->
    cur_node ((put_cur_node s2 (m_svid m) n) <| und_ ::= <[k := w]> |> <| usr_ ::= f |>) j =
    if decide (j = m_svid m) then n else cur_node s2 j).
  { intros j Hj s2 f k w H2. rewrite <- cur_put by assumption. reflexivity. }
  match goal with |- context [put_cur_node ?s2 _ n] => set (s2' := s2) end.
  assert (Hin2 : 0 <= m_svid m < n_nodes (srvs_ s2')) by (unfold n_nodes, s2'; rewrite length_put; exact Hin).
  cbv zeta. rewrite Hc, decide_True by (assumption || reflexivity || lia).
  split_and!; auto.
  - unfold n_nodes, s2'. cbn. now rewrite !length_insert.
  - intros j Hj Hn. rewrite Hc, decide_False by assumption. unfold s2'.
    rewrite cur_put, decide_False by assumption. reflexivity.
Qed.

(** The invariant at the start of the loop. *)
Lemma inv_init s svid ousers :
  0 <= ousers -> n_users (cur_node s svid) = ousers ->
  (forall uid, 0 <= uid < ousers -> wrange (base s svid ousers uid)) ->
  inv s svid ousers s (locals_init ousers).
Proof.
  intros Ho Hu Hr. split_and!; [split; cbn; auto; lia|split; auto|].
  split; cbn; auto; try lia.
  - intros uid [x Hx]. now rewrite lookup_empty in Hx.
  - intros uid [x Hx]. now rewrite lookup_empty in Hx.
  - intros uid u Hx. now rewrite lookup_empty in Hx.
  - apply eqm_eq. rewrite Z.sub_diag. reflexivity.
  - now rewrite Z.lxor_nilpotent.
Qed.

(** What a message that ends in good order leaves: the loop's view of the
    accounts of its bank is on disk with matching totals, the other banks are
    as before. *)
Lemma commit_message_wf e cs s0 s m ousers l s' :
  let svid := m.(m_svid) in
  0 <= ousers -> 0 <= svid < n_nodes s0.(srvs_) -> 0 <= s0.(srvs_).(sv_div) < 2 ^ 14 ->
  n_users (cur_node s0 svid) = ousers -> bank_wf s0 svid ->
  inv s0 svid ousers s l -> commit_message e cs s m ousers l = Ok s' ->
  bank_wf s' svid /\ (forall j, 0 <= j -> j <> svid -> same_bank s0 s' j) /\
  n_nodes s'.(srvs_) = n_nodes s0.(srvs_).
Proof.
  intros svid Ho Hin Hdiv Hou W (In & Id & Il) E.
  assert (Hb : forall uid, 0 <= uid < ousers -> base s0 svid ousers uid = get_user (bank_of (usr_ s0) svid) uid).
  { intros uid Hu. unfold base. now rewrite (proj2 (Z.ltb_lt _ _)) by lia. }
  assert (Hbr : forall uid, 0 <= uid < ousers -> wrange (base s0 svid ousers uid)).
  { intros uid Hu. rewrite Hb by assumption. apply (bw_range _ _ W). lia. }
  assert (Hbc : forall uid, 0 <= uid < ousers -> csum_ok svid (base s0 svid ousers uid) uid).
  { intros uid Hu. rewrite Hb by assumption. apply (bw_csum _ _ W). lia. }
  unfold commit_message in E. fold svid in E. inv_ok.
  destruct (apply_dsus_inv s0 svid ousers Hbc Hdiv s (elems (l_dsu l)) l Il In Id) as (I1 & D1 & U1 & C1).
  { intros uid d Hd. apply elem_of_elems in Hd. eauto. }
  { intros uid u Hu. rewrite elems_keys. now apply (li_csum _ _ _ _ Il). }
  set (l1 := foldl _ _ _) in *.
  destruct (commit_accounts s m ousers l1) as [s1|] eqn:Ec; [|discriminate].
  apply rbind_Ok in E as (s2 & E0 & E). apply Ok_inj in E.
  assert (Hin1 : 0 <= svid < n_nodes (srvs_ s)). { unfold n_nodes. rewrite (ni_len _ _ _ _ In). exact Hin. }
  pose proof (commit_accounts_node s m ousers l1 s1 Hin1 Ec) as (Hw & Hh & Hu & _ & _ & Hn & Hj).
  fold svid in Hw, Hh, Hu, Hj.
  pose proof (fun j uid => commit_accounts_disk s m ousers l1 s1 j uid Ec) as Hd. fold svid in Hd.
  assert (Hs : forall j, 0 <= j -> same_bank s1 s' j /\ n_nodes s'.(srvs_) = n_nodes s1.(srvs_)).
  { intros j Hj0. subst s'. unfold commit_block_txs in E0. inv_ok.
    apply (commit_bky_same e _ _ _ j Hj0) in E as [Sb Nb].
    split; [eapply same_bank_trans; [exact Sb|]; destruct (e_block_only e); now split_and!|].
    destruct (e_block_only e); exact Nb. }
  assert (Hv : forall uid, 0 <= uid < l_users l -> get_user (bank_of (usr_ s1) svid) uid = view s0 svid ousers (l_changes l1) uid).
  { intros uid Hi. rewrite Hd, decide_True by reflexivity. unfold view.
    destruct (l_changes l1 !! uid) as [x|] eqn:Ex; [reflexivity|]. cbn.
    rewrite (di_bank _ _ _ _ D1 uid Ex). symmetry. apply Hb.
    destruct (Z.lt_ge_cases uid ousers); [lia|].
    destruct (li_new _ _ _ _ I1 uid) as [y Hy]; [lia|congruence]. }
  assert (Hus : n_users (cur_node s1 svid) = l_users l).
  { rewrite Hu, (ni_users _ _ _ _ In). pose proof (li_users _ _ _ _ Il). lia. }
  destruct (commit_accounts_file s m ousers l1 s1 Ec) as [Hfg Hfn]. fold svid in Hfn.
  split_and!.
  - eapply bank_wf_same; [apply Hs; lia|]. split; rewrite ?Hus.
    + destruct (bw_ok _ _ W) as (W1 & W2 & W3).
      split_and!; rewrite ?Hus; [| |rewrite Hw; apply i64_range..].
      * rewrite Hw, i64_eqm, (ni_weight _ _ _ _ In), W1, (li_weight _ _ _ _ I1), U1, Hou.
        rewrite (bank_sum_fsum (bank_of (usr_ s1) svid)).
        rewrite (fsum_ext (fun i => u_weight (get_user (bank_of (usr_ s1) svid) i))
                   (fun i => u_weight (view s0 svid ousers (l_changes l1) i)) (l_users l))
          by (intros i Hi; cbv beta; now rewrite Hv).
        rewrite bank_sum_fsum.
        rewrite (fsum_ext (fun i => u_weight (base s0 svid ousers i))
                   (fun i => u_weight (get_user (bank_of (usr_ s0) svid) i)) ousers)
          by (intros i Hi; cbv beta; now rewrite Hb).
        apply eqm_eq. lia.
      * rewrite Hh, (ni_hash _ _ _ _ In), W2, (li_xor _ _ _ _ I1), U1, Hou, (bank_xor_fxor (bank_of (usr_ s1) svid)).
        rewrite (fxor_ext (fun i => u_csum (get_user (bank_of (usr_ s1) svid) i))
                   (fun i => u_csum (view s0 svid ousers (l_changes l1) i)) (l_users l))
          by (intros i Hi; cbv beta; now rewrite Hv).
        rewrite bank_xor_fxor.
        rewrite (fxor_ext (fun i => u_csum (base s0 svid ousers i))
                   (fun i => u_csum (get_user (bank_of (usr_ s0) svid) i)) ousers)
          by (intros i Hi; cbv beta; now rewrite Hb).
        now rewrite <- Z.lxor_assoc, Z.lxor_nilpotent, Z.lxor_0_l.
    + pose proof (li_users _ _ _ _ Il). lia.
    + pose proof (li_users _ _ _ _ Il). destruct (Z.le_gt_cases (l_users l) ousers).
      * apply Hfg, (di_file _ _ _ _ Id). replace (l_users l) with (n_users (cur_node s0 svid)) by lia. apply (bw_file _ _ W).
      * apply (Hfn (l_users l - 1)); [|lia]. apply (li_new _ _ _ _ I1). lia.
    + intros uid Hi. rewrite Hv by assumption. apply (li_range _ _ _ _ I1). lia.
    + intros uid Hi. rewrite Hv by assumption. unfold view.
      destruct (l_changes l1 !! uid) as [x|] eqn:Ex; cbn; [now apply C1|]. apply Hbc.
      destruct (Z.lt_ge_cases uid ousers); [lia|].
      destruct (li_new _ _ _ _ I1 uid) as [y Hy]; [lia|congruence].
  - intros j Hj0 Hne. eapply same_bank_trans; [|apply Hs; assumption].
    unfold same_bank. rewrite Hj, (ni_other _ _ _ _ In) by assumption. split_and!; auto.
    + intros uid. rewrite Hd, decide_False by assumption. now rewrite (di_other _ _ _ _ Id).
    + intros n Hf. apply Hfg. now apply (di_file _ _ _ _ Id).
  - destruct (Hs svid) as [_ ->]; [lia|]. rewrite Hn. unfold n_nodes. now rewrite (ni_len _ _ _ _ In).
Qed.
End Wf.
