(* ===== verification/Demo.v ===== *)
(** A small ledger on which the theorems are evaluated: one bank with two
    accounts, and messages of a few transactions. *)

From stdpp Require Import base gmap list.
From Stdlib Require Import ZArith Lia.
From S2P Require Import Prelude Params HashTree Usertxs Accounts Servers Ledger Process.

(** * Transactions as bytes *)

Definition head_bytes (ttype abank auser amsid ttime : Z) : list Z :=
  [ttype] ++ le_bytes 2 abank ++ le_bytes 4 auser ++ le_bytes 4 amsid ++ le_bytes 4 ttime.

Definition demo_sig : list Z := replicate 64 7.

Definition put_bytes (abank auser amsid ttime bbank buser tmass : Z) : list Z :=
  head_bytes TXSTYPE_PUT abank auser amsid ttime ++ le_bytes 2 bbank ++ le_bytes 4 buser ++ le_bytes 8 tmass ++
  replicate 32 0 ++ demo_sig.

Definition usr_bytes (abank auser amsid ttime bbank nuser : Z) : list Z :=
  head_bytes TXSTYPE_USR abank auser amsid ttime ++ le_bytes 2 bbank ++ demo_sig ++ le_bytes 4 nuser ++ replicate 32 5.

Definition get_bytes (abank auser amsid ttime bbank buser : Z) : list Z :=
  head_bytes TXSTYPE_GET abank auser amsid ttime ++ le_bytes 2 bbank ++ le_bytes 4 buser ++ demo_sig.

(** A message with the header, the transactions and the tail behind [len]
    that holds their number. *)
Definition demo_msg (svid msid now : Z) (txs : list (list Z)) : message :=
  let body := concat txs in
  let len := Z.of_nat data_offset + Z.of_nat (length body) in
  {| m_svid := svid; m_msid := msid; m_now := now; m_path := now; m_status := MSGSTAT_COM; m_len := len;
     m_data := replicate data_offset 0 ++ body ++ replicate 40 0 ++ le_bytes 4 (Z.of_nat (length txs)) |}.

(** * A ledger *)

Section Demo.
Context `{Sha256}.

Definition demo_now : Z := 0x5F000000.

Definition demo_user (svid uid weight : Z) : user_t :=
  init_user zero_hash svid uid weight (replicate 32 (uid + 1)) (demo_now - 1024).

Definition demo_bank (svid : Z) (ws : list Z) : bank :=
  list_to_map (imap (fun i w => (Z.of_nat i, demo_user svid (Z.of_nat i) w)) ws).

Definition demo_node (svid : Z) (ws : list Z) : node :=
  let n := Z.of_nat (length ws) in
  let b := demo_bank svid ws in
  zero_node <| n_weight := zsum ws |> <| n_hash := bank_xor b n |> <| n_users := n |> <| n_mtim := demo_now |>
            <| n_changed := replicate (Z.to_nat (1 + n / 64)) 0 |>.

(** Node 0 and a bank per list of weights. *)
Definition demo_servers (wss : list (list Z)) : servers :=
  {| sv_now := demo_now; sv_msg := 0; sv_nod := 1 + Z.of_nat (length wss); sv_div := 0; sv_oldhash := zero_hash;
     sv_minhash := zero_hash; sv_msghash := zero_hash; sv_nodhash := zero_hash; sv_viphash := zero_hash;
     sv_nowhash := zero_hash; sv_vok := 0; sv_vno := 0; sv_vtot := 0; sv_txs := 0;
     sv_nodes := zero_node :: imap (fun i ws => demo_node (Z.of_nat i + 1) ws) wss |}.

Definition demo_server (wss : list (list Z)) : server :=
  {| srvs_ := demo_servers wss; last_srvs_ := demo_servers wss;
     usr_ := list_to_map (imap (fun i ws => (Z.of_nat i + 1, demo_bank (Z.of_nat i + 1) ws)) wss);
     und_ := ∅; msgund_ := ∅; deposit := ∅; blk_bky := ∅; blk_bnk := ∅; blk_get := ∅; blk_usr := ∅; blk_uok := ∅;
     blk_sbs := ∅; blk_ubs := ∅; bank_fee := replicate (S (length wss)) 0; mydiv_fee := 0; myusr_fee := 0;
     myget_fee := 0; period_start := 0; pkey_ := zero_hash; msglog_ := ∅; brolog_ := ∅; events := [] |}.
End Demo.

(** Node 1 runs the code; every signature is accepted, the key file has the key of
    the nodes. *)
Definition demo_env : env :=
  {| e_svid := 1; e_do_sync := false; e_iamvip := false; e_block_only := false; e_start_path := 0; e_office := true;
     e_time := 0; e_key_file := Some (replicate 64 48 ++ [10]); e_public := fun k => k; e_sign_open := fun _ => true;
     e_stray := fun _ => 0 |}.

(** Whether a routine returned. *)
Definition is_ok {A} (r : res A) : bool := match r with Ok _ => true | _ => false end.

(** [runs c] names the state in which the routine [c] returns. *)
Ltac runs c s' E :=
  let Hok := fresh in
  assert (Hok : is_ok c = true) by (vm_compute; reflexivity);
  destruct c as [s'| |] eqn:E; [clear Hok | discriminate Hok | discriminate Hok].
