(* ===== verification/ProcessProps.v ===== *)
(** Correctness of [process_message]: the books of the bank stay balanced, a
    sender cannot overspend unless amounts overflow, the loop terminates; and
    two concrete executions on which the checks of the code are not enough. *)

From stdpp Require Import base gmap list.
From Stdlib Require Import ZArith Lia.
From S2P Require Import Prelude Params HashTree Usertxs Accounts Servers Ledger Process Invariant Demo.

(** * Balanced books *)

Section Books.
Context `{Sha256}.

Lemma csum_ok_eq svid u uid : csum_ok svid u uid <-> u_csum (user_csum u svid uid) = u_csum u.
Proof.
  unfold csum_ok. split; [now intros ->|]. intros E. unfold user_csum in *. cbn in E.
  destruct u; cbn in *. now rewrite E.
Qed.

(** [bank_wf] as a test. *)
Definition wrangeb (u : user_t) : bool := (- 2 ^ 63 <=? u.(u_weight)) && (u.(u_weight) <? 2 ^ 63).

Definition bank_wfb (s : server) (j : Z) : bool :=
  let n := cur_node s j in let b := bank_of s.(usr_) j in
  (- 2 ^ 63 <=? n_weight n) && (n_weight n <? 2 ^ 63) && bool_decide (check_nodehash n (s.(usr_) !! j) = Some true) && (0 <=? n_users n) &&
  forallb (fun uid => let u := get_user b uid in wrangeb u && (u_csum (user_csum u j uid) =? u_csum u)) (uids (n_users n)).

Lemma bank_wfb_ok s j : bank_wfb s j = true -> bank_wf s j.
Proof.
  unfold bank_wfb. cbv zeta. rewrite !andb_true_iff, Z.leb_le, Z.ltb_lt, Z.leb_le, bool_decide_eq_true.
  intros ((((W1 & W2) & Hc) & Hu) & Hf). apply check_nodehash_sums in Hc as [Hl Hc].
  assert (Hi : forall uid, 0 <= uid < n_users (cur_node s j) ->
    wrangeb (get_user (bank_of s.(usr_) j) uid) = true /\
    u_csum (user_csum (get_user (bank_of s.(usr_) j) uid) j uid) = u_csum (get_user (bank_of s.(usr_) j) uid)).
  { intros uid Hi. rewrite List.forallb_forall in Hf. specialize (Hf uid).
    rewrite andb_true_iff, Z.eqb_eq in Hf. apply Hf, list_elem_of_In. unfold uids. apply elem_of_seqZ. lia. }
  split; auto.
  - now apply node_sums_ok.
  - intros uid Hu'. destruct (Hi uid Hu') as [Hr _]. unfold wrangeb in Hr. unfold wrange. lia.
  - intros uid Hu'. apply csum_ok_eq, Hi, Hu'.
Qed.

(** What is assumed of the state a message meets. *)
Record msg_pre (s : server) (m : message) : Prop := {
  mp_svid : 0 <= m.(m_svid) < n_nodes s.(srvs_);
  mp_data : bytes m.(m_data);
  mp_len : 0 <= m.(m_len);
  mp_div : 0 <= s.(srvs_).(sv_div) < 2 ^ 14;
  mp_users : n_users (cur_node s m.(m_svid)) + m.(m_len) < 2 ^ 32;
  mp_wf : bank_wf s m.(m_svid)
}.

(** An accepted message: its loop, which kept the invariant, and its commit. *)
Lemma process_message_split e s m s' :
  msg_pre s m -> process_message e s m = Ok s' ->
  let ousers := n_users (cur_node s m.(m_svid)) in
  exists tmax cs s1 l1,
    process_loop e tmax (Z.to_nat m.(m_len)) s m (drop data_offset m.(m_data))
      (m.(m_len) - Z.of_nat data_offset) (locals_init ousers) = Ok (s1, l1) /\
    inv s m.(m_svid) ousers s1 l1 /\ commit_message e cs s1 m ousers l1 = Ok s'.
Proof.
  intros [Hin Hb Hlen Hd Hu W] E ousers. unfold process_message in E. cbv zeta in E. inv_ok. fold ousers in E, E0.
  pose proof (bw_users _ _ W) as Hu0. fold ousers in Hu, Hu0.
  assert (Hbase : forall uid, 0 <= uid < ousers -> base s (m_svid m) ousers uid = get_user (bank_of (usr_ s) (m_svid m)) uid).
  { intros uid Hi. unfold base. now rewrite (proj2 (Z.ltb_lt _ _)) by lia. }
  do 4 eexists. split; [exact E0|]. split; [|exact E].
  eapply process_loop_inv; [| | | | |reflexivity| | | |exact E0]; try lia.
  - intros uid Hi. rewrite Hbase by assumption. now apply (bw_csum _ _ W).
  - now apply bytes_drop.
  - unfold locals_init; cbn. unfold data_offset. lia.
  - apply inv_init; [assumption|reflexivity|]. intros uid Hi. rewrite Hbase by assumption. now apply (bw_range _ _ W).
Qed.

(** The banks after a message that was accepted. *)
Lemma process_message_wf e s m s' :
  msg_pre s m -> process_message e s m = Ok s' ->
  bank_wf s' m.(m_svid) /\ (forall j, 0 <= j -> j <> m.(m_svid) -> same_bank s s' j) /\
  n_nodes s'.(srvs_) = n_nodes s.(srvs_).
Proof.
  intros P E. destruct (process_message_split e s m s' P E) as (tm & cs & s1 & l1 & _ & I & Ec).
  destruct P as [Hin _ _ Hd _ W].
  exact (commit_message_wf e cs s s1 m _ l1 s' (bw_users _ _ W) Hin Hd eq_refl W I Ec).
Qed.

(** C1: executing a message keeps the books of every bank: when the totals of
    the sender's bank (weight modulo 2^64 and xor of checksums, the two values
    [check_nodehash] compares) are those of its account file and every account
    has its own checksum, the same holds after [process_message] accepted the
    message, new accounts included; accounts and totals of all other banks are
    untouched. *)
Theorem process_message_keeps_books e s m s' :
  msg_pre s m -> process_message e s m = Ok s' ->
  bank_wf s' m.(m_svid) /\
  check_nodehash (cur_node s' m.(m_svid)) (s'.(usr_) !! m.(m_svid)) = Some true /\
  forall j, 0 <= j -> j <> m.(m_svid) ->
    (bank_wf s j -> bank_wf s' j) /\
    forall uid, get_user (bank_of s'.(usr_) j) uid = get_user (bank_of s.(usr_) j) uid.
Proof.
  intros P E. destruct (process_message_wf e s m s' P E) as (W' & S' & _).
  split; [exact W'|]. split.
  - apply check_nodehash_ok; apply W'.
  - intros j Hj Hn. split; [now apply bank_wf_same, S'|]. now apply S'.
Qed.
End Books.

Definition demo_s : server := demo_server (H := toy_sha) [[10 ^ 12; 10 ^ 11]; [10 ^ 12; 5]].
Definition demo_m : message :=
  demo_msg 1 1 demo_now [put_bytes 1 1 1 demo_now 1 0 1000; put_bytes 1 1 2 demo_now 2 1 5000; usr_bytes 1 1 3 demo_now 1 2].

Lemma process_message_keeps_books_witness :
  exists s', process_message (H := toy_sha) demo_env demo_s demo_m = Ok s' /\
             check_nodehash (cur_node s' 1) (s'.(usr_) !! 1) = Some true.
Proof.
  runs (process_message (H := toy_sha) demo_env demo_s demo_m) s' E.
  exists s'. split; [reflexivity|].
  refine (proj1 (proj2 (process_message_keeps_books (H := toy_sha) demo_env demo_s demo_m s' _ E))).
  split.
  - vm_compute. split; congruence.
  - apply bytes_check. vm_compute. reflexivity.
  - vm_compute. congruence.
  - vm_compute. split; congruence.
  - vm_compute. reflexivity.
  - apply bank_wfb_ok. vm_compute. reflexivity.
Defined.

(** * Spending *)

(** The amount a transaction transfers. *)
Definition masses (ts : list (Z * Z * Z)) : list Z := map snd ts.

Definition tx_amount (p : list Z) (u : usertxs) : Z :=
  if u.(ttype) =? TXSTYPE_PUT then Z.max 0 u.(tmass)
  else if u.(ttype) =? TXSTYPE_MPT then zsum (masses (mpt_targets (Z.to_nat u.(bbank)) (drop toaddresses p)))
  else 0.

(** The deposits account [uid] is waiting for. *)
Definition pending (l : locals) (uid : Z) : Z := (l.(l_dsu) !!! uid).(d_deposit).

Lemma pending_dsu l l' uid : l_dsu l' = l_dsu l -> pending l' uid = pending l uid.
Proof. intros E. unfold pending. now rewrite E. Qed.

Lemma pending_status l l' uid d k :
  l_dsu l' = <[uid := d]> (l_dsu l) -> d_deposit d = pending l uid -> pending l' k = pending l k.
Proof.
  intros E Hd. unfold pending in *. rewrite E. destruct (decide (k = uid)) as [->|Hn].
  - now rewrite lookup_total_insert_eq.
  - now rewrite lookup_total_insert_ne by congruence.
Qed.

Lemma dsu_sus_deposit b d : d_deposit (dsu_sus b d) = d_deposit d.
Proof. reflexivity. Qed.
Lemma dsu_uus_deposit b d : d_deposit (dsu_uus b d) = d_deposit d.
Proof. reflexivity. Qed.

(** A deposit to one account, seen from another or from itself. *)
Lemma pending_deposit l l' uid mass k P d :
  l_dsu l' = dsu_deposit uid mass (l_dsu l) -> 0 <= mass -> 0 <= d -> P + d + mass < 2 ^ 64 ->
  0 <= pending l k <= P + d -> 0 <= pending l' k <= P + (d + mass).
Proof.
  intros E Hm Hd Hb Hp. unfold pending in *. rewrite E. unfold dsu_deposit.
  destruct (decide (k = uid)) as [->|Hn].
  - rewrite lookup_total_insert_eq. generalize dependent (l_dsu l !!! uid). intros x Hx. cbn. rewrite u64_small; lia.
  - rewrite lookup_total_insert_ne by congruence. lia.
Qed.

Section Spend.
Context `{Sha256}.

Lemma mpt_loop_positive e s abk out ts c l c' l' :
  mpt_loop e s abk out ts c l = Ok (c', l') -> 0 <= zsum (masses ts).
Proof.
  revert out c l; induction ts as [|[[tb tu] ms] ts IH]; intros out c l E; cbn [mpt_loop] in E; [cbn; lia|].
  inv_ok. apply Z.ltb_lt in C. apply IH in E. unfold masses, zsum in *. cbn [map foldr snd]. lia.
Qed.

Lemma share_fee m : 0 <= m -> 0 <= m ÷ 2000 /\ 2000 * (m ÷ 2000) <= m.
Proof. intros. Z.to_euclidean_division_equations. lia. Qed.

(** The costs that the targets of an [MPT] add up to. *)
Lemma mpt_loop_cost e s abk out ts c l c' l' k P :
  mpt_loop e s abk out ts c l = Ok (c', l') ->
  0 <= c_tmass c -> c_tmass c + zsum (masses ts) <= TOTALMASS -> P <= TOTALMASS ->
  0 <= 1000 * c_fee c <= c_tmass c -> 0 <= pending l k <= P + c_tmass c ->
  c_tmass c' = c_tmass c + zsum (masses ts) /\ 0 <= 1000 * c_fee c' <= c_tmass c' /\
  0 <= pending l' k <= P + c_tmass c'.
Proof.
  revert out c l; induction ts as [|[[tb tu] ms] ts IH]; intros out c l E Ht Hs HP Hf Hp; cbn [mpt_loop] in E.
  { inv_ok. cbn. split_and!; lia. }
  inv_ok. apply Z.ltb_lt in C. pose proof (mpt_loop_positive _ _ _ _ _ _ _ _ _ E) as Hpos.
  change (zsum (masses ((tb, tu, ms) :: ts))) with (ms + zsum (masses ts)) in *.
  pose proof (share_fee ms ltac:(lia)) as Hsh. unfold TXS_MPT_FEE, TXS_LNG_FEE, TOTALMASS in *.
  assert (Em : i64 (c_tmass c + ms) = c_tmass c + ms) by (apply i64_small; lia).
  assert (Ef : i64 (c_fee c + ms ÷ 2000) = c_fee c + ms ÷ 2000) by (apply i64_small; lia).
  assert (Ef2 : i64 (c_fee c + ms ÷ 2000 + ms ÷ 2000) = c_fee c + ms ÷ 2000 + ms ÷ 2000) by (apply i64_small; lia).
  apply IH in E; clear IH; cbn [c_tmass c_fee]; rewrite ?Em, ?Ef; try lia.
  - destruct E as (E1 & E2 & E3). cbn [c_tmass] in E1. rewrite Em in E1. split_and!; lia.
  - destruct (negb (abk =? tb)); rewrite ?Ef2; lia.
  - set (l1 := if tb =? abk then _ else _).
    assert (H1 : 0 <= pending l1 k <= P + (c_tmass c + ms)).
    { unfold l1. destruct (tb =? abk).
      - eapply pending_deposit; [reflexivity|lia..].
      - rewrite (pending_dsu l) by reflexivity. lia. }
    destruct (_ && _); [rewrite (pending_dsu l1) by reflexivity|]; lia.
Qed.

Lemma tx_put_cost e s u l c l' k P :
  tx_put e s u l = Ok (c, l') -> Z.max 0 u.(tmass) <= TOTALMASS -> P <= TOTALMASS -> 0 <= pending l k <= P ->
  0 <= c_deduct c <= TOTALMASS /\ 0 <= c_fee c <= 2 ^ 53 /\ 0 <= pending l' k <= P + c_deduct c.
Proof.
  intros E Ha HP Hp. unfold tx_put in E. inv_ok. cbn [c_deduct c_fee].
  set (ms := if tmass u <? 0 then 0 else tmass u).
  assert (Hms : 0 <= ms <= TOTALMASS) by (unfold ms; destruct (Z.ltb_spec (tmass u) 0); unfold TOTALMASS in *; lia).
  clearbody ms. pose proof (share_fee ms ltac:(lia)) as Hsh.
  unfold TXS_PUT_FEE, TXS_LNG_FEE, TXS_MIN_FEE, TOTALMASS in *.
  split; [lia|]. split.
  { destruct (negb _); rewrite i64_small by lia; destruct (_ <? 10000) eqn:?; lia. }
  set (l1 := if bbank u =? abank u then _ else _).
  assert (H1 : 0 <= pending l1 k <= P + ms).
  { unfold l1. destruct (bbank u =? abank u).
    - replace (P + ms) with (P + (0 + ms)) by lia. eapply pending_deposit; [reflexivity|lia..].
    - rewrite (pending_dsu l) by reflexivity. lia. }
  destruct (_ && _); [rewrite (pending_dsu l1) by reflexivity|]; lia.
Qed.

Lemma tx_mpt_cost e s p u l c l' k P :
  tx_mpt e s p u l = Ok (c, l') -> zsum (masses (mpt_targets (Z.to_nat u.(bbank)) (drop toaddresses p))) <= TOTALMASS ->
  P <= TOTALMASS -> 0 <= u.(bbank) < 2 ^ 16 -> 0 <= pending l k <= P ->
  0 <= c_deduct c <= TOTALMASS /\ 0 <= c_fee c <= 2 ^ 53 /\ 0 <= pending l' k <= P + c_deduct c.
Proof.
  intros E Ha HP Hbb Hp. unfold tx_mpt in E. inv_ok. cbn [c_deduct c_fee].
  pose proof (mpt_loop_positive _ _ _ _ _ _ _ _ _ E0) as Hpos.
  eapply (mpt_loop_cost _ _ _ _ _ _ _ _ _ k P) in E0 as (E1 & E2 & E3); cbn [flat c_tmass c_fee]; try lia.
  cbn [flat c_tmass] in E1. unfold TXS_MINMPT_FEE, TOTALMASS in *.
  cbn. split_and!; try lia; destruct (c_fee r <? _) eqn:?; try destruct (bbank u <? 10) eqn:?; lia.
Qed.

(** The cost of a transaction of bounded amount: deduction and fee are exact
    and at most the amount (or the fixed deposits) and a thousandth of it; the
    sender's own pending deposits grow by no more than the deduction. *)
Lemma tx_charge_cost e s m p u a l s' c a' l' P :
  tx_charge e s m p u a l = Ok (s', c, a', l') -> tx_amount p u <= TOTALMASS -> P <= TOTALMASS -> 0 <= u.(bbank) < 2 ^ 16 ->
  0 <= pending l u.(auser) <= P ->
  0 <= c_deduct c <= TOTALMASS /\ 0 <= c_fee c <= 2 ^ 53 /\ 0 <= pending l' u.(auser) <= P + c_deduct c.
Proof.
  intros E Ha HP Hbb Hp. unfold tx_charge in E. unfold tx_amount in Ha.
  assert (Hfl : forall d f r t mp l1, pending l1 u.(auser) = pending l u.(auser) -> 0 <= d <= TOTALMASS -> 0 <= f <= 2 ^ 53 ->
    let c := {| c_deduct := d; c_fee := f; c_remote := r; c_tmass := t; c_mpt := mp |} in
    0 <= c_deduct c <= TOTALMASS /\ 0 <= c_fee c <= 2 ^ 53 /\ 0 <= pending l1 u.(auser) <= P + c_deduct c).
  { intros d f r t mp l1 El Hd Hf. cbn [c_deduct c_fee]. rewrite El. lia. }
  destruct (locked _ _ _); [inv_ok; now apply Hfl|].
  destruct (ttype u =? TXSTYPE_BRO).
  { inv_ok. apply Hfl; [reflexivity|done|]. apply Z.leb_le in C. unfold MAX_BROADCAST_LENGTH in C.
    unfold TXS_BRO_FEE, TXS_MIN_FEE. destruct (bbank u <? 32) eqn:?; lia. }
  destruct (ttype u =? TXSTYPE_PUT); [inv_ok; eapply tx_put_cost; eassumption|].
  destruct (ttype u =? TXSTYPE_MPT); [inv_ok; eapply tx_mpt_cost; eassumption|].
  destruct (ttype u =? TXSTYPE_USR).
  { destruct (tx_usr e s m p u l) as [[s1 c1] l1] eqn:E'. inv_ok. unfold tx_usr in E'.
    destruct (negb _); injection E' as <- <- <-; now apply Hfl. }
  repeat match type of E with (if ?b then _ else _) = _ => destruct b end; try discriminate E; inv_ok;
    try (now apply Hfl).
  - unfold tx_bky in E0. inv_ok. destruct (bky_node _ _ _ =? 0); inv_ok; now apply Hfl.
  - unfold tx_node_status in E0. inv_ok. apply Hfl; try done. now destruct (status_voter _ _ _).
  - unfold tx_node_status in E0. inv_ok. apply Hfl; try done. now destruct (status_voter _ _ _).
  - unfold tx_account_status in E0. inv_ok. apply Hfl; try done. destruct (_ =? _); [|done].
    eapply pending_status; [reflexivity|apply dsu_sus_deposit].
  - unfold tx_account_status in E0. inv_ok. apply Hfl; try done. destruct (_ =? _); [|done].
    eapply pending_status; [reflexivity|apply dsu_uus_deposit].
  - unfold tx_sav in E0. inv_ok. now apply Hfl.
Qed.

(** [dividend] leaves a balance that is not negative and grows by at most a
    quarter. *)
Lemma dividend_balance s u fee u' fee' div :
  0 <= s.(srvs_).(sv_div) < 2 ^ 14 -> 0 <= u_weight u <= TOTALMASS -> dividend s u fee = (u', fee', div) ->
  0 <= u_weight u' /\ 4 * u_weight u' <= 5 * u_weight u.
Proof.
  unfold dividend. intros Hd Hw E. unfold TOTALMASS in *.
  destruct (_ && _); [|injection E as <- <- <-; lia].
  cbv zeta in E. match type of E with context [i64 (?d - TXS_DIV_FEE)] => set (d0 := d) in E end.
  assert (Hd0 : - u_weight u <= d0 /\ 4 * d0 <= u_weight u).
  { subst d0. clear E. destruct (u_lpath u <? _); [|destruct (u_lpath u <? _); [lia|]].
    - unfold TXS_GOK_FEE. Z.to_euclidean_division_equations. lia.
    - assert (Hs : 0 <= Z.shiftr (u_weight u) 16 /\ 2 ^ 16 * Z.shiftr (u_weight u) 16 <= u_weight u).
      { rewrite Z.shiftr_div_pow2 by lia. Z.to_euclidean_division_equations. lia. }
      rewrite i64_small; nia. }
  clearbody d0. unfold TXS_DIV_FEE in E. rewrite (i64_small (d0 - 20000000)) in E by lia.
  rewrite (i64_small (- u_weight u)) in E by lia.
  destruct (Z.ltb_spec (d0 - 20000000) (- u_weight u)); injection E as <- <- <-; cbn; rewrite i64_small by lia; lia.
Qed.

(** What the balance test guarantees. *)
Lemma affordable_spec u c a pend :
  affordable u c a pend = true -> 0 <= c_deduct c <= TOTALMASS -> 0 <= c_fee c <= 2 ^ 53 ->
  0 <= u_weight a < 2 ^ 63 -> 0 <= pend < 2 ^ 63 ->
  (if u.(auser) =? 0 then BANK_MIN_UMASS ÷ 2 else 0) <= u_weight a + pend - c_deduct c - c_fee c.
Proof.
  unfold affordable. intros E Hd Hf Ha Hp. unfold TOTALMASS in *.
  set (keep := if _ =? 0 then _ else _) in *.
  assert (Hk : 0 <= keep <= 50000000000) by (unfold keep; destruct (auser u =? 0); vm_compute; split; discriminate). clearbody keep.
  rewrite !(i64_small (c_deduct c + c_fee c)), (i64_small (c_deduct c + c_fee c + keep)) in E by lia.
  rewrite (i64_small pend) in E by lia.
  assert (i64 (u_weight a + pend) <= u_weight a + pend).
  { unfold i64. pose proof (Z.mod_le (u_weight a + pend + 2 ^ 63) (2 ^ 64) ltac:(lia) ltac:(lia)). lia. }
  destruct (Z.ltb_spec (u_weight a) (c_deduct c + c_fee c + keep)); [|lia].
  destruct (Z.ltb_spec (i64 (u_weight a + pend)) (c_deduct c + c_fee c + keep)); [discriminate|lia].
Qed.

(** C4: a sender cannot overspend: when its balance, its pending deposits and
    the amount of the transaction are at most the total mass of the network,
    an accepted transaction leaves the sender a balance that is not negative,
    and leaves the owner of a bank (account 0) half of the minimum deposit of a
    bank. *)
Theorem no_overspend e tmax s m p left u l s' l' a l0 :
  parse p = Some u -> bytes p -> 0 <= s.(srvs_).(sv_div) < 2 ^ 14 ->
  load_account (bank_of s.(usr_) m.(m_svid)) u.(auser) l = (a, l0) ->
  0 <= u_weight a <= TOTALMASS -> 0 <= pending l u.(auser) <= TOTALMASS -> tx_amount p u <= TOTALMASS ->
  u.(abank) = m.(m_svid) ->
  tx_spend e tmax s m p left u l = Ok (s', l') ->
  exists a', l_changes l' !! u.(auser) = Some a' /\
             (if u.(auser) =? 0 then BANK_MIN_UMASS ÷ 2 else 0) <= u_weight a'.
Proof.
  intros Hpa Hb Hdiv El Hw Hp Ham Hab E.
  pose proof (parse_bounds p u Hb Hpa) as (_ & Hau & Hbb & Hbu & _).
  unfold tx_spend in E. inv_ok. rewrite El in E. inv_ok.
  assert (Hp1 : pending r (auser u) = pending l (auser u)).
  { unfold load_account in El. apply pending_dsu.
    destruct tmax; inv_ok; destruct (l_changes l !! _); injection El as _ <-; reflexivity. }
  pose proof (tx_charge_frame _ _ _ _ _ _ _ _ _ _ _ Hab ltac:(lia) Hb E1) as (Fs & _ & Ew & _).
  apply (tx_charge_cost _ _ _ _ _ _ _ _ _ _ _ TOTALMASS) in E1 as (Hde & Hfe & Hpe); try lia.
  destruct (dividend r0 x0 (l_lodiv_fee x)) as [[a' lodiv] div] eqn:Ed. inv_ok.
  destruct (s_frame_fields _ _ Fs) as (_ & Fsv & _).
  apply dividend_balance in Ed as [Hd1 Hd2]; [|now rewrite Fsv|lia].
  rewrite tx_log_frame. eexists. split; [apply lookup_insert_eq|]. cbn [u_weight].
  set (lx := x <| l_lodiv_fee := _ |> <| l_weight ::= _ |>) in *.
  change (d_deposit (l_dsu _ !!! auser u)) with (pending x (auser u)).
  pose proof (affordable_spec u x1 a' (pending x (auser u)) C2 Hde Hfe) as Haff.
  unfold TOTALMASS in *. rewrite i64_small; [lia|]. specialize (Haff ltac:(lia) ltac:(lia)).
  assert (0 <= if auser u =? 0 then BANK_MIN_UMASS ÷ 2 else 0) by (destruct (auser u =? 0); vm_compute; discriminate).
  lia.
Qed.
End Spend.

Definition demo_put : list Z := put_bytes 1 1 1 demo_now 1 0 1000.

Definition demo_u : usertxs :=
  {| ttype := TXSTYPE_PUT; abank := 1; auser := 1; amsid := 1; ttime := demo_now; bbank := 1; buser := 0; tmass := 1000;
     tinfo := no_info; size := 125 |}.

Lemma no_overspend_witness :
  exists s' l' a', tx_spend (H := toy_sha) demo_env None demo_s demo_m demo_put 125 demo_u (locals_init 2) = Ok (s', l') /\
                   l_changes l' !! 1 = Some a' /\ 0 <= u_weight a'.
Proof.
  runs (tx_spend (H := toy_sha) demo_env None demo_s demo_m demo_put 125 demo_u (locals_init 2)) r E.
  destruct r as [s' l'].
  destruct (load_account (bank_of demo_s.(usr_) 1) 1 (locals_init 2)) as [a l0] eqn:El.
  assert (Ea : u_weight a = 10 ^ 11).
  { change a with ((a, l0).1). rewrite <- El. vm_compute. reflexivity. }
  assert (Hx : exists a', l_changes l' !! 1 = Some a' /\ 0 <= u_weight a').
  { refine (no_overspend (H := toy_sha) demo_env None demo_s demo_m demo_put 125 demo_u (locals_init 2) s' l' a l0
              _ _ _ El _ _ _ _ E).
    - vm_compute. reflexivity.
    - apply bytes_check. vm_compute. reflexivity.
    - vm_compute. split; congruence.
    - rewrite Ea. vm_compute. split; congruence.
    - vm_compute. split; congruence.
    - vm_compute. congruence.
    - reflexivity. }
  destruct Hx as (a' & Ha & Hw). exists s', l', a'. auto.
Defined.

(** Amounts are not bounded before they are added: a transfer of 2^63-1
    from an account of 10^11 wraps the sum [deduct+fee] around, passes the
    balance test, and leaves the sender with a balance above the total mass of
    the network. *)
Theorem overspend_by_overflow :
  let m := demo_msg 1 1 demo_now [put_bytes 1 1 1 demo_now 2 1 (2 ^ 63 - 1)] in
  exists s', process_message (H := toy_sha) demo_env demo_s m = Ok s' /\
             u_weight (get_user (bank_of demo_s.(usr_) 1) 1) = 10 ^ 11 /\
             TOTALMASS < u_weight (get_user (bank_of s'.(usr_) 1) 1) /\
             zget s'.(deposit) (dep_key 2 1) = 2 ^ 63 - 1.
Proof.
  intros m. runs (process_message (H := toy_sha) demo_env demo_s m) s' E.
  assert (Hs : match process_message (H := toy_sha) demo_env demo_s m with
               | Ok s' => (TOTALMASS <? u_weight (get_user (bank_of s'.(usr_) 1) 1)) &&
                          (zget s'.(deposit) (dep_key 2 1) =? 2 ^ 63 - 1)
               | _ => false end = true) by (vm_compute; reflexivity).
  rewrite E in Hs. apply andb_true_iff in Hs as [H1 H2].
  exists s'. split; [reflexivity|]. split; [vm_compute; reflexivity|].
  split; [now apply Z.ltb_lt | now apply Z.eqb_eq].
Qed.

(** A rejected message is not without effect: the account a [USR]
    transaction opens is written to the account file, and counted, before the
    rest of the message is checked; when a later transaction is rejected, the
    totals of the bank no longer agree with its accounts. *)
Theorem rejected_message_leaves_account :
  let m := demo_msg 1 1 demo_now [usr_bytes 1 1 1 demo_now 1 2; put_bytes 1 1 7 demo_now 2 1 5] in
  exists s', process_message (H := toy_sha) demo_env demo_s m = Rej s' /\
             check_nodehash (cur_node demo_s 1) (demo_s.(usr_) !! 1) = Some true /\
             n_users (cur_node s' 1) = n_users (cur_node demo_s 1) + 1 /\
             check_nodehash (cur_node s' 1) (s'.(usr_) !! 1) = Some false.
Proof.
  intros m.
  assert (Hs : match process_message (H := toy_sha) demo_env demo_s m with
               | Rej s' => (n_users (cur_node s' 1) =? n_users (cur_node demo_s 1) + 1) &&
                           bool_decide (check_nodehash (cur_node s' 1) (s'.(usr_) !! 1) = Some false)
               | _ => false end = true) by (vm_compute; reflexivity).
  destruct (process_message (H := toy_sha) demo_env demo_s m) as [|s'|]; [discriminate| |discriminate].
  apply andb_true_iff in Hs as [H1 H2].
  exists s'. split; [reflexivity|]. split; [vm_compute; reflexivity|].
  split; [now apply Z.eqb_eq | now apply bool_decide_eq_true in H2].
Qed.

(** * Termination *)

Section Termination.
Context `{Sha256}.

Lemma process_loop_fuel e tmax fuel s m p left l :
  bytes p -> left <= 4 * Z.of_nat fuel ->
  forall fuel', (fuel <= fuel')%nat -> process_loop e tmax fuel' s m p left l = process_loop e tmax fuel s m p left l.
Proof.
  revert s p left l; induction fuel as [|fuel IH]; intros s p left l Hb Hl fuel' Hf.
  - destruct fuel'; cbn [process_loop]; rewrite (proj2 (Z.leb_le left 0)) by lia; reflexivity.
  - destruct fuel' as [|fuel']; [lia|]. cbn [process_loop].
    destruct (left <=? 0); [reflexivity|]. destruct (parse p) as [u|] eqn:Ep; [|reflexivity].
    pose proof (parse_size p u Hb Ep) as Hs.
    destruct (process_tx e tmax s m p left u l) as [[s1 l1]| |]; [|reflexivity..]. cbn [rbind].
    apply IH; [now apply bytes_drop|lia|lia].
Qed.

(** C6: the transaction loop of [process_message] terminates: it makes at most
    one step per four bytes of the message, so a bound of as many steps as the
    message has bytes never stops it, and any larger bound gives the same
    result. *)
Theorem process_loop_terminates e tmax s m l fuel :
  bytes m.(m_data) -> 0 <= m.(m_len) -> m.(m_len) <= 4 * Z.of_nat fuel ->
  process_loop e tmax fuel s m (drop data_offset m.(m_data)) (m.(m_len) - Z.of_nat data_offset) l =
  process_loop e tmax (Z.to_nat m.(m_len)) s m (drop data_offset m.(m_data)) (m.(m_len) - Z.of_nat data_offset) l.
Proof.
  intros Hb Hl Hf. set (n := (fuel + Z.to_nat m.(m_len))%nat). unfold data_offset in *.
  transitivity (process_loop e tmax n s m (drop (4 + 64 + 10) m.(m_data)) (m.(m_len) - Z.of_nat (4 + 64 + 10)) l).
  - symmetry. apply process_loop_fuel; [now apply bytes_drop|lia|lia].
  - apply process_loop_fuel; [now apply bytes_drop|lia|lia].
Qed.
End Termination.

Lemma process_loop_terminates_witness :
  process_loop (H := toy_sha) demo_env None 500 demo_s demo_m (drop data_offset demo_m.(m_data))
    (demo_m.(m_len) - Z.of_nat data_offset) (locals_init 2) =
  process_loop (H := toy_sha) demo_env None (Z.to_nat demo_m.(m_len)) demo_s demo_m (drop data_offset demo_m.(m_data))
    (demo_m.(m_len) - Z.of_nat data_offset) (locals_init 2).
Proof.
  refine (process_loop_terminates (H := toy_sha) demo_env None demo_s demo_m (locals_init 2) 500 _ _ _).
  - apply bytes_check. vm_compute. reflexivity.
  - vm_compute. congruence.
  - vm_compute. congruence.
Defined.
