(* ===== verification/UndoProps.v ===== *)
(** [undo_message] takes back what [process_message] did, and [undo_bank] finds
    the accounts of an earlier block. *)

From stdpp Require Import base gmap list.
From Stdlib Require Import ZArith Lia.
From S2P Require Import Prelude Params HashTree Usertxs Accounts Servers Ledger Process Undo Invariant ProcessProps Demo.

(** * Steps that leave accounts and totals alone *)

(** Only node keys, the queues of the block and events change. *)
Record pk_only (s s' : server) : Prop := {
  po_usr : usr_ s' = usr_ s;
  po_und : und_ s' = und_ s;
  po_msgund : msgund_ s' = msgund_ s;
  po_fee : bank_fee s' = bank_fee s;
  po_last : last_srvs_ s' = last_srvs_ s;
  po_dep : deposit s' = deposit s;
  po_now : sv_now (srvs_ s') = sv_now (srvs_ s);
  po_len : length (sv_nodes (srvs_ s')) = length (sv_nodes (srvs_ s));
  po_node : forall j, 0 <= j -> cur_node s' j = (cur_node s j) <| n_pk := n_pk (cur_node s' j) |>
}.

Lemma pk_only_refl s : pk_only s s.
Proof. split; auto. intros j _. now destruct (cur_node s j). Qed.

Lemma pk_only_trans s s' s'' : pk_only s s' -> pk_only s' s'' -> pk_only s s''.
Proof.
  intros [] []. split; try congruence. intros j Hj. rewrite po_node1 at 1 by assumption.
  rewrite po_node0 by assumption. now destruct (cur_node s j).
Qed.

Lemma pk_only_put s i k : pk_only s (put_cur_node s i ((cur_node s i) <| n_pk := k |>)).
Proof.
  split; try reflexivity; [apply length_put|].
  intros j Hj. unfold put_cur_node, cur_node, set_node, nth_node; cbn.
  destruct (decide (Z.to_nat i = Z.to_nat j)) as [->|Hn].
  - destruct (decide (Z.to_nat j < length s.(srvs_).(sv_nodes))%nat).
    + rewrite list_lookup_total_insert_eq by assumption. reflexivity.
    + rewrite list_insert_ge by lia. now destruct (_ !!! _).
  - rewrite list_lookup_total_insert_ne by assumption. now destruct (_ !!! Z.to_nat j).
Qed.

(** An update of fields that are not listed. *)
Lemma pk_only_same s s' :
  usr_ s' = usr_ s -> und_ s' = und_ s -> msgund_ s' = msgund_ s -> bank_fee s' = bank_fee s ->
  last_srvs_ s' = last_srvs_ s -> deposit s' = deposit s -> sv_now (srvs_ s') = sv_now (srvs_ s) ->
  sv_nodes (srvs_ s') = sv_nodes (srvs_ s) -> pk_only s s'.
Proof.
  intros. split; try congruence.
  intros j Hj. unfold cur_node, nth_node. rewrite H6. now destruct (_ !!! _).
Qed.

Section UndoProps.
Context `{Sha256}.

Lemma commit_bky_pk e bk s s' : commit_bky e bk s = Ok s' -> pk_only s s'.
Proof.
  revert s; induction bk as [|[ppb k] bk IH]; intros s E; cbn [commit_bky] in E.
  - inv_ok. apply pk_only_refl.
  - set (s1 := if has_bits _ _ then _ else _) in E.
    assert (H1 : pk_only s s1) by (unfold s1; destruct (has_bits _ _); [now apply pk_only_same|apply pk_only_refl]).
    eapply pk_only_trans; [exact H1|]. eapply pk_only_trans; [apply pk_only_put|].
    destruct (_ =? _); [destruct (e_find_key _ _); [|discriminate]|]; apply IH in E; [|exact E].
    eapply pk_only_trans; [|exact E]. now apply pk_only_same.
Qed.

Lemma undo_tx_pk e s m tp p u l s' l' : undo_tx e s m tp p u l = Ok (s', l') -> pk_only s s'.
Proof.
  unfold undo_tx. intros E.
  destruct (_ =? TXSTYPE_PUT); [inv_ok; apply pk_only_refl|].
  destruct (_ =? TXSTYPE_MPT); [inv_ok; apply pk_only_refl|].
  destruct (_ =? TXSTYPE_BKY).
  { inv_ok. eapply pk_only_trans with r; [|destruct (_ =? 0); [apply pk_only_refl|now apply pk_only_same]].
    unfold undo_bky in E0. destruct (_ || _); [inv_ok; apply pk_only_refl|].
    destruct (_ && _); [|inv_ok; apply pk_only_put].
    destruct (e_find_key _ _); [|discriminate]. inv_ok.
    eapply pk_only_trans; [apply pk_only_put|]. now apply pk_only_same. }
  repeat match type of E with (if ?b then _ else _) = _ => destruct b end; inv_ok;
    now apply pk_only_same || apply pk_only_refl.
Qed.


(** ** The keys of the node

    [bky_node] depends on the last block and on the status of the sender's node,
    which no transaction changes; nor does the loop change a node key. *)

Definition same_keys (s s' : server) : Prop :=
  last_srvs_ s' = last_srvs_ s /\
  forall j, n_status (cur_node s' j) = n_status (cur_node s j) /\ n_pk (cur_node s' j) = n_pk (cur_node s j).

Lemma same_keys_refl s : same_keys s s.
Proof. split; auto. Qed.

Lemma same_keys_trans s s' s'' : same_keys s s' -> same_keys s' s'' -> same_keys s s''.
Proof. intros [A B] [A' B']. split; [congruence|]. intros j. destruct (B j), (B' j). split; congruence. Qed.

Lemma same_keys_put s i f :
  (forall n, n_status (f n) = n_status n /\ n_pk (f n) = n_pk n) -> same_keys s (put_cur_node s i (f (cur_node s i))).
Proof.
  intros Hf. split; [reflexivity|]. intros j. unfold put_cur_node, cur_node, set_node, nth_node; cbn.
  destruct (decide (Z.to_nat i = Z.to_nat j)) as [->|Hn]; [|now rewrite list_lookup_total_insert_ne by assumption].
  destruct (decide (Z.to_nat j < length s.(srvs_).(sv_nodes))%nat); [|now rewrite list_insert_ge by lia].
  rewrite list_lookup_total_insert_eq by assumption. apply Hf.
Qed.

Lemma put_user_keys s u peer uid : same_keys s (put_user s u peer uid).
Proof.
  unfold put_user. set (s1 := s <| usr_ ::= _ |>). change (same_keys s1 (put_cur_node s1 peer ((fun n => put_user_node n uid) (cur_node s1 peer)))).
  apply same_keys_put. intros n. unfold put_user_node. now destruct (_ <=? _).
Qed.

Lemma open_account_keys s svid nu mass pk tt l s' l' : open_account s svid nu mass pk tt l = Ok (s', l') -> same_keys s s'.
Proof. unfold open_account. intros E. inv_ok. apply put_user_keys. Qed.

(** What an accepted transaction leaves, and what a change of a node key named. *)
Lemma process_tx_keys e tmax s m p left u l s' l' :
  bytes p -> parse p = Some u -> process_tx e tmax s m p left u l = Ok (s', l') ->
  same_keys s s' /\
  (ttype u = TXSTYPE_BKY -> let node := bky_node s m.(m_svid) u.(bbank) in node <> 0 -> opkey p = n_pk (cur_node s node)).
Proof.
  intros Hb Hp E. pose proof (parse_bounds p u Hb Hp) as (_ & _ & _ & Hbu & _). unfold process_tx in E.
  destruct (Z.eqb_spec (ttype u) TXSTYPE_NON) as [Et|]; [inv_ok; split; [apply same_keys_refl|now rewrite Et]|].
  destruct (Z.eqb_spec (ttype u) TXSTYPE_CON) as [Et|].
  { inv_ok. split; [|now rewrite Et]. now apply (same_keys_put s _ (fun n => n <| n_port := _ |> <| n_ipv4 := _ |>)). }
  inv_ok. apply Z.eqb_eq in C1. destruct (Z.eqb_spec (ttype u) TXSTYPE_UOK) as [Et|].
  { inv_ok. split; [eapply open_account_keys; eassumption|now rewrite Et]. }
  inv_ok. assert (Hr : same_keys s r /\ (ttype u = TXSTYPE_BKY -> r = s)).
  { destruct (Z.eqb_spec (ttype u) TXSTYPE_USR) as [Et|]; cbn [andb] in E0; [|inv_ok; auto using same_keys_refl].
    split; [|now rewrite Et]. destruct (_ =? _); inv_ok; [eapply open_account_keys; eassumption|apply same_keys_refl]. }
  clear E0. destruct Hr as [Hr Hs].
  unfold tx_spend in E. inv_ok. destruct (load_account _ _ _) as [a l0]. inv_ok.
  pose proof (tx_charge_frame _ _ _ _ _ _ _ _ _ _ _ C1 ltac:(lia) Hb E1) as ((b & ev & ->) & _).
  destruct (dividend _ _ _) as [[a' lodiv] div]. inv_ok. split; [exact Hr|].
  intros Et node Hn. rewrite (Hs Et) in E1. unfold tx_charge in E1. rewrite Et in E1. destruct (locked _ _ _); [discriminate|].
  cbn in E1. inv_ok. unfold tx_bky in E. inv_ok. fold node in E. rewrite (proj2 (Z.eqb_neq _ 0) Hn) in E. inv_ok. symmetry. now eapply bool_decide_eq_true_1.
Qed.

Lemma bky_node_same s s' svid bb : last_srvs_ s' = last_srvs_ s -> n_status (cur_node s' svid) = n_status (cur_node s svid) ->
  bky_node s' svid bb = bky_node s svid bb.
Proof. intros El Es. unfold bky_node, last_node. now rewrite El, Es. Qed.

Lemma undo_tx_total e s m tp p u l :
  (ttype u = TXSTYPE_BKY -> bky_node s m.(m_svid) u.(bbank) = e.(e_svid) -> bky_node s m.(m_svid) u.(bbank) <> 0 -> e_find_key e (opkey p) = true) ->
  exists s' l', undo_tx e s m tp p u l = Ok (s', l').
Proof.
  intros Hk. unfold undo_tx.
  destruct (_ =? TXSTYPE_PUT); [eauto|]. destruct (_ =? TXSTYPE_MPT); [eauto|].
  destruct (Z.eqb_spec (ttype u) TXSTYPE_BKY) as [Et|].
  { unfold undo_bky. destruct (Z.eqb_spec (bky_node s (m_svid m) (bbank u)) 0) as [|Hn]; [cbn; eauto|]. cbn [orb].
    destruct (bool_decide _); [cbn; eauto|]. destruct (Z.eqb_spec (bky_node s (m_svid m) (bbank u)) (e_svid e)) as [He|]; [|cbn; eauto].
    rewrite Hk by assumption. destruct (negb _); cbn; eauto. }
  repeat match goal with |- context [if ?b then _ else _] => destruct b end; eauto.
Qed.

Lemma process_tx_type e tmax s m p left u l r : process_tx e tmax s m p left u l = Ok r -> u.(ttype) < TXSTYPE_INF.
Proof.
  unfold process_tx. intros E. unfold TXSTYPE_INF in *.
  destruct (Z.eqb_spec (ttype u) TXSTYPE_NON) as [->|]; [done|].
  destruct (Z.eqb_spec (ttype u) TXSTYPE_CON) as [->|]; [done|].
  inv_ok. now apply Z.ltb_lt.
Qed.

(** The undo loop runs through every message that was executed, when the node's
    key at its start is in the key file. *)
Lemma undo_loop_total e tmax fuel s m p left l r su tp lu :
  0 <= m.(m_svid) -> bytes p -> e_find_key e (n_pk (cur_node s e.(e_svid))) = true ->
  last_srvs_ su = last_srvs_ s -> n_status (cur_node su m.(m_svid)) = n_status (cur_node s m.(m_svid)) ->
  process_loop e tmax fuel s m p left l = Ok r ->
  exists su' lu', undo_loop e fuel su m tp p left lu = Ok (su', lu') /\ pk_only su su'.
Proof.
  intros Hs. revert s p left l su tp lu; induction fuel as [|fuel IH]; intros s p left l su tp lu Hb Hk Hl Hst E;
    cbn [process_loop undo_loop] in *; destruct (left <=? 0); try discriminate;
    try (do 2 eexists; split; [reflexivity|apply pk_only_refl]).
  destruct (parse p) as [u|] eqn:Ep; [|discriminate]. inv_ok.
  destruct (process_tx_keys _ _ _ _ _ _ _ _ _ _ Hb Ep E0) as ([Kl Kn] & Hop).
  apply process_tx_type in E0. rewrite (proj2 (Z.ltb_lt _ _) E0).
  destruct (undo_tx_total e su m (u32 (tp + 1)) p u lu) as (s1 & l1 & E1).
  { rewrite (bky_node_same s su) by assumption. intros Et He Hn. specialize (Hop Et Hn). cbv zeta in Hop. rewrite He in Hop. now rewrite Hop. }
  rewrite E1. cbn [rbind]. pose proof (undo_tx_pk _ _ _ _ _ _ _ _ _ E1) as P1.
  destruct (IH r0 (drop (Z.to_nat (size u)) p) (left - size u) x s1 (u32 (tp + 1)) l1 (bytes_drop _ _ Hb)) as (s2 & l2 & E2 & P2); [| | |exact E|].
  - destruct (Kn (e_svid e)) as [_ ->]. exact Hk.
  - rewrite (po_last _ _ P1). congruence.
  - rewrite (po_node _ _ P1) by assumption. destruct (Kn (m_svid m)) as [-> _]. exact Hst.
  - exists s2, l2. split; [exact E2|]. eapply pk_only_trans; [exact P1|exact P2].
Qed.

(** * One message *)

Definition msg_profit (m : message) (l : locals) : Z :=
  i64 (BANK_PROFIT (i64 (l.(l_local_fee) + l.(l_lodiv_fee))) - MESSAGE_FEE m.(m_len)).

Lemma commit_accounts_status s m ousers l s' :
  0 <= m.(m_svid) < n_nodes s.(srvs_) -> commit_accounts s m ousers l = Some s' ->
  last_srvs_ s' = last_srvs_ s /\ n_status (cur_node s' m.(m_svid)) = n_status (cur_node s m.(m_svid)).
Proof.
  intros Hin E. unfold commit_accounts in E. inv_opt. subst s'. unfold server_save_undo in E0. inv_opt.
  match type of E with save_undo (cur_node (put_cur_node ?s1 _ _) _) _ _ _ = _ =>
    assert (Hin1 : 0 <= m_svid m < n_nodes (srvs_ s1)) by exact Hin;
    rewrite cur_put, decide_True in E by (first [exact Hin1|reflexivity|lia]) end.
  apply save_undo_node in E as (_ & _ & _ & _ & _ & Hst & _ & _). cbn in Hst. subst s0. split; [reflexivity|].
  rewrite <- Hst. unfold cur_node, put_cur_node, set_node, nth_node, n_nodes in *. cbn. rewrite list_lookup_total_insert_eq; [reflexivity|].
  rewrite length_insert. lia.
Qed.

(** What [commit_accounts] does beside the accounts. *)
Lemma commit_accounts_rest s m ousers l s' :
  commit_accounts s m ousers l = Some s' ->
  let n := cur_node s m.(m_svid) in
  msgund_ s' !! (m.(m_path), m.(m_svid), m.(m_msid)) =
    Some {| mu_undo := l.(l_undo); mu_users := ousers; mu_csum := l.(l_csum); mu_weight := l.(l_weight);
            mu_fee := msg_profit m l; mu_msha := n.(n_msha); mu_mtim := n.(n_mtim) |} /\
  bank_fee s' = add_fee s.(bank_fee) m.(m_svid) (msg_profit m l) /\ deposit s' = deposit s.
Proof.
  intros E n. unfold commit_accounts in E. inv_opt. subst s'. unfold server_save_undo in E0. inv_opt. subst s0.
  cbn. split_and!; try reflexivity. apply lookup_insert_eq.
Qed.

Lemma apply_dsus_deposit s svid ds l : l_deposit (foldl (apply_dsu s svid) l ds) = l_deposit l.
Proof.
  revert l; induction ds as [|[uid d] ds IH]; intros l; cbn [foldl]; [reflexivity|]. rewrite IH.
  unfold apply_dsu. destruct (_ !! uid); [reflexivity|]. now destruct (dividend _ _ _) as [[? ?] ?].
Qed.

(** The commit of a message in two parts. *)
Lemma commit_message_split e cs s m ousers l s' :
  commit_message e cs s m ousers l = Ok s' ->
  let l1 := foldl (apply_dsu s m.(m_svid)) l (elems l.(l_dsu)) in
  exists s1, commit_accounts s m ousers l1 = Some s1 /\
             pk_only (s1 <| deposit ::= add_deposits (elems l.(l_deposit)) |>) s'.
Proof.
  intros E l1. unfold commit_message in E. inv_ok. fold l1 in E.
  destruct (commit_accounts s m ousers l1) as [s1|]; [|discriminate]. inv_ok.
  exists s1. split; [reflexivity|]. unfold commit_block_txs in E0. inv_ok. apply commit_bky_pk in E.
  assert (Ed : l_deposit l1 = l_deposit l) by apply apply_dsus_deposit. rewrite Ed in E.
  eapply pk_only_trans; [exact E|]. destruct (e_block_only e); now apply pk_only_same.
Qed.

Lemma add_fee_back f i d : - 2 ^ 63 <= nthz f (Z.to_nat i) < 2 ^ 63 -> add_fee (add_fee f i d) i (- d) = f.
Proof.
  intros Hr. unfold add_fee. destruct (decide (Z.to_nat i < length f)%nat) as [Hlt|Hge].
  - unfold nthz at 1. rewrite list_lookup_insert_eq by assumption. cbn.
    rewrite list_insert_insert_eq. unfold nthz in *.
    destruct (f !! Z.to_nat i) as [x|] eqn:E; [|apply lookup_ge_None in E; lia]. cbn in *.
    rewrite <- (list_insert_id f (Z.to_nat i) x E) at 2. f_equal.
    apply eqm_i64_eq; [apply i64_range|assumption|]. wrap_solve.
  - now rewrite !list_insert_ge by (rewrite ?length_insert; lia).
Qed.

(** An accepted message: the loop, the account records it ends with and the
    commit of these. *)
Lemma message_final e s m s' :
  msg_pre s m -> process_message e s m = Ok s' ->
  let svid := m.(m_svid) in let ousers := n_users (cur_node s svid) in
  exists tmax sL lL l2 s1,
    process_loop e tmax (Z.to_nat m.(m_len)) s m (drop data_offset m.(m_data))
      (m.(m_len) - Z.of_nat data_offset) (locals_init ousers) = Ok (sL, lL) /\
    nodes_inv s svid sL (l_users l2) /\ disk_inv s svid sL l2.(l_changes) /\ loc_inv s svid ousers l2 /\
    commit_accounts sL m ousers l2 = Some s1 /\
    pk_only (s1 <| deposit ::= add_deposits (elems lL.(l_deposit)) |>) s'.
Proof.
  intros P E svid ousers. destruct (process_message_split e s m s' P E) as (tm & cs & sL & lL & El & I & Ec).
  destruct P as [Hin Hb Hlen Hd Hu W]. destruct I as (In & Id & Il).
  apply commit_message_split in Ec as (s1 & Ec & Pk).
  assert (Hbc : forall uid, 0 <= uid < ousers -> csum_ok svid (base s svid ousers uid) uid).
  { intros uid Hi. unfold base. rewrite (proj2 (Z.ltb_lt _ _)) by lia. now apply (bw_csum _ _ W). }
  destruct (apply_dsus_inv s svid ousers Hbc Hd sL (elems (l_dsu lL)) lL Il In Id) as (I1 & D1 & U1 & _).
  { intros uid d Hi. apply elem_of_elems in Hi. eauto. }
  { intros uid u Hi. rewrite elems_keys. now apply (li_csum _ _ _ _ Il). }
  exists tm, sL, lL, (foldl (apply_dsu sL svid) lL (elems (l_dsu lL))), s1.
  split; [exact El|]. split; [rewrite U1; exact In|]. split; [exact D1|]. split; [exact I1|]. split; [exact Ec|exact Pk].
Qed.

(** What is equal before a message and after it was taken back. *)
Record bank_restored (s s2 : server) (svid : Z) : Prop := {
  br_users : n_users (cur_node s2 svid) = n_users (cur_node s svid);
  br_weight : n_weight (cur_node s2 svid) = n_weight (cur_node s svid);
  br_hash : n_hash (cur_node s2 svid) = n_hash (cur_node s svid);
  br_msha : n_msha (cur_node s2 svid) = n_msha (cur_node s svid);
  br_mtim : n_mtim (cur_node s2 svid) = n_mtim (cur_node s svid);
  br_accounts : forall uid, 0 <= uid < n_users (cur_node s svid) ->
                get_user (bank_of s2.(usr_) svid) uid = get_user (bank_of s.(usr_) svid) uid;
  br_file : forall n, long_file s.(usr_) svid n -> long_file s2.(usr_) svid n
}.

(** The nodes and accounts after [undo_accounts]. *)
Lemma undo_accounts_node s m mu j :
  0 <= m.(m_svid) < n_nodes s.(srvs_) -> 0 <= j ->
  let n := cur_node s m.(m_svid) in
  cur_node (undo_accounts s m mu) j =
    if decide (j = m.(m_svid)) then
      n <| n_weight := i64 (n.(n_weight) - mu.(mu_weight)) |>
        <| n_hash := Z.lxor n.(n_hash) mu.(mu_csum) |>
        <| n_msid := u32 (m.(m_msid) - 1) |>
        <| n_msha := mu.(mu_msha) |>
        <| n_mtim := mu.(mu_mtim) |>
        <| n_users := if mu.(mu_users) =? 0 then n.(n_users) else mu.(mu_users) |>
    else cur_node s j.
Proof.
  intros Hin Hj n.
  unfold undo_accounts, put_cur_node, cur_node, set_node, nth_node, n_nodes in *; cbn.
  destruct (decide (j = m_svid m)) as [->|Hn].
  - rewrite list_lookup_total_insert_eq by lia. reflexivity.
  - rewrite list_lookup_total_insert_ne by lia. reflexivity.
Qed.

Lemma undo_accounts_disk s m mu j uid :
  get_user (bank_of (undo_accounts s m mu).(usr_) j) uid =
    if decide (j = m.(m_svid)) then default (get_user (bank_of s.(usr_) j) uid) (mu_undo mu !! uid)
    else get_user (bank_of s.(usr_) j) uid.
Proof. apply write_elems. Qed.

(** From the state a message left, the account part of [undo_message] leads
    back. *)
Lemma undo_accounts_restores s sL l2 s1 su m d :
  let svid := m.(m_svid) in let ousers := n_users (cur_node s svid) in
  0 <= svid < n_nodes s.(srvs_) -> 0 < ousers -> bank_wf s svid ->
  nodes_inv s svid sL (l_users l2) -> disk_inv s svid sL l2.(l_changes) -> loc_inv s svid ousers l2 ->
  commit_accounts sL m ousers l2 = Some s1 -> pk_only (s1 <| deposit := d |>) su ->
  exists mu, msgund_ su !! (m.(m_path), svid, m.(m_msid)) = Some mu /\ mu_fee mu = msg_profit m l2 /\
             bank_restored s (undo_accounts su m mu) svid /\
             (forall j, 0 <= j -> j <> svid -> same_bank s (undo_accounts su m mu) j).
Proof.
  intros svid ousers Hin Ho W In Id Il Ec Hpk.
  assert (HinL : 0 <= svid < n_nodes (srvs_ sL)) by (unfold n_nodes; rewrite (ni_len _ _ _ _ In); exact Hin).
  pose proof (commit_accounts_node sL m ousers l2 s1 HinL Ec) as (Hw & Hh & Hu & Hms & Hmt & Hn & Hj).
  pose proof (commit_accounts_rest sL m ousers l2 s1 Ec) as (Hmu & _ & _).
  pose proof (fun j uid => commit_accounts_disk sL m ousers l2 s1 j uid Ec) as Hdk.
  fold svid in Hw, Hh, Hu, Hms, Hmt, Hj, Hmu, Hdk.
  eexists. split; [rewrite (po_msgund _ _ Hpk); exact Hmu|]. split; [reflexivity|].
  set (mu := {| mu_undo := _ |}).
  assert (Hinu : 0 <= svid < n_nodes (srvs_ su)) by (unfold n_nodes in *; rewrite (po_len _ _ Hpk); cbn; lia).
  assert (Hnu : forall j, 0 <= j -> cur_node su j = (cur_node s1 j) <| n_pk := n_pk (cur_node su j) |>)
    by exact (po_node _ _ Hpk).
  assert (Hdu : usr_ su = usr_ s1) by exact (po_usr _ _ Hpk).
  pose proof (undo_accounts_node su m mu svid Hinu (proj1 Hin)) as Hf. cbv zeta in Hf. rewrite decide_True in Hf by reflexivity.
  pose proof (bw_ok _ _ W) as (_ & _ & Hrange).
  destruct (commit_accounts_file sL m ousers l2 s1 Ec) as [Hfg _].
  assert (Hlf : forall j n, long_file (usr_ s) j n -> long_file (usr_ (undo_accounts su m mu)) j n).
  { intros j n Hj0. apply long_file_changes. change (long_file (usr_ su) j n). rewrite Hdu. apply Hfg. now apply (di_file _ _ _ _ Id). }
  split; [split|].
  - rewrite Hf. cbn. now rewrite (proj2 (Z.eqb_neq ousers 0)) by lia.
  - rewrite Hf. cbn. fold svid. rewrite Hnu by lia. cbn. rewrite Hw, (ni_weight _ _ _ _ In).
    apply eqm_i64_eq; [apply i64_range|exact Hrange|]. wrap_solve.
  - rewrite Hf. cbn. fold svid. rewrite Hnu by lia. cbn. rewrite Hh, (ni_hash _ _ _ _ In). apply lxor_cancel.
  - rewrite Hf. cbn. exact (ni_msha _ _ _ _ In).
  - rewrite Hf. cbn. exact (ni_mtim _ _ _ _ In).
  - intros uid Hi. rewrite undo_accounts_disk, decide_True by reflexivity. cbn [mu mu_undo].
    rewrite (li_undo _ _ _ _ Il), Hdu, Hdk, decide_True by reflexivity.
    destruct (l_changes l2 !! uid) as [x|] eqn:Ex; cbn.
    + now rewrite (proj2 (Z.ltb_lt _ _)) by (unfold ousers; lia).
    + now apply (di_bank _ _ _ _ Id).
  - apply Hlf.
  - intros j Hj0 Hne. unfold same_bank.
    rewrite (undo_accounts_node su m mu j Hinu Hj0), decide_False by assumption.
    rewrite Hnu by assumption. rewrite (Hj j), (ni_other _ _ _ _ In) by assumption. split_and!; [reflexivity..| |apply Hlf].
    intros uid. rewrite undo_accounts_disk, decide_False by assumption.
    rewrite Hdu, Hdk, decide_False by assumption. now rewrite (di_other _ _ _ _ Id).
Qed.

Lemma bank_restored_wf s s2 svid : bank_wf s svid -> bank_restored s s2 svid -> bank_wf s2 svid.
Proof.
  intros [[O1 [O2 O3]] U F R C] [Bu Bw Bh _ _ Ba Bf]. split; rewrite ?Bu; auto.
  - split_and!; rewrite ?Bu, ?Bw, ?Bh; [| |lia..].
    + rewrite O1. apply eqm_eq. symmetry. apply fsum_ext. intros i Hi. now rewrite Ba.
    + rewrite O2. symmetry. apply fxor_ext. intros i Hi. now rewrite Ba.
  - intros uid Hi. rewrite Ba by assumption. auto.
  - intros uid Hi. rewrite Ba by assumption. auto.
Qed.

(** ** Deposits *)

(** The transactions the loops visit. *)
Fixpoint msg_txs (fuel : nat) (p : list Z) (left : Z) : list (list Z * usertxs) :=
  if left <=? 0 then []
  else match fuel, parse p with
  | S fuel, Some u => (p, u) :: msg_txs fuel (drop (Z.to_nat u.(size)) p) (left - u.(size))
  | _, _ => []
  end.

(** A transfer of a negative amount to another bank. *)
Definition negative_put (u : usertxs) : bool :=
  (u.(ttype) =? TXSTYPE_PUT) && negb (u.(bbank) =? u.(abank)) && (u.(tmass) <? 0).

Definition no_negative_put (m : message) : bool :=
  forallb (fun q : list Z * usertxs => negb (negative_put q.2))
    (msg_txs (Z.to_nat m.(m_len)) (drop data_offset m.(m_data)) (m.(m_len) - Z.of_nat data_offset)).

(** What one transaction adds to the deposits of other banks. *)
Definition tx_dep (p : list Z) (u : usertxs) (d : gmap Z Z) : gmap Z Z :=
  if u.(ttype) =? TXSTYPE_PUT then
    if u.(bbank) =? u.(abank) then d else add_at (dep_key u.(bbank) u.(buser)) (if u.(tmass) <? 0 then 0 else u.(tmass)) d
  else if u.(ttype) =? TXSTYPE_MPT then undo_mpt u.(abank) (mpt_targets (Z.to_nat u.(bbank)) (drop toaddresses p)) d
  else d.

Lemma mpt_loop_dep e s abk out ts c l c' l' :
  mpt_loop e s abk out ts c l = Ok (c', l') -> l_deposit l' = undo_mpt abk ts (l_deposit l).
Proof.
  unfold undo_mpt. revert out c l; induction ts as [|[[tb tu] ms] ts IH]; intros out c l E; cbn [mpt_loop foldl] in *.
  - now inv_ok.
  - inv_ok. rewrite (IH _ _ _ E). f_equal. destruct (_ && _), (tb =? abk); reflexivity.
Qed.

Lemma tx_charge_dep e s m p u a l s' c a' l' :
  tx_charge e s m p u a l = Ok (s', c, a', l') -> l_deposit l' = tx_dep p u (l_deposit l).
Proof.
  unfold tx_charge, tx_dep. intros E. destruct (locked _ _ _).
  { inv_ok. apply andb_true_iff in C as [C _]. apply andb_true_iff in C as [C _]. apply andb_true_iff in C as [C1 C2].
    rewrite C1, Z.eqb_sym, C2. reflexivity. }
  destruct (Z.eqb_spec (ttype u) TXSTYPE_BRO) as [Et|]; [inv_ok; now rewrite Et|].
  destruct (ttype u =? TXSTYPE_PUT).
  { inv_ok. unfold tx_put in E0. inv_ok. now destruct (_ && _), (bbank u =? abank u). }
  destruct (ttype u =? TXSTYPE_MPT).
  { inv_ok. unfold tx_mpt in E0. inv_ok. eapply mpt_loop_dep; eassumption. }
  destruct (ttype u =? TXSTYPE_USR).
  { destruct (tx_usr e s m p u l) as [[s1 c1] l1] eqn:E'. inv_ok. unfold tx_usr in E'.
    destruct (negb _); injection E' as <- <- <-; reflexivity. }
  repeat match type of E with (if ?b then _ else _) = _ => destruct b end; try discriminate E; inv_ok; try reflexivity.
  - unfold tx_bky in E0. inv_ok. destruct (bky_node _ _ _ =? 0); now inv_ok.
  - unfold tx_node_status in E0. inv_ok. now destruct (status_voter _ _ _).
  - unfold tx_node_status in E0. inv_ok. now destruct (status_voter _ _ _).
  - unfold tx_account_status in E0. inv_ok. now destruct (_ =? _).
  - unfold tx_account_status in E0. inv_ok. now destruct (_ =? _).
  - unfold tx_sav in E0. now inv_ok.
Qed.

Lemma load_account_dep b uid l u l' : load_account b uid l = (u, l') -> l_deposit l' = l_deposit l.
Proof. unfold load_account. destruct (_ !! uid); now intros [= <- <-]. Qed.

Lemma open_account_dep s svid nu mass pk tt l s' l' :
  open_account s svid nu mass pk tt l = Ok (s', l') -> l_deposit l' = l_deposit l.
Proof.
  unfold open_account. intros E. inv_ok. destruct (_ <? _).
  - destruct (load_account _ _ _) as [u l1] eqn:El. inv_ok. exact (load_account_dep _ _ _ _ _ El).
  - now inv_ok.
Qed.

Lemma process_tx_dep e tmax s m p left u l s' l' :
  process_tx e tmax s m p left u l = Ok (s', l') -> l_deposit l' = tx_dep p u (l_deposit l).
Proof.
  unfold process_tx. intros E. set (l0 := l <| l_tmpos ::= _ |>) in E.
  change (l_deposit l) with (l_deposit l0). clearbody l0.
  destruct (Z.eqb_spec (ttype u) TXSTYPE_NON) as [Et|]; [inv_ok; unfold tx_dep; now rewrite Et|].
  destruct (Z.eqb_spec (ttype u) TXSTYPE_CON) as [Et|]; [inv_ok; unfold tx_dep; now rewrite Et|].
  inv_ok. destruct (Z.eqb_spec (ttype u) TXSTYPE_UOK) as [Et|].
  { inv_ok. unfold tx_dep. rewrite Et. cbn. exact (open_account_dep _ _ _ _ _ _ _ _ _ E0). }
  inv_ok.
  assert (Ed : l_deposit x = l_deposit l0).
  { destruct (_ && _); inv_ok; [|reflexivity]. exact (open_account_dep _ _ _ _ _ _ _ _ _ E1). }
  rewrite <- Ed. clear E0 Ed. unfold tx_spend in E. inv_ok.
  destruct (load_account _ _ _) as [a l1] eqn:El. apply load_account_dep in El. rewrite <- El. inv_ok.
  assert (Er : l_deposit r0 = l_deposit l1) by (destruct tmax; now inv_ok). rewrite <- Er.
  apply tx_charge_dep in E1. rewrite <- E1.
  destruct (dividend _ _ _) as [[a' lodiv] div]. inv_ok. rewrite tx_log_frame. reflexivity.
Qed.

Lemma undo_tx_dep e s m tp p u l s' l' :
  negative_put u = false -> undo_tx e s m tp p u l = Ok (s', l') -> ul_deposit l' = tx_dep p u (ul_deposit l).
Proof.
  unfold undo_tx, tx_dep, negative_put. intros Hn E.
  destruct (ttype u =? TXSTYPE_PUT).
  { inv_ok. destruct (bbank u =? abank u); [reflexivity|]. cbn in Hn. rewrite Hn. reflexivity. }
  destruct (ttype u =? TXSTYPE_MPT); [now inv_ok|].
  clear Hn. destruct (ttype u =? TXSTYPE_BKY).
  { inv_ok. unfold undo_bky in E0. destruct (_ || _); [now inv_ok|].
    destruct (_ && _); [destruct (e_find_key _ _); [|discriminate]|]; now inv_ok. }
  repeat match type of E with (if ?b then _ else _) = _ => destruct b end; now inv_ok.
Qed.

(** Both loops collect the same deposits. *)
Lemma loops_dep e tmax fuel s m p left l sL lL su tp lu su' lu' :
  process_loop e tmax fuel s m p left l = Ok (sL, lL) -> undo_loop e fuel su m tp p left lu = Ok (su', lu') ->
  forallb (fun q : list Z * usertxs => negb (negative_put q.2)) (msg_txs fuel p left) = true ->
  ul_deposit lu = l_deposit l -> ul_deposit lu' = l_deposit lL.
Proof.
  revert s p left l su tp lu; induction fuel as [|fuel IH]; intros s p left l su tp lu E Eu Hn Hd;
    cbn [process_loop undo_loop msg_txs] in *; destruct (left <=? 0); try discriminate; inv_ok; try assumption.
  destruct (parse p) as [u|]; [|discriminate]. destruct (ttype u <? TXSTYPE_INF); [|discriminate].
  cbn [forallb snd] in Hn. apply andb_true_iff in Hn as [Hu Hn]. apply negb_true_iff in Hu. inv_ok.
  eapply IH; [exact E|exact Eu|exact Hn|].
  apply process_tx_dep in E1. eapply undo_tx_dep in E0; [|exact Hu]. congruence.
Qed.

Lemma add_deposits_get l d k :
  NoDup l.*1 -> zget (add_deposits l d) k =
    match (list_to_map l : gmap Z Z) !! k with Some x => i64 (zget d k + x) | None => zget d k end.
Proof.
  unfold add_deposits. revert d; induction l as [|[j x] l IH]; intros d Hn; cbn [foldl fmap list_fmap fst snd] in *.
  - cbn. now rewrite lookup_empty.
  - apply NoDup_cons in Hn as [Hj Hn]. rewrite IH, zget_add_at by assumption. cbn [list_to_map foldr uncurry].
    destruct (decide (k = j)) as [->|Hne].
    + rewrite lookup_insert_eq. now rewrite not_elem_of_list_to_map_1.
    + now rewrite (lookup_insert_ne _ j k) by congruence.
Qed.

Lemma sub_deposits_add l d : sub_deposits l d = add_deposits (map (fun p : Z * Z => (p.1, - p.2)) l) d.
Proof.
  unfold sub_deposits, add_deposits. revert d; induction l as [|p l IH]; intros d; [reflexivity|].
  cbn [foldl map]. apply IH.
Qed.

Lemma deposits_back (x d : gmap Z Z) k :
  - 2 ^ 63 <= zget d k < 2 ^ 63 -> zget (sub_deposits (elems x) (add_deposits (elems x) d)) k = zget d k.
Proof.
  intros Hr. rewrite sub_deposits_add.
  assert (En : (map (fun p : Z * Z => (p.1, - p.2)) (elems x)).*1 = (elems x).*1).
  { induction (elems x) as [|p l IH]; [reflexivity|]. cbn. f_equal. exact IH. }
  rewrite !add_deposits_get by (rewrite ?En; apply elems_nodup).
  set (f := list_to_map (map _ _)).
  assert (Ef : f !! k = Z.opp <$> ((list_to_map (elems x) : gmap Z Z) !! k)).
  { unfold f. clear. induction (elems x) as [|[j y] l IH]; [reflexivity|]. cbn [map list_to_map foldr uncurry fst snd].
    destruct (decide (k = j)) as [->|]; [now rewrite !lookup_insert_eq|now rewrite !lookup_insert_ne by congruence]. }
  rewrite Ef. destruct ((list_to_map (elems x) : gmap Z Z) !! k) as [y|]; cbn; [|reflexivity].
  apply eqm_i64_eq; [apply i64_range|assumption|]. wrap_solve.
Qed.

(** The loop touches neither fees nor deposits. *)
Definition rest_same (s s' : server) : Prop :=
  bank_fee s' = bank_fee s /\ deposit s' = deposit s /\ last_srvs_ s' = last_srvs_ s /\ und_ s' = und_ s.

Lemma open_account_rest s svid nu mass pk tt l s' l' :
  open_account s svid nu mass pk tt l = Ok (s', l') -> rest_same s s'.
Proof. unfold open_account. intros E. inv_ok. now split_and!. Qed.

Lemma tx_spend_rest e tmax s m p left u l s' l' :
  u.(abank) = m.(m_svid) -> 0 <= u.(buser) -> bytes p ->
  tx_spend e tmax s m p left u l = Ok (s', l') -> rest_same s s'.
Proof.
  intros Ha Hb Hp E. unfold tx_spend in E. inv_ok. destruct (load_account _ _ _) as [a l0]. inv_ok.
  apply tx_charge_frame in E1 as ((b & ev & ->) & _); try assumption.
  destruct (dividend _ _ _) as [[a' lodiv] div]. inv_ok. now split_and!.
Qed.

Lemma process_tx_rest e tmax s m p left u l s' l' :
  bytes p -> parse p = Some u -> process_tx e tmax s m p left u l = Ok (s', l') -> rest_same s s'.
Proof.
  intros Hb Hp E. pose proof (parse_bounds p u Hb Hp) as (_ & _ & _ & Hbu & _). unfold process_tx in E.
  destruct (_ =? TXSTYPE_NON); [inv_ok; now split_and!|].
  destruct (_ =? TXSTYPE_CON); [inv_ok; now split_and!|].
  inv_ok. apply Z.eqb_eq in C1. destruct (_ =? TXSTYPE_UOK).
  { inv_ok. eapply open_account_rest; eassumption. }
  inv_ok. apply tx_spend_rest in E as (F1 & F2 & F3 & F4); try assumption; try lia.
  assert (Hr : rest_same s r) by (destruct (_ && _); inv_ok; [eapply open_account_rest; eassumption|now split_and!]).
  destruct Hr as (G1 & G2 & G3 & G4). split_and!; congruence.
Qed.

Lemma process_loop_rest e tmax fuel s m p left l s' l' :
  bytes p -> process_loop e tmax fuel s m p left l = Ok (s', l') -> rest_same s s'.
Proof.
  revert s p left l; induction fuel as [|fuel IH]; intros s p left l Hb E; cbn [process_loop] in E;
    destruct (left <=? 0); try discriminate; inv_ok; try now split_and!.
  destruct (parse p) as [u|] eqn:Ep; [|discriminate]. inv_ok.
  apply process_tx_rest in E0 as (G1 & G2 & G3 & G4); try assumption.
  apply IH in E as (F1 & F2 & F3 & F4); [|now apply bytes_drop]. split_and!; congruence.
Qed.

Lemma process_loop_keys e tmax fuel s m p left l s' l' :
  bytes p -> process_loop e tmax fuel s m p left l = Ok (s', l') -> same_keys s s'.
Proof.
  revert s p left l; induction fuel as [|fuel IH]; intros s p left l Hb E; cbn [process_loop] in E;
    destruct (left <=? 0); try discriminate; inv_ok; try apply same_keys_refl.
  destruct (parse p) as [u|] eqn:Ep; [|discriminate]. inv_ok.
  apply process_tx_keys in E0 as [K _]; try assumption. apply IH in E; [|now apply bytes_drop]. eauto using same_keys_trans.
Qed.

(** Undoing a message that was just executed. *)
Lemma undo_process e s m s1 :
  msg_pre s m -> 0 < n_users (cur_node s m.(m_svid)) -> has_bits m.(m_status) MSGSTAT_COM = true ->
  e_find_key e (n_pk (cur_node s e.(e_svid))) = true -> - 2 ^ 63 <= nthz s.(bank_fee) (Z.to_nat m.(m_svid)) < 2 ^ 63 ->
  process_message e s m = Ok s1 ->
  exists s2 m', undo_message e s1 m = Ok (s2, m') /\ has_bits m'.(m_status) MSGSTAT_COM = false /\
    bank_restored s s2 m.(m_svid) /\ bank_fee s2 = bank_fee s /\
    (forall j, 0 <= j -> j <> m.(m_svid) -> same_bank s s2 j) /\
    (no_negative_put m = true -> forall k, - 2 ^ 63 <= zget s.(deposit) k < 2 ^ 63 -> zget s2.(deposit) k = zget s.(deposit) k).
Proof.
  intros P Hu Hcom Hk Hfee E.
  destruct (message_final e s m s1 P E) as (tm & sL & lL & l2 & sA & El & In & Id & Il & Ec & Pk).
  pose proof (process_loop_rest _ _ _ _ _ _ _ _ _ _ (bytes_drop _ _ (mp_data _ _ P)) El) as (RL1 & RL2 & RL3 & _).
  pose proof (process_loop_keys _ _ _ _ _ _ _ _ _ _ (bytes_drop _ _ (mp_data _ _ P)) El) as [_ Kn].
  assert (HinL : 0 <= m_svid m < n_nodes (srvs_ sL)) by (unfold n_nodes; rewrite (ni_len _ _ _ _ In); apply (mp_svid _ _ P)).
  destruct (commit_accounts_status sL m _ l2 sA HinL Ec) as [Hl1 Hst1].
  destruct (undo_loop_total e tm (Z.to_nat (m_len m)) s m (drop data_offset (m_data m)) (m_len m - Z.of_nat data_offset)
              (locals_init (n_users (cur_node s (m_svid m)))) (sL, lL) s1 0 {| ul_deposit := ∅; ul_bky := ∅ |}
              (proj1 (mp_svid _ _ P)) (bytes_drop _ _ (mp_data _ _ P)) Hk) as (su & lu & Eu & Pu); [| |exact El|].
  { rewrite (po_last _ _ Pk). cbn. rewrite Hl1. exact RL3. }
  { rewrite (po_node _ _ Pk) by apply (mp_svid _ _ P). cbn. change (cur_node (sA <| deposit ::= _ |>) (m_svid m)) with (cur_node sA (m_svid m)). rewrite Hst1. apply Kn. }
  unfold undo_message. rewrite Hcom. cbn [negb]. rewrite Eu. cbn [rbind].
  set (sd := su <| deposit ::= sub_deposits (elems (ul_deposit lu)) |>).
  assert (Pd : pk_only (sA <| deposit := deposit sd |>) sd).
  { pose proof (pk_only_trans _ _ _ Pk Pu) as [? ? ? ? ? ? ? ? Hnode]. split; try assumption. reflexivity. }
  destruct (undo_accounts_restores s sL l2 sA sd m (deposit sd) (mp_svid _ _ P) Hu (mp_wf _ _ P) In Id Il Ec Pd)
    as (mu & Emu & Ef & Br & So).
  rewrite Emu. do 2 eexists. split; [reflexivity|].
  pose proof (commit_accounts_rest sL m _ l2 sA Ec) as (_ & Hfa & Hda).
  split_and!.
  - unfold has_bits, clear_bits, MSGSTAT_COM. cbn. rewrite Z.ldiff_land, <- Z.land_assoc.
    now rewrite (Z.land_comm _ 4), Z.land_lnot_diag, Z.land_0_r.
  - destruct Br as [B1 B2 B3 B4 B5 B6 B7]. split; assumption.
  - transitivity (add_fee (bank_fee sA) (m_svid m) (- mu_fee mu)).
    + cbn. f_equal. exact (po_fee _ _ Pd).
    + rewrite Hfa, Ef. rewrite RL1. now apply add_fee_back.
  - exact So.
  - intros Hn k Hr.
    pose proof (loops_dep _ _ _ _ _ _ _ _ _ _ _ _ _ _ _ El Eu Hn eq_refl) as Hdep.
    transitivity (zget (sub_deposits (elems (ul_deposit lu)) (deposit su)) k); [reflexivity|].
    rewrite (po_dep _ _ Pu), (po_dep _ _ Pk), Hdep. cbn [deposit]. cbn. rewrite Hda, RL2. now apply deposits_back.
Qed.

(** C3: [undo_message] takes back an executed message: run on the state the
    message left, it returns, and the sender's bank has again its number of
    accounts, totals, last message and all account records, the bank's fees are
    those from before, the other banks are untouched; deposits to other banks
    are what they were when the message has no transfer of a negative amount. *)
Theorem undo_message_inverts e s m s1 :
  msg_pre s m -> 0 < n_users (cur_node s m.(m_svid)) -> has_bits m.(m_status) MSGSTAT_COM = true ->
  e_find_key e (n_pk (cur_node s e.(e_svid))) = true -> - 2 ^ 63 <= nthz s.(bank_fee) (Z.to_nat m.(m_svid)) < 2 ^ 63 ->
  process_message e s m = Ok s1 ->
  exists s2 m', undo_message e s1 m = Ok (s2, m') /\ has_bits m'.(m_status) MSGSTAT_COM = false /\
    bank_restored s s2 m.(m_svid) /\ bank_wf s2 m.(m_svid) /\ bank_fee s2 = bank_fee s /\
    (forall j, 0 <= j -> j <> m.(m_svid) -> same_bank s s2 j) /\
    (no_negative_put m = true -> forall k, - 2 ^ 63 <= zget s.(deposit) k < 2 ^ 63 -> zget s2.(deposit) k = zget s.(deposit) k).
Proof.
  intros P Hu Hc Hk Hf E.
  destruct (undo_process e s m s1 P Hu Hc Hk Hf E) as (s2 & m' & E2 & Hs & Br & Hrest).
  exists s2, m'. split; [exact E2|]. split; [exact Hs|]. split; [exact Br|].
  split; [exact (bank_restored_wf _ _ _ (mp_wf _ _ P) Br)|exact Hrest].
Qed.
End UndoProps.

Lemma demo_pre : msg_pre (H := toy_sha) demo_s demo_m.
Proof.
  split.
  - vm_compute. split; congruence.
  - apply bytes_check. vm_compute. reflexivity.
  - vm_compute. congruence.
  - vm_compute. split; congruence.
  - vm_compute. reflexivity.
  - apply bank_wfb_ok. vm_compute. reflexivity.
Defined.

Lemma undo_message_inverts_witness :
  exists s1 s2 m', process_message (H := toy_sha) demo_env demo_s demo_m = Ok s1 /\
    undo_message demo_env s1 demo_m = Ok (s2, m') /\ bank_restored demo_s s2 1.
Proof.
  runs (process_message (H := toy_sha) demo_env demo_s demo_m) s1 E.
  assert (Hx : exists s2 m', undo_message demo_env s1 demo_m = Ok (s2, m') /\ has_bits m'.(m_status) MSGSTAT_COM = false /\
    bank_restored demo_s s2 (m_svid demo_m) /\ bank_wf (H := toy_sha) s2 (m_svid demo_m) /\ bank_fee s2 = bank_fee demo_s /\
    (forall j, 0 <= j -> j <> m_svid demo_m -> same_bank demo_s s2 j) /\
    (no_negative_put demo_m = true -> forall k, - 2 ^ 63 <= zget demo_s.(deposit) k < 2 ^ 63 ->
       zget s2.(deposit) k = zget demo_s.(deposit) k)).
  { refine (undo_message_inverts (H := toy_sha) demo_env demo_s demo_m s1 demo_pre _ _ _ _ E).
    - vm_compute. reflexivity.
    - vm_compute. reflexivity.
    - reflexivity.
    - vm_compute. split; congruence. }
  destruct Hx as (s2 & m' & E2 & _ & Br & _). exists s1, s2, m'. auto.
Defined.

(** The amount of a transfer to another bank is clamped to zero when
    it is negative by [process_message] but not by [undo_message]: executing
    and undoing such a message leaves the target a deposit out of nothing. *)
Theorem undo_negative_put_creates_deposit :
  let m := demo_msg 1 1 demo_now [put_bytes 1 1 1 demo_now 2 1 (- 5000)] in
  exists s1 s2 m', process_message (H := toy_sha) demo_env demo_s m = Ok s1 /\
    undo_message demo_env s1 m = Ok (s2, m') /\
    zget demo_s.(deposit) (dep_key 2 1) = 0 /\ zget s1.(deposit) (dep_key 2 1) = 0 /\
    zget s2.(deposit) (dep_key 2 1) = 5000.
Proof.
  intros m.
  assert (Hs : match process_message (H := toy_sha) demo_env demo_s m with
               | Ok s1 => (zget s1.(deposit) (dep_key 2 1) =? 0) &&
                          match undo_message demo_env s1 m with
                          | Ok (s2, _) => zget s2.(deposit) (dep_key 2 1) =? 5000 | _ => false end
               | _ => false end = true) by (vm_compute; reflexivity).
  destruct (process_message (H := toy_sha) demo_env demo_s m) as [s1| |]; try discriminate.
  apply andb_true_iff in Hs as [H1 H2].
  destruct (undo_message demo_env s1 m) as [[s2 m']| |] eqn:E2; try discriminate.
  exists s1, s2, m'. split; [reflexivity|]. split; [exact E2|].
  split; [reflexivity|]. split; now apply Z.eqb_eq.
Qed.
