(* ===== verification/Numbers.v ===== *)
(** The numbers of the transactions of an account.  [process_message] of
    [escd/server.cpp] accepts a transaction only with the number its sender has
    and moves the number on: over a whole message, with all that may happen
    between two transactions of an account, the numbers an account spends are
    consecutive and none is used twice. *)

From stdpp Require Import base gmap list.
From Stdlib Require Import ZArith Lia.
From S2P Require Import Prelude Params HashTree Usertxs Accounts Servers Ledger Process Invariant Demo ProcessProps UndoProps.

(** Transactions that take a number of their sender: all but the two that
    have no sender and the confirmation of a remote account. *)
Definition spends (u : usertxs) : bool :=
  negb ((u.(ttype) =? TXSTYPE_NON) || (u.(ttype) =? TXSTYPE_CON) || (u.(ttype) =? TXSTYPE_UOK)).

Definition tx_number (uid : Z) (u : usertxs) : list Z :=
  if spends u && (u.(auser) =? uid) then [u.(amsid)] else [].

(** The numbers that the transactions of account [uid] carry, in the order of
    the message. *)
Definition numbers (m : message) (uid : Z) : list Z :=
  q ← msg_txs (Z.to_nat m.(m_len)) (drop data_offset m.(m_data)) (m.(m_len) - Z.of_nat data_offset);
  tx_number uid q.2.

(** [n] consecutive 32-bit numbers. *)
Definition consecutive (first : Z) (n : nat) : list Z := (fun i => u32 (first + Z.of_nat i)) <$> seq 0 n.

Lemma consecutive_S first n : consecutive first (S n) = consecutive first n ++ [u32 (first + Z.of_nat n)].
Proof. unfold consecutive. now rewrite seq_S, fmap_app. Qed.

Lemma consecutive_nodup first n : Z.of_nat n <= 2 ^ 32 -> NoDup (consecutive first n).
Proof.
  intros Hn. apply NoDup_fmap_2_strong; [|apply NoDup_seq].
  intros i j Hi Hj E. apply elem_of_seq in Hi, Hj. unfold u32 in E.
  assert (D : (Z.of_nat i - Z.of_nat j) mod 2 ^ 32 = 0).
  { replace (Z.of_nat i - Z.of_nat j) with ((first + Z.of_nat i) - (first + Z.of_nat j)) by lia.
    now rewrite Zminus_mod, E, Z.sub_diag. }
  apply Z.mod_divide in D as [k Hk]; [|lia]. assert (k = 0) by nia. lia.
Qed.

Lemma msg_txs_length fuel p left :
  bytes p -> Z.of_nat (length (msg_txs fuel p left)) <= Z.max 0 left.
Proof.
  revert p left; induction fuel as [|fuel IH]; intros p left Hb; cbn [msg_txs]; destruct (Z.leb_spec left 0); cbn; try lia.
  destruct (parse p) as [u|] eqn:Ep; [|cbn; lia]. pose proof (parse_size p u Hb Ep).
  specialize (IH (drop (Z.to_nat (size u)) p) (left - size u) ltac:(now apply bytes_drop)). cbn [length]. lia.
Qed.

Lemma tx_numbers_length uid (l : list (list Z * usertxs)) :
  (length (q ← l; tx_number uid q.2) <= length l)%nat.
Proof.
  induction l as [|q l IH]; [reflexivity|]. change (mbind _ (q :: l)) with (tx_number uid q.2 ++ (q ← l; tx_number uid q.2)).
  rewrite length_app. unfold tx_number at 1. destruct (_ && _); cbn [length]; lia.
Qed.

Section Numbers.
Context `{Sha256}.
Context (s0 : server) (svid ousers : Z).

(** The account as the message sees it. *)
Definition seen (ch : gmap Z user_t) (uid : Z) : user_t :=
  default (get_user (bank_of s0.(usr_) svid) uid) (ch !! uid).

(** Whether [uid] may be opened: behind the accounts of the bank, or an old
    deleted account. *)
Definition vacant (uid : Z) : Prop :=
  ousers <= uid \/ reusable s0.(srvs_).(sv_now) (get_user (bank_of s0.(usr_) svid) uid) = true.

(** The account [uid] has spent the numbers [ns]. *)
Definition spent (uid : Z) (ns : list Z) (ch : gmap Z user_t) : Prop :=
  exists first, 0 <= first < 2 ^ 32 /\ ns = consecutive first (length ns) /\
    u_msid (seen ch uid) = u32 (first + Z.of_nat (length ns)) /\
    (ns <> [] -> is_Some (ch !! uid) /\ u_lpath (seen ch uid) = s0.(srvs_).(sv_now)) /\
    (first = u_msid (get_user (bank_of s0.(usr_) svid) uid) /\ (ns = [] -> seen ch uid = get_user (bank_of s0.(usr_) svid) uid) \/
     first = 1 /\ vacant uid).

Lemma spent_same uid ns ch ch' :
  seen ch' uid = seen ch uid -> (is_Some (ch !! uid) -> is_Some (ch' !! uid)) -> spent uid ns ch -> spent uid ns ch'.
Proof.
  intros E Hs (f & Hf & Hn & Hm & Hl & Ho). exists f. rewrite E. split_and!; try (assumption || lia).
  intros Hne. destruct (Hl Hne). auto.
Qed.

Lemma seen_some ch uid u : ch !! uid = Some u -> seen ch uid = u.
Proof. unfold seen. now intros ->. Qed.

Lemma load_account_seen s uid l a l' :
  disk_inv s0 svid s l.(l_changes) -> load_account (bank_of s.(usr_) svid) uid l = (a, l') ->
  a = seen l.(l_changes) uid /\ l_users l' = l_users l /\ l_changes l' = <[uid := a]> l.(l_changes).
Proof.
  intros D E. unfold load_account in E. unfold seen. destruct (l_changes l !! uid) as [x|] eqn:Ex; injection E as <- <-; cbn.
  - split_and!; [reflexivity..|]. now rewrite insert_id.
  - now rewrite (di_bank _ _ _ _ D _ Ex).
Qed.

(** A new record may stand where nothing has been spent in this block. *)
Lemma open_account_seen s l nuser mass npk tt s' l' uid ns :
  inv s0 svid ousers s l -> open_account s svid nuser mass npk tt l = Ok (s', l') ->
  spent uid ns l.(l_changes) -> spent uid ns l'.(l_changes).
Proof.
  intros (In & Id & Il) E Sp. unfold open_account in E. inv_ok. apply Z.leb_le in C.
  set (nu := init_user _ _ _ _ _ _) in *. cbn.
  assert (Hx : l_changes x = l_changes l \/ l_changes x = <[nuser := seen (l_changes l) nuser]> (l_changes l)).
  { destruct (nuser <? l_users l).
    - destruct (load_account _ _ _) as [a l1] eqn:El. inv_ok. right. cbn.
      apply (load_account_seen s nuser l a l1 Id) in El as (-> & _ & El). exact El.
    - inv_ok. now left. }
  assert (Hold : l_users l = nuser \/ reusable s0.(srvs_).(sv_now) (seen (l_changes l) nuser) = true).
  { destruct (Z.ltb_spec nuser (l_users l)); [|left; lia].
    destruct (load_account _ _ _) as [a l1] eqn:El. inv_ok. right.
    apply (load_account_seen s nuser l a l1 Id) in El as (<- & _ & _). now rewrite <- (ni_now _ _ _ _ In). }
  destruct (decide (uid = nuser)) as [->|Hne].
  2:{ eapply spent_same, Sp.
      - unfold seen. destruct Hx as [->| ->]; now rewrite ?lookup_insert_ne by congruence.
      - destruct Hx as [->| ->]; now rewrite ?lookup_insert_ne by congruence. }
  destruct Sp as (f & Hf & Hn & Hm & Hl & Ho).
  assert (Hns : ns = []).
  { destruct ns as [|k ns]; [reflexivity|]. destruct (Hl ltac:(discriminate)) as [Hs Hp]. destruct Hold as [Hu|Hr].
    - apply (li_dom _ _ _ _ Il) in Hs. lia.
    - unfold reusable in Hr. rewrite Hp in Hr. rewrite !negb_orb in Hr. apply andb_true_iff in Hr as [_ Hr].
      apply negb_true_iff, Z.leb_gt in Hr. assert (0 <= USER_MIN_AGE) by (vm_compute; discriminate). lia. }
  subst ns. exists 1. split_and!; [lia..|reflexivity| | |].
  - erewrite seen_some by apply lookup_insert_eq. reflexivity.
  - easy.
  - right. split; [reflexivity|]. destruct Hold as [Hu|Hr].
    + left. pose proof (li_users _ _ _ _ Il). lia.
    + destruct Ho as [[_ Hb]|[_ Hv]]; [|exact Hv]. right. now rewrite Hb in Hr.
Qed.

Lemma dividend_msid s u fee u' fee' div : dividend s u fee = (u', fee', div) -> u_msid u' = u_msid u.
Proof.
  unfold dividend. destruct (_ && _); [|now intros [= <- _ _]].
  cbv zeta. destruct (_ <? i64 _); now intros [= <- _ _].
Qed.

(** One transaction of a sender takes the number of the sender. *)
Lemma tx_spend_seen e tmax s m p left u l s' l' uid ns :
  m.(m_svid) = svid -> u.(abank) = svid -> 0 <= u.(buser) -> bytes p ->
  inv s0 svid ousers s l -> tx_spend e tmax s m p left u l = Ok (s', l') ->
  spent uid ns l.(l_changes) ->
  spent uid (ns ++ if u.(auser) =? uid then [u.(amsid)] else []) l'.(l_changes).
Proof.
  intros Hm Ha Hbu Hb (In & Id & Il) E Sp. unfold tx_spend in E. inv_ok. rewrite Hm in E.
  destruct (load_account (bank_of (usr_ s) svid) (auser u) l) as [a l1] eqn:El. inv_ok. apply Z.eqb_eq in C0.
  apply (load_account_seen s _ l a l1 Id) in El as (Ea & _ & Ec1).
  assert (Ech : l_changes r = l_changes l1) by (destruct tmax; inv_ok; [destruct (sig_fits _ _ _ _); [now inv_ok|discriminate]|reflexivity]).
  apply tx_charge_frame in E1 as (Fs & Fl & _ & _ & Em); try assumption; [|congruence].
  destruct (s_frame_fields _ _ Fs) as (_ & Fsv & _).
  destruct (dividend r0 x0 (l_lodiv_fee x)) as [[a' lodiv] div] eqn:Ed. inv_ok. apply dividend_msid in Ed.
  unfold settle. cbn. rewrite tx_log_frame. cbn. rewrite (lf_changes _ _ _ Fl), Ech, Ec1, insert_insert_eq, Fsv, (ni_now _ _ _ _ In).
  set (new := {| u_msid := _ |}).
  assert (Hmsid : u_msid new = u32 (amsid u + 1)) by (cbn; congruence).
  assert (Hlp : u_lpath new = s0.(srvs_).(sv_now)) by reflexivity. clearbody new.
  destruct (Z.eqb_spec (auser u) uid) as [<-|Hne].
  2:{ rewrite app_nil_r. eapply spent_same, Sp; [unfold seen|]; now rewrite lookup_insert_ne by congruence. }
  destruct Sp as (f & Hf & Hn & Hms & Hl & Ho). rewrite <- Ea, C0 in Hms. exists f.
  rewrite length_app. cbn [length]. rewrite Nat.add_1_r, consecutive_S, <- Hms, <- Hn.
  erewrite !seen_some by apply lookup_insert_eq. split_and!; try assumption; try lia; [reflexivity| | |].
  - rewrite Hmsid, Hms. unfold u32. rewrite Zplus_mod_idemp_l. f_equal. lia.
  - intros _. split; [apply lookup_insert_is_Some'; auto|exact Hlp].
  - destruct Ho as [[Ho _]|Ho]; [left|now right]. split; [exact Ho|]. intros En. now apply app_nil in En as [_ En].
Qed.

Hypothesis ousers_pos : 0 <= ousers.
Hypothesis svid_pos : 0 <= svid.
Hypothesis base_range : forall uid, 0 <= uid < ousers -> wrange (base s0 svid ousers uid).
Hypothesis base_csum : forall uid, 0 <= uid < ousers -> csum_ok svid (base s0 svid ousers uid) uid.
Hypothesis div_range : 0 <= s0.(srvs_).(sv_div) < 2 ^ 14.
Hypothesis svid_in : svid < n_nodes s0.(srvs_).

Lemma process_tx_seen e tmax s m p left u l s' l' uid ns :
  m.(m_svid) = svid -> bytes p -> parse p = Some u -> l_users l + 1 < 2 ^ 32 ->
  inv s0 svid ousers s l -> process_tx e tmax s m p left u l = Ok (s', l') ->
  spent uid ns l.(l_changes) -> spent uid (ns ++ tx_number uid u) l'.(l_changes).
Proof.
  intros Hm Hb Hp Hl I E Sp.
  pose proof (parse_bounds p u Hb Hp) as (_ & Hau & _ & Hbu & _).
  unfold process_tx in E. unfold tx_number, spends.
  set (l0 := l <| l_tmpos ::= _ |>) in *.
  assert (I0 : inv s0 svid ousers s l0) by (eapply inv_loc_frame; [exact I|lframe]).
  assert (Hl0 : l_users l0 = l_users l) by reflexivity.
  change (l_changes l) with (l_changes l0) in Sp. clearbody l0. clear I.
  destruct (ttype u =? TXSTYPE_NON); [inv_ok; cbn; now rewrite app_nil_r|].
  destruct (ttype u =? TXSTYPE_CON); [inv_ok; cbn; now rewrite app_nil_r|].
  inv_ok. apply Z.eqb_eq in C1. rewrite Hm in C1.
  destruct (ttype u =? TXSTYPE_UOK); cbn [orb negb andb].
  { inv_ok. rewrite Hm in E0. cbn. rewrite app_nil_r. eapply open_account_seen; eassumption. }
  inv_ok. destruct (_ && _).
  - inv_ok. rewrite Hm in E1. pose proof E1 as E2.
    apply (open_account_inv s0 svid ousers) in E1 as (I1 & Hu1 & _); try assumption; try lia; try (unfold USER_MIN_MASS; lia);
      try (apply (rdz_bound p _ 4 Hb)).
    eapply open_account_seen in E2; [|exact I0|exact Sp].
    eapply (tx_spend_seen _ _ _ _ _ _ _ _ _ _ uid ns Hm C1 (proj1 Hbu) Hb I1 E E2).
  - inv_ok. eapply (tx_spend_seen _ _ _ _ _ _ _ _ _ _ uid ns Hm C1 (proj1 Hbu) Hb I0 E Sp).
Qed.

Lemma process_loop_seen e tmax fuel s m p left l s' l' uid ns :
  m.(m_svid) = svid -> bytes p -> l_users l + Z.max 0 left < 2 ^ 32 ->
  inv s0 svid ousers s l -> process_loop e tmax fuel s m p left l = Ok (s', l') ->
  spent uid ns l.(l_changes) -> spent uid (ns ++ (q ← msg_txs fuel p left; tx_number uid q.2)) l'.(l_changes).
Proof.
  intros Hm. revert s p left l ns; induction fuel as [|fuel IH]; intros s p left l ns Hb Hl I E Sp;
    cbn [process_loop msg_txs] in *; destruct (Z.leb_spec left 0); try discriminate; inv_ok; try (cbn; now rewrite app_nil_r).
  destruct (parse p) as [u|] eqn:Ep; [|discriminate]. inv_ok.
  pose proof (parse_size p u Hb Ep) as Hs. pose proof E0 as E1.
  apply (process_tx_inv s0 svid ousers) in E0 as [I1 Hu1]; try assumption; try lia.
  eapply process_tx_seen in E1; try eassumption; try lia.
  rewrite bind_cons, app_assoc. refine (IH _ _ _ _ _ (bytes_drop _ _ Hb) _ I1 E E1). lia.
Qed.

(** The pending deposits do not touch the numbers. *)
Lemma apply_dsu_msid s l p uid :
  disk_inv s0 svid s l.(l_changes) ->
  let l' := apply_dsu s svid l p in
  disk_inv s0 svid s l'.(l_changes) /\ u_msid (seen l'.(l_changes) uid) = u_msid (seen l.(l_changes) uid).
Proof.
  destruct p as [k d]. intros D. unfold apply_dsu. destruct (l_changes l !! k) as [x|] eqn:Ek; cbn.
  - split; [destruct D as [Db Do Df]; split; [|assumption..]; intros i Hi; apply lookup_insert_None in Hi as [Hi _]; auto|].
    unfold seen. destruct (decide (uid = k)) as [->|]; [|now rewrite lookup_insert_ne by congruence].
    now rewrite lookup_insert_eq, Ek.
  - destruct (dividend _ _ _) as [[v lodiv] div] eqn:Ed. cbn. apply dividend_msid in Ed.
    split; [destruct D as [Db Do Df]; split; [|assumption..]; intros i Hi; apply lookup_insert_None in Hi as [Hi _]; auto|].
    unfold seen. destruct (decide (uid = k)) as [->|]; [|now rewrite lookup_insert_ne by congruence].
    rewrite lookup_insert_eq, Ek. transitivity (u_msid v); [reflexivity|]. now rewrite Ed, (di_bank _ _ _ _ D _ Ek).
Qed.

Lemma apply_dsus_msid s ds l uid :
  disk_inv s0 svid s l.(l_changes) ->
  let l' := foldl (apply_dsu s svid) l ds in
  disk_inv s0 svid s l'.(l_changes) /\ u_msid (seen l'.(l_changes) uid) = u_msid (seen l.(l_changes) uid).
Proof.
  revert l; induction ds as [|p ds IH]; intros l D; [now split|]. cbn [foldl].
  destruct (apply_dsu_msid s l p uid D) as [D1 E1]. destruct (IH _ D1) as [D2 E2]. split; [exact D2|]. now rewrite E2.
Qed.

Lemma commit_message_msid e cs s m l s' uid :
  m.(m_svid) = svid -> 0 <= svid -> disk_inv s0 svid s l.(l_changes) -> commit_message e cs s m ousers l = Ok s' ->
  u_msid (get_user (bank_of s'.(usr_) svid) uid) = u_msid (seen l.(l_changes) uid).
Proof.
  intros Hm Hs D E. unfold commit_message in E. cbv zeta in E. rewrite Hm in E. inv_ok.
  destruct (apply_dsus_msid s (elems (l_dsu l)) l uid D) as [D1 <-]. set (l1 := foldl _ _ _) in *.
  destruct (commit_accounts s m ousers l1) as [s1|] eqn:Ec; [|discriminate]. inv_ok.
  assert (Eu : usr_ r = usr_ s1).
  { unfold commit_block_txs in E0. cbv zeta in E0. apply rbind_Ok in E0 as (s2 & Eb & E0). apply Ok_inj in E0. subst r.
    apply commit_bky_pk, po_usr in Eb. destruct (e_block_only e); exact Eb. }
  pose proof (commit_accounts_disk s m ousers l1 s1 svid uid Ec) as Hd. rewrite decide_True in Hd by congruence.
  cbn. rewrite Eu, Hd. unfold seen. destruct (l_changes l1 !! uid) eqn:El; [reflexivity|]. cbn.
  now rewrite (di_bank _ _ _ _ D1 _ El).
Qed.
End Numbers.

Section Message.
Context `{Sha256}.

(** C5: within a message the transactions of an account execute in the order
    of their numbers and no number executes twice, whatever other transactions
    stand between them: in an accepted message the numbers that the spending
    transactions of an account carry are consecutive (modulo 2^32) and pairwise
    different.  They begin with the number of the account on disk, or with 1 if
    the message first opens the account, which is possible only behind the
    accounts of the bank or in the place of an old deleted one; and the account
    file then holds the number that follows, with which the next message has
    to begin. *)
Theorem numbers_in_order e s m s' uid :
  let svid := m.(m_svid) in
  let old := get_user (bank_of s.(usr_) svid) uid in
  let ns := numbers m uid in
  msg_pre s m -> 0 <= u_msid old < 2 ^ 32 -> process_message e s m = Ok s' ->
  NoDup ns /\
  exists first, ns = consecutive first (length ns) /\
    u_msid (get_user (bank_of s'.(usr_) svid) uid) = u32 (first + Z.of_nat (length ns)) /\
    (first = u_msid old \/
     first = 1 /\ (n_users (cur_node s svid) <= uid \/ reusable s.(srvs_).(sv_now) old = true)).
Proof.
  intros svid old ns P Ho E.
  destruct (process_message_split e s m s' P E) as (tmax & cs & s1 & l1 & El & I & Ec).
  destruct P as [Hin Hb Hlen Hd Hu W]. set (ou := n_users (cur_node s (m_svid m))) in *.
  pose proof (bw_users _ _ W) as Hu0. change (0 <= ou) in Hu0. fold svid in Hin, I, W.
  assert (Hbase : forall k, 0 <= k < ou -> base s svid ou k = get_user (bank_of (usr_ s) svid) k).
  { intros k Hk. unfold base. now rewrite (proj2 (Z.ltb_lt _ _)) by lia. }
  assert (Hr : forall k, 0 <= k < ou -> wrange (base s svid ou k)) by (intros k Hk; rewrite Hbase by assumption; now apply (bw_range _ _ W)).
  assert (Hc : forall k, 0 <= k < ou -> csum_ok svid (base s svid ou k) k) by (intros k Hk; rewrite Hbase by assumption; now apply (bw_csum _ _ W)).
  assert (Sp : spent s svid ou uid [] ∅).
  { exists (u_msid old). unfold seen. rewrite lookup_empty. cbn. fold old. rewrite Z.add_0_r, u32_small by lia.
    split_and!; try lia; [reflexivity..|easy|left; auto]. }
  assert (Hsp : spent s svid ou uid ns (l_changes l1)).
  { refine (process_loop_seen s svid ou _ _ _ _ _ e tmax _ s m _ _ _ s1 l1 uid [] eq_refl _ _ _ El Sp); try assumption; try lia.
    - now apply bytes_drop.
    - cbn. unfold data_offset. lia.
    - apply inv_init; auto. }
  assert (Hn : Z.of_nat (length ns) <= 2 ^ 32).
  { pose proof (tx_numbers_length uid (msg_txs (Z.to_nat m.(m_len)) (drop data_offset m.(m_data)) (m.(m_len) - Z.of_nat data_offset))) as Hl.
    fold (numbers m uid) in Hl. fold ns in Hl.
    pose proof (msg_txs_length (Z.to_nat m.(m_len)) (drop data_offset m.(m_data)) (m.(m_len) - Z.of_nat data_offset)
                  ltac:(now apply bytes_drop)) as Ht.
    apply Nat2Z.inj_le in Hl. etransitivity; [exact Hl|]. etransitivity; [exact Ht|]. unfold data_offset. lia. }
  destruct Hsp as (first & Hf & Hns & Hm & _ & Hfirst). split; [rewrite Hns; now apply consecutive_nodup|].
  exists first. split; [exact Hns|]. split.
  - rewrite (commit_message_msid s svid ou e cs s1 m l1 s' uid eq_refl ltac:(lia) ltac:(apply I) Ec). exact Hm.
  - destruct Hfirst as [[Hfo _]|Hv]; [now left|now right].
Qed.
End Message.

(** Account 1 of the demonstration sends the numbers 1, 2, 3. *)
Lemma numbers_in_order_witness :
  numbers demo_m 1 = [1; 2; 3] /\ NoDup (numbers demo_m 1) /\
  exists s', process_message (H := toy_sha) demo_env demo_s demo_m = Ok s' /\
    exists first, numbers demo_m 1 = consecutive first 3 /\
      u_msid (get_user (bank_of s'.(usr_) 1) 1) = u32 (first + 3).
Proof.
  assert (En : numbers demo_m 1 = [1; 2; 3]) by (vm_compute; reflexivity). split; [exact En|].
  runs (process_message (H := toy_sha) demo_env demo_s demo_m) s' E.
  destruct (numbers_in_order (H := toy_sha) demo_env demo_s demo_m s' 1) as (Hd & first & Hc & Hm & _).
  - split.
    + vm_compute. split; congruence.
    + apply bytes_check. vm_compute. reflexivity.
    + vm_compute. congruence.
    + vm_compute. split; congruence.
    + vm_compute. reflexivity.
    + apply bank_wfb_ok. vm_compute. reflexivity.
  - vm_compute. split; congruence.
  - exact E.
  - split; [exact Hd|]. exists s'. split; [reflexivity|]. exists first. rewrite En in Hm, Hc. split; [now rewrite En|exact Hm].
Defined.
