(* ===== verification/Hlog.v ===== *)
(** The history log of a block, [common/helper/hlog.h] and [hlog.cpp]: the
    records the end of a block appends ([save_*]), the reader ([printJson] and
    [read_*], whose output is here the list of records) and the hash of the
    log that becomes the hash of node 0. *)

From stdpp Require Import base gmap list.
From Stdlib Require Import ZArith Lia.
From S2P Require Import Prelude HashTree.

Definition HLOG_USO := 1.
Definition HLOG_UOK := 2.
Definition HLOG_USR := 3.
Definition HLOG_BKY := 4.
Definition HLOG_SBS := 5.
Definition HLOG_UBS := 6.
Definition HLOG_BNK := 7.
Definition HLOG_GET := 8.

(** The structures [blg_*_t]. *)
Inductive blg :=
  | Uso (auser buser atxid btxid : Z)
  | Uok (abank auser buser btxid : Z)
  | Usr (auser bbank atxid : Z)
  | Bky (bbank atxid : Z)
  | Sbs (bbank status atxid : Z)
  | Ubs (bbank status atxid : Z)
  | Bnk (auser bbank atxid : Z)
  | Get (auser bbank buser atxid : Z).

(** * Writing *)

Definition save_uso (auser buser atxid btxid : Z) : list Z :=
  [HLOG_USO] ++ le_bytes 4 auser ++ le_bytes 4 buser ++ le_bytes 8 atxid ++ le_bytes 8 btxid.
Definition save_uok (abank auser buser btxid : Z) : list Z :=
  [HLOG_UOK] ++ le_bytes 2 abank ++ le_bytes 4 auser ++ le_bytes 4 buser ++ le_bytes 8 btxid.
Definition save_usr (auser bbank atxid : Z) : list Z :=
  [HLOG_USR] ++ le_bytes 4 auser ++ le_bytes 2 bbank ++ le_bytes 8 atxid.
Definition save_bky (bbank atxid : Z) : list Z :=
  [HLOG_BKY] ++ le_bytes 2 bbank ++ le_bytes 8 atxid.
Definition save_sbs (bbank status atxid : Z) : list Z :=
  [HLOG_SBS] ++ le_bytes 2 bbank ++ le_bytes 4 status ++ le_bytes 8 atxid.
Definition save_ubs (bbank status atxid : Z) : list Z :=
  [HLOG_UBS] ++ le_bytes 2 bbank ++ le_bytes 4 status ++ le_bytes 8 atxid.
Definition save_bnk (auser bbank atxid : Z) : list Z :=
  [HLOG_BNK] ++ le_bytes 4 auser ++ le_bytes 2 bbank ++ le_bytes 8 atxid.
(** [save_get] stores the type of a [BNK] record. *)
Definition save_get (auser bbank buser atxid : Z) : list Z :=
  [HLOG_BNK] ++ le_bytes 4 auser ++ le_bytes 2 bbank ++ le_bytes 4 buser ++ le_bytes 8 atxid.

Definition save (r : blg) : list Z :=
  match r with
  | Uso a b x y => save_uso a b x y
  | Uok k a b y => save_uok k a b y
  | Usr a k x => save_usr a k x
  | Bky k x => save_bky k x
  | Sbs k s x => save_sbs k s x
  | Ubs k s x => save_ubs k s x
  | Bnk a k x => save_bnk a k x
  | Get a k b x => save_get a k b x
  end.

(** * Reading *)

Definition read_uso (b : list Z) : blg := Uso (rdz b 1 4) (rdz b 5 4) (rdz b 9 8) (rdz b 17 8).
Definition read_uok (b : list Z) : blg := Uok (rdz b 1 2) (rdz b 3 4) (rdz b 7 4) (rdz b 11 8).
Definition read_usr (b : list Z) : blg := Usr (rdz b 1 4) (rdz b 5 2) (rdz b 7 8).
Definition read_bky (b : list Z) : blg := Bky (rdz b 1 2) (rdz b 3 8).
Definition read_sbs (b : list Z) : blg := Sbs (rdz b 1 2) (rdz b 3 4) (rdz b 7 8).
Definition read_ubs (b : list Z) : blg := Ubs (rdz b 1 2) (rdz b 3 4) (rdz b 7 8).
Definition read_bnk (b : list Z) : blg := Bnk (rdz b 1 4) (rdz b 5 2) (rdz b 7 8).
Definition read_get (b : list Z) : blg := Get (rdz b 1 4) (rdz b 5 2) (rdz b 7 4) (rdz b 11 8).

(** The record at the start of the buffer and its size. *)
Definition read_one (b : list Z) : option (blg * nat) :=
  let t := rdz b 0 1 in
  if t =? HLOG_USO then Some (read_uso b, 25%nat)
  else if t =? HLOG_UOK then Some (read_uok b, 19%nat)
  else if t =? HLOG_USR then Some (read_usr b, 15%nat)
  else if t =? HLOG_BKY then Some (read_bky b, 11%nat)
  else if t =? HLOG_SBS then Some (read_sbs b, 15%nat)
  else if t =? HLOG_UBS then Some (read_ubs b, 15%nat)
  else if t =? HLOG_BNK then Some (read_bnk b, 15%nat)
  else if t =? HLOG_GET then Some (read_get b, 19%nat)
  else None.

(** The loop of [printJson]; [None] is its error result. *)
Fixpoint printJson (fuel : nat) (b : list Z) : option (list blg) :=
  match b, fuel with
  | [], _ => Some []
  | _, O => None
  | _, S fuel => let* (r, n) := read_one b in let* rs := printJson fuel (drop n b) in Some (r :: rs)
  end.

Definition read_log (b : list Z) : option (list blg) := printJson (length b) b.

(** [finish]: the hash of node 0. *)
Definition finish `{Sha256} (b : list Z) : Z := if (length b =? 0)%nat then 0 else le_val (SHA256 b).

(** * Round trip *)

(** Fields in the range of their types. *)
Definition blg_wf (r : blg) : Prop :=
  let u16 x := 0 <= x < 2 ^ 16 in let u32 x := 0 <= x < 2 ^ 32 in let u64 x := 0 <= x < 2 ^ 64 in
  match r with
  | Uso a b x y => u32 a /\ u32 b /\ u64 x /\ u64 y
  | Uok k a b y => u16 k /\ u32 a /\ u32 b /\ u64 y
  | Usr a k x | Bnk a k x => u32 a /\ u16 k /\ u64 x
  | Bky k x => u16 k /\ u64 x
  | Sbs k s x | Ubs k s x => u16 k /\ u32 s /\ u64 x
  | Get a k b x => u32 a /\ u16 k /\ u32 b /\ u64 x
  end.

Definition is_get (r : blg) : bool := match r with Get _ _ _ _ => true | _ => false end.

Lemma read_one_save r rest :
  blg_wf r -> is_get r = false -> read_one (save r ++ rest) = Some (r, length (save r)).
Proof.
  intros Hw Hg. destruct r; try discriminate; cbn [blg_wf] in Hw; destruct_and? Hw;
    unfold save, save_uso, save_uok, save_usr, save_bky, save_sbs, save_ubs, save_bnk;
    rewrite <- ?(assoc_L (++)); cbn [app]; unfold read_one; rewrite rdz_type; cbv zeta;
    [ change (HLOG_USO =? HLOG_USO) with true | change (HLOG_UOK =? HLOG_UOK) with true
    | change (HLOG_USR =? HLOG_USR) with true | change (HLOG_BKY =? HLOG_BKY) with true
    | change (HLOG_SBS =? HLOG_SBS) with true | change (HLOG_UBS =? HLOG_UBS) with true
    | change (HLOG_BNK =? HLOG_BNK) with true ];
    cbn [HLOG_USO HLOG_UOK HLOG_USR HLOG_BKY HLOG_SBS HLOG_UBS HLOG_BNK Z.eqb Pos.eqb];
    unfold read_uso, read_uok, read_usr, read_bky, read_sbs, read_ubs, read_bnk; read_fields; reflexivity.
Qed.

Lemma save_cons r : exists t l, save r = t :: l.
Proof. destruct r; do 2 eexists; reflexivity. Qed.

Lemma printJson_saved rs fuel :
  Forall blg_wf rs -> forallb (fun r => negb (is_get r)) rs = true -> (length rs <= fuel)%nat ->
  printJson fuel (concat (map save rs)) = Some rs.
Proof.
  intros Hw. revert fuel; induction Hw as [|r rs Hr _ IH]; intros fuel Hg Hf; [now destruct fuel|].
  destruct fuel as [|fuel]; [cbn in Hf; lia|]. cbn [forallb] in Hg. apply andb_true_iff in Hg as [Hg1 Hg2].
  apply negb_true_iff in Hg1. cbn [map concat].
  pose proof (read_one_save r (concat (map save rs)) Hr Hg1) as Hread.
  destruct (save_cons r) as (t & l & Es). cbn [printJson]. rewrite Es in *. cbn [app] in *. rewrite Hread.
  change (t :: l ++ concat (map save rs)) with ((t :: l) ++ concat (map save rs)).
  rewrite drop_app_length, IH; [reflexivity|assumption|cbn in Hf; lia].
Qed.

Lemma length_saved rs : (length rs <= length (concat (map save rs)))%nat.
Proof.
  induction rs as [|r rs IH]; [reflexivity|]. cbn [map concat length]. rewrite length_app.
  destruct (save_cons r) as (t & l & ->). cbn [length]. lia.
Qed.

(** The history log is read back as it was written: for records whose
    fields are in the range of their types and that are not [GET] records, the
    reader returns exactly the records saved, in order. *)
Theorem hlog_roundtrip rs :
  Forall blg_wf rs -> forallb (fun r => negb (is_get r)) rs = true ->
  read_log (concat (map save rs)) = Some rs.
Proof. intros Hw Hg. apply printJson_saved; [assumption..|apply length_saved]. Qed.

Lemma hlog_roundtrip_witness :
  read_log (concat (map save [Uso 1 2 3 4; Bnk 5 6 7; Sbs 1 0xFF000000 9])) =
  Some [Uso 1 2 3 4; Bnk 5 6 7; Sbs 1 0xFF000000 9].
Proof.
  apply hlog_roundtrip; [|reflexivity].
  repeat apply List.Forall_cons; try apply List.Forall_nil; cbn; lia.
Defined.

(** [save_get] stores a [GET] record of 19 bytes with the type of a [BNK]
    record, which is read as 15 bytes: a log with one [GET] record, and in
    general every record behind it, is not read back. *)
Theorem hlog_get_not_read_back a k b x :
  0 <= a < 2 ^ 32 -> 0 <= k < 2 ^ 16 -> 0 <= b < 2 ^ 32 -> 0 <= x < 2 ^ 64 ->
  exists x', read_one (save (Get a k b x)) = Some (Bnk a k x', 15%nat) /\ length (save (Get a k b x)) = 19%nat /\
             forall rs, read_log (save (Get a k b x)) <> Some (Get a k b x :: rs).
Proof.
  intros Ha Hk Hb Hx.
  assert (Hr : exists x', read_one (save (Get a k b x)) = Some (Bnk a k x', 15%nat)).
  { unfold save, save_get. cbn [app]. unfold read_one. rewrite rdz_type. cbv zeta.
    cbn [HLOG_USO HLOG_UOK HLOG_USR HLOG_BKY HLOG_SBS HLOG_UBS HLOG_BNK Z.eqb Pos.eqb].
    eexists. unfold read_bnk. read_fields. reflexivity. }
  destruct Hr as [x' Hr]. exists x'. split; [exact Hr|]. split; [reflexivity|].
  intros rs E. unfold read_log in E. change (length (save (Get a k b x))) with (S 18) in E. revert E.
  generalize 18%nat. intros n E.
  destruct (save_cons (Get a k b x)) as (t & l & Es). rewrite Es in *. cbn [printJson] in E. rewrite Hr in E.
  destruct (printJson n _); now simplify_eq.
Qed.

Lemma hlog_get_not_read_back_witness :
  exists x', read_one (save (Get 1 2 3 4)) = Some (Bnk 1 2 x', 15%nat).
Proof. destruct (hlog_get_not_read_back 1 2 3 4) as (x' & Hr & _); [lia..|]. now exists x'. Defined.
