(* ===== verification/Block.v ===== *)
(** The end of a block in [escd/server.cpp]: [commit_block] (remote accounts,
    node status, new banks, withdrawals), [commit_dividends],
    [commit_deposit], [commit_bankfee] and [finish_block]. *)

From stdpp Require Import base gmap list sorting.
From Stdlib Require Import ZArith Lia.
From S2P Require Import Prelude Params HashTree Usertxs Accounts Servers Ledger Process Hlog.

(** The server with the locals of [commit_block]: log, its position counter,
    the history log and the banks to check. *)
Record bstate := {
  b_s : server;
  b_log : gmap Z log_t;
  b_lpos : Z;
  b_hlog : list Z;
  b_update : gset Z
}.

(** [log[user<<32 | lpos++] = entry]. *)
Definition add_log (b : bstate) (user : Z) (entry : log_t) : bstate :=
  b <| b_log ::= <[2 ^ 32 * user + b.(b_lpos) := entry]> |> <| b_lpos ::= fun n => u32 (n + 1) |>.

Definition add_hlog (b : bstate) (r : blg) : bstate := b <| b_hlog ::= fun l => l ++ save r |>.

(** A deposit that is not counted for the transfer fee of its bank. *)
Definition quiet_bank (bank : Z) : Z := Z.lor bank 0x10000.
Definition add_deposit (s : server) (bank user mass : Z) : server :=
  s <| deposit ::= add_at (dep_key (quiet_bank bank) user) mass |>.

Definition bank_fee_add (s : server) (i d : Z) : server := s <| bank_fee ::= fun f => add_fee f i d |>.

(** The fields all entries of the block log share. *)
Definition block_log (e : env) (s : server) (type node user umid weight : Z) (info : list Z) : log_t :=
  {| lg_time := e.(e_time); lg_type := type; lg_node := node; lg_nmid := 0; lg_mpos := s.(srvs_).(sv_now);
     lg_user := user; lg_umid := umid; lg_weight := weight; lg_info := info |}.

Definition incoming (type : Z) : Z := Z.lor type 0x8000.

(** * Remote accounts *)

(** Waiting requests, sorted by [memcmp] of the packed [uin_t]. *)
Record uin_t := { ui_bbank : Z; ui_abank : Z; ui_auser : Z; ui_pkey : list Z }.

Definition uin_bytes (k : uin_t) : list Z :=
  le_bytes 2 k.(ui_bbank) ++ le_bytes 2 k.(ui_abank) ++ le_bytes 4 k.(ui_auser) ++ k.(ui_pkey).

Fixpoint memcmp (a b : list Z) : comparison :=
  match a, b with
  | [], [] => Eq
  | [], _ => Lt
  | _, [] => Gt
  | x :: a, y :: b => match Z.compare x y with Eq => memcmp a b | c => c end
  end.

Abbreviation uin_map := (list (uin_t * list Z)).

(** [uin[k].push_back(tx)]. *)
Fixpoint uin_push (k : uin_t) (tx : Z) (m : uin_map) : uin_map :=
  match m with
  | [] => [(k, [tx])]
  | (k', q) :: m' =>
      match memcmp (uin_bytes k) (uin_bytes k') with
      | Eq => (k', q ++ [tx]) :: m'
      | Lt => (k, [tx]) :: m
      | Gt => (k', q) :: uin_push k tx m'
      end
  end.

(** The front of the queue of [k], removed; [None] when there is none. *)
Fixpoint uin_pop (k : uin_t) (m : uin_map) : option (Z * uin_map) :=
  match m with
  | [] => None
  | (k', q) :: m' =>
      match memcmp (uin_bytes k) (uin_bytes k') with
      | Eq => match q with tx :: q => Some (tx, (k', q) :: m') | [] => None end
      | _ => let* (tx, m') := uin_pop k m' in Some (tx, (k', q) :: m')
      end
  end.

(** The requests of the block. *)
Definition collect_usr (e : env) (last : servers) (txs : list (Z * usr_t)) : uin_map :=
  foldl (fun m '(ppi, tx) =>
    uin_push {| ui_bbank := tx.(us_bbank); ui_abank := ppi_abank ppi; ui_auser := tx.(us_auser);
                ui_pkey := tx.(us_pkey) |} (ppi_txid e last ppi) m) [] txs.

(** One acceptance: a matching request pays for the new account. *)
Definition match_uok (e : env) (b : bstate) (uin : uin_map) (ppi : Z) (tx : uok_t) : bstate * uin_map :=
  let s := b.(b_s) in
  let abank := ppi_abank ppi in
  let k := {| ui_bbank := abank; ui_abank := tx.(uo_bbank); ui_auser := tx.(uo_buser); ui_pkey := tx.(uo_pkey) |} in
  let mine := tx.(uo_bbank) =? e.(e_svid) in
  let answer umid := block_log e s (incoming TXSTYPE_UOK) abank tx.(uo_auser) umid 0 tx.(uo_pkey) in
  match uin_pop k uin with
  | Some (usr_txid, uin) =>
      let s := bank_fee_add (add_deposit s abank tx.(uo_auser) USER_MIN_MASS) abank (BANK_PROFIT TXS_RUS_FEE) in
      let s := if abank =? e.(e_svid) then s <| myusr_fee ::= fun f => i64 (f + BANK_PROFIT TXS_RUS_FEE) |> else s in
      let b := b <| b_s := s |> in
      let b := if abank =? e.(e_svid) then
                 add_log b tx.(uo_auser)
                   (block_log e s (incoming TXSTYPE_USR) tx.(uo_bbank) tx.(uo_buser) 0 USER_MIN_MASS tx.(uo_pkey))
               else b in
      let b := if mine then add_log b tx.(uo_buser) (answer 1) else b in
      (add_hlog b (Uso tx.(uo_buser) tx.(uo_auser) usr_txid (ppi_txid e s.(last_srvs_) ppi)), uin)
  | None =>
      let b := if mine then add_log b tx.(uo_buser) (answer 0) else b in
      (add_hlog b (Uok tx.(uo_bbank) tx.(uo_buser) tx.(uo_auser) (ppi_txid e s.(last_srvs_) ppi)), uin)
  end.

(** A request without acceptance gets its funds back. *)
Definition refund_usr (e : env) (k : uin_t) (b : bstate) (usr_txid : Z) : bstate :=
  let s := add_deposit b.(b_s) k.(ui_abank) k.(ui_auser) USER_MIN_MASS in
  let b := b <| b_s := s |> in
  let b := if k.(ui_abank) =? e.(e_svid) then
             add_log b k.(ui_auser) (block_log e s (incoming TXSTYPE_UOK) k.(ui_bbank) 0 0 USER_MIN_MASS k.(ui_pkey))
           else b in
  add_hlog b (Usr k.(ui_auser) k.(ui_bbank) usr_txid).

Definition commit_remote_accounts (e : env) (b : bstate) : bstate :=
  let uin := collect_usr e b.(b_s).(last_srvs_) (elems b.(b_s).(blk_usr)) in
  let b := b <| b_s ::= fun s => s <| blk_usr := ∅ |> |> in
  let '(b, uin) := foldl (fun '(b, uin) '(ppi, tx) => match_uok e b uin ppi tx) (b, uin) (elems b.(b_s).(blk_uok)) in
  let b := b <| b_s ::= fun s => s <| blk_uok := ∅ |> |> in
  foldl (fun b '(k, q) => foldl (refund_usr e k) b q) b uin.

(** * Status of nodes *)

(** [bitcount]: the bits with more than [min] votes; counts are bytes. *)
Definition votes_of (i : Z) (votes : list Z) : Z := u8 (zsum (map (fun v => Z.b2z (Z.testbit v i)) votes)).

Definition bitcount (votes : list Z) (min : Z) : Z :=
  if Z.of_nat (length votes) <=? min then 0
  else foldl (fun res i => if min <? votes_of i votes then Z.lor res (Z.shiftl 1 i) else res) 0 (seqZ 0 8).

Definition set_status (s : server) (i : Z) (f : Z -> Z) : server :=
  put_cur_node s i ((cur_node s i) <| n_status ::= f |>).

(** The DBL bit of nodes with a new key. *)
Definition reset_dbl (e : env) (b : bstate) (ppi node : Z) : bstate :=
  let s := b.(b_s) in
  let b := if has_bits (cur_node s node).(n_status) SERVER_DBL then add_hlog b (Bky node (ppi_txid e s.(last_srvs_) ppi)) else b in
  b <| b_s := set_status s node (fun st => clear_bits st SERVER_DBL) |>.

(** Setting ([set]) or clearing the bits [m] of a status. *)
Definition change_bits (set : bool) (m st : Z) : Z := if set then Z.lor st m else clear_bits st m.

(** The loop state: server, [labank], [lbbank] and the votes for [lbbank]. *)
Record votes := { v_b : bstate; v_labank : Z; v_lbbank : Z; v_bits : list Z }.

(** The result of the votes on [lbbank]. *)
Definition close_votes (set : bool) (v : votes) : server :=
  let s := v.(v_b).(b_s) in
  set_status s v.(v_lbbank)
    (change_bits set (Z.shiftl (bitcount v.(v_bits) (u8 (s.(srvs_).(sv_vtot) / 2))) 24)).

(** A node changes its own low bits, a VIP also the next ones of any node. *)
Definition vote_server (set : bool) (s : server) (abank bbank status : Z) : server :=
  let s := if abank =? bbank then set_status s bbank (change_bits set (Z.land status 0xFFF8)) else s in
  if has_bits (last_node s abank).(n_status) SERVER_VIP
  then set_status s bbank (change_bits set (Z.land status 0xFF0000)) else s.

(** The votes of VIPs on the top byte, one entry per VIP. *)
Definition vote_bits (v : votes) (vip : bool) (abank status : Z) : list Z :=
  let x := u8 (Z.shiftr status 24) in
  if vip then
    if abank =? v.(v_labank)
    then take (length v.(v_bits) - 1) v.(v_bits) ++ [Z.lor (default 0 (last v.(v_bits))) x]
    else v.(v_bits) ++ [x]
  else v.(v_bits).

Definition vote (e : env) (set : bool) (v : votes) (ppi status : Z) : votes :=
  let abank := ppi_abank ppi in let bbank := ppi_bbank ppi in
  let last := v.(v_b).(b_s).(last_srvs_) in
  let b := add_hlog v.(v_b) (if set then Sbs bbank status (ppi_txid e last ppi) else Ubs bbank status (ppi_txid e last ppi)) in
  let v := v <| v_b := b |> in
  let v := if v.(v_lbbank) =? bbank then v
           else v <| v_b := b <| b_s := close_votes set v |> |> <| v_labank := 0 |> <| v_bits := [] |> in
  let vip := has_bits (last_node v.(v_b).(b_s) abank).(n_status) SERVER_VIP in
  {| v_b := b <| b_s := vote_server set v.(v_b).(b_s) abank bbank status |>; v_labank := abank; v_lbbank := bbank;
     v_bits := vote_bits v vip abank status |}.

(** A loop over the requests, the last first; votes on node 0 are not closed
    and stay for the next loop. *)
Definition vote_loop (e : env) (set : bool) (v : votes) (txs : list (Z * Z)) : votes :=
  let v := foldl (fun v '(ppi, status) => vote e set v ppi status) v (rev txs) in
  if v.(v_lbbank) =? 0 then v
  else v <| v_b ::= fun b => b <| b_s := close_votes set v |> |> <| v_lbbank := 0 |> <| v_bits := [] |>.

Definition commit_status (e : env) (b : bstate) : bstate :=
  let b := foldl (fun b '(ppi, node) => reset_dbl e b ppi node) b (elems b.(b_s).(blk_bky)) in
  let b := b <| b_s ::= fun s => s <| blk_bky := ∅ |> |> in
  let v := vote_loop e true {| v_b := b; v_labank := 0; v_lbbank := 0; v_bits := [] |} (elems b.(b_s).(blk_sbs)) in
  let v := vote_loop e false v (elems b.(b_s).(blk_ubs)) in
  v.(v_b) <| b_s ::= fun s => s <| blk_sbs := ∅ |> <| blk_ubs := ∅ |> |>.

(** * New banks *)

Section Block.
Context `{Sha256}.

(** [add_node]: the new bank with its first account. *)
Definition add_node (s : server) (ou : user_t) : server * Z :=
  let peer := u16 (n_nodes s.(srvs_)) in
  let net := (cur_node s 0).(n_msha) in
  let now := s.(srvs_).(sv_now) in
  let nn := zero_node <| n_mtim := now |> <| n_pk := ou.(u_pkey) |> in
  let nn := nn <| n_msha := init_node_hash net nn.(n_hash) nn.(n_pk) |> in
  let s := s <| srvs_ ::= fun v => v <| sv_nodes ::= fun ns => ns ++ [nn] |> |> in
  let nu := init_user net peer 0 (BANK_MIN_UMASS + BANK_MIN_TMASS) ou.(u_pkey) now in
  let s := put_user s nu peer 0 in
  (put_cur_node s peer ((cur_node s peer) <| n_weight := nu.(u_weight) |> <| n_hash := nu.(u_csum) |>), peer).

(** [put_node]: a dead bank is taken over; the deposit is added to its first
    account but not to the weight of the node. *)
Definition put_node (s : server) (ou : user_t) (peer : Z) : option server :=
  let nu := get_user (bank_of s.(usr_) peer) 0 in
  let s := put_cur_node s peer ((cur_node s peer) <| n_hash ::= fun h => Z.lxor h nu.(u_csum) |>) in
  let* s := server_save_undo s peer {[0 := nu]} 0 in
  let nu' := init_user (cur_node s 0).(n_msha) peer 0 (i64 (nu.(u_weight) + BANK_MIN_UMASS + BANK_MIN_TMASS))
               ou.(u_pkey) s.(srvs_).(sv_now) in
  let s := put_user s nu' peer 0 in
  Some (put_cur_node s peer ((cur_node s peer) <| n_hash ::= fun h => Z.lxor h nu'.(u_csum) |>
                                               <| n_mtim := s.(srvs_).(sv_now) |>)).

(** The banks open for a takeover, the lightest first; [peer] starts at 0
    while the loop starts at bank 1. *)
Definition dead_bank (now : Z) (n : node) : bool :=
  (n.(n_mtim) + BANK_MIN_MTIME <? now) && (n.(n_weight) <=? BANK_MIN_TMASS).

Definition new_bnk (s : server) : list Z :=
  merge_sort Z.le
    (map (fun p : Z * node => Z.lor (u64 (Z.shiftl p.2.(n_weight) 16)) p.1)
       (filter (fun p : Z * node => dead_bank s.(srvs_).(sv_now) p.2 = true)
          (zip (seqZ 0 (n_nodes s.(srvs_) - 1)) (drop 1 s.(srvs_).(sv_nodes))))).

(** [bank_fee.resize(n)]. *)
Definition resize_fee (s : server) : server := s <| bank_fee ::= resize (n_nodes s.(srvs_)) |>.

(** One request for a bank. *)
Definition create_bank (e : env) (b : bstate) (free : list Z) (ppi auser : Z) : option (bstate * list Z) :=
  let s := b.(b_s) in
  let abank := ppi_abank ppi in
  let txid := ppi_txid e s.(last_srvs_) ppi in
  let* u := read_user (bank_of s.(usr_) abank) auser in
  let mine := abank =? e.(e_svid) in
  let note b peer weight :=
    if mine then add_log b auser (block_log e b.(b_s) (incoming TXSTYPE_BNK) peer 0 0 weight u.(u_pkey)) else b in
  let created s peer free :=
    let b := note (b <| b_s := s |> <| b_update ::= fun up => {[peer]} ∪ up |>) peer 0 in
    Some (add_hlog b (Bnk auser peer txid), free) in
  match free with
  | bi :: free =>
      let peer := Z.land bi 0xffff in
      let* s := put_node s u peer in created s peer free
  | [] =>
      if n_nodes s.(srvs_) <? BANK_MAX - 1 then
        let '(s, peer) := add_node s u in created (resize_fee s) peer []
      else
        let mass := BANK_MIN_UMASS + BANK_MIN_TMASS in
        let b := note (b <| b_s := add_deposit s abank auser mass |>) 0 mass in
        Some (add_hlog b (Bnk auser 0 txid), [])
  end.

Fixpoint create_banks (e : env) (b : bstate) (free : list Z) (txs : list (Z * Z)) : option bstate :=
  match txs with
  | [] => Some b
  | (ppi, auser) :: txs => let* (b, free) := create_bank e b free ppi auser in create_banks e b free txs
  end.

Definition commit_new_banks (e : env) (b : bstate) : option bstate :=
  let* b := create_banks e b (new_bnk b.(b_s)) (elems b.(b_s).(blk_bnk)) in
  Some (b <| b_s ::= fun s => s <| blk_bnk := ∅ |> |>).

(** * Withdrawals *)

(** The value of [undo.emplace(k,u)]. *)
Definition emplace (k : Z) (u : user_t) (m : gmap Z user_t) : gmap Z user_t :=
  match m !! k with Some _ => m | None => <[k := u]> m end.

(** An account gets a new record: the node's hash follows. *)
Definition rewrite_user (s : server) (svid uid : Z) (old new : user_t) : server :=
  let new := user_csum new svid uid in
  let n := cur_node s svid in
  let s := put_cur_node s svid (n <| n_hash := Z.lxor (Z.lxor n.(n_hash) old.(u_csum)) new.(u_csum) |>) in
  s <| usr_ ::= fun b => write_user b svid uid new |>.

Definition add_weight (s : server) (svid w : Z) : server :=
  put_cur_node s svid ((cur_node s svid) <| n_weight ::= fun x => i64 (x + w) |>).

(** The amounts of a withdrawal: taken, after the withdrawal fee, all fees. *)
Definition withdraw_amounts (w : Z) : Z * Z * Z :=
  let gok := i64 (w - TXS_GOK_FEE w) in (w, gok, i64 (TXS_GOK_FEE w + TXS_LNG_FEE gok)).

(** The change of the account: the first request locks it, the second takes
    all funds. *)
Definition withdraw_account (e : env) (s : server) (abank bbank : Z) (tx : get_t) (u old : user_t) :
    server * user_t * Z * Z :=
  let now := s.(srvs_).(sv_now) in
  if negb (u.(u_node) =? abank) || negb (u.(u_user) =? tx.(g_auser)) then
    let u := u <| u_node := abank |> <| u_user := tx.(g_auser) |> <| u_time := now |> in
    (rewrite_user s bbank tx.(g_buser) old u, user_csum u bbank tx.(g_buser), 0, 0)
  else
    let '(delta, gok, fee) := withdraw_amounts u.(u_weight) in
    let lng := BANK_PROFIT (TXS_LNG_FEE gok) in
    let u := u <| u_weight := 0 |> <| u_time := now |> in
    let s := add_weight s bbank (- delta) in
    let s := if abank =? e.(e_svid) then s <| myget_fee ::= fun f => i64 (f + lng) |> else s in
    let s := bank_fee_add s abank lng in
    let s := add_deposit s abank tx.(g_auser) (i64 (gok - TXS_LNG_FEE gok)) in
    (rewrite_user s bbank tx.(g_buser) old u, user_csum u bbank tx.(g_buser), delta, fee).

(** The log entries of a withdrawal; [w] is the balance before it. *)
Definition withdraw_log (e : env) (b : bstate) (abank bbank : Z) (tx : get_t) (u : user_t) (w delta fee : Z) : bstate :=
  let info := le_bytes 8 w ++ le_bytes 8 delta ++ le_bytes 8 fee ++ le_bytes 2 u.(u_stat) ++ take 6 u.(u_pkey) in
  let net := i64 (delta - fee) in
  let b := if abank =? e.(e_svid) then
             add_log b tx.(g_auser) (block_log e b.(b_s) (incoming TXSTYPE_GET) bbank tx.(g_buser) 0 net info) else b in
  let b := if bbank =? e.(e_svid) then
             add_log b tx.(g_buser) (block_log e b.(b_s) TXSTYPE_GET abank tx.(g_auser) 0 (i64 (- net)) info) else b in
  if (bbank =? e.(e_svid)) && negb e.(e_do_sync) && e.(e_office) then
    b <| b_s := emit b.(b_s) (EvGup tx.(g_buser) u.(u_node) u.(u_user) u.(u_time) delta) |>
  else b.

(** One request: the bank whose file is open and its undo records go along. *)
Definition withdraw (e : env) (b : bstate) (svid : Z) (undo : gmap Z user_t) (ppi : Z) (tx : get_t) :
    option (bstate * Z * gmap Z user_t) :=
  let abank := ppi_abank ppi in let bbank := ppi_bbank ppi in
  let nn := n_nodes b.(b_s).(srvs_) in
  if (abank =? 0) || (bbank =? 0) || (nn <=? abank) || (nn <=? bbank) then Some (b, svid, undo) else
  let b := b <| b_update ::= fun up => {[bbank]} ∪ ({[abank]} ∪ up) |> in
  let* (s, svid, undo) :=
    (if bbank =? svid then Some (b.(b_s), svid, undo)
     else let* s := server_save_undo b.(b_s) svid undo 0 in Some (s, bbank, ∅)) in
  let b := b <| b_s := s |> in
  let* old := read_user (bank_of s.(usr_) svid) tx.(g_buser) in
  if bool_decide (old.(u_pkey) = tx.(g_pkey)) then
    if s.(srvs_).(sv_now) <? u32 (old.(u_time) + LOCK_TIME) then Some (b, svid, undo) else
    let undo := emplace tx.(g_buser) old undo in
    let '(u, fee, div) := dividend s old 0 in
    if i64 (u.(u_weight) - TXS_GOK_FEE u.(u_weight)) <=? 0 then Some (b, svid, undo) else
    let s := bank_fee_add s svid (BANK_PROFIT fee) in
    let s := if svid =? e.(e_svid) then s <| mydiv_fee ::= fun f => i64 (f + BANK_PROFIT fee) |> else s in
    let s := if div =? NODIV then s else add_weight s bbank div in
    let '(s, u', delta, fee) := withdraw_account e s abank bbank tx u old in
    let b := withdraw_log e (b <| b_s := s |>) abank bbank tx u' u.(u_weight) delta fee in
    Some (add_hlog b (Get tx.(g_auser) bbank tx.(g_buser) (ppi_txid e s.(last_srvs_) ppi)), svid, undo)
  else Some (b, svid, undo).

Fixpoint withdraw_loop (e : env) (b : bstate) (svid : Z) (undo : gmap Z user_t) (txs : list (Z * get_t)) :
    option (bstate * Z * gmap Z user_t) :=
  match txs with
  | [] => Some (b, svid, undo)
  | (ppi, tx) :: txs => let* (b, svid, undo) := withdraw e b svid undo ppi tx in withdraw_loop e b svid undo txs
  end.

Definition commit_withdrawals (e : env) (b : bstate) : option bstate :=
  let* (b, svid, undo) := withdraw_loop e b 0 ∅ (elems b.(b_s).(blk_get)) in
  let s := b.(b_s) <| blk_get := ∅ |> in
  let* s := (if svid =? 0 then Some s else server_save_undo s svid undo 0) in
  Some (b <| b_s := s |>).

(** [commit_block]; [None] is a failed assertion. *)
Definition commit_block (e : env) (s : server) : option (server * gset Z) :=
  let s := s <| mydiv_fee := 0 |> <| myusr_fee := 0 |> <| myget_fee := 0 |> in
  let b := {| b_s := s; b_log := ∅; b_lpos := 1; b_hlog := []; b_update := ∅ |} in
  let b := commit_status e (commit_remote_accounts e b) in
  let* b := commit_new_banks e b in
  let* b := commit_withdrawals e b in
  let s := put_cur_node b.(b_s) 0 ((cur_node b.(b_s) 0) <| n_hash := finish b.(b_hlog) |>) in
  let now := s.(srvs_).(sv_now) in
  Some (put_msglog (del_msglog s now 0 0) now 0 0 b.(b_log), b.(b_update)).

(** * Dividends *)

Definition segment : Z := 32.
Definition div_period : Z := BLOCKDIV ÷ 2.

(** The accounts of a bank visited in this block: every [div_period]-th run of
    [segment] accounts. *)
Fixpoint div_users (fuel : nat) (user uend : Z) : list Z :=
  match fuel with
  | O => []
  | S fuel =>
      if uend <=? user then []
      else seqZ user (Z.min segment (uend - user)) ++ div_users fuel (user + segment * div_period) uend
  end.

Definition first_div_user (now svid : Z) : Z := segment * ((now / BLOCKSEC + svid) mod div_period).

Definition bank_div_users (s : server) (svid : Z) : list Z :=
  let uend := (cur_node s svid).(n_users) in
  div_users (S (Z.to_nat (uend / (segment * div_period)))) (first_div_user s.(srvs_).(sv_now) svid) uend.

(** A pending transfer to the account is credited with its dividend. *)
Definition credit_deposit (e : env) (s : server) (svid user : Z) (u : user_t) (div myput : Z) : server * user_t * Z * Z :=
  let k := dep_key svid user in
  match s.(deposit) !! k with
  | None => (s, u, div, myput)
  | Some d =>
      let share := BANK_PROFIT (TXS_LNG_FEE d) in
      let s := bank_fee_add s svid share in
      let myput := if svid =? e.(e_svid) then u64 (myput + share) else myput in
      let s := if (svid =? e.(e_svid)) && negb e.(e_do_sync) && e.(e_office) then emit s (EvDeposit user d) else s in
      (s <| deposit ::= <[k := 0]> |>, u <| u_weight ::= fun w => i64 (w + d) |>, i64 (div + d), myput)
  end.

(** An account that can not pay for itself may be deleted. *)
Definition maybe_delete (e : env) (s : server) (svid user : Z) (u : user_t) : server * user_t :=
  if (u.(u_weight) <? TXS_DIV_FEE) && (u.(u_lpath) <? s.(srvs_).(sv_now) - USER_MIN_AGE) then
    (if (svid =? e.(e_svid)) && negb e.(e_do_sync) && e.(e_office) then emit s (EvDeleteUser user) else s,
     u <| u_stat ::= fun st => Z.lor st USER_STAT_DELETED |>)
  else (s, u).

(** One account; [None] is the fatal error on an account that can not be
    read, or was never set. *)
Definition div_user (e : env) (svid : Z) (s : server) (undo : gmap Z user_t) (myput user : Z) :
    option (server * gmap Z user_t * Z) :=
  let* old := read_user (bank_of s.(usr_) svid) user in
  if old.(u_msid) =? 0 then None else
  let '(u, fee, div) := dividend s old 0 in
  let s := bank_fee_add s svid (BANK_PROFIT fee) in
  let s := if svid =? e.(e_svid) then s <| mydiv_fee ::= fun f => i64 (f + BANK_PROFIT fee) |> else s in
  if negb (div =? NODIV) || (u.(u_weight) =? 0) then
    let div := if div =? NODIV then 0 else div in
    let undo := emplace user old undo in
    let '(s, u, div, myput) := credit_deposit e s svid user u div myput in
    let '(s, u) := maybe_delete e s svid user u in
    Some (add_weight (rewrite_user s svid user old u) svid div, undo, myput)
  else Some (s, undo, myput).

Fixpoint div_loop (e : env) (svid : Z) (s : server) (undo : gmap Z user_t) (myput : Z) (ids : list Z) :
    option (server * gmap Z user_t * Z) :=
  match ids with
  | [] => Some (s, undo, myput)
  | user :: ids => let* (s, undo, myput) := div_user e svid s undo myput user in div_loop e svid s undo myput ids
  end.

Definition div_bank (e : env) (s : server) (update : gset Z) (myput svid : Z) : option (server * gset Z * Z) :=
  if (cur_node s svid).(n_users) <=? first_div_user s.(srvs_).(sv_now) svid then Some (s, update, myput) else
  let* (s, undo, myput) := div_loop e svid s ∅ myput (bank_div_users s svid) in
  let* s := server_save_undo s svid undo 0 in
  Some (s, {[svid]} ∪ update, myput).

Fixpoint div_banks (e : env) (s : server) (update : gset Z) (myput : Z) (svids : list Z) : option (server * gset Z * Z) :=
  match svids with
  | [] => Some (s, update, myput)
  | svid :: svids => let* (s, update, myput) := div_bank e s update myput svid in div_banks e s update myput svids
  end.

(** [commit_dividends]: in the second half of a period. *)
Definition commit_dividends (e : env) (s : server) (update : gset Z) (myput : Z) : option (server * gset Z * Z) :=
  if (s.(srvs_).(sv_now) / BLOCKSEC) mod BLOCKDIV <? BLOCKDIV ÷ 2 then Some (s, update, myput)
  else div_banks e s update myput (seqZ 1 (n_nodes s.(srvs_) - 1)).

(** * Deposits *)

Definition quiet_deposit (k : Z) : bool := has_bits (k / 2 ^ 32) 0x10000.

(** One deposit on its account. *)
Definition credit (e : env) (s : server) (svid user k d myput : Z) : option (server * user_t * Z) :=
  let* old := read_user (bank_of s.(usr_) svid) user in
  let '(u, fee, div) := dividend s old 0 in
  let s := bank_fee_add s svid (BANK_PROFIT fee) in
  let s := if svid =? e.(e_svid) then s <| mydiv_fee ::= fun f => i64 (f + BANK_PROFIT fee) |> else s in
  let div := if div =? NODIV then 0 else div in
  let share := BANK_PROFIT (TXS_LNG_FEE d) in
  let '(s, myput) :=
    if quiet_deposit k then (s, myput)
    else (bank_fee_add s svid share, if svid =? e.(e_svid) then u64 (myput + share) else myput) in
  let u := u <| u_weight ::= fun w => i64 (w + d) |> <| u_rpath := s.(srvs_).(sv_now) |> in
  let s := if (svid =? e.(e_svid)) && negb e.(e_do_sync) && e.(e_office) then emit s (EvDeposit user d) else s in
  Some (add_weight (rewrite_user s svid user old u) svid (i64 (d + div)), old, myput).

Fixpoint deposit_loop (e : env) (s : server) (update : gset Z) (lastsvid : Z) (undo : gmap Z user_t) (myput : Z)
    (l : list (Z * Z)) : option (server * gset Z * Z * gmap Z user_t * Z) :=
  match l with
  | [] => Some (s, update, lastsvid, undo, myput)
  | (k, d) :: l =>
      if d =? 0 then deposit_loop e s update lastsvid undo myput l else
      let user := k mod 2 ^ 32 in
      let svid := Z.land (k / 2 ^ 32) 0xFFFF in
      check negb (svid =? 0) in
      let* (s, update, undo) :=
        (if svid =? lastsvid then Some (s, update, undo)
         else let* s := server_save_undo s lastsvid undo 0 in Some (s, {[svid]} ∪ update, ∅)) in
      let* (s, old, myput) := credit e s svid user k d myput in
      deposit_loop e s update svid (emplace user old undo) myput l
  end.

(** [commit_deposit]. *)
Definition commit_deposit (e : env) (s : server) (update : gset Z) (myput : Z) : option (server * gset Z * Z) :=
  let* (s, update, lastsvid, undo, myput) := deposit_loop e s update 0 ∅ myput (elems s.(deposit)) in
  let* s := (if lastsvid =? 0 then Some s else server_save_undo s lastsvid undo 0) in
  Some (s <| deposit := ∅ |>, update, myput).

(** * Fees of the banks *)

Definition fee_of (s : server) (i : Z) : Z := nthz s.(bank_fee) (Z.to_nat i).

Fixpoint insert_fee (s : server) (i : Z) (l : list Z) : list Z :=
  match l with
  | [] => [i]
  | j :: l' => if fee_of s j <? fee_of s i then i :: l else j :: insert_fee s i l'
  end.

(** The banks that share their profit: the first by fees, a stable sort. *)
Definition sharing_nodes (s : server) : list Z :=
  take (Z.to_nat SHARED_PROFIT_NODES)
    (foldl (fun acc i => insert_fee s i acc) [] (seqZ 1 (n_nodes s.(srvs_) - 1))).

Definition receiving_nodes (s : server) : list Z :=
  filter (fun i => has_bits (cur_node s i).(n_status) SERVER_VIP = true) (seqZ 1 (n_nodes s.(srvs_) - 1)) ++
  filter (fun i => eligible s.(srvs_).(sv_now) (cur_node s i) = true) (sharing_nodes s).

(** The share of one receiver; [None] is the division by zero when there is
    none. *)
Definition fee_share (s : server) : option Z :=
  let sum := foldl (fun x i => i64 (x + fee_of s i)) 0 (sharing_nodes s) in
  let sum := if sum <? 0 then 0 else sum in
  match receiving_nodes s with
  | [] => None
  | r => Some (SHARED_PROFIT (sum ÷ Z.of_nat (length r)))
  end.

Definition count (i : Z) (l : list Z) : Z := Z.of_nat (length (filter (fun j => j = i) l)).

(** What a bank gives and receives. *)
Definition net_fee_share (s : server) (share svid : Z) (sharing receiving : list Z) : Z :=
  let give := if bool_decide (svid ∈ sharing) then - SHARED_PROFIT (fee_of s svid) else 0 in
  i64 (give + share * count svid receiving).

(** The profit of a bank goes to its first account, at most its balance is
    taken. *)
Definition pay_bank (e : env) (s : server) (share : Z) (sharing receiving : list Z) (svid : Z) :
    option (server * Z * Z * Z) :=
  let net := net_fee_share s share svid sharing receiving in
  let s := bank_fee_add s svid net in
  let* old := read_user (bank_of s.(usr_) svid) 0 in
  let '(u, fee, div) := dividend s old 0 in
  let s := bank_fee_add s svid (BANK_PROFIT fee) in
  let s := if negb (div =? NODIV) && (svid =? e.(e_svid)) then s <| mydiv_fee ::= fun f => i64 (f + BANK_PROFIT fee) |> else s in
  let div := if div =? NODIV then 0 else div in
  let buser_fee := BANK_USER_FEE (cur_node s svid).(n_users) in
  let profit := i64 (fee_of s svid - buser_fee) in
  let profit := if profit <? i64 (- u.(u_weight)) then i64 (- u.(u_weight)) else profit in
  let u := u <| u_weight ::= fun w => i64 (w + profit) |> <| u_rpath := s.(srvs_).(sv_now) |> in
  let s := add_weight s svid (i64 (profit + div)) in
  let s := if (svid =? e.(e_svid)) && negb e.(e_do_sync) && e.(e_office) then emit s (EvDeposit 0 profit) else s in
  let s := rewrite_user s svid 0 old u in
  let* s := server_save_undo s svid {[0 := old]} 0 in
  Some (s, net, buser_fee, profit).

Definition bankfee_log (e : env) (s : server) (net buser_fee profit myput svid : Z) : log_t :=
  {| lg_time := e.(e_time); lg_type := incoming TXSTYPE_FEE; lg_node := svid; lg_nmid := 0;
     lg_mpos := s.(srvs_).(sv_now); lg_user := u32 (Z.shiftr net 32); lg_umid := u32 net;
     lg_weight := i64 (buser_fee - profit + (fee_of s svid - buser_fee));
     lg_info := le_bytes 8 s.(mydiv_fee) ++ le_bytes 8 s.(myusr_fee) ++ le_bytes 8 s.(myget_fee) ++ le_bytes 8 myput |}.

Fixpoint pay_banks (e : env) (s : server) (share myput : Z) (sharing receiving : list Z) (log : gmap Z log_t)
    (svids : list Z) : option (server * gmap Z log_t) :=
  match svids with
  | [] => Some (s, log)
  | svid :: svids =>
      let* (s, net, buser_fee, profit) := pay_bank e s share sharing receiving svid in
      let log := if svid =? e.(e_svid) then <[0 := bankfee_log e s net buser_fee profit myput svid]> log else log in
      pay_banks e s share myput sharing receiving log svids
  end.

(** [commit_bankfee]. *)
Definition commit_bankfee (e : env) (s : server) (myput : Z) : option server :=
  let sharing := sharing_nodes s in let receiving := receiving_nodes s in
  let* share := fee_share s in
  let* (s, log) := pay_banks e s share myput sharing receiving ∅ (seqZ 1 (n_nodes s.(srvs_) - 1)) in
  let s := s <| bank_fee ::= map (fun _ => 0) |> in
  Some (put_msglog s s.(srvs_).(sv_now) 0 0 log).

(** * The end of the block *)

(** [clear_undo] and [servers::finish]; [None] when no node can be VIP. *)
Definition clear_undo (s : servers) : servers :=
  s <| sv_nodes ::= map (fun n => n <| n_changed ::= map (fun _ => 0) |>) |>.

Definition servers_finish (s : servers) : option (servers * list Z) :=
  let s := s <| sv_nod := Z.of_nat (length s.(sv_nodes)) |> in
  let* (s, vip) := update_viphash s in
  Some (clear_undo (hashnow (s <| sv_nodhash := nodes_hash s.(sv_nodes) |>)), vip).

(** [nextblock]; [div_of] is the dividend computed in floating point from the
    sum of all weights. *)
Definition weight_sum (s : servers) : Z := foldl (fun x n => u64 (x + n.(n_weight))) 0 (drop 1 s.(sv_nodes)).

Definition nextblock (div_of : Z -> Z) (s : servers) (vips : gmap (list Z) (list Z)) :
    option (servers * gmap (list Z) (list Z) * Z) :=
  let s := s <| sv_now ::= fun n => u32 (n + BLOCKSEC) |> in
  let num := (s.(sv_now) / BLOCKSEC) mod BLOCKDIV in
  let s := if num =? 0 then
             let sum := weight_sum s in s <| sv_div := if sum <? TOTALMASS then u32 (div_of sum) else 0 |>
           else s in
  let s := s <| sv_nodes ::= map (fun n => n <| n_changed ::= resize (1 + n.(n_users) / 64) |>) |>
             <| sv_vok := 0 |> <| sv_vno := 0 |> in
  let* (s, vips) := update_vipstatus s vips in
  Some (s <| sv_msg := 0 |> <| sv_txs := 0 |>, vips, u32 (s.(sv_now) - num * BLOCKSEC)).

(** The part of [finish_block] on accounts: the four commits and the check of
    every bank they name. [None] is an exit, or the use of an account that is not
    in its file. *)
Definition commit_all (e : env) (s : server) : option (server * gset Z) :=
  let* (s, update) := commit_block e s in
  let* (s, update, myput) := commit_dividends e s update 0 in
  let* (s, update, myput) := commit_deposit e s update myput in
  let* s := commit_bankfee e s myput in
  Some (s, update).

(** The loop over the banks; true when neither an assertion nor
    [check_nodehash] ends the process. *)
Definition check_banks (s : server) (update : gset Z) : bool :=
  forallb (fun i => (i <? n_nodes s.(srvs_)) && negb (i =? 0) &&
                    match check_nodehash (cur_node s i) (s.(usr_) !! i) with Some ok => ok | None => false end)
    (elements update).

Definition finish_block (div_of : Z -> Z) (e : env) (s : server) (vips : gmap (list Z) (list Z)) :
    option (server * gmap (list Z) (list Z)) :=
  let* (s, update) := commit_all e s in
  check check_banks s update in
  let* (v, vip) := servers_finish s.(srvs_) in
  let vips := <[v.(sv_viphash) := vip]> vips in
  let s := s <| last_srvs_ := v |> in
  let* (v', vips, start) := nextblock div_of (v <| sv_oldhash := v.(sv_nowhash) |>) vips in
  Some (s <| srvs_ := v' |> <| period_start := start |>, vips).

End Block.
