(* ===== verification/BlockInv.v ===== *)
(** The end of a block keeps the books of every bank: each step of
    [commit_block], [commit_dividends], [commit_deposit] and [commit_bankfee]
    changes the totals of a node by what it changes on its accounts. *)

From stdpp Require Import base gmap list sorting.
From Stdlib Require Import ZArith Lia.
From S2P Require Import Prelude Params HashTree Usertxs Accounts Servers Ledger Process Invariant Hlog Block.

Section BlockInv.
Context `{Sha256}.

(** * Books that are off by an amount *)

(** Bank [j] is in good order except that its weight lacks [d]. *)
Record bank_off (s : server) (j d : Z) : Prop := {
  bo_sum : n_weight (cur_node s j) + d ≡64 bank_sum (bank_of s.(usr_) j) (n_users (cur_node s j));
  bo_hash : n_hash (cur_node s j) = bank_xor (bank_of s.(usr_) j) (n_users (cur_node s j));
  bo_weight : - 2 ^ 63 <= n_weight (cur_node s j) < 2 ^ 63;
  bo_users : 0 <= n_users (cur_node s j);
  bo_file : long_file s.(usr_) j (n_users (cur_node s j));
  bo_range : forall uid, 0 <= uid < n_users (cur_node s j) -> wrange (get_user (bank_of s.(usr_) j) uid);
  bo_csum : forall uid, 0 <= uid < n_users (cur_node s j) -> csum_ok j (get_user (bank_of s.(usr_) j) uid) uid
}.

Lemma bank_off_wf s j : bank_off s j 0 <-> bank_wf s j.
Proof.
  split.
  - intros [Os Oh Ow Ou Of Or Oc]. split; auto. split_and!; auto; [|lia..]. now rewrite Z.add_0_r in Os.
  - intros [(Os & Oh & Ow) Ou Of Or Oc]. split; auto. now rewrite Z.add_0_r.
Qed.

Lemma bank_off_eqm s j d d' : d ≡64 d' -> bank_off s j d -> bank_off s j d'.
Proof. intros E []. split; auto. now rewrite <- E. Qed.

Lemma bank_off_same s s' j d : same_bank s s' j -> bank_off s j d -> bank_off s' j d.
Proof.
  intros (Hw & Hh & Hu & Hd & Hf) [Os Oh Ow Ou Of Or Oc]. split; rewrite ?Hw, ?Hh, ?Hu; auto.
  - rewrite Os. apply eqm_eq. apply fsum_ext. intros i _. now rewrite Hd.
  - rewrite Oh. apply fxor_ext. intros i _. now rewrite Hd.
  - intros uid Hi. rewrite Hd. auto.
  - intros uid Hi. rewrite Hd. auto.
Qed.

(** * The two ways accounts and totals change *)

Lemma cur_add_weight s svid w j :
  0 <= svid < n_nodes s.(srvs_) -> 0 <= j ->
  cur_node (add_weight s svid w) j =
    if decide (j = svid) then (cur_node s svid) <| n_weight ::= fun x => i64 (x + w) |> else cur_node s j.
Proof. intros. unfold add_weight. now apply cur_put. Qed.

Lemma off_add_weight s svid w d :
  0 <= svid < n_nodes s.(srvs_) -> bank_off s svid d -> bank_off (add_weight s svid w) svid (d - w).
Proof.
  intros Hin [Os Oh Ow Ou Of Or Oc].
  pose proof (cur_add_weight s svid w svid Hin (proj1 Hin)) as E. rewrite decide_True in E by reflexivity.
  split; rewrite ?E; auto.
  - cbn. rewrite i64_eqm, <- Os. apply eqm_eq. lia.
  - apply i64_range.
Qed.

Lemma cur_rewrite_user s svid uid old new j :
  0 <= svid < n_nodes s.(srvs_) -> 0 <= j ->
  cur_node (rewrite_user s svid uid old new) j =
    if decide (j = svid)
    then (cur_node s svid) <| n_hash := Z.lxor (Z.lxor (n_hash (cur_node s svid)) (u_csum old)) (u_csum (user_csum new svid uid)) |>
    else cur_node s j.
Proof.
  intros Hin Hj. unfold rewrite_user. rewrite <- cur_put by assumption. reflexivity.
Qed.

Lemma disk_rewrite_user s svid uid old new j i :
  get_user (bank_of (rewrite_user s svid uid old new).(usr_) j) i =
    if decide (j = svid) then if decide (i = uid) then user_csum new svid uid else get_user (bank_of s.(usr_) svid) i
    else get_user (bank_of s.(usr_) j) i.
Proof.
  unfold rewrite_user. cbn. rewrite bank_of_write. destruct (decide (j = svid)); [|reflexivity].
  apply get_user_insert.
Qed.

Lemma file_rewrite_user s svid uid old new j n :
  long_file s.(usr_) j n -> long_file (rewrite_user s svid uid old new).(usr_) j n.
Proof. apply long_file_write. Qed.

Lemma off_rewrite_user s svid uid new d :
  0 <= svid < n_nodes s.(srvs_) -> 0 <= uid < n_users (cur_node s svid) -> wrange new ->
  let old := get_user (bank_of s.(usr_) svid) uid in
  bank_off s svid d -> bank_off (rewrite_user s svid uid old new) svid (d + (u_weight new - u_weight old)).
Proof.
  intros Hin Hu Hr old [Os Oh Ow Ou Of Or Oc].
  pose proof (cur_rewrite_user s svid uid old new svid Hin (proj1 Hin)) as E. rewrite decide_True in E by reflexivity.
  pose proof (fun i => disk_rewrite_user s svid uid old new svid i) as Ed.
  assert (Ed' : forall i, get_user (bank_of (usr_ (rewrite_user s svid uid old new)) svid) i =
                  if decide (i = uid) then user_csum new svid uid else get_user (bank_of (usr_ s) svid) i).
  { intros i. rewrite Ed. now rewrite decide_True. }
  clear Ed. split; rewrite ?E; auto.
  - cbn -[rewrite_user]. rewrite bank_sum_fsum.
    rewrite (fsum_upd (fun i => u_weight (get_user (bank_of (usr_ s) svid) i)) _ uid)
      by first [assumption | intros i Hi; cbv beta; rewrite Ed', decide_False by assumption; reflexivity].
    cbv beta. rewrite Ed', decide_True, user_csum_weight by reflexivity. fold old.
    rewrite <- bank_sum_fsum, <- Os. apply eqm_eq. lia.
  - cbn -[rewrite_user]. rewrite bank_xor_fxor.
    rewrite (fxor_upd (fun i => u_csum (get_user (bank_of (usr_ s) svid) i)) _ uid)
      by first [assumption | intros i Hi; cbv beta; rewrite Ed', decide_False by assumption; reflexivity].
    cbv beta. rewrite Ed', decide_True by reflexivity. fold old. rewrite <- bank_xor_fxor, <- Oh. reflexivity.
  - now apply file_rewrite_user.
  - intros i Hi. rewrite Ed'. destruct (decide (i = uid)); [|auto]. exact Hr.
  - intros i Hi. rewrite Ed'. destruct (decide (i = uid)) as [->|]; [reflexivity|auto].
Qed.

(** The other banks. *)
Lemma same_add_weight s svid w j :
  0 <= svid < n_nodes s.(srvs_) -> 0 <= j -> j <> svid -> same_bank s (add_weight s svid w) j.
Proof.
  intros Hin Hj Hn. unfold same_bank. rewrite cur_add_weight, decide_False by assumption. now split_and!.
Qed.

Lemma same_rewrite_user s svid uid old new j :
  0 <= svid < n_nodes s.(srvs_) -> 0 <= j -> j <> svid -> same_bank s (rewrite_user s svid uid old new) j.
Proof.
  intros Hin Hj Hn. unfold same_bank. rewrite cur_rewrite_user, decide_False by assumption. split_and!; auto using file_rewrite_user.
  intros i. rewrite disk_rewrite_user, decide_False by assumption. reflexivity.
Qed.

(** * Good order of all banks *)

Definition nodes_of (s : server) : Z := n_nodes s.(srvs_).

(** Every bank, the dividend rate, and what a step may not take away: nodes
    and accounts. *)
Definition all_wf (s : server) : Prop := forall j, 1 <= j < nodes_of s -> bank_wf s j.

Definition acct (s : server) (bank user : Z) : Prop :=
  1 <= bank < nodes_of s /\ bank < 2 ^ 16 /\ 0 <= user < n_users (cur_node s bank) /\ user < 2 ^ 32.

Record grows (s s' : server) : Prop := {
  gr_nodes : nodes_of s <= nodes_of s';
  gr_users : forall j, 1 <= j < nodes_of s -> n_users (cur_node s j) <= n_users (cur_node s' j);
  gr_div : sv_div (srvs_ s') = sv_div (srvs_ s)
}.

Lemma grows_refl s : grows s s.
Proof. split; [lia|intros; lia|reflexivity]. Qed.
Lemma grows_trans s s' s'' : grows s s' -> grows s' s'' -> grows s s''.
Proof.
  intros [A B C] [A' B' C']. split; [lia| |congruence]. intros j Hj.
  etransitivity; [now apply B|]. apply B'. lia.
Qed.
Lemma acct_grows s s' b u : grows s s' -> acct s b u -> acct s' b u.
Proof. intros [A B C] (Hb & Hb' & Hu & Hu'). specialize (B b Hb). split_and!; lia. Qed.

(** A step on bank [svid] only. *)
Lemma all_wf_step s s' svid :
  1 <= svid < nodes_of s -> nodes_of s' = nodes_of s ->
  (forall j, 0 <= j -> j <> svid -> same_bank s s' j) -> bank_wf s' svid -> all_wf s -> all_wf s'.
Proof.
  intros Hin En Hs Hw Ha j Hj. rewrite En in Hj. destruct (decide (j = svid)) as [->|Hne]; [assumption|].
  eapply bank_wf_same; [apply Hs; lia|]. auto.
Qed.

(** A step that changes no bank. *)
Record quiet (s s' : server) : Prop := {
  qu_nodes : nodes_of s' = nodes_of s;
  qu_same : forall j, 1 <= j -> same_bank s s' j;
  qu_div : sv_div (srvs_ s') = sv_div (srvs_ s);
  qu_now : sv_now (srvs_ s') = sv_now (srvs_ s);
  qu_mtim : forall j, 1 <= j -> n_mtim (cur_node s' j) = n_mtim (cur_node s j)
}.

Lemma quiet_refl s : quiet s s.
Proof. split; auto using same_bank_refl. Qed.
Lemma quiet_trans s s' s'' : quiet s s' -> quiet s' s'' -> quiet s s''.
Proof.
  intros [A B C D E] [A' B' C' D' E']. split; try congruence.
  - intros j Hj. eapply same_bank_trans; eauto.
  - intros j Hj. rewrite E', E by assumption. reflexivity.
Qed.
Lemma quiet_all_wf s s' : quiet s s' -> all_wf s -> all_wf s'.
Proof.
  intros [En Hs _ _ _] Ha j Hj. rewrite En in Hj. eapply bank_wf_same; [apply Hs; lia|auto].
Qed.
Lemma quiet_grows s s' : quiet s s' -> grows s s'.
Proof.
  intros [En Hs Hd _ _]. split; [lia| |assumption]. intros j Hj. destruct (Hs j ltac:(lia)) as (_ & _ & -> & _). lia.
Qed.

(** Fields that are not part of a bank. *)
Lemma quiet_fields s s' :
  usr_ s' = usr_ s -> srvs_ s' = srvs_ s -> quiet s s'.
Proof.
  intros Eu Es. split; unfold nodes_of, same_bank, cur_node; rewrite ?Es, ?Eu; auto.
Qed.

(** Status bits. *)
Lemma quiet_node s i f :
  (forall n, n_weight (f n) = n_weight n /\ n_hash (f n) = n_hash n /\ n_users (f n) = n_users n /\ n_mtim (f n) = n_mtim n) ->
  quiet s (put_cur_node s i (f (cur_node s i))).
Proof.
  intros Hf.
  assert (Hj : forall j, 1 <= j -> same_bank s (put_cur_node s i (f (cur_node s i))) j /\
               n_mtim (cur_node (put_cur_node s i (f (cur_node s i))) j) = n_mtim (cur_node s j)).
  { intros j Hj. unfold same_bank, put_cur_node, cur_node, set_node, nth_node; cbn.
    destruct (decide (Z.to_nat i = Z.to_nat j)) as [->|Hn].
    - destruct (decide (Z.to_nat j < length s.(srvs_).(sv_nodes))%nat).
      + rewrite list_lookup_total_insert_eq by assumption.
        destruct (Hf (sv_nodes (srvs_ s) !!! Z.to_nat j)) as (-> & -> & -> & ->). now split_and!.
      + rewrite list_insert_ge by lia. now split_and!.
    - rewrite list_lookup_total_insert_ne by assumption. now split_and!. }
  split; try reflexivity; [unfold nodes_of, n_nodes; now rewrite length_put|..]; intros j Hj'; now apply Hj.
Qed.

(** Node 0 is no bank. *)
Lemma quiet_node0 s n : quiet s (put_cur_node s 0 n).
Proof.
  split; try reflexivity; [unfold nodes_of, n_nodes; now rewrite length_put|..];
    intros j Hj; unfold same_bank, put_cur_node, cur_node, set_node, nth_node; cbn;
    rewrite list_lookup_total_insert_ne by lia; first [now split_and! | reflexivity].
Qed.

Lemma quiet_save_undo s svid undo s' :
  0 <= svid < nodes_of s -> (1 <= svid -> 0 <= n_users (cur_node s svid)) ->
  server_save_undo s svid undo 0 = Some s' -> quiet s s'.
Proof.
  intros Hin Hu E. unfold server_save_undo in E. inv_opt. subst s'.
  apply save_undo_node in E0 as (Hw & Hh & _ & _ & Hm & _ & _ & Hus).
  assert (Hc : forall j, 1 <= j -> forall k f, cur_node ((put_cur_node s svid n) <| und_ ::= <[k := f]> |>) j =
                         if decide (j = svid) then n else cur_node s j).
  { intros j Hj k f. rewrite <- cur_put by (assumption || lia). reflexivity. }
  split; try reflexivity; [unfold nodes_of, n_nodes; cbn; now rewrite length_insert|..]; intros j Hj.
  - unfold same_bank. rewrite Hc by assumption. destruct (decide (j = svid)) as [->|]; [|now split_and!].
    specialize (Hu Hj). split_and!; auto. lia.
  - rewrite Hc by assumption. destruct (decide (j = svid)) as [->|]; auto.
Qed.

(** * The invariant of the end of a block *)

(** The account a deposit is for. *)
Definition key_bank (k : Z) : Z := Z.land (k / 2 ^ 32) 0xFFFF.
Definition key_user (k : Z) : Z := k mod 2 ^ 32.

Definition deposit_ok (s : server) : Prop :=
  forall k d, s.(deposit) !! k = Some d -> acct s (key_bank k) (key_user k).

Record binv (s : server) : Prop := {
  bi_wf : all_wf s;
  bi_dep : deposit_ok s;
  bi_div : 0 <= s.(srvs_).(sv_div) < 2 ^ 14;
  bi_pos : forall j, 1 <= j < nodes_of s -> 0 < n_users (cur_node s j) <= 2 ^ 32
}.

(** A step of the end of a block: it keeps the invariant, nodes and accounts. *)
Definition bstep (s s' : server) : Prop := grows s s' /\ (binv s -> binv s').

Lemma bstep_refl s : bstep s s.
Proof. split; [apply grows_refl|auto]. Qed.
Lemma bstep_trans s s' s'' : bstep s s' -> bstep s' s'' -> bstep s s''.
Proof. intros [G I] [G' I']. split; [eauto using grows_trans|auto]. Qed.

Lemma deposit_ok_grows s s' : grows s s' -> deposit s' = deposit s -> deposit_ok s -> deposit_ok s'.
Proof. intros G E D k d Hk. rewrite E in Hk. eauto using acct_grows. Qed.

Lemma quiet_bstep s s' : quiet s s' -> deposit s' = deposit s -> bstep s s'.
Proof.
  intros Q E. pose proof (quiet_grows _ _ Q) as G. split; [exact G|]. intros [W D V P]. split.
  - now apply (quiet_all_wf s).
  - now apply (deposit_ok_grows s).
  - now rewrite (qu_div _ _ Q).
  - intros j Hj. rewrite (qu_nodes _ _ Q) in Hj. destruct (qu_same _ _ Q j ltac:(lia)) as (_ & _ & -> & _). auto.
Qed.

Lemma fields_bstep s s' : usr_ s' = usr_ s -> srvs_ s' = srvs_ s -> deposit s' = deposit s -> bstep s s'.
Proof. intros. apply quiet_bstep; [now apply quiet_fields|assumption]. Qed.

Lemma dep_key_bank b u : 0 <= b < 2 ^ 16 -> 0 <= u < 2 ^ 32 -> key_bank (dep_key (quiet_bank b) u) = b /\ key_user (dep_key (quiet_bank b) u) = u.
Proof.
  intros Hb Hu. unfold key_bank, key_user, dep_key, quiet_bank. split.
  - rewrite Z.mul_comm, Z.div_add, Z.div_small, Z.add_0_l by lia.
    rewrite Z.land_lor_distr_l. change (Z.land 65536 65535) with 0. rewrite Z.lor_0_r.
    change 65535 with (Z.ones 16). rewrite Z.land_ones by lia. apply Z.mod_small. lia.
  - rewrite Z.mul_comm, Z.mod_add, Z.mod_small; lia.
Qed.

Lemma add_deposit_bstep s b u mass : acct s b u -> bstep s (add_deposit s b u mass).
Proof.
  intros Ha. assert (Q : quiet s (add_deposit s b u mass)) by now apply quiet_fields.
  pose proof (quiet_grows _ _ Q) as G. split; [exact G|]. intros [W D V P]. split.
  - now apply (quiet_all_wf s).
  - intros k d Hk. unfold add_deposit, add_at in Hk. cbn in Hk. apply (acct_grows s); [exact G|].
    destruct (decide (dep_key (quiet_bank b) u = k)) as [<-|Hn].
    + destruct (dep_key_bank b u) as [-> ->]; [destruct Ha; lia|destruct Ha as (_ & _ & ? & ?); lia|exact Ha].
    + rewrite lookup_insert_ne in Hk by assumption. eauto.
  - exact V.
  - exact P.
Qed.

(** A change of one account and of the totals of its bank. *)
Lemma bank_bstep s s' svid :
  1 <= svid < nodes_of s -> nodes_of s' = nodes_of s ->
  (forall j, 0 <= j -> j <> svid -> same_bank s s' j) ->
  n_users (cur_node s' svid) = n_users (cur_node s svid) -> sv_div (srvs_ s') = sv_div (srvs_ s) ->
  (forall k d, deposit s' !! k = Some d -> is_Some (deposit s !! k)) ->
  (binv s -> bank_wf s' svid) -> bstep s s'.
Proof.
  intros Hin En Hs Eu Ed Hd Hw.
  assert (Hu : forall j, 1 <= j < nodes_of s -> n_users (cur_node s' j) = n_users (cur_node s j)).
  { intros j Hj. destruct (decide (j = svid)) as [->|Hne]; [assumption|].
    destruct (Hs j ltac:(lia) Hne) as (_ & _ & -> & _). reflexivity. }
  assert (G : grows s s').
  { split; [lia| |assumption]. intros j Hj. rewrite Hu by assumption. lia. }
  split; [exact G|]. intros I. pose proof I as [W D V P]. split.
  - apply (all_wf_step s s' svid); auto.
  - intros k d Hk. destruct (Hd k d Hk) as [d' Hk']. eauto using acct_grows.
  - now rewrite Ed.
  - intros j Hj. rewrite En in Hj. rewrite Hu by assumption. auto.
Qed.
End BlockInv.
