(* ===== verification/BlockSteps.v ===== *)
(** The steps of the end of a block, one after the other: each keeps the
    invariant [binv] of [BlockInv]. *)

From stdpp Require Import base gmap list sorting.
From Stdlib Require Import ZArith Lia.
From S2P Require Import Prelude Params HashTree Usertxs Accounts Servers Ledger Process Invariant Hlog Block BlockInv.

Section BlockSteps.
Context `{Sha256}.

(** * Remote accounts and node status: no bank changes *)

Record pstep (s s' : server) : Prop := {
  ps_quiet : quiet s s';
  ps_step : bstep s s';
  ps_bnk : blk_bnk s' = blk_bnk s;
  ps_get : blk_get s' = blk_get s
}.

Lemma pstep_refl s : pstep s s.
Proof. split; auto using quiet_refl, bstep_refl. Qed.
Lemma pstep_trans s s' s'' : pstep s s' -> pstep s' s'' -> pstep s s''.
Proof. intros [A B C D] [A' B' C' D']. split; try congruence; eauto using quiet_trans, bstep_trans. Qed.

Lemma fields_pstep s s' :
  usr_ s' = usr_ s -> srvs_ s' = srvs_ s -> deposit s' = deposit s -> blk_bnk s' = blk_bnk s -> blk_get s' = blk_get s ->
  pstep s s'.
Proof. intros. split; auto using fields_bstep, quiet_fields. Qed.

Lemma deposit_pstep s b u mass : acct s b u -> pstep s (add_deposit s b u mass).
Proof. intros Ha. split; [now apply quiet_fields|now apply add_deposit_bstep|reflexivity..]. Qed.

Lemma status_pstep s i f : pstep s (set_status s i f).
Proof.
  unfold set_status.
  assert (Q : quiet s (put_cur_node s i ((cur_node s i) <| n_status ::= f |>))).
  { apply (quiet_node s i (fun n => n <| n_status ::= f |>)). intros n. now split_and!. }
  split; [exact Q|now apply quiet_bstep|reflexivity..].
Qed.

Lemma acct_pstep s s' b u : pstep s s' -> acct s b u -> acct s' b u.
Proof. intros [_ [G _] _ _]. now apply acct_grows. Qed.

(** The accounts that the queues of the block name exist. *)
Definition uin_ok (s : server) (m : list (uin_t * list Z)) : Prop :=
  Forall (fun p : uin_t * list Z => acct s p.1.(ui_abank) p.1.(ui_auser)) m.

Lemma uin_ok_step s s' m : pstep s s' -> uin_ok s m -> uin_ok s' m.
Proof. intros P Hm. eapply Forall_impl; [exact Hm|]. intros p. now apply acct_pstep. Qed.

Lemma uin_push_ok s k tx m : acct s k.(ui_abank) k.(ui_auser) -> uin_ok s m -> uin_ok s (uin_push k tx m).
Proof.
  intros Hk. induction 1 as [|[k' q] m Hp Hm IH]; cbn [uin_push]; [constructor; [exact Hk|constructor]|].
  destruct (memcmp _ _); repeat (constructor; auto).
Qed.

Lemma uin_pop_ok s k m tx m' : uin_pop k m = Some (tx, m') -> uin_ok s m -> uin_ok s m'.
Proof.
  revert tx m'; induction m as [|[k' q] m IH]; intros tx m' E Hm; [discriminate|].
  cbn [uin_pop] in E. inversion Hm; subst.
  destruct (memcmp _ _).
  - destruct q; simplify_eq. constructor; assumption.
  - destruct (uin_pop k m) as [[tx' m'']|] eqn:E'; simplify_eq. constructor; [assumption|eapply IH; eauto].
  - destruct (uin_pop k m) as [[tx' m'']|] eqn:E'; simplify_eq. constructor; [assumption|eapply IH; eauto].
Qed.

Lemma collect_usr_ok e s last txs :
  Forall (fun p : Z * usr_t => acct s (ppi_abank p.1) p.2.(us_auser)) txs -> uin_ok s (collect_usr e last txs).
Proof.
  intros Ht. unfold collect_usr. assert (Hm : uin_ok s []) by constructor. revert Hm.
  generalize (@nil (uin_t * list Z)). induction Ht as [|[ppi tx] txs Hp Ht IH]; intros m Hm; cbn [foldl]; [assumption|].
  apply IH. now apply uin_push_ok.
Qed.

Lemma b_s_log b user entry : b_s (add_log b user entry) = b_s b.
Proof. reflexivity. Qed.
Lemma b_s_hlog b r : b_s (add_hlog b r) = b_s b.
Proof. reflexivity. Qed.
Lemma b_s_if (c : bool) (b b' : bstate) : b_s (if c then b else b') = if c then b_s b else b_s b'.
Proof. now destruct c. Qed.
Lemma b_up_if (c : bool) (b b' : bstate) : b_update (if c then b else b') = if c then b_update b else b_update b'.
Proof. now destruct c. Qed.

Lemma match_uok_step e b uin ppi tx b' uin' :
  acct b.(b_s) (ppi_abank ppi) tx.(uo_auser) -> uin_ok b.(b_s) uin -> match_uok e b uin ppi tx = (b', uin') ->
  pstep b.(b_s) b'.(b_s) /\ uin_ok b'.(b_s) uin' /\ b_update b' = b_update b.
Proof.
  intros Ha Hu E. unfold match_uok in E.
  destruct (uin_pop _ uin) as [[txid uin1]|] eqn:Ep; injection E as <- <-.
  - apply (uin_pop_ok b.(b_s)) in Ep; [|assumption].
    set (s1 := add_deposit b.(b_s) _ _ _). assert (P1 : pstep b.(b_s) s1) by now apply deposit_pstep.
    match goal with |- pstep _ ?s /\ _ => assert (P : pstep b.(b_s) s) end.
    { rewrite b_s_hlog. eapply pstep_trans; [exact P1|].
      destruct (_ =? e_svid e), (_ =? e_svid e); now apply fields_pstep. }
    split; [exact P|]. split; [now apply (uin_ok_step b.(b_s))|].
    now destruct (_ =? e_svid e), (_ =? e_svid e).
  - split_and!; [|now destruct (_ =? _)..].
    destruct (_ =? _); apply pstep_refl.
Qed.

Lemma refund_usr_step e k b txid :
  acct b.(b_s) k.(ui_abank) k.(ui_auser) ->
  pstep b.(b_s) (refund_usr e k b txid).(b_s) /\ b_update (refund_usr e k b txid) = b_update b.
Proof.
  intros Ha. unfold refund_usr.
  split; [|now destruct (_ =? _)]. rewrite b_s_hlog.
  destruct (_ =? _); now apply deposit_pstep.
Qed.

(** The loop over the acceptances. *)
Lemma uok_loop_step e txs b uin :
  uin_ok b.(b_s) uin -> Forall (fun p : Z * uok_t => acct b.(b_s) (ppi_abank p.1) p.2.(uo_auser)) txs ->
  let '(b2, uin2) := foldl (fun '(b, uin) '(ppi, tx) => match_uok e b uin ppi tx) (b, uin) txs in
  pstep b.(b_s) b2.(b_s) /\ b_update b2 = b_update b /\ uin_ok b2.(b_s) uin2.
Proof.
  revert b uin; induction txs as [|[ppi tx] txs IH]; intros b uin U Ht; cbn [foldl]; [auto using pstep_refl|].
  inversion Ht as [|? ? Ha Hr]; subst.
  destruct (match_uok e b uin ppi tx) as [b1 uin1] eqn:Em.
  apply match_uok_step in Em as (P1 & U1 & E1); [|assumption..].
  specialize (IH b1 uin1 U1). destruct (foldl _ (b1, uin1) txs) as [b2 uin2].
  destruct IH as (P2 & E2 & U2); [eapply Forall_impl; [exact Hr|]; intros p; now apply acct_pstep|].
  split_and!; [eapply pstep_trans; eassumption|congruence|assumption].
Qed.

(** The loops over the requests that were not accepted. *)
Lemma refund_queue_step e k q b :
  acct b.(b_s) k.(ui_abank) k.(ui_auser) ->
  pstep b.(b_s) (foldl (refund_usr e k) b q).(b_s) /\ b_update (foldl (refund_usr e k) b q) = b_update b.
Proof.
  revert b; induction q as [|tx q IH]; intros b A; cbn [foldl]; [auto using pstep_refl|].
  destruct (refund_usr_step e k b tx A) as [P1 E1].
  destruct (IH (refund_usr e k b tx)) as [P2 E2]; [now apply (acct_pstep _ _ _ _ P1)|].
  split; [eapply pstep_trans; eassumption|congruence].
Qed.

Lemma refund_loop_step e m b :
  uin_ok b.(b_s) m ->
  let b' := foldl (fun b '(k, q) => foldl (refund_usr e k) b q) b m in
  pstep b.(b_s) b'.(b_s) /\ b_update b' = b_update b.
Proof.
  revert b; induction m as [|[k q] m IH]; intros b U; cbn [foldl]; [auto using pstep_refl|].
  inversion U as [|? ? Hk Hr]; subst. destruct (refund_queue_step e k q b Hk) as [P1 E1].
  destruct (IH (foldl (refund_usr e k) b q)) as [P2 E2]; [now apply (uin_ok_step _ _ _ P1)|].
  split; [eapply pstep_trans; eassumption|congruence].
Qed.

Lemma commit_remote_accounts_step e b :
  Forall (fun p : Z * usr_t => acct b.(b_s) (ppi_abank p.1) p.2.(us_auser)) (elems b.(b_s).(blk_usr)) ->
  Forall (fun p : Z * uok_t => acct b.(b_s) (ppi_abank p.1) p.2.(uo_auser)) (elems b.(b_s).(blk_uok)) ->
  pstep b.(b_s) (commit_remote_accounts e b).(b_s) /\ b_update (commit_remote_accounts e b) = b_update b.
Proof.
  intros Hu Ho. unfold commit_remote_accounts.
  pose proof (collect_usr_ok e b.(b_s) b.(b_s).(last_srvs_) _ Hu) as Hm.
  set (uin := collect_usr _ _ _) in *. clearbody uin.
  set (b1 := b <| b_s ::= _ |>). assert (P1 : pstep b.(b_s) b1.(b_s)) by now apply fields_pstep.
  apply (uin_ok_step _ _ _ P1) in Hm.
  pose proof (uok_loop_step e (elems (blk_uok (b_s b1))) b1 uin Hm) as Hl.
  destruct (foldl _ (b1, uin) _) as [b2 uin2].
  destruct Hl as (P2 & E2 & U2); [eapply Forall_impl; [exact Ho|]; intros p; now apply acct_pstep|].
  set (b3 := b2 <| b_s ::= _ |>). assert (P3 : pstep b2.(b_s) b3.(b_s)) by now apply fields_pstep.
  destruct (refund_loop_step e uin2 b3) as [P4 E4]; [now apply (uin_ok_step _ _ _ P3)|].
  split; [eauto using pstep_trans|]. rewrite E4. exact E2.
Qed.

(** * Node status *)

Lemma reset_dbl_step e b ppi node :
  pstep b.(b_s) (reset_dbl e b ppi node).(b_s) /\ b_update (reset_dbl e b ppi node) = b_update b.
Proof. unfold reset_dbl. split; [apply status_pstep|]. now destruct (has_bits _ _). Qed.

Lemma close_votes_step set v : pstep v.(v_b).(b_s) (close_votes set v).
Proof. apply status_pstep. Qed.

Lemma vote_server_step set s abank bbank status : pstep s (vote_server set s abank bbank status).
Proof.
  unfold vote_server. set (s1 := if abank =? bbank then _ else s).
  assert (P1 : pstep s s1) by (unfold s1; destruct (abank =? bbank); [apply status_pstep|apply pstep_refl]).
  destruct (has_bits _ _); [|exact P1]. eapply pstep_trans; [exact P1|apply status_pstep].
Qed.

Lemma vote_step e set v ppi status :
  pstep v.(v_b).(b_s) (vote e set v ppi status).(v_b).(b_s) /\ b_update (vote e set v ppi status).(v_b) = b_update v.(v_b).
Proof.
  unfold vote. split; [|reflexivity]. cbn [v_b].
  set (v0 := v <| v_b := _ |>).
  eapply pstep_trans; [|apply vote_server_step].
  destruct (v_lbbank v0 =? ppi_bbank ppi); [apply pstep_refl|]. exact (close_votes_step set v0).
Qed.

Lemma vote_loop_step e set txs v :
  pstep v.(v_b).(b_s) (vote_loop e set v txs).(v_b).(b_s) /\ b_update (vote_loop e set v txs).(v_b) = b_update v.(v_b).
Proof.
  unfold vote_loop.
  assert (Hl : forall l v, let v' := foldl (fun v '(ppi, status) => vote e set v ppi status) v l in
                           pstep v.(v_b).(b_s) v'.(v_b).(b_s) /\ b_update v'.(v_b) = b_update v.(v_b)).
  { induction l as [|[ppi st] l IH]; intros w; cbn [foldl]; [auto using pstep_refl|].
    destruct (vote_step e set w ppi st) as [P1 E1]. destruct (IH (vote e set w ppi st)) as [P2 E2].
    split; [eapply pstep_trans; eassumption|congruence]. }
  destruct (Hl (rev txs) v) as [P E]. set (v' := foldl _ v _) in *. clearbody v'.
  destruct (v_lbbank v' =? 0); [auto|]. split; [|exact E].
  eapply pstep_trans; [exact P|apply close_votes_step].
Qed.

Lemma commit_status_step e b :
  pstep b.(b_s) (commit_status e b).(b_s) /\ b_update (commit_status e b) = b_update b.
Proof.
  unfold commit_status.
  assert (Hl : forall l b, let b' := foldl (fun b '(ppi, node) => reset_dbl e b ppi node) b l in
                           pstep b.(b_s) b'.(b_s) /\ b_update b' = b_update b).
  { induction l as [|[ppi nd] l IH]; intros w; cbn [foldl]; [auto using pstep_refl|].
    destruct (reset_dbl_step e w ppi nd) as [P1 E1]. destruct (IH (reset_dbl e w ppi nd)) as [P2 E2].
    split; [eapply pstep_trans; eassumption|congruence]. }
  destruct (Hl (elems (blk_bky (b_s b))) b) as [P1 E1]. set (b1 := foldl _ b _) in *. clearbody b1. clear Hl.
  set (b2 := b1 <| b_s ::= _ |>). assert (P2 : pstep b1.(b_s) b2.(b_s)) by now apply fields_pstep.
  set (v0 := {| v_b := b2 |}).
  destruct (vote_loop_step e true (elems (blk_sbs (b_s b2))) v0) as [P3 E3].
  set (v1 := vote_loop e true _ _) in *.
  destruct (vote_loop_step e false (elems (blk_ubs (b_s b2))) v1) as [P4 E4]. set (v2 := vote_loop e false _ _) in *.
  split; [|cbn; rewrite E4, E3; exact E1].
  eapply pstep_trans; [exact P1|]. eapply pstep_trans; [exact P2|]. eapply pstep_trans; [exact P3|].
  eapply pstep_trans; [exact P4|]. now apply fields_pstep.
Qed.
(** * New banks *)

Lemma fsum_one f : fsum f 1 = f 0.
Proof. unfold fsum. assert (uids 1 = [0]) as -> by reflexivity. apply Z.add_0_r. Qed.
Lemma fxor_one f : fxor f 1 = f 0.
Proof. unfold fxor. assert (uids 1 = [0]) as -> by reflexivity. apply Z.lxor_0_r. Qed.

(** The nodes and accounts after [add_node]. *)
Lemma add_node_spec s ou s' peer :
  0 <= nodes_of s < 2 ^ 16 -> add_node s ou = (s', peer) ->
  let nu := init_user (cur_node s 0).(n_msha) peer 0 (BANK_MIN_UMASS + BANK_MIN_TMASS) ou.(u_pkey) s.(srvs_).(sv_now) in
  peer = nodes_of s /\ nodes_of s' = nodes_of s + 1 /\
  (forall j, 0 <= j < nodes_of s -> cur_node s' j = cur_node s j) /\
  n_users (cur_node s' peer) = 1 /\ n_weight (cur_node s' peer) = u_weight nu /\ n_hash (cur_node s' peer) = u_csum nu /\
  usr_ s' = write_user s.(usr_) peer 0 nu /\ deposit s' = deposit s /\ sv_div (srvs_ s') = sv_div (srvs_ s) /\
  blk_get s' = blk_get s.
Proof.
  intros Hn E. unfold add_node in E. rewrite u16_small in E by exact Hn.
  set (nn := _ <| n_msha := _ |>) in E. set (s1 := s <| srvs_ ::= _ |>) in E.
  set (nu := init_user _ _ _ _ _ _) in E. set (s2 := put_user s1 nu _ 0) in E.
  injection E as <- <-. intros nu'. change nu' with nu.
  assert (N1 : nodes_of s1 = nodes_of s + 1).
  { unfold nodes_of, n_nodes, s1. cbn. rewrite length_app. cbn. lia. }
  assert (C1 : forall j, 0 <= j -> cur_node s1 j = if decide (j = nodes_of s) then nn else cur_node s j).
  { intros j Hj. unfold cur_node, nth_node, s1, nodes_of, n_nodes in *. cbn. rewrite !list_lookup_total_alt.
    destruct (decide (j = _)) as [->|Hne].
    - rewrite Nat2Z.id, lookup_app_r, Nat.sub_diag by lia. reflexivity.
    - destruct (decide (Z.to_nat j < length (sv_nodes (srvs_ s)))%nat) as [Hl|Hl].
      + rewrite lookup_app_l by assumption. reflexivity.
      + rewrite !lookup_ge_None_2; [reflexivity|..]; rewrite ?length_app; cbn [length]; lia. }
  assert (C2 : forall j, 0 <= j -> cur_node s2 j =
                 if decide (j = nodes_of s) then put_user_node (cur_node s1 (nodes_of s)) 0 else cur_node s1 j).
  { intros j Hj. unfold s2, put_user.
    set (s1' := s1 <| usr_ ::= _ |>). change (cur_node s1 (nodes_of s)) with (cur_node s1' (nodes_of s)).
    change (cur_node s1 j) with (cur_node s1' j). apply cur_put; [|assumption].
    split; [lia|]. change (nodes_of s < nodes_of s1). lia. }
  assert (N2 : nodes_of s2 = nodes_of s1).
  { unfold nodes_of, n_nodes, s2, put_user. now rewrite length_put. }
  fold (nodes_of s) in *.
  assert (Hin : 0 <= nodes_of s < n_nodes (srvs_ s2)) by (fold (nodes_of s2); lia).
  assert (Hp : cur_node s2 (nodes_of s) = put_user_node nn 0).
  { rewrite C2, decide_True, C1, decide_True by (reflexivity || lia). reflexivity. }
  split_and!; try reflexivity.
  - unfold nodes_of at 1, n_nodes. rewrite length_put. exact (eq_trans N2 N1).
  - intros j Hj. rewrite cur_put, decide_False by lia. rewrite C2, decide_False, C1, decide_False by lia. reflexivity.
  - rewrite cur_put, decide_True by (assumption || lia). rewrite Hp. reflexivity.
  - rewrite cur_put, decide_True by (assumption || lia). reflexivity.
  - rewrite cur_put, decide_True by (assumption || lia). reflexivity.
Qed.

Lemma add_node_step s ou s' peer :
  0 <= nodes_of s < 2 ^ 16 -> add_node s ou = (s', peer) -> bstep s s' /\ peer = nodes_of s /\ nodes_of s' = nodes_of s + 1.
Proof.
  intros Hn E. pose proof (add_node_spec s ou s' peer Hn E) as (Ep & En & Ec & Eu & Ew & Eh & Ed & Edp & Edv & _).
  set (nu := init_user _ _ _ _ _ _) in *.
  assert (G : grows s s').
  { split; [lia| |assumption]. intros j Hj. rewrite Ec by lia. lia. }
  split; [|auto]. split; [exact G|]. intros [W D V P].
  assert (Hsame : forall j, 0 <= j < nodes_of s -> same_bank s s' j).
  { intros j Hj. unfold same_bank. rewrite Ec by assumption. split_and!; auto; [|intros n; rewrite Ed; apply long_file_write].
    intros uid. rewrite Ed, bank_of_write, decide_False by lia. reflexivity. }
  assert (Hd0 : forall uid, 0 <= uid < 1 -> get_user (bank_of (usr_ s') peer) uid = nu).
  { intros uid Hu. rewrite Ed, bank_of_write, decide_True, get_user_insert, decide_True by (reflexivity || lia). reflexivity. }
  split.
  - intros j Hj. rewrite En in Hj. destruct (decide (j = peer)) as [->|Hne].
    + apply bank_off_wf. split; rewrite ?Eu.
      * rewrite Ew, bank_sum_fsum, fsum_one, Hd0 by lia. apply eqm_eq. lia.
      * rewrite Eh, bank_xor_fxor, fxor_one, Hd0 by lia. reflexivity.
      * rewrite Ew. vm_compute. split; congruence.
      * lia.
      * rewrite Ed. now apply long_file_new.
      * intros uid Hu. rewrite Hd0 by assumption. vm_compute. split; congruence.
      * intros uid Hu. rewrite Hd0 by assumption. replace uid with 0 by lia. reflexivity.
    + eapply bank_wf_same; [apply Hsame; lia|]. apply W. lia.
  - now apply (deposit_ok_grows s).
  - now rewrite Edv.
  - intros j Hj. rewrite En in Hj. destruct (decide (j = peer)) as [->|Hne]; [lia|]. rewrite Ec by lia. apply P. lia.
Qed.
(** The banks that are to be checked exist. *)
Record b_ok (s : server) (up : gset Z) : Prop := {
  bk_nodes : 1 <= nodes_of s < 2 ^ 16;
  bk_up : forall i, i ∈ up -> 1 <= i < nodes_of s
}.

Lemma b_ok_same s s' up : nodes_of s' = nodes_of s -> b_ok s up -> b_ok s' up.
Proof. intros E []. split; now rewrite E. Qed.
Lemma b_ok_add s up i : 1 <= i < nodes_of s -> b_ok s up -> b_ok s ({[i]} ∪ up).
Proof. intros Hi []. split; [assumption|]. intros k Hk. apply elem_of_union in Hk as [->%elem_of_singleton|Hk]; auto. Qed.

Lemma resize_fee_step s : bstep s (resize_fee s).
Proof. now apply fields_bstep. Qed.

Lemma create_bank_step e b ppi auser b' free' :
  acct b.(b_s) (ppi_abank ppi) auser -> b_ok b.(b_s) b.(b_update) ->
  create_bank e b [] ppi auser = Some (b', free') ->
  bstep b.(b_s) b'.(b_s) /\ free' = [] /\ b_ok b'.(b_s) b'.(b_update) /\ blk_get b'.(b_s) = blk_get b.(b_s).
Proof.
  intros Ha Hk E. unfold create_bank in E. destruct (read_user _ _) as [u|]; [cbn [mbind option_bind] in E|discriminate]. pose proof (bk_nodes _ _ Hk) as Hn.
  assert (Hn0 : 0 <= nodes_of (b_s b) < 2 ^ 16) by lia.
  destruct (Z.ltb_spec (n_nodes (srvs_ (b_s b))) (BANK_MAX - 1)) as [Hlt|Hge].
  - destruct (add_node (b_s b) _) as [s' peer] eqn:En.
    pose proof (add_node_spec _ _ _ _ Hn0 En) as (_ & _ & _ & _ & _ & _ & _ & _ & _ & Eg).
    apply add_node_step in En as (St & Ep & Enn); [|exact Hn0].
    injection E as <- <-. rewrite b_s_hlog, b_s_if, b_s_log.
    change (b_update (add_hlog ?x _)) with (b_update x). rewrite b_up_if.
    change (b_update (add_log ?x _ _)) with (b_update x).
    assert (Es : forall (c : bool) (x : server), (if c then x else x) = x) by now intros [].
    assert (Eup : forall (c : bool) (x : gset Z), (if c then x else x) = x) by now intros [].
    rewrite !Es, !Eup. cbn [b_s b_update].
    split_and!; [eapply bstep_trans; [exact St|apply resize_fee_step]|reflexivity| |exact Eg].
    apply (b_ok_same s'); [reflexivity|]. apply b_ok_add; [lia|].
    fold (nodes_of (b_s b)) in Hlt. unfold BANK_MAX in Hlt.
    split; [lia|]. intros i Hi. apply (bk_up _ _ Hk) in Hi. lia.
  - injection E as <- <-.
    split_and!; [|reflexivity| |]; rewrite ?b_s_hlog, ?b_s_if, ?b_s_log.
    + destruct (_ =? _); now apply add_deposit_bstep.
    + change (b_update (add_hlog ?x _)) with (b_update x). apply (b_ok_same b.(b_s)); destruct (_ =? _); try reflexivity; exact Hk.
    + now destruct (_ =? _).
Qed.

Lemma create_banks_step e txs b b' :
  Forall (fun p : Z * Z => acct b.(b_s) (ppi_abank p.1) p.2) txs -> b_ok b.(b_s) b.(b_update) ->
  create_banks e b [] txs = Some b' ->
  bstep b.(b_s) b'.(b_s) /\ b_ok b'.(b_s) b'.(b_update) /\ blk_get b'.(b_s) = blk_get b.(b_s).
Proof.
  revert b; induction txs as [|[ppi auser] txs IH]; intros b Ht Hk E; cbn [create_banks] in E.
  - simplify_eq. auto using bstep_refl.
  - inversion Ht as [|? ? Ha Hr]; subst. inv_opt.
    apply create_bank_step in E0 as (St & -> & Hk1 & Eg); [|assumption..].
    apply IH in E as (St2 & Hk2 & Eg2); [|eapply Forall_impl; [exact Hr|]; intros p Hp; eapply acct_grows; [apply St|exact Hp]|assumption].
    split_and!; [eapply bstep_trans; eassumption|assumption|congruence].
Qed.

(** No bank is open for a takeover. *)
Definition no_dead_bank (s : server) : Prop :=
  forall j, 1 <= j < nodes_of s -> dead_bank s.(srvs_).(sv_now) (cur_node s j) = false.

Lemma no_dead_new_bnk s : no_dead_bank s -> new_bnk s = [].
Proof.
  intros Hd. unfold new_bnk.
  assert (Hf : filter (fun p : Z * node => dead_bank (sv_now (srvs_ s)) p.2 = true)
                 (zip (seqZ 0 (n_nodes (srvs_ s) - 1)) (drop 1 (sv_nodes (srvs_ s)))) = []).
  { apply elem_of_nil_inv. intros [p n] Hp. apply list_elem_of_filter in Hp as [Hb Hp]. cbn in Hb.
    apply elem_of_zip_r in Hp. cbn in Hp. apply list_elem_of_lookup in Hp as [i Hi]. rewrite lookup_drop in Hi.
    assert (Hl : (1 + i < length (sv_nodes (srvs_ s)))%nat) by (apply lookup_lt_Some in Hi; exact Hi).
    specialize (Hd (Z.of_nat (1 + i))). unfold cur_node, nth_node in Hd. rewrite Nat2Z.id in Hd.
    rewrite (list_lookup_total_correct _ _ _ Hi) in Hd. rewrite Hd in Hb; [discriminate|].
    unfold nodes_of, n_nodes. lia. }
  now rewrite Hf.
Qed.

Lemma no_dead_quiet s s' : quiet s s' -> no_dead_bank s -> no_dead_bank s'.
Proof.
  intros [Qn Qs _ Qw Qm] Hd j Hj. rewrite Qn in Hj. specialize (Hd j Hj).
  destruct (Qs j ltac:(lia)) as (Ew & _). unfold dead_bank in *. now rewrite Qw, Qm, Ew by lia.
Qed.

Lemma commit_new_banks_step e b b' :
  Forall (fun p : Z * Z => acct b.(b_s) (ppi_abank p.1) p.2) (elems b.(b_s).(blk_bnk)) ->
  no_dead_bank b.(b_s) \/ blk_bnk b.(b_s) = ∅ -> b_ok b.(b_s) b.(b_update) -> commit_new_banks e b = Some b' ->
  bstep b.(b_s) b'.(b_s) /\ b_ok b'.(b_s) b'.(b_update) /\ blk_get b'.(b_s) = blk_get b.(b_s).
Proof.
  intros Ht Hd Hk E. unfold commit_new_banks in E. inv_opt. subst b'.
  assert (Hc : bstep b.(b_s) b0.(b_s) /\ b_ok b0.(b_s) b0.(b_update) /\ blk_get b0.(b_s) = blk_get b.(b_s)).
  { destruct Hd as [Hd|Hd].
    - rewrite no_dead_new_bnk in E0 by assumption. eapply create_banks_step; eassumption.
    - rewrite Hd in E0. change (elems ∅) with (@nil (Z * Z)) in E0. cbn in E0. simplify_eq. auto using bstep_refl. }
  destruct Hc as (St & Hk' & Eg). split_and!; [eapply bstep_trans; [exact St|now apply fields_bstep]|now apply (b_ok_same b0.(b_s))|exact Eg].
Qed.
(** * Changes of one account *)

(** The dividend of an account in good order. *)
Lemma dividend_ok s svid uid fee u fee' div :
  binv s -> acct s svid uid -> dividend s (get_user (bank_of s.(usr_) svid) uid) fee = (u, fee', div) ->
  wrange u /\ u_csum u = u_csum (get_user (bank_of s.(usr_) svid) uid) /\
  forall w, add_div div w ≡64 w + (u_weight u - u_weight (get_user (bank_of s.(usr_) svid) uid)).
Proof.
  intros I (Hb & _ & Hu & _) E. apply dividend_weight in E as (R & C & _ & W); auto.
  - exact (bi_div _ I).
  - exact (bw_range _ _ (bi_wf _ I svid Hb) uid Hu).
Qed.

(** The value added for a dividend, zero for none. *)
Definition div_value (div : Z) : Z := if div =? NODIV then 0 else div.

Lemma div_value_eqm div (d : Z) : (forall w, add_div div w ≡64 w + d) -> div_value div ≡64 d.
Proof.
  intros E. specialize (E 0). unfold add_div, div_value in *. destruct (div =? NODIV).
  - rewrite E. apply eqm_eq. lia.
  - rewrite i64_eqm in E. rewrite <- (Z.add_0_l div), E. apply eqm_eq. lia.
Qed.

(** The pair of updates, weight first or record first. *)
Lemma off_weight_then_record s svid uid w u' :
  0 <= svid < nodes_of s -> 0 <= uid < n_users (cur_node s svid) -> wrange u' -> bank_off s svid 0 ->
  w ≡64 u_weight u' - u_weight (get_user (bank_of s.(usr_) svid) uid) ->
  bank_off (rewrite_user (add_weight s svid w) svid uid (get_user (bank_of s.(usr_) svid) uid) u') svid 0.
Proof.
  intros Hin Hu Hr Ho Hw. set (s1 := add_weight s svid w).
  assert (H1 : bank_off s1 svid (0 - w)) by now apply off_add_weight.
  assert (Hin1 : 0 <= svid < n_nodes (srvs_ s1)).
  { unfold n_nodes, s1, add_weight. rewrite length_put. exact Hin. }
  assert (Hu1 : 0 <= uid < n_users (cur_node s1 svid)).
  { unfold s1. rewrite cur_add_weight, decide_True by (assumption || reflexivity || lia). exact Hu. }
  eapply bank_off_eqm; [|exact (off_rewrite_user s1 svid uid u' _ Hin1 Hu1 Hr H1)].
  change (usr_ s1) with (usr_ s). rewrite Hw. apply eqm_eq. lia.
Qed.

Lemma off_record_then_weight s svid uid w u' :
  0 <= svid < nodes_of s -> 0 <= uid < n_users (cur_node s svid) -> wrange u' -> bank_off s svid 0 ->
  w ≡64 u_weight u' - u_weight (get_user (bank_of s.(usr_) svid) uid) ->
  bank_off (add_weight (rewrite_user s svid uid (get_user (bank_of s.(usr_) svid) uid) u') svid w) svid 0.
Proof.
  intros Hin Hu Hr Ho Hw. set (s1 := rewrite_user _ _ _ _ _).
  assert (H1 := off_rewrite_user s svid uid u' 0 Hin Hu Hr Ho). fold s1 in H1.
  assert (Hin1 : 0 <= svid < n_nodes (srvs_ s1)).
  { unfold n_nodes, s1, rewrite_user. cbn. rewrite length_insert. exact Hin. }
  eapply bank_off_eqm; [|exact (off_add_weight s1 svid w _ Hin1 H1)]. rewrite Hw. apply eqm_eq. lia.
Qed.

(** The frame of a pair. *)
Record pair_frame (s s' : server) (svid : Z) : Prop := {
  pf_nodes : nodes_of s' = nodes_of s;
  pf_same : forall j, 0 <= j -> j <> svid -> same_bank s s' j;
  pf_users : n_users (cur_node s' svid) = n_users (cur_node s svid);
  pf_div : sv_div (srvs_ s') = sv_div (srvs_ s)
}.

Lemma pair_frame_trans s s' s'' svid : pair_frame s s' svid -> pair_frame s' s'' svid -> pair_frame s s'' svid.
Proof. intros [A B C D] [A' B' C' D']. split; try congruence. intros j Hj Hn. eapply same_bank_trans; eauto. Qed.

Lemma pair_frame_fields s s' svid : usr_ s' = usr_ s -> srvs_ s' = srvs_ s -> pair_frame s s' svid.
Proof. intros Eu Es. split; unfold nodes_of, same_bank, cur_node; rewrite ?Es, ?Eu; auto. Qed.

Lemma pair_frame_weight s svid w : 0 <= svid < nodes_of s -> pair_frame s (add_weight s svid w) svid.
Proof.
  intros Hin. split; [| |rewrite cur_add_weight, decide_True by (assumption || reflexivity || lia); reflexivity|reflexivity].
  - unfold nodes_of, n_nodes, add_weight. now rewrite length_put.
  - intros j Hj Hn. now apply same_add_weight.
Qed.

Lemma pair_frame_record s svid uid old u' : 0 <= svid < nodes_of s -> pair_frame s (rewrite_user s svid uid old u') svid.
Proof.
  intros Hin. split; [| |rewrite cur_rewrite_user, decide_True by (assumption || reflexivity || lia); reflexivity|reflexivity].
  - unfold nodes_of, n_nodes, rewrite_user. cbn. now rewrite length_insert.
  - intros j Hj Hn. now apply same_rewrite_user.
Qed.

Lemma bank_off_fields s s' svid d : usr_ s' = usr_ s -> srvs_ s' = srvs_ s -> bank_off s svid d -> bank_off s' svid d.
Proof.
  intros Eu Es. apply bank_off_same. unfold same_bank, cur_node. rewrite Es, Eu. now split_and!.
Qed.
(** An account and the weight of its bank change alike. *)
Lemma account_bstep s s' svid uid :
  acct s svid uid -> pair_frame s s' svid ->
  (forall k d, deposit s' !! k = Some d -> is_Some (deposit s !! k)) ->
  (binv s -> bank_off s' svid 0) -> bstep s s'.
Proof.
  intros Ha [En Hs Eu Ed] Hd Hw. apply (bank_bstep s s' svid); auto; [apply Ha|].
  intros I. now apply bank_off_wf, Hw.
Qed.

(** The account a step works on was read from its file. *)
Ltac open_read E :=
  let Er := fresh in
  destruct (read_user _ _) eqn:Er in E; [apply read_user_Some in Er; subst|discriminate E].

(** * Deposits *)

Lemma credit_step e s svid user k d myput s' old myput' :
  acct s svid user -> credit e s svid user k d myput = Some (s', old, myput') -> bstep s s'.
Proof.
  intros Ha E. unfold credit in E. open_read E. pose proof Ha as (Hb & _ & Hu & _).
  destruct (dividend s (get_user (bank_of (usr_ s) svid) user) 0) as [[u fee] div] eqn:Ed.
  set (s1 := bank_fee_add s svid (BANK_PROFIT fee)) in E.
  set (s2 := if svid =? e_svid e then s1 <| mydiv_fee ::= _ |> else s1) in E.
  assert (F2 : usr_ s2 = usr_ s /\ srvs_ s2 = srvs_ s /\ deposit s2 = deposit s) by (unfold s2; destruct (_ =? _); auto).
  clearbody s2. clear s1.
  destruct (if quiet_deposit k then _ else _) as [s3 mp] eqn:E3.
  assert (F3 : usr_ s3 = usr_ s /\ srvs_ s3 = srvs_ s /\ deposit s3 = deposit s).
  { destruct (quiet_deposit k); injection E3 as <- <-; exact F2. }
  clear E3 F2. set (u' := _ <| u_rpath := _ |>) in E.
  set (s4 := if _ && _ then emit s3 _ else s3) in E.
  assert (F4 : usr_ s4 = usr_ s /\ srvs_ s4 = srvs_ s /\ deposit s4 = deposit s) by (unfold s4; destruct (_ && _); exact F3).
  clearbody s4. destruct F4 as (Eu & Es & Edp). injection E as <- <- <-.
  change (if div =? NODIV then 0 else div) with (div_value div).
  assert (Hin : 0 <= svid < nodes_of s4) by (unfold nodes_of; rewrite Es; fold (nodes_of s); lia).
  apply (account_bstep s _ svid user Ha).
  - eapply pair_frame_trans; [now apply (pair_frame_fields s s4)|].
    eapply pair_frame_trans; [now apply pair_frame_record|]. apply pair_frame_weight.
    destruct (pair_frame_record s4 svid user (get_user (bank_of (usr_ s) svid) user) u' Hin) as [-> _ _ _]. exact Hin.
  - intros j x Hj. change (deposit s4 !! j = Some x) in Hj. rewrite Edp in Hj. eauto.
  - intros I. apply dividend_ok in Ed as (R & _ & W); [|assumption..]. apply div_value_eqm in W.
    rewrite <- Eu. apply off_record_then_weight; [exact Hin| | | |].
    + unfold cur_node. rewrite Es. exact Hu.
    + apply i64_range.
    + apply (bank_off_fields s); [assumption..|]. apply bank_off_wf, (bi_wf _ I svid Hb).
    + rewrite Eu. cbn. rewrite !i64_eqm, W. apply eqm_eq. lia.
Qed.

Lemma save_undo_step s svid undo s' :
  0 <= svid < nodes_of s -> binv s -> server_save_undo s svid undo 0 = Some s' ->
  bstep s s' /\ nodes_of s' = nodes_of s /\ deposit s' = deposit s /\ blk_get s' = blk_get s /\
  (forall j, 1 <= j -> same_bank s s' j).
Proof.
  intros Hin I E. assert (Q : quiet s s').
  { eapply quiet_save_undo; [exact Hin| |exact E]. intros Hs. pose proof (bi_pos _ I svid). lia. }
  unfold server_save_undo in E. inv_opt. subst s'.
  split_and!; [now apply quiet_bstep|exact (qu_nodes _ _ Q)|reflexivity|reflexivity|exact (qu_same _ _ Q)].
Qed.

(** What the loops over accounts carry along. *)
Record carry (s s' : server) (up : gset Z) (svid : Z) : Prop := {
  ca_step : bstep s s';
  ca_ok : b_ok s' up;
  ca_nodes : nodes_of s' = nodes_of s;
  ca_svid : 0 <= svid < nodes_of s'
}.

Lemma carry_trans s s' s'' up svid up' svid' : carry s s' up svid -> carry s' s'' up' svid' -> carry s s'' up' svid'.
Proof. intros [A B C D] [A' B' C' D']. split; [eapply bstep_trans; eassumption|assumption|congruence|assumption]. Qed.

Lemma credit_nodes e s svid user k d myput s' old myput' :
  0 <= svid < nodes_of s -> credit e s svid user k d myput = Some (s', old, myput') -> nodes_of s' = nodes_of s.
Proof.
  intros Hin E. unfold credit in E. open_read E. destruct (dividend _ _ _) as [[u fee] div].
  destruct (if quiet_deposit k then _ else _) as [s3 mp] eqn:E3. injection E as <- <- <-.
  unfold nodes_of, n_nodes, add_weight, rewrite_user. rewrite length_put. cbn. rewrite length_insert.
  destruct (_ && _); destruct (quiet_deposit k); injection E3 as <- <-; destruct (svid =? _); reflexivity.
Qed.

Lemma deposit_loop_step e l s up lastsvid undo myput s' up' last' undo' myput' :
  (forall k d, (k, d) ∈ l -> acct s (key_bank k) (key_user k)) -> b_ok s up -> binv s -> 0 <= lastsvid < nodes_of s ->
  deposit_loop e s up lastsvid undo myput l = Some (s', up', last', undo', myput') -> carry s s' up' last'.
Proof.
  revert s up lastsvid undo myput; induction l as [|[k d] l IH]; intros s up lastsvid undo myput Hl Hk I Hls E;
    cbn [deposit_loop] in E.
  { simplify_eq. now split; auto using bstep_refl. }
  destruct (d =? 0); [eapply IH; eauto; intros k' d' Hin; eapply Hl; right; exact Hin|].
  fold (key_user k) (key_bank k) in E. inv_opt.
  assert (Ha : acct s (key_bank k) (key_user k)) by (eapply Hl; left).
  rename E2 into Ec. assert (C0 : carry s s0 g0 (key_bank k)).
  { destruct (Z.eqb_spec (key_bank k) lastsvid) as [El|]; [simplify_eq; now split; auto using bstep_refl|].
    inv_opt. subst. apply save_undo_step in E2 as (St & En & _ & _ & _); [|assumption..].
    pose proof Ha as (Hb & _). split; [exact St| |exact En|lia].
    apply b_ok_add; [lia|]. now apply (b_ok_same s). }
  pose proof (acct_grows _ _ _ _ (proj1 (ca_step _ _ _ _ C0)) Ha) as Ha0.
  pose proof (credit_step _ _ _ _ _ _ _ _ _ _ Ha0 Ec) as St1.
  pose proof (credit_nodes _ _ _ _ _ _ _ _ _ _ (ca_svid _ _ _ _ C0) Ec) as En1.
  assert (C1 : carry s0 s1 g0 (key_bank k)).
  { split; [exact St1|apply (b_ok_same s0); [exact En1|apply C0]|exact En1|rewrite En1; apply C0]. }
  assert (C2 : carry s s1 g0 (key_bank k)) by (eapply carry_trans; eassumption).
  eapply carry_trans; [exact C2|].
  eapply IH; [|apply C2|apply (proj2 (ca_step _ _ _ _ C2)), I|apply C2|exact E].
  intros k' d' Hin. eapply acct_grows; [apply (ca_step _ _ _ _ C2)|]. eapply Hl. right. exact Hin.
Qed.

Lemma commit_deposit_step e s up myput s' up' myput' :
  b_ok s up -> binv s -> commit_deposit e s up myput = Some (s', up', myput') -> bstep s s' /\ b_ok s' up' /\ nodes_of s' = nodes_of s.
Proof.
  intros Hk I E. unfold commit_deposit in E. inv_opt.
  apply deposit_loop_step in E0; [|intros k d Hin; apply elem_of_elems in Hin; exact (bi_dep _ I k d Hin)|assumption..|
                                  split; [lia|pose proof (bk_nodes _ _ Hk); lia]].
  rename s1 into s2. rename s0 into s1. subst. destruct E0 as [St Hk' En Hsv].
  assert (C : bstep s1 s2 /\ nodes_of s2 = nodes_of s1).
  { destruct (_ =? 0); [simplify_eq; auto using bstep_refl|].
    apply save_undo_step in E1 as (St1 & En1 & _); [auto|exact Hsv|now apply St]. }
  destruct C as [St2 En2].
  assert (Q : quiet s2 (s2 <| deposit := ∅ |>)) by now apply quiet_fields.
  split_and!; [|now apply (b_ok_same s1)|exact (eq_trans En2 En)].
  eapply bstep_trans; [exact St|]. eapply bstep_trans; [exact St2|].
  split; [now apply quiet_grows|]. intros [W D V P].
  split; [now apply (quiet_all_wf s2)| |exact V|exact P]. intros k d Hkd. change ((∅ : gmap Z Z) !! k = Some d) in Hkd. now rewrite lookup_empty in Hkd.
Qed.
(** * Dividends *)

Lemma credit_deposit_spec e s svid user u div myput s' u' div' myput' :
  credit_deposit e s svid user u div myput = (s', u', div', myput') ->
  usr_ s' = usr_ s /\ srvs_ s' = srvs_ s /\ (forall k d, deposit s' !! k = Some d -> is_Some (deposit s !! k)) /\
  (wrange u -> wrange u') /\ div' - u_weight u' ≡64 div - u_weight u.
Proof.
  unfold credit_deposit. intros E. destruct (deposit s !! dep_key svid user) as [d|] eqn:Ed.
  - injection E as <- <- <- <-. split_and!.
    + now destruct (_ && _).
    + now destruct (_ && _).
    + intros k x Hk. assert (Hk' : <[dep_key svid user := 0]> (deposit s) !! k = Some x) by (destruct (_ && _); exact Hk).
      destruct (decide (dep_key svid user = k)) as [<-|Hn]; [eauto|]. rewrite lookup_insert_ne in Hk' by assumption. eauto.
    + intros _. apply i64_range.
    + cbn. rewrite !i64_eqm. apply eqm_eq. lia.
  - injection E as <- <- <- <-. split_and!; eauto. reflexivity.
Qed.

Lemma maybe_delete_spec e s svid user u s' u' :
  maybe_delete e s svid user u = (s', u') ->
  usr_ s' = usr_ s /\ srvs_ s' = srvs_ s /\ deposit s' = deposit s /\ u_weight u' = u_weight u.
Proof.
  unfold maybe_delete. intros E. destruct (_ && _); injection E as <- <-; [|auto].
  destruct (_ && _); now split_and!.
Qed.

Lemma div_user_step e svid s undo myput user s' undo' myput' :
  acct s svid user -> div_user e svid s undo myput user = Some (s', undo', myput') -> bstep s s' /\ nodes_of s' = nodes_of s.
Proof.
  intros Ha E. unfold div_user in E. open_read E. pose proof Ha as (Hb & _ & Hu & _).
  set (old := get_user (bank_of (usr_ s) svid) user) in *.
  destruct (u_msid old =? 0); [discriminate|].
  destruct (dividend s old 0) as [[u fee] div] eqn:Ed.
  set (s1 := bank_fee_add s svid (BANK_PROFIT fee)) in E.
  set (s2 := if svid =? e_svid e then s1 <| mydiv_fee ::= _ |> else s1) in E.
  assert (F2 : usr_ s2 = usr_ s /\ srvs_ s2 = srvs_ s /\ deposit s2 = deposit s) by (unfold s2; destruct (_ =? _); auto).
  destruct F2 as (Eu2 & Es2 & Ed2). clearbody s2.
  destruct (negb _ || _); [|simplify_eq; split; [now apply fields_bstep|unfold nodes_of; now rewrite Es2]].
  change (if div =? NODIV then 0 else div) with (div_value div) in E.
  destruct (credit_deposit e s2 svid user u (div_value div) myput) as [[[s3 u3] div3] mp3] eqn:E3.
  apply credit_deposit_spec in E3 as (Eu3 & Es3 & Ed3 & R3 & W3).
  destruct (maybe_delete e s3 svid user u3) as [s4 u4] eqn:E4.
  apply maybe_delete_spec in E4 as (Eu4 & Es4 & Ed4 & W4). simplify_eq.
  assert (Eu : usr_ s4 = usr_ s) by congruence. assert (Es : srvs_ s4 = srvs_ s) by congruence.
  assert (Hin : 0 <= svid < nodes_of s4) by (unfold nodes_of; rewrite Es; fold (nodes_of s); lia).
  assert (F : pair_frame s (add_weight (rewrite_user s4 svid user old u4) svid div3) svid).
  { eapply pair_frame_trans; [now apply (pair_frame_fields s s4)|].
    eapply pair_frame_trans; [now apply pair_frame_record|]. apply pair_frame_weight.
    destruct (pair_frame_record s4 svid user old u4 Hin) as [-> _ _ _]. exact Hin. }
  split; [|exact (pf_nodes _ _ _ F)].
  apply (account_bstep s _ svid user Ha F).
  - intros j x Hj. change (deposit s4 !! j = Some x) in Hj. rewrite Ed4 in Hj. apply Ed3 in Hj. now rewrite Ed2 in Hj.
  - intros I. apply dividend_ok in Ed as (R & _ & W); [|assumption..]. apply div_value_eqm in W. fold old in W.
    unfold old. rewrite <- Eu. apply off_record_then_weight; [exact Hin| | | |].
    + unfold cur_node. rewrite Es. exact Hu.
    + unfold wrange. rewrite W4. now apply R3.
    + apply (bank_off_fields s); [assumption..|]. apply bank_off_wf, (bi_wf _ I svid Hb).
    + rewrite Eu, W4. fold old.
      transitivity (div_value div - u_weight u + u_weight u3); [rewrite <- W3; apply eqm_eq; lia|].
      rewrite W. apply eqm_eq. lia.
Qed.

Lemma div_loop_step e svid ids s undo myput s' undo' myput' :
  Forall (acct s svid) ids -> div_loop e svid s undo myput ids = Some (s', undo', myput') ->
  bstep s s' /\ nodes_of s' = nodes_of s.
Proof.
  revert s undo myput; induction ids as [|user ids IH]; intros s undo myput Hi E; cbn [div_loop] in E.
  - simplify_eq. auto using bstep_refl.
  - inversion Hi as [|? ? Ha Hr]; subst. inv_opt.
    apply div_user_step in E0 as [St En]; [|assumption].
    apply IH in E as [St2 En2]; [|eapply Forall_impl; [exact Hr|]; intros i; apply acct_grows, St].
    split; [eapply bstep_trans; eassumption|congruence].
Qed.

(** The accounts visited exist. *)
Lemma div_users_bound fuel user uend u : 0 <= user -> u ∈ div_users fuel user uend -> 0 <= u < uend.
Proof.
  revert user; induction fuel as [|fuel IH]; intros user Hu Hin; cbn [div_users] in Hin; [now apply elem_of_nil in Hin|].
  destruct (Z.leb_spec uend user); [now apply elem_of_nil in Hin|].
  apply elem_of_app in Hin as [Hin|Hin].
  - apply elem_of_seqZ in Hin. lia.
  - eapply IH; [|exact Hin]. change (segment * div_period) with 32768. lia.
Qed.

Lemma div_bank_step e s up myput svid s' up' myput' :
  1 <= svid < nodes_of s -> b_ok s up -> binv s ->
  div_bank e s up myput svid = Some (s', up', myput') -> bstep s s' /\ b_ok s' up' /\ nodes_of s' = nodes_of s.
Proof.
  intros Hsv Hk I E. unfold div_bank in E.
  destruct (n_users _ <=? _); [simplify_eq; auto using bstep_refl|]. inv_opt.
  assert (Ha : Forall (acct s svid) (bank_div_users s svid)).
  { apply Forall_forall. intros u Hu. unfold bank_div_users in Hu. apply div_users_bound in Hu.
    - pose proof (bk_nodes _ _ Hk). pose proof (bi_pos _ I svid Hsv). split_and!; lia.
    - unfold first_div_user. change div_period with 1024. unfold segment. Z.to_euclidean_division_equations. lia. }
  apply div_loop_step in E0 as [St En]; [|exact Ha].
  apply save_undo_step in E1 as (St2 & En2 & _); [|lia|now apply St]. simplify_eq.
  split_and!; [eapply bstep_trans; eassumption| |congruence].
  apply (b_ok_same s); [congruence|]. now apply b_ok_add.
Qed.

(** What each commit shows: a step, the banks to check exist, no new bank. *)
Definition cstep (s s' : server) (up' : gset Z) : Prop := bstep s s' /\ b_ok s' up' /\ nodes_of s' = nodes_of s.

Lemma cstep_refl s up : b_ok s up -> cstep s s up.
Proof. intros Hk. split_and!; auto using bstep_refl. Qed.
Lemma cstep_trans s s1 s2 up1 up2 : cstep s s1 up1 -> cstep s1 s2 up2 -> cstep s s2 up2.
Proof. intros (A & _ & C) (A' & B' & C'). split_and!; [eapply bstep_trans; eassumption|assumption|congruence]. Qed.

Lemma div_banks_step e svids s up myput s' up' myput' :
  (forall i, i ∈ svids -> 1 <= i < nodes_of s) -> b_ok s up -> binv s ->
  div_banks e s up myput svids = Some (s', up', myput') -> cstep s s' up'.
Proof.
  revert s up myput; induction svids as [|svid svids IH]; intros s up myput Hs Hk I E; cbn [div_banks] in E.
  - simplify_eq. now apply cstep_refl.
  - inv_opt. apply div_bank_step in E0 as C; [|apply Hs; left|assumption..].
    eapply cstep_trans; [exact C|]. destruct C as (St & Hk1 & En).
    eapply IH; [|exact Hk1|now apply St|exact E]. intros i Hi. rewrite En. apply Hs. now right.
Qed.

Lemma all_svids s i : i ∈ seqZ 1 (n_nodes s.(srvs_) - 1) -> 1 <= i < nodes_of s.
Proof. intros Hi. apply elem_of_seqZ in Hi. unfold nodes_of. lia. Qed.

Lemma commit_dividends_step e s up myput s' up' myput' :
  b_ok s up -> binv s -> commit_dividends e s up myput = Some (s', up', myput') -> cstep s s' up'.
Proof.
  intros Hk I E. unfold commit_dividends in E. destruct (_ <? _); [simplify_eq; now apply cstep_refl|].
  eapply div_banks_step; [apply all_svids|eassumption..].
Qed.

(** * Fees of the banks *)

Lemma pay_bank_step e s up share sharing receiving svid s' net bf profit :
  1 <= svid < nodes_of s -> b_ok s up -> binv s -> pay_bank e s share sharing receiving svid = Some (s', net, bf, profit) ->
  cstep s s' up.
Proof.
  intros Hsv Hk I E. unfold pay_bank in E. open_read E.
  assert (Ha : acct s svid 0) by (pose proof (bk_nodes _ _ Hk); pose proof (bi_pos _ I svid Hsv); split_and!; lia).
  set (s0 := bank_fee_add s svid _) in E.
  change (get_user (bank_of (usr_ s0) svid) 0) with (get_user (bank_of (usr_ s) svid) 0) in E.
  set (old := get_user (bank_of (usr_ s) svid) 0) in *.
  change (dividend s0 old 0) with (dividend s old 0) in E.
  destruct (dividend s old 0) as [[u fee] div] eqn:Ed.
  set (s2 := if _ && _ then _ else bank_fee_add s0 svid _) in E.
  assert (F2 : usr_ s2 = usr_ s /\ srvs_ s2 = srvs_ s /\ deposit s2 = deposit s) by (unfold s2; destruct (_ && _); auto).
  destruct F2 as (Eu & Es & Edp). clearbody s2.
  change (if div =? NODIV then 0 else div) with (div_value div) in E.
  set (pr := if _ <? _ then _ else _) in E. set (u' := _ <| u_rpath := _ |>) in E.
  clearbody pr. set (w := i64 (pr + _)) in E. set (s4 := if _ && _ then _ else _) in E. inv_opt. simplify_eq.
  assert (F4 : usr_ s4 = usr_ s2 /\ srvs_ s4 = srvs_ (add_weight s2 svid w) /\ deposit s4 = deposit s2)
    by (unfold s4; destruct (_ && _); auto).
  clearbody s4. destruct F4 as (Eu4 & Es4 & Ed4).
  assert (Hin : 0 <= svid < nodes_of s2) by (unfold nodes_of; rewrite Es; fold (nodes_of s); lia).
  assert (F : pair_frame s (rewrite_user s4 svid 0 old u') svid).
  { eapply pair_frame_trans; [now apply (pair_frame_fields s s2)|].
    eapply pair_frame_trans; [now apply (pair_frame_weight s2 svid w)|].
    eapply pair_frame_trans; [now apply (pair_frame_fields _ s4)|]. apply pair_frame_record.
    unfold nodes_of. rewrite Es4. destruct (pair_frame_weight s2 svid w Hin) as [E4 _ _ _]. unfold nodes_of in E4.
    rewrite E4. exact Hin. }
  assert (St : bstep s (rewrite_user s4 svid 0 old u')).
  { apply (account_bstep s _ svid 0 Ha F).
    - intros j x Hj. change (deposit s4 !! j = Some x) in Hj. rewrite Ed4, Edp in Hj. eauto.
    - intros _. apply dividend_ok in Ed as (R & _ & W); [|assumption..]. apply div_value_eqm in W. fold old in W.
      apply (bank_off_fields (rewrite_user (add_weight s2 svid w) svid 0 old u')).
      + unfold rewrite_user. cbn. now rewrite Eu4.
      + unfold rewrite_user, put_cur_node, cur_node. cbn. now rewrite Es4.
      + unfold old. rewrite <- Eu. apply off_weight_then_record; [exact Hin| | | |].
        * unfold cur_node. rewrite Es. apply Ha.
        * apply i64_range.
        * apply (bank_off_fields s); [assumption..|]. apply bank_off_wf, (bi_wf _ I svid Hsv).
        * rewrite Eu. fold old. unfold w, u'. cbn. rewrite !i64_eqm, W. apply eqm_eq. lia. }
  apply save_undo_step in E0 as (St2 & En2 & _); [|rewrite (pf_nodes _ _ _ F); lia|now apply St].
  rewrite (pf_nodes _ _ _ F) in En2.
  split_and!; [eapply bstep_trans; eassumption|now apply (b_ok_same s)|exact En2].
Qed.

Lemma pay_banks_step e share myput sharing receiving svids s up log s' log' :
  (forall i, i ∈ svids -> 1 <= i < nodes_of s) -> b_ok s up -> binv s ->
  pay_banks e s share myput sharing receiving log svids = Some (s', log') -> cstep s s' up.
Proof.
  revert s log; induction svids as [|svid svids IH]; intros s log Hs Hk I E; cbn [pay_banks] in E.
  - simplify_eq. now apply cstep_refl.
  - inv_opt. apply (pay_bank_step _ _ up) in E0 as C; [|apply Hs; left|assumption..].
    eapply cstep_trans; [exact C|]. destruct C as (St & Hk1 & En).
    eapply IH; [|exact Hk1|now apply St|exact E]. intros i Hi. rewrite En. apply Hs. now right.
Qed.

Lemma fields_cstep s s' up : usr_ s' = usr_ s -> srvs_ s' = srvs_ s -> deposit s' = deposit s -> b_ok s up -> cstep s s' up.
Proof.
  intros Eu Es Ed Hk. assert (En : nodes_of s' = nodes_of s) by (unfold nodes_of; now rewrite Es).
  split_and!; [now apply fields_bstep|now apply (b_ok_same s)|exact En].
Qed.

Lemma commit_bankfee_step e s up myput s' :
  b_ok s up -> binv s -> commit_bankfee e s myput = Some s' -> cstep s s' up.
Proof.
  intros Hk I E. unfold commit_bankfee in E. inv_opt. subst.
  apply (pay_banks_step _ _ _ _ _ _ _ up) in E1 as C; [|apply all_svids|assumption..].
  eapply cstep_trans; [exact C|]. apply fields_cstep; [reflexivity..|apply C].
Qed.

(** * Withdrawals *)

(** A request names two accounts. *)
Definition get_ok (s : server) (p : Z * get_t) : Prop :=
  acct s (ppi_abank p.1) p.2.(g_auser) /\ acct s (ppi_bbank p.1) p.2.(g_buser).

Lemma get_ok_grows s s' p : grows s s' -> get_ok s p -> get_ok s' p.
Proof. intros G [A B]. split; eauto using acct_grows. Qed.

(** The weight of the bank after the dividend. *)
Lemma off_dividend s svid div d :
  0 <= svid < nodes_of s -> div_value div ≡64 d -> bank_off s svid 0 ->
  bank_off (if div =? NODIV then s else add_weight s svid div) svid (0 - d).
Proof.
  intros Hin W Ho. unfold div_value in W. destruct (div =? NODIV).
  - eapply bank_off_eqm; [|exact Ho]. rewrite <- W. reflexivity.
  - eapply bank_off_eqm; [|apply off_add_weight; [exact Hin|exact Ho]]. now rewrite W.
Qed.

Lemma pair_frame_dividend s svid div :
  0 <= svid < nodes_of s -> pair_frame s (if div =? NODIV then s else add_weight s svid div) svid.
Proof. intros Hin. destruct (div =? NODIV); [now apply pair_frame_fields|now apply pair_frame_weight]. Qed.

(** The last two changes of a withdrawal: what is missing in the weight of the
    bank is what is taken from the account. *)
Lemma record_bstep s s2 svid uid u' old :
  acct s svid uid -> pair_frame s s2 svid -> usr_ s2 = usr_ s -> deposit s2 = deposit s ->
  old = get_user (bank_of s.(usr_) svid) uid -> wrange u' ->
  (binv s -> bank_off s2 svid (u_weight old - u_weight u')) -> bstep s (rewrite_user s2 svid uid old u').
Proof.
  intros Ha F Eu Ed -> Hr Ho.
  assert (Hin : 0 <= svid < nodes_of s2) by (rewrite (pf_nodes _ _ _ F); destruct Ha; lia).
  apply (account_bstep s _ svid uid Ha).
  - eapply pair_frame_trans; [exact F|now apply pair_frame_record].
  - intros k d Hk. change (deposit s2 !! k = Some d) in Hk. rewrite Ed in Hk. eauto.
  - intros I. eapply bank_off_eqm; [|rewrite <- Eu; apply off_rewrite_user; [exact Hin| |exact Hr|exact (Ho I)]].
    + rewrite Eu. apply eqm_eq. lia.
    + rewrite (pf_users _ _ _ F). apply Ha.
Qed.

Lemma withdraw_account_step e s s1 abank bbank tx u old f div s' u' delta fee :
  acct s abank tx.(g_auser) -> acct s bbank tx.(g_buser) -> old = get_user (bank_of s.(usr_) bbank) tx.(g_buser) ->
  binv s -> dividend s old 0 = (u, f, div) ->
  usr_ s1 = usr_ s -> srvs_ s1 = srvs_ s -> deposit s1 = deposit s ->
  withdraw_account e (if div =? NODIV then s1 else add_weight s1 bbank div) abank bbank tx u old = (s', u', delta, fee) ->
  bstep s s' /\ nodes_of s' = nodes_of s.
Proof.
  intros Ha Hb Eo I Ed Eu Es Edp E.
  assert (W : wrange u /\ div_value div ≡64 u_weight u - u_weight old).
  { rewrite Eo in Ed |- *. apply dividend_ok in Ed as (R & _ & W); [|assumption..]. split; [exact R|now apply div_value_eqm]. }
  destruct W as [R W].
  assert (Hin1 : 0 <= bbank < nodes_of s1) by (unfold nodes_of; rewrite Es; fold (nodes_of s); destruct Hb; lia).
  assert (Ho : bank_off s1 bbank 0).
  { apply (bank_off_fields s); [assumption..|]. apply bank_off_wf, (bi_wf _ I). apply Hb. }
  pose proof (off_dividend s1 bbank div _ Hin1 W Ho) as Ho2.
  assert (F2 : pair_frame s (if div =? NODIV then s1 else add_weight s1 bbank div) bbank).
  { eapply pair_frame_trans; [now apply (pair_frame_fields s s1)|now apply pair_frame_dividend]. }
  set (s2 := if div =? NODIV then s1 else _) in *.
  assert (G2 : usr_ s2 = usr_ s /\ deposit s2 = deposit s) by (unfold s2; destruct (div =? NODIV); auto).
  clearbody s2. destruct G2 as (Eu2 & Ed2). unfold withdraw_account in E.
  assert (Hin2 : 0 <= bbank < nodes_of s2) by (rewrite (pf_nodes _ _ _ F2); destruct Hb; lia).
  destruct (_ || _).
  - injection E as <- _ _ _.
    split; [|etransitivity; [apply (pair_frame_record s2 bbank); exact Hin2|apply F2]].
    apply (record_bstep s s2); auto. intros _. eapply bank_off_eqm; [|exact Ho2]. cbn. apply eqm_eq. lia.
  - unfold withdraw_amounts in E. set (gok := i64 _) in E. injection E as <- _ _ _.
    set (u1 := u <| u_weight := 0 |> <| u_time := sv_now (srvs_ s2) |>). set (s3 := add_weight s2 bbank (- u_weight u)).
    assert (Ho3 : bank_off s3 bbank (u_weight old - u_weight u1)).
    { eapply bank_off_eqm; [|apply off_add_weight; [exact Hin2|exact Ho2]]. cbn. apply eqm_eq. lia. }
    assert (F3 : pair_frame s s3 bbank) by (eapply pair_frame_trans; [exact F2|now apply pair_frame_weight]).
    set (s4 := bank_fee_add _ _ _). assert (G4 : usr_ s4 = usr_ s2 /\ srvs_ s4 = srvs_ s3 /\ deposit s4 = deposit s2)
      by (unfold s4; destruct (_ =? _); auto).
    destruct G4 as (Eu4 & Es4 & Ed4). clearbody s4.
    assert (F4 : pair_frame s s4 bbank) by (eapply pair_frame_trans; [exact F3|now apply pair_frame_fields]).
    assert (St : bstep s (rewrite_user s4 bbank (g_buser tx) old u1)).
    { apply (record_bstep s s4); [assumption..|congruence|congruence|assumption|unfold wrange; cbn; lia|].
      intros _. now apply (bank_off_fields s3). }
    split; [|unfold nodes_of, n_nodes, rewrite_user; cbn; rewrite length_insert; exact (pf_nodes _ _ _ F4)].
    eapply bstep_trans; [exact St|].
    apply (add_deposit_bstep (rewrite_user s4 bbank (g_buser tx) old u1) abank (g_auser tx)).
    apply (acct_grows s); [apply St|exact Ha].
Qed.

Lemma withdraw_log_spec e b abank bbank tx u w delta fee :
  let b' := withdraw_log e b abank bbank tx u w delta fee in
  usr_ b'.(b_s) = usr_ b.(b_s) /\ srvs_ b'.(b_s) = srvs_ b.(b_s) /\ deposit b'.(b_s) = deposit b.(b_s) /\
  b_update b' = b_update b.
Proof.
  unfold withdraw_log. destruct (_ && _); destruct (abank =? _), (bbank =? _); now split_and!.
Qed.

Lemma carry_fields s s' up svid s'' up' :
  usr_ s'' = usr_ s' -> srvs_ s'' = srvs_ s' -> deposit s'' = deposit s' -> up' = up ->
  carry s s' up svid -> carry s s'' up' svid.
Proof.
  intros Eu Es Ed -> [A B C D]. assert (En : nodes_of s'' = nodes_of s') by (unfold nodes_of; now rewrite Es).
  split; [eapply bstep_trans; [exact A|now apply fields_bstep]|now apply (b_ok_same s')|congruence|now rewrite En].
Qed.

(** The bank of the request is opened, the records of the last one are saved. *)
Lemma open_bank_step b svid undo bbank s0 svid0 undo0 :
  acct b.(b_s) bbank 0 \/ 1 <= bbank < nodes_of b.(b_s) -> b_ok b.(b_s) b.(b_update) -> binv b.(b_s) ->
  0 <= svid < nodes_of b.(b_s) ->
  (if bbank =? svid then Some (b.(b_s), svid, undo)
   else let* s := server_save_undo b.(b_s) svid undo 0 in Some (s, bbank, ∅)) = Some (s0, svid0, undo0) ->
  carry b.(b_s) s0 b.(b_update) svid0 /\ svid0 = bbank.
Proof.
  intros Hb Hk I Hsv E. assert (Hb' : 1 <= bbank < nodes_of b.(b_s)) by (destruct Hb as [[]|]; assumption).
  destruct (Z.eqb_spec bbank svid) as [->|Hne].
  - simplify_eq. split; [|reflexivity]. split; auto using bstep_refl.
  - inv_opt. simplify_eq. apply save_undo_step in E0 as (St & En & _); [|assumption..].
    split; [|reflexivity]. split; [exact St|now apply (b_ok_same b.(b_s))|exact En|lia].
Qed.

Lemma withdraw_step e b svid undo ppi tx b' svid' undo' :
  get_ok b.(b_s) (ppi, tx) -> b_ok b.(b_s) b.(b_update) -> binv b.(b_s) -> 0 <= svid < nodes_of b.(b_s) ->
  withdraw e b svid undo ppi tx = Some (b', svid', undo') -> carry b.(b_s) b'.(b_s) b'.(b_update) svid'.
Proof.
  intros [Ha Hb] Hk I Hsv E. cbn [fst snd] in Ha, Hb. unfold withdraw in E.
  destruct (_ || _); [simplify_eq; now split; auto using bstep_refl|].
  set (b1 := b <| b_update ::= _ |>) in E.
  assert (Hk1 : b_ok b1.(b_s) b1.(b_update)).
  { apply (b_ok_add b.(b_s)); [apply Hb|]. apply b_ok_add; [apply Ha|exact Hk]. }
  inv_opt. apply (open_bank_step b1) in E0 as [C0 ->]; [|right; apply Hb|assumption..].
  change (b_s b1) with (b_s b) in C0. set (up := b_update b1) in *.
  assert (Hret : forall u2 : gmap Z user_t, Some (b1 <| b_s := s |>, ppi_bbank ppi, u2) = Some (b', svid', undo') ->
                 carry (b_s b) (b_s b') (b_update b') svid').
  { intros u2 Er. simplify_eq. exact C0. }
  apply read_user_Some in E1. subst u.
  destruct (bool_decide _); [|now apply Hret in E].
  destruct (_ <? _); [now apply Hret in E|].
  set (old := get_user (bank_of (usr_ s) (ppi_bbank ppi)) (g_buser tx)) in *.
  destruct (dividend s old 0) as [[u fee] div] eqn:Ed.
  destruct (_ <=? 0); [now apply Hret in E|]. clear Hret.
  set (s1 := if ppi_bbank ppi =? e_svid e then _ else _) in E.
  assert (F1 : usr_ s1 = usr_ s /\ srvs_ s1 = srvs_ s /\ deposit s1 = deposit s) by (unfold s1; destruct (_ =? _); auto).
  clearbody s1. destruct F1 as (Eu1 & Es1 & Ed1).
  destruct (withdraw_account _ _ _ _ _ _ _) as [[[s2 u'] delta] fee'] eqn:Ew.
  pose proof (proj1 (ca_step _ _ _ _ C0)) as G0.
  apply (withdraw_account_step e s s1) with (f := fee) in Ew as [St En];
    [|exact (acct_grows _ _ _ _ G0 Ha)|exact (acct_grows _ _ _ _ G0 Hb)|reflexivity|now apply C0|exact Ed|assumption..].
  set (b2 := withdraw_log _ _ _ _ _ _ _ _ _) in E.
  pose proof (withdraw_log_spec e (b1 <| b_s := s |> <| b_s := s2 |>) (ppi_abank ppi) (ppi_bbank ppi) tx u' (u_weight u) delta fee')
    as (Lu & Ls & Ld & Lup). fold b2 in Lu, Ls, Ld, Lup. clearbody b2. simplify_eq.
  eapply (carry_fields _ s2 up); [exact Lu|exact Ls|exact Ld|exact Lup|].
  eapply carry_trans; [exact C0|]. split; [exact St|apply (b_ok_same s); [exact En|apply C0]|exact En|rewrite En; apply C0].
Qed.

Lemma withdraw_loop_step e txs b svid undo b' svid' undo' :
  Forall (get_ok b.(b_s)) txs -> b_ok b.(b_s) b.(b_update) -> binv b.(b_s) -> 0 <= svid < nodes_of b.(b_s) ->
  withdraw_loop e b svid undo txs = Some (b', svid', undo') -> carry b.(b_s) b'.(b_s) b'.(b_update) svid'.
Proof.
  revert b svid undo; induction txs as [|[ppi tx] txs IH]; intros b svid undo Ht Hk I Hsv E; cbn [withdraw_loop] in E.
  - simplify_eq. now split; auto using bstep_refl.
  - inversion Ht as [|? ? Hp Hr]; subst. inv_opt.
    apply withdraw_step in E0 as C; [|assumption..]. eapply carry_trans; [exact C|]. destruct C as [St Hk1 En Hsv1].
    eapply IH; [|exact Hk1|now apply St|exact Hsv1|exact E].
    eapply Forall_impl; [exact Hr|]. intros p. now apply get_ok_grows, St.
Qed.

Lemma commit_withdrawals_step e b b' :
  Forall (get_ok b.(b_s)) (elems b.(b_s).(blk_get)) -> b_ok b.(b_s) b.(b_update) -> binv b.(b_s) ->
  commit_withdrawals e b = Some b' -> cstep b.(b_s) b'.(b_s) b'.(b_update).
Proof.
  intros Ht Hk I E. unfold commit_withdrawals in E. inv_opt.
  apply withdraw_loop_step in E0 as [St Hk1 En Hsv]; [|assumption..|pose proof (bk_nodes _ _ Hk); lia].
  set (s1 := (b_s b0) <| blk_get := ∅ |>) in *.
  assert (C1 : cstep b0.(b_s) s1 b0.(b_update)) by now apply fields_cstep.
  assert (C2 : cstep s1 s b0.(b_update)).
  { destruct (_ =? 0); [simplify_eq; apply cstep_refl, C1|].
    apply save_undo_step in E1 as (St2 & En2 & _); [|exact Hsv|now apply C1, St].
    split_and!; [exact St2|apply (b_ok_same s1); [exact En2|apply C1]|exact En2]. }
  subst b'. eapply cstep_trans; [exact (conj St (conj Hk1 En))|]. eapply cstep_trans; [exact C1|exact C2].
Qed.

(** * The whole end of a block *)

(** The requests of the block name existing accounts. *)
Record queues_ok (s : server) : Prop := {
  q_usr : Forall (fun p : Z * usr_t => acct s (ppi_abank p.1) p.2.(us_auser)) (elems s.(blk_usr));
  q_uok : Forall (fun p : Z * uok_t => acct s (ppi_abank p.1) p.2.(uo_auser)) (elems s.(blk_uok));
  q_bnk : Forall (fun p : Z * Z => acct s (ppi_abank p.1) p.2) (elems s.(blk_bnk));
  q_get : Forall (get_ok s) (elems s.(blk_get))
}.

Lemma commit_block_step e s s' up :
  1 <= nodes_of s < 2 ^ 16 -> binv s -> queues_ok s -> no_dead_bank s \/ blk_bnk s = ∅ ->
  commit_block e s = Some (s', up) -> bstep s s' /\ b_ok s' up.
Proof.
  intros Hn I [Qu Qo Qb Qg] Hd E. unfold commit_block in E.
  set (s0 := s <| mydiv_fee := 0 |> <| myusr_fee := 0 |> <| myget_fee := 0 |>) in E.
  set (b0 := {| b_s := s0 |}) in E. assert (P0 : pstep s s0) by now apply fields_pstep.
  assert (I0 : binv s0) by now apply (proj2 (ps_step _ _ P0)).
  destruct (commit_remote_accounts_step e b0) as [P1 U1]; [exact Qu|exact Qo|].
  set (b1 := commit_remote_accounts e b0) in *. clearbody b1.
  destruct (commit_status_step e b1) as [P2 U2]. set (b2 := commit_status e b1) in *. clearbody b2.
  assert (P : pstep s b2.(b_s)) by (eapply pstep_trans; [exact P0|eapply pstep_trans; [exact P1|exact P2]]).
  destruct P as [Q St Eb Eg].
  assert (Hk2 : b_ok b2.(b_s) b2.(b_update)).
  { rewrite U2, U1. split; [now rewrite (qu_nodes _ _ Q)|]. intros i Hi. now apply not_elem_of_empty in Hi. }
  inv_opt. apply commit_new_banks_step in E0 as (St3 & Hk3 & Eg3).
  2:{ rewrite Eb. eapply Forall_impl; [exact Qb|]. intros p. apply acct_grows, St. }
  2:{ destruct Hd as [Hd|Hd]; [left; now apply (no_dead_quiet s)|right; congruence]. }
  2:{ exact Hk2. }
  assert (I3 : binv b.(b_s)) by now apply St3, St.
  apply commit_withdrawals_step in E1 as (St4 & Hk4 & En4); [|rewrite Eg3, Eg|exact Hk3|exact I3].
  2:{ eapply Forall_impl; [exact Qg|]. intros p Hp. eapply get_ok_grows; [apply St3|]. eapply get_ok_grows; [apply St|exact Hp]. }
  simplify_eq. set (s5 := put_cur_node b3.(b_s) 0 _).
  assert (Q5 : quiet b3.(b_s) s5) by apply quiet_node0.
  split.
  - eapply bstep_trans; [exact St|]. eapply bstep_trans; [exact St3|]. eapply bstep_trans; [exact St4|].
    apply (bstep_trans _ s5); [now apply quiet_bstep|now apply fields_bstep].
  - apply (b_ok_same b3.(b_s)); [exact (qu_nodes _ _ Q5)|exact Hk4].
Qed.

Lemma commit_all_step e s s' up :
  1 <= nodes_of s < 2 ^ 16 -> binv s -> queues_ok s -> no_dead_bank s \/ blk_bnk s = ∅ ->
  commit_all e s = Some (s', up) -> bstep s s' /\ b_ok s' up.
Proof.
  intros Hn I Q Hd E. unfold commit_all in E. inv_opt.
  apply commit_block_step in E0 as (St0 & K0); [|assumption..].
  apply commit_dividends_step in E1 as (St1 & K1 & _); [|assumption|now apply St0].
  apply commit_deposit_step in E2 as (St2 & K2 & _); [|assumption|now apply St1, St0].
  simplify_eq. eapply commit_bankfee_step in E3 as (St3 & K3 & _); [|exact K2|now apply St2, St1, St0].
  split; [|exact K3]. eauto using bstep_trans.
Qed.
End BlockSteps.
