(* ===== verification/BlockProps.v ===== *)
(** What the end of a block guarantees. *)

From stdpp Require Import base gmap list sorting.
From Stdlib Require Import ZArith Lia.
From S2P Require Import Prelude Params HashTree Usertxs Accounts Servers Ledger Process Invariant Hlog Block BlockInv BlockSteps Demo ProcessProps.

(** * The check of the banks *)

Section BlockProps.
Context `{Sha256}.

Lemma b_ok_check s up : binv s -> b_ok s up -> check_banks s up = true.
Proof.
  intros I [_ Hup]. apply forallb_forall. intros i Hi. apply list_elem_of_In, elem_of_elements, Hup in Hi.
  rewrite !andb_true_iff. split_and!; [apply Z.ltb_lt; apply Hi|apply negb_true_iff, Z.eqb_neq; lia|].
  destruct (bi_wf _ I i Hi) as [Ok _ Hf _ _]. now rewrite check_nodehash_ok.
Qed.

(** C2: the end of a block keeps the books of every bank. When all banks are
    in good order, the requests collected in the block name existing accounts
    and no bank is taken over, the four commits of [finish_block] leave every
    bank with the weight and hash of its accounts, and the check that would
    stop the node succeeds on all banks it is made for. *)
Theorem end_of_block_keeps_books e s s' update :
  1 <= nodes_of s < 2 ^ 16 -> binv s -> queues_ok s -> no_dead_bank s \/ blk_bnk s = ∅ ->
  commit_all e s = Some (s', update) ->
  check_banks s' update = true /\ forall j, 1 <= j < nodes_of s' -> bank_wf s' j.
Proof.
  intros Hn I Q Hd E. apply commit_all_step in E as [[_ St] K]; [|assumption..].
  specialize (St I). split; [now apply b_ok_check|exact (bi_wf _ St)].
Qed.
End BlockProps.

(** The hypotheses as tests. *)
Definition acctb (s : server) (bank user : Z) : bool :=
  (1 <=? bank) && (bank <? nodes_of s) && (bank <? 2 ^ 16) && (0 <=? user) && (user <? n_users (cur_node s bank)) &&
  (user <? 2 ^ 32).

Lemma acctb_ok s bank user : acctb s bank user = true -> acct s bank user.
Proof. unfold acctb, acct. rewrite !andb_true_iff, !Z.leb_le, !Z.ltb_lt. tauto. Qed.

Section Tests.
Context `{Sha256}.

Definition binvb (s : server) : bool :=
  forallb (fun j => bank_wfb s j && (0 <? n_users (cur_node s j)) && (n_users (cur_node s j) <=? 2 ^ 32))
    (seqZ 1 (nodes_of s - 1)) &&
  forallb (fun p : Z * Z => acctb s (key_bank p.1) (key_user p.1)) (elems s.(deposit)) &&
  (0 <=? s.(srvs_).(sv_div)) && (s.(srvs_).(sv_div) <? 2 ^ 14).

Lemma binvb_ok s : binvb s = true -> binv s.
Proof.
  unfold binvb. rewrite !andb_true_iff, !forallb_forall, Z.leb_le, Z.ltb_lt. intros (((Hb & Hd) & H1) & H2).
  assert (Hj : forall j, 1 <= j < nodes_of s -> bank_wf s j /\ 0 < n_users (cur_node s j) <= 2 ^ 32).
  { intros j Hj. specialize (Hb j). rewrite !andb_true_iff, Z.ltb_lt, Z.leb_le in Hb.
    destruct Hb as ((Hw & ?) & ?); [apply list_elem_of_In, elem_of_seqZ; lia|]. split; [now apply bank_wfb_ok|lia]. }
  split; [intros j Hr; now apply Hj| |lia|intros j Hr; now apply Hj].
  intros k d Hk. apply acctb_ok. apply (Hd (k, d)), list_elem_of_In, elem_of_elems. exact Hk.
Qed.

Definition queues_okb (s : server) : bool :=
  forallb (fun p : Z * usr_t => acctb s (ppi_abank p.1) p.2.(us_auser)) (elems s.(blk_usr)) &&
  forallb (fun p : Z * uok_t => acctb s (ppi_abank p.1) p.2.(uo_auser)) (elems s.(blk_uok)) &&
  forallb (fun p : Z * Z => acctb s (ppi_abank p.1) p.2) (elems s.(blk_bnk)) &&
  forallb (fun p : Z * get_t => acctb s (ppi_abank p.1) p.2.(g_auser) && acctb s (ppi_bbank p.1) p.2.(g_buser))
    (elems s.(blk_get)).

Lemma queues_okb_ok s : queues_okb s = true -> queues_ok s.
Proof.
  unfold queues_okb. rewrite !andb_true_iff, !forallb_forall. intros (((Hu & Ho) & Hb) & Hg).
  split; apply Forall_forall; intros p Hp%list_elem_of_In.
  1-3: apply acctb_ok; auto.
  specialize (Hg p Hp). apply andb_true_iff in Hg as [H1 H2]. split; now apply acctb_ok.
Qed.

Definition no_dead_bankb (s : server) : bool :=
  forallb (fun j => negb (dead_bank s.(srvs_).(sv_now) (cur_node s j))) (seqZ 1 (nodes_of s - 1)).

Lemma no_dead_bankb_ok s : no_dead_bankb s = true -> no_dead_bank s.
Proof.
  unfold no_dead_bankb. rewrite forallb_forall. intros Hd j Hj. apply negb_true_iff, Hd, list_elem_of_In, elem_of_seqZ. lia.
Qed.
End Tests.

(** The demonstration ledger in the second half of a dividend period, with a
    remote account and its acceptance, a request for a bank, a withdrawal and
    transfers. *)
Definition block_now : Z := demo_now + 2 * BLOCKDIV * BLOCKSEC + 2047 * BLOCKSEC.

Definition demo_block (wss : list (list Z)) : server :=
  let s := demo_server (H := toy_sha) wss in
  let s := set_status s 1 (fun st => Z.lor st SERVER_VIP) in
  s <| srvs_ ::= fun v => v <| sv_now := block_now |> <| sv_div := 100 |> |>
    <| period_start := block_now - 2047 * BLOCKSEC |>
    <| deposit := {[ dep_key 2 1 := 70000; dep_key 1 0 := 5 ]} |>
    <| blk_usr := {[ make_ppi 1 0 1 1 2 := {| us_auser := 1; us_bbank := 2; us_pkey := replicate 32 5 |} ]} |>
    <| blk_uok := {[ make_ppi 2 0 1 2 1 := {| uo_auser := 1; uo_bbank := 1; uo_buser := 1; uo_pkey := replicate 32 5 |} ]} |>
    <| blk_bnk := {[ make_ppi 3 0 1 1 0 := 1 ]} |>
    <| blk_get := {[ make_ppi 4 0 1 1 2 := {| g_auser := 1; g_buser := 0; g_pkey := replicate 32 1 |} ]} |>.

(** [run_opt c x E] names the value that [c] returns. *)
Ltac run_opt c x E :=
  let Hok := fresh in
  assert (Hok : (if c is Some _ then true else false) = true) by (vm_compute; reflexivity);
  destruct c as [x|] eqn:E; [clear Hok | discriminate Hok].

Definition block_s : server := demo_block [[10 ^ 12; 10 ^ 11]; [10 ^ 12; 5]].

Lemma end_of_block_keeps_books_witness :
  exists s' update, commit_all (H := toy_sha) demo_env block_s = Some (s', update) /\
                    check_banks s' update = true.
Proof.
  run_opt (commit_all (H := toy_sha) demo_env block_s) r E. destruct r as [s' update].
  exists s', update. split; [reflexivity|].
  refine (proj1 (end_of_block_keeps_books (H := toy_sha) demo_env block_s s' update _ _ _ _ E)).
  - vm_compute. split; congruence.
  - apply binvb_ok. vm_compute. reflexivity.
  - apply queues_okb_ok. vm_compute. reflexivity.
  - left. apply no_dead_bankb_ok. vm_compute. reflexivity.
Defined.

(** * Takeover of a bank *)

Section Takeover.
Context `{Sha256}.

Lemma put_node_totals s ou peer s' :
  1 <= peer < nodes_of s -> 0 < n_users (cur_node s peer) -> put_node s ou peer = Some s' ->
  n_weight (cur_node s' peer) = n_weight (cur_node s peer) /\ n_users (cur_node s' peer) = n_users (cur_node s peer) /\
  exists nu, usr_ s' = write_user (usr_ s) peer 0 nu /\
             u_weight nu = i64 (u_weight (get_user (bank_of s.(usr_) peer) 0) + BANK_MIN_UMASS + BANK_MIN_TMASS).
Proof.
  intros Hp Hu E. unfold put_node in E. set (old := get_user _ 0) in *.
  set (s1 := put_cur_node s peer _) in E. inv_opt.
  assert (Hc1 : cur_node s1 peer = (cur_node s peer) <| n_hash ::= fun h => Z.lxor h (u_csum old) |>).
  { unfold s1. rewrite cur_put, decide_True by (reflexivity || unfold nodes_of in *; lia). reflexivity. }
  assert (Hn1 : nodes_of s1 = nodes_of s) by (unfold nodes_of, n_nodes, s1; now rewrite length_put).
  assert (Q : quiet s1 s0).
  { apply (quiet_save_undo s1 peer {[0 := old]}); [lia|rewrite Hc1; cbn; lia|exact E0]. }
  assert (Eu : usr_ s0 = usr_ s) by (unfold server_save_undo in E0; inv_opt; now subst s0).
  destruct (qu_same _ _ Q peer ltac:(lia)) as (Ew & _ & Es & _). rewrite Hc1 in Ew, Es. cbn in Ew, Es.
  set (nu := init_user _ _ _ _ _ _) in E. set (s2 := put_user s0 nu peer 0) in E. subst s'.
  assert (Hin0 : 0 <= peer < n_nodes (srvs_ s0)) by (fold (nodes_of s0); rewrite (qu_nodes _ _ Q); lia).
  assert (Hin2 : 0 <= peer < n_nodes (srvs_ s2)).
  { unfold s2, put_user, n_nodes. rewrite length_put. exact Hin0. }
  assert (Hc2 : cur_node s2 peer = cur_node s0 peer).
  { unfold s2, put_user. rewrite cur_put, decide_True by (exact Hin0 || reflexivity || lia).
    unfold put_user_node. change (cur_node _ peer) with (cur_node s0 peer).
    rewrite (proj2 (Z.leb_gt _ _)); [reflexivity|]. rewrite Es. lia. }
  rewrite cur_put, decide_True by (assumption || reflexivity || lia). rewrite Hc2. cbn [n_weight n_users].
  split_and!; [exact Ew|exact Es|]. exists nu. split; [|reflexivity].
  unfold s2, put_user. cbn. now rewrite Eu.
Qed.

(** A takeover leaves a bank that fails the check at the end of the
    block: [put_node] adds the price of a bank to the first account of the bank
    and not to the weight of the node, so that [check_nodehash] returns false
    after it and [finish_block] stops the node. *)
Theorem takeover_fails_check s ou peer s' :
  1 <= peer < nodes_of s -> 0 < n_users (cur_node s peer) -> bank_wf s peer -> put_node s ou peer = Some s' ->
  check_nodehash (cur_node s' peer) (s'.(usr_) !! peer) = Some false.
Proof.
  intros Hp Hu [(Os & Oh & Ow) _ Hf Or _] E. apply put_node_totals in E as (Ew & En & nu & Eu & Enu); [|assumption..].
  assert (Hl : long_file (usr_ s') peer (n_users (cur_node s' peer))) by (rewrite En, Eu; now apply long_file_write).
  destruct Hl as (b & Eb & Hl). unfold check_nodehash. rewrite Eb, (proj2 (Z.leb_le _ _)) by exact Hl. f_equal.
  rewrite <- (lookup_total_correct _ _ _ Eb). change (usr_ s' !!! peer) with (bank_of (usr_ s') peer).
  apply not_true_is_false. intros Hc. apply node_sums_ok in Hc as (Hs & _); [|now rewrite Ew].
  rewrite Ew, En in Hs.
  assert (Ed : forall i, get_user (bank_of (usr_ s') peer) i = if decide (i = 0) then nu else get_user (bank_of (usr_ s) peer) i).
  { intros i. rewrite Eu, bank_of_write, decide_True by reflexivity. apply get_user_insert. }
  rewrite bank_sum_fsum, (fsum_upd (fun i => u_weight (get_user (bank_of (usr_ s) peer) i)) _ 0) in Hs
    by (first [lia|intros i Hi; cbv beta; now rewrite Ed, decide_False]).
  cbv beta in Hs. rewrite Ed, decide_True, Enu, <- bank_sum_fsum, <- Os, i64_eqm in Hs by reflexivity.
  destruct Hs as [k Hk]. unfold BANK_MIN_UMASS, BANK_MIN_TMASS in Hk. lia.
Qed.

(** The list of banks for a takeover is one off: each entry names the bank
    before the one whose age and weight were examined. *)
Theorem takeover_names_previous_bank s k :
  nodes_of s <= 2 ^ 16 -> k ∈ new_bnk s ->
  let peer := Z.land k 0xffff in
  0 <= peer < nodes_of s - 1 /\ dead_bank s.(srvs_).(sv_now) (cur_node s (peer + 1)) = true.
Proof.
  intros Hn Hk. unfold new_bnk in Hk. rewrite merge_sort_Permutation in Hk.
  apply list_elem_of_fmap in Hk as ([p n] & -> & Hk). apply list_elem_of_filter in Hk as [Hd Hk]. cbn [fst snd] in *.
  apply list_elem_of_lookup in Hk as [i Hi]. apply lookup_zip_Some in Hi as [Hp Hi].
  rewrite lookup_drop in Hi. apply lookup_seqZ in Hp as [-> Hi'].
  assert (Hl : 0 <= Z.of_nat i < nodes_of s - 1) by (unfold nodes_of; lia).
  assert (Ep : Z.land (Z.lor (u64 (Z.shiftl (n_weight n) 16)) (0 + Z.of_nat i)) 0xffff = Z.of_nat i).
  { change 0xffff with (Z.ones 16). rewrite Z.land_lor_distr_l, !Z.land_ones by lia.
    rewrite (Z.mod_small (0 + Z.of_nat i)) by lia.
    assert (E0 : u64 (Z.shiftl (n_weight n) 16) mod 2 ^ 16 = 0).
    { unfold u64. rewrite Z.shiftl_mul_pow2 by lia. rewrite Z.mod_mod_divide by (exists (2 ^ 48); reflexivity).
      apply Z.mod_mul. lia. }
    rewrite E0. apply Z.lor_0_l. }
  cbv zeta. rewrite Ep. split; [exact Hl|]. unfold cur_node, nth_node.
  replace (Z.to_nat (Z.of_nat i + 1)) with (1 + i)%nat by lia. now rewrite (list_lookup_total_correct _ _ _ Hi).
Qed.
End Takeover.

Definition dead_s : server := demo_block [[10 ^ 12; 10 ^ 11]; [0]; [0]].

Lemma takeover_fails_check_witness :
  exists s', put_node (H := toy_sha) dead_s (get_user (bank_of dead_s.(usr_) 1) 1) 2 = Some s' /\
             check_nodehash (cur_node s' 2) (s'.(usr_) !! 2) = Some false.
Proof.
  run_opt (put_node (H := toy_sha) dead_s (get_user (bank_of dead_s.(usr_) 1) 1) 2) s' E.
  exists s'. split; [reflexivity|].
  refine (takeover_fails_check (H := toy_sha) dead_s (get_user (bank_of dead_s.(usr_) 1) 1) 2 s' _ _ _ E).
  - vm_compute. split; congruence.
  - vm_compute. congruence.
  - apply bank_wfb_ok. vm_compute. reflexivity.
Defined.

Lemma takeover_names_previous_bank_witness :
  new_bnk dead_s = [1; 2] /\ dead_bank block_now (cur_node dead_s 1) = false /\
  dead_bank block_now (cur_node dead_s 3) = true.
Proof.
  split; [vm_compute; reflexivity|]. split; [vm_compute; reflexivity|].
  refine (proj2 (takeover_names_previous_bank dead_s 2 _ _)).
  - vm_compute. congruence.
  - vm_compute. right. left.
Defined.

(** * Votes, dividends and shared fees *)

Definition votes_for (i : Z) (votes : list Z) : Z := Z.of_nat (length (filter (fun v => Z.testbit v i = true) votes)).

Lemma votes_for_sum i votes : zsum (map (fun v => Z.b2z (Z.testbit v i)) votes) = votes_for i votes.
Proof.
  unfold votes_for. induction votes as [|v votes IH]; [reflexivity|]. cbn [map]. rewrite filter_cons.
  change (zsum (?x :: ?l)) with (x + zsum l). rewrite IH.
  destruct (Z.testbit v i) eqn:Ev; [rewrite decide_True by reflexivity|rewrite decide_False by discriminate]; cbn [length Z.b2z]; lia.
Qed.

Lemma votes_for_le i votes : 0 <= votes_for i votes <= Z.of_nat (length votes).
Proof. unfold votes_for. pose proof (length_filter (fun v => Z.testbit v i = true) votes). lia. Qed.

Lemma foldl_setbits (c : Z -> bool) l acc i :
  0 <= i -> Forall (fun j => 0 <= j) l ->
  Z.testbit (foldl (fun res j => if c j then Z.lor res (Z.shiftl 1 j) else res) acc l) i =
  Z.testbit acc i || (bool_decide (i ∈ l) && c i).
Proof.
  intros Hi Hl. revert acc. induction Hl as [|j l Hj Hl IH]; intros acc; cbn [foldl].
  - rewrite bool_decide_false by apply not_elem_of_nil. now rewrite orb_false_r.
  - rewrite IH. rewrite Z.shiftl_1_l.
    assert (Et : Z.testbit (if c j then Z.lor acc (2 ^ j) else acc) i = Z.testbit acc i || ((j =? i) && c j)).
    { destruct (c j); [|now rewrite andb_false_r, orb_false_r]. rewrite Z.lor_spec, Z.pow2_bits_eqb, andb_true_r by lia. reflexivity. }
    rewrite Et. destruct (Z.eqb_spec j i) as [->|Hne].
    + rewrite (bool_decide_true (i ∈ i :: l)) by left. destruct (Z.testbit acc i), (c i), (bool_decide _); reflexivity.
    + rewrite (bool_decide_ext (i ∈ j :: l) (i ∈ l)) by (split; [intros [?|?]%elem_of_cons; [congruence|assumption]|now right]).
      destruct (Z.testbit acc i), (c j); reflexivity.
Qed.

(** [bitcount] is a majority vote: with at most 255 votes (there are at
    most [VIP_MAX] voters) a bit of the result is set exactly when more than
    [min] of the votes have it. *)
Theorem bitcount_majority votes min i :
  Z.of_nat (length votes) < 256 -> 0 <= i < 8 ->
  Z.testbit (bitcount votes min) i = (min <? votes_for i votes).
Proof.
  intros Hl Hi. unfold bitcount. pose proof (votes_for_le i votes) as Hv.
  destruct (Z.leb_spec (Z.of_nat (length votes)) min) as [Hm|Hm].
  - rewrite Z.testbit_0_l. symmetry. apply Z.ltb_ge. lia.
  - rewrite (foldl_setbits (fun i => min <? votes_of i votes)); [|lia|apply Forall_forall; intros j Hj%elem_of_seqZ; lia].
    rewrite Z.testbit_0_l, bool_decide_true by (apply elem_of_seqZ; lia). cbn [orb andb].
    unfold votes_of. rewrite votes_for_sum. unfold u8. now rewrite Z.mod_small by lia.
Qed.

Lemma bitcount_majority_witness : bitcount [5; 1; 4] 1 = 5 /\ Z.testbit (bitcount [5; 1; 4] 1) 2 = (1 <? votes_for 2 [5; 1; 4]).
Proof. split; [reflexivity|]. apply bitcount_majority; vm_compute; repeat split; congruence. Defined.

(** The accounts of a run, then those of the following runs. *)
Lemma elem_of_div_users fuel user uend u :
  0 <= user -> uend - user <= segment * div_period * Z.of_nat fuel ->
  u ∈ div_users fuel user uend <-> user <= u < uend /\ (u - user) mod (segment * div_period) < segment.
Proof.
  change (segment * div_period) with 32768. change segment with 32.
  revert user; induction fuel as [|fuel IH]; intros user Hu Hf; cbn [div_users].
  - rewrite elem_of_nil. lia.
  - change (segment * div_period) with 32768. change segment with 32.
    destruct (Z.leb_spec uend user); [rewrite elem_of_nil; lia|].
    rewrite elem_of_app, elem_of_seqZ, IH by lia.
    replace (u - (user + 32768)) with (u - user + (-1) * 32768) by lia. rewrite Z.mod_add by lia.
    destruct (Z_lt_dec (u - user) 32768) as [Hs|Hs]; [|lia].
    destruct (Z_le_dec user u) as [Hge|]; [rewrite (Z.mod_small (u - user)) by lia; lia|lia].
Qed.

(** Dividends reach every account: in the block of time [now] the loop of
    [commit_dividends] visits an account of bank [svid] exactly when its run of
    32 accounts is the one of the block, so that each account of a bank is
    visited in one of [BLOCKDIV/2] consecutive blocks, and only in one. *)
Theorem dividend_visits s svid u :
  0 <= n_users (cur_node s svid) -> 0 <= u < n_users (cur_node s svid) ->
  u ∈ bank_div_users s svid <->
  (u / segment) mod div_period = (s.(srvs_).(sv_now) / BLOCKSEC + svid) mod div_period.
Proof.
  intros Hn Hu. unfold bank_div_users, first_div_user.
  assert (Hr : 0 <= (s.(srvs_).(sv_now) / BLOCKSEC + svid) mod div_period < 1024) by (apply Z.mod_pos_bound; reflexivity).
  set (r := _ mod div_period) in *. clearbody r.
  rewrite elem_of_div_users; change (segment * div_period) with 32768; change div_period with 1024; change segment with 32.
  - Z.to_euclidean_division_equations. lia.
  - lia.
  - Z.to_euclidean_division_equations. lia.
Qed.

Lemma dividend_visits_witness : 0 ∈ bank_div_users block_s 1.
Proof. apply (dividend_visits block_s 1 0); vm_compute; repeat split; congruence. Defined.

Lemma sum_fees_exact s l x :
  0 <= x -> (forall i, i ∈ l -> 0 <= fee_of s i) -> x + zsum (map (fee_of s) l) < 2 ^ 63 ->
  foldl (fun x i => i64 (x + fee_of s i)) x l = x + zsum (map (fee_of s) l).
Proof.
  revert x; induction l as [|i l IH]; intros x Hx Hl Hs; cbn [foldl map]; [cbn; lia|].
  change (zsum (?a :: ?l)) with (a + zsum l) in *.
  assert (Hf : 0 <= fee_of s i) by (apply Hl; left).
  assert (Hnn : 0 <= zsum (map (fee_of s) l)).
  { assert (Hl' : forall j, j ∈ l -> 0 <= fee_of s j) by (intros j Hj; apply Hl; now right). clear -Hl'.
    induction l as [|j l IH]; [cbn; lia|]. cbn [map]. change (zsum (?a :: ?l)) with (a + zsum l).
    assert (0 <= fee_of s j) by (apply Hl'; left).
    assert (0 <= zsum (map (fee_of s) l)) by (apply IH; intros k Hk; apply Hl'; now right). lia. }
  cbn [map] in Hs. change (zsum (?a :: ?l)) with (a + zsum l) in Hs.
  rewrite i64_small by lia. rewrite IH; [lia|lia| |lia]. intros j Hj. apply Hl. now right.
Qed.

(** The whole part of a sum and the sum of the whole parts. *)
Lemma shared_sum_le s l :
  (forall i, i ∈ l -> 0 <= fee_of s i) ->
  0 <= zsum (map (fee_of s) l) /\
  2 * (zsum (map (fee_of s) l) / 5) <= zsum (map (fun i => SHARED_PROFIT (fee_of s i)) l) + 2 * Z.of_nat (length l).
Proof.
  intros Hl.
  assert (Hd : zsum (map (fee_of s) l) <= 5 * zsum (map (fun i => fee_of s i / 5) l) + 4 * Z.of_nat (length l) /\
               0 <= zsum (map (fee_of s) l) /\
               zsum (map (fun i => SHARED_PROFIT (fee_of s i)) l) = 2 * zsum (map (fun i => fee_of s i / 5) l)).
  { induction l as [|i l IH]; [cbn; lia|]. cbn [map length]. change (zsum (?a :: ?l)) with (a + zsum l).
    assert (Hf : 0 <= fee_of s i) by (apply Hl; left).
    destruct IH as (A & B & C); [intros j Hj; apply Hl; now right|]. rewrite C.
    unfold SHARED_PROFIT. rewrite Z.quot_div_nonneg by lia.
    pose proof (Z.div_mod (fee_of s i) 5). pose proof (Z.mod_pos_bound (fee_of s i) 5). lia. }
  destruct Hd as (A & B & C). rewrite C. split; [exact B|]. Z.to_euclidean_division_equations. lia.
Qed.

(** Sharing the fees creates no funds but for rounding: what all receiving
    banks get is at most what the sharing banks give and 2 units per sharing
    bank. *)
Theorem fee_share_bounded s share :
  (forall i, i ∈ sharing_nodes s -> 0 <= fee_of s i) -> zsum (map (fee_of s) (sharing_nodes s)) < 2 ^ 63 ->
  fee_share s = Some share ->
  0 <= share /\
  share * Z.of_nat (length (receiving_nodes s)) <=
  zsum (map (fun i => SHARED_PROFIT (fee_of s i)) (sharing_nodes s)) + 2 * Z.of_nat (length (sharing_nodes s)).
Proof.
  intros Hl Hs E. unfold fee_share in E. rewrite sum_fees_exact in E by (lia || assumption).
  pose proof (shared_sum_le s (sharing_nodes s) Hl) as [Hnn Hb]. rewrite Z.add_0_l in E.
  set (sum := zsum (map (fee_of s) _)) in *.
  rewrite (proj2 (Z.ltb_ge sum 0)) in E by lia.
  destruct (receiving_nodes s) as [|r rs]; [discriminate|].
  set (n := Z.of_nat (length (r :: rs))) in *. assert (E' : share = SHARED_PROFIT (sum ÷ n)) by congruence. subst share. assert (Hn : 0 < n) by (unfold n; cbn [length]; lia).
  change (SHARED_PROFIT (sum ÷ n)) with (sum ÷ n ÷ 5 * 2). rewrite (Z.quot_div_nonneg sum n) by lia.
  assert (Hq : 0 <= sum / n) by (apply Z.div_pos; lia). rewrite Z.quot_div_nonneg by lia.
  rewrite Z.div_div by lia.
  assert (Hm : n * (sum / (n * 5)) <= sum / 5).
  { apply Z.div_le_lower_bound; [lia|]. pose proof (Z.mul_div_le sum (n * 5)). nia. }
  assert (0 <= sum / (n * 5)) by (apply Z.div_pos; lia). split; nia.
Qed.

(** Four banks with fees, two of them VIP. *)
Definition fee_s : server :=
  (set_status (demo_block [[10 ^ 12]; [10 ^ 12]; [10 ^ 12]; [10 ^ 12]]) 3 (fun st => Z.lor st SERVER_VIP))
    <| bank_fee := [0; 10003; 0; 77; 4] |>.

Lemma fee_share_bounded_witness :
  exists share, fee_share fee_s = Some share /\
    share * Z.of_nat (length (receiving_nodes fee_s)) <=
    zsum (map (fun i => SHARED_PROFIT (fee_of fee_s i)) (sharing_nodes fee_s)) + 8.
Proof.
  run_opt (fee_share fee_s) share E. exists share. split; [reflexivity|].
  refine (proj2 (fee_share_bounded fee_s share _ _ E)).
  - apply Forall_forall. vm_compute. repeat (constructor; [congruence|]). constructor.
  - vm_compute. reflexivity.
Defined.

(** The account a withdrawal is asked from is not checked, neither when the
    request is executed nor here: for a number behind the end of the file the
    record that is compared and written was never read. *)
Theorem withdrawal_of_unread_account :
  let s := block_s <| blk_get := {[ make_ppi 4 0 1 1 2 := {| g_auser := 1; g_buser := 99; g_pkey := replicate 32 1 |} ]} |> in
  n_users (cur_node s 2) = 2 /\ commit_block (H := toy_sha) demo_env s = None.
Proof. cbv zeta. split; vm_compute; reflexivity. Qed.
