(* ===== verification/Chain.v ===== *)
(** The chain of block headers in [common/servers.hpp]: the files
    [servers.srv], [header.hdr] and [%03X.now], the links and headers a
    syncing node receives, the list of VIP keys and the block signatures. *)

From stdpp Require Import base gmap list.
From Stdlib Require Import ZArith Lia.
From S2P Require Import Prelude Params HashTree Usertxs Accounts Servers Ledger Process Hlog Block Demo.

(** * [servers.srv] *)

(** The part of the file before the nodes. *)
Definition head_data (s : servers) : list Z :=
  le_bytes 4 1 ++ le_bytes 4 s.(sv_now) ++ le_bytes 4 s.(sv_msg) ++ le_bytes 4 s.(sv_nod) ++ le_bytes 4 s.(sv_div) ++
  s.(sv_oldhash) ++ s.(sv_minhash) ++ s.(sv_msghash) ++ s.(sv_nodhash) ++ s.(sv_viphash) ++ s.(sv_nowhash) ++
  le_bytes 2 s.(sv_vok) ++ le_bytes 2 s.(sv_vno) ++ le_bytes 2 s.(sv_vtot).

Definition node_data (n : node) : list Z :=
  n.(n_pk) ++ le_bytes 32 n.(n_hash) ++ n.(n_msha) ++ le_bytes 4 n.(n_msid) ++ le_bytes 4 n.(n_mtim) ++
  le_bytes 8 n.(n_weight) ++ le_bytes 4 n.(n_status) ++ le_bytes 4 n.(n_users) ++ le_bytes 4 n.(n_port) ++
  le_bytes 4 n.(n_ipv4).

Definition data_write (s : servers) (write_nodes : bool) (file : list Z) : list Z :=
  pwrite 0 (head_data s ++ if write_nodes then concat (map node_data (take (Z.to_nat s.(sv_nod)) s.(sv_nodes))) else []) file.

(** One node is read over the old value; [changed] is not in the file. *)
Definition node_read (old : node) (f : list Z) : option (node * list Z) :=
  let* (pk, f) := fread 32 f in
  let* (hash, f) := fread_le 32 f in
  let* (msha, f) := fread 32 f in
  let* (msid, f) := fread_le 4 f in
  let* (mtim, f) := fread_le 4 f in
  let* (weight, f) := fread_le 8 f in
  let* (status, f) := fread_le 4 f in
  let* (users, f) := fread_le 4 f in
  let* (port, f) := fread_le 4 f in
  let* (ipv4, f) := fread_le 4 f in
  Some ({| n_pk := pk; n_hash := hash; n_msha := msha; n_msid := msid; n_mtim := mtim; n_weight := i64 weight;
           n_status := status; n_users := users; n_port := port; n_ipv4 := ipv4; n_changed := old.(n_changed) |}, f).

Fixpoint nodes_read (olds : list node) (f : list Z) : option (list node) :=
  match olds with
  | [] => Some []
  | old :: olds => let* (n, f) := node_read old f in let* ns := nodes_read olds f in Some (n :: ns)
  end.

(** [nodes.resize(n)]. *)
Definition resize_nodes (n : Z) (ns : list node) : list node :=
  take (Z.to_nat n) ns ++ replicate (Z.to_nat n - length ns) zero_node.

(** [data_read] on a complete file; [None] is a file that ends too early, of
    which the code reads a part. *)
Definition data_read (s : servers) (file : list Z) (read_nodes : bool) : option servers :=
  let* (version, f) := fread_le 4 file in
  let* (now, f) := fread_le 4 f in
  let* (msg, f) := fread_le 4 f in
  let* (nod, f) := fread_le 4 f in
  let* (div, f) := fread_le 4 f in
  let* (oldhash, f) := fread 32 f in
  let* (minhash, f) := fread 32 f in
  let* (msghash, f) := fread 32 f in
  let* (nodhash, f) := fread 32 f in
  let* (viphash, f) := fread 32 f in
  let* (nowhash, f) := fread 32 f in
  let* (vok, f) := fread_le 2 f in
  let* (vno, f) := fread_le 2 f in
  let* (vtot, f) := fread_le 2 f in
  let* nodes := (if read_nodes && negb (nod =? 0) then nodes_read (resize_nodes nod s.(sv_nodes)) f else Some s.(sv_nodes)) in
  Some {| sv_now := now; sv_msg := msg; sv_nod := nod; sv_div := div; sv_oldhash := oldhash; sv_minhash := minhash;
          sv_msghash := msghash; sv_nodhash := nodhash; sv_viphash := viphash; sv_nowhash := nowhash; sv_vok := vok;
          sv_vno := vno; sv_vtot := vtot; sv_txs := s.(sv_txs); sv_nodes := nodes |}.

(** [header_get]; [files] are the header files by block, 0 for
    [blk/header.hdr]. *)
Definition header_get (files : gmap Z (list Z)) (s : servers) : option servers :=
  let* file := files !! s.(sv_now) in
  let* s' := data_read s file false in
  check negb (s'.(sv_now) =? 0) && ((s.(sv_now) =? 0) || (s'.(sv_now) =? s.(sv_now))) in Some s'.

(** The files a finished block leaves: [put], then [header_put], which writes
    the header into [servers.srv] again. *)
Definition put (s : servers) (srv : list Z) : list Z := data_write s true srv.
Definition header_put (s : servers) (hdr srv : list Z) : list Z * list Z :=
  (data_write s false hdr, data_write s false srv).

(** Fields in the range of their types. *)
Definition node_wf (n : node) : Prop :=
  length n.(n_pk) = 32%nat /\ length n.(n_msha) = 32%nat /\ 0 <= n.(n_hash) < 2 ^ 256 /\ 0 <= n.(n_msid) < 2 ^ 32 /\
  0 <= n.(n_mtim) < 2 ^ 32 /\ - 2 ^ 63 <= n.(n_weight) < 2 ^ 63 /\ 0 <= n.(n_status) < 2 ^ 32 /\
  0 <= n.(n_users) < 2 ^ 32 /\ 0 <= n.(n_port) < 2 ^ 32 /\ 0 <= n.(n_ipv4) < 2 ^ 32.

Record srv_wf (s : servers) : Prop := {
  sw_now : 0 <= s.(sv_now) < 2 ^ 32; sw_msg : 0 <= s.(sv_msg) < 2 ^ 32; sw_div : 0 <= s.(sv_div) < 2 ^ 32;
  sw_old : length s.(sv_oldhash) = 32%nat; sw_min : length s.(sv_minhash) = 32%nat; sw_mh : length s.(sv_msghash) = 32%nat;
  sw_nh : length s.(sv_nodhash) = 32%nat; sw_vh : length s.(sv_viphash) = 32%nat; sw_now' : length s.(sv_nowhash) = 32%nat;
  sw_vok : 0 <= s.(sv_vok) < 2 ^ 16; sw_vno : 0 <= s.(sv_vno) < 2 ^ 16; sw_vtot : 0 <= s.(sv_vtot) < 2 ^ 16;
  sw_nod : s.(sv_nod) = Z.of_nat (length s.(sv_nodes)) /\ s.(sv_nod) < 2 ^ 32;
  sw_nodes : Forall node_wf s.(sv_nodes)
}.

Lemma node_read_data old n f : node_wf n -> node_read old (node_data n ++ f) = Some (peer_copy old n, f).
Proof.
  intros (Hpk & Hms & Hh & Hid & Ht & Hw & Hst & Hu & Hp & Hip). unfold node_data, node_read.
  fread_fields. destruct (fread_i64_app n.(n_weight)
    (le_bytes 4 (n_status n) ++ le_bytes 4 (n_users n) ++ le_bytes 4 (n_port n) ++ le_bytes 4 (n_ipv4 n) ++ f) Hw) as (y & Ey & Hy).
  rewrite Ey. fread_fields. rewrite Hy. reflexivity.
Qed.

Lemma nodes_read_data olds ns f :
  length olds = length ns -> Forall node_wf ns ->
  nodes_read olds (concat (map node_data ns) ++ f) = Some (zip_with peer_copy olds ns).
Proof.
  intros Hl Hw. revert olds Hl. induction Hw as [|n ns Hn Hw IH]; intros [|old olds] Hl; try discriminate; [reflexivity|].
  cbn [map concat nodes_read]. rewrite <- (assoc_L (++)), node_read_data by assumption.
  rewrite IH by (now injection Hl). reflexivity.
Qed.

Lemma length_resize_nodes n ns : length (resize_nodes n ns) = Z.to_nat n.
Proof. unfold resize_nodes. rewrite length_app, length_take, length_replicate. lia. Qed.

Lemma length_head_data s : srv_wf s -> length (head_data s) = 218%nat.
Proof.
  intros []. unfold head_data. rewrite !length_app, !length_le_bytes.
  rewrite sw_old0, sw_min0, sw_mh0, sw_nh0, sw_vh0, sw_now'0. reflexivity.
Qed.

(** The state that a reader has after it has read the file of [s]. *)
Definition read_back (s0 s : servers) : servers :=
  s <| sv_txs := s0.(sv_txs) |>
    <| sv_nodes := if s.(sv_nod) =? 0 then s0.(sv_nodes) else zip_with peer_copy (resize_nodes s.(sv_nod) s0.(sv_nodes)) s.(sv_nodes) |>.

Lemma data_read_nodes s0 s f :
  srv_wf s -> data_read s0 (head_data s ++ concat (map node_data s.(sv_nodes)) ++ f) true = Some (read_back s0 s).
Proof.
  intros []. destruct sw_nod0 as [En Hn]. unfold head_data, data_read.
  assert (0 <= sv_nod s) by lia. fread_fields. unfold read_back. cbn [andb].
  destruct (sv_nod s =? 0) eqn:E0; cbn [negb]; [reflexivity|].
  rewrite nodes_read_data; [reflexivity| |assumption]. rewrite length_resize_nodes. lia.
Qed.

Lemma data_read_head s0 s f : srv_wf s -> data_read s0 (head_data s ++ f) false = Some (s <| sv_txs := s0.(sv_txs) |> <| sv_nodes := s0.(sv_nodes) |>).
Proof.
  intros []. destruct sw_nod0 as [En Hn]. unfold head_data, data_read.
  assert (0 <= sv_nod s) by lia. fread_fields. reflexivity.
Qed.

Lemma pwrite_0 data f : pwrite 0 data f = data ++ drop (length data) f.
Proof. unfold pwrite. reflexivity. Qed.

(** [servers.srv] and [header.hdr] are read back as they were written by
    [finish], over whatever the files held before: the header and every field
    of every node; [changed] and [txs] stay those of the reader. *)
Theorem servers_file_roundtrip s s0 srv hdr :
  srv_wf s ->
  let '(hdr', srv') := header_put s hdr (put s srv) in
  data_read s0 srv' true = Some (read_back s0 s) /\
  data_read s0 hdr' false = Some (s <| sv_txs := s0.(sv_txs) |> <| sv_nodes := s0.(sv_nodes) |>).
Proof.
  intros Hw. pose proof (length_head_data s Hw) as Hl. unfold header_put, put, data_write. rewrite !pwrite_0, !app_nil_r.
  rewrite (take_ge _ (Z.to_nat (sv_nod s))) by (destruct Hw as [? ? ? ? ? ? ? ? ? ? ? ? [-> _] _]; lia).
  split.
  - rewrite <- (assoc_L (++)), drop_app_length. now apply data_read_nodes.
  - now apply data_read_head.
Qed.

(** * Hashes of the blocks of a period *)

(** [save_nowhash] and [load_nowhash]: the files [blk/%03X.now] by the top
    bits of the time, 32 bytes per block. *)
Definition now_slot (now : Z) : nat := Z.to_nat (Z.land now 0xFFFFF / BLOCKSEC * 32).

Definition save_nowhash (files : gmap Z (list Z)) (now : Z) (nowhash : list Z) : gmap Z (list Z) :=
  let k := Z.shiftr now 20 in <[k := pwrite (now_slot now) nowhash (default [] (files !! k))]> files.

Definition load_nowhash (files : gmap Z (list Z)) (now : Z) : option (list Z) :=
  let* f := files !! Z.shiftr now 20 in
  let* (h, _) := fread 32 (drop (now_slot now) f) in Some h.

Lemma length_pwrite off data f : length (pwrite off data f) = Nat.max (off + length data) (length f).
Proof. unfold pwrite. rewrite !length_app, length_take, length_drop, length_app, length_replicate. lia. Qed.

Lemma pwrite_here off data f : drop off (pwrite off data f) = data ++ drop (off + length data) f.
Proof.
  unfold pwrite. rewrite drop_app_ge, length_take, length_app, length_replicate by (rewrite length_take, length_app, length_replicate; lia).
  replace (off - _)%nat with 0%nat by lia. apply drop_0.
Qed.

Lemma lookup_pwrite_ne off data f i :
  (i < off \/ off + length data <= i)%nat -> (i < length f)%nat -> pwrite off data f !! i = f !! i.
Proof.
  intros Hi Hf. unfold pwrite. destruct Hi as [Hi|Hi].
  - rewrite lookup_app_l by (rewrite length_take, length_app, length_replicate; lia).
    rewrite lookup_take_lt by assumption. now rewrite lookup_app_l.
  - rewrite lookup_app_r, length_take, length_app, length_replicate by (rewrite length_take, length_app, length_replicate; lia).
    rewrite lookup_app_r by lia. rewrite lookup_drop. f_equal. lia.
Qed.

Lemma take_drop_pwrite_ne off off' n data f :
  (off' + n <= off \/ off + length data <= off')%nat -> (off' + n <= length f)%nat ->
  take n (drop off' (pwrite off data f)) = take n (drop off' f).
Proof.
  intros Ho Hl. apply list_eq. intros i. destruct (decide (i < n)%nat) as [Hi|Hi].
  - rewrite !lookup_take_lt, !lookup_drop by assumption. apply lookup_pwrite_ne; lia.
  - now rewrite !lookup_take_ge by lia.
Qed.

Lemma shiftr_block a : 0 <= a -> Z.shiftr (BLOCKSEC * a) 20 = a / 2048.
Proof.
  intros Ha. rewrite Z.shiftr_div_pow2 by lia. change (2 ^ 20) with (BLOCKSEC * 2048).
  now rewrite Z.div_mul_cancel_l.
Qed.

Lemma now_slot_block a : 0 <= a -> now_slot (BLOCKSEC * a) = Z.to_nat (a mod 2048 * 32).
Proof.
  intros Ha. unfold now_slot. change 0xFFFFF with (Z.ones 20). rewrite Z.land_ones by lia.
  change (2 ^ 20) with (BLOCKSEC * 2048). rewrite Z.mul_mod_distr_l by discriminate.
  rewrite (Z.mul_comm BLOCKSEC (a mod 2048)), Z.div_mul by discriminate. reflexivity.
Qed.

(** The hash of a block is loaded as it was saved, and saving the hash of
    another block does not change it. *)
Theorem nowhash_roundtrip files now h :
  length h = 32%nat ->
  load_nowhash (save_nowhash files now h) now = Some h /\
  forall now' h', 0 <= now -> 0 <= now' -> now mod BLOCKSEC = 0 -> now' mod BLOCKSEC = 0 -> now' <> now ->
    load_nowhash files now' = Some h' -> load_nowhash (save_nowhash files now h) now' = Some h'.
Proof.
  intros Hl. split.
  - unfold load_nowhash, save_nowhash. rewrite lookup_insert_eq, pwrite_here, fread_app by assumption. reflexivity.
  - intros now' h' Hn Hn' Hm Hm' Hne E. unfold load_nowhash, save_nowhash in *.
    destruct (decide (Z.shiftr now 20 = Z.shiftr now' 20)) as [Ek|Ek]; [|now rewrite lookup_insert_ne].
    rewrite Ek, lookup_insert_eq. destruct (files !! Z.shiftr now' 20) as [f|]; [|discriminate]. change (default [] (Some f)) with f.
    assert (Hs : (now_slot now' + 32 <= now_slot now \/ now_slot now + 32 <= now_slot now')%nat).
    { apply Z.mod_divide in Hm as [a ->]; [|discriminate]. apply Z.mod_divide in Hm' as [b ->]; [|discriminate].
      rewrite (Z.mul_comm a), (Z.mul_comm b) in *.
      assert (Ha : 0 <= a) by (unfold BLOCKSEC in *; lia). assert (Hb : 0 <= b) by (unfold BLOCKSEC in *; lia).
      rewrite !shiftr_block in Ek by assumption. rewrite !now_slot_block by assumption.
      assert (Hab : a <> b) by (intros ->; congruence).
      pose proof (Z.div_mod a 2048). pose proof (Z.div_mod b 2048).
      pose proof (Z.mod_pos_bound a 2048). pose proof (Z.mod_pos_bound b 2048). lia. }
    unfold fread in *. rewrite length_drop in E. rewrite length_drop.
    destruct (Nat.leb_spec 32 (length f - now_slot now')) as [Hf|]; [|discriminate].
    rewrite length_pwrite, (proj2 (Nat.leb_le 32 (Nat.max (now_slot now + length h) (length f) - now_slot now'))) by lia.
    rewrite take_drop_pwrite_ne by (rewrite ?Hl; lia). exact E.
Qed.

(** * What a syncing node checks *)

Section Sync.
Context `{Sha256}.

Lemma node_hash_copy old n : node_hash (peer_copy old n) = node_hash n.
Proof. reflexivity. Qed.

Lemma nodes_hash_copy old ns : nodes_hash (map (peer_copy old) ns) = nodes_hash ns.
Proof. unfold nodes_hash. rewrite map_map. reflexivity. Qed.

(** The keys of a VIP file give its hash. *)
Lemma vip_hash_run_bytes l h :
  Forall (fun p : Z * list Z => length p.2 = 32%nat) l ->
  vip_hash_run (length l) h (drop 2 (vip_bytes l)) = foldl (fun h p => addhash h p.2) h l.
Proof.
  intros Hl. revert h. induction Hl as [|[id pk] l Hp Hl IH]; intros h; [reflexivity|]. cbn [snd] in Hp.
  cbn [length vip_hash_run foldl]. unfold vip_bytes. cbn [map concat fst snd].
  rewrite <- (assoc_L (++)), drop_app_ge, length_le_bytes, Nat.sub_diag, drop_0 by (rewrite length_le_bytes; lia).
  rewrite rd_app_here by assumption. rewrite drop_app_ge by (rewrite Hp; lia). rewrite Hp. apply IH.
Qed.

Lemma length_vip_bytes l :
  Forall (fun p : Z * list Z => length p.2 = 32%nat) l -> length (vip_bytes l) = (34 * length l)%nat.
Proof.
  induction 1 as [|[id pk] l Hp Hl IH]; [reflexivity|]. cbn [snd] in Hp.
  change (vip_bytes ((id, pk) :: l)) with ((le_bytes 2 id ++ pk) ++ vip_bytes l).
  rewrite !length_app, length_le_bytes, Hp, IH. cbn [length]. lia.
Qed.

Lemma elem_of_insert_rank x y l : y ∈ insert_rank x l <-> y = x \/ y ∈ l.
Proof.
  induction l as [|z l IH]; cbn [insert_rank]; [rewrite list_elem_of_singleton, elem_of_nil; tauto|].
  destruct (_ <? _); rewrite ?elem_of_cons, ?IH; tauto.
Qed.

Lemma elem_of_stable_rank y l : y ∈ stable_rank l <-> y ∈ l.
Proof.
  unfold stable_rank.
  assert (Hg : forall acc, y ∈ foldl (fun acc x => insert_rank x acc) acc l <-> y ∈ acc \/ y ∈ l).
  { induction l as [|x l IH]; intros acc; cbn [foldl]; [rewrite elem_of_nil; tauto|].
    rewrite IH, elem_of_insert_rank, elem_of_cons. tauto. }
  rewrite Hg, elem_of_nil. tauto.
Qed.

Lemma elem_of_svid_rank s i n :
  (i, n) ∈ svid_rank s ->
  1 <= i < n_nodes s /\ n = nth_node s i /\ n ∈ s.(sv_nodes) /\ eligible s.(sv_now) n = true.
Proof.
  intros Hi. unfold svid_rank in Hi. apply elem_of_stable_rank, list_elem_of_filter in Hi as [He Hi]. cbn in He.
  apply list_elem_of_lookup in Hi as [k Hk]. rewrite lookup_drop in Hk. unfold numbered in Hk.
  apply lookup_zip_Some in Hk as [Hs Hn]. apply lookup_seqZ in Hs as [-> Hlt].
  split_and!; [lia|unfold n_nodes; lia| |now apply list_elem_of_lookup_2 in Hn|exact He].
  unfold nth_node. replace (Z.to_nat (0 + Z.of_nat (1 + k))) with (1 + k)%nat by lia.
  now rewrite (list_lookup_total_correct _ _ _ Hn).
Qed.

(** The VIP list names eligible nodes with their keys. *)
Lemma vip_list_elem s l i pk :
  vip_list s = Some l -> (i, pk) ∈ l ->
  1 <= i < n_nodes s /\ pk = n_pk (nth_node s i) /\ eligible s.(sv_now) (nth_node s i) = true.
Proof.
  intros E Hi. unfold vip_list in E.
  assert (Hr : exists n, (i, n) ∈ svid_rank s /\ pk = n_pk n).
  { destruct (svid_rank s) as [|[svid n] r] eqn:Er; [discriminate|]. simplify_eq.
    apply elem_of_cons in Hi as [[= -> ->]|Hi]; [exists n; split; [left|reflexivity]|].
    apply elem_of_elems in Hi. unfold vip_keys in Hi. apply elem_of_list_to_map_2 in Hi.
    apply list_elem_of_fmap in Hi as ([j m] & [= -> ->] & Hm).
    exists m. split; [|reflexivity]. apply (subseteq_take _ _) in Hm. now apply (subseteq_drop 1) in Hm. }
  destruct Hr as (n & Hn & ->). apply elem_of_svid_rank in Hn as (Hb & -> & _ & He). auto.
Qed.

Lemma vip_list_keys s l :
  Forall (fun n => length n.(n_pk) = 32%nat) s.(sv_nodes) -> vip_list s = Some l ->
  Forall (fun p : Z * list Z => length p.2 = 32%nat) l.
Proof.
  intros Hk E. apply Forall_forall. intros [i pk] Hi. eapply vip_list_elem in E as (Hb & -> & _); [|exact Hi].
  cbn [snd]. unfold nth_node. rewrite Forall_forall in Hk. apply Hk.
  apply list_elem_of_lookup_total_2. unfold n_nodes in Hb. lia.
Qed.

(** The hash of a block is recomputed from its header and from its link. *)
Lemma hashnow_header s s0 :
  let s' := clear_undo (hashnow s) in let head := header s' in
  sv_nowhash (loadhead s0 head) = head.(h_nowhash) /\
  sv_nowhash (loadlink s0 (filllink s') head.(h_now) head.(h_oldhash)) = head.(h_nowhash).
Proof. split; reflexivity. Qed.

(** A finished block passes the checks of a node that syncs to it: the
    node list it is sent has the hash of the header, the hash recomputed from
    the header and from the link of the block is the hash of the block, and the
    VIP file has the VIP hash of the header. *)
Theorem finished_block_accepted s s' vips s0 :
  Forall (fun n => length n.(n_pk) = 32%nat) s.(sv_nodes) -> servers_finish s = Some (s', vips) ->
  let head := header s' in
  (exists ns, copy_nodes s' (length s'.(sv_nodes)) = Some ns /\ check_nodes ns head.(h_nodhash) = true) /\
  sv_nowhash (loadhead s0 head) = head.(h_nowhash) /\
  sv_nowhash (loadlink s0 (filllink s') head.(h_now) head.(h_oldhash)) = head.(h_nowhash) /\
  vip_check head.(h_viphash) vips (length vips / 34) = true.
Proof.
  intros Hk E. unfold servers_finish in E. inv_opt.
  unfold update_viphash in E0. inv_opt. subst.
  match goal with E : vip_list ?s1 = Some ?l |- _ => assert (Hl := vip_list_keys s1 l Hk E) end.
  match goal with |- context [clear_undo (hashnow ?s2)] => pose proof (hashnow_header s2 s0) as [H1 H2] end.
  cbv zeta in *. split_and!; [|exact H1|exact H2|].
  - unfold copy_nodes. rewrite Nat.eqb_refl. eexists. split; [reflexivity|]. rewrite check_nodes_hash.
    apply bool_decide_true. rewrite nodes_hash_copy. unfold clear_undo, nodes_hash. cbn. rewrite map_map. reflexivity.
  - unfold vip_check. apply bool_decide_true. rewrite length_vip_bytes by assumption.
    rewrite Nat.mul_comm, Nat.div_mul by lia. now apply vip_hash_run_bytes.
Qed.

(** * VIP nodes of a block *)

(** The status of node [j] when [ids] are the VIP nodes, the first of them the
    master. *)
Definition vip_status (ids : list Z) (j st : Z) : Z :=
  let st := if bool_decide (j ∈ ids) then Z.lor st SERVER_VIP else st in
  if bool_decide (head ids = Some j) then Z.lor st SERVER_UNO else st.

Lemma nth_set_node s i j n :
  0 <= i < n_nodes s -> 0 <= j -> nth_node (set_node s i n) j = if decide (j = i) then n else nth_node s j.
Proof.
  intros Hi Hj. unfold nth_node, set_node, n_nodes in *. cbn. destruct (decide (j = i)) as [->|Hn].
  - apply list_lookup_total_insert_eq. lia.
  - apply list_lookup_total_insert_ne. lia.
Qed.

Lemma n_nodes_set_node s i n : n_nodes (set_node s i n) = n_nodes s.
Proof. unfold n_nodes, set_node. cbn. now rewrite length_insert. Qed.

(** Reading one entry of a VIP file. *)
Lemma vip_bytes_cons id pk l :
  0 <= id < 2 ^ 16 -> length pk = 32%nat ->
  rdz (vip_bytes ((id, pk) :: l)) 0 2 = id /\ drop (2 + 32) (vip_bytes ((id, pk) :: l)) = vip_bytes l.
Proof.
  intros Hid Hpk. change (vip_bytes ((id, pk) :: l)) with ((le_bytes 2 id ++ pk) ++ vip_bytes l).
  rewrite <- (assoc_L (++)). split; [rewrite rdz_here; [reflexivity|exact Hid]|].
  rewrite drop_app_ge, length_le_bytes by (rewrite length_le_bytes; lia). cbn [Nat.add Nat.sub].
  rewrite drop_app_ge, Hpk, Nat.sub_diag by lia. apply drop_0.
Qed.

(** The part of [mark_vips] that follows the master. *)
Lemma mark_vips_rest l s fuel :
  Forall (fun p : Z * list Z => 1 <= p.1 < n_nodes s /\ p.1 < 2 ^ 16 /\ length p.2 = 32%nat) l -> (length l <= fuel)%nat ->
  exists s', mark_vips fuel false (vip_bytes l) s = Some s' /\ n_nodes s' = n_nodes s /\
    forall j, 0 <= j -> nth_node s' j =
      if bool_decide (j ∈ l.*1) then (nth_node s j) <| n_status ::= fun st => Z.lor st SERVER_VIP |> else nth_node s j.
Proof.
  revert s fuel; induction l as [|[id pk] l IH]; intros s fuel Hl Hf.
  - exists s. destruct fuel; split_and!; auto.
  - inversion Hl as [|? ? (Hid & H16 & Hpk) Hr]; subst. cbn [fst snd] in *.
    destruct fuel as [|fuel]; [cbn in Hf; lia|].
    destruct (vip_bytes_cons id pk l) as [Er Ed]; [lia|assumption|].
    cbn [mark_vips]. destruct (vip_bytes ((id, pk) :: l)) as [|b0 bs] eqn:Eb; [discriminate Eb|]. rewrite Er, Ed.
    rewrite (proj2 (Z.ltb_lt 0 id)), (proj2 (Z.ltb_lt id (n_nodes s))) by lia. cbn [andb].
    set (s1 := set_node s id _).
    destruct (IH s1 fuel) as (s' & E & En & Ej); [|cbn in Hf; lia|].
    { eapply Forall_impl; [exact Hr|]. intros p. unfold s1. now rewrite n_nodes_set_node. }
    exists s'. split; [exact E|]. split; [unfold s1 in En; now rewrite n_nodes_set_node in En|].
    intros j Hj. rewrite Ej by assumption. unfold s1. rewrite nth_set_node by lia.
    cbn [fmap list_fmap fst]. destruct (decide (j = id)) as [->|Hn].
    + rewrite (bool_decide_true (id ∈ id :: l.*1)) by left.
      destruct (bool_decide (id ∈ l.*1)); [|reflexivity]. cbn. unfold set; cbn. f_equal.
      now rewrite <- Z.lor_assoc, Z.lor_diag.
    + rewrite (bool_decide_ext (j ∈ id :: l.*1) (j ∈ l.*1)) by (rewrite elem_of_cons; tauto). reflexivity.
Qed.

Lemma nth_clear_vips s j :
  1 <= j < n_nodes s ->
  nth_node (clear_vips s) j = (nth_node s j) <| n_status ::= fun st => clear_bits st (Z.lor SERVER_VIP SERVER_UNO) |>.
Proof.
  intros Hj. unfold nth_node, clear_vips, n_nodes in *. cbn [sv_nodes].
  destruct (sv_nodes s) as [|n0 ns]; [cbn in Hj; lia|].
  replace (Z.to_nat j) with (S (Z.to_nat (j - 1))) by lia.
  destruct (lookup_lt_is_Some_2 ns (Z.to_nat (j - 1))) as [n Hn]; [cbn [length] in Hj; lia|].
  rewrite (list_lookup_total_correct (n0 :: ns) (S (Z.to_nat (j - 1))) n Hn). apply list_lookup_total_correct.
  refine (eq_trans (list_lookup_fmap _ ns _) _). now rewrite Hn.
Qed.

Lemma n_nodes_clear_vips s : n_nodes (clear_vips s) = n_nodes s.
Proof. unfold n_nodes, clear_vips. cbn. destruct (sv_nodes s); cbn; [reflexivity|]. now rewrite length_map. Qed.

(** The VIP nodes of a block are exactly those of the VIP file named by
    the header: every bank loses its VIP and master bits and gets them back
    according to the file, the master being the first entry; no other field and
    no other status bit changes. *)
Theorem vip_status_exact s vips id pk l :
  vips !! s.(sv_viphash) = Some (vip_bytes ((id, pk) :: l)) ->
  Forall (fun p : Z * list Z => 1 <= p.1 < n_nodes s /\ p.1 < 2 ^ 16 /\ length p.2 = 32%nat) ((id, pk) :: l) ->
  exists s', update_vipstatus s vips = Some (s', vips) /\ n_nodes s' = n_nodes s /\
    forall j, 1 <= j < n_nodes s -> nth_node s' j =
      (nth_node s j) <| n_status ::= fun st => vip_status (id :: l.*1) j (clear_bits st (Z.lor SERVER_VIP SERVER_UNO)) |>.
Proof.
  intros Ev Hl. inversion Hl as [|? ? (Hid & H16 & Hpk) Hr]; subst. cbn [fst snd] in *.
  destruct (vip_bytes_cons id pk l) as [Er Ed]; [lia|assumption|].
  unfold update_vipstatus. change (sv_viphash (clear_vips s)) with (sv_viphash s). rewrite Ev.
  destruct (vip_bytes ((id, pk) :: l)) as [|b0 bs] eqn:Eb; [discriminate Eb|].
  cbn [mark_vips length]. rewrite Er, Ed, n_nodes_clear_vips.
  rewrite (proj2 (Z.ltb_lt 0 id)), (proj2 (Z.ltb_lt id (n_nodes s))) by lia. cbn [andb].
  set (s1 := set_node (clear_vips s) id _).
  assert (N1 : n_nodes s1 = n_nodes s) by (unfold s1; now rewrite n_nodes_set_node, n_nodes_clear_vips).
  destruct (mark_vips_rest l s1 (length bs)) as (s' & E & En & Ej); [now rewrite N1| |].
  { assert (Hlen := length_vip_bytes ((id, pk) :: l)).
    specialize (Hlen ltac:(eapply Forall_impl; [exact Hl|]; intros p Hp; apply Hp)).
    rewrite Eb in Hlen. cbn [length] in Hlen. lia. }
  rewrite E. exists s'. split_and!; [reflexivity|congruence|]. intros j Hj. rewrite Ej by lia.
  unfold s1. rewrite nth_set_node by (rewrite ?n_nodes_clear_vips; lia). unfold vip_status. cbn [head].
  destruct (decide (j = id)) as [->|Hn].
  - rewrite (bool_decide_true (id ∈ id :: l.*1)), (bool_decide_true (Some id = Some id)) by (reflexivity || left).
    rewrite nth_clear_vips by assumption. destruct (bool_decide (id ∈ l.*1)); [|reflexivity].
    unfold set; cbn. f_equal. rewrite <- !Z.lor_assoc. reflexivity.
  - rewrite (bool_decide_ext (j ∈ id :: l.*1) (j ∈ l.*1)) by (rewrite elem_of_cons; tauto).
    rewrite (bool_decide_false (Some id = Some j)) by congruence.
    rewrite nth_clear_vips by assumption. now destruct (bool_decide (j ∈ l.*1)).
Qed.
End Sync.

(** * Signatures of a block *)

(** An entry: the node and its signature. *)
Abbreviation svsi_t := (Z * list Z)%type.

Record sigfiles := {
  sf_ok : gmap Z (list svsi_t);              (* signatures.ok by block *)
  sf_no : gmap Z (list svsi_t);              (* signatures.no by block *)
  sf_hdr : gmap Z (list Z);                  (* header.hdr by block *)
  sf_srv : gmap Z (list Z)                   (* servers.srv by block *)
}.

Definition files_of (fl : sigfiles) (ok : bool) : gmap Z (list svsi_t) := if ok then fl.(sf_ok) else fl.(sf_no).

(** [save_signature]: a signature is stored once, and the vote counter of the
    current block follows the file. *)
Definition save_signature (s : servers) (fl : sigfiles) (path svid : Z) (sig : list Z) (ok : bool) : servers * sigfiles :=
  let file := default [] (files_of fl ok !! path) in
  if bool_decide ((svid, sig) ∈ file) then (s, fl)
  else
    let file := file ++ [(svid, sig)] in
    let fl := if ok then fl <| sf_ok ::= <[path := file]> |> else fl <| sf_no ::= <[path := file]> |> in
    if path =? s.(sv_now) then
      let num := u16 (Z.of_nat (length file)) in
      let s := if ok then s <| sv_vok := num |> else s <| sv_vno := num |> in
      let '(hdr, srv) := header_put s (default [] (fl.(sf_hdr) !! path)) (default [] (fl.(sf_srv) !! path)) in
      (s, fl <| sf_hdr ::= <[path := hdr]> |> <| sf_srv ::= <[path := srv]> |>)
    else (s, fl).

(** The bytes of the header that are signed. *)
Definition header_data (head : header_t) : list Z :=
  le_bytes 4 head.(h_now) ++ le_bytes 4 head.(h_msg) ++ le_bytes 4 head.(h_nod) ++ le_bytes 4 head.(h_div) ++
  head.(h_oldhash) ++ head.(h_msghash) ++ head.(h_nodhash) ++ head.(h_viphash) ++ head.(h_nowhash).

#[export] Instance svsi_inhabited : Inhabited svsi_t := populate (0, []).

Section Signatures.
(** [ed25519_sign_open] on message, key and signature, true when it accepts. *)
Context (sign_open : list Z -> list Z -> list Z -> bool).

(** A vote for the block counts when a VIP made it, a vote against it when
    some node did. *)
Definition vote_valid (s : servers) (head : header_t) (v : svsi_t) : bool :=
  (v.1 <? n_nodes s) && has_bits (nth_node s v.1).(n_status) SERVER_VIP &&
  sign_open (header_data head) (nth_node s v.1).(n_pk) v.2.
Definition novote_valid (s : servers) (head : header_t) (v : svsi_t) : bool :=
  (v.1 <? n_nodes s) && sign_open (header_data head) (nth_node s v.1).(n_pk) v.2.

(** One pass of [check_signatures] over the array from [i] on: entry [i] is
    moved to [j] when it is kept. *)
Fixpoint keep_loop (keep : svsi_t -> bool) (n i j : nat) (a : list svsi_t) : nat * list svsi_t :=
  match n with
  | O => (j, a)
  | S n => let v := a !!! i in
           if keep v then keep_loop keep n (S i) (S j) (if (j =? i)%nat then a else <[j := v]> a)
           else keep_loop keep n (S i) j a
  end.

(** [check_signatures]: the header with the new numbers and the array; the
    kept votes are saved when [save] is set. *)
Definition check_signatures (s : servers) (fl : sigfiles) (head : header_t) (a : list svsi_t) (save : bool) :
    header_t * list svsi_t * (servers * sigfiles) :=
  let vok := Z.to_nat head.(h_vok) in let vno := Z.to_nat head.(h_vno) in
  let fst := has_bits (nth_node s 0).(n_status) SERVER_FST in
  let '(j, a1) := keep_loop (fun v => fst || vote_valid s head v) vok 0 0 a in
  let st := if save && negb fst
            then foldl (fun st v => save_signature st.1 st.2 head.(h_now) v.1 v.2 true) (s, fl)
                   (filter (fun v => vote_valid s head v = true) (take vok a))
            else (s, fl) in
  let '(k, a2) := keep_loop (novote_valid s head) (Z.to_nat (u16 (head.(h_vno) + head.(h_vok))) - vok) vok j a1 in
  (head <| h_vok := u16 (Z.of_nat j) |> <| h_vno := u16 (Z.of_nat k - u16 (Z.of_nat j)) |>, a2, st).
End Signatures.

(** ** The pass over the array is a filter *)

Lemma keep_loop_spec keep n i j a :
  (j <= i)%nat -> (i + n <= length a)%nat ->
  let kept := filter (fun v => keep v = true) (take n (drop i a)) in
  let '(k, a') := keep_loop keep n i j a in
  k = (j + length kept)%nat /\ take k a' = take j a ++ kept /\ drop (i + n) a' = drop (i + n) a /\ length a' = length a.
Proof.
  revert i j a; induction n as [|n IH]; intros i j a Hij Hl; cbn [keep_loop].
  - rewrite take_0. cbn. rewrite app_nil_r, Nat.add_0_r. auto.
  - destruct (lookup_lt_is_Some_2 a i) as [v Hv]; [lia|]. rewrite (list_lookup_total_correct _ _ _ Hv).
    rewrite (drop_S a v i Hv). cbn [take]. rewrite filter_cons.
    destruct (keep v) eqn:Ek; [rewrite decide_True by reflexivity|rewrite decide_False by discriminate].
    + set (a1 := if (j =? i)%nat then a else <[j := v]> a).
      assert (Ha1 : length a1 = length a /\ drop (S i) a1 = drop (S i) a /\ take (S j) a1 = take j a ++ [v] /\
                    drop (S i + n) a1 = drop (S i + n) a).
      { unfold a1. destruct (Nat.eqb_spec j i) as [->|Hne].
        - split_and!; try reflexivity. now rewrite (take_S_r a i v Hv).
        - rewrite length_insert. split_and!; [reflexivity|apply drop_insert_lt; lia| |apply drop_insert_lt; lia].
          rewrite (take_S_r _ j v) by (apply list_lookup_insert_eq; lia). now rewrite take_insert_ge by lia. }
      destruct Ha1 as (L1 & D1 & T1 & D2). specialize (IH (S i) (S j) a1).
      destruct (keep_loop keep n (S i) (S j) a1) as [k a'].
      destruct IH as (Ek' & Et & Ed & El); [lia|lia|]. rewrite D1 in Ek', Et. rewrite T1 in Et. rewrite D2 in Ed.
      cbn [length]. split_and!; [lia| | |lia].
      * rewrite Et, <- (assoc_L (++)). reflexivity.
      * replace (i + S n)%nat with (S i + n)%nat by lia. exact Ed.
    + specialize (IH (S i) j a). destruct (keep_loop keep n (S i) j a) as [k a'].
      destruct IH as (Ek' & Et & Ed & El); [lia|lia|]. split_and!; auto.
      replace (i + S n)%nat with (S i + n)%nat by lia. exact Ed.
Qed.

Section SignaturesProps.
Context (sign_open : list Z -> list Z -> list Z -> bool).

(** [check_signatures], which moves the entries of the array in place,
    keeps the valid votes in their order: the VIP signatures of the header
    first, then the valid votes against it, and the header counts both. *)
Theorem check_signatures_filters s fl head a save :
  0 <= head.(h_vok) -> 0 <= head.(h_vno) -> head.(h_vok) + head.(h_vno) < 2 ^ 16 ->
  head.(h_vok) + head.(h_vno) <= Z.of_nat (length a) -> has_bits (nth_node s 0).(n_status) SERVER_FST = false ->
  let oks := filter (fun v => vote_valid sign_open s head v = true) (take (Z.to_nat head.(h_vok)) a) in
  let nos := filter (fun v => novote_valid sign_open s head v = true)
               (take (Z.to_nat head.(h_vno)) (drop (Z.to_nat head.(h_vok)) a)) in
  let '(head', a', _) := check_signatures sign_open s fl head a save in
  h_vok head' = Z.of_nat (length oks) /\ h_vno head' = Z.of_nat (length nos) /\
  take (length oks + length nos) a' = oks ++ nos.
Proof.
  intros Hok Hno Hs Hl Hf oks nos. unfold check_signatures. rewrite Hf.
  set (vok := Z.to_nat (h_vok head)) in *. set (vno := Z.to_nat (h_vno head)) in *.
  replace (Z.to_nat (u16 (h_vno head + h_vok head)) - vok)%nat with vno
    by (rewrite u16_small by lia; unfold vok, vno; lia).
  pose proof (keep_loop_spec (fun v => false || vote_valid sign_open s head v) vok 0 0 a) as S1.
  cbn [orb] in S1. rewrite drop_0 in S1. fold oks in S1. cbn [orb].
  destruct (keep_loop _ vok 0 0 a) as [j a1]. destruct S1 as (Ej & Et1 & Ed1 & El1); [lia|lia|].
  rewrite Nat.add_0_l in Ej, Ed1. rewrite take_0 in Et1.
  pose proof (length_filter (fun v => vote_valid sign_open s head v = true) (take vok a)) as Hlo. fold oks in Hlo.
  rewrite length_take in Hlo.
  pose proof (keep_loop_spec (novote_valid sign_open s head) vno vok j a1) as S2.
  rewrite Ed1 in S2. fold nos in S2. destruct (keep_loop _ vno vok j a1) as [k a2].
  destruct S2 as (Ek & Et2 & _ & _); [lia|lia|].
  pose proof (length_filter (fun v => novote_valid sign_open s head v = true) (take vno (drop vok a))) as Hln. fold nos in Hln.
  rewrite length_take in Hln. cbn. subst k j.
  rewrite Et1 in Et2. split_and!; [apply u16_small; lia| |exact Et2].
  rewrite (u16_small (Z.of_nat (length oks))) by lia. rewrite u16_small by lia. lia.
Qed.
End SignaturesProps.

(** The signatures of a block are stored without repetition, and the vote
    counter of the current block is their number. *)
Theorem save_signature_counts s fl path svid sig ok :
  NoDup (default [] (files_of fl ok !! path)) ->
  let '(s', fl') := save_signature s fl path svid sig ok in
  let file' := default [] (files_of fl' ok !! path) in
  NoDup file' /\ (svid, sig) ∈ file' /\
  (path = s.(sv_now) -> (svid, sig) ∉ default [] (files_of fl ok !! path) ->
   (if ok then sv_vok s' else sv_vno s') = u16 (Z.of_nat (length file'))).
Proof.
  intros Hnd. unfold save_signature. set (file := default [] (files_of fl ok !! path)) in *.
  case_bool_decide as Hin; [split_and!; [assumption..|tauto]|].
  assert (Hnd' : NoDup (file ++ [(svid, sig)])).
  { apply NoDup_app. split_and!; [exact Hnd| |apply NoDup_singleton].
    intros x Hx ->%list_elem_of_singleton. contradiction. }
  assert (Hnew : (svid, sig) ∈ file ++ [(svid, sig)]) by (apply elem_of_app; right; left).
  destruct (Z.eqb_spec path s.(sv_now)) as [->|Hne].
  - destruct ok; cbn; rewrite lookup_insert_eq; cbn; auto.
  - destruct ok; cbn; rewrite lookup_insert_eq; cbn; split_and!; tauto.
Qed.

(** * Examples *)

Definition in_range (lo hi x : Z) : bool := (lo <=? x) && (x <? hi).
Definition node_wfb (n : node) : bool :=
  (length n.(n_pk) =? 32)%nat && (length n.(n_msha) =? 32)%nat && in_range 0 (2 ^ 256) n.(n_hash) &&
  in_range 0 (2 ^ 32) n.(n_msid) && in_range 0 (2 ^ 32) n.(n_mtim) && in_range (- 2 ^ 63) (2 ^ 63) n.(n_weight) &&
  in_range 0 (2 ^ 32) n.(n_status) && in_range 0 (2 ^ 32) n.(n_users) && in_range 0 (2 ^ 32) n.(n_port) &&
  in_range 0 (2 ^ 32) n.(n_ipv4).

Lemma in_range_ok lo hi x : in_range lo hi x = true <-> lo <= x < hi.
Proof. unfold in_range. rewrite andb_true_iff, Z.leb_le, Z.ltb_lt. tauto. Qed.

Lemma node_wfb_ok n : node_wfb n = true -> node_wf n.
Proof. unfold node_wfb, node_wf. rewrite !andb_true_iff, !in_range_ok, !Nat.eqb_eq. tauto. Qed.

Definition demo_srv : servers := srvs_ (demo_server (H := toy_sha) [[10 ^ 12; 10 ^ 11]; [10 ^ 12; 5]]).

Definition srv_wfb (s : servers) : bool :=
  in_range 0 (2 ^ 32) s.(sv_now) && in_range 0 (2 ^ 32) s.(sv_msg) && in_range 0 (2 ^ 32) s.(sv_div) &&
  forallb (fun h => length h =? 32)%nat
    [s.(sv_oldhash); s.(sv_minhash); s.(sv_msghash); s.(sv_nodhash); s.(sv_viphash); s.(sv_nowhash)] &&
  in_range 0 (2 ^ 16) s.(sv_vok) && in_range 0 (2 ^ 16) s.(sv_vno) && in_range 0 (2 ^ 16) s.(sv_vtot) &&
  (s.(sv_nod) =? Z.of_nat (length s.(sv_nodes))) && (s.(sv_nod) <? 2 ^ 32) && forallb node_wfb s.(sv_nodes).

Lemma srv_wfb_ok s : srv_wfb s = true -> srv_wf s.
Proof.
  unfold srv_wfb. cbn [forallb]. rewrite !andb_true_iff, !in_range_ok, Z.eqb_eq, Z.ltb_lt, !Nat.eqb_eq. intros Hw.
  destruct_and? Hw. split; auto.
  apply Forall_forall. intros n Hn. apply node_wfb_ok.
  match goal with F : forallb node_wfb _ = true |- _ => rewrite forallb_forall in F; now apply F, list_elem_of_In end.
Qed.

Lemma demo_srv_wf : srv_wf demo_srv.
Proof. apply srv_wfb_ok. vm_compute. reflexivity. Qed.

Lemma servers_file_roundtrip_witness :
  data_read demo_srv (header_put demo_srv [] (put demo_srv [1; 2; 3])).2 true = Some (read_back demo_srv demo_srv).
Proof.
  exact (proj1 (servers_file_roundtrip demo_srv demo_srv [1; 2; 3] [] demo_srv_wf)).
Defined.

Lemma nowhash_roundtrip_witness :
  load_nowhash (save_nowhash (save_nowhash ∅ 0x5F000000 (replicate 32 1)) 0x5F000200 (replicate 32 2)) 0x5F000000 =
  Some (replicate 32 1).
Proof.
  destruct (nowhash_roundtrip (save_nowhash ∅ 0x5F000000 (replicate 32 1)) 0x5F000200 (replicate 32 2) eq_refl) as [_ Hk].
  apply Hk; first [discriminate | reflexivity].
Defined.

Lemma finished_block_accepted_witness :
  exists s' vips, servers_finish (H := toy_sha) demo_srv = Some (s', vips) /\
                  vip_check (H := toy_sha) (h_viphash (header s')) vips (length vips / 34) = true.
Proof.
  assert (Hok : (if servers_finish (H := toy_sha) demo_srv is Some _ then true else false) = true) by (vm_compute; reflexivity).
  destruct (servers_finish (H := toy_sha) demo_srv) as [[s' vips]|] eqn:E; [|discriminate Hok].
  exists s', vips. split; [reflexivity|].
  refine (proj2 (proj2 (proj2 (finished_block_accepted (H := toy_sha) demo_srv s' vips demo_srv _ E)))).
  repeat apply List.Forall_cons; try apply List.Forall_nil; reflexivity.
Defined.

Lemma vip_status_exact_witness :
  exists s', update_vipstatus (H := toy_sha) demo_srv {[ zero_hash := vip_bytes [(2, zero_hash); (1, zero_hash)] ]} =
               Some (s', {[ zero_hash := vip_bytes [(2, zero_hash); (1, zero_hash)] ]}) /\
             n_status (nth_node s' 2) = Z.lor SERVER_VIP SERVER_UNO /\ n_status (nth_node s' 1) = SERVER_VIP.
Proof.
  destruct (vip_status_exact (H := toy_sha) demo_srv {[ zero_hash := vip_bytes [(2, zero_hash); (1, zero_hash)] ]} 2 zero_hash
              [(1, zero_hash)]) as (s' & E & _ & Hj).
  - apply lookup_singleton_eq.
  - repeat apply List.Forall_cons; try apply List.Forall_nil; vm_compute; repeat split; congruence.
  - exists s'. split; [exact E|]. split.
    + rewrite (Hj 2) by (vm_compute; split; congruence). vm_compute. reflexivity.
    + rewrite (Hj 1) by (vm_compute; split; congruence). vm_compute. reflexivity.
Defined.

Definition demo_head : header_t := (header demo_srv) <| h_vok := 2 |> <| h_vno := 1 |>.
Definition demo_fl : sigfiles := {| sf_ok := ∅; sf_no := ∅; sf_hdr := ∅; sf_srv := ∅ |}.

(** Node 2 is a VIP, node 1 is not. *)
Definition vip_srv : servers := set_node demo_srv 2 ((nth_node demo_srv 2) <| n_status := SERVER_VIP |>).

Lemma check_signatures_filters_witness :
  h_vok (check_signatures (fun _ _ _ => true) vip_srv demo_fl demo_head [(1, [1]); (2, [2]); (1, [3])] true).1.1 = 1.
Proof.
  assert (T := check_signatures_filters (fun _ _ _ => true) vip_srv demo_fl demo_head [(1, [1]); (2, [2]); (1, [3])] true).
  destruct (check_signatures (fun _ _ _ => true) vip_srv demo_fl demo_head [(1, [1]); (2, [2]); (1, [3])] true) as [[head' a'] st].
  destruct T as (Eok & _); try (vm_compute; congruence). cbn [fst]. rewrite Eok. vm_compute. reflexivity.
Defined.

Lemma save_signature_counts_witness :
  sv_vok (save_signature demo_srv demo_fl demo_now 2 [7] true).1 = 1.
Proof.
  assert (T := save_signature_counts demo_srv demo_fl demo_now 2 [7] true).
  assert (E : files_of (save_signature demo_srv demo_fl demo_now 2 [7] true).2 true !! demo_now = Some [(2, [7])])
    by (vm_compute; reflexivity).
  destruct (save_signature demo_srv demo_fl demo_now 2 [7] true) as [s' fl'].
  destruct T as (_ & _ & Ev); [apply NoDup_nil_2|]. cbn [fst snd] in *. rewrite E in Ev. rewrite Ev; [reflexivity|reflexivity|].
  apply not_elem_of_nil.
Defined.
