(* ===== verification/Message.v ===== *)
(** Messages between nodes ([common/message.hpp]): the peers that know a
    message or were sent it, and whom to ask for it. *)

From stdpp Require Import base gmap list.
From Stdlib Require Import ZArith Lia.
From S2P Require Import Prelude Params HashTree Usertxs Accounts Servers Ledger Process Hlog Block Demo Chain.

(** * Peers of a message *)

(** The sets a message keeps: [know] is a vector in which 0 is a free place. *)
Record peers := { k_know : list Z; k_busy : gset Z; k_sent : gset Z; k_got : Z }.

Definition busy_insert (time p : Z) (k : peers) : peers := k <| k_got := time |> <| k_busy ::= fun b => {[p]} ∪ b |>.
Definition busy_erase (p : Z) (k : peers) : peers := k <| k_busy ::= fun b => b ∖ {[p]} |>.
Definition not_busy (p : Z) (k : peers) : bool := bool_decide (p ∉ k.(k_busy)).

Definition know_find_ (p : Z) (know : list Z) : bool := existsb (Z.eqb p) know.
Definition know_erase_ (p : Z) (know : list Z) : list Z := map (fun q => if q =? p then 0 else q) know.

(** The loop of [know_insert_]: whether [p] was found and the last free place. *)
Fixpoint know_scan (p : Z) (i : nat) (free : option nat) (know : list Z) : bool * option nat :=
  match know with
  | [] => (false, free)
  | q :: know => if q =? p then (true, free) else know_scan p (S i) (if q =? 0 then Some i else free) know
  end.

Definition know_insert_ (p : Z) (know : list Z) : list Z :=
  match know_scan p 0 None know with
  | (true, _) => know
  | (false, Some n) => <[n := p]> know
  | (false, None) => know ++ [p]
  end.

Definition know_emplace (p : Z) (k : peers) : bool * peers :=
  if know_find_ p k.(k_know) then (false, k) else (true, k <| k_know ::= know_insert_ p |>).

Definition sent_emplace (p : Z) (k : peers) : bool * peers :=
  if bool_decide (p ∈ k.(k_sent)) then (false, k)
  else (true, k <| k_know ::= know_insert_ p |> <| k_sent ::= fun s => {[p]} ∪ s |> <| k_busy ::= fun b => {[p]} ∪ b |>).

Definition sent_erase (p : Z) (k : peers) : peers := k <| k_sent ::= fun s => s ∖ {[p]} |>.
Definition know_sent_erase (p : Z) (k : peers) : peers := sent_erase p (k <| k_know ::= know_erase_ p |>).

(** [cansend]; [ignore] is that the message has its data. *)
Definition cansend (ignore : bool) (p mynow maxwait : Z) (k : peers) : bool * peers :=
  if ignore then (false, k)
  else if mynow <=? u32 (k.(k_got) + MAX_MSGWAIT + maxwait) then (false, k)
  else if bool_decide (p ∉ k.(k_sent)) then (true, k <| k_got := mynow |>) else (false, k).

(** [request]; [random] is the number drawn. *)
Definition request (ignore : bool) (mynow random : Z) (k : peers) : Z * peers :=
  if ignore then (0, k)
  else if mynow <=? u32 (k.(k_got) + MAX_MSGWAIT) then (0, k)
  else
    match filter (fun q => q ∉ k.(k_sent)) k.(k_know) with
    | [] => (0, k)
    | ps => (nthz ps (Z.to_nat (random mod Z.of_nat (length ps))), k <| k_got := mynow |>)
    end.

(** The set a vector stands for. *)
Definition know_set (know : list Z) : gset Z := list_to_set know ∖ {[0]}.

(** A peer is in the vector once; 0 may be repeated. *)
Definition know_ok (know : list Z) : Prop := NoDup (filter (fun q => q <> 0) know).

Lemma know_find_spec p know : know_find_ p know = true <-> p ∈ know.
Proof.
  unfold know_find_. rewrite existsb_exists. split.
  - intros (q & Hq & ->%Z.eqb_eq). now apply list_elem_of_In.
  - intros Hp. exists p. split; [now apply list_elem_of_In|apply Z.eqb_refl].
Qed.

Lemma know_scan_spec p i free know :
  match know_scan p i free know with
  | (true, _) => p ∈ know
  | (false, r) => (p ∉ know) /\ (r = free \/ exists j, r = Some (i + j)%nat /\ know !! j = Some 0)
  end.
Proof.
  revert i free; induction know as [|q know IH]; intros i free; cbn [know_scan].
  - split; [apply not_elem_of_nil|auto].
  - destruct (Z.eqb_spec q p) as [->|Hn]; [left|].
    specialize (IH (S i) (if q =? 0 then Some i else free)).
    destruct (know_scan p (S i) _ know) as [[|] r]; [now right|].
    destruct IH as [Hni IH]. split; [rewrite not_elem_of_cons; split; congruence|].
    destruct IH as [->|(j & -> & Hj)].
    + destruct (Z.eqb_spec q 0) as [->|]; [right; exists 0%nat; split; [f_equal; lia|reflexivity]|auto].
    + right. exists (S j). split; [f_equal; lia|exact Hj].
Qed.

Lemma filter_insert_zero (know : list Z) j p :
  know !! j = Some 0 -> p <> 0 ->
  filter (fun q => q <> 0) (<[j := p]> know) ≡ₚ p :: filter (fun q => q <> 0) know.
Proof.
  intros Hj Hp. rewrite <- (take_drop_middle know j 0 Hj) at 2.
  rewrite insert_take_drop by (eapply lookup_lt_Some; exact Hj).
  rewrite !filter_app, !filter_cons, decide_True, decide_False by auto.
  symmetry. apply Permutation_middle.
Qed.

Lemma know_insert_perm p know :
  p <> 0 -> p ∉ know -> filter (fun q => q <> 0) (know_insert_ p know) ≡ₚ p :: filter (fun q => q <> 0) know.
Proof.
  intros Hp Hn. unfold know_insert_. pose proof (know_scan_spec p 0 None know) as Hs.
  destruct (know_scan p 0 None know) as [[|] [n|]]; [contradiction|contradiction| |].
  - destruct Hs as [_ [|(j & [= ->] & Hj)]]; [discriminate|]. now apply filter_insert_zero.
  - rewrite filter_app, filter_cons, decide_True by assumption. cbn. symmetry. apply Permutation_cons_append.
Qed.

Lemma know_set_filter know : know_set know = list_to_set (filter (fun q => q <> 0) know).
Proof.
  unfold know_set. apply set_eq. intros q. rewrite elem_of_difference, !elem_of_list_to_set, list_elem_of_filter, elem_of_singleton. tauto.
Qed.

Lemma filter_know_erase p know :
  filter (fun q => q <> 0) (know_erase_ p know) = filter (fun q => q <> 0 /\ q <> p) know.
Proof.
  induction know as [|q know IH]; [reflexivity|].
  change (know_erase_ p (q :: know)) with ((if q =? p then 0 else q) :: know_erase_ p know). rewrite !filter_cons, IH.
  destruct (Z.eqb_spec q p) as [->|Hn].
  - rewrite decide_False by auto. now rewrite decide_False by tauto.
  - destruct (decide (q = 0)); [rewrite decide_False by auto; now rewrite decide_False by tauto|].
    rewrite decide_True by auto. now rewrite decide_True by tauto.
Qed.

(** The vector of peers that know a message behaves as a set: inserting
    and erasing a peer change exactly that peer, no peer is stored twice, and a
    lookup finds exactly the members. *)
Theorem know_is_a_set p know :
  p <> 0 -> know_ok know ->
  (know_ok (know_insert_ p know) /\ know_set (know_insert_ p know) = {[p]} ∪ know_set know) /\
  (know_ok (know_erase_ p know) /\ know_set (know_erase_ p know) = know_set know ∖ {[p]}) /\
  (know_find_ p know = true <-> p ∈ know_set know).
Proof.
  intros Hp Hok. split_and!.
  - unfold know_ok. destruct (decide (p ∈ know)) as [Hin|Hn].
    + unfold know_insert_. pose proof (know_scan_spec p 0 None know) as Hs.
      destruct (know_scan p 0 None know) as [[|] r]; [exact Hok|]. now destruct Hs.
    + rewrite know_insert_perm by assumption. apply NoDup_cons. split; [|exact Hok].
      rewrite list_elem_of_filter. tauto.
  - rewrite !know_set_filter. destruct (decide (p ∈ know)) as [Hin|Hn].
    + unfold know_insert_. pose proof (know_scan_spec p 0 None know) as Hs.
      destruct (know_scan p 0 None know) as [[|] r]; [|now destruct Hs].
      apply set_eq. intros q. rewrite elem_of_union, elem_of_singleton, !elem_of_list_to_set, !list_elem_of_filter.
      split; [tauto|intros [->|?]; tauto].
    + apply set_eq. intros q. rewrite elem_of_union, elem_of_singleton, !elem_of_list_to_set.
      rewrite (know_insert_perm p know Hp Hn), elem_of_cons. tauto.
  - unfold know_ok. rewrite filter_know_erase. revert Hok. unfold know_ok.
    clear. induction know as [|q know IH]; [constructor|]. rewrite !filter_cons.
    destruct (decide (q <> 0)) as [Hq|Hq].
    + intros [Hn Hd]%NoDup_cons. destruct (decide (q <> 0 /\ q <> p)); [|auto].
      apply NoDup_cons. split; [|auto]. rewrite list_elem_of_filter in *. tauto.
    + rewrite decide_False by tauto. auto.
  - rewrite !know_set_filter, filter_know_erase. apply set_eq. intros q.
    rewrite elem_of_difference, elem_of_singleton, !elem_of_list_to_set, !list_elem_of_filter. tauto.
  - rewrite know_find_spec. unfold know_set. rewrite elem_of_difference, elem_of_list_to_set, elem_of_singleton. tauto.
Qed.

Lemma know_is_a_set_witness : know_set (know_insert_ 3 [5; 0; 7]) = {[3]} ∪ know_set [5; 0; 7].
Proof.
  apply (know_is_a_set 3 [5; 0; 7]); [discriminate|]. unfold know_ok. vm_compute.
  repeat (apply NoDup_cons_2; [rewrite ?elem_of_cons, ?elem_of_nil; lia|]). apply NoDup_nil_2.
Defined.

(** [request] draws the peer from all places of the vector, also the
    freed ones: a message known to one peer and with one freed place is asked
    from peer 0, which is none. *)
Theorem request_may_pick_freed_place :
  let k := {| k_know := know_erase_ 4 [4; 5]; k_busy := ∅; k_sent := ∅; k_got := 0 |} in
  know_set k.(k_know) = {[5]} /\ (request false 1000 0 k).1 = 0 /\ k_got (request false 1000 0 k).2 = 1000.
Proof. cbv zeta. split; [apply set_eq; intros q; cbn; set_solver|]. split; reflexivity. Qed.
