(* ===== verification/MerklePath.v ===== *)
(** Paths in the hash tree ([hashtree::hashpath] of [common/hash.hpp]): the
    positions, in the list of all hashes of the tree, of the hashes that lead
    from a leaf to the root. *)

From stdpp Require Import base list.
From Stdlib Require Import ZArith Lia.
From S2P Require Import Prelude HashTree.

(** * The code *)

(** The loop; [diff] is the number of nodes of a full tree of the current
    level.  The positions are in the order in which they are pushed. *)
Fixpoint hashpath_loop (fuel : nat) (posend posnum posfin hashnum hashmax diff : Z) : list Z :=
  match fuel with
  | O => []
  | S fuel =>
      if negb (diff <? posend) then []
      else
        let '(posadd, posnum) :=
          if Z.odd hashnum then (u32 (posnum - diff), u32 (posnum + 1))
          else let posadd := u32 (posnum + diff) in (posadd, u32 (posadd + 1)) in
        let '(out, posfin, hashmax) :=
          if posadd <? posend then ([posadd], posfin, hashmax)
          else (if 0 <? posfin then [posfin] else [], 0, 0) in
        let posfin := if Z.odd hashmax then (if posfin =? 0 then u32 (posend - 1) else u32 (posfin + 1)) else posfin in
        out ++ hashpath_loop fuel posend posnum posfin (hashnum / 2) (hashmax / 2) (u32 (2 * diff + 1))
  end.

Definition hashpath (hashnum hashmax : Z) : list Z :=
  let posnum := u32 (u32 (2 * hashnum) - bits hashnum) in
  let posend := u32 (u32 (2 * hashmax) - bits hashmax) in
  hashpath_loop 32 posend posnum 0 hashnum hashmax 1.

Lemma hashpath_loop_length fuel posend posnum posfin hashnum hashmax diff :
  (length (hashpath_loop fuel posend posnum posfin hashnum hashmax diff) <= fuel)%nat.
Proof.
  revert posnum posfin hashnum hashmax diff; induction fuel as [|fuel IH]; intros; cbn [hashpath_loop length]; [lia|].
  destruct (negb _); [cbn; lia|]. destruct (Z.odd hashnum), (_ <? posend); rewrite length_app;
    match goal with |- (_ + length (hashpath_loop _ ?a ?b ?c ?d ?e ?f) <= _)%nat => pose proof (IH b c d e f) end; cbn [length]; try lia;
    destruct (0 <? posfin); cbn [length]; lia.
Qed.

Lemma hashpath_length hashnum hashmax : (length (hashpath hashnum hashmax) <= 32)%nat.
Proof. apply hashpath_loop_length. Qed.

(** * Positions *)

Lemma popcount_even q : 0 <= q -> popcount (2 * q) = popcount q.
Proof.
  intros Hq. rewrite popcount_div2 by lia. rewrite Z.mul_comm, Z.mod_mul, Z.div_mul by lia. reflexivity.
Qed.

Lemma popcount_odd q : 0 <= q -> popcount (2 * q + 1) = popcount q + 1.
Proof.
  intros Hq. rewrite popcount_div2 by lia. replace (2 * q + 1) with (1 + q * 2) by lia.
  rewrite Z.mod_add, Z.div_add by lia. change (1 mod 2) with 1. change (1 / 2) with 0. rewrite Z.add_0_l. lia.
Qed.

(** Induction on the binary representation. *)
Lemma bin_ind (P : Z -> Prop) :
  P 0 -> (forall q, 0 <= q -> P q -> P (2 * q)) -> (forall q, 0 <= q -> P q -> P (2 * q + 1)) -> forall n, 0 <= n -> P n.
Proof.
  intros H0 He Ho. apply Zlt_0_ind. intros n IH Hn. destruct (decide (n = 0)) as [->|]; [exact H0|].
  pose proof (Z.div_mod n 2 ltac:(lia)) as E. pose proof (Z.mod_pos_bound n 2 ltac:(lia)).
  assert (0 <= n / 2 < n) by (split; [apply Z.div_pos|apply Z.div_lt]; lia).
  destruct (decide (n mod 2 = 0)).
  - replace n with (2 * (n / 2)) by lia. apply He; [lia|]. apply IH. lia.
  - replace n with (2 * (n / 2) + 1) by lia. apply Ho; [lia|]. apply IH. lia.
Qed.

Lemma popcount_bound q : 0 <= q -> 0 <= popcount q <= q.
Proof.
  revert q. apply bin_ind; [cbn; lia| |]; intros q Hq IH; [rewrite popcount_even by lia|rewrite popcount_odd by lia]; lia.
Qed.

Lemma popcount_succ q : 0 <= q -> popcount (q + 1) <= popcount q + 1.
Proof.
  revert q. apply bin_ind; [vm_compute; discriminate| |]; intros q Hq IH.
  - rewrite popcount_odd, popcount_even by lia. lia.
  - rewrite popcount_odd by lia. replace (2 * q + 1 + 1) with (2 * (q + 1)) by lia. rewrite popcount_even by lia. lia.
Qed.

Lemma pos_popcount_pos p : 0 < popcount (Z.pos p).
Proof. cbn. induction p; cbn; lia. Qed.

(** The number of nodes after [n] leaves, and the position of node [q] of
    level [j]. *)
Definition psz (n : Z) : Z := 2 * n - popcount n.
Definition npos (j : nat) (q : Z) : Z := 2 ^ (Z.of_nat j + 1) * (q + 1) - 2 - popcount q.

Lemma psz_mono a b : 0 <= a <= b -> psz a + (b - a) <= psz b.
Proof.
  intros [Ha Hb]. replace b with (a + (b - a)) by lia. generalize (b - a) (Z.le_0_sub a b). intros d Hd.
  assert (0 <= d) by (apply Hd in Hb; lia). clear Hd Hb. revert d H. apply natlike_ind; [replace (a + 0) with a by lia; lia|].
  intros d Hd IH. unfold psz in *. replace (a + Z.succ d) with (a + d + 1) by lia. pose proof (popcount_succ (a + d)). lia.
Qed.

Lemma popcount_ones j : popcount (2 ^ Z.of_nat j - 1) = Z.of_nat j.
Proof.
  induction j as [|j IH]; [reflexivity|]. rewrite Nat2Z.inj_succ, Z.pow_succ_r by lia.
  replace (2 * 2 ^ Z.of_nat j - 1) with (2 * (2 ^ Z.of_nat j - 1) + 1) by lia.
  rewrite popcount_odd by (assert (0 < 2 ^ Z.of_nat j) by lia; lia). lia.
Qed.

(** The last leaf below node [q] of level [j]. *)
Lemma popcount_last j q : 0 <= q -> popcount ((q + 1) * 2 ^ Z.of_nat j - 1) = popcount q + Z.of_nat j.
Proof.
  intros Hq. assert (0 < 2 ^ Z.of_nat j) by lia. rewrite (popcount_split j) by nia.
  replace ((q + 1) * 2 ^ Z.of_nat j - 1) with ((2 ^ Z.of_nat j - 1) + q * 2 ^ Z.of_nat j) by lia.
  rewrite Z.mod_add, Z.div_add, Z.mod_small, Z.div_small by lia. rewrite popcount_ones. rewrite Z.add_0_l. lia.
Qed.

Lemma popcount_shift j q : 0 <= q -> popcount (q * 2 ^ Z.of_nat j) = popcount q.
Proof.
  intros Hq. assert (0 < 2 ^ Z.of_nat j) by lia. rewrite (popcount_split j) by nia.
  rewrite Z.mod_mul, Z.div_mul by lia. reflexivity.
Qed.

Lemma pow_succ j : 2 ^ (Z.of_nat j + 1) = 2 * 2 ^ Z.of_nat j.
Proof. rewrite Z.pow_add_r by lia. lia. Qed.

(** A node is in the list exactly when its leaves are. *)
Lemma npos_complete j q n : 0 <= q -> (q + 1) * 2 ^ Z.of_nat j <= n -> npos j q < psz n.
Proof.
  intros Hq Hn. assert (0 < 2 ^ Z.of_nat j) by lia. unfold npos. rewrite pow_succ.
  pose proof (psz_mono ((q + 1) * 2 ^ Z.of_nat j) n ltac:(nia)) as Hm. unfold psz in *.
  rewrite popcount_shift in Hm by lia. pose proof (popcount_succ q Hq). lia.
Qed.

Lemma npos_incomplete j q n : 0 <= q -> 0 <= n < (q + 1) * 2 ^ Z.of_nat j -> psz n <= npos j q.
Proof.
  intros Hq Hn. unfold npos. rewrite pow_succ. pose proof (psz_mono n ((q + 1) * 2 ^ Z.of_nat j - 1) ltac:(lia)) as Hm.
  unfold psz in *. rewrite popcount_last in Hm by lia. lia.
Qed.

Lemma npos_bound j q : 0 <= q -> 0 <= npos j q <= 2 * ((q + 1) * 2 ^ Z.of_nat j) - 2.
Proof.
  intros Hq. assert (0 < 2 ^ Z.of_nat j) by lia. unfold npos. rewrite pow_succ. pose proof (popcount_bound q Hq). nia.
Qed.

(** Sibling and parent. *)
Lemma npos_left j q : 0 <= q -> npos j (2 * q + 1) - (2 ^ (Z.of_nat j + 1) - 1) = npos j (2 * q).
Proof. intros Hq. unfold npos. rewrite popcount_odd, popcount_even by lia. lia. Qed.
Lemma npos_parent j q : 0 <= q -> npos j (2 * q + 1) + 1 = npos (S j) q.
Proof.
  intros Hq. unfold npos. rewrite popcount_odd by lia. rewrite Nat2Z.inj_succ.
  replace (Z.succ (Z.of_nat j) + 1) with (Z.of_nat j + 1 + 1) by lia. rewrite (Z.pow_add_r 2 (Z.of_nat j + 1) 1) by lia. lia.
Qed.

(** * The list of all hashes *)

Section Full.
Context `{Sha256}.

Abbreviation hash_t := (list Z).

(** Node [q] of level [j] over the leaves [l]. *)
Fixpoint nodeval (l : list hash_t) (j : nat) (q : Z) : hash_t :=
  match j with
  | O => l !!! Z.to_nat q
  | S j => addhash (nodeval l j (2 * q)) (nodeval l j (2 * q + 1))
  end.

(** The hashes an update pushes, behind the leaf. *)
Fixpoint carry_push (s : list (option hash_t)) (x : hash_t) : list hash_t :=
  match s with
  | Some a :: r => addhash a x :: carry_push r (addhash a x)
  | _ => []
  end.

(** Leaves and pushed hashes in the order of time, and the slots. *)
Definition feed (a : list hash_t * list (option hash_t)) (x : hash_t) : list hash_t * list (option hash_t) :=
  (a.1 ++ x :: carry_push a.2 x, carry a.2 x).

Definition fed (l : list hash_t) : list hash_t * list (option hash_t) := foldl feed ([], replicate MAXTREE None) l.

Abbreviation len l := (Z.of_nat (length l)).

Lemma fed_snoc l x : fed (l ++ [x]) = feed (fed l) x.
Proof. unfold fed. now rewrite foldl_app. Qed.

Lemma fed_slots l : Z.of_nat (length l) < 2 ^ 32 -> holds (fed l).2 l /\ length (fed l).2 = MAXTREE.
Proof.
  induction l as [|x l IH] using rev_ind; intros Hl.
  - split; [|reflexivity]. vm_compute. repeat split.
  - rewrite length_app in Hl. cbn [length] in Hl. destruct IH as [Hs Hn]; [lia|]. rewrite fed_snoc. unfold feed. cbn [snd].
    split.
    + apply carry_holds; [|exact Hs]. rewrite Hn. apply Nat2Z.inj_lt. rewrite Nat2Z.inj_pow. exact Hl.
    + rewrite <- Hn. clear. generalize (fed l).2. intros s. revert x. induction s as [|[a|] s IH]; intros x; cbn; auto.
Qed.

Lemma last_odd_spec (l : list hash_t) :
  last_odd l = if Z.odd (len l) then Some (l !!! (length l - 1)%nat) else None.
Proof.
  induction l as [|a|a b l IH] using list_ind2; try reflexivity. cbn [last_odd length]. rewrite IH.
  replace (Z.of_nat (S (S (length l)))) with (Z.of_nat (length l) + 2 * 1) by lia. rewrite Z.odd_add_mul_2.
  destruct l as [|c l]; [reflexivity|]. destruct (Z.odd _); [|reflexivity]. f_equal. cbn [length].
  replace (S (S (S (length l))) - 1)%nat with (S (S (length l))) by lia.
  replace (S (length l) - 1)%nat with (length l) by lia. reflexivity.
Qed.

Lemma length_pairs_div (l : list hash_t) : len (pairs l) = len l / 2.
Proof.
  induction l as [|a|a b l IH] using list_ind2; try reflexivity. cbn [pairs length].
  replace (Z.of_nat (S (S (length l)))) with (len l + 1 * 2) by lia. rewrite Z.div_add by lia. rewrite <- IH. lia.
Qed.

Lemma pairs_at (l : list hash_t) k :
  (2 * k + 1 < length l)%nat -> pairs l !!! k = addhash (l !!! (2 * k)%nat) (l !!! (2 * k + 1)%nat).
Proof.
  revert k. induction l as [|a|a b l IH] using list_ind2; intros k Hk; cbn [length] in Hk; try lia.
  destruct k as [|k]; [reflexivity|]. cbn [pairs].
  replace (2 * S k)%nat with (S (S (2 * k))) by lia. change (pairs l !!! k = addhash (l !!! (2 * k)%nat) ((a :: b :: l) !!! (S (S (2 * k)) + 1)%nat)).
  rewrite IH by lia. reflexivity.
Qed.

(** The tree over the pairs is the tree without its leaves. *)
Lemma nodeval_pairs l j q :
  0 <= q -> (q + 1) * 2 ^ Z.of_nat (S j) <= len l -> nodeval (pairs l) j q = nodeval l (S j) q.
Proof.
  revert q; induction j as [|j IH]; intros q Hq Hl.
  - cbn [nodeval]. change (2 ^ Z.of_nat 1) with 2 in Hl. rewrite pairs_at by lia. f_equal; f_equal; lia.
  - change (nodeval l (S (S j)) q) with (addhash (nodeval l (S j) (2 * q)) (nodeval l (S j) (2 * q + 1))).
    cbn [nodeval]. rewrite (Nat2Z.inj_succ (S j)), Z.pow_succ_r in Hl by lia. rewrite !IH by nia. reflexivity.
Qed.

Lemma nodeval_app l k j q : 0 <= q -> (q + 1) * 2 ^ Z.of_nat j <= len l -> nodeval (l ++ k) j q = nodeval l j q.
Proof.
  revert q; induction j as [|j IH]; intros q Hq Hl; cbn [nodeval].
  - change (2 ^ Z.of_nat 0) with 1 in Hl. apply lookup_total_app_l. lia.
  - rewrite Nat2Z.inj_succ, Z.pow_succ_r in Hl by lia. rewrite !IH by nia. reflexivity.
Qed.

(** The leaves in full trees of level [j], as a number of nodes. *)
Definition full (n : Z) (j : nat) : Z := n / 2 ^ Z.of_nat j.

Lemma full_0 n : full n 0 = n.
Proof. apply Z.div_1_r. Qed.
Lemma full_S n j : full n (S j) = full n j / 2.
Proof. unfold full. rewrite Nat2Z.inj_succ, Z.pow_succ_r, Z.mul_comm, Z.div_div by lia. reflexivity. Qed.
Lemma full_half n j : full (n / 2) j = full n (S j).
Proof. unfold full. rewrite Nat2Z.inj_succ, Z.pow_succ_r, Z.div_div by lia. reflexivity. Qed.
Lemma full_le n j : full n j * 2 ^ Z.of_nat j <= n < (full n j + 1) * 2 ^ Z.of_nat j.
Proof.
  unfold full. assert (0 < 2 ^ Z.of_nat j) by lia. pose proof (Z.div_mod n (2 ^ Z.of_nat j) ltac:(lia)).
  pose proof (Z.mod_pos_bound n (2 ^ Z.of_nat j) ltac:(lia)). lia.
Qed.
Lemma full_pos n j : 0 <= n -> 0 <= full n j.
Proof. intros Hn. apply Z.div_pos; lia. Qed.
Lemma odd_pos x : 0 <= x -> Z.odd x = true -> 1 <= x.
Proof. intros Hx Ho. destruct (decide (x = 0)) as [->|]; [discriminate|lia]. Qed.

(** A slot holds the last full tree of its level. *)
Lemma holds_slot s l j :
  holds s l -> (j < length s)%nat ->
  s !! j = Some (if Z.odd (full (len l) j) then Some (nodeval l j (full (len l) j - 1)) else None).
Proof.
  revert s l; induction j as [|j IH]; intros [|o s] l Hs Hj; cbn [length] in Hj; try lia; destruct Hs as [-> Hs].
  - cbn [lookup list_lookup]. rewrite last_odd_spec, full_0.
    destruct (Z.odd (len l)); [|reflexivity]. cbn [nodeval]. do 3 f_equal. lia.
  - change (s !! j = Some (if Z.odd (full (len l) (S j)) then Some (nodeval l (S j) (full (len l) (S j) - 1)) else None)).
    rewrite (IH s (pairs l) Hs) by lia. rewrite length_pairs_div, full_half. f_equal.
    destruct (Z.odd _) eqn:Eo; [|reflexivity]. f_equal. apply odd_pos in Eo; [|apply full_pos; lia].
    apply nodeval_pairs; [lia|]. pose proof (full_le (len l) (S j)). lia.
Qed.

(** The nodes completed by a leaf. *)
Lemma carry_push_at s l x j :
  holds s l -> (length l + 1 < 2 ^ length s)%nat -> (len l + 1) mod 2 ^ Z.of_nat j = 0 ->
  (x :: carry_push s x) !! j = Some (nodeval (l ++ [x]) j (full (len l + 1) j - 1)).
Proof.
  revert s l x; induction j as [|j IH]; intros s l x Hs Hn Hm.
  { cbn. rewrite full_0. replace (Z.to_nat (len l + 1 - 1)) with (length l) by lia.
    rewrite lookup_total_app_r, Nat.sub_diag by lia. reflexivity. }
  assert (Ho : Z.odd (len l) = true).
  { rewrite Nat2Z.inj_succ, Z.pow_succ_r in Hm by lia. apply Z.mod_divide in Hm as [c Hc]; [|lia].
    rewrite <- (Z.add_simpl_r (len l) 1), Z.odd_sub, Hc. rewrite Z.odd_mul, Z.odd_mul. cbn. now rewrite andb_false_r. }
  destruct s as [|o s]; [cbn in Hn; lia|]. destruct Hs as [-> Hs]. rewrite last_odd_spec, Ho. cbn [carry_push].
  set (a := l !!! _). assert (Ea : last_odd l = Some a) by now rewrite last_odd_spec, Ho.
  destruct (snoc_odd l a x Ea) as [Ep _]. change ((addhash a x :: carry_push s (addhash a x)) !! j =
    Some (nodeval (l ++ [x]) (S j) (full (len l + 1) (S j) - 1))).
  assert (Hh : len (pairs l) + 1 = (len l + 1) / 2).
  { rewrite length_pairs_div. rewrite Z.odd_spec in Ho. destruct Ho as [c Hc]. rewrite Hc.
    replace (2 * c + 1 + 1) with ((c + 1) * 2) by lia. replace (2 * c + 1) with (1 + c * 2) by lia.
    rewrite Z.div_mul, Z.div_add by lia. change (1 / 2) with 0. lia. }
  rewrite (IH s (pairs l)).
  - rewrite Hh, full_half, <- Ep. f_equal. apply nodeval_pairs.
    + pose proof (full_le (len l + 1) (S j)). assert (0 < 2 ^ Z.of_nat (S j)) by lia.
      apply Z.mod_divide in Hm as [c Hc]; [|lia]. unfold full. rewrite Hc, Z.div_mul by lia. nia.
    + rewrite length_app. cbn [length]. pose proof (full_le (len l + 1) (S j)). lia.
  - exact Hs.
  - pose proof (length_pairs l). cbn [length] in Hn. rewrite Nat.pow_succ_r' in Hn.
    pose proof (Z.odd_spec (len l)) as [Hz _]. destruct (Hz Ho) as [c Hc]. lia.
  - rewrite Hh. rewrite Nat2Z.inj_succ, Z.pow_succ_r in Hm by lia. apply Z.mod_divide in Hm as [c Hc]; [|lia].
    rewrite Hc. replace (c * (2 * 2 ^ Z.of_nat j)) with (c * 2 ^ Z.of_nat j * 2) by lia. rewrite Z.div_mul by lia. apply Z.mod_mul. lia.
Qed.

Lemma carry_push_length s l x :
  holds s l -> (length l + 1 < 2 ^ length s)%nat -> len (carry_push s x) = popcount (len l) + 1 - popcount (len l + 1).
Proof.
  revert l x; induction s as [|o s IH]; intros l x Hs Hn; [cbn in Hn; lia|]. destruct Hs as [-> Hs].
  rewrite last_odd_spec. pose proof (length_pairs_div l) as Hp. pose proof (Z.div_mod (len l) 2 ltac:(lia)) as Hd.
  rewrite Zmod_odd in Hd. cbn [length] in Hn. rewrite Nat.pow_succ_r' in Hn. destruct (Z.odd (len l)); cbn [carry_push].
  - cbn [length]. rewrite Nat2Z.inj_succ, (IH (pairs l)) by (assumption || lia). rewrite Hp.
    replace (len l) with (2 * (len l / 2) + 1) at 3 4 by lia. replace (2 * (len l / 2) + 1 + 1) with (2 * (len l / 2 + 1)) by lia.
    rewrite popcount_odd, popcount_even by lia. lia.
  - replace (len l) with (2 * (len l / 2)) by lia. rewrite popcount_odd, popcount_even by lia. cbn. lia.
Qed.

Lemma fed_length l : len l < 2 ^ 32 -> len (fed l).1 = psz (len l).
Proof.
  induction l as [|x l IH] using rev_ind; intros Hl; [reflexivity|].
  rewrite length_app in *. cbn [length] in *. rewrite fed_snoc. unfold feed. cbn [fst]. rewrite length_app. cbn [length].
  destruct (fed_slots l ltac:(lia)) as [Hs Hn].
  pose proof (carry_push_length (fed l).2 l x Hs) as Hc. rewrite Hn in Hc.
  assert (Hp : (length l + 1 < 2 ^ MAXTREE)%nat) by (apply Nat2Z.inj_lt; rewrite Nat2Z.inj_pow; exact Hl).
  specialize (Hc Hp). specialize (IH ltac:(lia)). unfold psz in *.
  replace (len l + Z.of_nat 1) with (len l + 1) by lia. replace (Z.of_nat (length l + 1)) with (len l + 1) by lia. lia.
Qed.

(** Every complete node is in the list, at its position. *)
Lemma fed_at l j q :
  len l < 2 ^ 32 -> 0 <= q -> (q + 1) * 2 ^ Z.of_nat j <= len l ->
  (fed l).1 !! Z.to_nat (npos j q) = Some (nodeval l j q).
Proof.
  intros Hl Hq. revert Hl. induction l as [|x l IH] using rev_ind; intros Hl Hn.
  { cbn in Hn. assert (0 < 2 ^ Z.of_nat j) by lia. nia. }
  rewrite length_app in *. cbn [length] in *. replace (Z.of_nat (length l + 1)) with (len l + 1) in * by lia.
  rewrite fed_snoc. unfold feed. cbn [fst]. pose proof (fed_length l ltac:(lia)) as Hf.
  destruct (Z.le_gt_cases ((q + 1) * 2 ^ Z.of_nat j) (len l)) as [Hc|Hc].
  - pose proof (npos_complete j q (len l) Hq Hc). pose proof (npos_bound j q Hq).
    rewrite lookup_app_l by lia. rewrite nodeval_app by lia. apply IH; lia.
  - assert (E : (q + 1) * 2 ^ Z.of_nat j = len l + 1) by lia.
    destruct (fed_slots l ltac:(lia)) as [Hs Hm].
    assert (Ep : npos j q = len (fed l).1 + Z.of_nat j).
    { rewrite Hf. unfold npos, psz. rewrite pow_succ. pose proof (popcount_last j q Hq) as Hx.
      rewrite E in Hx. replace (len l + 1 - 1) with (len l) in Hx by lia. lia. }
    rewrite lookup_app_r by lia. replace (Z.to_nat (npos j q) - length (fed l).1)%nat with j by lia.
    rewrite (carry_push_at _ l x j Hs).
    + f_equal. f_equal. unfold full. rewrite <- E, Z.div_mul by lia. lia.
    + rewrite Hm. apply Nat2Z.inj_lt. rewrite Nat2Z.inj_pow. change (Z.of_nat 2 ^ Z.of_nat MAXTREE) with (2 ^ 32). lia.
    + rewrite <- E. apply Z.mod_mul. lia.
Qed.

(** ** The hashes of [finish] *)

(** The hash of the slots below, if any is loaded. *)
Fixpoint facc (s : list (option hash_t)) (acc : option hash_t) : option hash_t :=
  match s with
  | [] => acc
  | None :: r => facc r acc
  | Some a :: r => facc r (Some match acc with None => a | Some c => addhash c a end)
  end.

Fixpoint finish_push (s : list (option hash_t)) (acc : option hash_t) : list hash_t :=
  match s with
  | [] => []
  | None :: r => finish_push r acc
  | Some a :: r =>
      match acc with
      | None => finish_push r (Some a)
      | Some c => addhash c a :: finish_push r (Some (addhash c a))
      end
  end.

Fixpoint nload (s : list (option hash_t)) : Z :=
  match s with [] => 0 | None :: r => nload r | Some _ :: r => 1 + nload r end.

Lemma nload_nonneg s : 0 <= nload s.
Proof. induction s as [|[?|] s IH]; cbn [nload]; lia. Qed.

Lemma nload_app s t : nload (s ++ t) = nload s + nload t.
Proof. induction s as [|[?|] s IH]; cbn [nload app]; lia. Qed.

Lemma facc_app s t acc : facc (s ++ t) acc = facc t (facc s acc).
Proof. revert acc; induction s as [|[?|] s IH]; intros acc; cbn [facc app]; auto. Qed.

Lemma finish_push_app s t acc : finish_push (s ++ t) acc = finish_push s acc ++ finish_push t (facc s acc).
Proof.
  revert acc; induction s as [|[a|] s IH]; intros acc; cbn [facc finish_push app]; [reflexivity| |apply IH].
  destruct acc as [c|]; cbn [app]; [f_equal|]; apply IH.
Qed.

Lemma facc_none s : facc s None = None <-> nload s = 0.
Proof.
  induction s as [|[a|] s IH]; cbn [facc nload]; [tauto| |exact IH]. pose proof (nload_nonneg s).
  split; [|lia]. intros E. exfalso. revert E. generalize a. clear. induction s as [|[b|] s IH]; intros a; cbn [facc]; [discriminate|apply IH|apply IH].
Qed.

Lemma facc_unloaded s acc : nload s = 0 -> facc s acc = acc.
Proof.
  revert acc. induction s as [|[a|] s IH]; intros acc; cbn [facc nload]; [reflexivity| |apply IH].
  pose proof (nload_nonneg s). lia.
Qed.

Lemma finish_push_length_some s c : len (finish_push s (Some c)) = nload s.
Proof. revert c; induction s as [|[a|] s IH]; intros c; cbn [finish_push nload length]; [reflexivity| |apply IH]. rewrite Nat2Z.inj_succ, IH. lia. Qed.

Lemma finish_push_length s : len (finish_push s None) = Z.max 0 (nload s - 1).
Proof.
  induction s as [|[a|] s IH]; cbn [finish_push nload]; [reflexivity| |exact IH].
  rewrite finish_push_length_some. pose proof (nload_nonneg s). lia.
Qed.

(** The last hash pushed is the accumulator. *)
Lemma finish_push_last_some s c : last (finish_push s (Some c)) = if nload s =? 0 then None else facc s (Some c).
Proof.
  revert c; induction s as [|[a|] s IH]; intros c; cbn [finish_push nload facc]; [reflexivity| |apply IH].
  pose proof (nload_nonneg s). rewrite (proj2 (Z.eqb_neq (1 + nload s) 0)) by lia.
  rewrite last_cons, IH. destruct (Z.eqb_spec (nload s) 0) as [E|E].
  - now rewrite facc_unloaded.
  - destruct (facc s _) eqn:Ef; [reflexivity|]. exfalso. clear -Ef. revert Ef. generalize (addhash c a). clear.
    induction s as [|[b|] s IH]; intros a; cbn [facc]; [discriminate|apply IH|apply IH].
Qed.

Lemma finish_push_last s : 2 <= nload s -> last (finish_push s None) = facc s None.
Proof.
  induction s as [|[a|] s IH]; cbn [finish_push nload facc]; [lia| |exact IH]. intros Hn.
  rewrite finish_push_last_some, (proj2 (Z.eqb_neq _ _)) by lia. reflexivity.
Qed.

Lemma collect_facc s c : facc s (Some c) = Some (collect s c).
Proof. revert c; induction s as [|[a|] s IH]; intros c; cbn [facc collect]; auto. Qed.

Lemma collect_first_facc s : collect_first s = default zero_hash (facc s None).
Proof. induction s as [|[a|] s IH]; cbn [facc collect_first]; [reflexivity| |exact IH]. now rewrite collect_facc. Qed.

(** Leaves, the hashes of [update] and those of [finish]. *)
Definition allhashes (l : list hash_t) : list hash_t := (fed l).1 ++ finish_push (fed l).2 None.

Lemma allhashes_length l : len l < 2 ^ 32 -> len (allhashes l) = psz (len l) + Z.max 0 (nload (fed l).2 - 1).
Proof. intros Hl. unfold allhashes. rewrite length_app, Nat2Z.inj_add, fed_length, finish_push_length by assumption. reflexivity. Qed.

Lemma allhashes_at l j q :
  len l < 2 ^ 32 -> 0 <= q -> (q + 1) * 2 ^ Z.of_nat j <= len l -> allhashes l !! Z.to_nat (npos j q) = Some (nodeval l j q).
Proof. intros. unfold allhashes. apply lookup_app_l_Some. now apply fed_at. Qed.

(** ** The slots below a level *)

Section Below.
Context (l : list hash_t) (Hl : len l < 2 ^ 29).
Abbreviation n := (len l).
Abbreviation s := (fed l).2.

Lemma take_slot i :
  (i < MAXTREE)%nat ->
  take (S i) s = take i s ++ [if Z.odd (full n i) then Some (nodeval l i (full n i - 1)) else None].
Proof.
  intros Hi. destruct (fed_slots l ltac:(lia)) as [Hs Hm]. apply take_S_r. apply holds_slot; [exact Hs|]. now rewrite Hm.
Qed.

Lemma nload_S i : (i < MAXTREE)%nat -> nload (take (S i) s) = nload (take i s) + (if Z.odd (full n i) then 1 else 0).
Proof. intros Hi. rewrite take_slot, nload_app by exact Hi. destruct (Z.odd _); cbn [nload]; lia. Qed.

Lemma nload_take i : nload (take i s) <= nload s.
Proof. pose proof (nload_app (take i s) (drop i s)) as Ha. rewrite take_drop in Ha. pose proof (nload_nonneg (drop i s)). lia. Qed.

(** No slot loaded: a whole number of full trees. *)
Lemma nload_zero i : (i <= MAXTREE)%nat -> nload (take i s) = 0 -> n = full n i * 2 ^ Z.of_nat i.
Proof.
  induction i as [|i IH]; intros Hi H0; [rewrite full_0; cbn; lia|].
  rewrite nload_S in H0 by lia. pose proof (nload_nonneg (take i s)). rewrite full_S, Nat2Z.inj_succ, Z.pow_succ_r by lia.
  destruct (Z.odd (full n i)) eqn:Eo; [lia|]. rewrite <- Z.negb_even in Eo. apply negb_false_iff in Eo.
  apply Z.even_spec in Eo as [c Hc]. assert (Ed : full n i / 2 = c) by (rewrite Hc, Z.mul_comm; apply Z.div_mul; lia).
  rewrite Ed. rewrite Hc in IH. specialize (IH ltac:(lia) ltac:(lia)). lia.
Qed.

(** The accumulated hash of a level is in the list. *)
Lemma acc_at i h :
  (i <= MAXTREE)%nat -> facc (take i s) None = Some h ->
  allhashes l !! Z.to_nat (psz n - 2 + nload (take i s)) = Some h.
Proof.
  intros Hi Hh. pose proof (nload_nonneg (take i s)) as Hp. pose proof (fed_length l ltac:(lia)) as Hf.
  destruct (Z.lt_ge_cases 1 (nload (take i s))) as [Hc|Hc].
  - assert (E : finish_push s None = finish_push (take i s) None ++ finish_push (drop i s) (facc (take i s) None))
      by (rewrite <- finish_push_app, take_drop; reflexivity).
    unfold allhashes. rewrite E.
    pose proof (finish_push_last (take i s) ltac:(lia)) as He. rewrite Hh, last_lookup in He.
    pose proof (finish_push_length (take i s)). rewrite lookup_app_r by lia. apply lookup_app_l_Some. rewrite <- He. f_equal. lia.
  - revert Hi Hh Hp Hc. induction i as [|i IH]; intros Hi Hh Hp Hc; [discriminate|].
    pose proof (nload_S i ltac:(lia)) as Hn. pose proof (nload_nonneg (take i s)).
    rewrite (take_slot i ltac:(lia)), facc_app in Hh. destruct (Z.odd (full n i)) eqn:Eo; cbn [facc] in Hh.
    + assert (Hz0 : nload (take i s) = 0) by lia. rewrite (proj2 (facc_none _) Hz0) in Hh.
      pose proof (nload_zero i ltac:(lia) Hz0) as Ez. pose proof (odd_pos _ (full_pos n i ltac:(lia)) Eo).
      rewrite <- Hh, <- (allhashes_at l i (full n i - 1)) by lia. f_equal. f_equal.
      unfold npos, psz. rewrite pow_succ. rewrite Hn, Hz0. set (q := full n i) in *.
      assert (Epq : popcount n = popcount (q - 1) + 1).
      { rewrite Ez, popcount_shift by lia. apply Z.odd_spec in Eo as [c Hcc]. rewrite Hcc.
        replace (2 * c + 1 - 1) with (2 * c) by lia. rewrite popcount_odd, popcount_even by lia. lia. }
      lia.
    + rewrite Hn, Z.add_0_r. apply IH; try lia. exact Hh.
Qed.

(** Below a level that covers all leaves there is nothing more. *)
Lemma facc_all i : (i <= MAXTREE)%nat -> n < 2 ^ Z.of_nat i -> facc s None = facc (take i s) None.
Proof.
  intros Hi Hn. destruct (fed_slots l ltac:(lia)) as [Hs Hm]. transitivity (facc (take i s ++ drop i s) None);
    [now rewrite take_drop|]. rewrite facc_app. apply facc_unloaded.
  assert (Hz : forall k, (i <= k <= MAXTREE)%nat -> nload (take k s) = nload (take i s)).
  { induction k as [|k IH]; intros Hk; [now replace i with O by lia|].
    destruct (decide (i = S k)) as [->|Hne]; [reflexivity|]. rewrite nload_S, IH by lia.
    replace (full n k) with 0; [cbn; lia|]. unfold full. symmetry. apply Z.div_small. split; [lia|].
    assert (2 ^ Z.of_nat i <= 2 ^ Z.of_nat k) by (apply Z.pow_le_mono_r; lia). lia. }
  specialize (Hz MAXTREE ltac:(lia)). rewrite take_ge in Hz by lia.
  pose proof (nload_app (take i s) (drop i s)) as Ha. rewrite take_drop in Ha. lia.
Qed.

Lemma psz_pow i : psz (2 ^ Z.of_nat i) = 2 ^ (Z.of_nat i + 1) - 1.
Proof. unfold psz. rewrite pow_succ. pose proof (popcount_shift i 1 ltac:(lia)) as E. rewrite Z.mul_1_l in E. rewrite E. reflexivity. Qed.

Lemma psz_small i : psz n <= 2 ^ (Z.of_nat i + 1) - 1 -> n <= 2 ^ Z.of_nat i.
Proof.
  intros Hn. destruct (Z.le_gt_cases n (2 ^ Z.of_nat i)) as [|Hc]; [assumption|].
  pose proof (psz_mono (2 ^ Z.of_nat i) n ltac:(lia)). rewrite psz_pow in *. lia.
Qed.
Lemma nload_mul i c : (i <= MAXTREE)%nat -> n = c * 2 ^ Z.of_nat i -> nload (take i s) = 0.
Proof.
  revert c; induction i as [|i IH]; intros c Hi Hc; [reflexivity|]. rewrite Nat2Z.inj_succ, Z.pow_succ_r in Hc by lia.
  rewrite nload_S, (IH (2 * c)) by lia. unfold full. rewrite Hc.
  replace (c * (2 * 2 ^ Z.of_nat i)) with (2 * c * 2 ^ Z.of_nat i) by lia. rewrite Z.div_mul by lia. now rewrite Z.odd_mul.
Qed.

(** ** The loop *)

Lemma psz_le : psz n <= 2 * n.
Proof. unfold psz. pose proof (popcount_bound n). lia. Qed.

Lemma level_small i : 2 ^ (Z.of_nat i + 1) - 1 < psz n -> (i < 30)%nat /\ 2 ^ Z.of_nat i <= n.
Proof.
  intros Hg. pose proof psz_le as Hp. rewrite pow_succ in Hg. assert (Hi : 2 ^ Z.of_nat i <= n) by lia. split; [|exact Hi].
  apply Nat2Z.inj_lt. apply (Z.pow_lt_mono_r_iff 2); [lia|lia|]. change (2 ^ Z.of_nat 30) with (2 ^ 30). lia.
Qed.

Lemma step_left i q :
  2 ^ (Z.of_nat i + 1) - 1 < psz n -> 0 <= q -> q * 2 ^ Z.of_nat i <= n -> Z.odd q = true ->
  u32 (npos i q - (2 ^ (Z.of_nat i + 1) - 1)) = npos i (q - 1) /\ u32 (npos i q + 1) = npos (S i) (q / 2) /\ q = 2 * (q / 2) + 1.
Proof.
  intros Hg Hq Hn Ho. destruct (level_small i Hg) as [_ Hi]. apply Z.odd_spec in Ho as [c ->].
  replace ((2 * c + 1) / 2) with c by (replace (2 * c + 1) with (1 + c * 2) by lia; rewrite Z.div_add by lia; reflexivity).
  replace (2 * c + 1 - 1) with (2 * c) by lia.
  pose proof (npos_bound i (2 * c) ltac:(lia)). pose proof (npos_bound (S i) c ltac:(lia)) as Hb.
  rewrite Nat2Z.inj_succ, Z.pow_succ_r in Hb by lia. rewrite npos_left, npos_parent by lia.
  split; [apply u32_small; nia|]. split; [apply u32_small; nia|reflexivity].
Qed.

Lemma step_right i q :
  2 ^ (Z.of_nat i + 1) - 1 < psz n -> 0 <= q -> q * 2 ^ Z.of_nat i <= n -> Z.odd q = false ->
  u32 (npos i q + (2 ^ (Z.of_nat i + 1) - 1)) = npos i (q + 1) /\ u32 (npos i (q + 1) + 1) = npos (S i) (q / 2) /\ q = 2 * (q / 2).
Proof.
  intros Hg Hq Hn Ho. destruct (level_small i Hg) as [_ Hi]. rewrite <- Z.negb_even in Ho. apply negb_false_iff in Ho.
  apply Z.even_spec in Ho as [c ->]. rewrite (Z.mul_comm 2 c), Z.div_mul, (Z.mul_comm c 2) by lia.
  pose proof (npos_bound i (2 * c + 1) ltac:(lia)). pose proof (npos_bound (S i) c ltac:(lia)) as Hb.
  rewrite Nat2Z.inj_succ, Z.pow_succ_r in Hb by lia. rewrite npos_parent by lia.
  rewrite <- (npos_left i c) by lia. replace (npos i (2 * c + 1) - (2 ^ (Z.of_nat i + 1) - 1) + (2 ^ (Z.of_nat i + 1) - 1)) with (npos i (2 * c + 1)) by lia.
  split; [apply u32_small; nia|]. split; [apply u32_small; nia|reflexivity].
Qed.

Lemma step_diff i : 2 ^ (Z.of_nat i + 1) - 1 < psz n -> u32 (2 * (2 ^ (Z.of_nat i + 1) - 1) + 1) = 2 ^ (Z.of_nat (S i) + 1) - 1.
Proof.
  intros Hg. destruct (level_small i Hg) as [_ Hi]. rewrite !pow_succ, Nat2Z.inj_succ, Z.pow_succ_r by lia.
  rewrite u32_small by lia. lia.
Qed.

(** Running the path from [v]. *)
Definition runpath (v : hash_t) (ps : list Z) : hash_t := foldl addhash v (map (fun p => allhashes l !!! Z.to_nat p) ps).

Definition below_root (p : Z) : Prop := 0 <= p < len (allhashes l) - 1.

Lemma allhashes_total p h : allhashes l !! Z.to_nat p = Some h -> allhashes l !!! Z.to_nat p = h.
Proof. intros E. now rewrite list_lookup_total_alt, E. Qed.

(** When the last tree of the leaf's side has been left, the slots above are added. *)
Lemma loop_slots fuel i v :
  (i + fuel)%nat = MAXTREE -> facc (take i s) None = Some v ->
  let ps := hashpath_loop fuel (psz n) (npos i (full n i)) 0 (full n i) 0 (2 ^ (Z.of_nat i + 1) - 1) in
  facc s None = Some (runpath v ps) /\ Forall below_root ps.
Proof.
  revert i v; induction fuel as [|fuel IH]; intros i v Hi Hv; cbn [hashpath_loop]; cbv zeta.
  { split; [|constructor]. rewrite (facc_all i) by (try lia; replace i with MAXTREE by lia; change (2 ^ Z.of_nat MAXTREE) with (2 ^ 32); lia). exact Hv. }
  assert (Hc : 1 <= nload (take i s)).
  { pose proof (nload_nonneg (take i s)). assert (nload (take i s) <> 0); [|lia]. intros E. apply facc_none in E. congruence. }
  destruct (Z.ltb_spec (2 ^ (Z.of_nat i + 1) - 1) (psz n)) as [Hg|Hg]; cbn [negb].
  2:{ split; [|constructor]. apply psz_small in Hg. assert (n <> 2 ^ Z.of_nat i).
      { intros E. rewrite (nload_mul i 1) in Hc by lia. lia. }
      rewrite (facc_all i) by lia. exact Hv. }
  pose proof (full_le n i) as Hf. pose proof (full_pos n i ltac:(lia)) as Hp.
  pose proof (take_slot i ltac:(lia)) as Ht. pose proof (nload_S i ltac:(lia)) as Hn.
  pose proof (allhashes_length l ltac:(lia)) as Ha. pose proof (nload_take (S i)) as Hm.
  rewrite (step_diff i Hg).
  destruct (Z.odd (full n i)) eqn:Eo.
  - destruct (step_left i (full n i) Hg Hp ltac:(lia) Eo) as (E1 & E2 & E3). rewrite E1, E2, <- full_S.
    pose proof (npos_complete i (full n i - 1) n ltac:(lia) ltac:(lia)) as Hlt. pose proof (npos_bound i (full n i - 1) ltac:(lia)) as Hb.
    rewrite (proj2 (Z.ltb_lt _ _) Hlt). cbn [app Z.odd]. change (0 / 2) with 0.
    destruct (IH (S i) (addhash v (nodeval l i (full n i - 1)))) as [H1 H2]; [lia|now rewrite Ht, facc_app, Hv|].
    split; [|constructor; [unfold below_root; lia|exact H2]].
    rewrite H1. unfold runpath. cbn [map foldl]. do 2 f_equal. f_equal. symmetry. apply allhashes_total, allhashes_at; lia.
  - destruct (step_right i (full n i) Hg Hp ltac:(lia) Eo) as (E1 & E2 & E3). rewrite E1, E2, <- full_S.
    pose proof (npos_incomplete i (full n i + 1) n ltac:(lia) ltac:(nia)) as Hge.
    rewrite (proj2 (Z.ltb_ge _ _) Hge). cbn [app Z.odd]. change (0 / 2) with 0.
    apply IH; [lia|]. rewrite Ht, facc_app, Hv. reflexivity.
Qed.

(** The position of the accumulated hash, 0 when no slot below is loaded. *)
Definition fin (i : nat) : Z := if nload (take i s) =? 0 then 0 else psz n - 2 + nload (take i s).

Lemma nload_level i : (i <= MAXTREE)%nat -> nload (take i s) <= Z.of_nat i.
Proof.
  induction i as [|i IH]; intros Hi; [reflexivity|]. rewrite nload_S by lia. specialize (IH ltac:(lia)). destruct (Z.odd _); lia.
Qed.

Lemma fin_S i :
  2 ^ (Z.of_nat i + 1) - 1 < psz n ->
  (if Z.odd (full n i) then (if fin i =? 0 then u32 (psz n - 1) else u32 (fin i + 1)) else fin i) = fin (S i).
Proof.
  intros Hg. destruct (level_small i Hg) as [Hi _]. unfold fin. rewrite nload_S by (unfold MAXTREE; lia).
  pose proof (nload_nonneg (take i s)). pose proof psz_le as Hz. pose proof (nload_level i ltac:(unfold MAXTREE; lia)).
  assert (1 < psz n) by (rewrite pow_succ in Hg; assert (0 < 2 ^ Z.of_nat i) by lia; lia).
  destruct (Z.odd (full n i)); [|now rewrite Z.add_0_r].
  rewrite (proj2 (Z.eqb_neq (nload (take i s) + 1) 0)) by lia.
  destruct (Z.eqb_spec (nload (take i s)) 0) as [E|E].
  - change (0 =? 0) with true. cbv iota. rewrite u32_small by lia. lia.
  - rewrite (proj2 (Z.eqb_neq _ _)) by lia. rewrite u32_small by lia. lia.
Qed.

Context (Hh : Forall is_hash l).

Lemma nodeval_length i q : 0 <= q -> (q + 1) * 2 ^ Z.of_nat i <= n -> length (nodeval l i q) = 32%nat.
Proof.
  destruct i as [|i]; intros Hq Hn; cbn [nodeval]; [|apply addhash_hash].
  change (2 ^ Z.of_nat 0) with 1 in Hn. destruct (lookup_lt_is_Some_2 l (Z.to_nat q)) as [x Hx]; [lia|].
  rewrite list_lookup_total_alt, Hx. eapply Forall_lookup_1 in Hh; [|exact Hx]. apply Hh.
Qed.

Lemma facc_length i h : (i <= MAXTREE)%nat -> facc (take i s) None = Some h -> length h = 32%nat.
Proof.
  revert h; induction i as [|i IH]; intros h Hi Hf; [discriminate|]. rewrite take_slot, facc_app in Hf by lia.
  destruct (Z.odd (full n i)) eqn:Eo; cbn [facc] in Hf; [|apply IH; [lia|exact Hf]].
  destruct (facc (take i s) None); injection Hf as <-; [apply addhash_hash|].
  pose proof (full_le n i). pose proof (odd_pos _ (full_pos n i ltac:(lia)) Eo). apply nodeval_length; lia.
Qed.

Lemma parent_value i q :
  0 <= q -> (2 * q + 2) * 2 ^ Z.of_nat i <= n -> addhash (nodeval l i (2 * q + 1)) (nodeval l i (2 * q)) = nodeval l (S i) q.
Proof. intros Hq Hn. cbn [nodeval]. apply addhash_comm_len. rewrite !nodeval_length by nia. reflexivity. Qed.

(** The path positions from level [i] lead from [v] to the root. *)
Definition leads (v : hash_t) (ps : list Z) : Prop := facc s None = Some (runpath v ps) /\ Forall below_root ps.

(** One sibling, when both children of the parent are there. *)
Lemma leads_up i c p v ps :
  0 <= c -> (2 * c + 2) * 2 ^ Z.of_nat i <= n -> npos i p < npos (S i) c -> 0 <= p -> (p + 1) * 2 ^ Z.of_nat i <= n ->
  addhash v (nodeval l i p) = nodeval l (S i) c ->
  leads (nodeval l (S i) c) ps -> leads v (npos i p :: ps).
Proof.
  intros Hc Hn Hlt Hp Hpn Hv [H1 H2]. pose proof (npos_complete (S i) c n Hc) as Hcs.
  rewrite Nat2Z.inj_succ, Z.pow_succ_r in Hcs by lia. specialize (Hcs ltac:(lia)). pose proof (npos_bound i p Hp).
  pose proof (allhashes_length l ltac:(lia)). split; [|constructor; [unfold below_root; lia|exact H2]].
  rewrite H1. unfold runpath. cbn [map foldl]. do 2 f_equal. rewrite <- Hv. f_equal. symmetry. apply allhashes_total, allhashes_at; lia.
Qed.

(** Leaving the last tree of the leaf's side: the smaller trees, if any, come
    in as the accumulated hash. *)
Lemma leads_leave i ps :
  (i < MAXTREE)%nat -> Z.odd (full n i) = true -> 1 < psz n ->
  (forall v, facc (take (S i) s) None = Some v -> leads v ps) ->
  leads (nodeval l i (full n i - 1)) ((if 0 <? fin i then [fin i] else []) ++ ps).
Proof.
  intros Hi Ho Hz Hps. pose proof (take_slot i Hi) as Ht. pose proof (nload_S i Hi) as Hn. rewrite Ho in Ht, Hn.
  specialize (Hps (match facc (take i s) None with None => nodeval l i (full n i - 1) | Some c => addhash c (nodeval l i (full n i - 1)) end)).
  destruct Hps as [H1 H2]; [rewrite Ht, facc_app; reflexivity|]. unfold fin.
  destruct (facc (take i s) None) as [h|] eqn:Eh.
  - assert (Hc1 : nload (take i s) <> 0) by (intros E; apply facc_none in E; congruence).
    pose proof (nload_nonneg (take i s)). pose proof (nload_take (S i)). pose proof (allhashes_length l ltac:(lia)).
    rewrite (proj2 (Z.eqb_neq _ _) Hc1). rewrite (proj2 (Z.ltb_lt _ _)) by lia. cbn [app].
    split; [|constructor; [unfold below_root; lia|exact H2]].
    rewrite H1. unfold runpath. cbn [map foldl]. do 2 f_equal. rewrite (allhashes_total _ h) by (apply acc_at; [lia|exact Eh]).
    pose proof (full_le n i). pose proof (odd_pos _ (full_pos n i ltac:(lia)) Ho).
    apply addhash_comm_len. rewrite nodeval_length by lia. apply (facc_length i); [lia|exact Eh].
  - rewrite (proj1 (facc_none _) Eh). split; assumption.
Qed.

(** A single full tree ends at its top. *)
Lemma leads_end i q : (i < MAXTREE)%nat -> 0 <= q < full n i -> psz n <= 2 ^ (Z.of_nat i + 1) - 1 -> leads (nodeval l i q) [].
Proof.
  intros Hi Hq Hg. split; [|constructor]. apply psz_small in Hg. pose proof (full_le n i). assert (Hp : 0 < 2 ^ Z.of_nat i) by lia.
  assert (En : n = 2 ^ Z.of_nat i) by nia. assert (E1 : full n i = 1) by (unfold full; rewrite En; apply Z.div_same; lia).
  rewrite (facc_all (S i)) by (try rewrite Nat2Z.inj_succ, Z.pow_succ_r; lia). rewrite take_slot, facc_app, E1 by exact Hi.
  rewrite (proj2 (facc_none (take i s))) by (apply (nload_mul i 1); lia). cbn. replace q with 0 by lia. reflexivity.
Qed.

(** The leaf's side: the path visits the siblings of the nodes above it. *)
Lemma loop_tree fuel i num :
  (i + fuel)%nat = MAXTREE -> 0 <= num -> full num i < full n i ->
  leads (nodeval l i (full num i))
    (hashpath_loop fuel (psz n) (npos i (full num i)) (fin i) (full num i) (full n i) (2 ^ (Z.of_nat i + 1) - 1)).
Proof.
  intros Hi Hnum. revert i Hi. induction fuel as [|fuel IH]; intros i Hi Hq; cbn [hashpath_loop]; cbv zeta.
  { exfalso. replace i with MAXTREE in Hq by lia. pose proof (full_pos num MAXTREE Hnum).
    unfold full at 2 in Hq. rewrite Z.div_small in Hq by (change (2 ^ Z.of_nat MAXTREE) with (2 ^ 32); lia). lia. }
  pose proof (full_pos num i Hnum) as Hq0. pose proof (full_le n i) as Hf. assert (Hpw : 0 < 2 ^ Z.of_nat i) by lia.
  destruct (Z.ltb_spec (2 ^ (Z.of_nat i + 1) - 1) (psz n)) as [Hg|Hg]; cbn [negb]; [|apply leads_end; lia].
  rewrite (step_diff i Hg). pose proof (full_pos num (S i) Hnum) as Hc0.
  pose proof (npos_parent i (full num (S i)) Hc0) as Ep. pose proof (npos_left i (full num (S i)) Hc0) as El.
  assert (Hup : full num i + 1 < full n i \/ Z.odd (full num i) = true ->
    (2 * full num (S i) + 2) * 2 ^ Z.of_nat i <= n /\ full num (S i) < full n (S i)).
  { intros Hor. rewrite !full_S. pose proof (Z.div_mod (full num i) 2 ltac:(lia)) as D1. rewrite Zmod_odd in D1.
    pose proof (Z.div_mod (full n i) 2 ltac:(lia)) as D2. pose proof (Z.mod_pos_bound (full n i) 2 ltac:(lia)).
    destruct (Z.odd (full num i)); split; destruct Hor; try nia; discriminate. }
  destruct (Z.odd (full num i)) eqn:Eo.
  - destruct (step_left i (full num i) Hg Hq0 ltac:(nia) Eo) as (E1 & E2 & E3). rewrite E1, E2. rewrite <- full_S in E3.
    pose proof (npos_complete i (full num i - 1) n ltac:(lia) ltac:(nia)) as Hlt. destruct (Hup ltac:(auto)) as [Hu1 Hu2].
    rewrite (proj2 (Z.ltb_lt _ _) Hlt), (fin_S i Hg), <- !full_S. cbn [app].
    apply (leads_up i (full num (S i))); try nia; [| |apply IH; [lia|exact Hu2]];
      replace (full num i - 1) with (2 * full num (S i)) by lia; [lia|]. rewrite E3. apply parent_value; nia.
  - destruct (step_right i (full num i) Hg Hq0 ltac:(nia) Eo) as (E1 & E2 & E3). rewrite E1, E2, <- !full_S. rewrite <- full_S in E3.
    destruct (Z.lt_ge_cases (full num i + 1) (full n i)) as [Hc|Hc].
    + pose proof (npos_complete i (full num i + 1) n ltac:(lia) ltac:(nia)) as Hlt. destruct (Hup ltac:(auto)) as [Hu1 Hu2].
      rewrite (proj2 (Z.ltb_lt _ _) Hlt), (fin_S i Hg), <- !full_S. cbn [app].
      apply (leads_up i (full num (S i))); try nia; [| |apply IH; [lia|exact Hu2]]; rewrite E3; [lia|reflexivity].
    + pose proof (npos_incomplete i (full num i + 1) n ltac:(lia) ltac:(nia)) as Hge.
      rewrite (proj2 (Z.ltb_ge _ _) Hge). cbn [Z.odd]. change (0 / 2) with 0.
      assert (Es : full num (S i) = full n (S i)).
      { rewrite !full_S. replace (full n i) with (1 + full num (S i) * 2) by lia. rewrite Z.div_add by lia.
        rewrite E3, Z.mul_comm, Z.div_mul by lia. reflexivity. }
      assert (Eodd : Z.odd (full n i) = true) by (replace (full n i) with (1 + 2 * full num (S i)) by lia; now rewrite Z.odd_add_mul_2).
      replace (full num i) with (full n i - 1) by lia. rewrite Es. apply leads_leave; [lia|exact Eodd|rewrite pow_succ in Hg; lia|].
      intros v Hv. apply loop_slots; [lia|exact Hv].
Qed.

(** The path of a leaf of the tree. *)
Lemma hashpath_leads num :
  0 <= num < n -> leads (l !!! Z.to_nat num) (hashpath num n).
Proof.
  intros Hnum. pose proof (popcount_bound num ltac:(lia)). pose proof (popcount_bound n ltac:(lia)). unfold hashpath.
  rewrite !bits_exact by lia. rewrite (u32_small (2 * num)), (u32_small (2 * n)) by lia. rewrite !u32_small by lia.
  pose proof (loop_tree MAXTREE 0 num eq_refl ltac:(lia)) as Ht. rewrite !full_0 in Ht. specialize (Ht ltac:(lia)).
  replace (npos 0 num) with (2 * num - popcount num) in Ht by (unfold npos; cbn; lia). exact Ht.
Qed.
End Below.
(** ** The list the tree stores *)

Lemma nload_holds s l : holds s l -> (length l < 2 ^ length s)%nat -> nload s = popcount (len l).
Proof.
  revert l; induction s as [|o s IH]; intros l Hs Hn; cbn [holds] in Hs; [now subst|]. destruct Hs as [-> Hs].
  cbn [length] in Hn. rewrite Nat.pow_succ_r' in Hn. pose proof (length_pairs l). rewrite popcount_div2, Zmod_odd, <- length_pairs_div by lia.
  rewrite last_odd_spec. destruct (Z.odd (len l)); cbn [nload]; rewrite (IH (pairs l)) by (assumption || lia); lia.
Qed.

Lemma allhashes_count l : 0 < len l < 2 ^ 32 -> len (allhashes l) = 2 * len l - 1.
Proof.
  intros Hl. destruct (fed_slots l ltac:(lia)) as [Hs Hm]. rewrite allhashes_length by lia.
  rewrite (nload_holds _ l Hs) by (rewrite Hm; apply Nat2Z.inj_lt; rewrite Nat2Z.inj_pow; apply Hl).
  unfold psz. pose proof (popcount_bound (len l) ltac:(lia)).
  assert (0 < popcount (len l)); [|lia]. destruct (len l) as [|p|p]; [lia|apply pos_popcount_pos|lia].
Qed.

Lemma holds_unloaded s : holds s [] -> nload s = 0.
Proof. induction s as [|o s IH]; cbn; [reflexivity|]. intros [-> Hs]. exact (IH Hs). Qed.

Lemma finish_push_unloaded s acc : nload s = 0 -> finish_push s acc = [].
Proof. revert acc. induction s as [|[a|] s IH]; intros acc; cbn [finish_push nload]; [reflexivity| |apply IH]. pose proof (nload_nonneg s). lia. Qed.

(** What is pushed depends on the leaves only. *)
Lemma holds_push s t l x acc :
  holds s l -> holds t l -> carry_push s x = carry_push t x /\ finish_push s acc = finish_push t acc.
Proof.
  revert t l x acc; induction s as [|o s IH]; intros t l x acc Hs Ht; cbn [holds] in Hs.
  - subst l. split; [|now rewrite (finish_push_unloaded t) by (now apply holds_unloaded)].
    destruct t as [|o t]; [reflexivity|]. destruct Ht as [-> _]. reflexivity.
  - destruct Hs as [-> Hs]. destruct t as [|o t]; cbn [holds] in Ht.
    + subst l. split; [reflexivity|]. apply finish_push_unloaded, holds_unloaded. split; [reflexivity|exact Hs].
    + destruct Ht as [-> Ht]. destruct (last_odd l) as [a|]; cbn [carry_push finish_push].
      * split; [f_equal; now apply (IH t (pairs l))|]. destruct acc as [c|]; [f_equal|]; now apply (IH t (pairs l) x).
      * split; [reflexivity|]. now apply (IH t (pairs l) x).
Qed.

Lemma update_from_hashes fuel i t :
  tree_wf t -> (i + fuel)%nat = MAXTREE ->
  hashes (update_from fuel i t).1 = hashes t ++ carry_push (drop i (slots t)) (slot t (i - 1)).
Proof.
  revert i t; induction fuel as [|fuel IH]; intros i t Hw Hi; cbn [update_from].
  - rewrite drop_ge by (rewrite length_slots; auto; lia). now rewrite app_nil_r.
  - rewrite (slots_from t i Hw) by lia. destruct (loaded t i); cbn [carry_push fst].
    + set (h := addhash _ _). rewrite IH by (try apply wf_set; auto; lia).
      change (slots (set_slot _ i false h)) with (slots (set_slot t i false h)). rewrite slots_set, slot_set_prev by (auto; lia).
      rewrite drop_insert_lt by lia. cbn [hashes set_slot push_hash]. now rewrite <- (assoc_L (++)).
    + now rewrite app_nil_r.
Qed.

Lemma update_hashes t h : tree_wf t -> hashes (update t h).1 = hashes t ++ carry_push (slots t) h.
Proof.
  intros Hw. unfold update. pose proof (slots_from t 0 Hw ltac:(unfold MAXTREE; lia)) as H0. rewrite drop_0 in H0. rewrite H0.
  destruct (loaded t 0) eqn:E; cbn [carry_push]; [|cbn; now rewrite app_nil_r].
  set (x := addhash _ _). rewrite update_from_hashes by (try apply wf_set; auto).
  change (slots (set_slot _ 0 false x)) with (slots (set_slot t 0 false x)).
  rewrite slots_set, slot_set_prev by (auto; unfold MAXTREE; lia). rewrite drop_insert_lt by lia.
  cbn [hashes set_slot push_hash]. now rewrite <- (assoc_L (++)).
Qed.

Lemma finish_from_hashes fuel i t h :
  tree_wf t -> (i + fuel)%nat = MAXTREE ->
  hashes (finish_from fuel i t h).1 = hashes t ++ finish_push (drop i (slots t)) (Some h).
Proof.
  revert i t h; induction fuel as [|fuel IH]; intros i t h Hw Hi; cbn [finish_from].
  - rewrite drop_ge by (rewrite length_slots; auto; lia). now rewrite app_nil_r.
  - rewrite (slots_from t i Hw) by lia. destruct (loaded t i); cbn [finish_push]; rewrite IH by (auto; lia); [|reflexivity].
    rewrite slots_push. cbn [hashes push_hash]. now rewrite <- (assoc_L (++)).
Qed.

Lemma first_loaded_push fuel i t :
  tree_wf t -> (i + fuel)%nat = MAXTREE ->
  let k := first_loaded fuel i t in
  (k = MAXTREE /\ finish_push (drop i (slots t)) None = []) \/
  ((k < MAXTREE)%nat /\ finish_push (drop i (slots t)) None = finish_push (drop (S k) (slots t)) (Some (slot t k))).
Proof.
  revert i; induction fuel as [|fuel IH]; intros i Hw Hi; cbn [first_loaded].
  - left. split; [lia|]. now rewrite drop_ge by (rewrite length_slots; auto; lia).
  - rewrite (slots_from t i Hw) by lia. destruct (loaded t i) eqn:E; cbn [finish_push]; [right; split; [lia|reflexivity]|].
    apply (IH (S i)); [assumption|lia].
Qed.

Lemma finish_hashes t : tree_wf t -> hashes (finish t).1.1 = hashes t ++ finish_push (slots t) None.
Proof.
  intros Hw. unfold finish. rewrite <- (drop_0 (slots t)).
  destruct (first_loaded_push MAXTREE 0 t Hw eq_refl) as [[-> ->]|[Hk ->]]; [cbn; now rewrite app_nil_r|].
  rewrite (proj2 (Nat.eqb_neq _ _)) by lia. set (k := first_loaded _ _ _) in *.
  pose proof (finish_from_hashes (MAXTREE - S k) (S k) t (slot t k) Hw ltac:(lia)) as Hc. destruct (finish_from _ _ _ _). exact Hc.
Qed.

Lemma length_lt_tree (x : list hash_t) : len x < 2 ^ 32 -> (length x < 2 ^ MAXTREE)%nat.
Proof. intros Hx. apply Nat2Z.inj_lt. rewrite Nat2Z.inj_pow. exact Hx. Qed.

(** The hashes of [update] are the list over the pairs. *)
Lemma tree_of_hashes x : len x < 2 ^ 32 -> hashes (tree_of x) = (fed (pairs x)).1.
Proof.
  induction x as [|h x IH] using rev_ind; intros Hx; [reflexivity|]. rewrite length_app in Hx. cbn [length] in Hx.
  destruct (tree_of_holds x ltac:(apply length_lt_tree; lia)) as [Hs Hw]. unfold tree_of. rewrite foldl_app. cbn [foldl]. fold (tree_of x).
  rewrite update_hashes, IH by (auto; lia). destruct (slots (tree_of x)) as [|o r] eqn:Es.
  { pose proof (length_slots _ Hw) as Hl. rewrite Es in Hl. discriminate. }
  destruct Hs as [-> Hr]. destruct (last_odd x) as [a|] eqn:Eo; cbn [carry_push].
  - destruct (snoc_odd x a h Eo) as [-> _]. rewrite fed_snoc. unfold feed. cbn [fst]. do 2 f_equal.
    apply (holds_push r _ (pairs x) _ None Hr). apply fed_slots. rewrite length_pairs_div. assert (len x / 2 <= len x) by (apply Z.div_le_upper_bound; lia). lia.
  - destruct (snoc_even x h Eo) as [-> _]. now rewrite app_nil_r.
Qed.

(** A last unpaired leaf enters like a node of its level. *)
Lemma finish_push_carry s a :
  (forall h, Some h ∈ s -> length h = 32%nat) -> length a = 32%nat -> finish_push s (Some a) = carry_push s a ++ finish_push (carry s a) None.
Proof.
  revert a; induction s as [|[b|] s IH]; intros a Hs Ha; [reflexivity| |reflexivity]. cbn [finish_push carry_push carry app].
  rewrite (addhash_comm_len a b) by (rewrite Ha, (Hs b); [reflexivity|left]).
  f_equal. apply IH; [|apply addhash_hash]. intros h Hin. apply Hs. now right.
Qed.
Lemma fed_slot_length l h : Forall is_hash l -> len l < 2 ^ 29 -> Some h ∈ (fed l).2 -> length h = 32%nat.
Proof.
  intros Hh Hl Hin. apply list_elem_of_lookup in Hin as [i Hi]. destruct (fed_slots l ltac:(lia)) as [Hs Hm].
  rewrite (holds_slot _ l i Hs) in Hi by (apply lookup_lt_Some in Hi; lia).
  destruct (Z.odd _) eqn:Eo; [|discriminate]. injection Hi as <-. pose proof (full_le (len l) i).
  pose proof (odd_pos _ (full_pos (len l) i ltac:(lia)) Eo). apply nodeval_length; try assumption; lia.
Qed.

Lemma carry_push_hash s x : Forall is_hash (carry_push s x).
Proof. revert x; induction s as [|[a|] s IH]; intros x; cbn [carry_push]; repeat constructor; [apply addhash_hash..|apply IH]. Qed.

Lemma finish_push_hash s acc : Forall is_hash (finish_push s acc).
Proof.
  revert acc; induction s as [|[a|] s IH]; intros acc; cbn [finish_push]; [constructor| |apply IH].
  destruct acc; [constructor; [apply addhash_hash|]|]; apply IH.
Qed.

Lemma fed_hash l : Forall is_hash l -> Forall is_hash (fed l).1.
Proof.
  induction l as [|x l IH] using rev_ind; intros Hl; [constructor|]. apply Forall_app in Hl as [Hl Hx]. rewrite fed_snoc. cbn.
  apply Forall_app. split; [now apply IH|]. constructor; [now inversion Hx|apply carry_push_hash].
Qed.

Section Stored.
Context (x : list hash_t) (Hx : 0 < len x < 2 ^ 29) (Hh : Forall is_hash x).

(** All hashes of the finished tree. *)
Definition stored : list hash_t := hashes (finish (tree_of x)).1.1.

(** The place of an unpaired last leaf. *)
Definition gap : Z := psz (len x / 2).

Lemma pairs_small : len (pairs x) < 2 ^ 29.
Proof. rewrite length_pairs_div. apply Z.div_lt_upper_bound; lia. Qed.

Lemma stored_push : stored = (fed (pairs x)).1 ++ match last_odd x with None => finish_push (fed (pairs x)).2 None | Some a => finish_push (fed (pairs x)).2 (Some a) end.
Proof.
  destruct (tree_of_holds x ltac:(apply length_lt_tree; lia)) as [Hs Hw]. unfold stored. rewrite finish_hashes, tree_of_hashes by (auto; lia).
  f_equal. destruct (slots (tree_of x)) as [|o r] eqn:Es.
  { pose proof (length_slots _ Hw) as Hl. rewrite Es in Hl. discriminate. }
  destruct Hs as [-> Hr]. pose proof pairs_small.
  destruct (last_odd x) as [a|]; cbn [finish_push]; apply (holds_push r _ (pairs x) zero_hash _ Hr); apply fed_slots; lia.
Qed.

Lemma stored_hash : Forall is_hash stored.
Proof.
  rewrite stored_push. apply Forall_app. split; [apply fed_hash, pairs_hashes, Hh|]. destruct (last_odd x); apply finish_push_hash.
Qed.

Lemma gap_fed : Z.to_nat gap = length (fed (pairs x)).1.
Proof. unfold gap. rewrite <- length_pairs_div, <- fed_length by (pose proof pairs_small; lia). lia. Qed.

(** The list of the tree is that of the level above the leaves, less the
    unpaired leaf. *)
Lemma stored_full :
  if Z.odd (len x) then
    allhashes (level_up x) !! Z.to_nat gap = Some (x !!! (length x - 1)%nat) /\
    stored = delete (Z.to_nat gap) (allhashes (level_up x))
  else stored = allhashes (level_up x).
Proof.
  rewrite level_up_pairs, stored_push, gap_fed. rewrite last_odd_spec. destruct (Z.odd (len x)) eqn:Eo; [|now rewrite app_nil_r].
  set (a := x !!! _). assert (Ha : length a = 32%nat).
  { destruct (lookup_lt_is_Some_2 x (length x - 1)) as [y Hy]; [lia|]. unfold a. rewrite list_lookup_total_alt, Hy.
    eapply Forall_lookup_1 in Hh; [|exact Hy]. apply Hh. }
  rewrite finish_push_carry; [|intros h; apply fed_slot_length; [now apply pairs_hashes|apply pairs_small]|exact Ha].
  unfold allhashes. rewrite fed_snoc. unfold feed. cbn [fst snd]. rewrite <- (assoc_L (++)). cbn [app].
  split; [now rewrite lookup_app_r, Nat.sub_diag by lia|]. now rewrite delete_middle.
Qed.

Lemma level_up_count : len (level_up x) = (len x + 1) / 2.
Proof.
  rewrite level_up_pairs, length_app, Nat2Z.inj_add, length_pairs_div, last_odd_spec.
  pose proof (Z.div_mod (len x) 2 ltac:(lia)) as E. rewrite Zmod_odd in E. set (c := len x / 2) in *.
  destruct (Z.odd (len x)); cbn [length]; rewrite E.
  - replace (2 * c + 1 + 1) with ((c + 1) * 2) by lia. rewrite Z.div_mul by lia. lia.
  - replace (2 * c + 0 + 1) with (1 + c * 2) by lia. rewrite Z.div_add by lia. change (1 / 2) with 0. lia.
Qed.

(** The hash at a position of the path, found in the stored list. *)
Definition stored_at (m p : Z) : hash_t :=
  if p <? m then stored !!! Z.to_nat p
  else if p =? m then x !!! (length x - 1)%nat
  else stored !!! Z.to_nat (p - 1).

Lemma stored_at_odd p : Z.odd (len x) = true -> 0 <= p -> stored_at gap p = allhashes (level_up x) !!! Z.to_nat p.
Proof.
  intros Ho Hp. pose proof stored_full as Hf. rewrite Ho in Hf. destruct Hf as [Hg Hs]. unfold stored_at. rewrite Hs.
  assert (Hgp : 0 <= gap) by (unfold gap, psz; pose proof (popcount_bound (len x / 2)); assert (0 <= len x / 2) by (apply Z.div_pos; lia); lia).
  rewrite !list_lookup_total_alt. destruct (Z.ltb_spec p gap) as [Hl|Hl].
  - now rewrite list_lookup_delete_lt by lia.
  - destruct (Z.eqb_spec p gap) as [->|Hne]; [rewrite Hg; cbn; now rewrite list_lookup_total_alt|]. rewrite list_lookup_delete_ge by lia. do 2 f_equal. lia.
Qed.

Lemma stored_at_even p m : Z.odd (len x) = false -> p < m -> stored_at m p = allhashes (level_up x) !!! Z.to_nat p.
Proof.
  intros Ho Hp. pose proof stored_full as Hf. rewrite Ho in Hf. unfold stored_at. rewrite (proj2 (Z.ltb_lt _ _) Hp). now rewrite Hf.
Qed.

Lemma stored_count : len stored = len x - 1.
Proof.
  pose proof stored_full as Hf. pose proof level_up_count as Hc. pose proof (Z.div_mod (len x) 2 ltac:(lia)) as E. rewrite Zmod_odd in E.
  assert (Hn : 0 < len (level_up x) < 2 ^ 32) by (rewrite Hc; split; [apply Z.div_str_pos; lia|apply Z.div_lt_upper_bound; lia]).
  pose proof (allhashes_count _ Hn) as Ha. rewrite Hc in Ha. pose proof (Z.div_mod (len x + 1) 2 ltac:(lia)) as E2. rewrite Zmod_odd, Z.odd_add in E2.
  destruct (Z.odd (len x)); cbn in E2.
  - destruct Hf as [Hg ->]. apply lookup_lt_Some in Hg. rewrite length_delete by (apply lookup_lt_is_Some; lia). lia.
  - rewrite Hf. lia.
Qed.

(** The leaf and its sibling. *)
Definition first_hashes (k : Z) : list hash_t :=
  if Z.odd k then [x !!! Z.to_nat k; x !!! Z.to_nat (k - 1)]
  else if k =? len x - 1 then [x !!! Z.to_nat k]
  else [x !!! Z.to_nat k; x !!! Z.to_nat (k + 1)].

Lemma leaf_length k : (k < length x)%nat -> length (x !!! k) = 32%nat.
Proof.
  intros Hk. destruct (lookup_lt_is_Some_2 x k Hk) as [y Hy]. rewrite list_lookup_total_alt, Hy.
  eapply Forall_lookup_1 in Hh; [|exact Hy]. apply Hh.
Qed.

Lemma first_hashes_node k h0 : 0 <= k < len x -> hashpathrun h0 (first_hashes k) = level_up x !!! Z.to_nat (k / 2).
Proof.
  intros Hk. unfold first_hashes. rewrite level_up_pairs. pose proof (Z.div_mod k 2 ltac:(lia)) as E. rewrite Zmod_odd in E.
  pose proof (length_pairs_div x) as Hp. pose proof (Z.div_mod (len x) 2 ltac:(lia)) as E2. rewrite Zmod_odd in E2.
  assert (Hpair : 2 * (k / 2) + 1 < len x -> (pairs x ++ match last_odd x with Some a => [a] | None => [] end) !!! Z.to_nat (k / 2) =
    addhash (x !!! Z.to_nat (2 * (k / 2))) (x !!! Z.to_nat (2 * (k / 2) + 1))).
  { intros Hlt. assert (0 <= k / 2) by (apply Z.div_pos; lia). rewrite lookup_total_app_l by (destruct (Z.odd (len x)); lia). rewrite pairs_at by lia. f_equal; f_equal; lia. }
  destruct (Z.odd k) eqn:Eo; cbn [hashpathrun foldl].
  - rewrite Hpair by lia. rewrite addhash_comm_len by (rewrite !leaf_length by lia; reflexivity). f_equal; f_equal; lia.
  - destruct (Z.eqb_spec k (len x - 1)) as [->|Hne]; cbn [hashpathrun foldl].
    + rewrite last_odd_spec. assert (Ho : Z.odd (len x) = true).
      { rewrite <- Z.negb_even. apply negb_true_iff. rewrite <- Z.odd_pred. unfold Z.pred. replace (len x + -1) with (len x - 1) by lia. exact Eo. }
      rewrite Ho in *. rewrite lookup_total_app_r by lia. replace (Z.to_nat ((len x - 1) / 2) - length (pairs x))%nat with O by lia. cbn. f_equal. lia.
    + rewrite Hpair by lia. f_equal; f_equal; lia.
Qed.
Lemma level_up_hashes : Forall is_hash (level_up x).
Proof.
  rewrite level_up_pairs. apply Forall_app. split; [now apply pairs_hashes|].
  destruct (last_odd x) eqn:Eo; repeat constructor; now apply (last_odd_hash x).
Qed.

(** The place reported for an unpaired leaf: [gap], and with no such leaf any
    place behind the list. *)
Definition gap_ok (m : Z) : Prop := if Z.odd (len x) then m = gap else len x - 2 <= m.

(** The position, in the stored list, of a position of the path. *)
Definition stored_pos (m p : Z) : Prop := (p < m -> p < len x - 2) /\ (m < p -> p - 1 < len x - 2).

(** The leaf, its sibling and the stored hashes along the path run to the root. *)
Lemma stored_path k m h0 :
  0 <= k < len x -> gap_ok m ->
  let ps := hashpath (k / 2) ((len x + 1) / 2) in
  hashpathrun h0 (first_hashes k ++ map (stored_at m) ps) = merkle_root x /\
  Forall (fun p => 0 <= p /\ stored_pos m p) ps.
Proof.
  intros Hk Hm. pose proof level_up_count as Hc. pose proof (Z.div_mod (len x) 2 ltac:(lia)) as E. rewrite Zmod_odd in E.
  pose proof (Z.div_mod (len x + 1) 2 ltac:(lia)) as E2. rewrite Zmod_odd, Z.odd_add in E2.
  assert (Hn : 0 < len (level_up x) < 2 ^ 29) by (rewrite Hc; split; [apply Z.div_str_pos; lia|apply Z.div_lt_upper_bound; lia]).
  assert (Hq : 0 <= k / 2 < len (level_up x)).
  { rewrite Hc. split; [apply Z.div_pos; lia|]. pose proof (Z.div_mod k 2 ltac:(lia)). pose proof (Z.mod_pos_bound k 2 ltac:(lia)).
    destruct (Z.odd (len x)); cbn in E2; lia. }
  destruct (hashpath_leads (level_up x) (proj2 Hn) level_up_hashes (k / 2) Hq) as [H1 H2]. rewrite Hc in H1, H2.
  assert (Hb : forall p, below_root (level_up x) p -> 0 <= p < 2 * ((len x + 1) / 2) - 2).
  { intros p Hp. unfold below_root in Hp. rewrite allhashes_count in Hp by lia. rewrite Hc in Hp. lia. }
  cbv zeta. split.
  - rewrite <- (merkle_root_level x) by (intros ->; cbn in *; lia).
    assert (Hn32 : len (level_up x) < 2 ^ 32) by lia. destruct (fed_slots (level_up x) Hn32) as [Hs Hl].
    rewrite <- (collect_first_root _ _ (eq_ind_r (fun k => _ < 2 ^ k)%nat (length_lt_tree _ Hn32) Hl) level_up_hashes Hs), collect_first_facc, H1.
    unfold runpath. rewrite <- (first_hashes_node k h0 Hk). unfold default, id.
    destruct (first_hashes k) as [|y r] eqn:Ef; [unfold first_hashes in Ef; destruct (Z.odd k); [|destruct (_ =? _)]; discriminate|].
    cbn [app hashpathrun]. rewrite foldl_app. f_equal. apply map_ext_Forall. eapply Forall_impl; [exact H2|].
    intros p Hp. apply Hb in Hp. unfold gap_ok in Hm. destruct (Z.odd (len x)) eqn:Eo; cbn in E2.
    + rewrite Hm. apply stored_at_odd; [exact Eo|lia].
    + apply stored_at_even; [exact Eo|lia].
  - eapply Forall_impl; [exact H2|]. intros p Hp. apply Hb in Hp. split; [lia|]. unfold stored_pos, gap_ok, gap, psz in *.
    destruct (Z.odd (len x)); cbn in E2; [|lia]. split; [|lia]. intros Hlt.
    assert (0 < popcount (len x / 2)); [|lia]. destruct (len x / 2) as [|c|c]; [lia|apply pos_popcount_pos|lia].
Qed.

Lemma stored_at_hash m p : 0 <= m -> 0 <= p -> stored_pos m p -> is_hash (stored_at m p).
Proof.
  intros Hm Hp [H1 H2]. pose proof stored_count as Hc. unfold stored_at.
  assert (Hs : forall i, (i < length stored)%nat -> is_hash (stored !!! i)).
  { intros i Hi. apply (Forall_lookup_1 _ _ i _ stored_hash). now apply list_lookup_lookup_total_lt. }
  destruct (Z.ltb_spec p m); [apply Hs; lia|]. destruct (Z.eqb_spec p m); [|apply Hs; lia].
  apply (Forall_lookup_1 _ _ (length x - 1) _ Hh). apply list_lookup_lookup_total_lt. lia.
Qed.

Lemma first_hashes_hash k : 0 <= k < len x -> Forall is_hash (first_hashes k).
Proof.
  intros Hk. assert (Hl : forall i, 0 <= i < len x -> is_hash (x !!! Z.to_nat i)).
  { intros i Hi. apply (Forall_lookup_1 _ _ (Z.to_nat i) _ Hh). apply list_lookup_lookup_total_lt. lia. }
  unfold first_hashes. destruct (Z.odd k) eqn:Eo; [apply odd_pos in Eo; [|lia]; repeat constructor; apply Hl; lia|].
  destruct (Z.eqb_spec k (len x - 1)); repeat constructor; apply Hl; lia.
Qed.
End Stored.
End Full.
