(* ===== verification/MsgTree.v ===== *)
(** The hash tree of a message and of the list of messages: [hash_tree],
    [hash_tree_fast] and [hash_tree_get] of [common/message.hpp], [msgl_put],
    [msgl_get], [msgl_load] and [msgl_hash_tree_get] of [common/servers.hpp],
    and the request of a transaction with its path to the block hash
    ([escd/commandhandler/gettransactionhandler.cpp]). *)

From stdpp Require Import base gmap list.
From Stdlib Require Import ZArith Lia.
From S2P Require Import Prelude Params Usertxs Accounts Servers Demo Chain HashTree MerklePath.

(** A routine that returns, returns [false], or ends the process. *)
Inductive answer (A : Type) :=
  | Gives (a : A)
  | Refuses
  | Aborts.
Arguments Gives {A} a.
Arguments Refuses {A}.
Arguments Aborts {A}.

Definition answer_map {A B} (f : A -> B) (r : answer A) : answer B :=
  match r with Gives a => Gives (f a) | Refuses => Refuses | Aborts => Aborts end.

(** [if(!b) return(false)] and [assert(b)]. *)
Notation "'refuse!' b 'in' k" := (if b then Refuses else k) (at level 10, b at level 100, k at level 200) : esc_scope.
Notation "'ensure!' b 'in' k" := (if b then k else Aborts) (at level 10, b at level 100, k at level 200) : esc_scope.

(** Reading a file at an offset computed in 32 bits. *)
Definition rda (f : list Z) (off : Z) (n : nat) : list Z := rd f (Z.to_nat off) n.
Definition rdza (f : list Z) (off : Z) (n : nat) : Z := rdz f (Z.to_nat off) n.

Section Tree.
Context `{Sha256}.

Abbreviation hash_t := (list Z).
Abbreviation len l := (Z.of_nat (length l)).

(** * The hash of a message *)

Definition data_offset : Z := 4+64+10.

(** [ha.hxor[i]^=v]. *)
Definition hxor (i : nat) (v : Z) (h : hash_t) : hash_t := wr h (4 * i) (le_bytes 4 (Z.lxor (rdz h (4 * i) 4) v)).

(** The hash of a transaction with its identifier. *)
Definition txs_hash (svid msid tnum : Z) (tx : list Z) : hash_t :=
  hxor 2 tnum (hxor 1 msid (hxor 0 svid (SHA256 tx))).

(** The transaction loop of [hash_tree]: the position behind the last
    transaction, the next number, the positions, the leaves and the tree. *)
Fixpoint hash_tree_loop (fuel : nat) (svid msid : Z) (data : list Z) (p tnum : Z) (tpos : list Z)
    (firsthashes : list hash_t) (tree : hashtree) : answer (Z * Z * list Z * list hash_t * hashtree) :=
  if len data <=? p then Gives (p, tnum, tpos, firsthashes, tree)
  else match fuel with
  | O => Aborts
  | S fuel =>
      let tpos := tpos ++ [p] in
      match get_size (drop (Z.to_nat p) data) with
      | None => Aborts
      | Some l =>
          refuse! l =? 0xFFFFFFFF in
          let ha := txs_hash svid msid tnum (rda data p (Z.to_nat l)) in
          hash_tree_loop fuel svid msid data (p + l) (u16 (tnum + 1)) tpos (firsthashes ++ [ha]) (update tree ha).1
      end
  end.

(** The index and the hashes appended to a message. *)
Definition index_bytes (tpos : list Z) (firsthashes : list hash_t) : list Z :=
  concat (zip_with (fun p h => le_bytes 4 p ++ h) tpos firsthashes).

Definition with_tree (data sigh : list Z) (mnum total : Z) (tpos : list Z) (firsthashes hs : list hash_t) : list Z :=
  data ++ sigh ++ le_bytes 4 mnum ++ le_bytes 4 total ++ le_bytes 4 (u32 (len tpos)) ++ index_bytes tpos firsthashes ++ concat hs.

(** [hash_tree]: the hash of the message and the message with its index. *)
Definition hash_tree (svid msid : Z) (data : list Z) : answer (hash_t * list Z) :=
  ensure! (rdz data 0 1 =? MSGTYPE_MSG) && negb (svid =? 0) && negb (msid =? 0) in
  let ha := SHA256 (rda data (4+64) 10) in
  ensure! data_offset <? len data in
  match hash_tree_loop (length data) svid msid data data_offset 1 [4+64] [ha] (update hashtree_init ha).1 with
  | Gives (p, tnum, tpos, firsthashes, tree) =>
      refuse! tnum =? 0 in
      refuse! negb (p =? len data) in
      let '(tree, _, sigh) := finish tree in
      let tpos_size := u32 (len tpos) in
      let hashes_size := if (length tree.(hashes) =? 0)%nat then 0 else u32 (len tree.(hashes) - 1) in
      let total := u32 (len data + 32+4+4+4 + (4+32) * tpos_size + 32 * hashes_size) in
      Gives (sigh, with_tree data sigh 0 total tpos firsthashes (take (Z.to_nat hashes_size) tree.(hashes)))
  | Refuses => Refuses
  | Aborts => Aborts
  end.

(** [hash_tree_fast] writes the identifier through 16-bit pointers. *)
Definition xor_at (off n : nat) (v : Z) (h : hash_t) : hash_t := wr h off (le_bytes n (Z.lxor (rdz h off n) v)).

Definition txs_hash_fast (insvid inmsid tnum : Z) (tx : list Z) : hash_t :=
  xor_at 8 2 tnum (xor_at 4 4 inmsid (xor_at 0 2 insvid (SHA256 tx))).

Fixpoint hash_tree_fast_loop (fuel : nat) (insvid inmsid : Z) (indata : list Z) (p tnum : Z) (tree : hashtree) : answer (Z * Z * hashtree) :=
  if len indata <=? p then Gives (p, tnum, tree)
  else match fuel with
  | O => Aborts
  | S fuel =>
      match get_size (drop (Z.to_nat p) indata) with
      | None => Aborts
      | Some l =>
          refuse! l =? 0xFFFFFFFF in
          hash_tree_fast_loop fuel insvid inmsid indata (p + l) (u16 (tnum + 1))
            (update tree (txs_hash_fast insvid inmsid tnum (rda indata p (Z.to_nat l)))).1
      end
  end.

Definition hash_tree_fast (indata : list Z) (insvid inmsid : Z) : answer hash_t :=
  ensure! (rdz indata 0 1 =? MSGTYPE_MSG) && negb (insvid =? 0) && negb (inmsid =? 0) in
  let tree := (update hashtree_init (SHA256 (rda indata (4+64) 10))).1 in
  ensure! data_offset <? len indata in
  match hash_tree_fast_loop (length indata) insvid inmsid indata data_offset 1 tree with
  | Gives (p, tnum, tree) =>
      refuse! tnum =? 0 in
      refuse! negb (p =? len indata) in
      Gives (finish tree).2
  | Refuses => Refuses
  | Aborts => Aborts
  end.

(** * Reading a path *)

(** The loop over the positions of the path: [off] is the place of a stored
    hash, [ok] the assertion made about it, [lone] the place of the unpaired
    leaf. *)
Fixpoint path_read (f : list Z) (off : Z -> Z) (ok : Z -> bool) (lone m : Z) (add : list Z) (hs : list hash_t) : answer (list hash_t) :=
  match add with
  | [] => Gives hs
  | n :: add =>
      if n <? m then ensure! ok n in path_read f off ok lone m add (hs ++ [rda f (off n) 32])
      else if n =? m then path_read f off ok lone m add (hs ++ [rda f lone 32])
      else ensure! ok (n - 1) in path_read f off ok lone m add (hs ++ [rda f (off (n - 1)) 32])
  end.

(** The place of the hash missing in the list. *)
Definition missing (max : Z) : Z := if Z.odd max then u32 (u32 (2 * (max / 2)) - bits (max / 2)) else 32*32.

(** The place and length of the transaction, its leaf and the sibling. *)
Definition first_read (f : list Z) (mlen tmax tnum : Z) : Z * Z * list hash_t :=
  if Z.odd tnum then
    let tmp := rda f (u32 (mlen+32+4+4+4 + (4+32) * tnum - 32)) (32+4+32+4) in
    let pos := rdz tmp 32 4 in
    (pos, if tnum =? tmax - 1 then u32 (mlen - pos) else u32 (rdz tmp (32+4+32) 4 - pos), [rd tmp (32+4) 32; rd tmp 0 32])
  else
    let tmp := rda f (u32 (mlen+32+4+4+4 + (4+32) * tnum)) (4+32+4+32) in
    let pos := rdz tmp 0 4 in
    if tnum =? tmax - 1 then (pos, u32 (mlen - pos), [rd tmp 4 32])
    else (pos, u32 (rdz tmp (4+32) 4 - pos), [rd tmp 4 32; rd tmp (4+32+4) 32]).

(** [hash_tree_get] on the file of the message: its number in the block, the
    transaction and the path. *)
Definition hash_tree_get (file : option (list Z)) (tnum : Z) : answer (Z * list Z * list hash_t) :=
  match file with
  | None => Refuses
  | Some f =>
      let mlen := rdz f 0 4 / 2 ^ 8 in
      refuse! mlen =? 0 in
      let mhash := rda f mlen 32 in
      let mnum := rdza f (mlen+32) 4 in
      let ttot := rdza f (mlen+32+4) 4 in
      let tmax := rdza f (mlen+32+4+4) 4 in
      refuse! tmax =? 0 in
      refuse! tmax <=? tnum in
      let '(pos, len, hs) := first_read f mlen tmax tnum in
      ensure! (0 <? len) && (len <? mlen) in
      let data := rda f pos (Z.to_nat len) in
      let top := mlen+32+4+4+4 + (4+32) * tmax in
      match path_read f (fun n => u32 (top + 32 * n)) (fun n => u32 (top + 32 * n) <? ttot) (u32 (top - 32))
              (missing tmax) (hashpath (tnum / 2) (u32 (tmax + 1) / 2)) hs with
      | Gives hs =>
          refuse! negb (bool_decide (mhash = hashpathrun zero_hash hs)) in
          Gives (mnum, data, hs)
      | Refuses => Refuses
      | Aborts => Aborts
      end
  end.
End Tree.

(** * Reading what was written *)

Lemma rd_at f a n i : (i < n)%nat -> rd f a n !! i = Some (nthz f (a + i)).
Proof.
  intros Hi. unfold rd. rewrite lookup_take_lt by lia. unfold nthz. rewrite <- lookup_drop.
  destruct (drop a f !! i) as [z|] eqn:E; [now rewrite (lookup_app_l_Some _ _ _ _ E)|].
  apply lookup_ge_None in E. rewrite lookup_app_r by lia. apply lookup_replicate. split; [reflexivity|lia].
Qed.

Lemma rd_eq f g a b n : (forall i, (i < n)%nat -> nthz f (a + i) = nthz g (b + i)) -> rd f a n = rd g b n.
Proof.
  intros Hi. apply list_eq. intros i. destruct (decide (i < n)%nat); [rewrite !rd_at by lia; f_equal; auto|].
  rewrite !lookup_ge_None_2; [reflexivity|rewrite length_rd; lia..].
Qed.

Lemma rd_rd f a n o k : (o + k <= n)%nat -> rd (rd f a n) o k = rd f (a + o) k.
Proof.
  intros Hk. apply rd_eq. intros i Hi. unfold nthz at 1. rewrite rd_at by lia. cbn. f_equal. lia.
Qed.

Lemma rdz_rd f a n o k : (o + k <= n)%nat -> rdz (rd f a n) o k = rdz f (a + o) k.
Proof. intros Hk. unfold rdz. now rewrite rd_rd. Qed.

Lemma rd_app_l f g a n : (a + n <= length f)%nat -> rd (f ++ g) a n = rd f a n.
Proof. intros Hn. apply rd_eq. intros i Hi. unfold nthz. now rewrite lookup_app_l by lia. Qed.

Lemma rd_full f : rd f 0 (length f) = f.
Proof. rewrite rd_in by lia. rewrite drop_0, take_ge by lia. reflexivity. Qed.

(** Records of one size. *)
Lemma rd_chunk n cs rest i c o k :
  Forall (fun c => length c = n) cs -> cs !! i = Some c -> (o + k <= n)%nat -> rd (concat cs ++ rest) (n * i + o) k = rd c o k.
Proof.
  intros Hf. revert i. induction Hf as [|d cs Hd Hf IH]; intros i Hi Hk; [discriminate|]. cbn [concat]. rewrite <- (assoc_L (++)).
  destruct i as [|i]; [injection Hi as <-; rewrite Nat.mul_0_r; apply rd_app_l; lia|].
  rewrite rd_app_skip by lia. rewrite Hd. replace (n * S i + o - n)%nat with (n * i + o)%nat by lia. apply IH; assumption.
Qed.

Lemma length_concat_chunks n (cs : list (list Z)) : Forall (fun c => length c = n) cs -> length (concat cs) = (n * length cs)%nat.
Proof. induction 1 as [|c cs Hc Hf IH]; cbn [concat length]; [lia|]. rewrite length_app. lia. Qed.

(** * The loop *)

Section Loop.
Context `{Sha256}.
Abbreviation hash_t := (list Z).
Abbreviation len l := (Z.of_nat (length l)).

(** The places and the leaves of transactions. *)
Fixpoint tx_positions (p : Z) (txs : list (list Z)) : list Z :=
  match txs with [] => [] | tx :: txs => p :: tx_positions (p + len tx) txs end.

Fixpoint tx_leaves (svid msid tnum : Z) (txs : list (list Z)) : list hash_t :=
  match txs with [] => [] | tx :: txs => txs_hash svid msid tnum tx :: tx_leaves svid msid (u16 (tnum + 1)) txs end.

Definition feed_tree (t : hashtree) (l : list hash_t) : hashtree := foldl (fun t h => (update t h).1) t l.

Lemma length_tx_positions p txs : length (tx_positions p txs) = length txs.
Proof. revert p; induction txs as [|tx txs IH]; intros p; cbn; auto. Qed.
Lemma length_tx_leaves svid msid tnum txs : length (tx_leaves svid msid tnum txs) = length txs.
Proof. revert tnum; induction txs as [|tx txs IH]; intros tnum; cbn; auto. Qed.

(** The bytes of the transactions found by the parser. *)
Definition cut_txs (l : list (list Z * usertxs)) : list (list Z) := map (fun q => take (Z.to_nat q.2.(size)) q.1) l.

(** Every message whose transactions parse passes the loop. *)
Lemma hash_tree_loop_cut fuel fuel' svid msid data p tnum tpos fh tree l :
  bytes data -> 0 <= p -> len data - p <= Z.of_nat fuel -> cut fuel' (drop (Z.to_nat p) data) (len data - p) = Some l ->
  let txs := cut_txs l in
  hash_tree_loop fuel svid msid data p tnum tpos fh tree =
    Gives (len data, fold_left (fun t _ => u16 (t + 1)) l tnum, tpos ++ tx_positions p txs, fh ++ tx_leaves svid msid tnum txs,
           feed_tree tree (tx_leaves svid msid tnum txs)) /\
  drop (Z.to_nat p) data = concat txs /\ Forall (fun tx => 4 <= len tx) txs.
Proof.
  intros Hb. revert fuel' p tnum tpos fh tree l; induction fuel as [|fuel IH]; intros fuel' p tnum tpos fh tree l Hp Hn Hc.
  all: assert (Hc' := Hc); destruct fuel' as [|fuel']; cbn [cut] in Hc'; cbn [hash_tree_loop];
    destruct (Z.leb_spec (len data - p) 0) as [Hle|Hle]; try discriminate; try lia.
  all: try (destruct (Z.eqb_spec (len data - p) 0); [|discriminate]; injection Hc' as <-; rewrite (proj2 (Z.leb_le (len data) p)) by lia;
    cbn; rewrite !app_nil_r; replace p with (len data) by lia; rewrite drop_ge by lia; auto).
  rewrite (proj2 (Z.leb_gt (len data) p)) by lia. destruct (parse _) as [u|] eqn:Ep; [|discriminate].
  pose proof (parse_size _ u (bytes_drop _ _ Hb) Ep) as Hs. rewrite (get_size_parse _ u (bytes_drop _ _ Hb) Ep).
  rewrite (proj2 (Z.eqb_neq u.(size) 0xFFFFFFFF)) by lia.
  rewrite drop_drop in Hc'. replace (Z.to_nat p + Z.to_nat (size u))%nat with (Z.to_nat (p + size u)) in Hc' by lia.
  replace (len data - p - size u) with (len data - (p + size u)) in Hc' by lia.
  destruct (cut fuel' _ _) as [rest|] eqn:Er; [|discriminate]. injection Hc' as <-.
  assert (Hin : p + size u <= len data) by (destruct fuel'; cbn [cut] in Er; (destruct (Z.leb_spec (len data - (p + size u)) 0); [|lia]); (destruct (Z.eqb_spec (len data - (p + size u)) 0); [lia|discriminate])).
  assert (Hr : rda data p (Z.to_nat (size u)) = take (Z.to_nat (size u)) (drop (Z.to_nat p) data)) by (apply rd_in; lia).
  assert (Ht : len (take (Z.to_nat (size u)) (drop (Z.to_nat p) data)) = size u) by (rewrite length_take, length_drop; lia).
  pose proof (fun a b c d => IH fuel' (p + size u) a b c d rest ltac:(lia) ltac:(lia) Er) as IH'. cbv zeta in IH'.
  destruct (IH' 0 [] [] hashtree_init) as (_ & E2 & E3).
  cbn [cut_txs map fst snd fold_left tx_positions tx_leaves concat feed_tree foldl]. rewrite Ht, Hr. fold (cut_txs rest).
  rewrite (proj1 (IH' _ _ _ _)), <- !(assoc_L (++)). split; [reflexivity|]. split; [|constructor; [lia|exact E3]].
  rewrite <- E2. replace (Z.to_nat (p + size u)) with (Z.to_nat p + Z.to_nat (size u))%nat by lia. rewrite <- drop_drop. symmetry. apply take_drop.
Qed.

Lemma count_tnum {A} (l : list A) t : fold_left (fun t _ => u16 (t + 1)) l (u16 t) = u16 (t + len l).
Proof.
  revert t; induction l as [|a l IH]; intros t; cbn [fold_left length]; [now rewrite Z.add_0_r|].
  replace (u16 (u16 t + 1)) with (u16 (t + 1)) by (unfold u16; now rewrite Zplus_mod_idemp_l). rewrite IH. f_equal. lia.
Qed.
End Loop.

(** * The two hash functions *)

Section Fast.
Context `{Sha256}.
Abbreviation hash_t := (list Z).
Abbreviation len l := (Z.of_nat (length l)).

Lemma le_val_app a b : le_val (a ++ b) = le_val a + 256 ^ len a * le_val b.
Proof.
  induction a as [|x a IH]; cbn [app le_val length]; [lia|]. rewrite IH, Nat2Z.inj_succ, Z.pow_succ_r by lia. lia.
Qed.

Lemma le_bytes_app a b x : le_bytes (a + b) x = le_bytes a x ++ le_bytes b (x / 256 ^ Z.of_nat a).
Proof.
  revert x; induction a as [|a IH]; intros x; cbn [Nat.add le_bytes app]; [now rewrite Z.div_1_r|].
  rewrite IH, Nat2Z.inj_succ, Z.pow_succ_r, Z.div_div by lia. reflexivity.
Qed.

Lemma le_bytes_mod n x : le_bytes n (x mod 256 ^ Z.of_nat n) = le_bytes n x.
Proof.
  apply le_val_inj; [apply bytes_le_bytes..|now rewrite !length_le_bytes|]. rewrite !le_val_bytes. apply Z.mod_mod. lia.
Qed.

Lemma lxor_mod x v n : 0 <= n -> Z.lxor x v mod 2 ^ n = Z.lxor (x mod 2 ^ n) (v mod 2 ^ n).
Proof.
  intros Hn. rewrite <- !Z.land_ones by exact Hn. apply Z.bits_inj'. intros i Hi.
  rewrite !Z.lxor_spec, !Z.land_spec, Z.lxor_spec. destruct (Z.testbit x i), (Z.testbit v i), (Z.testbit (Z.ones n) i); reflexivity.
Qed.

(** A 16-bit value changes the same bytes through a 16-bit and a 32-bit pointer. *)
Lemma xor_at_wide off v h :
  bytes h -> (off + 4 <= length h)%nat -> 0 <= v < 2 ^ 16 -> xor_at off 2 v h = xor_at off 4 v h.
Proof.
  intros Hb Hl Hv. unfold xor_at, rdz. set (a := rd h off 2). set (b := rd h (off + 2) 2).
  assert (Ha : bytes a) by now apply bytes_rd. assert (Hbb : bytes b) by now apply bytes_rd.
  assert (E : rd h off 4 = a ++ b).
  { unfold a, b. rewrite !rd_in by lia. rewrite <- drop_drop. symmetry. exact (take_take_drop (drop off h) 2 2). }
  rewrite E, le_val_app. unfold a at 3. rewrite length_rd. change (256 ^ Z.of_nat 2) with (2 ^ 16).
  pose proof (le_val_bound a Ha) as Hba. unfold a in Hba at 3. rewrite length_rd in Hba. change (256 ^ Z.of_nat 2) with (2 ^ 16) in Hba.
  set (x := le_val a + 2 ^ 16 * le_val b).
  assert (Ex : x mod 2 ^ 16 = le_val a /\ x / 2 ^ 16 = le_val b).
  { unfold x. rewrite (Z.mul_comm (2 ^ 16)), Z.mod_add, Z.div_add, Z.mod_small, Z.div_small by lia. lia. }
  destruct Ex as [Em Ed]. change 4%nat with (2 + 2)%nat at 1. rewrite (le_bytes_app 2 2). change (256 ^ Z.of_nat 2) with (2 ^ 16).
  rewrite <- (le_bytes_mod 2 (Z.lxor x v)). change (256 ^ Z.of_nat 2) with (2 ^ 16).
  rewrite lxor_mod, Em, (Z.mod_small v) by lia.
  rewrite <- Z.shiftr_div_pow2, Z.shiftr_lxor, !Z.shiftr_div_pow2, Ed, (Z.div_small v), Z.lxor_0_r by lia.
  replace (le_bytes 2 (le_val b)) with b by (symmetry; replace 2%nat with (length b) at 1 by apply length_rd; now apply le_bytes_val).
  unfold wr. rewrite length_app, !length_le_bytes. replace (length b) with 2%nat by (symmetry; apply length_rd).
  rewrite <- (assoc_L (++)). do 2 f_equal. unfold b. rewrite rd_in by lia.
  replace (off + (2 + 2))%nat with ((off + 2) + 2)%nat by lia. rewrite <- (drop_drop h 2 (off + 2)). symmetry. apply take_drop.
Qed.

Lemma wr_hash off n x h : is_hash h -> (off + n <= 32)%nat -> is_hash (wr h off (le_bytes n x)).
Proof.
  intros [Hl Hb] Hn. split; [|unfold wr; auto with esc]. unfold wr. rewrite !length_app, length_take, length_drop, length_le_bytes. lia.
Qed.

Lemma txs_hash_hash svid msid tnum tx : is_hash (txs_hash svid msid tnum tx).
Proof. unfold txs_hash, hxor. repeat (apply wr_hash; [|lia]). apply SHA256_hash. Qed.

Lemma txs_hash_fast_same svid msid tnum tx :
  0 <= svid < 2 ^ 16 -> 0 <= tnum < 2 ^ 16 -> txs_hash_fast svid msid tnum tx = txs_hash svid msid tnum tx.
Proof.
  intros Hs Ht. unfold txs_hash_fast, txs_hash. pose proof (SHA256_hash tx) as H0.
  rewrite (xor_at_wide 0) by (try apply H0; try (rewrite (proj1 H0)); lia).
  assert (H1 : is_hash (xor_at 0 4 svid (SHA256 tx))) by (apply wr_hash; [exact H0|lia]).
  assert (H2 : is_hash (xor_at 4 4 msid (xor_at 0 4 svid (SHA256 tx)))) by (apply wr_hash; [exact H1|lia]).
  rewrite (xor_at_wide 8) by (try apply H2; try (rewrite (proj1 H2)); lia). reflexivity.
Qed.

Lemma hash_tree_fast_loop_same fuel svid msid data p tnum tpos fh tree :
  0 <= svid < 2 ^ 16 -> 0 <= tnum < 2 ^ 16 ->
  hash_tree_fast_loop fuel svid msid data p tnum tree =
    answer_map (fun r => let '(p, tnum, _, _, tree) := r in (p, tnum, tree)) (hash_tree_loop fuel svid msid data p tnum tpos fh tree).
Proof.
  intros Hs. revert p tnum tpos fh tree; induction fuel as [|fuel IH]; intros p tnum tpos fh tree Ht; cbn [hash_tree_loop hash_tree_fast_loop];
    (destruct (_ <=? _); [reflexivity|]); [reflexivity|].
  destruct (get_size _); [|reflexivity]. destruct (_ =? _); [reflexivity|]. rewrite txs_hash_fast_same by assumption.
  apply IH. unfold u16. apply Z.mod_pos_bound. lia.
Qed.

(** C36: [hash_tree_fast] and [hash_tree] agree on every message: the same
    assertions fail, the same messages are refused, and the hash is the same. *)
Theorem hash_tree_fast_agrees svid msid data :
  0 <= svid < 2 ^ 16 -> hash_tree_fast data svid msid = answer_map fst (hash_tree svid msid data).
Proof.
  intros Hs. unfold hash_tree_fast, hash_tree. destruct (_ && _); [|reflexivity]. destruct (_ <? _); [|reflexivity].
  rewrite (hash_tree_fast_loop_same _ _ _ _ _ _ [4+64] [SHA256 (rda data (4 + 64) 10)]) by lia.
  destruct (hash_tree_loop _ _ _ _ _ _ _ _ _) as [[[[[p tnum] tpos] fh] tree]| |]; cbn [answer_map]; [|reflexivity..].
  destruct (tnum =? 0); [reflexivity|]. destruct (negb _); [reflexivity|]. destruct (finish tree) as [[? ?] ?]. reflexivity.
Qed.
End Fast.

(** * The file of a message *)

Section Layout.
Context `{Sha256}.
Abbreviation hash_t := (list Z).
Abbreviation len l := (Z.of_nat (length l)).

(** The leaves and the places of a message cut into transactions. *)
Definition msg_leaves (svid msid : Z) (data : list Z) (txs : list (list Z)) : list hash_t :=
  SHA256 (rda data (4+64) 10) :: tx_leaves svid msid 1 txs.
Definition msg_positions (txs : list (list Z)) : list Z := (4+64) :: tx_positions data_offset txs.

(** The pieces of a message: the header fields and the transactions. *)
Definition msg_pieces (data : list Z) (txs : list (list Z)) : list (list Z) := rda data (4+64) 10 :: txs.

Definition msg_total (data : list Z) (n : Z) : Z := len data + 44 + 36 * n + 32 * (n - 2).

(** The file of a message, with its number in the block. *)
Definition msg_file (svid msid : Z) (data : list Z) (txs : list (list Z)) (mnum : Z) : list Z :=
  let leaves := msg_leaves svid msid data txs in
  with_tree data (merkle_root leaves) mnum (msg_total data (len leaves)) (msg_positions txs) leaves
    (take (length leaves - 2) (stored leaves)).

Record cut_into (data : list Z) (txs : list (list Z)) : Prop := {
  ci_data : drop 78 data = concat txs; ci_tx : Forall (fun tx => 4 <= len tx) txs; ci_len : 78 < len data < 2 ^ 24
}.

Lemma leaves_hash svid msid tnum txs : Forall is_hash (tx_leaves svid msid tnum txs).
Proof. revert tnum; induction txs as [|tx txs IH]; intros tnum; cbn; constructor; [apply txs_hash_hash|apply IH]. Qed.

Lemma msg_leaves_hash svid msid data txs : Forall is_hash (msg_leaves svid msid data txs).
Proof. constructor; [apply SHA256_hash|apply leaves_hash]. Qed.

Lemma concat_length_ge (txs : list (list Z)) : Forall (fun tx => 4 <= len tx) txs -> 4 * len txs <= len (concat txs).
Proof. induction 1 as [|tx txs Ht Hf IH]; cbn [concat length]; [lia|]. rewrite length_app. lia. Qed.

Lemma cut_count data txs : cut_into data txs -> 0 < len txs /\ 4 * len txs < 2 ^ 24.
Proof.
  intros [Hd Hf Hl]. pose proof (concat_length_ge txs Hf) as Hc. rewrite <- Hd, length_drop in Hc. split; [|lia].
  destruct txs; [|cbn; lia]. apply (f_equal length) in Hd. rewrite length_drop in Hd. cbn in Hd. lia.
Qed.

Lemma length_msg_leaves svid msid data txs : len (msg_leaves svid msid data txs) = len txs + 1.
Proof. unfold msg_leaves. cbn [length]. rewrite length_tx_leaves. lia. Qed.

(** [hash_tree] behind a loop that read to the end of the message. *)
Lemma hash_tree_result svid msid data txs tnum :
  rdz data 0 1 = MSGTYPE_MSG -> svid <> 0 -> msid <> 0 -> cut_into data txs -> tnum <> 0 ->
  hash_tree_loop (length data) svid msid data data_offset 1 [4+64] [SHA256 (rda data (4+64) 10)]
    (update hashtree_init (SHA256 (rda data (4+64) 10))).1 =
    Gives (len data, tnum, msg_positions txs, msg_leaves svid msid data txs, tree_of (msg_leaves svid msid data txs)) ->
  hash_tree svid msid data = Gives (merkle_root (msg_leaves svid msid data txs), msg_file svid msid data txs 0).
Proof.
  intros Ht Hs Hm Hc Hn E. destruct (cut_count data txs Hc) as [Hn0 Hn1]. pose proof (ci_len _ _ Hc). unfold hash_tree.
  rewrite Ht, (proj2 (Z.eqb_neq _ _) Hs), (proj2 (Z.eqb_neq _ _) Hm). cbn [Z.eqb negb andb].
  rewrite (proj2 (Z.ltb_lt data_offset (len data))) by (unfold data_offset; lia). change (MSGTYPE_MSG =? MSGTYPE_MSG) with true. cbn [andb].
  rewrite E, (proj2 (Z.eqb_neq _ _) Hn), Z.eqb_refl. cbn [negb].
  set (x := msg_leaves svid msid data txs) in *. assert (Hx : len x = len txs + 1) by apply length_msg_leaves.
  pose proof (tree_root_merkle x ltac:(apply length_lt_tree; lia) (msg_leaves_hash _ _ _ _)) as Hr. unfold tree_root in Hr.
  pose proof (stored_count x ltac:(lia) (msg_leaves_hash _ _ _ _)) as Hst. unfold stored in Hst.
  destruct (finish (tree_of x)) as [[t r] h] eqn:Ef. cbn [snd fst] in *. subst h.
  assert (Hp : len (msg_positions txs) = len txs + 1) by (unfold msg_positions; cbn [length]; rewrite length_tx_positions; lia).
  rewrite (proj2 (Nat.eqb_neq (length (hashes t)) 0)) by lia. cbv zeta.
  rewrite Hp, (u32_small (len (hashes t) - 1)), (u32_small (len txs + 1)) by lia. rewrite u32_small by lia.
  replace (Z.to_nat (len (hashes t) - 1)) with (length x - 2)%nat by lia.
  unfold msg_file. fold x. unfold stored. rewrite Ef. cbn [fst]. do 3 f_equal. unfold msg_total. lia.
Qed.

(** Places of the pieces. *)
Lemma tx_positions_at p txs i :
  (i < length txs)%nat -> tx_positions p txs !! i = Some (p + len (concat (take i txs))).
Proof.
  revert p i; induction txs as [|tx txs IH]; intros p [|i] Hi; cbn [length] in Hi; try lia; [cbn; f_equal; lia|].
  cbn [tx_positions take concat lookup list_lookup]. change (tx_positions (p + len tx) txs !! i = Some (p + len (tx ++ concat (take i txs)))).
  rewrite IH by lia. rewrite length_app. f_equal. lia.
Qed.

(** The place of piece [i] and of its end. *)
Definition piece_pos (txs : list (list Z)) (i : nat) : Z := match i with O => 68 | S i => 78 + len (concat (take i txs)) end.

Lemma msg_positions_at txs i : (i <= length txs)%nat -> msg_positions txs !! i = Some (piece_pos txs i).
Proof. destruct i as [|i]; intros Hi; [reflexivity|]. cbn. rewrite tx_positions_at by lia. reflexivity. Qed.

Lemma piece_step data txs i piece :
  cut_into data txs -> msg_pieces data txs !! i = Some piece ->
  piece_pos txs (S i) = piece_pos txs i + len piece /\ rda data (piece_pos txs i) (length piece) = piece /\
  68 <= piece_pos txs i /\ piece_pos txs (S i) <= len data /\ 0 < len piece.
Proof.
  intros [Hd Hf Hl] Hp. assert (Hc : len (concat txs) = len data - 78) by (rewrite <- Hd, length_drop; lia).
  destruct i as [|i]; cbn [msg_pieces lookup list_lookup piece_pos] in *.
  - injection Hp as <-. unfold rda. rewrite !length_rd. rewrite take_0. cbn [concat length]. split_and!; try reflexivity; lia.
  - change (txs !! i = Some piece) in Hp. pose proof (Forall_lookup_1 _ _ _ _ Hf Hp) as Hlen. cbn beta in Hlen.
    assert (Es : concat txs = concat (take i txs) ++ piece ++ concat (drop (S i) txs)).
    { rewrite <- (take_drop_middle txs i piece Hp) at 1. rewrite concat_app. reflexivity. }
    pose proof (f_equal length Es) as El. rewrite !length_app in El.
    rewrite (take_S_r txs i piece Hp), concat_app, length_app. cbn [concat]. rewrite app_nil_r.
    split_and!; try lia. unfold rda. rewrite rd_in by lia. replace (Z.to_nat (78 + len (concat (take i txs)))) with (78 + length (concat (take i txs)))%nat by lia.
    rewrite <- drop_drop, Hd, Es, drop_app_length, take_app_length. reflexivity.
Qed.

Lemma piece_last data txs : cut_into data txs -> piece_pos txs (S (length txs)) = len data.
Proof.
  intros [Hd Hf Hl]. cbn. rewrite take_ge by lia. rewrite <- Hd, length_drop. lia.
Qed.
End Layout.

(** * The path of a transaction *)

Section Path.
Context `{Sha256}.
Abbreviation hash_t := (list Z).
Abbreviation len l := (Z.of_nat (length l)).

Lemma level_up_hash_all l : Forall is_hash l -> Forall is_hash (level_up l).
Proof. apply level_up_hashes. Qed.

Lemma merkle_root_hash l : Forall is_hash l -> is_hash (merkle_root l).
Proof.
  unfold merkle_root. generalize (length l) as n. intros n. revert l. induction n as [|n IH]; intros [|a [|b l]] Hl; cbn [merkle_fuel];
    try apply zero_hash_hash; try (now inversion Hl). apply IH. now apply level_up_hash_all.
Qed.

(** A path read from a file that holds the stored hashes. *)
Lemma path_read_stored x f off ok lone m add hs :
  0 <= m -> Forall (fun p => 0 <= p /\ stored_pos x m p) add ->
  (forall p, 0 <= p < len x - 2 -> ok p = true /\ rda f (off p) 32 = stored x !!! Z.to_nat p) ->
  rda f lone 32 = x !!! (length x - 1)%nat \/ Forall (fun p => p <> m) add ->
  path_read f off ok lone m add hs = Gives (hs ++ map (stored_at x m) add).
Proof.
  intros Hm Hf Hoff Hlone. revert hs; induction Hf as [|p add [Hp0 [Hp1 Hp2]] Hf IH]; intros hs; cbn [path_read map]; [now rewrite app_nil_r|].
  assert (Hl' : rda f lone 32 = x !!! (length x - 1)%nat \/ Forall (fun p => p <> m) add)
    by (destruct Hlone as [Hl|Hl]; [now left|right; now inversion Hl]). specialize (IH Hl').
  assert (Es : forall h, h = stored_at x m p -> path_read f off ok lone m add (hs ++ [h]) = Gives (hs ++ stored_at x m p :: map (stored_at x m) add)).
  { intros h ->. rewrite IH, <- (assoc_L (++)). reflexivity. }
  unfold stored_at in Es at 1. destruct (Z.ltb_spec p m) as [Hlt|Hge].
  - destruct (Hoff p (conj Hp0 (Hp1 Hlt))) as [-> Hr]. apply Es, Hr.
  - destruct (Z.eqb_spec p m) as [->|Hne].
    + apply Es. destruct Hlone as [Hl|Hl]; [exact Hl|]. inversion Hl. congruence.
    + specialize (Hp2 ltac:(lia)). destruct (Hoff (p - 1) ltac:(lia)) as [-> Hr]. apply Es, Hr.
Qed.

Lemma missing_ge n : 0 <= missing n.
Proof. unfold missing, u32. destruct (Z.odd n); [apply Z.mod_pos_bound; lia|lia]. Qed.

(** When the place computed for the missing hash is right. *)
Definition path_ok (n : Z) : Prop := Z.odd n = true \/ n <= 1026.

Lemma missing_gap x : 0 < len x < 2 ^ 29 -> path_ok (len x) -> gap_ok x (missing (len x)).
Proof.
  intros Hx Hok. unfold gap_ok, missing. destruct (Z.odd (len x)) eqn:Eo.
  - unfold gap, psz. assert (Hd : 0 <= len x / 2 < 2 ^ 29) by (split; [apply Z.div_pos; lia|apply Z.div_lt_upper_bound; lia]).
    pose proof (popcount_bound (len x / 2) ltac:(lia)). rewrite bits_exact by lia. rewrite (u32_small (2 * _)) by lia. apply u32_small. lia.
  - destruct Hok as [|Hle]; [congruence|lia].
Qed.

Section File.
Context (svid msid mnum : Z) (data : list Z) (txs : list (list Z)) (Hc : cut_into data txs) (Hm : 0 <= mnum < 2 ^ 32).
Abbreviation x := (msg_leaves svid msid data txs).
Abbreviation f := (msg_file svid msid data txs mnum).
Abbreviation n := (len txs + 1).

Lemma leaves_n : len x = n.
Proof. apply length_msg_leaves. Qed.

Lemma n_bound : 2 <= n < 2 ^ 22 + 2.
Proof. destruct (cut_count data txs Hc). lia. Qed.

Lemma x_bound : 0 < len x < 2 ^ 29.
Proof. rewrite leaves_n. pose proof n_bound. lia. Qed.

Lemma root_length : length (merkle_root x) = 32%nat.
Proof. apply merkle_root_hash, msg_leaves_hash. Qed.

Lemma positions_n : len (msg_positions txs) = n.
Proof. unfold msg_positions. cbn [length]. rewrite length_tx_positions. lia. Qed.

Lemma file_head o k : (o + k <= length data)%nat -> rd f o k = rd data o k.
Proof. intros Hk. unfold msg_file, with_tree. now apply rd_app_l. Qed.

Lemma file_skip o k : rd f (length data + o) k =
  rd (merkle_root x ++ le_bytes 4 mnum ++ le_bytes 4 (msg_total data (len x)) ++ le_bytes 4 (u32 (len (msg_positions txs))) ++
      index_bytes (msg_positions txs) x ++ concat (take (length x - 2) (stored x))) o k.
Proof. unfold msg_file, with_tree. rewrite rd_app_skip by lia. f_equal. lia. Qed.

Lemma file_sigh : rda f (len data) 32 = merkle_root x.
Proof. unfold rda. rewrite Nat2Z.id. replace (length data) with (length data + 0)%nat by lia. rewrite file_skip. apply rd_app_here, root_length. Qed.

Lemma file_fields :
  rdza f (len data + 32) 4 = mnum /\ rdza f (len data + 32 + 4) 4 = msg_total data n /\ rdza f (len data + 32 + 4 + 4) 4 = n.
Proof.
  pose proof n_bound. pose proof (ci_len _ _ Hc). pose proof root_length as Hr. unfold rdza.
  replace (Z.to_nat (len data + 32)) with (length data + 32)%nat by lia.
  replace (Z.to_nat (len data + 32 + 4)) with (length data + 36)%nat by lia.
  replace (Z.to_nat (len data + 32 + 4 + 4)) with (length data + 40)%nat by lia.
  unfold rdz. rewrite !file_skip. rewrite !(rd_app_skip (merkle_root x)) by lia. rewrite Hr. fold (rdz).
  rewrite positions_n, leaves_n, u32_small by lia. unfold msg_total.
  match goal with |- le_val (rd ?a ?o ?k) = _ /\ le_val (rd _ ?o2 _) = _ /\ le_val (rd _ ?o3 _) = _ =>
    change (rdz a o k = mnum /\ rdz a o2 k = len data + 44 + 36 * n + 32 * (n - 2) /\ rdz a o3 k = n) end.
  cbn [Nat.sub]. read_fields. auto.
Qed.

Lemma index_chunks : Forall (fun c => length c = 36%nat) (zip_with (fun p h => le_bytes 4 p ++ h) (msg_positions txs) x).
Proof.
  apply Forall_lookup_2. intros i c Hi. apply lookup_zip_with_Some in Hi as (p & h & -> & _ & Hh).
  pose proof (Forall_lookup_1 _ _ _ _ (msg_leaves_hash svid msid data txs) Hh) as [Hl _]. rewrite length_app, length_le_bytes. lia.
Qed.

Lemma index_length : length (index_bytes (msg_positions txs) x) = (36 * length x)%nat.
Proof.
  unfold index_bytes. rewrite (length_concat_chunks 36) by apply index_chunks. rewrite length_zip_with.
  pose proof positions_n. pose proof leaves_n. lia.
Qed.

Lemma file_index i o k :
  (i < length x)%nat -> (o + k <= 36)%nat -> rd f (length data + (44 + (36 * i + o))) k = rd (le_bytes 4 (piece_pos txs i) ++ x !!! i) o k.
Proof.
  intros Hi Hk. pose proof root_length as Hr. rewrite file_skip. do 4 (rewrite rd_app_skip by (rewrite ?Hr, ?length_le_bytes; lia)).
  rewrite Hr, !length_le_bytes. replace (44 + (36 * i + o) - 32 - 4 - 4 - 4)%nat with (36 * i + o)%nat by lia. unfold index_bytes.
  apply rd_chunk; [apply index_chunks| |exact Hk]. apply lookup_zip_with_Some. exists (piece_pos txs i), (x !!! i).
  pose proof leaves_n. split; [reflexivity|]. split; [apply msg_positions_at; lia|]. now apply list_lookup_lookup_total_lt.
Qed.

Lemma file_leaf i : (i < length x)%nat -> rd f (length data + (44 + (36 * i + 4))) 32 = x !!! i.
Proof.
  intros Hi. rewrite file_index by lia. rewrite rd_app_skip, length_le_bytes by (rewrite length_le_bytes; lia).
  pose proof (leaf_length x (msg_leaves_hash _ _ _ _) i Hi) as Hl. rewrite <- Hl. apply rd_full.
Qed.

Lemma file_pos i : (i < length x)%nat -> rdz f (length data + (44 + (36 * i + 0))) 4 = piece_pos txs i.
Proof.
  intros Hi. unfold rdz. rewrite file_index by lia. apply rdz_here. pose proof leaves_n. destruct (ci_len _ _ Hc).
  destruct (lookup_lt_is_Some_2 (msg_pieces data txs) i) as [piece Hp]; [cbn; lia|].
  destruct (piece_step data txs i piece Hc Hp) as (Q1 & _ & Q2 & Q3 & Q4). change (256 ^ Z.of_nat 4) with (2 ^ 32). lia.
Qed.

Lemma file_stored p : 0 <= p < n - 2 ->
  rd f (length data + (44 + (36 * length x + (32 * Z.to_nat p + 0)))) 32 = stored x !!! Z.to_nat p.
Proof.
  intros Hp. pose proof root_length as Hr. pose proof leaves_n as Hn. pose proof index_length as Hi. pose proof n_bound.
  pose proof (stored_count x x_bound (msg_leaves_hash _ _ _ _)) as Hs.
  assert (Hh : Forall (fun c => length c = 32%nat) (stored x)).
  { eapply Forall_impl; [apply stored_hash; [apply x_bound|apply msg_leaves_hash]|]. intros c Hh. apply Hh. }
  rewrite file_skip. do 5 (rewrite rd_app_skip by (rewrite ?Hr, ?length_le_bytes, ?Hi; lia)). rewrite Hr, !length_le_bytes, Hi.
  rewrite <- (app_nil_r (concat _)).
  replace (44 + (36 * length x + (32 * Z.to_nat p + 0)) - 32 - 4 - 4 - 4 - 36 * length x)%nat with (32 * Z.to_nat p + 0)%nat by lia.
  rewrite (rd_chunk 32 _ _ (Z.to_nat p) (stored x !!! Z.to_nat p)); [|now apply Forall_take| |lia].
  - assert (Hl : length (stored x !!! Z.to_nat p) = 32%nat).
    { apply (Forall_lookup_1 _ _ (Z.to_nat p) _ Hh). apply list_lookup_lookup_total_lt. lia. }
    rewrite <- Hl. apply rd_full.
  - rewrite lookup_take_lt by lia. apply list_lookup_lookup_total_lt. lia.
Qed.
Lemma file_first k piece :
  0 <= k < n -> msg_pieces data txs !! Z.to_nat k = Some piece ->
  first_read f (len data) n k = (piece_pos txs (Z.to_nat k), len piece, first_hashes x k).
Proof.
  intros Hk Hp. destruct (piece_step data txs _ piece Hc Hp) as (Q1 & _ & Q2 & Q3 & Q4). pose proof n_bound. pose proof leaves_n as Hn.
  destruct (ci_len _ _ Hc) as [_ Hd]. pose proof (piece_last data txs Hc) as Hlast.
  assert (Hend : k = n - 1 -> len data - piece_pos txs (Z.to_nat k) = len piece).
  { intros ->. replace (Z.to_nat (n - 1)) with (length txs) in * by lia. lia. }
  assert (Hnext : k <> n - 1 -> rdz f (length data + (44 + (36 * Z.to_nat (k + 1) + 0))) 4 - piece_pos txs (Z.to_nat k) = len piece).
  { intros Hne. rewrite file_pos by lia. replace (Z.to_nat (k + 1)) with (S (Z.to_nat k)) by lia. lia. }
  unfold first_read, first_hashes. rewrite Hn. unfold rda. destruct (Z.odd k) eqn:Eo.
  - assert (Hk1 : 1 <= k) by (now apply odd_pos). rewrite (u32_small (len data + 32 + 4 + 4 + 4 + (4 + 32) * k - 32)) by lia. rewrite !rdz_rd, !rd_rd by lia.
    set (o := Z.to_nat _). assert (Ho : o = (length data + (44 + (36 * Z.to_nat (k - 1) + 4)))%nat) by lia.
    replace (o + 32)%nat with (length data + (44 + (36 * Z.to_nat k + 0)))%nat by lia.
    replace (o + (32 + 4 + 32))%nat with (length data + (44 + (36 * Z.to_nat (k + 1) + 0)))%nat by lia.
    replace (o + (32 + 4))%nat with (length data + (44 + (36 * Z.to_nat k + 4)))%nat by lia. rewrite (Nat.add_0_r o), Ho.
    rewrite (file_pos (Z.to_nat k)), !file_leaf by lia. f_equal. f_equal.
    destruct (Z.eqb_spec k (n - 1)) as [He|He]; [rewrite (Hend He)|rewrite (Hnext He)]; apply u32_small; lia.
  - rewrite (u32_small (len data + 32 + 4 + 4 + 4 + (4 + 32) * k)) by lia. rewrite !rdz_rd, !rd_rd by lia.
    set (o := Z.to_nat _). assert (Ho : o = (length data + (44 + (36 * Z.to_nat k + 0)))%nat) by lia.
    replace (o + (4 + 32))%nat with (length data + (44 + (36 * Z.to_nat (k + 1) + 0)))%nat by lia.
    replace (o + 4)%nat with (length data + (44 + (36 * Z.to_nat k + 4)))%nat by lia.
    replace (o + (4 + 32 + 4))%nat with (length data + (44 + (36 * Z.to_nat (k + 1) + 4)))%nat by lia. rewrite (Nat.add_0_r o), Ho.
    rewrite (file_pos (Z.to_nat k)), (file_leaf (Z.to_nat k)) by lia. destruct (Z.eqb_spec k (n - 1)) as [He|He].
    + rewrite (Hend He). rewrite u32_small by lia. reflexivity.
    + rewrite (Hnext He), file_leaf by lia. rewrite u32_small by lia. reflexivity.
Qed.

(** The path reported for piece [k]. *)
Definition msg_path (k : Z) : list hash_t := first_hashes x k ++ map (stored_at x (missing n)) (hashpath (k / 2) ((n + 1) / 2)).

Context (Hlen : rdz data 0 4 / 2 ^ 8 = len data) (Hok : path_ok n).

Lemma msg_path_root k h0 : 0 <= k < n -> hashpathrun h0 (msg_path k) = merkle_root x.
Proof.
  intros Hk. unfold msg_path. rewrite <- leaves_n in *. apply stored_path; [exact x_bound|apply msg_leaves_hash|exact Hk|].
  apply missing_gap; [exact x_bound|exact Hok].
Qed.

Lemma hash_tree_get_file k piece :
  0 <= k < n -> msg_pieces data txs !! Z.to_nat k = Some piece ->
  hash_tree_get (Some f) k = Gives (mnum, piece, msg_path k).
Proof.
  intros Hk Hp. pose proof n_bound. pose proof leaves_n as Hn. destruct (ci_len _ _ Hc) as [Hd0 Hd]. destruct file_fields as (F1 & F2 & F3).
  destruct (piece_step data txs _ piece Hc Hp) as (Q1 & Q0 & Q2 & Q3 & Q4). unfold hash_tree_get.
  assert (Eh : rdz f 0 4 / 2 ^ 8 = len data) by (unfold rdz; rewrite file_head by lia; exact Hlen).
  rewrite Eh, file_sigh, F1, F2, F3. rewrite (proj2 (Z.eqb_neq (len data) 0)), (proj2 (Z.eqb_neq n 0)), (proj2 (Z.leb_gt n k)) by lia.
  rewrite (file_first k piece Hk Hp). rewrite (proj2 (Z.ltb_lt 0 (len piece))), (proj2 (Z.ltb_lt (len piece) (len data))) by lia. cbn [andb].
  pose proof (stored_path x x_bound (msg_leaves_hash _ _ _ _) k (missing (len x)) zero_hash) as Hsp. rewrite Hn in Hsp. specialize (Hsp Hk).
  destruct Hsp as [Hr Hps]; [rewrite <- Hn; apply missing_gap; [exact x_bound|rewrite Hn; exact Hok]|].
  rewrite (u32_small (n + 1)) by lia. rewrite (path_read_stored x); [|apply missing_ge|exact Hps| |].
  - rewrite Hr, bool_decide_eq_true_2 by reflexivity. fold (msg_path k). cbn [negb]. do 3 f_equal. rewrite Nat2Z.id. unfold rda. rewrite file_head by lia. exact Q0.
  - intros p Hp'. rewrite Hn in Hp'. rewrite !u32_small by lia. split; [apply Z.ltb_lt; unfold msg_total; lia|].
    unfold rda. rewrite <- file_stored by lia. f_equal. lia.
  - left. rewrite u32_small by lia. unfold rda. rewrite <- file_leaf by lia. f_equal. lia.
Qed.
End File.
End Path.

(** * Claims on messages *)

Section Claims.
Context `{Sha256}.
Abbreviation hash_t := (list Z).
Abbreviation len l := (Z.of_nat (length l)).

(** A message whose transactions the parser accepts; [l] are the transactions. *)
Record parsed (svid msid : Z) (data : list Z) (l : list (list Z * usertxs)) : Prop := {
  pd_bytes : bytes data; pd_len : 78 < len data < 2 ^ 24; pd_head : rdz data 0 4 = MSGTYPE_MSG + 2 ^ 8 * len data;
  pd_svid : 0 < svid < 2 ^ 16; pd_msid : 0 < msid < 2 ^ 32;
  pd_cut : exists fuel, cut fuel (drop 78 data) (len data - 78) = Some l; pd_count : u16 (1 + len l) <> 0
}.

Lemma parsed_tree svid msid data l :
  parsed svid msid data l ->
  cut_into data (cut_txs l) /\
  hash_tree svid msid data = Gives (merkle_root (msg_leaves svid msid data (cut_txs l)), msg_file svid msid data (cut_txs l) 0).
Proof.
  intros [Hb Hl Hh Hs Hm [fuel Hc] Hn].
  destruct (hash_tree_loop_cut (length data) fuel svid msid data data_offset 1 [4+64] [SHA256 (rda data (4+64) 10)]
    (update hashtree_init (SHA256 (rda data (4+64) 10))).1 l Hb ltac:(vm_compute; discriminate) ltac:(unfold data_offset; lia) Hc) as (E & Hd & Hf).
  assert (Hci : cut_into data (cut_txs l)) by (split; [exact Hd|exact Hf|exact Hl]). split; [exact Hci|].
  eapply hash_tree_result; [|lia|lia|exact Hci| |exact E].
  - assert (Hz : rdz data 0 4 = rdz data 0 1 + 256 * rdz data 1 3).
    { unfold rdz. rewrite !rd_in by lia. change 4%nat with (1 + 3)%nat at 1. rewrite <- (take_take_drop (drop 0 data) 1 3), le_val_app, drop_drop.
      rewrite length_take, length_drop. replace (1 `min` (length data - 0))%nat with 1%nat by lia. reflexivity. }
    assert (B1 : 0 <= rdz data 0 1 < 256) by (pose proof (le_val_bound _ (bytes_rd data 0 1 Hb)) as B; rewrite length_rd in B; exact B).
    unfold MSGTYPE_MSG in *. lia.
  - pose proof (count_tnum l 1) as Ec. change (u16 1) with 1 in Ec. rewrite Ec. exact Hn.
Qed.

Lemma pwrite_middle a b c d : length b = length d -> pwrite (length a) d (a ++ b ++ c) = a ++ d ++ c.
Proof.
  intros Hl. unfold pwrite. rewrite !length_app. replace (length a - (length a + (length b + length c)))%nat with O by lia.
  cbn [replicate]. rewrite app_nil_r, take_app_length, <- Hl, <- drop_drop, drop_app_length, drop_app_length. reflexivity.
Qed.

Lemma msg_file_mnum svid msid data txs m m' :
  pwrite (length data + 32) (le_bytes 4 m') (msg_file svid msid data txs m) = msg_file svid msid data txs m'.
Proof.
  unfold msg_file, with_tree. rewrite !(assoc_L (++) data). rewrite <- (root_length svid msid data txs), <- length_app.
  apply pwrite_middle. now rewrite !length_le_bytes.
Qed.

Lemma msg_path_first svid msid data txs k :
  msg_path svid msid data txs k !! O = Some (msg_leaves svid msid data txs !!! Z.to_nat k).
Proof. unfold msg_path, first_hashes. destruct (Z.odd k); [|destruct (_ =? _)]; reflexivity. Qed.

(** Every message the parser accepts is accepted by [hash_tree], and from
    its file [hash_tree_get] returns, for each position, the bytes of the
    transaction (of the header fields at 0) and a path that runs to the hash of
    the message; with an even number of leaves the message has at most 1026. *)
Theorem hash_tree_get_proves svid msid data l k piece mnum :
  parsed svid msid data l -> path_ok (len l + 1) -> 0 <= mnum < 2 ^ 32 ->
  0 <= k -> msg_pieces data (cut_txs l) !! Z.to_nat k = Some piece ->
  exists sigh file path,
    hash_tree svid msid data = Gives (sigh, file) /\
    hash_tree_get (Some (pwrite (length data + 32) (le_bytes 4 mnum) file)) k = Gives (mnum, piece, path) /\
    hashpathrun zero_hash path = sigh /\ path !! O = Some (msg_leaves svid msid data (cut_txs l) !!! Z.to_nat k).
Proof.
  intros Hp Hok Hm Hk Hpc. destruct (parsed_tree _ _ _ _ Hp) as [Hc Ht]. set (txs := cut_txs l) in *.
  assert (Hn : length txs = length l) by apply length_map.
  assert (Hb : 0 <= k < len txs + 1) by (apply lookup_lt_Some in Hpc; cbn [msg_pieces length] in Hpc; lia).
  do 2 eexists. exists (msg_path svid msid data txs k). split; [exact Ht|]. rewrite msg_file_mnum.
  assert (Hlen : rdz data 0 4 / 2 ^ 8 = len data).
  { rewrite (pd_head _ _ _ _ Hp), Z.mul_comm, Z.div_add by lia. reflexivity. }
  assert (Hok' : path_ok (len txs + 1)) by now rewrite Hn.
  split; [now apply hash_tree_get_file|]. split; [now apply msg_path_root|apply msg_path_first].
Qed.
End Claims.

(** * Examples *)

(** A message of [n] empty transactions of the smallest size. *)
Definition blank_msg (n : nat) : list Z :=
  le_bytes 4 (MSGTYPE_MSG + 2 ^ 8 * (78 + 4 * Z.of_nat n)) ++ replicate 64 7 ++ le_bytes 2 1 ++ le_bytes 4 5 ++ le_bytes 4 1000 ++
  concat (replicate n [TXSTYPE_NON; 4; 0; 0]).

Definition blank_cut (n : nat) : list (list Z * usertxs) :=
  default [] (cut n (drop 78 (blank_msg n)) (Z.of_nat (length (blank_msg n)) - 78)).

Lemma blank_parsed3 : parsed 1 5 (blank_msg 3) (blank_cut 3).
Proof.
  split; [apply bytes_check; reflexivity|vm_compute; split; reflexivity|reflexivity|lia|lia| |vm_compute; discriminate].
  exists 3%nat. reflexivity.
Qed.

Lemma hash_tree_get_proves_witness :
  exists sigh file path,
    hash_tree (H := toy_sha) 1 5 (blank_msg 3) = Gives (sigh, file) /\
    hash_tree_get (H := toy_sha) (Some (pwrite (78 + 12 + 32) (le_bytes 4 9) file)) 2 = Gives (9, [TXSTYPE_NON; 4; 0; 0], path) /\
    hashpathrun (H := toy_sha) zero_hash path = sigh /\ path !! O = Some (msg_leaves (H := toy_sha) 1 5 (blank_msg 3) (cut_txs (blank_cut 3)) !!! 2%nat).
Proof.
  apply (hash_tree_get_proves (H := toy_sha) 1 5 (blank_msg 3) (blank_cut 3) 2 [TXSTYPE_NON; 4; 0; 0] 9 blank_parsed3).
  - right. vm_compute. discriminate.
  - lia.
  - lia.
  - reflexivity.
Defined.

Lemma hash_tree_fast_agrees_witness :
  hash_tree_fast (H := toy_sha) (blank_msg 3) 1 5 = answer_map fst (hash_tree (H := toy_sha) 1 5 (blank_msg 3)).
Proof. apply (hash_tree_fast_agrees (H := toy_sha)). lia. Defined.

(** A digest that is cheap to evaluate. *)
Definition quick (m : list Z) : Z := foldl (fun a b => (a * 257 + b + 1) mod 1000003) 1 m.
Definition quick_sha : Sha256 :=
  {| SHA256 m := le_bytes 32 (quick m);
     SHA256_length m := length_le_bytes 32 (quick m);
     SHA256_bytes m := bytes_le_bytes 32 (quick m) |}.

(** With 1028 leaves the constant used when no hash is missing is the place of
    a hash, and the path of transaction 1024 is refused. *)
Definition get_after (n : nat) (k : Z) : answer (Z * list Z * list (list Z)) :=
  match hash_tree (H := quick_sha) 1 5 (blank_msg n) with Gives (_, f) => hash_tree_get (H := quick_sha) (Some f) k | _ => Aborts end.

Lemma path_of_large_message : get_after 1027 1024 = Refuses /\ length (blank_cut 1027) = 1027%nat.
Proof. vm_compute. split; reflexivity. Qed.
