(* ===== verification/TxProof.v ===== *)
(** The list of the messages of a block and the proof of a transaction:
    [msgl_put], [msgl_get], [msgl_map], [msgl_load] and [msgl_hash_tree_get] of
    [common/servers.hpp], [save_mnum] and [load_path] of [common/message.hpp],
    the handler of [escd/commandhandler/gettransactionhandler.cpp] and the
    check the client makes ([common/command/gettransaction.cpp]). *)

From stdpp Require Import base gmap list.
From Stdlib Require Import ZArith Lia.
From S2P Require Import Prelude Params Usertxs Accounts Servers Demo Chain HashTree MerklePath MsgTree.

Abbreviation len l := (Z.of_nat (length l)).

(** A message of the map of a block; [lm_file] is its file. *)
Record lmsg := {
  lm_type : Z; lm_status : Z; lm_svid : Z; lm_msid : Z; lm_len : Z; lm_sigh : list Z; lm_file : option (list Z)
}.

Definition save_mnum (mnum : Z) (m : lmsg) : answer lmsg :=
  if negb (m.(lm_type) =? MSGTYPE_MSG) then Gives m
  else if negb (has_bits m.(lm_status) MSGSTAT_SAV) then Gives m
  else ensure! has_bits m.(lm_status) MSGSTAT_VAL in
  match m.(lm_file) with
  | None => Gives m
  | Some f => Gives (m <| lm_file := Some (pwrite (Z.to_nat (u32 (m.(lm_len)+32))) (le_bytes 4 mnum) f) |>)
  end.

(** The numbering of the messages in the loop of [msgl_put]. *)
Fixpoint number_msgs (n : Z) (l : list (Z * lmsg)) : answer (list (Z * lmsg)) :=
  match l with
  | [] => Gives []
  | (k, m) :: l =>
      match save_mnum (u32 (n + 1)) m with
      | Gives m =>
          match number_msgs (u32 (n + 1)) l with Gives l => Gives ((k, m) :: l) | Refuses => Refuses | Aborts => Aborts end
      | Refuses => Refuses
      | Aborts => Aborts
      end
  end.

Definition entry_bytes (m : lmsg) : list Z := le_bytes 2 m.(lm_svid) ++ le_bytes 4 m.(lm_msid) ++ m.(lm_sigh).

Section List.
Context `{Sha256}.
Abbreviation hash_t := (list Z).

(** The file [msglist.dat]. *)
Definition list_bytes (msghash : hash_t) (l : list (Z * lmsg)) (hs : list hash_t) : list Z :=
  le_bytes 4 (u32 (len l)) ++ msghash ++ concat (map (fun q => entry_bytes q.2) l) ++ le_bytes 4 (u32 (len hs)) ++ concat hs.

(** [msgl_put]: the header fields, the file ([None]: it can not be opened; the
    file is not truncated) and the messages with their numbers. *)
Definition msgl_put (s : servers) (map : gmap Z lmsg) (cmphash : option hash_t) (file : option (list Z)) :
    answer (servers * list Z * list (Z * lmsg)) * servers :=
  let l := elems map in
  let tree := foldl (fun t q => (update t q.2.(lm_sigh)).1) hashtree_init l in
  let '(tree, _, msghash) := finish tree in
  let s := s <| sv_msg := u32 (len l) |> <| sv_msghash := msghash |> in
  let differs := match cmphash with Some c => negb (bool_decide (c = msghash)) | None => false end in
  if differs then (Refuses, s)
  else
    match file with
    | None => (Refuses, s)
    | Some f =>
        match number_msgs 0 l with
        | Gives l' =>
            let hashes_size := if (length tree.(hashes) =? 0)%nat then 0 else u32 (len tree.(hashes) - 1) in
            (Gives (s, pwrite 0 (list_bytes msghash l (take (Z.to_nat hashes_size) tree.(hashes))) f, l'), s)
        | Refuses => (Refuses, s)
        | Aborts => (Aborts, s)
        end
    end.

(** [msgl_get]: the bytes read. *)
Definition msgl_get (s : servers) (file : option (list Z)) : list Z :=
  match file with
  | None => []
  | Some f => take (Z.to_nat (32 + s.(sv_msg) * (2+4+32))) (drop 4 f)
  end.

(** The identifier of a message made from an entry of the list. *)
Definition list_key (mysvid svid msid : Z) (sigh : hash_t) : Z :=
  le_val ((if msid =? 0xffffffff then [0; MSGTYPE_DBL] else [nthz sigh (Z.to_nat (mysvid mod 32)); MSGTYPE_MSG]) ++ le_bytes 4 msid ++ le_bytes 2 svid).

(** The message made from an entry: its data is a request. *)
Definition list_msg (svid msid : Z) (sigh : hash_t) : lmsg :=
  {| lm_type := if msid =? 0xffffffff then MSGTYPE_DBL else MSGTYPE_MSG; lm_status := MSGSTAT_VAL; lm_svid := svid; lm_msid := msid;
     lm_len := 8; lm_sigh := sigh; lm_file := None |}.

(** [msgl_map] on the entries, [n] of them. *)
Fixpoint msgl_map (n : nat) (d : list Z) (mysvid : Z) (map : gmap Z lmsg) : gmap Z lmsg :=
  match n with
  | O => map
  | S n =>
      let svid := rdz d 0 2 in
      let msid := rdz d 2 4 in
      let sigh := rd d 6 32 in
      msgl_map n (drop (2+4+32) d) mysvid (<[list_key mysvid svid msid sigh := list_msg svid msid sigh]> map)
  end.

(** [msgl_load]; [Aborts] is a number of messages that the 16-bit counter of
    [msgl_map] does not reach. *)
Definition msgl_load (s : servers) (file : option (list Z)) (mysvid : Z) (map : gmap Z lmsg) : answer (gmap Z lmsg) :=
  let data := msgl_get s file in
  refuse! negb (len data =? 32 + s.(sv_msg) * (2+4+32)) in
  refuse! negb (bool_decide (take 32 data = s.(sv_msghash))) in
  ensure! s.(sv_msg) <? 2 ^ 16 in
  Gives (msgl_map (Z.to_nat s.(sv_msg)) (drop 32 data) mysvid map).

(** The entry of the message and its sibling; [mnum] is one less than the
    number in the file of the message. *)
Definition entry_read (f : list Z) (msg svid msid mnum : Z) : answer (list hash_t) :=
  if Z.odd mnum then
    let tmp := rda f (u32 (4+32 + (2+4+32) * mnum - 32)) (32+2+4) in
    refuse! negb (rdz tmp 32 2 =? svid) || negb (rdz tmp (32+2) 4 =? msid) in
    Gives [rd tmp 0 32]
  else
    let tmp := rda f (u32 (4+32 + (2+4+32) * mnum)) (2+4+32+2+4+32) in
    refuse! negb (rdz tmp 0 2 =? svid) || negb (rdz tmp 2 4 =? msid) in
    Gives (if mnum <? u32 (msg - 1) then [rd tmp (2+4+32+2+4) 32] else []).

(** [msgl_hash_tree_get]: the path of the caller with the path to the block
    hash behind it. *)
Definition msgl_hash_tree_get (headers : gmap Z (list Z)) (s : servers) (file : option (list Z)) (svid msid mnum : Z) (hs : list hash_t) :
    answer (list hash_t) :=
  refuse! mnum =? 0 in
  match (if s.(sv_msg) =? 0 then header_get headers s else Some s) with
  | None => Refuses
  | Some s =>
      match file with
      | None => Refuses
      | Some f =>
          let mnum := mnum - 1 in
          let msg := s.(sv_msg) in
          match entry_read f msg svid msid mnum with
          | Gives sib =>
              let top := 4+32 + (2+4+32) * msg in
              let htot := rdza f (u32 top) 4 in
              match path_read f (fun n => u32 (top + 4 + 32 * n)) (fun n => n <? htot) (u32 (top - 32))
                      (missing msg) (hashpath (mnum / 2) (u32 (msg + 1) / 2)) (hs ++ sib) with
              | Gives hs =>
                  let nhash := hashpathrun zero_hash hs in
                  refuse! negb (bool_decide (s.(sv_msghash) = nhash)) in
                  refuse! negb (bool_decide (s.(sv_nowhash) = addhash nhash s.(sv_minhash))) in
                  Gives (hs ++ [s.(sv_minhash)])
              | Refuses => Refuses
              | Aborts => Aborts
              end
          | Refuses => Refuses
          | Aborts => Aborts
          end
      end
  end.

(** * The request of a transaction *)

(** The files of a node: the index of each node, the messages by block, node
    and number, the headers and message lists by block. *)
Record files := {
  f_inx : gmap Z (list Z); f_msg : gmap (Z * Z * Z) (list Z); f_header : gmap Z (list Z); f_list : gmap Z (list Z)
}.

Definition load_path (fs : files) (svid msid : Z) : Z :=
  match fs.(f_inx) !! svid with None => 0 | Some f => rdz f (4 * Z.to_nat msid) 4 end.

Inductive tx_error := eFailToProvideTxnInfo | eFailToReadTxnInfo | eFailToGetHashTree.

(** The answer sent, with the widths of [GetTransactionResponse]. *)
Record tx_response := {
  r_path : Z; r_msid : Z; r_node : Z; r_tnum : Z; r_len : Z; r_hnum : Z; r_data : list Z; r_hashes : list hash_t
}.

(** The constructor of [servers]. *)
Definition new_servers (now : Z) : servers :=
  {| sv_now := now; sv_msg := 0; sv_nod := 0; sv_div := 0; sv_oldhash := zero_hash; sv_minhash := zero_hash; sv_msghash := zero_hash;
     sv_nodhash := zero_hash; sv_viphash := zero_hash; sv_nowhash := zero_hash; sv_vok := 0; sv_vno := 0; sv_vtot := 0xffff; sv_txs := 0; sv_nodes := [] |}.

Definition GetTransaction_onExecute (fs : files) (last_path node msgid position : Z) : answer (tx_error + tx_response) :=
  let path := load_path fs node msgid in
  if (path =? 0) || (last_path <? path) then Gives (inl eFailToProvideTxnInfo)
  else
    match hash_tree_get (fs.(f_msg) !! (path, node, msgid)) position with
    | Aborts => Aborts
    | Refuses => Gives (inl eFailToReadTxnInfo)
    | Gives (mnum, data, hs) =>
        match msgl_hash_tree_get fs.(f_header) (new_servers path) (fs.(f_list) !! path) node msgid mnum hs with
        | Aborts => Aborts
        | Refuses => Gives (inl eFailToGetHashTree)
        | Gives hs =>
            Gives (inr {| r_path := path; r_msid := msgid; r_node := node; r_tnum := position; r_len := u16 (len data);
                          r_hnum := u16 (len hs); r_data := data; r_hashes := hs |})
        end
    end.

(** [checkMessageHash] of the client on the bytes it reads: [r_len] bytes of
    data and [r_hnum] hashes; [nowhash] is the block hash it has. *)
Inductive check_error := eGotEmptyBlock | eIncorrectTransaction | eFailedToLoadHash | eHashMismatch.

Definition checkMessageHash (r : tx_response) (svid msid tnum : Z) (nowhash : option hash_t) : option check_error :=
  if r.(r_path) =? 0 then Some eGotEmptyBlock
  else if negb (r.(r_node) =? svid) || negb (r.(r_msid) =? msid) || negb (r.(r_tnum) =? tnum) then Some eIncorrectTransaction
  else
    match nowhash with
    | None => Some eFailedToLoadHash
    | Some nowhash =>
        let body := r.(r_data) ++ concat r.(r_hashes) in
        let data := rd body 0 (Z.to_nat r.(r_len)) in
        let hs := map (fun i => rd body (Z.to_nat r.(r_len) + 32 * i) 32) (seq 0 (Z.to_nat r.(r_hnum))) in
        let nhash := txs_hash_fast svid msid tnum data in
        if negb (bool_decide (nhash = hs !!! O)) then Some eHashMismatch
        else if negb (bool_decide (hashpathrun nhash hs = nowhash)) then Some eHashMismatch
        else None
    end.
End List.

(** * The path of a message *)

Section ListPath.
Context `{Sha256}.
Abbreviation hash_t := (list Z).
Context (l : list (Z * lmsg)) (rest : list Z).

Definition sighs (l : list (Z * lmsg)) : list hash_t := map (fun q => q.2.(lm_sigh)) l.

(** Messages with fields in the range of their types. *)
Definition msg_ok (m : lmsg) : Prop := is_hash m.(lm_sigh) /\ 0 <= m.(lm_svid) < 2 ^ 16 /\ 0 <= m.(lm_msid) < 2 ^ 32.

Context (Hl : 0 < len l < 2 ^ 25) (Ho : Forall (fun q => msg_ok q.2) l).
Abbreviation x := (sighs l).
Abbreviation f := (list_bytes (merkle_root x) l (take (length l - 2) (stored x)) ++ rest).

Lemma sighs_n : length x = length l.
Proof. apply length_map. Qed.

Lemma sighs_bound : 0 < len x < 2 ^ 29.
Proof. rewrite sighs_n. lia. Qed.

Lemma sighs_hash : Forall is_hash x.
Proof. apply Forall_map. eapply Forall_impl; [exact Ho|]. intros q Hq. apply Hq. Qed.

Lemma entry_chunks : Forall (fun c => length c = 38%nat) (map (fun q => entry_bytes q.2) l).
Proof.
  apply Forall_map. eapply Forall_impl; [exact Ho|]. intros q ([Hq _] & _). unfold entry_bytes. rewrite !length_app, !length_le_bytes. lia.
Qed.

Lemma list_root_length : length (merkle_root x) = 32%nat.
Proof. apply merkle_root_hash, sighs_hash. Qed.

Lemma list_skip o k : rd f (36 + o) k =
  rd (concat (map (fun q => entry_bytes q.2) l) ++ le_bytes 4 (u32 (len (take (length l - 2) (stored x)))) ++ concat (take (length l - 2) (stored x)) ++ rest) o k.
Proof.
  unfold list_bytes. rewrite <- !(assoc_L (++)). pose proof list_root_length as Hr.
  do 2 (rewrite rd_app_skip by (rewrite ?Hr, ?length_le_bytes; lia)). rewrite length_le_bytes, Hr. f_equal. lia.
Qed.

Lemma list_entry i k m o n :
  l !! i = Some (k, m) -> (o + n <= 38)%nat -> rd f (36 + (38 * i + o)) n = rd (entry_bytes m) o n.
Proof.
  intros Hi Hn. rewrite list_skip. apply rd_chunk; [apply entry_chunks| |exact Hn]. rewrite list_lookup_fmap, Hi. reflexivity.
Qed.

Lemma list_sigh i : (i < length l)%nat -> rd f (36 + (38 * i + 6)) 32 = x !!! i.
Proof.
  intros Hi. destruct (lookup_lt_is_Some_2 l i Hi) as [[k m] Hm]. rewrite (list_entry i k m) by (assumption || lia).
  destruct (Forall_lookup_1 _ _ _ _ Ho Hm) as ([Hs _] & _). cbn [snd] in Hs. unfold entry_bytes.
  do 2 (rewrite rd_app_skip by (rewrite !length_le_bytes; lia)). rewrite !length_le_bytes. cbn [Nat.sub]. rewrite <- Hs, rd_full.
  unfold sighs. rewrite list_lookup_total_alt, list_lookup_fmap, Hm. reflexivity.
Qed.

Lemma list_ids i k m : l !! i = Some (k, m) -> rdz f (36 + (38 * i + 0)) 2 = m.(lm_svid) /\ rdz f (36 + (38 * i + 2)) 4 = m.(lm_msid).
Proof.
  intros Hi. destruct (Forall_lookup_1 _ _ _ _ Ho Hi) as (_ & Hs & Hm). cbn [snd] in *. unfold rdz. rewrite !(list_entry i k m) by (assumption || lia).
  unfold entry_bytes. split; [apply rdz_here; exact Hs|]. rewrite rd_app_skip by (rewrite length_le_bytes; lia). rewrite length_le_bytes. apply rdz_here. exact Hm.
Qed.

Lemma entries_length : length (concat (map (fun q => entry_bytes q.2) l)) = (38 * length l)%nat.
Proof. rewrite (length_concat_chunks 38) by apply entry_chunks. now rewrite length_map. Qed.

Lemma stored_part : len (take (length l - 2) (stored x)) = Z.max 0 (len l - 2).
Proof. pose proof (stored_count x sighs_bound sighs_hash) as Hs. rewrite length_take. rewrite sighs_n in *. lia. Qed.

Lemma list_htot : rdz f (36 + 38 * length l) 4 = Z.max 0 (len l - 2).
Proof.
  unfold rdz. rewrite list_skip, rd_app_skip, entries_length, Nat.sub_diag, stored_part by (rewrite entries_length; lia).
  rewrite u32_small by lia. apply rdz_here. change (256 ^ Z.of_nat 4) with (2 ^ 32). lia.
Qed.

Lemma list_stored p : 0 <= p < len l - 2 -> rd f (36 + (38 * length l + (4 + (32 * Z.to_nat p + 0)))) 32 = stored x !!! Z.to_nat p.
Proof.
  intros Hp. pose proof (stored_count x sighs_bound sighs_hash) as Hs. rewrite sighs_n in Hs.
  assert (Hh : Forall (fun c => length c = 32%nat) (stored x)).
  { eapply Forall_impl; [apply stored_hash; [apply sighs_bound|apply sighs_hash]|]. intros c Hc. apply Hc. }
  rewrite list_skip. do 2 (rewrite rd_app_skip by (rewrite ?entries_length, ?length_le_bytes; lia)). rewrite entries_length, length_le_bytes.
  replace (38 * length l + (4 + (32 * Z.to_nat p + 0)) - 38 * length l - 4)%nat with (32 * Z.to_nat p + 0)%nat by lia.
  rewrite (rd_chunk 32 _ _ (Z.to_nat p) (stored x !!! Z.to_nat p)); [|now apply Forall_take| |lia].
  - assert (Hlen : length (stored x !!! Z.to_nat p) = 32%nat).
    { apply (Forall_lookup_1 _ _ (Z.to_nat p) _ Hh). apply list_lookup_lookup_total_lt. lia. }
    rewrite <- Hlen. apply rd_full.
  - rewrite lookup_take_lt by lia. apply list_lookup_lookup_total_lt. lia.
Qed.

Lemma list_first i k m : l !! Z.to_nat i = Some (k, m) -> 0 <= i ->
  entry_read f (len l) m.(lm_svid) m.(lm_msid) i = Gives (tail (first_hashes x i)).
Proof.
  intros Hi Hp. assert (Hlt : i < len l) by (apply lookup_lt_Some in Hi; lia). destruct (list_ids _ _ _ Hi) as [I1 I2].
  unfold entry_read, first_hashes, rda. rewrite sighs_n. destruct (Z.odd i) eqn:Eo.
  - assert (1 <= i) by now apply odd_pos. rewrite u32_small by lia. rewrite !rdz_rd, !rd_rd by lia.
    set (o := Z.to_nat _). assert (Eo' : o = (36 + (38 * Z.to_nat (i - 1) + 6))%nat) by lia.
    replace (o + 32)%nat with (36 + (38 * Z.to_nat i + 0))%nat by lia. replace (o + (32 + 2))%nat with (36 + (38 * Z.to_nat i + 2))%nat by lia.
    rewrite I1, I2, !Z.eqb_refl. cbn [negb orb tail]. rewrite (Nat.add_0_r o), Eo', list_sigh by lia. reflexivity.
  - rewrite (u32_small (4 + 32 + _)) by lia. rewrite !rdz_rd, !rd_rd by lia. rewrite u32_small by lia.
    set (o := Z.to_nat _). replace (o + 0)%nat with (36 + (38 * Z.to_nat i + 0))%nat by lia. replace (o + 2)%nat with (36 + (38 * Z.to_nat i + 2))%nat by lia.
    rewrite I1, I2, !Z.eqb_refl. cbn [negb orb]. destruct (Z.eqb_spec i (len l - 1)); destruct (Z.ltb_spec i (len l - 1)); try lia; cbn [tail]; [reflexivity|].
    replace (o + (2 + 4 + 32 + 2 + 4))%nat with (36 + (38 * Z.to_nat (i + 1) + 6))%nat by lia. rewrite list_sigh by lia. reflexivity.
Qed.

(** What is added to the path of a transaction. *)
Definition list_path (i : Z) : list hash_t := tail (first_hashes x i) ++ map (stored_at x (missing (len l))) (hashpath (i / 2) ((len l + 1) / 2)).

Context (Hok : path_ok (len l)).

Lemma list_gap : gap_ok x (missing (len l)).
Proof.
  pose proof (missing_gap x sighs_bound) as Hg. rewrite sighs_n in Hg. exact (Hg Hok).
Qed.

Lemma list_positions i : 0 <= i < len l -> Forall (fun p => 0 <= p /\ stored_pos x (missing (len l)) p) (hashpath (i / 2) ((len l + 1) / 2)).
Proof.
  intros Hi. pose proof (stored_path x sighs_bound sighs_hash i (missing (len l)) zero_hash) as Hs. rewrite sighs_n in Hs. exact (proj2 (Hs Hi list_gap)).
Qed.

Lemma list_path_hash i : 0 <= i < len l -> Forall is_hash (list_path i).
Proof.
  intros Hi. pose proof (first_hashes_hash x sighs_hash i ltac:(rewrite sighs_n; exact Hi)) as Hf. apply Forall_app. split; [destruct Hf; [constructor|assumption]|].
  apply Forall_map. eapply Forall_impl; [apply list_positions; exact Hi|]. intros p [Hp Hs].
  apply stored_at_hash; [apply sighs_bound|apply sighs_hash|apply missing_ge|exact Hp|exact Hs].
Qed.

Lemma list_path_root i hs :
  0 <= i < len l -> hs <> [] -> hashpathrun zero_hash hs = x !!! Z.to_nat i -> hashpathrun zero_hash (hs ++ list_path i) = merkle_root x.
Proof.
  intros Hi Hne Hr. destruct (stored_path x sighs_bound sighs_hash i (missing (len l)) zero_hash ltac:(rewrite sighs_n; exact Hi) list_gap) as [<- _].
  rewrite sighs_n. unfold list_path. destruct hs as [|h hs]; [congruence|]. cbn [hashpathrun app] in *. rewrite foldl_app, Hr.
  unfold first_hashes. destruct (Z.odd i); [|destruct (_ =? _)]; reflexivity.
Qed.

(** The path is found in the file of the list and ends at the block hash. *)
Lemma msgl_path headers s0 s i k m hs :
  l !! Z.to_nat i = Some (k, m) -> 0 <= i -> hs <> [] -> hashpathrun zero_hash hs = m.(lm_sigh) ->
  (if s0.(sv_msg) =? 0 then header_get headers s0 else Some s0) = Some s /\ s.(sv_msg) = len l /\ s.(sv_msghash) = merkle_root x /\
    length s.(sv_minhash) = 32%nat /\ s.(sv_nowhash) = addhash s.(sv_minhash) s.(sv_msghash) ->
  msgl_hash_tree_get headers s0 (Some f) m.(lm_svid) m.(lm_msid) (i + 1) hs = Gives (hs ++ list_path i ++ [s.(sv_minhash)]) /\
  hashpathrun zero_hash (hs ++ list_path i ++ [s.(sv_minhash)]) = s.(sv_nowhash).
Proof.
  intros Hi Hp Hne Hr (Hs & Em & Eh & Lm & En). assert (Hlt : i < len l) by (apply lookup_lt_Some in Hi; lia).
  assert (Hx : m.(lm_sigh) = x !!! Z.to_nat i) by (unfold sighs; rewrite list_lookup_total_alt, list_lookup_fmap, Hi; reflexivity).
  assert (Hroot : hashpathrun zero_hash (hs ++ list_path i) = merkle_root x) by (apply list_path_root; [lia|exact Hne|congruence]).
  assert (Hnow : addhash (merkle_root x) s.(sv_minhash) = s.(sv_nowhash)).
  { rewrite En, Eh. apply addhash_comm_len. rewrite list_root_length. lia. }
  split.
  2:{ rewrite (assoc_L (++)). destruct (hs ++ list_path i) as [|h r] eqn:E; [destruct hs; [congruence|discriminate]|].
      cbn [hashpathrun app] in *. rewrite foldl_app, Hroot. exact Hnow. }
  unfold msgl_hash_tree_get. rewrite (proj2 (Z.eqb_neq (i + 1) 0)), Hs, Em by lia. replace (i + 1 - 1) with i by lia.
  rewrite (list_first i k m Hi Hp). rewrite (u32_small (len l + 1)) by lia.
  unfold rdza. rewrite (u32_small (4 + 32 + (2 + 4 + 32) * len l)) by lia.
  replace (Z.to_nat (4 + 32 + (2 + 4 + 32) * len l)) with (36 + 38 * length l)%nat by lia. rewrite list_htot.
  rewrite (path_read_stored x); [|apply missing_ge|apply list_positions; lia| |].
  - rewrite <- (assoc_L (++)). fold (list_path i). rewrite Hroot, Eh, Hnow, !bool_decide_eq_true_2 by reflexivity. cbn [negb]. now rewrite <- (assoc_L (++)).
  - intros p Hp'. rewrite sighs_n in Hp'. split; [apply Z.ltb_lt; lia|]. unfold rda. rewrite u32_small by lia. rewrite <- list_stored by lia. f_equal. lia.
  - left. unfold rda. rewrite u32_small by lia. rewrite <- list_sigh by (rewrite sighs_n; lia). f_equal. rewrite sighs_n. lia.
Qed.
End ListPath.

(** * The whole proof *)

Section Whole.
Context `{Sha256}.
Abbreviation hash_t := (list Z).

Lemma number_msgs_at n l l' i k m :
  0 <= n -> n + len l < 2 ^ 32 -> number_msgs n l = Gives l' -> l !! i = Some (k, m) ->
  exists m', l' !! i = Some (k, m') /\ save_mnum (n + 1 + Z.of_nat i) m = Gives m'.
Proof.
  revert n l' i; induction l as [|[k0 m0] l IH]; intros n l' i Hn Hl E Hi; [discriminate|]. cbn [number_msgs length] in *.
  rewrite u32_small in E by lia. destruct (save_mnum (n + 1) m0) as [m1| |] eqn:Es; try discriminate.
  destruct (number_msgs (n + 1) l) as [l1| |] eqn:El; try discriminate. injection E as <-. destruct i as [|i].
  - injection Hi as <- <-. exists m1. split; [reflexivity|]. rewrite <- Es. f_equal. lia.
  - destruct (IH (n + 1) l1 i) as (m' & Hm & Hs); [lia|lia|exact El|exact Hi|]. exists m'. split; [exact Hm|]. rewrite <- Hs. f_equal. lia.
Qed.

Lemma tree_of_sighs l : foldl (fun t q => (update t q.2.(lm_sigh)).1) hashtree_init l = tree_of (sighs l).
Proof. unfold tree_of. generalize hashtree_init. induction l as [|q l IH]; intros t; [reflexivity|]. cbn. apply IH. Qed.

(** What [msgl_put] leaves. *)
Lemma msgl_put_result s map cmp old s' f l' s'' :
  0 < len (elems map) < 2 ^ 25 -> Forall (fun q => msg_ok q.2) (elems map) ->
  msgl_put s map cmp (Some old) = (Gives (s', f, l'), s'') ->
  let l := elems map in
  s'.(sv_msg) = len l /\ s'.(sv_msghash) = merkle_root (sighs l) /\ number_msgs 0 l = Gives l' /\
  exists rest, f = list_bytes (merkle_root (sighs l)) l (take (length l - 2) (stored (sighs l))) ++ rest.
Proof.
  intros Hl Ho E. cbv zeta. set (l := elems map) in *. unfold msgl_put in E. fold l in E. rewrite tree_of_sighs in E.
  pose proof (sighs_bound l Hl) as Hb. pose proof (sighs_hash l Ho) as Hh.
  pose proof (tree_root_merkle (sighs l) ltac:(apply length_lt_tree; lia) Hh) as Hr. unfold tree_root in Hr.
  pose proof (stored_count (sighs l) Hb Hh) as Hs. rewrite sighs_n in Hs. unfold stored in *.
  destruct (finish (tree_of (sighs l))) as [[t r] h] eqn:Ef. cbn [snd fst] in *. subst h.
  assert (Et : Z.to_nat (if (length (hashes t) =? 0)%nat then 0 else u32 (len (hashes t) - 1)) = (length l - 2)%nat).
  { destruct (Nat.eqb_spec (length (hashes t)) 0); [lia|]. rewrite u32_small by lia. lia. }
  cbv zeta in E. rewrite Et in E. destruct (match cmp with Some _ => _ | None => _ end); [discriminate|].
  destruct (number_msgs 0 l) as [l1| |] eqn:El; try discriminate. injection E as <- <- <- _. cbn [sv_msg sv_msghash].
  split; [apply u32_small; lia|]. split; [reflexivity|]. split; [reflexivity|].
  eexists. unfold pwrite. rewrite take_0. reflexivity.
Qed.

Lemma header_found headers s path :
  srv_wf s -> s.(sv_now) = path -> path <> 0 -> headers !! path = Some (head_data s) ->
  header_get headers (new_servers path) = Some (s <| sv_txs := 0 |> <| sv_nodes := [] |>).
Proof.
  intros Hw En Hp Hh. pose proof (data_read_head (new_servers path) s [] Hw) as Er. rewrite app_nil_r in Er.
  unfold header_get. change (sv_now (new_servers path)) with path. rewrite Hh. cbv beta iota. rewrite Er. cbv beta iota.
  change (sv_now (s <| sv_txs := sv_txs (new_servers path) |> <| sv_nodes := sv_nodes (new_servers path) |>)) with (sv_now s).
  rewrite En, Z.eqb_refl, (proj2 (Z.eqb_neq path 0) Hp). reflexivity.
Qed.

Lemma tx_leaves_at svid msid t txs i tx :
  0 <= t < 2 ^ 16 -> txs !! i = Some tx -> tx_leaves svid msid t txs !! i = Some (txs_hash svid msid (u16 (t + Z.of_nat i)) tx).
Proof.
  revert t i; induction txs as [|y txs IH]; intros t i Ht Hi; [discriminate|]. destruct i as [|i]; cbn [tx_leaves].
  - injection Hi as ->. replace (u16 (t + Z.of_nat 0)) with t by (unfold u16; rewrite Z.add_0_r; symmetry; now apply Z.mod_small). reflexivity.
  - change (tx_leaves svid msid (u16 (t + 1)) txs !! i = Some (txs_hash svid msid (u16 (t + Z.of_nat (S i))) tx)).
    rewrite IH by (try exact Hi; unfold u16; apply Z.mod_pos_bound; lia).
    replace (u16 (t + Z.of_nat (S i))) with (u16 (u16 (t + 1) + Z.of_nat i)) by (unfold u16; rewrite Zplus_mod_idemp_l; f_equal; lia). reflexivity.
Qed.

Lemma msg_path_hash svid msid data txs k :
  cut_into data txs -> path_ok (len txs + 1) -> 0 <= k < len txs + 1 -> Forall is_hash (msg_path svid msid data txs k).
Proof.
  intros Hc Hok Hk. pose proof (x_bound svid msid data txs Hc) as Hb. pose proof (leaves_n svid msid data txs) as Hn.
  pose proof (msg_leaves_hash svid msid data txs) as Hh. set (x := msg_leaves svid msid data txs) in *.
  unfold msg_path. fold x. apply Forall_app. split; [apply first_hashes_hash; [exact Hh|lia]|]. apply Forall_map.
  pose proof (stored_path x Hb Hh k (missing (len x)) zero_hash) as Hs. rewrite Hn in Hs. destruct (Hs Hk) as [_ Hp].
  { rewrite <- Hn. apply missing_gap; [exact Hb|rewrite Hn; exact Hok]. }
  eapply Forall_impl; [exact Hp|]. intros p [Hp0 Hps]. apply stored_at_hash; [exact Hb|exact Hh|apply missing_ge|exact Hp0|exact Hps].
Qed.

Lemma first_hashes_length x k : (length (first_hashes x k) <= 2)%nat.
Proof. unfold first_hashes. destruct (Z.odd k); [|destruct (_ =? _)]; cbn; lia. Qed.

Lemma paths_length svid msid data txs k l i h :
  (length (msg_path svid msid data txs k ++ list_path l i ++ [h]) <= 69)%nat.
Proof.
  unfold msg_path, list_path. rewrite !length_app, !length_map. cbn [length].
  match goal with |- context [hashpath ?a ?b] => pose proof (hashpath_length a b) end.
  pose proof (hashpath_length (i / 2) ((len l + 1) / 2)). pose proof (first_hashes_length (msg_leaves svid msid data txs) k).
  pose proof (first_hashes_length (sighs l) i). assert (Ht : forall q : list hash_t, (length (tail q) <= length q)%nat) by (intros [|? ?]; cbn; lia).
  specialize (Ht (first_hashes (sighs l) i)). lia.
Qed.

(** The client reads back the hashes sent. *)
Lemma read_hashes (d : list Z) (hs : list hash_t) :
  Forall is_hash hs -> map (fun i => rd (d ++ concat hs) (length d + 32 * i) 32) (seq 0 (length hs)) = hs.
Proof.
  intros Hh. apply list_eq. intros i. rewrite list_lookup_fmap. destruct (decide (i < length hs)%nat) as [Hi|Hi].
  - rewrite lookup_seq_lt by exact Hi. cbn [fmap option_fmap option_map]. rewrite rd_app_skip by lia.
    replace (length d + 32 * (0 + i) - length d)%nat with (32 * i + 0)%nat by lia.
    destruct (lookup_lt_is_Some_2 hs i Hi) as [h Hx]. rewrite <- (app_nil_r (concat hs)).
    rewrite (rd_chunk 32 hs [] i h), Hx; [|eapply Forall_impl; [exact Hh|]; intros c Hc; apply Hc|exact Hx|lia].
    pose proof (Forall_lookup_1 _ _ _ _ Hh Hx) as [Hl _]. f_equal. rewrite <- Hl. apply rd_full.
  - rewrite !lookup_ge_None_2; [reflexivity|lia|rewrite length_seq; lia].
Qed.

(** The files a node keeps of a block: its header, the list written by
    [msgl_put] and the file of the message, numbered by [msgl_put]. *)
Record on_disk (fs : files) (path : Z) (s : servers) (mp : gmap Z lmsg) (svid msid : Z) (data : list Z) (l : list (list Z * usertxs)) : Prop := {
  od_parsed : parsed svid msid data l;
  od_size : 0 < len (elems mp) < 2 ^ 25 /\ path_ok (len (elems mp)) /\ path_ok (len l + 1);
  od_ok : Forall (fun q => msg_ok q.2) (elems mp);
  od_inx : load_path fs svid msid = path;
  od_header : srv_wf s /\ s.(sv_now) = path /\ fs.(f_header) !! path = Some (head_data s) /\ exists s0, s = hashnow s0;
  od_files : exists s0 old s1 listf l' key m m' file i,
    msgl_put s0 mp None (Some old) = (Gives (s1, listf, l'), s1) /\ fs.(f_list) !! path = Some listf /\
    s.(sv_msg) = s1.(sv_msg) /\ s.(sv_msghash) = s1.(sv_msghash) /\
    elems mp !! i = Some (key, m) /\ l' !! i = Some (key, m') /\ fs.(f_msg) !! (path, svid, msid) = m'.(lm_file) /\
    hash_tree svid msid data = Gives (m.(lm_sigh), file) /\ m.(lm_file) = Some file /\ m.(lm_len) = len data /\
    m.(lm_type) = MSGTYPE_MSG /\ has_bits m.(lm_status) MSGSTAT_SAV = true /\ has_bits m.(lm_status) MSGSTAT_VAL = true /\
    m.(lm_svid) = svid /\ m.(lm_msid) = msid
}.

Lemma on_disk_path fs path s mp svid msid data l k piece :
  on_disk fs path s mp svid msid data l -> path <> 0 -> 0 <= k -> msg_pieces data (cut_txs l) !! Z.to_nat k = Some piece ->
  exists i mnum hs,
    hash_tree_get (fs.(f_msg) !! (path, svid, msid)) k = Gives (mnum, piece, msg_path svid msid data (cut_txs l) k) /\
    hs = msg_path svid msid data (cut_txs l) k ++ list_path (elems mp) i ++ [s.(sv_minhash)] /\
    msgl_hash_tree_get fs.(f_header) (new_servers path) (fs.(f_list) !! path) svid msid mnum (msg_path svid msid data (cut_txs l) k) = Gives hs /\
    hashpathrun zero_hash hs = s.(sv_nowhash) /\ Forall is_hash hs.
Proof.
  intros [Hpd (Hsz & Hok1 & Hok2) Hmo Hinx (Hwf & Hnow & Hhd & s00 & Es) Hfiles] Hpath Hk Hpc.
  destruct Hfiles as (s0 & old & s1 & listf & l' & key & m & m' & file & i & Eput & Elist & Emsg & Ehash & Hi & Hi' & Efile & Ht & Hmf & Hlen & Htype & Hsav & Hval & Esv & Ems).
  destruct (parsed_tree _ _ _ _ Hpd) as [Hc Htree]. rewrite Ht in Htree. injection Htree as Hsig ->. set (txs := cut_txs l) in *.
  assert (Hn : length txs = length l) by apply length_map.
  assert (Hb : 0 <= k < len txs + 1) by (apply lookup_lt_Some in Hpc; cbn [msg_pieces length] in Hpc; lia).
  assert (Hok2' : path_ok (len txs + 1)) by now rewrite Hn.
  destruct (msgl_put_result _ _ _ _ _ _ _ _ Hsz Hmo Eput) as (P1 & P2 & P3 & rest & ->).
  assert (Hil : (i < length (elems mp))%nat) by now apply lookup_lt_Some in Hi.
  destruct (number_msgs_at 0 (elems mp) l' i key m ltac:(lia) ltac:(lia) P3 Hi) as (m2 & Hm2 & Hsave). rewrite Hi' in Hm2. injection Hm2 as <-.
  assert (Em' : m'.(lm_file) = Some (msg_file svid msid data txs (Z.of_nat i + 1))).
  { unfold save_mnum in Hsave. rewrite Htype, Hsav, Hval, Hmf in Hsave.
    change (MSGTYPE_MSG =? MSGTYPE_MSG) with true in Hsave. cbn [negb] in Hsave. apply (f_equal (fun r => match r with Gives a => a | _ => m end)) in Hsave.
    assert (Hset : forall x, lm_file (m <| lm_file := x |>) = x) by reflexivity. rewrite <- Hsave, Hset. pose proof (pd_len _ _ _ _ Hpd). rewrite Hlen, u32_small by lia. replace (Z.to_nat (len data + 32)) with (length data + 32)%nat by lia.
    rewrite msg_file_mnum. do 2 f_equal. lia. }
  assert (Hhead : rdz data 0 4 / 2 ^ 8 = len data).
  { rewrite (pd_head _ _ _ _ Hpd), Z.mul_comm, Z.div_add by lia. reflexivity. }
  assert (Hroot : hashpathrun zero_hash (msg_path svid msid data txs k) = m.(lm_sigh)) by (rewrite Hsig; now apply msg_path_root).
  assert (Hne : msg_path svid msid data txs k <> []) by (intros E; pose proof (msg_path_first svid msid data txs k) as Hf; rewrite E in Hf; discriminate).
  assert (Hmin : is_hash s.(sv_minhash)) by (rewrite Es; apply addhash_hash).
  destruct (msgl_path (elems mp) rest Hsz Hmo Hok1 fs.(f_header) (new_servers path) (s <| sv_txs := 0 |> <| sv_nodes := [] |>) (Z.of_nat i) key m
    (msg_path svid msid data txs k)) as [Q1 Q2]; [now rewrite Nat2Z.id|lia|exact Hne|exact Hroot| |].
  { split; [now apply header_found|]. cbn. rewrite Emsg, Ehash. split; [exact P1|]. split; [exact P2|]. split; [apply Hmin|]. rewrite <- Ehash, Es. reflexivity. }
  change (sv_minhash (s <| sv_txs := 0 |> <| sv_nodes := [] |>)) with (sv_minhash s) in Q1, Q2.
  change (sv_nowhash (s <| sv_txs := 0 |> <| sv_nodes := [] |>)) with (sv_nowhash s) in Q2.
  exists (Z.of_nat i), (Z.of_nat i + 1), (msg_path svid msid data txs k ++ list_path (elems mp) (Z.of_nat i) ++ [s.(sv_minhash)]).
  rewrite Efile, Em', Elist. split; [apply hash_tree_get_file; try assumption; lia|]. split; [reflexivity|].
  rewrite Esv, Ems in Q1. split; [exact Q1|]. split; [exact Q2|].
  apply Forall_app. split; [now apply msg_path_hash|]. apply Forall_app. split; [apply list_path_hash; try assumption; lia|]. repeat constructor; apply Hmin.
Qed.

End Whole.

(** * The list read back *)

Section RoundTrip.
Context `{Sha256}.
Abbreviation hash_t := (list Z).

Definition listed (m : lmsg) : lmsg := list_msg m.(lm_svid) m.(lm_msid) m.(lm_sigh).
Definition listed_key (mysvid : Z) (m : lmsg) : Z := list_key mysvid m.(lm_svid) m.(lm_msid) m.(lm_sigh).

Lemma entry_fields m r : msg_ok m -> let d := entry_bytes m ++ r in
  rdz d 0 2 = m.(lm_svid) /\ rdz d 2 4 = m.(lm_msid) /\ rd d 6 32 = m.(lm_sigh) /\ drop (2+4+32) d = r.
Proof.
  intros ([Hl _] & Hs & Hm). cbv zeta. unfold entry_bytes. rewrite <- !(assoc_L (++)).
  split; [apply rdz_here; exact Hs|]. split; [rewrite rdz_skip by lia; cbn [Nat.sub]; apply rdz_here; exact Hm|]. split.
  - do 2 (rewrite rd_app_skip by (rewrite !length_le_bytes; lia)). rewrite !length_le_bytes. cbn [Nat.sub]. now apply rd_app_here.
  - rewrite !(assoc_L (++)). apply drop_app_length'. rewrite !length_app, !length_le_bytes, Hl. reflexivity.
Qed.

Lemma msgl_map_entries mysvid l r map :
  Forall (fun q => msg_ok q.2) l ->
  msgl_map (length l) (concat (List.map (fun q => entry_bytes q.2) l) ++ r) mysvid map =
    foldl (fun acc (q : Z * lmsg) => <[listed_key mysvid q.2 := listed q.2]> acc) map l.
Proof.
  intros Ho. revert map. induction Ho as [|q l Hq Ho IH]; intros map; [reflexivity|]. cbn [length List.map concat foldl msgl_map].
  rewrite <- (assoc_L (++)). destruct (entry_fields q.2 (concat (List.map (fun q => entry_bytes q.2) l) ++ r) Hq) as (-> & -> & -> & ->). apply IH.
Qed.

Lemma insert_fmap (g : lmsg -> lmsg) (mp : gmap Z lmsg) : foldl (fun acc q => <[q.1 := g q.2]> acc) ∅ (elems mp) = g <$> mp.
Proof.
  rewrite <- (insert_elems (g <$> mp)), elems_fmap. generalize (∅ : gmap Z lmsg). induction (elems mp) as [|q l IH]; intros acc; [reflexivity|]. apply IH.
Qed.

(** The list of messages [msgl_put] writes is the list [msgl_load] reads:
    the same identifiers with the same node, number and hash of each message. *)
Theorem msglist_roundtrip s mp cmp old s' f l' s'' mysvid :
  0 < len (elems mp) < 2 ^ 16 -> Forall (fun q => msg_ok q.2 /\ q.1 = listed_key mysvid q.2) (elems mp) ->
  msgl_put s mp cmp (Some old) = (Gives (s', f, l'), s'') ->
  msgl_load s' (Some f) mysvid ∅ = Gives (listed <$> mp).
Proof.
  intros Hl Hk E. assert (Ho : Forall (fun q => msg_ok q.2) (elems mp)) by (eapply Forall_impl; [exact Hk|]; intros q Hq; apply Hq).
  assert (Hl25 : 0 < len (elems mp) < 2 ^ 25) by lia. destruct (msgl_put_result _ _ _ _ _ _ _ _ Hl25 Ho E) as (P1 & P2 & _ & rest & ->). set (l := elems mp) in *.
  pose proof (list_root_length l Ho) as Hr. pose proof (entries_length l Ho) as He. unfold msgl_load, msgl_get. rewrite P1, P2.
  set (tail_ := le_bytes 4 (u32 (len (take (length l - 2) (stored (sighs l))))) ++ concat (take (length l - 2) (stored (sighs l))) ++ rest).
  assert (Ed : take (Z.to_nat (32 + len l * (2 + 4 + 32))) (drop 4 (list_bytes (merkle_root (sighs l)) l (take (length l - 2) (stored (sighs l))) ++ rest)) =
    merkle_root (sighs l) ++ concat (map (fun q => entry_bytes q.2) l)).
  { unfold list_bytes. rewrite <- !(assoc_L (++)). fold tail_. rewrite drop_app_length' by (symmetry; apply length_le_bytes).
    rewrite (assoc_L (++)). apply take_app_length'. rewrite length_app, Hr, He. lia. }
  rewrite Ed. rewrite length_app, Hr, He, take_app_length', drop_app_length' by (symmetry; exact Hr).
  rewrite (proj2 (Z.eqb_eq _ _)) by lia. rewrite bool_decide_eq_true_2 by reflexivity. cbn [negb].
  rewrite (proj2 (Z.ltb_lt (len l) (2 ^ 16))) by lia. rewrite Nat2Z.id. f_equal.
  rewrite <- (app_nil_r (concat _)), msgl_map_entries by exact Ho. rewrite <- (insert_fmap listed mp). fold l.
  clear -Hk. revert Hk. generalize (∅ : gmap Z lmsg). induction l as [|q l IH]; intros acc Hk; [reflexivity|].
  inversion Hk as [|? ? [_ Hq] Hk']; subst. cbn [foldl]. rewrite <- Hq. now apply IH.
Qed.
End RoundTrip.

(** * A stored block *)

Definition demo_path : Z := 0x5F000000.

(** The message of three transactions and another message of the block. *)
Definition demo_tree : list Z * list Z :=
  match hash_tree (H := quick_sha) 1 5 (blank_msg 3) with Gives r => r | _ => ([], []) end.
Definition demo_msg : lmsg :=
  {| lm_type := MSGTYPE_MSG; lm_status := Z.lor MSGSTAT_SAV MSGSTAT_VAL; lm_svid := 1; lm_msid := 5; lm_len := 90;
     lm_sigh := demo_tree.1; lm_file := Some demo_tree.2 |}.
Definition demo_msg2 : lmsg := list_msg 2 9 (replicate 32 7).
Definition demo_map : gmap Z lmsg := <[1 := demo_msg]> (<[2 := demo_msg2]> ∅).

Definition demo_put : servers * list Z * list (Z * lmsg) :=
  match msgl_put (H := quick_sha) demo_srv demo_map None (Some []) with (Gives r, _) => r | _ => (demo_srv, [], []) end.
Definition demo_numbered : lmsg := match demo_put.2 with q :: _ => q.2 | [] => demo_msg end.
Definition demo_head_srv : servers :=
  hashnow (H := quick_sha) (demo_put.1.1 <| sv_now := demo_path |>).
Definition demo_files : files :=
  {| f_inx := {[ 1 := le_bytes 4 0 ++ le_bytes 4 0 ++ le_bytes 4 0 ++ le_bytes 4 0 ++ le_bytes 4 0 ++ le_bytes 4 demo_path ]};
     f_msg := {[ (demo_path, 1, 5) := default [] demo_numbered.(lm_file) ]};
     f_header := {[ demo_path := head_data demo_head_srv ]};
     f_list := {[ demo_path := demo_put.1.2 ]} |}.

(** A decision of [msg_ok]. *)
Definition msg_okb (m : lmsg) : bool :=
  (length m.(lm_sigh) =? 32)%nat && forallb (fun b => (0 <=? b) && (b <? 256)) m.(lm_sigh) && (0 <=? m.(lm_svid)) && (m.(lm_svid) <? 2 ^ 16) &&
  (0 <=? m.(lm_msid)) && (m.(lm_msid) <? 2 ^ 32).

Lemma msgs_okb (l : list (Z * lmsg)) : forallb (fun q => msg_okb q.2) l = true -> Forall (fun q => msg_ok q.2) l.
Proof.
  induction l as [|q l IH]; cbn [forallb]; intros E; [constructor|]. apply andb_prop in E as [Eq El]. constructor; [|now apply IH].
  unfold msg_okb in Eq. rewrite !andb_true_iff in Eq. destruct Eq as (((((E1 & E2) & E3) & E4) & E5) & E6).
  apply Nat.eqb_eq in E1. split; [split; [exact E1|now apply bytes_check]|]. lia.
Qed.

Lemma demo_elems : elems demo_map = [(1, demo_msg); (2, demo_msg2)].
Proof. vm_compute. reflexivity. Qed.

Lemma demo_on_disk : on_disk (H := quick_sha) demo_files demo_path demo_head_srv demo_map 1 5 (blank_msg 3) (blank_cut 3).
Proof.
  split.
  - exact blank_parsed3.
  - rewrite demo_elems. cbn [length]. split; [lia|]. split; [right; lia|right; vm_compute; discriminate].
  - rewrite demo_elems. apply msgs_okb. vm_compute. reflexivity.
  - vm_compute. reflexivity.
  - split; [apply srv_wfb_ok; vm_compute; reflexivity|]. split; [vm_compute; reflexivity|]. split; [apply lookup_singleton_eq|].
    exists (demo_put.1.1 <| sv_now := demo_path |>). reflexivity.
  - exists demo_srv, [], demo_put.1.1, demo_put.1.2, demo_put.2, 1, demo_msg, demo_numbered, demo_tree.2, O.
    split; [vm_compute; reflexivity|]. split; [apply lookup_singleton_eq|]. split; [vm_compute; reflexivity|]. split; [vm_compute; reflexivity|].
    split; [rewrite demo_elems; reflexivity|]. split; [vm_compute; reflexivity|]. split; [vm_compute; reflexivity|].
    split; [vm_compute; reflexivity|]. repeat split; vm_compute; reflexivity.
Qed.


Definition demo_keyed : gmap Z lmsg := <[listed_key 1 demo_msg := demo_msg]> (<[listed_key 1 demo_msg2 := demo_msg2]> ∅).

Definition demo_put2 : servers * list Z * list (Z * lmsg) :=
  match msgl_put (H := quick_sha) demo_srv demo_keyed None (Some [1; 2; 3]) with (Gives r, _) => r | _ => (demo_srv, [], []) end.

Lemma demo_keyed_put : msgl_put (H := quick_sha) demo_srv demo_keyed None (Some [1; 2; 3]) = (Gives demo_put2, demo_put2.1.1).
Proof. vm_compute. reflexivity. Qed.

Lemma demo_keyed_elems : elems demo_keyed = [(listed_key 1 demo_msg, demo_msg); (listed_key 1 demo_msg2, demo_msg2)].
Proof. vm_compute. reflexivity. Qed.

Lemma msglist_roundtrip_witness : msgl_load demo_put2.1.1 (Some demo_put2.1.2) 1 ∅ = Gives (listed <$> demo_keyed).
Proof.
  apply (msglist_roundtrip (H := quick_sha) demo_srv demo_keyed None [1; 2; 3] demo_put2.1.1 demo_put2.1.2 demo_put2.2 demo_put2.1.1 1).
  - rewrite demo_keyed_elems. cbn [length]. lia.
  - rewrite demo_keyed_elems. pose proof (msgs_okb [(0, demo_msg); (0, demo_msg2)] eq_refl) as Ho.
    inversion Ho as [|? ? H1 Ho']; inversion Ho' as [|? ? H2 _]. apply List.Forall_cons; [split; [exact H1|reflexivity]|].
    apply List.Forall_cons; [split; [exact H2|reflexivity]|]. apply List.Forall_nil.
  - exact demo_keyed_put.
Defined.
