(* ===== verification/MsgFile.v ===== *)
(** Messages and their files ([common/message.hpp]): loading, saving, moving
    and setting messages aside, the index of blocks by message, and the undo
    file of a message. *)

From stdpp Require Import base gmap list.
From Stdlib Require Import ZArith Lia.
From S2P Require Import Prelude Params HashTree Usertxs Accounts Ledger Message MerklePath MsgTree.

(** * Data *)

(** The object of a message; [o_data] is all that is allocated, for a message of
    transactions the hash tree included. *)
Record mobj := {
  o_num : Z; o_svid : Z; o_msid : Z; o_now : Z; o_got : Z; o_path : Z; o_peer : Z; o_len : Z; o_data : option (list Z);
  o_status : Z; o_sigh : list Z; o_know : list Z; o_busy : gset Z; o_sent : gset Z
}.

(** [header_length] *)
Definition header_length : Z := 8.

(** [hash.dat[1]]. *)
Definition hashtype (m : mobj) : Z := Z.land (Z.shiftr m.(o_num) 8) 0xff.

(** The names [makefilename] makes: block, type, node and number of the message,
    and the hash of a bad one. *)
Abbreviation fname := (Z * Z * Z * Z * option (list Z))%type.
Definition makefilename (where_ : Z) (m : mobj) : fname :=
  (where_, hashtype m, m.(o_svid), m.(o_msid), if has_bits m.(o_status) MSGSTAT_BAD then Some m.(o_sigh) else None).

(** Files of messages, undo files and the index files [inx/%04X.inx]. *)
Record disk := { d_msg : gmap fname (list Z); d_und : gmap fname (list Z); d_inx : gmap Z (list Z) }.

(** * Index of blocks *)

Definition write_inx (svid msid x : Z) (d : disk) : disk :=
  d <| d_inx ::= fun f => <[svid := pwrite (Z.to_nat (4 * msid)) (le_bytes 4 x) (default [] (f !! svid))]> f |>.
Definition save_path (m : mobj) (d : disk) : disk := if negb (hashtype m =? MSGTYPE_MSG) then d else write_inx m.(o_svid) m.(o_msid) m.(o_path) d.
Definition erase_path (m : mobj) (d : disk) : disk := if negb (hashtype m =? MSGTYPE_MSG) then d else write_inx m.(o_svid) m.(o_msid) 0 d.

(** A number that is not in the file leaves the path as it is. *)
Definition msg_load_path (m : mobj) (d : disk) : mobj :=
  if negb (m.(o_path) =? 0) then m
  else match d.(d_inx) !! m.(o_svid) with
  | None => m
  | Some f => if Nat.leb (Z.to_nat (4 * m.(o_msid)) + 4) (length f) then m <| o_path := rdz f (Z.to_nat (4 * m.(o_msid))) 4 |> else m
  end.

(** * Signatures as identifiers *)

Definition null_signature (m : mobj) : mobj := m <| o_sigh := replicate 32 0 |>.

(** [hash_signature]: the two halves of the signature; [None] is a failed
    assertion. *)
Definition hash_signature (m : mobj) : option mobj :=
  let* d := m.(o_data) in
  check negb (nthz d 0 =? MSGTYPE_MSG) in
  if nthz d 0 =? MSGTYPE_DBL then Some (null_signature m)
  else Some (m <| o_sigh := zip_with Z.lxor (rd d 4 32) (rd d 36 32) |>).

(** [sigh_check]: zero when the hash is right. *)
Definition sigh_check (m : mobj) : option bool :=
  let* d := m.(o_data) in
  if hashtype m =? MSGTYPE_MSG then
    check nthz d 0 =? MSGTYPE_MSG in Some (bool_decide (m.(o_sigh) = rd d (Z.to_nat m.(o_len)) 32))
  else Some (bool_decide (m.(o_sigh) = zip_with Z.lxor (rd d 4 32) (rd d 36 32))).

(** * Loading and saving *)

(** [load]: the result and the object; [None] is a failed assertion. *)
Definition load (who : Z) (m : mobj) (d : disk) : option (Z * mobj) :=
  let m := m <| o_busy ::= union {[who]} |> in
  if m.(o_path) =? 0 then Some (if bool_decide (m.(o_data) = None) then 0 else 1, m)
  else if negb (bool_decide (m.(o_data) = None)) && negb (m.(o_len) =? header_length) then Some (1, m)
  else match d.(d_msg) !! makefilename m.(o_path) m with
  | None => Some (0, m <| o_busy ::= fun b => b ∖ {[who]} |>)
  | Some f =>
      let m := m <| o_data := Some f |> in
      let* m := (if m.(o_len) =? header_length then
          let m := m <| o_len := Z.shiftr (rdz f 0 4) 8 |> in
          if hashtype m =? MSGTYPE_MSG then Some (m <| o_sigh := rd f (Z.to_nat m.(o_len)) 32 |>) else hash_signature m
        else Some m) in
      Some (Z.of_nat (length f), m <| o_status ::= fun s => Z.lor s (Z.lor MSGSTAT_DAT MSGSTAT_SAV) |>)
  end.

Definition unload (who : Z) (m : mobj) : mobj :=
  let idle := m <| o_busy ::= fun b => b ∖ {[who]} |> in
  if negb (Z.land m.(o_status) (Z.lor MSGSTAT_DAT MSGSTAT_SAV) =? Z.lor MSGSTAT_DAT MSGSTAT_SAV) then idle
  else if m.(o_path) =? 0 then idle
  else if bool_decide (idle.(o_busy) = ∅) && negb (m.(o_len) =? header_length) then idle <| o_data := None |>
  else idle.

(** [write] on a file that may exist: [O_CREAT] without [O_TRUNC]. *)
Definition write_over (data f : list Z) : list Z := pwrite 0 data f.

(** What [save] writes: all of the tree of a message of transactions, whose size
    is stored behind the hash and the number. *)
Definition saved_part (m : mobj) (data : list Z) : option (list Z) :=
  if hashtype m =? MSGTYPE_MSG then
    let total := rdz data (Z.to_nat (m.(o_len) + 32 + 4)) 4 in
    check negb (total =? 0) in Some (take (Z.to_nat total) data)
  else Some (take (Z.to_nat m.(o_len)) data).

(** [save]: [None] is a failed assertion. *)
Definition msg_save (m : mobj) (d : disk) : option (bool * mobj * disk) :=
  if negb (has_bits m.(o_status) MSGSTAT_DAT) then Some (false, m, d)
  else if m.(o_path) =? 0 then Some (false, m, d)
  else
    let* data := m.(o_data) in
    let name := makefilename m.(o_path) m in
    let* part := saved_part m data in
    let d := d <| d_msg ::= fun f => <[name := write_over part (default [] (f !! name))]> f |> in
    let d := if has_bits m.(o_status) MSGSTAT_BAD then d else save_path m d in
    Some (true, m <| o_status ::= fun s => Z.lor s MSGSTAT_SAV |>, d).

(** * Moving files *)

(** [rename]: [None] when there is no such file. *)
Definition rename_file (old new : fname) (f : gmap fname (list Z)) : option (gmap fname (list Z)) :=
  let* x := f !! old in Some (<[new := x]> (delete old f)).
Definition rename_any (old new : fname) (f : gmap fname (list Z)) : gmap fname (list Z) := default f (rename_file old new f).

(** [move]: [None] is the exit when the file of a saved message is missing. *)
Definition msg_move (nextpath : Z) (m : mobj) (d : disk) : option (mobj * disk) :=
  if (m.(o_path) =? 0) || (m.(o_path) =? nextpath) then Some (m, d)
  else
    let* d := (if has_bits m.(o_status) MSGSTAT_SAV then
        let old := makefilename m.(o_path) m in
        let new := makefilename nextpath m in
        let* f := rename_file old new d.(d_msg) in
        Some (d <| d_und ::= rename_any old new |> <| d_msg := f |>)
      else Some d) in
    let m := m <| o_path := nextpath |> in
    Some (m, save_path m d).

(** The files of a message get the name of another object of it. *)
Definition retarget (old new : mobj) (d : disk) : bool * disk :=
  let o := makefilename old.(o_path) old in
  let n := makefilename new.(o_path) new in
  let und := rename_any o n (delete n d.(d_und)) in
  match rename_file o n (delete n d.(d_msg)) with
  | None => (false, d <| d_und := und |> <| d_msg ::= delete n |>)
  | Some f => (true, d <| d_und := und |> <| d_msg := f |>)
  end.

Definition msg_bad_insert (m : mobj) (d : disk) : option (bool * mobj * disk) :=
  check has_bits m.(o_status) MSGSTAT_SAV && negb (has_bits m.(o_status) MSGSTAT_BAD) in
  let m' := m <| o_status ::= fun s => Z.lor s MSGSTAT_BAD |> in
  let '(ok, d) := retarget m m' d in Some (ok, m', d).

Definition msg_bad_recover (m : mobj) (d : disk) : option (bool * mobj * disk) :=
  check has_bits m.(o_status) MSGSTAT_SAV && has_bits m.(o_status) MSGSTAT_BAD in
  let m' := m <| o_status ::= fun s => clear_bits s MSGSTAT_BAD |> in
  let '(ok, d) := retarget m m' d in Some (ok, m', d).

Definition remove_undo (m : mobj) (d : disk) : disk :=
  if (m.(o_path) =? 0) || negb (has_bits m.(o_status) MSGSTAT_SAV) then d else d <| d_und ::= delete (makefilename m.(o_path) m) |>.
Definition remove (m : mobj) (d : disk) : disk :=
  if (m.(o_path) =? 0) || negb (has_bits m.(o_status) MSGSTAT_SAV) then d else (remove_undo m d) <| d_msg ::= delete (makefilename m.(o_path) m) |>.

(** [update]: the data of [msg] for the object; [msg] gets the old data. *)
Definition msg_update (msg osg : mobj) : mobj * mobj :=
  let o := osg <| o_len := msg.(o_len) |> <| o_data := msg.(o_data) |> <| o_know ::= know_insert_ msg.(o_peer) |> <| o_sigh := msg.(o_sigh) |>
               <| o_peer := msg.(o_peer) |> <| o_now := msg.(o_now) |> <| o_got := msg.(o_got) |> in
  (msg <| o_len := osg.(o_len) |> <| o_data := osg.(o_data) |>,
   if header_length <? o.(o_len) then o <| o_status ::= fun s => Z.lor s MSGSTAT_DAT |> else o).

(** * Undo files *)

Definition user_record (u : user_t) : list Z := user_bytes u ++ le_bytes 32 u.(u_csum).

(** [read] of a [user_t]: [None] when the file ends before. *)
Definition read_user_t (f : list Z) : option (user_t * list Z) :=
  let* (msid, f) := fread_le 4 f in
  let* (time, f) := fread_le 4 f in
  let* (pkey, f) := fread 32 f in
  let* (hash, f) := fread 32 f in
  let* (lpath, f) := fread_le 4 f in
  let* (user, f) := fread_le 4 f in
  let* (node, f) := fread_le 2 f in
  let* (stat, f) := fread_le 2 f in
  let* (rpath, f) := fread_le 4 f in
  let* (weight, f) := fread_le 8 f in
  let* (csum, f) := fread_le 32 f in
  Some ({| u_msid := msid; u_time := time; u_pkey := pkey; u_hash := hash; u_lpath := lpath; u_user := user;
           u_node := node; u_stat := stat; u_rpath := rpath; u_weight := i64 weight; u_csum := csum |}, f).

(** The file [save_undo] writes. *)
Definition undo_file (mu : msg_undo) : list Z :=
  le_bytes 32 mu.(mu_csum) ++ le_bytes 8 mu.(mu_weight) ++ le_bytes 8 mu.(mu_fee) ++ mu.(mu_msha) ++ le_bytes 4 mu.(mu_mtim) ++
  concat (map (fun q => le_bytes 4 q.1 ++ user_record q.2) (elems mu.(mu_undo))) ++ le_bytes 4 mu.(mu_users).
Definition msg_save_undo (m : mobj) (mu : msg_undo) (d : disk) : disk := d <| d_und ::= <[makefilename m.(o_path) m := undo_file mu]> |>.

(** The loop of [load_undo]: the accounts and the number read last. *)
Fixpoint undo_entries (fuel : nat) (f : list Z) (undo : gmap Z user_t) : gmap Z user_t * Z :=
  match fuel with
  | O => (undo, 0)
  | S fuel =>
      match fread_le 4 f with
      | None => (undo, 0)
      | Some (i, f) =>
          match read_user_t f with
          | None => (undo, i)
          | Some (u, f) => undo_entries fuel f (<[i := u]> undo)
          end
      end
  end.

(** [load_undo]: [None] is the exit when there is no file. *)
Definition msg_load_undo (m : mobj) (d : disk) : option msg_undo :=
  let* f := d.(d_und) !! makefilename m.(o_path) m in
  let '(undo, users) := undo_entries (S (length f)) (drop (32 + 8 + 8 + 32 + 4) f) ∅ in
  Some {| mu_undo := undo; mu_users := users; mu_csum := rdz f 0 32; mu_weight := i64 (rdz f 32 8); mu_fee := i64 (rdz f 40 8);
          mu_msha := rd f 48 32; mu_mtim := rdz f 80 4 |}.
