(* ===== verification/MsgFileProps.v ===== *)
(** Files of messages: undo files are read back as written, a message is loaded
    as it was saved, and setting a message aside and recovering it restores
    its files. *)

From stdpp Require Import base gmap list.
From Stdlib Require Import ZArith Lia.
From S2P Require Import Prelude Params HashTree Usertxs Accounts Ledger Demo Message MerklePath MsgTree MsgFile.

(** * Undo files *)

Definition user_fits (u : user_t) : Prop :=
  0 <= u.(u_msid) < 2 ^ 32 /\ 0 <= u.(u_time) < 2 ^ 32 /\ length u.(u_pkey) = 32%nat /\ length u.(u_hash) = 32%nat /\ 0 <= u.(u_lpath) < 2 ^ 32 /\
  0 <= u.(u_user) < 2 ^ 32 /\ 0 <= u.(u_node) < 2 ^ 16 /\ 0 <= u.(u_stat) < 2 ^ 16 /\ 0 <= u.(u_rpath) < 2 ^ 32 /\
  - 2 ^ 63 <= u.(u_weight) < 2 ^ 63 /\ 0 <= u.(u_csum) < 2 ^ 256.

Record undo_fits (mu : msg_undo) : Prop := {
  uf_undo : map_Forall (fun i u => 0 <= i < 2 ^ 32 /\ user_fits u) mu.(mu_undo);
  uf_users : 0 <= mu.(mu_users) < 2 ^ 32;
  uf_csum : 0 <= mu.(mu_csum) < 2 ^ 256;
  uf_weight : - 2 ^ 63 <= mu.(mu_weight) < 2 ^ 63;
  uf_fee : - 2 ^ 63 <= mu.(mu_fee) < 2 ^ 63;
  uf_msha : length mu.(mu_msha) = 32%nat;
  uf_mtim : 0 <= mu.(mu_mtim) < 2 ^ 32
}.

Lemma read_user_record u f : user_fits u -> read_user_t (user_record u ++ f) = Some (u, f).
Proof.
  intros (H1 & H2 & H3 & H4 & H5 & H6 & H7 & H8 & H9 & H10 & H11). unfold user_record, user_bytes, read_user_t. fread_fields.
  destruct (fread_i64_app u.(u_weight) (le_bytes 32 u.(u_csum) ++ f) H10) as (y & -> & Hy).
  rewrite fread_le_app by (change (256 ^ Z.of_nat 32) with (2 ^ 256); lia). rewrite Hy. now destruct u.
Qed.

Lemma user_record_length u : user_fits u -> length (user_record u) = 128%nat.
Proof. intros (_ & _ & H3 & H4 & _). unfold user_record, user_bytes. rewrite !length_app, !length_le_bytes, H3, H4. reflexivity. Qed.

Lemma undo_entries_read l users fuel undo : Forall (fun q => 0 <= q.1 < 2 ^ 32 /\ user_fits q.2) l -> 0 <= users < 2 ^ 32 -> (length l < fuel)%nat ->
  undo_entries fuel (concat (map (fun q => le_bytes 4 q.1 ++ user_record q.2) l) ++ le_bytes 4 users) undo =
    (foldl (fun st q => <[q.1 := q.2]> st) undo l, users).
Proof.
  intros Hl Hu. revert fuel undo. induction Hl as [|[i u] l [Hi Hf] Hl IH]; intros fuel undo Hfuel; (destruct fuel as [|fuel]; [cbn in Hfuel; lia|]).
  - cbn [map concat app undo_entries foldl]. rewrite <- (app_nil_r (le_bytes 4 users)), fread_le_app by (change (256 ^ Z.of_nat 4) with (2 ^ 32); lia). reflexivity.
  - cbn [map concat undo_entries foldl fst snd] in *. rewrite <- !(assoc_L (++)), fread_le_app by (change (256 ^ Z.of_nat 4) with (2 ^ 32); lia).
    rewrite read_user_record by exact Hf. apply IH. cbn in Hfuel. lia.
Qed.

Lemma rd_hash_skip h l off n : length h = 32%nat -> (32 <= off)%nat -> rdz (h ++ l) off n = rdz l (off - 32) n.
Proof. intros Hh Ho. unfold rdz. now rewrite rd_app_skip, Hh by lia. Qed.

(** The undo file of a message is read back as written: the accounts before
    the message, their number, and the totals of the bank. *)
Theorem undo_file_roundtrip m mu d : undo_fits mu -> msg_load_undo m (msg_save_undo m mu d) = Some mu.
Proof.
  intros [Hu Hn Hc Hw Hf Hm Ht]. unfold msg_load_undo.
  assert (El : d_und (msg_save_undo m mu d) !! makefilename m.(o_path) m = Some (undo_file mu)) by apply lookup_insert_eq. rewrite El. clear El.
  set (ents := concat (map (fun q => le_bytes 4 q.1 ++ user_record q.2) (elems mu.(mu_undo))) ++ le_bytes 4 mu.(mu_users)).
  assert (Ef : undo_file mu = le_bytes 32 mu.(mu_csum) ++ le_bytes 8 mu.(mu_weight) ++ le_bytes 8 mu.(mu_fee) ++ mu.(mu_msha) ++ le_bytes 4 mu.(mu_mtim) ++ ents) by reflexivity.
  rewrite Ef. assert (Hl : Forall (fun q => 0 <= q.1 < 2 ^ 32 /\ user_fits q.2) (elems mu.(mu_undo))).
  { apply Forall_forall. intros [i u] Hi. apply elem_of_elems in Hi. exact (Hu i u Hi). }
  assert (Hlen : (length (elems mu.(mu_undo)) <= length ents)%nat).
  { unfold ents. rewrite length_app. clear. induction (elems mu.(mu_undo)) as [|q l IH]; [cbn; lia|]. cbn [map concat length]. rewrite !length_app, !length_le_bytes in *. lia. }
  match goal with |- context [undo_entries (S ?n)] => set (fuel := n) end.
  assert (Hfuel : (length (elems mu.(mu_undo)) < S fuel)%nat) by (unfold fuel; rewrite !length_app; lia). clearbody fuel.
  assert (Ed : drop (32 + 8 + 8 + 32 + 4) (le_bytes 32 mu.(mu_csum) ++ le_bytes 8 mu.(mu_weight) ++ le_bytes 8 mu.(mu_fee) ++ mu.(mu_msha) ++ le_bytes 4 mu.(mu_mtim) ++ ents) = ents).
  { rewrite !(assoc_L (++)). apply drop_app_length'. rewrite !length_app, !length_le_bytes, Hm. reflexivity. }
  cbn [Nat.add] in Ed |- *. rewrite Ed. unfold ents at 1. rewrite undo_entries_read by assumption. rewrite insert_elems.
  rewrite (rdz_skip 32 _ _ 32), (rdz_skip 32 _ _ 40), (rdz_skip 32 _ _ 80) by lia. cbn [Nat.sub].
  rewrite (rdz_skip 8 _ _ 8), (rdz_skip 8 _ _ 48) by lia. cbn [Nat.sub]. rewrite (rdz_skip 8 _ _ 40) by lia. cbn [Nat.sub]. rewrite (rdz_here 32) by (change (256 ^ Z.of_nat 32) with (2 ^ 256); lia). rewrite !rdz_i64 by assumption.
  rewrite rd_hash_skip by (try exact Hm; lia). cbn [Nat.sub]. rewrite (rdz_here 4) by (change (256 ^ Z.of_nat 4) with (2 ^ 32); lia).
  do 3 (rewrite rd_app_skip by (rewrite !length_le_bytes; lia)). rewrite !length_le_bytes. cbn [Nat.sub]. rewrite rd_app_here by exact Hm. now destruct mu.
Qed.

(** * Saving and loading *)

Lemma write_over_short data old : (length old <= length data)%nat -> write_over data old = data.
Proof. intros Hl. unfold write_over, pwrite. rewrite take_0, drop_ge, app_nil_r by lia. reflexivity. Qed.

Lemma pwrite_read off data f n : n = length data -> rd (pwrite off data f) off n = data /\ (off + n <= length (pwrite off data f))%nat.
Proof.
  intros ->. unfold pwrite. assert (El : length (take off (f ++ replicate (off - length f) 0)) = off) by (rewrite length_take, length_app, length_replicate; lia).
  split; [|rewrite !length_app, El; lia]. rewrite rd_app_skip, El, Nat.sub_diag by lia. now apply rd_app_here.
Qed.

Lemma nthz_rd l n : (0 < n)%nat -> nthz (rd l 0 n) 0 = nthz l 0.
Proof. intros Hn. destruct n as [|n]; [lia|]. unfold nthz, rd. now destruct l. Qed.

Lemma first_byte n l t : bytes l -> rdz l 0 4 = t + 2 ^ 8 * Z.of_nat n -> 0 <= t < 256 -> nthz l 0 = t.
Proof.
  intros Hb E Ht. unfold rdz, rd in E. destruct l as [|b l]; [cbn [drop app replicate take le_val] in E; cbn; lia|].
  cbn [drop app take le_val] in E. apply List.Forall_cons_iff in Hb as [Hb _]. unfold is_byte in Hb. cbn. lia.
Qed.

Section Files.
Context `{Sha256}.

(** The file of a message has the length it says. *)
Lemma msg_file_total svid msid data txs mnum : cut_into data txs -> 0 <= mnum < 2 ^ 32 ->
  let f := msg_file svid msid data txs mnum in
  rdz f (length data + 36) 4 = Z.of_nat (length f) /\ rd f (length data) 32 = merkle_root (msg_leaves svid msid data txs) /\ rdz f 0 4 = rdz data 0 4.
Proof.
  intros Hc Hm. cbv zeta. destruct (file_fields svid msid mnum data txs Hc Hm) as (_ & E & _). unfold rdza in E.
  replace (Z.to_nat (Z.of_nat (length data) + 32 + 4)) with (length data + 36)%nat in E by lia. split; [|split].
  - rewrite E. unfold msg_file, with_tree. pose proof (leaves_n svid msid data txs) as Hn. pose proof (n_bound data txs Hc) as Hb.
    pose proof (x_bound svid msid data txs Hc) as Hx.
    rewrite !length_app, (index_length svid msid data txs), (root_length svid msid data txs), !length_le_bytes.
    rewrite (length_concat_chunks 32); [|apply Forall_take; eapply Forall_impl; [apply stored_hash; [exact Hx|apply msg_leaves_hash]|]; intros h Hh; apply Hh].
    pose proof (stored_count _ Hx (msg_leaves_hash svid msid data txs)) as Hs. rewrite length_take. unfold msg_total. lia.
  - pose proof (file_sigh svid msid mnum data txs) as Es. unfold rda in Es. now rewrite Nat2Z.id in Es.
  - unfold rdz. rewrite (file_head svid msid mnum data txs); [reflexivity|]. pose proof (ci_len _ _ Hc). lia.
Qed.

(** A message of transactions in memory, ready to be saved. *)
Record ready (svid msid : Z) (data sigh file : list Z) (m : mobj) : Prop := {
  re_type : hashtype m = MSGTYPE_MSG; re_svid : m.(o_svid) = svid; re_msid : m.(o_msid) = msid; re_data : m.(o_data) = Some file;
  re_len : m.(o_len) = Z.of_nat (length data); re_sigh : m.(o_sigh) = sigh; re_dat : has_bits m.(o_status) MSGSTAT_DAT = true;
  re_bad : has_bits m.(o_status) MSGSTAT_BAD = false; re_path : 0 < m.(o_path) < 2 ^ 32
}.

(** An object that only names it. *)
Record names (svid msid : Z) (m : mobj) : Prop := {
  na_type : hashtype m = MSGTYPE_MSG; na_svid : m.(o_svid) = svid; na_msid : m.(o_msid) = msid; na_data : m.(o_data) = None;
  na_len : m.(o_len) = header_length; na_bad : has_bits m.(o_status) MSGSTAT_BAD = false; na_path : m.(o_path) = 0
}.

Lemma ready_name svid msid data sigh file m m2 : ready svid msid data sigh file m -> names svid msid m2 ->
  forall p b, makefilename p (m2 <| o_path := p |> <| o_busy := b |>) = makefilename p m.
Proof.
  intros [R1 R2 R3 _ _ _ _ R8 _] [N1 N2 N3 _ _ N6 _] p b.
  change (makefilename p (m2 <| o_path := p |> <| o_busy := b |>)) with (p, hashtype m2, m2.(o_svid), m2.(o_msid), if has_bits m2.(o_status) MSGSTAT_BAD then Some m2.(o_sigh) else None).
  unfold makefilename. now rewrite R1, R2, R3, R8, N1, N2, N3, N6.
Qed.

Lemma save_writes svid msid data l sigh file m d : parsed svid msid data l -> hash_tree svid msid data = Gives (sigh, file) -> ready svid msid data sigh file m ->
  (length (default [] (d.(d_msg) !! makefilename m.(o_path) m)) <= length file)%nat ->
  exists d', msg_save m d = Some (true, m <| o_status ::= fun s => Z.lor s MSGSTAT_SAV |>, d') /\ d'.(d_msg) !! makefilename m.(o_path) m = Some file /\
    d'.(d_inx) = <[svid := pwrite (Z.to_nat (4 * msid)) (le_bytes 4 m.(o_path)) (default [] (d.(d_inx) !! svid))]> d.(d_inx) /\
    rdz file 0 4 = MSGTYPE_MSG + 2 ^ 8 * Z.of_nat (length data) /\ rd file (length data) 32 = sigh /\ nthz file 0 = MSGTYPE_MSG.
Proof.
  intros Hp Ht R Hold. destruct (parsed_tree _ _ _ _ Hp) as [Hc Ht']. rewrite Ht in Ht'. injection Ht' as Es Ef.
  destruct (msg_file_total svid msid data (cut_txs l) 0 Hc ltac:(lia)) as (F1 & F2 & F3). rewrite <- Ef in F1, F2, F3. pose proof R as [R1 R2 R3 R4 R5 R6 R7 R8 R9].
  unfold msg_save. rewrite R7. cbn [negb]. rewrite (proj2 (Z.eqb_neq _ _)) by lia. rewrite R4. unfold saved_part. rewrite R1, R5. change (MSGTYPE_MSG =? MSGTYPE_MSG) with true. cbn [negb].
  replace (Z.to_nat (Z.of_nat (length data) + 32 + 4)) with (length data + 36)%nat by lia. rewrite F1, Nat2Z.id, take_ge by lia.
  pose proof (pd_len _ _ _ _ Hp) as Hl. assert (Hne : length file <> 0%nat).
  { intros E0. apply length_zero_iff_nil in E0. rewrite E0 in F3. pose proof (pd_head _ _ _ _ Hp) as Hh. rewrite <- F3 in Hh. change (rdz [] 0 4) with 0 in Hh. unfold MSGTYPE_MSG in Hh. lia. }
  rewrite (proj2 (Z.eqb_neq _ _)) by lia. cbn [negb]. rewrite R8. eexists. split; [reflexivity|].
  unfold save_path. rewrite R1. change (MSGTYPE_MSG =? MSGTYPE_MSG) with true. cbn [negb]. unfold write_inx. rewrite R2, R3.
  split; [|split; [reflexivity|split; [rewrite F3; apply (pd_head _ _ _ _ Hp)|split; [now rewrite F2, Es|]]]].
  - etransitivity; [apply lookup_insert_eq|]. f_equal. now apply write_over_short.
  - rewrite Ef, <- (nthz_rd _ 4), (file_head svid msid 0 data (cut_txs l)), nthz_rd by lia. apply (first_byte (length data)); [apply (pd_bytes _ _ _ _ Hp)|apply (pd_head _ _ _ _ Hp)|unfold MSGTYPE_MSG; lia].
Qed.

(** C40: a message of transactions that is saved, to a file that was not longer
    before, is found again: the index gives its block, and an object that only
    names it loads the same bytes, length and hash. *)
Theorem message_file_roundtrip who svid msid data l sigh file m m2 d : parsed svid msid data l -> hash_tree svid msid data = Gives (sigh, file) ->
  ready svid msid data sigh file m -> names svid msid m2 -> (length (default [] (d.(d_msg) !! makefilename m.(o_path) m)) <= length file)%nat ->
  exists m' d', msg_save m d = Some (true, m', d') /\ (msg_load_path m2 d').(o_path) = m.(o_path) /\
    exists m4, load who (msg_load_path m2 d') d' = Some (Z.of_nat (length file), m4) /\ m4.(o_data) = Some file /\
      m4.(o_len) = Z.of_nat (length data) /\ m4.(o_sigh) = sigh /\ sigh_check m4 = Some true.
Proof.
  intros Hp Ht R N Hold. destruct (save_writes _ _ _ _ _ _ _ _ Hp Ht R Hold) as (d' & E & Ef & Ei & Eh & Es & E0). eexists _, d'. split; [exact E|].
  pose proof R as [R1 R2 R3 R4 R5 R6 R7 R8 R9]. pose proof N as [N1 N2 N3 N4 N5 N6 N7].
  destruct (pwrite_read (Z.to_nat (4 * msid)) (le_bytes 4 m.(o_path)) (default [] (d.(d_inx) !! svid)) 4 eq_refl) as [W1 W2].
  assert (El : msg_load_path m2 d' = m2 <| o_path := m.(o_path) |>).
  { unfold msg_load_path. rewrite N7, N2, N3, Ei, lookup_insert_eq. cbn [negb Z.eqb]. rewrite (proj2 (Nat.leb_le _ _)) by exact W2. unfold rdz. rewrite W1.
    rewrite le_val_bytes_small by (change (256 ^ Z.of_nat 4) with (2 ^ 32); lia). reflexivity. }
  rewrite El. split; [reflexivity|]. unfold load. set (m3 := (m2 <| o_path := m.(o_path) |>) <| o_busy ::= union {[who]} |>).
  assert (Hm3 : o_path m3 = o_path m /\ o_data m3 = None /\ o_len m3 = header_length /\ hashtype m3 = MSGTYPE_MSG) by (split; [reflexivity|]; split; [exact N4|]; split; [exact N5|exact N1]).
  destruct Hm3 as (Q1 & Q2 & Q3 & Q4). rewrite Q1, Q2, (proj2 (Z.eqb_neq _ _)) by lia. rewrite bool_decide_eq_true_2 by reflexivity. cbn [negb andb].
  assert (Hname : makefilename (o_path m) m3 = makefilename (o_path m) m) by apply (ready_name _ _ _ _ _ _ _ R N). rewrite Hname, Ef.
  assert (Hlen : Z.shiftr (rdz file 0 4) 8 = Z.of_nat (length data)).
  { rewrite Eh, Z.shiftr_div_pow2 by lia. rewrite Z.mul_comm, Z.div_add by lia. reflexivity. }
  change (o_len (m3 <| o_data := Some file |>)) with (o_len m3). rewrite Q3, Z.eqb_refl, Hlen.
  change (hashtype (m3 <| o_data := Some file |> <| o_len := Z.of_nat (length data) |>)) with (hashtype m3). rewrite Q4. change (MSGTYPE_MSG =? MSGTYPE_MSG) with true.
  eexists. split; [reflexivity|]. cbn [o_len o_data]. split; [reflexivity|]. split; [reflexivity|].
  change (o_len (m3 <| o_data := Some file |> <| o_len := Z.of_nat (length data) |>)) with (Z.of_nat (length data)). rewrite Nat2Z.id, Es. split; [reflexivity|].
  unfold sigh_check. match goal with |- context [hashtype ?x] => change (hashtype x) with (hashtype m3) end. rewrite Q4. change (MSGTYPE_MSG =? MSGTYPE_MSG) with true.
  match goal with |- context [o_data ?x] => change (o_data x) with (Some file) end. cbv beta iota. rewrite E0. change (MSGTYPE_MSG =? MSGTYPE_MSG) with true.
  match goal with |- context [bool_decide (?a = rd file (Z.to_nat ?n) 32)] => change (bool_decide (a = rd file (Z.to_nat n) 32)) with (bool_decide (sigh = rd file (Z.to_nat (Z.of_nat (length data))) 32)) end.
  rewrite Nat2Z.id, Es. now rewrite bool_decide_eq_true_2.
Qed.
End Files.

(** * Moving messages *)

Lemma rename_back (a b : fname) (f : gmap fname (list Z)) x : a <> b -> f !! a = Some x -> f !! b = None ->
  rename_file a b f = Some (<[b := x]> (delete a f)) /\ rename_file b a (delete a (<[b := x]> (delete a f))) = Some f.
Proof.
  intros Hab Ha Hb. unfold rename_file. rewrite Ha. split; [reflexivity|].
  rewrite lookup_delete_ne, lookup_insert_eq by exact Hab. f_equal. apply map_eq. intros k. destruct (decide (k = a)) as [->|Hka].
  - now rewrite lookup_insert_eq.
  - rewrite lookup_insert_ne by congruence. destruct (decide (k = b)) as [->|Hkb]; [now rewrite lookup_delete_eq|].
    now rewrite !lookup_delete_ne, lookup_insert_ne, lookup_delete_ne by congruence.
Qed.

Lemma rename_any_back (a b : fname) (f : gmap fname (list Z)) : a <> b -> f !! b = None -> rename_any b a (delete a (rename_any a b (delete b f))) = f.
Proof.
  intros Hab Hb. rewrite (delete_id f b) by exact Hb. unfold rename_any. destruct (f !! a) as [x|] eqn:Ha.
  - destruct (rename_back a b f x Hab Ha Hb) as [E1 E2]. rewrite E1. cbn [default from_option id]. now rewrite E2.
  - assert (E : rename_file a b f = None) by (unfold rename_file; now rewrite Ha). rewrite E. cbn [default from_option id]. rewrite (delete_id f a) by exact Ha.
    unfold rename_file. now rewrite Hb.
Qed.

Lemma set_bad m : has_bits (o_status (m <| o_status ::= fun s => Z.lor s MSGSTAT_BAD |>)) MSGSTAT_BAD = true.
Proof. exact (has_bits_set m.(o_status) MSGSTAT_BAD ltac:(discriminate)). Qed.

Lemma recovered m : has_bits m.(o_status) MSGSTAT_SAV = true -> has_bits m.(o_status) MSGSTAT_BAD = false ->
  let m1 := m <| o_status ::= fun s => Z.lor s MSGSTAT_BAD |> in
  has_bits m1.(o_status) MSGSTAT_SAV = true /\ has_bits m1.(o_status) MSGSTAT_BAD = true /\ (m1 <| o_status ::= fun s => clear_bits s MSGSTAT_BAD |>) = m.
Proof.
  intros Hs Hb m1. split; [|split; [apply set_bad|]].
  - etransitivity; [exact (has_bits_other m.(o_status) MSGSTAT_BAD MSGSTAT_SAV eq_refl)|exact Hs].
  - assert (E : clear_bits (Z.lor m.(o_status) MSGSTAT_BAD) MSGSTAT_BAD = m.(o_status)).
    { unfold clear_bits, has_bits in *. apply negb_false_iff, Z.eqb_eq in Hb. apply Z.bits_inj'. intros i Hi. rewrite Z.ldiff_spec, Z.lor_spec.
      pose proof (f_equal (fun z => Z.testbit z i) Hb) as Hi'. cbn beta in Hi'. rewrite Z.land_spec, Z.bits_0 in Hi'.
      destruct (Z.testbit m.(o_status) i), (Z.testbit MSGSTAT_BAD i); cbn in *; congruence. }
    transitivity (m <| o_status := clear_bits (Z.lor m.(o_status) MSGSTAT_BAD) MSGSTAT_BAD |>); [reflexivity|]. rewrite E. now destruct m.
Qed.

(** A saved message that is set aside as bad and recovered has its files,
    its name and its state back. *)
Theorem bad_roundtrip m d x : has_bits m.(o_status) MSGSTAT_SAV = true -> has_bits m.(o_status) MSGSTAT_BAD = false ->
  forall bad, bad = makefilename m.(o_path) (m <| o_status ::= fun s => Z.lor s MSGSTAT_BAD |>) ->
  d.(d_msg) !! makefilename m.(o_path) m = Some x -> d.(d_msg) !! bad = None -> d.(d_und) !! bad = None ->
  exists m1 d1, msg_bad_insert m d = Some (true, m1, d1) /\ d1.(d_msg) !! bad = Some x /\ d1.(d_msg) !! makefilename m.(o_path) m = None /\
    msg_bad_recover m1 d1 = Some (true, m, d).
Proof.
  intros Hs Hb bad Hbad Hx Hn Hu. unfold msg_bad_insert. rewrite Hs, Hb. cbn [andb negb].
  set (m1 := m <| o_status ::= fun s => Z.lor s MSGSTAT_BAD |>) in *. set (good := makefilename m.(o_path) m) in *.
  assert (Hgb : good <> bad) by (rewrite Hbad; unfold good, makefilename; fold m1; rewrite Hb, (set_bad m : has_bits (o_status m1) MSGSTAT_BAD = true); discriminate).
  destruct (rename_back good bad _ x Hgb Hx Hn) as [E1 E2]. unfold retarget. fold good. change (makefilename (o_path m1) m1) with (makefilename (o_path m) m1). rewrite <- Hbad.
  rewrite (delete_id d.(d_msg) bad), E1 by exact Hn. exists m1. eexists. split; [reflexivity|]. split; [apply lookup_insert_eq|].
  split; [etransitivity; [apply lookup_insert_ne; congruence|apply lookup_delete_eq]|].
  unfold msg_bad_recover. destruct (recovered m Hs Hb) as (F1 & F2 & F3). fold m1 in F1, F2, F3. rewrite F1, F2, F3. cbn [andb]. unfold retarget. fold good.
  change (makefilename (o_path m1) m1) with (makefilename (o_path m) m1). rewrite <- Hbad.
  match goal with |- context [rename_file bad good (delete good (d_msg ?y))] => change (d_msg y) with (<[bad := x]> (delete good d.(d_msg))) end. rewrite E2.
  match goal with |- context [rename_any bad good (delete good (d_und ?y))] => change (d_und y) with (rename_any good bad (delete bad d.(d_und))) end.
  rewrite rename_any_back by assumption. do 2 f_equal. now destruct d.
Qed.

(** * Examples *)

Definition demo_mobj : mobj :=
  {| o_num := MSGTYPE_MSG * 2 ^ 8; o_svid := 1; o_msid := 5; o_now := 1000; o_got := 0; o_path := 4096; o_peer := 1; o_len := 90; o_data := None;
     o_status := MSGSTAT_DAT; o_sigh := []; o_know := []; o_busy := ∅; o_sent := ∅ |}.

Definition demo_user_u : user_t :=
  {| u_msid := 3; u_time := 1000; u_pkey := replicate 32 9; u_hash := replicate 32 8; u_lpath := 900; u_user := 0; u_node := 1; u_stat := 0; u_rpath := 800;
     u_weight := - 7; u_csum := 2 ^ 200 + 1 |}.

Definition demo_mundo : msg_undo :=
  {| mu_undo := <[0 := demo_user_u]> (<[7 := demo_user_u]> ∅); mu_users := 8; mu_csum := 2 ^ 255; mu_weight := 100; mu_fee := - 1; mu_msha := replicate 32 1; mu_mtim := 990 |}.

Lemma undo_file_roundtrip_witness : msg_load_undo demo_mobj (msg_save_undo demo_mobj demo_mundo {| d_msg := ∅; d_und := ∅; d_inx := ∅ |}) = Some demo_mundo.
Proof.
  apply undo_file_roundtrip. assert (Hu : user_fits demo_user_u) by (unfold user_fits; cbn [demo_user_u u_msid u_time u_pkey u_hash u_lpath u_user u_node u_stat u_rpath u_weight u_csum]; rewrite !length_replicate; lia).
  split; try (cbn [demo_mundo mu_users mu_csum mu_weight mu_fee mu_msha mu_mtim]; rewrite ?length_replicate; lia).
  unfold demo_mundo; cbn [mu_undo]. apply map_Forall_insert_2; [split; [lia|exact Hu]|]. apply map_Forall_insert_2; [split; [lia|exact Hu]|]. apply map_Forall_empty.
Defined.

Definition demo_tree : list Z * list Z := match hash_tree (H := quick_sha) 1 5 (blank_msg 3) with Gives r => r | _ => ([], []) end.
Definition demo_ready : mobj := demo_mobj <| o_data := Some demo_tree.2 |> <| o_sigh := demo_tree.1 |>.
Definition demo_names : mobj := demo_mobj <| o_path := 0 |> <| o_len := header_length |> <| o_status := 0 |>.

Lemma message_file_roundtrip_witness :
  exists m' d', msg_save demo_ready {| d_msg := ∅; d_und := ∅; d_inx := ∅ |} = Some (true, m', d') /\ (msg_load_path demo_names d').(o_path) = 4096 /\
    exists m4, load 2 (msg_load_path demo_names d') d' = Some (Z.of_nat (length demo_tree.2), m4) /\ m4.(o_data) = Some demo_tree.2 /\
      m4.(o_len) = Z.of_nat (length (blank_msg 3)) /\ m4.(o_sigh) = demo_tree.1 /\ sigh_check m4 = Some true.
Proof.
  apply (message_file_roundtrip (H := quick_sha) 2 1 5 (blank_msg 3) (blank_cut 3) demo_tree.1 demo_tree.2 demo_ready demo_names _ blank_parsed3).
  - vm_compute. reflexivity.
  - split; try reflexivity. split; reflexivity.
  - split; reflexivity.
  - vm_compute. lia.
Defined.

Definition demo_saved : mobj := demo_mobj <| o_status := Z.lor MSGSTAT_DAT MSGSTAT_SAV |> <| o_sigh := replicate 32 4 |>.
Definition demo_bad : fname := (4096, MSGTYPE_MSG, 1, 5, Some (replicate 32 4)).
Definition demo_disk : disk := {| d_msg := <[(4096, MSGTYPE_MSG, 1, 5, None) := [1; 2]]> ∅; d_und := <[(4096, MSGTYPE_MSG, 1, 5, None) := [3]]> ∅; d_inx := ∅ |}.

Lemma bad_roundtrip_witness :
  exists m1 d1, msg_bad_insert demo_saved demo_disk = Some (true, m1, d1) /\ d1.(d_msg) !! demo_bad = Some [1; 2] /\
    d1.(d_msg) !! makefilename 4096 demo_saved = None /\ msg_bad_recover m1 d1 = Some (true, demo_saved, demo_disk).
Proof. apply (bad_roundtrip demo_saved demo_disk [1; 2]); reflexivity. Defined.
