(* ===== verification/MsgHead.v ===== *)
(** Messages as they travel ([common/message.hpp]): how a node makes and signs a
    message, how a peer reads its header and checks its signature
    ([handle_read_body] of [escd/peer.hpp]), and proofs of double spends. *)

From stdpp Require Import base gmap list.
From Stdlib Require Import ZArith Lia.
From S2P Require Import Prelude Params HashTree Usertxs Accounts Servers Ledger Message MerklePath MsgTree MsgFile.

(** * Signatures *)

(** Ed25519: the signature of a message with a secret and a public key, and its
    check; a signature made with a pair of keys is accepted. *)
Class Ed25519 := {
  ed_public : list Z -> list Z;
  ed_sign : list Z -> list Z -> list Z -> list Z;
  ed_open : list Z -> list Z -> list Z -> bool;
  ed_sign_length m sk pk : length (ed_sign m sk pk) = 64%nat;
  ed_sign_bytes m sk pk : bytes (ed_sign m sk pk);
  ed_correct m sk : ed_open m (ed_public sk) (ed_sign m sk (ed_public sk)) = true
}.

(** * Data *)

Definition max_length : Z := 0xffffff.
Definition sizeof_header_t : Z := 180.
Definition sizeof_headlink_t : Z := 4 + 4 + 4 + 32 + 32 + 32.
Definition sizeof_handshake_t : Z := sizeof_header_t + 4 + 4 + 32.

(** The union [hash] from its first two bytes, number and node. *)
Definition hash_num (d0 d1 msid svid : Z) : Z := d0 + 2 ^ 8 * d1 + 2 ^ 16 * msid + 2 ^ 48 * svid.

(** [hashval]: [None] is a failed assertion. *)
Definition hashval (mysvid : Z) (m : mobj) : option Z :=
  check negb (bool_decide (m.(o_sigh) = replicate 32 0xff)) in Some (nthz m.(o_sigh) (Z.to_nat (mysvid mod 32))).

(** [dohash()] and [dohash(mysvid)]. *)
Definition dohash_dbl (m : mobj) : Z := hash_num 0 MSGTYPE_DBL m.(o_msid) m.(o_svid).
Definition dohash (mysvid : Z) (m : mobj) : option Z :=
  let* d := m.(o_data) in
  let* h := hashval mysvid m in
  Some (hash_num h (nthz d 0) m.(o_msid) m.(o_svid)).

(** [dohash(d)]: the type of the message a short message is about. *)
Definition wanted_type (t : Z) : Z :=
  if (t =? MSGTYPE_PUT) || (t =? MSGTYPE_GET) then MSGTYPE_MSG
  else if (t =? MSGTYPE_CNP) || (t =? MSGTYPE_CNG) then MSGTYPE_CND
  else if (t =? MSGTYPE_BLP) || (t =? MSGTYPE_BLG) then MSGTYPE_BLK
  else if t =? MSGTYPE_USG then MSGTYPE_USR
  else if (t =? MSGTYPE_DBP) || (t =? MSGTYPE_DBG) then MSGTYPE_DBL
  else t.
Definition dohash_head (d : list Z) (m : mobj) : Z := hash_num (nthz d 1) (wanted_type (nthz d 0)) m.(o_msid) m.(o_svid).

(** * Objects *)

(** [message()] whose eight bytes were read. *)
Definition message_read (d : list Z) : mobj :=
  {| o_num := 0; o_svid := 0; o_msid := 0; o_now := 0; o_got := 0; o_path := 0; o_peer := 0; o_len := header_length; o_data := Some d;
     o_status := 0; o_sigh := replicate 32 0; o_know := []; o_busy := ∅; o_sent := ∅ |}.

(** A message of a list, to be requested. *)
Definition message_wanted (svid msid : Z) (sigh : list Z) (mysvid mypath : Z) : option mobj :=
  let m := (message_read []) <| o_svid := svid |> <| o_msid := msid |> <| o_path := mypath |> <| o_sigh := sigh |> in
  if msid =? 0xffffffff then
    Some (m <| o_num := hash_num 0 MSGTYPE_DBL msid svid |> <| o_data := Some (MSGTYPE_DBG :: 0 :: le_bytes 4 msid ++ le_bytes 2 svid) |>)
  else
    let* h := hashval mysvid m in
    Some (m <| o_num := hash_num h MSGTYPE_MSG msid svid |> <| o_data := Some (MSGTYPE_GET :: h :: le_bytes 4 msid ++ le_bytes 2 svid) |>).

(** [message(l)]. *)
Definition message_len (l : Z) (d : list Z) : mobj := (message_read d) <| o_len := l |> <| o_status := MSGSTAT_DAT |>.

(** A message to be loaded. *)
Definition message_stored (type mpath msvid mmsid : Z) : mobj :=
  {| o_num := 2 ^ 8 * type; o_svid := msvid; o_msid := mmsid; o_now := 0; o_got := 0; o_path := mpath; o_peer := msvid; o_len := header_length; o_data := None;
     o_status := 0; o_sigh := replicate 32 0; o_know := []; o_busy := ∅; o_sent := ∅ |}.

(** * Making a message *)

Section Make.
Context `{Sha256} `{Ed25519}.

(** [insert_user]: the account is written into each [SAV] transaction;
    [get_user] is the lookup of an account at the time of the message, [Refuses]
    an account that does not exist, [Aborts] data that does not end with a transaction. *)
Fixpoint insert_user_loop (fuel : nat) (get_user : Z -> user_t) (data : list Z) (p : Z) : answer (list Z) :=
  if Z.of_nat (length data) <=? p then if p =? Z.of_nat (length data) then Gives data else Aborts
  else match fuel with
  | O => Aborts
  | S fuel =>
      let tx := drop (Z.to_nat p) data in
      match get_size tx with
      | None => Aborts
      | Some l =>
          if nthz tx 0 =? TXSTYPE_SAV then
            let u := get_user (rdz tx 3 4) in
            let data := wr data (Z.to_nat p + usr_off) (user_record u) in
            if u.(u_msid) =? 0 then Refuses else insert_user_loop fuel get_user data (p + l)
          else insert_user_loop fuel get_user data (p + l)
      end
  end.
Definition insert_user (get_user : Z -> user_t) (data : list Z) : answer (list Z) :=
  if Z.of_nat (length data) <=? data_offset then Aborts else insert_user_loop (length data) get_user data data_offset.

(** The end of the constructor for transactions, and of [signnewtime]: the hash
    tree and the signature of the hash of the last message and of this one. *)
Definition sign_txs (get_user : Z -> user_t) (sk pk msha data : list Z) (m : mobj) : option mobj :=
  match insert_user get_user data with
  | Gives data =>
      match hash_tree m.(o_svid) m.(o_msid) data with
      | Gives (sigh, file) => Some (m <| o_sigh := sigh |> <| o_data := Some (wr file 4 (ed_sign (msha ++ sigh) sk pk)) |>)
      | _ => None
      end
  | _ => None
  end.

(** The constructor of a message of this node at time [now]; [sk] is [None] for
    a block message from the network, whose signature is [pk]. *)
Definition message_made (get_user : Z -> user_t) (text_type : Z) (text : list Z) (mysvid mymsid now : Z) (sk : option (list Z)) (pk msha : list Z) : option mobj :=
  let len := data_offset + Z.of_nat (length text) in
  check len <=? max_length in
  check (text_type =? MSGTYPE_INI) || negb (mysvid =? 0) in
  let data := text_type :: le_bytes 3 len ++ replicate 64 0 ++ le_bytes 2 mysvid ++ le_bytes 4 mymsid ++ le_bytes 4 now ++ text in
  let m := {| o_num := 0; o_svid := mysvid; o_msid := mymsid; o_now := now; o_got := now; o_path := now - now mod BLOCKSEC; o_peer := mysvid; o_len := len;
              o_data := Some data; o_status := MSGSTAT_DAT; o_sigh := replicate 32 0; o_know := []; o_busy := ∅; o_sent := ∅ |} in
  let with_sig (sig : list Z) := hash_signature (m <| o_data := Some (wr data 4 sig) |>) in
  let* m := (
    if text_type =? MSGTYPE_BLK then
      match sk with None => with_sig pk | Some sk => with_sig (ed_sign (rda data (4+64+10) (Z.to_nat (sizeof_header_t - 4))) sk pk) end
    else let* sk := sk in
    if text_type =? MSGTYPE_CND then with_sig (ed_sign (rda data (4+64) (10+32)) sk pk)
    else if text_type =? MSGTYPE_INI then
      with_sig (if negb (mysvid =? 0) then ed_sign (rda data (4+64) (10 + length text)) sk pk else replicate 64 0)
    else check text_type =? MSGTYPE_MSG in sign_txs get_user sk pk msha data m) in
  let* h := dohash mysvid m in
  Some (m <| o_num := h |>).

(** [signnewtime]. *)
Definition signnewtime (get_user : Z -> user_t) (ntime : Z) (sk pk msha : list Z) (m : mobj) : option mobj :=
  let* d := m.(o_data) in
  check nthz d 0 =? MSGTYPE_MSG in
  let* m := sign_txs get_user sk pk msha (take (Z.to_nat m.(o_len)) (wr d (4+64+6) (le_bytes 4 ntime))) (m <| o_now := ntime |>) in
  let* h := dohash m.(o_svid) m in
  Some (m <| o_num := h |>).

(** * Reading a message *)

(** [realloc]; new bytes are not set, here zero. *)
Definition realloc (d : list Z) (n : Z) : list Z := take (Z.to_nat n) (d ++ replicate (Z.to_nat n - length d) 0).

(** [header] of a message: 0 is an error, 1 a short message, 2 one whose body follows;
    [None] is a failed assertion. *)
Definition msg_header (peer_svid time : Z) (m : mobj) : option (Z * mobj) :=
  check bool_decide (m.(o_know) = []) && bool_decide (m.(o_busy) = ∅) && bool_decide (m.(o_sent) = ∅) in
  let* d := m.(o_data) in
  let m := m <| o_got := time |> <| o_peer := peer_svid |> in
  let t := nthz d 0 in
  let sized (l : Z) (r : Z) := Some (r, m <| o_len := l |> <| o_data := Some (realloc d l) |>) in
  let short := Some (1, m <| o_svid := peer_svid |> <| o_len := header_length |>) in
  let l := rdz d 1 3 in
  if t =? MSGTYPE_INI then
    if negb (l =? 4+64+10 + sizeof_handshake_t) then Some (0, m <| o_len := l |>) else sized l 2
  else if bool_decide (t ∈ [MSGTYPE_PUT; MSGTYPE_GET; MSGTYPE_CNP; MSGTYPE_CNG; MSGTYPE_BLP; MSGTYPE_BLG; MSGTYPE_USG; MSGTYPE_DBP; MSGTYPE_DBG]) then
    let m := m <| o_msid := rdz d 2 4 |> <| o_svid := rdz d 6 2 |> in
    Some (1, m <| o_num := dohash_head d m |> <| o_len := header_length |>)
  else if bool_decide (t ∈ [MSGTYPE_MSG; MSGTYPE_DBL; MSGTYPE_CND; MSGTYPE_BLK]) then
    if ((t =? MSGTYPE_MSG) && (max_length <? l)) || ((t =? MSGTYPE_DBL) && (4 + 2 * max_length <? l)) || (l <=? 4+64+10) then Some (0, m <| o_len := l |>)
    else sized l 2
  else if t =? MSGTYPE_USR then
    let m := m <| o_msid := rdz d 4 2 |> <| o_len := l |> <| o_svid := rdz d 6 2 |> in
    if MESSAGE_CHUNK <? l then Some (0, m) else Some (2, m <| o_data := Some (realloc d (8 + l * sizeof_user_t)) |>)
  else if t =? MSGTYPE_STP then Some (2, m <| o_svid := peer_svid |> <| o_len := 32+1 |> <| o_data := Some (realloc d (32+1)) |>)
  else if bool_decide (t ∈ [MSGTYPE_SER; MSGTYPE_HEA; MSGTYPE_PAT; MSGTYPE_MSL]) then short
  else if t =? MSGTYPE_MSP then Some (1, m <| o_svid := peer_svid |> <| o_len := l |> <| o_data := Some (realloc d l) |>)
  else if t =? MSGTYPE_NHR then short
  else if t =? MSGTYPE_NHD then Some (1, m <| o_svid := peer_svid |> <| o_len := 32 + sizeof_headlink_t + 8 |> <| o_data := Some (realloc d (32 + sizeof_headlink_t + 8)) |>)
  else if t =? MSGTYPE_SOK then short
  else Some (0, m).

(** [read_head]: other types leave the object as it is. *)
Definition head_at (off : nat) (d : list Z) (m : mobj) : mobj := m <| o_svid := rdz d off 2 |> <| o_msid := rdz d (off + 2) 4 |> <| o_now := rdz d (off + 6) 4 |>.
Definition read_head (m : mobj) : option mobj :=
  let* d := m.(o_data) in
  let t := nthz d 0 in
  if bool_decide (t ∈ [MSGTYPE_MSG; MSGTYPE_INI; MSGTYPE_CND; MSGTYPE_DBL; MSGTYPE_BLK]) then Some (head_at (4+64) d m)
  else if t =? MSGTYPE_DBL then Some (head_at (4+32+4+64) d m)
  else Some m.

(** * Checking signatures *)

(** The bytes of the proof of a double spend, made of two messages. *)
Definition dbl_bytes (msha data1 data2 : list Z) : list Z :=
  MSGTYPE_DBL :: le_bytes 3 (4+32 + Z.of_nat (length data1) + Z.of_nat (length data2)) ++ msha ++ data1 ++ data2.

Definition open_ (m pk sig : list Z) : Z := if ed_open m pk sig then 0 else -1.

(** [check_signature] of a proof of a double spend, on its bytes. *)
Definition check_double (svpk : list Z) (len : Z) (d : list Z) : option Z :=
  let dblmsha := rd d 4 32 in
  let data1 := drop (4+32) d in
  let len1 := rdz data1 1 3 in
  if len <? 4+32 + len1 + 4 then Some (-1) else
  let data2 := drop (Z.to_nat len1) data1 in
  let len2 := rdz data2 1 3 in
  if negb (4+32 + len1 + len2 =? len) then Some (-1) else
  if negb (nthz data1 0 =? nthz data2 0) then Some (-1) else
  let svid1 := rdz data1 (4+64) 2 in let msid1 := rdz data1 (4+64+2) 4 in let now1 := rdz data1 (4+64+6) 4 in
  let svid2 := rdz data2 (4+64) 2 in let msid2 := rdz data2 (4+64+2) 4 in let now2 := rdz data2 (4+64+6) 4 in
  if negb (svid1 =? svid2) || negb (msid1 =? msid2) then Some (-1) else
  let sig1 := rd data1 4 64 in let sig2 := rd data2 4 64 in
  if bool_decide (sig1 = sig2) then Some (-1) else
  let both (off n : nat) := Z.lor (if ed_open (rd data1 off n) svpk sig1 then 0 else 1) (if ed_open (rd data2 off n) svpk sig2 then 0 else 1) in
  if (nthz data1 0 =? MSGTYPE_CND) || (nthz data1 0 =? MSGTYPE_BLK) then
    if negb (len1 =? len2) then Some (-1)
    else if nthz data1 0 =? MSGTYPE_CND then
      if negb (len1 =? 4+64+10+32) then Some (-1) else Some (both (4+64)%nat (10+32)%nat)
    else
      if negb (len1 =? 4+64+10 + sizeof_header_t - 4) then Some (-1) else
      let hpath1 := rdz data1 (4+64+10) 4 in let hpath2 := rdz data1 (4+64+10) 4 in
      if negb (hpath1 =? hpath2) then Some (-1)
      else if negb (hpath1 =? msid1) then Some (-1)
      else Some (both (4+64+10)%nat (Z.to_nat (sizeof_header_t - 4)))
  else if nthz data1 0 =? MSGTYPE_MSG then
    if (u32 (now2 + 3 * BLOCKSEC) <? now1) || (u32 (now1 + 3 * BLOCKSEC) <? now2) then Some (-1) else
    match hash_tree_fast (rd data1 0 (Z.to_nat len1)) svid1 msid1 with
    | Aborts => None
    | Refuses => Some (-1)
    | Gives sigh1 =>
        match hash_tree_fast (rd data2 0 (Z.to_nat len2)) svid2 msid2 with
        | Aborts => None
        | Refuses => Some (-1)
        | Gives sigh2 => Some (if ed_open (dblmsha ++ sigh1) svpk sig1 && ed_open (dblmsha ++ sigh2) svpk sig2 then 0 else 1)
        end
    end
  else Some (-1).

(** [check_signature]: zero when it is right; [None] is a failed assertion. *)
Definition check_signature (svpk : list Z) (mysvid : Z) (msha : list Z) (m : mobj) : option (Z * mobj) :=
  let* d := m.(o_data) in
  let m := m <| o_status ::= fun s => Z.lor s MSGSTAT_DAT |> in
  let t := nthz d 0 in
  if t =? MSGTYPE_MSG then
    let* h := dohash mysvid m in
    Some (open_ (msha ++ m.(o_sigh)) svpk (rd d 4 64), m <| o_num := h |>)
  else if bool_decide (t ∈ [MSGTYPE_INI; MSGTYPE_CND; MSGTYPE_BLK]) then
    let* h := dohash mysvid m in
    let m := m <| o_num := h |> in
    if t =? MSGTYPE_BLK then
      if negb (bool_decide (rd d (4+64+2) 4 = rd d (4+64+10) 4)) then Some (1, m)
      else Some (open_ (rd d (4+64+10) (Z.to_nat (sizeof_header_t - 4))) svpk (rd d 4 64), m)
    else if t =? MSGTYPE_CND then Some (open_ (rd d (4+64) (10+32)) svpk (rd d 4 64), m)
    else Some (open_ (rd d (4+64) (Z.to_nat (m.(o_len) - 4 - 64))) svpk (rd d 4 64), m)
  else if t =? MSGTYPE_DBL then
    let m := null_signature (m <| o_num := dohash_dbl m |>) in
    let* r := check_double svpk m.(o_len) d in Some (r, m)
  else Some (1, m).

(** The constructor of a recycled message. *)
Definition message_recycled (type mpath msvid mmsid : Z) (svpk msha : list Z) (d : disk) : option mobj :=
  let* (n, m) := load msvid (message_stored type mpath msvid mmsid) d in
  if n =? 0 then Some m else
  let* b := m.(o_data) in
  let now := rdz b (4+64+6) 4 in
  let m := m <| o_now := now |> <| o_got := now |> in
  check m.(o_len) <=? max_length in
  let* (r, m) := check_signature svpk msvid msha m in
  Some (if negb (r =? 0) then m <| o_status := 0 |> else m).

(** * The body of a message *)

(** What [handle_read_body] reads of the server: the node's number, options, the
    times and nodes of the open and of the last block, and the state and hash of known messages. *)
Record view := {
  v_svid : Z; v_mins : bool; v_do_sync : bool; v_now : Z; v_last_now : Z; v_nodes : list node; v_last : list node; v_message : Z -> Z -> option (Z * list Z)
}.

Definition nthn (l : list node) (i : Z) : node := l !!! Z.to_nat i.

(** What it does: end the connection, wait for the next header, keep a bad
    message, authenticate the peer, store a message; a vote is parsed first; a short
    message and some types have handlers of their own. *)
Inductive body_act :=
  | Leave
  | NextHeader
  | BadInsert (m : mobj)
  | Authenticate (m : mobj)
  | Insert (m : mobj)
  | Vote (m : mobj)
  | Other (m : mobj).

(** The hash of the message before, for a message of transactions; [None] is
    a message that is dropped. *)
Definition before_hash (v : view) (m : mobj) : option (list Z) :=
  let n := nthn v.(v_nodes) m.(o_svid) in
  let ln := nthn v.(v_last) m.(o_svid) in
  if m.(o_msid) <=? ln.(n_msid) then None
  else if n.(n_msid) =? u32 (m.(o_msid) - 1) then Some n.(n_msha)
  else match v.(v_message) m.(o_svid) (u32 (m.(o_msid) - 1)) with
  | Some (status, sigh) => if has_bits status (Z.lor MSGSTAT_DAT MSGSTAT_VAL) then Some sigh else if ln.(n_msid) =? u32 (m.(o_msid) - 1) then Some ln.(n_msha) else None
  | None => if ln.(n_msid) =? u32 (m.(o_msid) - 1) then Some ln.(n_msha) else None
  end.

(** The hash of a message that was read; [Refuses] is one that is dropped. *)
Definition body_hash (m : mobj) (d : list Z) : answer mobj :=
  if nthz d 0 =? MSGTYPE_MSG then
    match hash_tree m.(o_svid) m.(o_msid) (take (Z.to_nat m.(o_len)) d) with
    | Gives (sigh, file) => Gives (m <| o_sigh := sigh |> <| o_data := Some file |>)
    | Refuses => Refuses
    | Aborts => Aborts
    end
  else if (nthz d 0 =? MSGTYPE_INI) || (nthz d 0 =? MSGTYPE_CND) then match hash_signature m with Some m => Gives m | None => Aborts end
  else Gives m.

(** After the checks. *)
Definition accept_body (svid : Z) (m : mobj) : body_act :=
  if svid =? BANK_MAX then Authenticate m else if hashtype m =? MSGTYPE_CND then Vote m else Insert m.

(** [handle_read_body] of the peer [svid]; [None] is a failed assertion. *)
Definition handle_read_body (v : view) (svid : Z) (m : mobj) : option body_act :=
  let* d := m.(o_data) in
  check negb (nthz d 0 =? MSGTYPE_BLK) in
  let* m := read_head m in
  if (m.(o_svid) =? 0) && (svid =? BANK_MAX) then Some (Authenticate m)
  else if negb (v.(v_mins) || negb (svid =? BANK_MAX) || negb v.(v_do_sync)) then Some (accept_body svid m)
  else
    let fast := has_bits (nthn v.(v_nodes) 0).(n_status) SERVER_FST in
    if ((m.(o_svid) =? 0) || (Z.of_nat (length v.(v_nodes)) <=? m.(o_svid))) && negb fast then Some Leave else
    match (if nthz d 0 =? MSGTYPE_MSG then before_hash v m else Some (nthn v.(v_nodes) m.(o_svid)).(n_msha)) with
    | None => Some NextHeader
    | Some msha =>
        match body_hash m d with
        | Aborts => None
        | Refuses => Some NextHeader
        | Gives m =>
            if fast then Some (accept_body svid m) else
            let* (r, m) := check_signature (nthn v.(v_nodes) m.(o_svid)).(n_pk) v.(v_svid) msha m in
            if r =? 0 then Some (accept_body svid m)
            else if negb (nthz d 0 =? MSGTYPE_MSG) then Some Leave
            else if m.(o_msid) =? u32 ((nthn v.(v_last) m.(o_svid)).(n_msid) + 1) then Some Leave
            else Some (BadInsert (m <| o_status ::= fun s => Z.lor s MSGSTAT_SIG |>))
        end
    end.

(** [handle_read_block]; a message of a header only, which [header] refuses, is
    undefined ([None]): its header is written to memory that was given back. *)
Definition handle_read_block (v : view) (svid : Z) (m : mobj) : option body_act :=
  check negb (m.(o_len) =? 4+64+10) in
  let* m := hash_signature m in
  let* m := read_head m in
  if (m.(o_svid) =? 0) || (Z.of_nat (length v.(v_nodes)) <=? m.(o_svid)) then Some Leave else
  let n := nthn v.(v_nodes) m.(o_svid) in
  let* (r, m) := check_signature n.(n_pk) v.(v_svid) n.(n_msha) m in
  if negb (r =? 0) then Some Leave
  else if (negb (m.(o_msid) =? v.(v_last_now)) && negb (m.(o_msid) =? v.(v_now))) || (m.(o_now) <? m.(o_msid)) || (u32 (m.(o_msid) + 2 * BLOCKSEC) <=? m.(o_now)) then Some Leave
  else Some (Insert m).

(** A whole message from the connection: [handle_read_header] on its first
    eight bytes, then the handler of its body. *)
Definition receive (v : view) (svid time : Z) (bs : list Z) : option body_act :=
  let* (r, m) := msg_header svid time (message_read (take 8 bs)) in
  let* d := m.(o_data) in
  let t := nthz d 0 in
  if r =? 0 then Some Leave
  else if (svid =? BANK_MAX) && negb (t =? MSGTYPE_INI) then Some Leave
  else
    let m := m <| o_know ::= know_insert_ svid |> in
    if (m.(o_len) =? header_length) || bool_decide (t ∈ [MSGTYPE_USR; MSGTYPE_STP; MSGTYPE_MSP; MSGTYPE_NHD]) then Some (Other m)
    else
      let m := m <| o_data := Some (take 8 d ++ rd bs 8 (length d - 8)) |> in
      if t =? MSGTYPE_BLK then
        check (m.(o_len) =? 4+64+10 + sizeof_header_t) || (m.(o_len) =? 4+64+10) in handle_read_block v svid m
      else handle_read_body v svid m.
End Make.
