(* ===== verification/MsgHeadProps.v ===== *)
(** Messages between nodes: a message made by a node is accepted by its peers,
    the proof of a double spend is accepted and proves two messages, and its
    header is read from the wrong place. *)

From stdpp Require Import base gmap list.
From Stdlib Require Import ZArith Lia.
From S2P Require Import Prelude Params HashTree Usertxs Accounts Servers Ledger Demo Message MerklePath MsgTree MsgFile MsgFileProps MsgHead.

(** * The layout of a message *)

(** The bytes of a message with a signature. *)
Definition msg_bytes (sig : list Z) (svid msid now : Z) (text : list Z) : list Z :=
  MSGTYPE_MSG :: le_bytes 3 (data_offset + Z.of_nat (length text)) ++ sig ++ le_bytes 2 svid ++ le_bytes 4 msid ++ le_bytes 4 now ++ text.

(** Transactions that make a message. *)
Record fine (svid msid now : Z) (text : list Z) (l : list (list Z * usertxs)) : Prop := {
  fi_svid : 0 < svid < 2 ^ 16; fi_msid : 0 < msid < 2 ^ 32; fi_now : 0 <= now < 2 ^ 32; fi_bytes : bytes text; fi_len : 0 < Z.of_nat (length text) < 2 ^ 24 - 78;
  fi_cut : exists fuel, cut fuel text (Z.of_nat (length text)) = Some l; fi_count : u16 (1 + Z.of_nat (length l)) <> 0
}.

Section Layout.
Context (sig : list Z) (svid msid now : Z) (text : list Z) (l : list (list Z * usertxs)).
Context (Hsig : length sig = 64%nat) (Hb : bytes sig) (F : fine svid msid now text l).
Abbreviation data := (msg_bytes sig svid msid now text).

Lemma msg_bytes_length : length data = (78 + length text)%nat.
Proof. unfold msg_bytes. cbn [length]. rewrite !length_app, !length_le_bytes. lia. Qed.

Lemma msg_bytes_drop : drop 78 data = text.
Proof.
  unfold msg_bytes. rewrite app_comm_cons, !(assoc_L (++)). apply drop_app_length'. rewrite !length_app. cbn [length]. rewrite !length_le_bytes. lia.
Qed.

Lemma msg_bytes_sig : rd data 4 64 = sig.
Proof.
  unfold msg_bytes. rewrite app_comm_cons, rd_app_skip; cbn [length]; rewrite length_le_bytes; [|lia]. cbn [Nat.sub]. now apply rd_app_here.
Qed.

Lemma msg_bytes_head : rdz data 68 2 = svid /\ rdz data 70 4 = msid /\ rdz data 74 4 = now /\ rd data 68 10 = le_bytes 2 svid ++ le_bytes 4 msid ++ le_bytes 4 now.
Proof.
  assert (E : forall o k, (68 <= o)%nat -> rd data o k = rd (le_bytes 2 svid ++ le_bytes 4 msid ++ le_bytes 4 now ++ text) (o - 68) k).
  { intros o k Ho. unfold msg_bytes. rewrite app_comm_cons, (assoc_L (++)). assert (El : length ((MSGTYPE_MSG :: le_bytes 3 (data_offset + Z.of_nat (length text))) ++ sig) = 68%nat)
      by (cbn [length app]; rewrite length_app, length_le_bytes; lia). rewrite rd_app_skip, El; [reflexivity|lia]. }
  destruct F as [F1 F2 F3 _ _ _ _]. unfold rdz. rewrite !E by lia. cbn [Nat.sub]. change (le_val (rd ?b ?o ?k)) with (rdz b o k).
  rewrite (rdz_here 2) by (change (256 ^ Z.of_nat 2) with (2 ^ 16); lia). rewrite (rdz_skip 2 _ _ 2), (rdz_here 4) by (change (256 ^ Z.of_nat 4) with (2 ^ 32); lia).
  rewrite (rdz_skip 2 _ _ 6), (rdz_skip 4 _ _ 4), (rdz_here 4) by (change (256 ^ Z.of_nat 4) with (2 ^ 32); lia). repeat split.
Qed.

Lemma msg_bytes_size : rdz data 1 3 = 78 + Z.of_nat (length text) /\ rdz data 0 4 = MSGTYPE_MSG + 2 ^ 8 * Z.of_nat (length data).
Proof.
  assert (E : rdz data 1 3 = 78 + Z.of_nat (length text)).
  { unfold msg_bytes, rdz. change (MSGTYPE_MSG :: ?x) with ([MSGTYPE_MSG] ++ x). rewrite rd_app_skip by (cbn; lia). cbn [length Nat.sub].
    rewrite rd_app_here, le_val_bytes_small by (rewrite ?length_le_bytes; try reflexivity; change (256 ^ Z.of_nat 3) with (2 ^ 24); pose proof (fi_len _ _ _ _ _ F); unfold data_offset; lia).
    reflexivity. }
  split; [exact E|]. rewrite msg_bytes_length. assert (Ez : rdz data 0 4 = MSGTYPE_MSG + 256 * rdz data 1 3).
  { unfold rdz, rd. cbn [drop]. unfold msg_bytes. cbn [app drop take replicate le_val]. do 2 f_equal. }
  rewrite Ez, E. lia.
Qed.

Lemma msg_bytes_bytes : bytes data.
Proof.
  apply List.Forall_cons; [unfold is_byte, MSGTYPE_MSG; lia|]. repeat apply Forall_app_2; try apply bytes_le_bytes; [exact Hb|apply (fi_bytes _ _ _ _ _ F)].
Qed.

Lemma msg_bytes_parsed : parsed svid msid data l.
Proof.
  pose proof F as [F1 F2 F3 F4 F5 [fuel F6] F7]. split; [apply msg_bytes_bytes|rewrite msg_bytes_length; lia|apply msg_bytes_size|exact F1|exact F2| |exact F7].
  exists fuel. rewrite msg_bytes_drop, msg_bytes_length. replace (Z.of_nat (78 + length text) - 78) with (Z.of_nat (length text)) by lia. exact F6.
Qed.
End Layout.

(** * Making a message *)

Section Making.
Context `{Sha256} `{Ed25519}.

(** [parse] reads no byte behind the transaction. *)
Lemma parse_local p p' u : bytes p -> parse p = Some u -> take (Z.to_nat u.(size)) p' = take (Z.to_nat u.(size)) p ->
  (Z.to_nat u.(size) <= length p)%nat -> (Z.to_nat u.(size) <= length p')%nat -> parse p' = Some u.
Proof.
  intros Hb Hp Ht Hl Hl'. pose proof (parse_size p u Hb Hp) as Hs. pose proof (parse_type _ _ Hp) as [_ Hm]. pose proof (txs_type_bound p Hb) as Ht0.
  assert (R : forall o k, (o + k <= Z.to_nat u.(size))%nat -> rd p' o k = rd p o k).
  { intros o k Ho. rewrite <- (take_drop (Z.to_nat (size u)) p), <- (take_drop (Z.to_nat (size u)) p'), Ht.
    rewrite !rd_app_l by (rewrite length_take; lia). reflexivity. }
  clear Ht Hl Hl'. assert (R0 : forall o k, (o + k <= Z.to_nat u.(size))%nat -> rdz p' o k = rdz p o k) by (intros o k Ho; unfold rdz; now rewrite R).
  pose proof (R0 0 1 ltac:(lia))%nat as E0. change (txs_type p' = txs_type p) in E0.
  unfold parse in Hp |- *. rewrite E0. unfold TXSTYPE_MAX in *. pose proof (rdz_bound p 15 2 Hb) as Hbb.
  remember (txs_type p) as t eqn:E. clear E E0.
  type_cases t; subst t; cbn in Hp |- *; injection Hp as <-; cbn [size] in R, R0; unfold tlen, sizeof_user_t in R, R0;
    repeat match type of R with context [from_option id 0 ?x] => let y := eval vm_compute in (from_option id 0 x) in change (from_option id 0 x) with y in R, R0 end;
    try (rewrite !R0 by lia; rewrite ?R by lia; reflexivity).
  rewrite !R0 by (cbn [size] in Hs; lia). reflexivity.
Qed.

(** The account in a [SAV] transaction. *)
Definition fill_user (get_user : Z -> user_t) (tx : list Z) : list Z :=
  if nthz tx 0 =? TXSTYPE_SAV then wr tx usr_off (user_record (get_user (rdz tx 3 4))) else tx.

Lemma wr_skip a b o x : wr (a ++ b) (length a + o) x = a ++ wr b o x.
Proof.
  unfold wr. rewrite take_app_add, <- (assoc_L (++)). do 2 f_equal. rewrite <- Nat.add_assoc, drop_app_add. reflexivity.
Qed.

Lemma wr_inside a b o x : (o + length x <= length a)%nat -> wr (a ++ b) o x = wr a o x ++ b.
Proof. intros Ho. unfold wr. rewrite take_app_le, drop_app_le by lia. now rewrite <- !(assoc_L (++)). Qed.

(** Accounts whose record is 128 bytes. *)
Definition recordable (u : user_t) : Prop := length (user_record u) = 128%nat /\ bytes (user_record u).

Lemma cut_head fuel p left l : cut fuel p left = Some l -> 0 < left -> exists fuel' u rest, fuel = S fuel' /\ parse p = Some u /\
  cut fuel' (drop (Z.to_nat u.(size)) p) (left - u.(size)) = Some rest /\ l = (p, u) :: rest.
Proof.
  intros E Hl. destruct fuel as [|fuel]; cbn [cut] in E; rewrite (proj2 (Z.leb_gt _ _)) in E by exact Hl; [discriminate|].
  destruct (parse p) as [u|]; [|discriminate]. destruct (cut fuel _ _) as [rest|] eqn:Er; [|discriminate]. injection E as <-. now exists fuel, u, rest.
Qed.

Lemma cut_nonneg fuel p left l : cut fuel p left = Some l -> 0 <= left.
Proof. destruct fuel; cbn [cut]; (destruct (Z.leb_spec left 0); [|lia]); (destruct (Z.eqb_spec left 0); [lia|discriminate]). Qed.

(** The transaction at the front, with the account if it is a [SAV]. *)
Lemma fill_front get_user a b u : bytes a -> parse (a ++ b) = Some u -> length a = Z.to_nat u.(size) -> bytes b -> (forall i, recordable (get_user i)) ->
  let a' := fill_user get_user a in length a' = length a /\ bytes a' /\ forall c, parse (a' ++ c) = Some u.
Proof.
  intros Ha Hp Hl Hb Hr. assert (Hab : bytes (a ++ b)) by now apply Forall_app_2. pose proof (parse_size _ _ Hab Hp) as Hs. unfold fill_user.
  destruct (Z.eqb_spec (nthz a 0) TXSTYPE_SAV) as [Et|].
  2:{ split_and!; [reflexivity|exact Ha|]. intros c. apply (parse_local (a ++ b)); [exact Hab|exact Hp| |rewrite length_app; lia|rewrite length_app; lia].
      rewrite <- Hl. now rewrite !take_app_length. }
  destruct (Hr (rdz a 3 4)) as [Hl1 Hb1]. set (rec := user_record _) in *.
  assert (E0 : txs_type (a ++ b) = TXSTYPE_SAV).
  { unfold txs_type, rdz. rewrite rd_app_l by lia. destruct a as [|x a]; [cbn in Hl; lia|]. cbn in Et |- *. rewrite Et. reflexivity. }
  assert (Hsz : u.(size) = 207) by (unfold parse in Hp; rewrite E0 in Hp; cbn in Hp; injection Hp as <-; reflexivity).
  assert (Hla : length a = 207%nat) by (rewrite Hl, Hsz; reflexivity).
  assert (Ew : wr a usr_off rec = take 79 a ++ rec) by (unfold wr; rewrite Hl1, (drop_ge a) by (unfold usr_off; lia); now rewrite app_nil_r).
  rewrite Ew. split_and!.
  - rewrite length_app, length_take, Hl1. lia.
  - apply Forall_app_2; [now apply bytes_take|exact Hb1].
  - intros c. rewrite <- Hp. assert (R : forall o k, (o + k <= 15)%nat -> rd ((take 79 a ++ rec) ++ c) o k = rd (a ++ b) o k).
    { intros o k Ho. rewrite <- (assoc_L (++)), rd_app_l by (rewrite length_take; lia). rewrite <- (take_drop 79 a) at 2. rewrite <- (assoc_L (++)), rd_app_l by (rewrite length_take; lia). reflexivity. }
    unfold parse. assert (E1 : txs_type ((take 79 a ++ rec) ++ c) = TXSTYPE_SAV) by (rewrite <- E0; unfold txs_type, rdz; now rewrite R by lia).
    rewrite E0, E1. cbn. unfold rdz. now rewrite !R by lia.
Qed.

Lemma insert_user_cut fuel fuel' get_user data p l data' : bytes data -> 0 <= p -> (forall i, recordable (get_user i)) ->
  cut fuel' (drop (Z.to_nat p) data) (Z.of_nat (length data) - p) = Some l -> insert_user_loop fuel get_user data p = Gives data' ->
  bytes data' /\ length data' = length data /\ take (Z.to_nat p) data' = take (Z.to_nat p) data /\
  exists l', cut fuel' (drop (Z.to_nat p) data') (Z.of_nat (length data) - p) = Some l' /\ cut_txs l' = map (fill_user get_user) (cut_txs l).
Proof.
  intros Hb Hp Hr. revert fuel' p l data Hb Hp; induction fuel as [|fuel IH]; intros fuel' p l data Hb Hp Hc E; pose proof (cut_nonneg _ _ _ _ Hc) as Hn;
    cbn [insert_user_loop] in E; (destruct (Z.leb_spec (Z.of_nat (length data)) p) as [Hle|Hle]).
  1,3: destruct (_ =? _); [|discriminate]; injection E as <-; split_and!; auto; exists l; split; [exact Hc|];
    destruct fuel'; cbn [cut] in Hc; rewrite (proj2 (Z.leb_le _ _)) in Hc by lia; (destruct (_ =? 0); [|discriminate]); now injection Hc as <-.
  { discriminate. }
  destruct (cut_head _ _ _ _ Hc ltac:(lia)) as (f & u & rest & -> & Ep & Er & ->). set (q := drop (Z.to_nat p) data) in *.
  assert (Hq : bytes q) by now apply bytes_drop. pose proof (parse_size _ u Hq Ep) as Hs. rewrite (get_size_parse _ u Hq Ep) in E.
  pose proof (cut_nonneg _ _ _ _ Er) as Hin. assert (Lq : Z.of_nat (length q) = Z.of_nat (length data) - p) by (unfold q; rewrite length_drop; lia).
  set (n := Z.to_nat (size u)) in *. set (a := take n q). assert (La : length a = n) by (unfold a; rewrite length_take; lia).
  assert (Eq : q = a ++ drop n q) by (symmetry; apply take_drop).
  assert (Ed : data = take (Z.to_nat p) data ++ a ++ drop n q) by (rewrite <- Eq; symmetry; apply take_drop).
  destruct (fill_front get_user a (drop n q) u) as (La' & Ba' & Pa'); [now apply bytes_take|now rewrite <- Eq|exact La|now apply bytes_drop|exact Hr|].
  set (a' := fill_user get_user a) in *. set (d1 := take (Z.to_nat p) data ++ a' ++ drop n q).
  assert (Lt : length (take (Z.to_nat p) data) = Z.to_nat p) by (rewrite length_take; lia).
  assert (L1 : length d1 = length data) by (unfold d1; rewrite Ed at 2; rewrite !length_app; lia).
  assert (E1 : insert_user_loop fuel get_user d1 (p + size u) = Gives data').
  { assert (Hz : nthz q 0 = nthz a 0) by (unfold a, nthz; rewrite lookup_take_lt by lia; reflexivity). rewrite Hz in E. revert E. unfold d1, a', fill_user.
    destruct (nthz a 0 =? TXSTYPE_SAV) eqn:Et; [|now rewrite <- Ed].
    assert (Hsz : n = 207%nat).
    { unfold n. unfold parse in Ep. assert (Ety : txs_type q = TXSTYPE_SAV).
      { apply Z.eqb_eq in Et. unfold txs_type, rdz. rewrite Eq, rd_app_l by lia. destruct a as [|x a0]; [cbn in La; lia|]. cbn in Et |- *. now rewrite Et. }
      rewrite Ety in Ep. cbn in Ep. now injection Ep as <-. }
    assert (Ez : rdz q 3 4 = rdz a 3 4) by (unfold rdz; rewrite Eq, rd_app_l by lia; reflexivity).
    rewrite Ez. destruct (_ =? 0); [discriminate|]. intros E. rewrite <- E. f_equal.
    transitivity (wr (take (Z.to_nat p) data ++ a ++ drop n q) (length (take (Z.to_nat p) data) + usr_off) (user_record (get_user (rdz a 3 4)))); [|now rewrite Lt, <- Ed].
    rewrite wr_skip, wr_inside; [reflexivity|].
    destruct (Hr (rdz a 3 4)) as [-> _]. unfold usr_off. lia. }
  destruct (IH f (p + size u) rest d1) as (B2 & L2 & T2 & l2 & C2 & X2); [| lia | |exact E1|].
  - repeat apply Forall_app_2; [now apply bytes_take|exact Ba'|now apply bytes_drop].
  - rewrite L1. replace (Z.of_nat (length data) - (p + size u)) with (Z.of_nat (length data) - p - size u) by lia. rewrite <- Er. f_equal. unfold d1. rewrite (assoc_L (++)). apply drop_app_length'. rewrite length_app. lia.
  - rewrite L1 in L2, C2. assert (T3 : take (Z.to_nat (p + size u)) d1 = take (Z.to_nat p) data ++ a').
    { unfold d1. rewrite (assoc_L (++)). apply take_app_length'. rewrite length_app. lia. }
    assert (Ed' : data' = take (Z.to_nat p) data ++ a' ++ drop (Z.to_nat (p + size u)) data') by (rewrite (assoc_L (++)), <- T3, <- T2; symmetry; apply take_drop).
    set (r' := drop (Z.to_nat (p + size u)) data') in *. split_and!; [exact B2|exact L2|rewrite Ed'; now apply take_app_length'|].
    assert (Dq : drop (Z.to_nat p) data' = a' ++ r') by (rewrite Ed'; now apply drop_app_length').
    exists ((a' ++ r', u) :: l2). rewrite Dq. split.
    + cbn [cut]. rewrite (proj2 (Z.leb_gt _ _)) by lia. rewrite Pa'. cbn. fold n. rewrite drop_app_length' by lia.
      replace (Z.of_nat (length data) - p - size u) with (Z.of_nat (length data) - (p + size u)) by lia. now rewrite C2.
    + cbn [cut_txs map fst snd]. fold n. rewrite take_app_length' by lia. fold (cut_txs l2) (cut_txs rest). rewrite X2. reflexivity.
Qed.

(** The signature is not part of what is hashed. *)
Lemma hash_unsigned sig svid msid now text l : length sig = 64%nat -> bytes sig -> fine svid msid now text l ->
  exists sigh, hash_tree svid msid (msg_bytes (replicate 64 0) svid msid now text) = Gives (sigh, msg_file svid msid (msg_bytes (replicate 64 0) svid msid now text) (cut_txs l) 0) /\
    hash_tree svid msid (msg_bytes sig svid msid now text) = Gives (sigh, msg_file svid msid (msg_bytes sig svid msid now text) (cut_txs l) 0) /\
    wr (msg_file svid msid (msg_bytes (replicate 64 0) svid msid now text) (cut_txs l) 0) 4 sig = msg_file svid msid (msg_bytes sig svid msid now text) (cut_txs l) 0.
Proof.
  intros Hs Hb F. assert (Hz : bytes (replicate 64 0)) by (apply bytes_check; reflexivity).
  pose proof (msg_bytes_parsed _ _ _ _ _ _ (length_replicate _ _) Hz F) as P0. pose proof (msg_bytes_parsed _ _ _ _ _ _ Hs Hb F) as P1.
  destruct (parsed_tree _ _ _ _ P0) as [_ E0]. destruct (parsed_tree _ _ _ _ P1) as [_ E1].
  assert (El : msg_leaves svid msid (msg_bytes (replicate 64 0) svid msid now text) (cut_txs l) = msg_leaves svid msid (msg_bytes sig svid msid now text) (cut_txs l)).
  { unfold msg_leaves, rda. change (Z.to_nat (4 + 64)) with 68%nat. destruct (msg_bytes_head _ _ _ _ _ _ (length_replicate 64 0) F) as (_ & _ & _ & ->).
    destruct (msg_bytes_head _ _ _ _ _ _ Hs F) as (_ & _ & _ & ->). reflexivity. }
  eexists. split; [exact E0|]. split; [rewrite E1, El; reflexivity|]. unfold msg_file. rewrite El. unfold with_tree, msg_total. rewrite !msg_bytes_length by (exact Hs || apply length_replicate).
  unfold wr, msg_bytes. generalize (le_bytes 3 (data_offset + Z.of_nat (length text))) (length_le_bytes 3 (data_offset + Z.of_nat (length text))). intros b Hb3.
  rewrite !app_comm_cons, <- !(assoc_L (++)). assert (E4 : length (MSGTYPE_MSG :: b) = 4%nat) by (cbn [length]; lia).
  rewrite <- E4 at 1. rewrite take_app_length. f_equal. f_equal. rewrite (assoc_L (++) (MSGTYPE_MSG :: b)). apply drop_app_length'. rewrite length_app, length_replicate. lia.
Qed.

Lemma msg_file_first svid msid sig now text l : length sig = 64%nat -> nthz (msg_file svid msid (msg_bytes sig svid msid now text) (cut_txs l) 0) 0 = MSGTYPE_MSG.
Proof. intros Hs. reflexivity. Qed.

(** The message with the accounts in its [SAV] transactions. *)
Lemma inserted_users get_user text svid msid now l data : fine svid msid now text l -> (forall i, recordable (get_user i)) ->
  insert_user get_user (msg_bytes (replicate 64 0) svid msid now text) = Gives data ->
  exists text' l', data = msg_bytes (replicate 64 0) svid msid now text' /\ length text' = length text /\ fine svid msid now text' l' /\
    cut_txs l' = map (fill_user get_user) (cut_txs l).
Proof.
  intros F Hr E. assert (Hz : bytes (replicate 64 0)) by (apply bytes_check; reflexivity). pose proof (msg_bytes_length (replicate 64 0) svid msid now text (length_replicate _ _)) as L0.
  pose proof (msg_bytes_parsed _ _ _ _ _ _ (length_replicate 64 0) Hz F) as P0. pose proof (pd_len _ _ _ _ P0) as Hl. destruct (pd_cut _ _ _ _ P0) as [fuel Hc].
  unfold insert_user in E. rewrite (proj2 (Z.leb_gt _ _)) in E by (unfold data_offset; lia).
  destruct (insert_user_cut _ fuel get_user _ data_offset l data (pd_bytes _ _ _ _ P0) ltac:(unfold data_offset; lia) Hr Hc E) as (Hb & L & T & l' & C & X).
  change (Z.to_nat data_offset) with 78%nat in T, C. set (text' := drop 78 data) in *. assert (Lt : length text' = length text) by (unfold text'; rewrite length_drop; lia).
  assert (E0 : data = msg_bytes (replicate 64 0) svid msid now text').
  { rewrite <- (take_drop 78 data), T. fold text'. unfold msg_bytes. rewrite Lt, !app_comm_cons, !(assoc_L (++)).
    reflexivity. }
  exists text', l'. split_and!; [exact E0|exact Lt| |exact X]. destruct F as [F1 F2 F3 F4 F5 F6 F7].
  assert (Ll : length l' = length l) by (apply (f_equal length) in X; unfold cut_txs in X; now rewrite !length_map in X).
  split; try assumption; [now apply bytes_drop|now rewrite Lt| |now rewrite Ll].
  exists fuel. rewrite Lt. rewrite L0 in C. replace (Z.of_nat (length text)) with (Z.of_nat (78 + length text) - data_offset) by (unfold data_offset; lia). exact C.
Qed.

Lemma made_txs get_user text0 svid msid now sk pk msha l0 m : fine svid msid now text0 l0 -> (forall i, recordable (get_user i)) ->
  message_made get_user MSGTYPE_MSG text0 svid msid now (Some sk) pk msha = Some m ->
  exists text l sigh h, length text = length text0 /\ fine svid msid now text l /\ cut_txs l = map (fill_user get_user) (cut_txs l0) /\ let data := msg_bytes (ed_sign (msha ++ sigh) sk pk) svid msid now text in
    hash_tree svid msid data = Gives (sigh, msg_file svid msid data (cut_txs l) 0) /\ sigh <> replicate 32 0xff /\ h = nthz sigh (Z.to_nat (svid mod 32)) /\
    m = {| o_num := hash_num h MSGTYPE_MSG msid svid; o_svid := svid; o_msid := msid; o_now := now; o_got := now; o_path := now - now mod BLOCKSEC; o_peer := svid;
           o_len := data_offset + Z.of_nat (length text); o_data := Some (msg_file svid msid data (cut_txs l) 0); o_status := MSGSTAT_DAT; o_sigh := sigh;
           o_know := []; o_busy := ∅; o_sent := ∅ |}.
Proof.
  intros F0 Hs E. unfold message_made in E.
  destruct (_ <=? max_length); [|discriminate]. destruct (_ || _); [|discriminate]. change (MSGTYPE_MSG =? MSGTYPE_BLK) with false in E.
  change (MSGTYPE_MSG =? MSGTYPE_CND) with false in E. change (MSGTYPE_MSG =? MSGTYPE_INI) with false in E. change (MSGTYPE_MSG =? MSGTYPE_MSG) with true in E. cbv beta iota zeta in E.
  unfold sign_txs in E. fold (msg_bytes (replicate 64 0) svid msid now text0) in E.
  assert (Hz : bytes (replicate 64 0)) by (apply bytes_check; reflexivity).
  destruct (insert_user get_user _) as [data| |] eqn:Ei; [|discriminate..].
  destruct (inserted_users _ _ _ _ _ _ _ F0 Hs Ei) as (text & l & -> & Lt & F & X). exists text, l.
  cbn [o_svid o_msid] in E. destruct (hash_unsigned (replicate 64 0) svid msid now text l (length_replicate _ _) Hz F) as (sigh & E0 & _ & _). rewrite E0 in E.
  set (sig := ed_sign (msha ++ sigh) sk pk) in *. destruct (hash_unsigned sig svid msid now text l (ed_sign_length _ _ _) (ed_sign_bytes _ _ _) F) as (sigh' & E0' & E1 & E2).
  rewrite E0 in E0'. injection E0' as <-. rewrite E2 in E. exists sigh, (nthz sigh (Z.to_nat (svid mod 32))). cbv zeta. fold sig.
  split; [exact Lt|]. split; [exact F|]. split; [exact X|]. split; [exact E1|].
  unfold dohash, hashval in E. revert E.
  match goal with |- context [o_sigh ?y] => change (o_sigh y) with sigh; change (o_data y) with (Some (msg_file svid msid (msg_bytes sig svid msid now text) (cut_txs l) 0)) end. cbv beta iota.
  case_bool_decide as Hf; cbn [negb]; [discriminate|]. intros E. split; [exact Hf|]. split; [reflexivity|]. injection E as <-. now rewrite Lt.
Qed.
End Making.

(** * Receiving a message *)

Section Receiving.
Context `{Sha256} `{Ed25519}.

(** The object after the header and the body of a message were read. *)
Definition read_obj (bs : list Z) (peer time : Z) : mobj :=
  {| o_num := 0; o_svid := 0; o_msid := 0; o_now := 0; o_got := time; o_path := 0; o_peer := peer; o_len := Z.of_nat (length bs); o_data := Some bs;
     o_status := 0; o_sigh := replicate 32 0; o_know := [peer]; o_busy := ∅; o_sent := ∅ |}.

Lemma receive_txs v peer time sig svid msid now text l : length sig = 64%nat -> fine svid msid now text l -> peer <> BANK_MAX ->
  receive v peer time (msg_bytes sig svid msid now text) = handle_read_body v peer (read_obj (msg_bytes sig svid msid now text) peer time).
Proof.
  intros Hs F Hp. set (bs := msg_bytes sig svid msid now text). pose proof (msg_bytes_length sig svid msid now text Hs) as Hl. destruct (msg_bytes_size sig svid msid now text l Hs F) as [Hz _].
  fold bs in Hl, Hz. pose proof (fi_len _ _ _ _ _ F) as Ht. assert (E8 : length (take 8 bs) = 8%nat) by (rewrite length_take; lia).
  assert (Ez : rdz (take 8 bs) 1 3 = Z.of_nat (length bs)).
  { rewrite <- (take_drop 8 bs) in Hz. unfold rdz in Hz |- *. rewrite rd_app_l in Hz by lia. rewrite Hz. lia. }
  unfold receive, msg_header. cbn [message_read o_know o_busy o_sent o_data]. rewrite !bool_decide_eq_true_2 by reflexivity. cbn [andb]. rewrite Ez.
  change (nthz (take 8 bs) 0) with MSGTYPE_MSG. change (MSGTYPE_MSG =? MSGTYPE_INI) with false. cbv beta iota zeta.
  rewrite bool_decide_eq_false_2 by (vm_compute; intros Hi; repeat (apply elem_of_cons in Hi as [Hi|Hi]; [discriminate|]); now apply elem_of_nil in Hi).
  rewrite bool_decide_eq_true_2 by constructor. change (MSGTYPE_MSG =? MSGTYPE_MSG) with true. change (MSGTYPE_MSG =? MSGTYPE_DBL) with false. cbn [andb orb].
  rewrite (proj2 (Z.ltb_ge _ _)), (proj2 (Z.leb_gt _ _)) by (unfold max_length; lia). cbn [orb]. cbv beta iota zeta.
  assert (Er : realloc (take 8 bs) (Z.of_nat (length bs)) = take 8 bs ++ replicate (length bs - 8) 0).
  { unfold realloc. rewrite E8, Nat2Z.id. apply take_ge. rewrite length_app, length_replicate. lia. }
  match goal with |- context [o_data ?y] => change (o_data y) with (Some (realloc (take 8 bs) (Z.of_nat (length bs)))) end. rewrite Er. cbv beta iota.
  change (nthz (take 8 bs ++ replicate (length bs - 8) 0) 0) with MSGTYPE_MSG. change (2 =? 0) with false. cbv beta iota.
  rewrite (proj2 (Z.eqb_neq _ _) Hp). cbn [andb].
  match goal with |- context [o_len ?y] => change (o_len y) with (Z.of_nat (length bs)) end. rewrite (proj2 (Z.eqb_neq _ _)) by (unfold header_length; lia). cbn [orb].
  rewrite bool_decide_eq_false_2 by (vm_compute; intros Hi; repeat (apply elem_of_cons in Hi as [Hi|Hi]; [discriminate|]); now apply elem_of_nil in Hi).
  change (MSGTYPE_MSG =? MSGTYPE_BLK) with false. cbv beta iota. f_equal. unfold read_obj.
  assert (Ed : take 8 (take 8 bs ++ replicate (length bs - 8) 0) ++ rd bs 8 (length (take 8 bs ++ replicate (length bs - 8) 0) - 8) = bs).
  { rewrite take_app_length' by lia. rewrite length_app, length_replicate, E8. replace (8 + (length bs - 8) - 8)%nat with (length bs - 8)%nat by lia.
    rewrite rd_in, (take_ge (drop 8 bs)) by (rewrite ?length_drop; lia). apply take_drop. }
  rewrite Ed. reflexivity.
Qed.

Lemma hash_tree_bytes svid msid data l sigh file : parsed svid msid data l -> hash_tree svid msid data = Gives (sigh, file) -> bytes sigh.
Proof. intros Hp E. destruct (parsed_tree _ _ _ _ Hp) as [_ E']. rewrite E in E'. injection E' as -> _. apply merkle_root_hash, msg_leaves_hash. Qed.

Lemma hash_num_type d0 t msid svid m : 0 <= d0 < 256 -> 0 <= t < 256 -> m.(o_num) = hash_num d0 t msid svid -> hashtype m = t.
Proof.
  intros Hd Ht E. unfold hashtype. rewrite E. change 0xff with (Z.ones 8). rewrite Z.land_ones, Z.shiftr_div_pow2 by lia. unfold hash_num.
  symmetry. apply Z.mod_unique_pos with (msid + 2 ^ 32 * svid); [lia|]. symmetry. apply Z.div_unique_pos with d0; lia.
Qed.

(** A node that knows the key of another and the hash of its last message. *)
Record knows (v : view) (svid msid : Z) (pk msha : list Z) : Prop := {
  kn_node : svid < Z.of_nat (length v.(v_nodes)); kn_pk : (nthn v.(v_nodes) svid).(n_pk) = pk;
  kn_fast : has_bits (nthn v.(v_nodes) 0).(n_status) SERVER_FST = false; kn_new : (nthn v.(v_last) svid).(n_msid) < msid;
  kn_hash : ((nthn v.(v_nodes) svid).(n_msid) = msid - 1 /\ (nthn v.(v_nodes) svid).(n_msha) = msha) \/
            ((nthn v.(v_nodes) svid).(n_msid) <> msid - 1 /\ exists st, v.(v_message) svid (msid - 1) = Some (st, msha) /\ has_bits st (Z.lor MSGSTAT_DAT MSGSTAT_VAL) = true)
}.

Lemma knows_before v svid msid pk msha m : knows v svid msid pk msha -> 0 < msid < 2 ^ 32 -> m.(o_svid) = svid -> m.(o_msid) = msid -> before_hash v m = Some msha.
Proof.
  intros [_ _ _ Hn Hh] Hm E1 E2. unfold before_hash. rewrite E1, E2, (proj2 (Z.leb_gt _ _)) by exact Hn. rewrite u32_small by lia.
  destruct Hh as [[-> ->]|(Hne & st & -> & ->)]; [now rewrite Z.eqb_refl|]. now rewrite (proj2 (Z.eqb_neq _ _) Hne).
Qed.

(** The signature of a message whose hash was computed. *)
Lemma txs_signature svid msid sk msha sigh file mysvid m : m.(o_data) = Some file -> nthz file 0 = MSGTYPE_MSG -> rd file 4 64 = ed_sign (msha ++ sigh) sk (ed_public sk) ->
  m.(o_sigh) = sigh -> bytes sigh -> sigh <> replicate 32 0xff -> m.(o_svid) = svid -> m.(o_msid) = msid ->
  exists d0, 0 <= d0 < 256 /\ check_signature (ed_public sk) mysvid msha m =
    Some (0, m <| o_status ::= fun s => Z.lor s MSGSTAT_DAT |> <| o_num := hash_num d0 MSGTYPE_MSG msid svid |>).
Proof.
  intros Ed E0 Es Eh Hb Hf E1 E2. exists (nthz sigh (Z.to_nat (mysvid mod 32))). split; [now apply nthz_byte|].
  unfold check_signature, dohash, hashval. rewrite Ed, E0. change (MSGTYPE_MSG =? MSGTYPE_MSG) with true. cbv beta iota.
  set (m1 := m <| o_status ::= _ |>). change (o_data m1) with m.(o_data). change (o_sigh m1) with m.(o_sigh). change (o_msid m1) with m.(o_msid). change (o_svid m1) with m.(o_svid).
  rewrite Ed, Eh, E0, E1, E2. rewrite bool_decide_eq_false_2 by exact Hf. cbn [negb]. unfold open_. now rewrite Es, ed_correct.
Qed.

(** C32: a message of transactions that a node makes and signs is accepted by
    every peer that knows the node's key and the hash of its message before: it
    is stored with the same number, time, hash and bytes.  These bytes are the
    transactions the message was made of, with the record of its sender written
    into each transaction that logs an account. *)
Theorem made_message_accepted get_user text0 svid msid now sk msha l0 m v peer time data :
  fine svid msid now text0 l0 -> (forall i, recordable (get_user i)) -> knows v svid msid (ed_public sk) msha -> peer <> BANK_MAX ->
  message_made get_user MSGTYPE_MSG text0 svid msid now (Some sk) (ed_public sk) msha = Some m -> m.(o_data) = Some data ->
  drop 78 (take (Z.to_nat m.(o_len)) data) = concat (map (fill_user get_user) (cut_txs l0)) /\
  exists m', receive v peer time (take (Z.to_nat m.(o_len)) data) = Some (Insert m') /\ m'.(o_data) = Some data /\ m'.(o_len) = m.(o_len) /\ m'.(o_sigh) = m.(o_sigh) /\
    m'.(o_svid) = svid /\ m'.(o_msid) = msid /\ m'.(o_now) = now /\ hashtype m' = MSGTYPE_MSG /\ m'.(o_know) = [peer].
Proof.
  intros F0 Hs K Hp E Ed. destruct (made_txs _ _ _ _ _ _ _ _ _ _ F0 Hs E) as (text & l & sigh & h & Lt & F & X & Et & Hf & Eh & Em). cbv zeta in Et, Em.
  set (sig := ed_sign (msha ++ sigh) sk (ed_public sk)) in *. set (bs := msg_bytes sig svid msid now text) in *.
  assert (Hsig : length sig = 64%nat) by apply ed_sign_length. pose proof (ed_sign_bytes (msha ++ sigh) sk (ed_public sk)) as Hb. fold sig in Hb.
  rewrite Em in Ed |- *. cbn [o_data o_len o_sigh] in Ed |- *. injection Ed as <-.
  assert (Hl : length bs = (78 + length text)%nat) by now apply msg_bytes_length.
  replace (data_offset + Z.of_nat (length text)) with (Z.of_nat (length bs)) by (rewrite Hl; unfold data_offset; lia). rewrite Nat2Z.id.
  assert (Etk : take (length bs) (msg_file svid msid bs (cut_txs l) 0) = bs) by (unfold msg_file, with_tree; now rewrite take_app_length). rewrite Etk.
  split; [rewrite <- X; apply ci_data, (parsed_tree svid msid), msg_bytes_parsed; assumption|].
  unfold bs at 1. rewrite (receive_txs v peer time sig svid msid now text l Hsig F Hp). fold bs.
  destruct (msg_bytes_head sig svid msid now text l Hsig F) as (H1 & H2 & H3 & _). fold bs in H1, H2, H3. pose proof F as [F1 F2 F3 F4 F5 F6 F7].
  pose proof K as [K1 K2 K3 K4 K5]. unfold handle_read_body, read_head, head_at. cbn [read_obj o_data]. change (nthz bs 0) with MSGTYPE_MSG.
  rewrite bool_decide_eq_true_2 by constructor. change (MSGTYPE_MSG =? MSGTYPE_BLK) with false. cbn [negb]. change (4 + 64)%nat with 68%nat. cbn [Nat.add]. rewrite H1, H2, H3.
  set (m0 := (read_obj bs peer time) <| o_svid := svid |> <| o_msid := msid |> <| o_now := now |>). change (o_svid m0) with svid.
  rewrite (proj2 (Z.eqb_neq peer _) Hp), (proj2 (Z.eqb_neq svid 0)) by lia. cbn [andb negb]. rewrite orb_true_r. cbn [orb negb]. rewrite (proj2 (Z.leb_gt _ _)) by exact K1. cbn [orb andb]. rewrite K3.
  change (MSGTYPE_MSG =? MSGTYPE_MSG) with true. cbv beta iota. rewrite (knows_before v svid msid _ msha m0 K F2 eq_refl eq_refl).
  unfold body_hash. change (nthz bs 0 =? MSGTYPE_MSG) with true. cbv beta iota. change (o_len m0) with (Z.of_nat (length bs)). rewrite Nat2Z.id, firstn_all.
  change (o_svid m0) with svid. change (o_msid m0) with msid. rewrite Et. cbv beta iota.
  set (m1 := m0 <| o_sigh := sigh |> <| o_data := Some (msg_file svid msid bs (cut_txs l) 0) |>).
  destruct (txs_signature svid msid sk msha sigh (msg_file svid msid bs (cut_txs l) 0) v.(v_svid) m1) as (d0 & Hd0 & Ec); try reflexivity; [|apply (hash_tree_bytes svid msid bs l _ _ (msg_bytes_parsed _ _ _ _ _ _ Hsig Hb F) Et)|exact Hf|].
  { rewrite (file_head svid msid 0 bs (cut_txs l)) by lia. now apply msg_bytes_sig. }
  change (o_svid m1) with svid. rewrite K2, Ec. cbv beta iota. change (0 =? 0) with true. cbv beta iota. unfold accept_body. rewrite (proj2 (Z.eqb_neq peer _) Hp).
  match goal with |- context [hashtype ?y] => assert (Hty : hashtype y = MSGTYPE_MSG) by (apply (hash_num_type d0 MSGTYPE_MSG msid svid); [exact Hd0|unfold MSGTYPE_MSG; lia|reflexivity]) end.
  rewrite Hty. change (MSGTYPE_MSG =? MSGTYPE_CND) with false. cbv beta iota. eexists. split; [reflexivity|]. repeat (split; [reflexivity|]). split; [exact Hty|reflexivity].
Qed.
End Receiving.

(** * Double spends *)

Section Double.
Context `{Sha256} `{Ed25519}.

(** A message of transactions with a signature that the key accepts. *)
Record signed (pk msha : list Z) (svid msid now : Z) (sig text : list Z) : Prop := {
  sg_fine : exists l, fine svid msid now text l; sg_len : length sig = 64%nat; sg_bytes : bytes sig;
  sg_open : exists sigh, hash_tree_fast (msg_bytes sig svid msid now text) svid msid = Gives sigh /\ ed_open (msha ++ sigh) pk sig = true
}.

Lemma signed_fields pk msha svid msid now sig text b : signed pk msha svid msid now sig text ->
  let d := msg_bytes sig svid msid now text in
  length d = (78 + length text)%nat /\ rdz (d ++ b) 1 3 = Z.of_nat (length d) /\ nthz (d ++ b) 0 = MSGTYPE_MSG /\ rdz (d ++ b) 68 2 = svid /\ rdz (d ++ b) 70 4 = msid /\
  rdz (d ++ b) 74 4 = now /\ rd (d ++ b) 4 64 = sig /\ rd (d ++ b) 0 (length d) = d /\ drop (length d) (d ++ b) = b.
Proof.
  intros [[l F] Hl Hb _] d. pose proof (msg_bytes_length sig svid msid now text Hl) as El. fold d in El. destruct (msg_bytes_size sig svid msid now text l Hl F) as [Hz _].
  destruct (msg_bytes_head sig svid msid now text l Hl F) as (H1 & H2 & H3 & _). pose proof (msg_bytes_sig sig svid msid now text Hl) as H4. fold d in Hz, H1, H2, H3, H4.
  rewrite !rdz_app_l, rd_app_l, rd_app_here, drop_app_length by (try reflexivity; lia). rewrite Hz, H1, H2, H3, H4. repeat split; try assumption. lia.
Qed.

(** The proof that a node makes of two messages with the same number is
    accepted with the key of their sender, whose signatures it holds. *)
Theorem double_spend_proved pk msha svid msid now1 now2 sig1 sig2 text1 text2 : length msha = 32%nat ->
  signed pk msha svid msid now1 sig1 text1 -> signed pk msha svid msid now2 sig2 text2 -> sig1 <> sig2 ->
  now1 <= now2 + 3 * BLOCKSEC < 2 ^ 32 -> now2 <= now1 + 3 * BLOCKSEC < 2 ^ 32 ->
  let d := dbl_bytes msha (msg_bytes sig1 svid msid now1 text1) (msg_bytes sig2 svid msid now2 text2) in
  check_double pk (Z.of_nat (length d)) d = Some 0.
Proof.
  intros Hm S1 S2 Hne Hn1 Hn2 d. unfold check_double. set (d1 := msg_bytes sig1 svid msid now1 text1) in *. set (d2 := msg_bytes sig2 svid msid now2 text2) in *.
  assert (E36 : drop (4 + 32) d = d1 ++ d2).
  { unfold d, dbl_bytes. rewrite app_comm_cons, (assoc_L (++)). apply drop_app_length'. rewrite length_app. cbn [length]. rewrite length_le_bytes. lia. }
  assert (Eh : rd d 4 32 = msha).
  { unfold d, dbl_bytes. rewrite app_comm_cons, rd_app_skip; cbn [length]; rewrite length_le_bytes; [|lia]. cbn [Nat.sub]. now apply rd_app_here. }
  assert (El : Z.of_nat (length d) = 4 + 32 + Z.of_nat (length d1) + Z.of_nat (length d2)) by (unfold d, dbl_bytes; cbn [length]; rewrite !length_app, length_le_bytes; lia).
  destruct (signed_fields _ _ _ _ _ _ _ d2 S1) as (L1 & A1 & A2 & A3 & A4 & A5 & A6 & A7 & A8). fold d1 in L1, A1, A2, A3, A4, A5, A6, A7, A8.
  destruct (signed_fields _ _ _ _ _ _ _ [] S2) as (L2 & B1 & B2 & B3 & B4 & B5 & B6 & B7 & _). fold d2 in L2, B1, B2, B3, B4, B5, B6, B7. rewrite app_nil_r in B1, B2, B3, B4, B5, B6, B7.
  rewrite E36, Eh, A1, Nat2Z.id, A8, B1, El. rewrite (proj2 (Z.ltb_ge _ _)) by lia. rewrite Z.eqb_refl. cbn [negb]. change (4 + 64)%nat with 68%nat. cbn [Nat.add].
  rewrite A2, A3, A4, A5, A6, B2, B3, B4, B5, B6, !Z.eqb_refl. cbn [negb orb]. rewrite bool_decide_eq_false_2 by exact Hne.
  change (MSGTYPE_MSG =? MSGTYPE_CND) with false. change (MSGTYPE_MSG =? MSGTYPE_BLK) with false. cbn [orb].
  destruct S1 as [[l1 F1] _ _ (g1 & G1 & O1)], S2 as [[l2 F2] _ _ (g2 & G2 & O2)]. pose proof (fi_now _ _ _ _ _ F1). pose proof (fi_now _ _ _ _ _ F2).
  rewrite !u32_small by (unfold BLOCKSEC in *; lia). rewrite !(proj2 (Z.ltb_ge _ _)) by lia. cbn [orb]. rewrite Nat2Z.id, A7, B7. unfold d1 at 1, d2 at 1. rewrite G1, G2, O1, O2. reflexivity.
Qed.

Lemma rd_drop f a o k : rd (drop a f) o k = rd f (a + o) k.
Proof. apply rd_eq. intros i _. unfold nthz. rewrite lookup_drop. f_equal. f_equal. lia. Qed.

Lemma rd_add f a n k : rd f a (n + k) = rd f a n ++ rd f (a + n) k.
Proof.
  apply list_eq. intros i. destruct (decide (i < n + k)%nat) as [Hi|Hi].
  - rewrite rd_at by exact Hi. destruct (decide (i < n)%nat) as [Hn|Hn].
    + rewrite lookup_app_l by (rewrite length_rd; lia). now rewrite rd_at.
    + rewrite lookup_app_r by (rewrite length_rd; lia). rewrite length_rd, rd_at by lia. do 2 f_equal. lia.
  - rewrite !lookup_ge_None_2; [reflexivity|rewrite length_app, !length_rd; lia|rewrite length_rd; lia].
Qed.

Lemma hash_fast_length d svid msid sigh : hash_tree_fast d svid msid = Gives sigh -> (78 < length d)%nat.
Proof.
  unfold hash_tree_fast. destruct (_ && _ && _); [|discriminate]. destruct (Z.ltb_spec data_offset (Z.of_nat (length d))) as [Hl|Hl]; [|discriminate]. intros _. unfold data_offset in Hl. lia.
Qed.

(** C33: a proof that is accepted and whose messages are of transactions holds
    two messages with one number that the node signed after the same message,
    with different signatures. *)
Theorem double_spend_sound pk len d : check_double pk len d = Some 0 -> nthz (drop 36 d) 0 = MSGTYPE_MSG ->
  exists d1 d2 svid msid sigh1 sigh2,
    hash_tree_fast d1 svid msid = Gives sigh1 /\ hash_tree_fast d2 svid msid = Gives sigh2 /\ rdz d1 68 2 = svid /\ rdz d2 68 2 = svid /\ rdz d1 70 4 = msid /\ rdz d2 70 4 = msid /\
    ed_open (rd d 4 32 ++ sigh1) pk (rd d1 4 64) = true /\ ed_open (rd d 4 32 ++ sigh2) pk (rd d2 4 64) = true /\ rd d1 4 64 <> rd d2 4 64 /\
    rd d 36 (length d1 + length d2) = d1 ++ d2 /\ len = 36 + Z.of_nat (length d1 + length d2).
Proof.
  intros E Ht. unfold check_double in E. change (4 + 32)%nat with 36%nat in E. change (4 + 64)%nat with 68%nat in E. cbn [Nat.add] in E. rewrite Ht in E. change (MSGTYPE_MSG =? MSGTYPE_CND) with false in E.
  change (MSGTYPE_MSG =? MSGTYPE_BLK) with false in E. change (MSGTYPE_MSG =? MSGTYPE_MSG) with true in E. cbn [orb] in E.
  set (data1 := drop 36 d) in *. set (len1 := rdz data1 1 3) in *. set (data2 := drop (Z.to_nat len1) data1) in *. set (len2 := rdz data2 1 3) in *.
  destruct (Z.ltb_spec len (4 + 32 + len1 + 4)) as [|Hl1]; [discriminate|]. destruct (Z.eqb_spec (4 + 32 + len1 + len2) len) as [Hl2|]; [cbn [negb] in E|discriminate].
  destruct (MSGTYPE_MSG =? nthz data2 0); [cbn [negb] in E|discriminate]. destruct (Z.eqb_spec (rdz data1 68 2) (rdz data2 68 2)) as [Hs|]; [cbn [negb orb] in E|discriminate].
  destruct (Z.eqb_spec (rdz data1 70 4) (rdz data2 70 4)) as [Hm|]; [cbn [negb] in E|discriminate]. case_bool_decide as Hne; [discriminate|]. destruct (_ || _); [discriminate|].
  destruct (hash_tree_fast _ _ _) as [sigh1| |] eqn:G1; try discriminate. destruct (hash_tree_fast (rd data2 _ _) _ _) as [sigh2| |] eqn:G2; try discriminate.
  destruct (ed_open _ _ _ && ed_open _ _ _) eqn:O; [|discriminate]. apply andb_true_iff in O as [O1 O2].
  pose proof (hash_fast_length _ _ _ _ G1) as L1. pose proof (hash_fast_length _ _ _ _ G2) as L2. rewrite length_rd in L1, L2.
  exists (rd data1 0 (Z.to_nat len1)), (rd data2 0 (Z.to_nat len2)), (rdz data1 68 2), (rdz data1 70 4), sigh1, sigh2.
  rewrite !rdz_rd, !rd_rd, !length_rd by lia. cbn [Nat.add]. rewrite Hs, Hm in G1 |- *. repeat (split; [assumption || reflexivity|]). split.
  - rewrite rd_add. unfold data2, data1. rewrite !rd_drop. f_equal; f_equal; lia.
  - lia.
Qed.

(** Block messages are never proved double: the length that is asked for is not
    that of a block message. *)
Lemma blk_proof_refused pk len d : nthz (drop 36 d) 0 = MSGTYPE_BLK -> rdz (drop 36 d) 1 3 = 4+64+10 + sizeof_header_t -> check_double pk len d = Some (-1).
Proof.
  intros Ht Hl. unfold check_double. change (4 + 32)%nat with 36%nat. rewrite Ht, Hl. change (MSGTYPE_BLK =? MSGTYPE_BLK) with true. change (MSGTYPE_BLK =? MSGTYPE_CND) with false. cbn [orb].
  change (negb (4 + 64 + 10 + sizeof_header_t =? 4 + 64 + 10 + sizeof_header_t - 4)) with true. cbv beta iota zeta.
  repeat match goal with |- context [if ?b then _ else _] => destruct b; [reflexivity|] end. reflexivity.
Qed.

(** The sender of a proof is read from the signature of its first message. *)
Lemma dbl_head msha svid msid now sig text data2 m : length msha = 32%nat -> length sig = 64%nat ->
  m.(o_data) = Some (dbl_bytes msha (msg_bytes sig svid msid now text) data2) ->
  exists m', read_head m = Some m' /\ m'.(o_svid) = rdz sig 28 2 /\ m'.(o_msid) = rdz sig 30 4.
Proof.
  intros Hm Hs E. unfold read_head. rewrite E. change (nthz (dbl_bytes _ _ _) 0) with MSGTYPE_DBL. replace (bool_decide (MSGTYPE_DBL ∈ _)) with true by reflexivity.
  eexists. split; [reflexivity|].
  assert (Er : forall o k, (o + k <= 64)%nat -> rdz (dbl_bytes msha (msg_bytes sig svid msid now text) data2) (40 + o) k = rdz sig o k).
  { intros o k Ho. unfold dbl_bytes, rdz. rewrite app_comm_cons, rd_app_skip; cbn [length]; rewrite length_le_bytes; [|lia]. rewrite rd_app_skip, Hm by lia.
    unfold msg_bytes. rewrite <- app_comm_cons, <- (assoc_L (++)), app_comm_cons, rd_app_skip; cbn [length]; rewrite length_le_bytes; [|lia]. rewrite <- (assoc_L (++)), rd_app_l by lia. do 2 f_equal. lia. }
  split; [exact (Er 28%nat 2%nat ltac:(lia))|exact (Er 30%nat 4%nat ltac:(lia))].
Qed.
End Double.

(** * Examples *)

(** Signatures for examples: the key is the secret. *)
Definition toy_ed : Ed25519 :=
  {| ed_public sk := sk;
     ed_sign m sk pk := le_bytes 64 (quick (m ++ sk));
     ed_open m pk sig := bool_decide (sig = le_bytes 64 (quick (m ++ pk)));
     ed_sign_length m sk pk := length_le_bytes 64 (quick (m ++ sk));
     ed_sign_bytes m sk pk := bytes_le_bytes 64 (quick (m ++ sk));
     ed_correct m sk := bool_decide_eq_true_2 _ eq_refl |}.

Definition demo_text (n : nat) : list Z := concat (replicate n [TXSTYPE_NON; 4; 0; 0]).
Definition demo_key : list Z := replicate 32 7.
Definition demo_msha : list Z := replicate 32 2.
Definition demo_sender : node := zero_node <| n_pk := demo_key |> <| n_msid := 4 |> <| n_msha := demo_msha |> <| n_status := 0 |>.
Definition demo_view : view :=
  {| v_svid := 2; v_mins := true; v_do_sync := false; v_now := 992; v_last_now := 960; v_nodes := replicate 3 demo_sender; v_last := replicate 3 demo_sender;
     v_message := fun _ _ => None |}.

Lemma demo_fine n : (n = 2 \/ n = 3)%nat -> fine 1 5 1000 (demo_text n) (blank_cut n).
Proof. intros [->| ->]; (split; [lia|lia|lia|apply bytes_check; reflexivity|vm_compute; split; reflexivity|exists 3%nat; reflexivity|vm_compute; discriminate]). Qed.

(** A blank and a transaction that logs account 3. *)
Definition demo_log : list Z := head_bytes TXSTYPE_SAV 1 3 6 1000 ++ replicate 64 9 ++ replicate 128 0.
Definition demo_body : list Z := [TXSTYPE_NON; 4; 0; 0] ++ demo_log.
Definition demo_body_cut : list (list Z * usertxs) := default [] (cut 2 demo_body 211).
Definition demo_account (uid : Z) : user_t :=
  {| u_msid := 7; u_time := 900; u_pkey := replicate 32 uid; u_hash := replicate 32 4; u_lpath := 800; u_user := 0; u_node := 0; u_stat := 0; u_rpath := 800; u_weight := 50; u_csum := 11 |}.
Definition demo_accounts (uid : Z) : user_t := demo_account (uid mod 256).

Definition demo_made : mobj :=
  default (message_read []) (message_made (H := quick_sha) (H0 := toy_ed) demo_accounts MSGTYPE_MSG demo_body 1 5 1000 (Some demo_key) demo_key demo_msha).
Definition demo_sent : list Z := default [] demo_made.(o_data).

Lemma demo_recordable i : recordable (demo_accounts i).
Proof.
  unfold demo_accounts. pose proof (Z.mod_pos_bound i 256 ltac:(lia)) as Hi. generalize dependent (i mod 256). intros x Hx. split; [reflexivity|].
  unfold user_record, user_bytes. repeat apply Forall_app_2; try apply bytes_le_bytes; [|apply bytes_check; reflexivity]. cbn [demo_account u_pkey].
  apply Forall_replicate. exact Hx.
Qed.

Lemma made_message_accepted_witness :
  usr (drop 4 (drop 78 (take 289 demo_sent))) = user_record (demo_account 3) /\
  exists m', receive (H := quick_sha) (H0 := toy_ed) demo_view 2 1001 (take 289 demo_sent) = Some (Insert m') /\ m'.(o_data) = Some demo_sent /\
    m'.(o_len) = demo_made.(o_len) /\ m'.(o_sigh) = demo_made.(o_sigh) /\ m'.(o_svid) = 1 /\ m'.(o_msid) = 5 /\ m'.(o_now) = 1000 /\ hashtype m' = MSGTYPE_MSG /\ m'.(o_know) = [2].
Proof.
  destruct (made_message_accepted (H := quick_sha) (H0 := toy_ed) demo_accounts demo_body 1 5 1000 demo_key demo_msha demo_body_cut demo_made demo_view 2 1001 demo_sent) as [Hb Hm].
  - split; [lia|lia|lia|apply bytes_check; reflexivity|vm_compute; split; reflexivity|exists 2%nat; reflexivity|vm_compute; discriminate].
  - exact demo_recordable.
  - split; [vm_compute; reflexivity|reflexivity|reflexivity|vm_compute; reflexivity|]. left. split; reflexivity.
  - discriminate.
  - vm_compute. reflexivity.
  - vm_compute. reflexivity.
  - change (Z.to_nat demo_made.(o_len)) with 289%nat in Hb, Hm. split; [rewrite Hb; vm_compute; reflexivity|exact Hm].
Defined.

Definition demo_sig (n : nat) : list Z :=
  match hash_tree_fast (H := quick_sha) (msg_bytes (replicate 64 0) 1 5 1000 (demo_text n)) 1 5 with Gives sigh => le_bytes 64 (quick ((demo_msha ++ sigh) ++ demo_key)) | _ => [] end.

Lemma demo_signed n : (n = 2 \/ n = 3)%nat -> signed (H := quick_sha) (H0 := toy_ed) demo_key demo_msha 1 5 1000 (demo_sig n) (demo_text n).
Proof.
  intros Hn. split; [exists (blank_cut n); now apply demo_fine|destruct Hn as [->| ->]; reflexivity|apply bytes_check; destruct Hn as [->| ->]; vm_compute; reflexivity|].
  destruct Hn as [->| ->]; (eexists; split; [vm_compute; reflexivity|vm_compute; reflexivity]).
Qed.

Definition demo_proof : list Z := dbl_bytes demo_msha (msg_bytes (demo_sig 2) 1 5 1000 (demo_text 2)) (msg_bytes (demo_sig 3) 1 5 1000 (demo_text 3)).

Lemma double_spend_proved_witness : check_double (H := quick_sha) (H0 := toy_ed) demo_key (Z.of_nat (length demo_proof)) demo_proof = Some 0.
Proof.
  apply (double_spend_proved (H := quick_sha) (H0 := toy_ed) demo_key demo_msha 1 5 1000 1000 (demo_sig 2) (demo_sig 3) (demo_text 2) (demo_text 3));
    [reflexivity|apply demo_signed; lia|apply demo_signed; lia|vm_compute; discriminate|unfold BLOCKSEC; lia|unfold BLOCKSEC; lia].
Defined.

Lemma double_spend_sound_witness :
  exists d1 d2 svid msid sigh1 sigh2,
    hash_tree_fast (H := quick_sha) d1 svid msid = Gives sigh1 /\ hash_tree_fast (H := quick_sha) d2 svid msid = Gives sigh2 /\ rdz d1 68 2 = svid /\ rdz d2 68 2 = svid /\
    rdz d1 70 4 = msid /\ rdz d2 70 4 = msid /\
    ed_open (Ed25519 := toy_ed) (rd demo_proof 4 32 ++ sigh1) demo_key (rd d1 4 64) = true /\ ed_open (Ed25519 := toy_ed) (rd demo_proof 4 32 ++ sigh2) demo_key (rd d2 4 64) = true /\
    rd d1 4 64 <> rd d2 4 64 /\ rd demo_proof 36 (length d1 + length d2) = d1 ++ d2 /\ 212 = 36 + Z.of_nat (length d1 + length d2).
Proof. apply (double_spend_sound (H := quick_sha) (H0 := toy_ed) demo_key 212 demo_proof); vm_compute; reflexivity. Defined.

(** The proof is right, but a peer that gets it looks for the node in the bytes
    of a signature and ends the connection. *)
Theorem double_spend_refused :
  check_double (H := quick_sha) (H0 := toy_ed) (nthn demo_view.(v_nodes) 1).(n_pk) (Z.of_nat (length demo_proof)) demo_proof = Some 0 /\
  receive (H := quick_sha) (H0 := toy_ed) demo_view 2 1001 demo_proof = Some Leave.
Proof. split; vm_compute; reflexivity. Qed.
