(* ===== verification/Pool.v ===== *)
(** The messages a node keeps ([escd/server.cpp]): announced and received
    messages, double spends, bad messages, and the queue of the validator.
    Messages are objects shared by several containers, so the pool has a heap. *)

From stdpp Require Import base gmap list.
From Stdlib Require Import ZArith Lia.
From S2P Require Import Prelude Params HashTree Usertxs Accounts Servers Ledger Message MerklePath MsgTree MsgFile MsgHead.

(** * State *)

Abbreviation ptr := nat.

(** Calls of other components, in order: votes for candidates and blocks, the
    announcement to all peers, the request to one, the update of candidates, the
    signal that ends the node. *)
Inductive event :=
  | CndValidate (p : ptr)
  | BlkValidate (p : ptr)
  | UpdateAll (p : ptr)
  | Deliver (p : ptr) (svid : Z)
  | UpdateCandidates (p : ptr)
  | Shutdown.

Record pool := {
  q_heap : gmap ptr mobj; q_disk : disk;
  q_txs : gmap Z ptr; q_cnd : gmap Z ptr; q_blk : gmap Z ptr; q_dbl : gmap Z ptr; q_missing : gmap Z ptr; q_ldc : gset Z; q_bad : gmap (list Z) ptr;
  q_wait : list ptr; q_check : list ptr; q_busy : gset ptr; q_dbl_srvs : gset Z;
  q_nodes : list node; q_last : list node; q_now : Z; q_last_now : Z; q_last_block : Z; q_svid : Z; q_msid : Z; q_do_sync : bool; q_block_only : bool;
  q_events : list event
}.

#[export] Instance mobj_inhabited : Inhabited mobj := populate (message_read []).

Definition obj (s : pool) (p : ptr) : mobj := s.(q_heap) !!! p.
Definition set_obj (p : ptr) (f : mobj -> mobj) (s : pool) : pool := s <| q_heap ::= alter f p |>.
Definition event_ (e : event) (s : pool) : pool := s <| q_events ::= fun l => l ++ [e] |>.

(** Operations of a message on its object and the disk. *)
Definition obj_save (p : ptr) (s : pool) : option (bool * pool) :=
  let* (ok, m, d) := msg_save (obj s p) s.(q_disk) in Some (ok, (set_obj p (fun _ => m) s) <| q_disk := d |>).
Definition obj_load (who : Z) (p : ptr) (s : pool) : option (Z * pool) :=
  let* (n, m) := load who (obj s p) s.(q_disk) in Some (n, set_obj p (fun _ => m) s).
Definition obj_unload (who : Z) (p : ptr) (s : pool) : pool := set_obj p (unload who) s.

(** A new object. *)
Definition alloc (m : mobj) (s : pool) : ptr * pool :=
  let p := fresh (dom s.(q_heap)) in (p, s <| q_heap ::= <[p := m]> |>).

(** * Bad messages *)

(** [bad_insert]: [None] is a failed assertion. *)
Definition bad_insert (p : ptr) (s : pool) : option pool :=
  let m := obj s p in
  check negb (has_bits m.(o_status) MSGSTAT_BAD) in
  match s.(q_bad) !! m.(o_sigh) with
  | None =>
      let* s := (if has_bits m.(o_status) MSGSTAT_SAV then
          let* (_, m, d) := msg_bad_insert m s.(q_disk) in Some ((set_obj p (fun _ => m) s) <| q_disk := d |>)
        else
          let* (_, s) := obj_save p (set_obj p (fun m => m <| o_status ::= fun x => Z.lor x MSGSTAT_BAD |>) s) in Some s) in
      Some (s <| q_bad ::= <[(obj s p).(o_sigh) := p]> |>)
  | Some q =>
      check negb (has_bits m.(o_status) MSGSTAT_SAV) in
      let s := set_obj p (fun m => m <| o_status ::= fun x => Z.lor x MSGSTAT_BAD |>) s in
      Some (if negb (has_bits (obj s p).(o_status) MSGSTAT_SIG) && has_bits (obj s q).(o_status) MSGSTAT_SIG
            then set_obj q (fun m => m <| o_status ::= fun x => clear_bits x MSGSTAT_SIG |>) s else s)
  end.

Definition bad_recover (p : ptr) (s : pool) : option pool :=
  let s := s <| q_bad ::= delete (obj s p).(o_sigh) |> in
  if has_bits (obj s p).(o_status) MSGSTAT_SAV then
    let* (_, m, d) := msg_bad_recover (obj s p) s.(q_disk) in Some ((set_obj p (fun _ => m) s) <| q_disk := d |>)
  else
    let s := set_obj p (fun m => m <| o_status ::= fun x => clear_bits x MSGSTAT_BAD |>) s in
    let s := if (obj s p).(o_path) =? 0 then set_obj p (fun m => m <| o_path := s.(q_last_block) |>) s else s in
    let* (_, s) := obj_save p s in Some s.

(** * Double spends *)

Definition pool_known_dbl (s : pool) (svid : Z) : bool := bool_decide (svid ∈ s.(q_dbl_srvs)).

(** [message_svidmsid] of [server]. *)
Fixpoint scan_svidmsid (s : pool) (svid msid : Z) (l : list (Z * ptr)) (me : option ptr) : option ptr :=
  match l with
  | [] => me
  | (_, p) :: l =>
      let m := obj s p in
      if negb ((m.(o_svid) =? svid) && (m.(o_msid) =? msid)) then me
      else if has_bits m.(o_status) MSGSTAT_COM then Some p
      else scan_svidmsid s svid msid l (if has_bits m.(o_status) MSGSTAT_DAT || bool_decide (me = None) then Some p else me)
  end.
Definition pool_svidmsid (s : pool) (svid msid : Z) : option ptr :=
  scan_svidmsid s svid msid (filter (fun q => hash_num 0 0 msid svid <= q.1) (elems s.(q_txs))) None.

Definition double_spend (p : ptr) (s : pool) : pool :=
  let m := obj s p in
  if m.(o_msid) <=? (nthn s.(q_last) m.(o_svid)).(n_msid) then s
  else event_ (UpdateAll p) (s <| q_dbl_srvs ::= union {[m.(o_svid)]} |>).

(** The hash of the message before a double message; [None] when it is not
    known. *)
Definition before_double (s : pool) (p2 : ptr) : option (list Z) :=
  let m2 := obj s p2 in
  let ln := nthn s.(q_last) m2.(o_svid) in
  if (m2.(o_msid) =? 1) || (u32 (m2.(o_msid) - 1) =? ln.(n_msid)) then Some ln.(n_msha)
  else match pool_svidmsid s m2.(o_svid) (u32 (m2.(o_msid) - 1)) with
  | None => None
  | Some pre => if negb (has_bits (obj s pre).(o_status) (Z.lor MSGSTAT_DAT MSGSTAT_VAL)) then None else Some (obj s pre).(o_sigh)
  end.

(** [create_double_spend_proof] at time [time]: [None] is the end of the
    process (an own double spend) or a failed assertion. *)
Definition create_double_spend_proof (time : Z) (p1 p2 : ptr) (s : pool) : option pool :=
  let m1 := obj s p1 in let m2 := obj s p2 in
  check (m1.(o_svid) =? m2.(o_svid)) && (m1.(o_msid) =? m2.(o_msid)) && negb (bool_decide (m1.(o_sigh) = m2.(o_sigh))) && negb s.(q_do_sync) in
  check negb (m2.(o_svid) =? s.(q_svid)) in
  if pool_known_dbl s m2.(o_svid) then Some s
  else if m1.(o_msid) <=? (nthn s.(q_last) m1.(o_svid)).(n_msid) then Some s
  else
    let* (_, s) := obj_load BANK_MAX p1 s in
    let* (_, s) := obj_load BANK_MAX p2 s in
    let* d1 := (obj s p1).(o_data) in
    let* d2 := (obj s p2).(o_data) in
    check nthz d1 0 =? nthz d2 0 in
    match (if nthz d2 0 =? MSGTYPE_MSG then before_double s p2 else Some (replicate 32 0)) with
    | None => Some (obj_unload BANK_MAX p2 (obj_unload BANK_MAX p1 s))
    | Some msha =>
        let b1 := take (Z.to_nat (obj s p1).(o_len)) d1 in
        let b2 := take (Z.to_nat (obj s p2).(o_len)) d2 in
        let len := 4+32 + (obj s p1).(o_len) + (obj s p2).(o_len) in
        let dbl := (message_len len (dbl_bytes msha b1 b2)) <| o_msid := m1.(o_msid) |> <| o_svid := m1.(o_svid) |> <| o_now := time |> <| o_peer := s.(q_svid) |> in
        let dbl := null_signature (dbl <| o_num := dohash_dbl dbl |>) in
        let '(p, s) := alloc dbl s in
        let s := obj_unload BANK_MAX p2 (obj_unload BANK_MAX p1 s) in
        let s := s <| q_dbl ::= <[dbl.(o_num) := p]> |> in
        let s := set_obj p (fun m => m <| o_path := s.(q_now) |>) (double_spend p s) in
        let* (_, s) := obj_save p s in Some s
    end.

(** The neighbours of a key in a map. *)
Definition prev_of (k : Z) (l : list (Z * ptr)) : option ptr := snd <$> last (filter (fun q => q.1 < k) l).
Definition next_of (k : Z) (l : list (Z * ptr)) : option ptr := snd <$> head (filter (fun q => k < q.1) l).

(** The same node and number. *)
Definition same_number (a b : mobj) : bool := Z.land a.(o_num) 0xFFFFFFFFFFFF0000 =? Z.land b.(o_num) 0xFFFFFFFFFFFF0000.

(** One neighbour in [check_dbl]: [Some] result when it has the number. *)
Definition check_neighbour (time : Z) (q : option ptr) (p : ptr) (s : pool) : option (option (Z * pool)) :=
  match q with
  | None => Some None
  | Some q =>
      if same_number (obj s q) (obj s p) then
        if (header_length <? (obj s q).(o_len)) && (header_length <? (obj s p).(o_len)) then
          let* s := bad_insert p s in
          let* s := create_double_spend_proof time q p s in
          Some (Some (-1, s))
        else Some (Some (1, s))
      else Some None
  end.

(** [check_dbl] for the message with key [k] of the map [msgs]. *)
Definition check_dbl (time : Z) (msgs : gmap Z ptr) (k : Z) (p : ptr) (s : pool) : option (Z * pool) :=
  check negb (bool_decide ((obj s p).(o_data) = None)) in
  let* r := check_neighbour time (prev_of k (elems msgs)) p s in
  match r with
  | Some r => Some r
  | None =>
      let* r := check_neighbour time (next_of k (elems msgs)) p s in
      match r with
      | Some r => Some r
      | None => Some (0, s)
      end
  end.

(** * Insertion *)

Definition missing_msgs_erase (p : ptr) (s : pool) : pool := s <| q_missing ::= delete (obj s p).(o_num) |>.
Definition missing_msgs_insert (p : ptr) (s : pool) : pool :=
  if (obj s p).(o_msid) =? 0xFFFFFFFF then s else s <| q_missing ::= <[(obj s p).(o_num) := p]> |>.

(** [osg->update(msg)]. *)
Definition obj_update (msg osg : ptr) (s : pool) : pool :=
  let r := msg_update (obj s msg) (obj s osg) in set_obj osg (fun _ => r.2) (set_obj msg (fun _ => r.1) s).

Definition obj_know (msg osg : ptr) (s : pool) : pool := set_obj osg (fun o => o <| o_know ::= know_insert_ (obj s msg).(o_peer) |>) s.

(** A full message for one that was announced. *)
Definition completes (s : pool) (msg osg : ptr) : bool := (header_length <? (obj s msg).(o_len)) && ((obj s osg).(o_len) =? header_length).

Definition dbl_insert (msg : ptr) (s : pool) : option (Z * pool) :=
  let m := obj s msg in
  check hashtype m =? MSGTYPE_DBL in
  match s.(q_dbl) !! m.(o_num) with
  | Some osg =>
      if completes s msg osg then
        if m.(o_msid) <=? (nthn s.(q_last) m.(o_svid)).(n_msid) then Some (0, missing_msgs_erase msg s)
        else
          let s := set_obj osg (fun o => o <| o_path := s.(q_now) |>) (obj_update msg osg s) in
          let* (ok, s) := obj_save osg s in
          check ok in
          let s := missing_msgs_erase msg s in
          let s := if pool_known_dbl s (obj s osg).(o_svid) then s else double_spend osg s in
          Some (1, obj_unload s.(q_svid) osg s)
      else Some (0, obj_know msg osg s)
  | None =>
      if m.(o_len) =? header_length then Some (1, missing_msgs_insert msg (s <| q_dbl ::= <[m.(o_num) := msg]> |>))
      else Some (-1, s)
  end.

(** The result when [check_dbl] found the number again. *)
Definition dbl_result (s : pool) (svid : Z) : Z := if pool_known_dbl s svid then 1 else -1.

Definition cnd_insert (time : Z) (msg : ptr) (s : pool) : option (Z * pool) :=
  let m := obj s msg in
  check hashtype m =? MSGTYPE_CND in
  match s.(q_cnd) !! m.(o_num) with
  | Some osg =>
      if completes s msg osg then
        let s := set_obj osg (fun o => o <| o_path := o.(o_msid) |>) (obj_update msg osg s) in
        if s.(q_last_block) <? (obj s osg).(o_msid) then Some (0, s)
        else
          let s := missing_msgs_erase msg s in
          let* (r, s) := check_dbl time s.(q_cnd) m.(o_num) osg s in
          if r <? 0 then Some (dbl_result s m.(o_svid), s) else Some (1, event_ (CndValidate osg) s)
      else Some (0, obj_know msg osg s)
  | None =>
      if m.(o_len) =? header_length then
        let s := missing_msgs_insert msg (s <| q_cnd ::= <[m.(o_num) := msg]> |>) in
        let* (r, s) := check_dbl time s.(q_cnd) m.(o_num) msg s in
        if negb (r =? 0) then Some (dbl_result s m.(o_svid), s) else Some (1, s)
      else if m.(o_svid) =? s.(q_svid) then
        let s := set_obj msg (fun m => m <| o_path := m.(o_msid) |>) (s <| q_cnd ::= <[m.(o_num) := msg]> |>) in
        check m.(o_peer) =? m.(o_svid) in Some (1, event_ (CndValidate msg) s)
      else Some (-1, s)
  end.

Definition blk_insert (time : Z) (msg : ptr) (s : pool) : option (Z * pool) :=
  let m := obj s msg in
  check hashtype m =? MSGTYPE_BLK in
  let own := set_obj msg (fun m => m <| o_path := m.(o_msid) |>) (s <| q_blk ::= <[m.(o_num) := msg]> |>) in
  match s.(q_blk) !! m.(o_num) with
  | Some osg =>
      if completes s msg osg then
        let s := missing_msgs_erase msg (set_obj osg (fun o => o <| o_path := o.(o_msid) |>) (obj_update msg osg s)) in
        let* (r, s) := check_dbl time s.(q_blk) m.(o_num) osg s in
        if r <? 0 then Some (dbl_result s m.(o_svid), s) else Some (1, event_ (BlkValidate osg) s)
      else Some (0, obj_know msg osg s)
  | None =>
      if m.(o_len) =? header_length then
        let s := missing_msgs_insert msg (s <| q_blk ::= <[m.(o_num) := msg]> |>) in
        let* (r, s) := check_dbl time s.(q_blk) m.(o_num) msg s in
        if negb (r =? 0) then Some (dbl_result s m.(o_svid), s) else Some (1, s)
      else if m.(o_svid) =? s.(q_svid) then check m.(o_peer) =? m.(o_svid) in Some (1, event_ (BlkValidate msg) own)
      else if m.(o_svid) =? m.(o_peer) then Some (1, event_ (BlkValidate msg) own)
      else Some (-1, s)
  end.

(** A saved message waits for its block or for the validator. *)
Definition enqueue (p : ptr) (s : pool) : pool :=
  if u32 (s.(q_now) + BLOCKSEC) <=? (obj s p).(o_now) then s <| q_wait ::= fun l => l ++ [p] |> else s <| q_check ::= fun l => l ++ [p] |>.

(** [txs_insert]: [None] is a failed assertion or the end of the process when
    a file is not written. *)
Definition txs_insert (time : Z) (msg : ptr) (s : pool) : option (Z * pool) :=
  let m := obj s msg in
  check hashtype m =? MSGTYPE_MSG in
  if has_bits (nthn s.(q_last) m.(o_svid)).(n_status) SERVER_DBL then Some (0, s) else
  match s.(q_txs) !! m.(o_num) with
  | Some osg =>
      if completes s msg osg then
        if has_bits (obj s osg).(o_status) MSGSTAT_VAL && negb (bool_decide ((obj s osg).(o_sigh) = m.(o_sigh))) then let* s := bad_insert msg s in Some (0, s)
        else
          let s := missing_msgs_erase msg (set_obj osg (fun o => o <| o_path := s.(q_now) |>) (obj_update msg osg s)) in
          let* (r, s) := (if negb s.(q_do_sync) then check_dbl time s.(q_txs) m.(o_num) osg s else Some (0, s)) in
          if r <? 0 then Some (dbl_result s m.(o_svid), s)
          else
            let* (ok, s) := obj_save osg s in
            check ok in
            Some (1, enqueue osg (obj_unload s.(q_svid) osg s))
      else Some (0, obj_know msg osg s)
  | None =>
      if m.(o_len) =? header_length then
        let s := missing_msgs_insert msg (s <| q_txs ::= <[m.(o_num) := msg]> |>) in
        if s.(q_do_sync) then Some (1, s) else
        let* (r, s) := check_dbl time s.(q_txs) m.(o_num) msg s in
        if negb (r =? 0) then Some (dbl_result s m.(o_svid), s) else Some (1, s)
      else if m.(o_svid) =? s.(q_svid) then
        let s := set_obj msg (fun m => m <| o_path := s.(q_now) |>) (s <| q_txs ::= <[m.(o_num) := msg]> |>) in
        let* (ok, s) := obj_save msg s in
        check ok in
        let s := obj_unload s.(q_svid) msg s in
        let s := if has_bits (obj s msg).(o_status) MSGSTAT_BAD then s else enqueue msg s in
        check m.(o_peer) =? m.(o_svid) in Some (1, s)
      else Some (-1, s)
  end.

Definition message_insert (time : Z) (msg : ptr) (s : pool) : option (Z * pool) :=
  let t := hashtype (obj s msg) in
  if t =? MSGTYPE_MSG then txs_insert time msg s
  else if t =? MSGTYPE_CND then cnd_insert time msg s
  else if t =? MSGTYPE_BLK then blk_insert time msg s
  else if t =? MSGTYPE_DBL then dbl_insert msg s
  else Some (-1, s).

(** * Requests *)

(** The map [message_find] looks in, and whether the first byte must agree. *)
Definition find_map (s : pool) (t : Z) : option (gmap Z ptr * bool) :=
  if t =? MSGTYPE_GET then Some (s.(q_txs), true)
  else if t =? MSGTYPE_CNG then Some (s.(q_cnd), true)
  else if t =? MSGTYPE_BLG then Some (s.(q_blk), true)
  else if t =? MSGTYPE_DBG then Some (s.(q_dbl), false)
  else None.

(** [message_find] for the peer [svid]: [None] is a failed assertion. *)
Fixpoint scan_find (s : pool) (svid num : Z) (by_hash : bool) (l : list (Z * ptr)) : option (option ptr) :=
  match l with
  | [] => Some None
  | (k, p) :: l =>
      if negb (Z.land k 0xFFFFFFFFFFFFFF00 =? Z.land num 0xFFFFFFFFFFFFFF00) then Some None
      else if 4 + 64 <? (obj s p).(o_len) then
        if by_hash then
          let* h := hashval svid (obj s p) in
          if Z.land num 0xff =? h then Some (Some p) else scan_find s svid num by_hash l
        else Some (Some p)
      else scan_find s svid num by_hash l
  end.
Definition message_find (msg : mobj) (svid : Z) (s : pool) : option (option ptr) :=
  let* d := msg.(o_data) in
  match find_map s (nthz d 0) with
  | None => Some None
  | Some (msgs, by_hash) => scan_find s svid msg.(o_num) by_hash (filter (fun q => Z.land msg.(o_num) 0xFFFFFFFFFFFFFF00 <= q.1) (elems msgs))
  end.

(** The peers of a message. *)
Definition peers_of (m : mobj) : peers := {| k_know := m.(o_know); k_busy := m.(o_busy); k_sent := m.(o_sent); k_got := m.(o_got) |}.
Definition with_peers (k : peers) (m : mobj) : mobj := m <| o_know := k.(k_know) |> <| o_busy := k.(k_busy) |> <| o_sent := k.(k_sent) |> <| o_got := k.(k_got) |>.

(** A peer that is gone is forgotten by the missing messages. *)
Definition forget_peer (svid : Z) (m : mobj) : mobj := with_peers (know_sent_erase svid (peers_of m)) m.
Definition missing_sent_remove (svid : Z) (s : pool) : pool := foldl (fun s p => set_obj p (forget_peer svid) s) s (map snd (elems s.(q_missing))).

(** * The validator *)

(** [request] with the random number [rnd]: the peer asked, 0 for none. *)
Definition obj_request (time rnd : Z) (m : mobj) : Z * mobj :=
  let '(p, k) := request (has_bits m.(o_status) MSGSTAT_DAT || negb (m.(o_len) =? header_length)) time rnd (peers_of m) in (p, with_peers k m).

(** The next message of its node. *)
Definition is_next (s : pool) (p : ptr) : bool := (nthn s.(q_nodes) (obj s p).(o_svid)).(n_msid) =? u32 ((obj s p).(o_msid) - 1).

(** What the validator does with a missing message: forget it, ask for it. *)
Definition missing_forget (s : pool) (p : ptr) : bool :=
  let m := obj s p in
  if (hashtype m =? MSGTYPE_BLK) || (hashtype m =? MSGTYPE_CND) then m.(o_msid) <? u32 (s.(q_last_now) - BLOCKSEC)
  else negb s.(q_block_only) && (m.(o_msid) <? (nthn s.(q_nodes) m.(o_svid)).(n_msid)).
Definition missing_ask (time : Z) (s : pool) (p : ptr) : bool :=
  let m := obj s p in
  if (hashtype m =? MSGTYPE_BLK) || (hashtype m =? MSGTYPE_CND) then
    (u32 (m.(o_got) + MAX_MSGWAIT) <? time) &&
    (((hashtype m =? MSGTYPE_BLK) && (m.(o_msid) <? s.(q_now))) || ((hashtype m =? MSGTYPE_CND) && (m.(o_msid) <=? s.(q_now))))
  else if s.(q_block_only) then has_bits m.(o_status) MSGSTAT_VAL && is_next s p
  else (m.(o_got) <=? u32 (time - MAX_MSGWAIT)) && is_next s p.

(** A waiting message that can be validated. *)
Definition wait_ready (s : pool) (p : ptr) : bool :=
  if s.(q_block_only) then has_bits (obj s p).(o_status) MSGSTAT_VAL && is_next s p
  else ((obj s p).(o_now) <? u32 (s.(q_now) + BLOCKSEC)) && is_next s p.

Definition ask (time : Z) (rnd : ptr -> Z) (p : ptr) (s : pool) : pool :=
  let '(svid, m) := obj_request time (rnd p) (obj s p) in
  let s := set_obj p (fun _ => m) s in if svid =? 0 then s else event_ (Deliver p svid) s.

(** The validator without a message to check: it forgets and asks for missing
    messages and takes waiting ones. *)
Definition ask_missing (time : Z) (rnd : ptr -> Z) (s : pool) : pool :=
  let asked := filter (fun p => negb (missing_forget s p) && missing_ask time s p = true) (map snd (elems s.(q_missing))) in
  foldl (fun s p => ask time rnd p s) (s <| q_missing ::= filter (fun q => missing_forget s q.2 = false) |>) asked.
Definition take_waiting (s : pool) : pool :=
  let ready := filter (fun p => wait_ready s p = true) s.(q_wait) in
  s <| q_wait ::= filter (fun p => wait_ready s p = false) |> <| q_check ::= fun l => l ++ ready |>.
Definition validator_idle (time : Z) (rnd : ptr -> Z) (s : pool) : pool := take_waiting (ask_missing time rnd s).

(** The next missing message is asked for at once. *)
Definition speed_up (time num : Z) (s : pool) : pool :=
  match head (filter (fun q => u64 (num + 1) <= q.1) (elems s.(q_missing))) with
  | None => s
  | Some (_, p) => if u32 (time - MAX_MSGWAIT) <? (obj s p).(o_got) then set_obj p (fun m => m <| o_got := u32 (time - MAX_MSGWAIT) |>) s else s
  end.

(** The node of a message that was executed. *)
Definition commit_node (m : mobj) (n : node) : node := n <| n_msid := m.(o_msid) |> <| n_mtim := m.(o_now) |> <| n_msha := m.(o_sigh) |>.

(** The number of the own messages follows the network. *)
Definition raise_msid (m : mobj) (s : pool) : pool := if (m.(o_svid) =? s.(q_svid)) && (s.(q_msid) <? m.(o_msid)) then s <| q_msid := m.(o_msid) |> else s.

(** A message of an earlier block is moved to the open one. *)
Definition move_to_block (p : ptr) (s : pool) : option pool :=
  if (obj s p).(o_path) <? s.(q_now) then
    let* (m, d) := msg_move s.(q_now) (obj s p) s.(q_disk) in Some ((set_obj p (fun _ => m) s) <| q_disk := d |>)
  else Some s.

(** A message that is executed. *)
Definition committed (time : Z) (p : ptr) (s : pool) : option pool :=
  let s := set_obj p (fun m => m <| o_status ::= fun x => Z.lor x MSGSTAT_COM |>) s in
  let m := obj s p in
  let s := s <| q_nodes ::= alter (commit_node m) (Z.to_nat m.(o_svid)) |> in
  let* s := move_to_block p (speed_up time m.(o_num) (raise_msid m s)) in
  let s := obj_unload s.(q_svid) p s in
  Some (if negb s.(q_do_sync) then event_ (UpdateAll p) (event_ (UpdateCandidates p) s) else s <| q_ldc ::= fun l => l ∖ {[(obj s p).(o_num)]} |>).

Section Validator.
(** The ledger and [process_message]. *)
Context {L : Type} (process : mobj -> L -> bool * L).

(** What the validator does with a message of the queue. *)
Inductive verdict :=
  | Dropped
  | Postponed
  | Executed.
Definition judge (s : pool) (p : ptr) : verdict :=
  let m := obj s p in
  if has_bits m.(o_status) MSGSTAT_BAD then Dropped
  else if has_bits m.(o_status) MSGSTAT_COM then Dropped
  else if negb (has_bits m.(o_status) MSGSTAT_VAL) && pool_known_dbl s m.(o_svid) then Dropped
  else if m.(o_msid) <=? (nthn s.(q_nodes) m.(o_svid)).(n_msid) then Dropped
  else if negb (is_next s p) then Postponed
  else if negb (has_bits m.(o_status) MSGSTAT_VAL) && s.(q_block_only) then Postponed
  else Executed.

(** One round of [validator] after the message [prev]: the message taken, if
    any; [None] is the end of the process. *)
Definition validator (time : Z) (rnd : ptr -> Z) (prev : option ptr) (s : pool) (l : L) : option (option ptr * pool * L) :=
  let s := match prev with None => s | Some p => s <| q_busy ::= fun b => b ∖ {[p]} |> end in
  match s.(q_check) with
  | [] => Some (prev, validator_idle time rnd s, l)
  | p :: rest =>
      let s := s <| q_check := rest |> in
      if bool_decide (p ∈ s.(q_busy)) then Some (Some p, s, l)
      else
        let s := s <| q_busy ::= union {[p]} |> in
        match judge s p with
        | Dropped => Some (Some p, s, l)
        | Postponed => Some (Some p, s <| q_wait ::= fun w => w ++ [p] |>, l)
        | Executed =>
            let* (n, s) := obj_load s.(q_svid) p s in
            check negb (n =? 0) in
            let '(valid, l) := process (obj s p) l in
            if valid then let* s := committed time p s in Some (Some p, s, l)
            else
              check negb (has_bits (obj s p).(o_status) MSGSTAT_VAL) in
              let* s := bad_insert p s in Some (Some p, s, l)
        end
  end.
End Validator.
