(* ===== verification/PoolInv.v ===== *)
(** The containers of messages hold valid objects under their own keys, and
    every operation of the pool keeps it. *)

From stdpp Require Import base gmap list.
From Stdlib Require Import ZArith Lia.
From S2P Require Import Prelude Params HashTree Usertxs Accounts Servers Ledger Message MerklePath MsgTree MsgFile MsgHead Pool.

(** * Objects keep their identity *)

(** What no operation changes: number, node and hash of the header, and the mark
    of an executed message. *)
Record keeps (m m' : mobj) : Prop := {
  ks_num : m'.(o_num) = m.(o_num); ks_svid : m'.(o_svid) = m.(o_svid); ks_msid : m'.(o_msid) = m.(o_msid);
  ks_com : has_bits m.(o_status) MSGSTAT_COM = true -> has_bits m'.(o_status) MSGSTAT_COM = true
}.

#[export] Instance keeps_preorder : PreOrder keeps.
Proof. split; [now intros m|]. intros a b c [? ? ? ?] [? ? ? ?]. split; [congruence..|auto]. Qed.

Lemma has_bits_lor x y b : has_bits x b = true -> has_bits (Z.lor x y) b = true.
Proof.
  unfold has_bits. intros Hx. apply negb_true_iff, Z.eqb_neq in Hx. apply negb_true_iff, Z.eqb_neq. rewrite Z.land_lor_distr_l. intros E. apply Hx. now apply Z.lor_eq_0_iff in E.
Qed.

Lemma has_bits_clear x y b : Z.land b y = 0 -> has_bits x b = true -> has_bits (clear_bits x y) b = true.
Proof.
  unfold has_bits, clear_bits. intros Hb Hx. apply negb_true_iff, Z.eqb_neq in Hx. apply negb_true_iff, Z.eqb_neq. intros E. apply Hx. rewrite <- E.
  apply Z.bits_inj'. intros i _. rewrite !Z.land_spec, Z.ldiff_spec. pose proof (f_equal (fun z => Z.testbit z i) Hb) as Hi. cbn beta in Hi. rewrite Z.land_spec, Z.bits_0 in Hi.
  destruct (Z.testbit x i), (Z.testbit b i), (Z.testbit y i); cbn in *; congruence.
Qed.

Lemma keeps_status m f : (forall x, has_bits x MSGSTAT_COM = true -> has_bits (f x) MSGSTAT_COM = true) -> keeps m (m <| o_status ::= f |>).
Proof. intros Hf. split; try reflexivity. apply (Hf m.(o_status)). Qed.

Lemma keeps_lor m b : keeps m (m <| o_status ::= fun x => Z.lor x b |>).
Proof. apply keeps_status. intros x. apply has_bits_lor. Qed.

Lemma keeps_clear m b : Z.land MSGSTAT_COM b = 0 -> keeps m (m <| o_status ::= fun x => clear_bits x b |>).
Proof. intros Hb. apply keeps_status. intros x. now apply has_bits_clear. Qed.

Lemma save_keeps m d ok m' d' : msg_save m d = Some (ok, m', d') -> keeps m m'.
Proof.
  unfold msg_save. destruct (negb _); [intros E; injection E as <- <- <-; reflexivity|]. destruct (_ =? 0); [intros E; injection E as <- <- <-; reflexivity|].
  intros E. inv_opt. subst. apply keeps_lor.
Qed.

Lemma hash_signature_keeps m m' : hash_signature m = Some m' -> keeps m m'.
Proof. unfold hash_signature. intros E. inv_opt. destruct (_ =? MSGTYPE_DBL); injection E as <-; now split. Qed.

Lemma load_keeps who m d n m' : load who m d = Some (n, m') -> keeps m m'.
Proof.
  unfold load. set (m0 := m <| o_busy ::= _ |>). assert (K0 : keeps m m0) by now split. destruct (_ =? 0); [intros E; injection E as _ <-; exact K0|].
  destruct (_ && _); [intros E; injection E as _ <-; exact K0|]. destruct (_ !! _) as [f|]; [|intros E; injection E as _ <-; now split].
  set (m1 := m0 <| o_data := Some f |>). assert (K1 : keeps m m1) by now split. intros E. destruct (if _ =? header_length then _ else _) as [m2|] eqn:E2; [|discriminate].
  injection E as _ <-. etransitivity; [|apply keeps_lor]. etransitivity; [exact K1|]. destruct (_ =? header_length); [|injection E2 as <-; reflexivity].
  destruct (_ =? MSGTYPE_MSG); [injection E2 as <-; now split|]. apply hash_signature_keeps in E2. etransitivity; [|exact E2]. now split.
Qed.

Lemma unload_keeps who m : keeps m (unload who m).
Proof. unfold unload. repeat (destruct (_ : bool); try now split). Qed.

Lemma bad_insert_keeps m d ok m' d' : msg_bad_insert m d = Some (ok, m', d') -> keeps m m'.
Proof. unfold msg_bad_insert. intros E. inv_opt. destruct (retarget _ _ _). injection E as _ <- _. apply keeps_lor. Qed.

Lemma bad_recover_keeps m d ok m' d' : msg_bad_recover m d = Some (ok, m', d') -> keeps m m'.
Proof. unfold msg_bad_recover. intros E. inv_opt. destruct (retarget _ _ _). injection E as _ <- _. now apply keeps_clear. Qed.

Lemma move_keeps path m d m' d' : msg_move path m d = Some (m', d') -> keeps m m'.
Proof. unfold msg_move. destruct (_ || _); [intros E; injection E as <- _; reflexivity|]. intros E. inv_opt. subst. now split. Qed.

Lemma update_keeps msg osg : keeps msg (msg_update msg osg).1 /\ keeps osg (msg_update msg osg).2.
Proof. unfold msg_update. cbn [fst snd]. split; [now split|]. destruct (_ <? _); [etransitivity; [|apply keeps_lor]|]; now split. Qed.

Lemma with_peers_keeps k m : keeps m (with_peers k m).
Proof. now split. Qed.

Lemma request_keeps time rnd m : keeps m (obj_request time rnd m).2.
Proof. unfold obj_request. destruct (request _ _ _ _) as [p k]. apply with_peers_keeps. Qed.

(** * The heap *)

Definition valid (s : pool) (p : ptr) : Prop := is_Some (s.(q_heap) !! p).

(** Objects stay and keep their identity. *)
Definition extends (s s' : pool) : Prop := forall p m, s.(q_heap) !! p = Some m -> exists m', s'.(q_heap) !! p = Some m' /\ keeps m m'.

#[export] Instance extends_preorder : PreOrder extends.
Proof.
  split; [intros s p m E; now exists m|]. intros a b c H1 H2 p m E. destruct (H1 p m E) as (m1 & E1 & K1). destruct (H2 p m1 E1) as (m2 & E2 & K2).
  exists m2. split; [exact E2|]. now transitivity m1.
Qed.

Lemma extends_valid s s' p : extends s s' -> valid s p -> valid s' p.
Proof. intros Hx [m E]. destruct (Hx p m E) as (m' & E' & _). now exists m'. Qed.

Lemma obj_at s p m : s.(q_heap) !! p = Some m -> obj s p = m.
Proof. intros E. unfold obj. now apply lookup_total_correct. Qed.

Lemma valid_obj s p : valid s p -> s.(q_heap) !! p = Some (obj s p).
Proof. intros [m E]. now rewrite (obj_at _ _ _ E). Qed.

(** The identity alone: what even the end of a block, which takes back executed
    messages, does not change. *)
Record same_id (m m' : mobj) : Prop := { si_num : m'.(o_num) = m.(o_num); si_svid : m'.(o_svid) = m.(o_svid); si_msid : m'.(o_msid) = m.(o_msid) }.

#[export] Instance same_id_preorder : PreOrder same_id.
Proof. split; [now intros m|]. intros a b c [? ? ?] [? ? ?]. split; congruence. Qed.

Lemma keeps_id m m' : keeps m m' -> same_id m m'.
Proof. now intros [? ? ? _]. Qed.

(** Objects stay. *)
Definition moves (s s' : pool) : Prop := forall p m, s.(q_heap) !! p = Some m -> exists m', s'.(q_heap) !! p = Some m' /\ same_id m m'.

#[export] Instance moves_preorder : PreOrder moves.
Proof.
  split; [intros s p m E; now exists m|]. intros a b c H1 H2 p m E. destruct (H1 p m E) as (m1 & E1 & K1). destruct (H2 p m1 E1) as (m2 & E2 & K2).
  exists m2. split; [exact E2|]. now transitivity m1.
Qed.

Lemma extends_moves s s' : extends s s' -> moves s s'.
Proof. intros Hx p m E. destruct (Hx p m E) as (m' & E' & K). exists m'. split; [exact E'|now apply keeps_id]. Qed.

Lemma same_type m m' : same_id m m' -> hashtype m' = hashtype m.
Proof. intros [E _ _]. unfold hashtype. now rewrite E. Qed.

(** Properties of objects that no operation changes. *)
Class Stable (ty : mobj -> Prop) := stable m m' : same_id m m' -> ty m -> ty m'.

Definition is_type (t : Z) (m : mobj) : Prop := hashtype m = t.
(** The fields are in the range of their types and the upper bytes of the header
    are node and number. *)
Definition sane (m : mobj) : Prop := 0 <= m.(o_msid) < 2 ^ 32 /\ 0 <= m.(o_svid) < 2 ^ 16 /\ Z.shiftr m.(o_num) 16 = m.(o_msid) + 2 ^ 32 * m.(o_svid).
Definition is_kind (t : Z) (m : mobj) : Prop := hashtype m = t /\ sane m.
(** A message of transactions, or the object that stands in an elected list for a
    node with a double spend. *)
Definition is_marker (m : mobj) : Prop := hashtype m = MSGTYPE_DBL /\ m.(o_msid) = 0xFFFFFFFF.
Definition is_txs (m : mobj) : Prop := (hashtype m = MSGTYPE_MSG \/ is_marker m) /\ sane m.
Definition any_obj (m : mobj) : Prop := True.

#[export] Instance is_type_stable t : Stable (is_type t).
Proof. intros m m' K. unfold is_type. now rewrite (same_type _ _ K). Qed.
#[export] Instance sane_stable : Stable sane.
Proof. intros m m' K. unfold sane. now rewrite (si_num _ _ K), (si_msid _ _ K), (si_svid _ _ K). Qed.
#[export] Instance is_kind_stable t : Stable (is_kind t).
Proof. intros m m' K [Ht Hs]. split; [now rewrite (same_type _ _ K)|now apply (stable m)]. Qed.
#[export] Instance is_txs_stable : Stable is_txs.
Proof. intros m m' K [Ht Hs]. split; [|now apply (stable m)]. unfold is_marker. now rewrite (same_type _ _ K), (si_msid _ _ K). Qed.
#[export] Instance any_obj_stable : Stable any_obj.
Proof. now intros m m' K. Qed.

(** An entry of a map: the object exists, has the key, and a type. *)
Definition entry (s : pool) (ty : mobj -> Prop) (k : Z) (p : ptr) : Prop := exists m, s.(q_heap) !! p = Some m /\ m.(o_num) = k /\ ty m.

Lemma moves_entry s s' ty `{Stable ty} k p : moves s s' -> entry s ty k p -> entry s' ty k p.
Proof. intros Hx (m & E & Ek & Ht). destruct (Hx p m E) as (m' & E' & K). exists m'. split; [exact E'|]. rewrite (si_num _ _ K). split; [exact Ek|now apply (stable m)]. Qed.

Lemma extends_entry s s' ty `{Stable ty} k p : extends s s' -> entry s ty k p -> entry s' ty k p.
Proof. intros Hx. now apply moves_entry, extends_moves. Qed.

Lemma entry_obj s ty p : valid s p -> ty (obj s p) -> entry s ty (obj s p).(o_num) p.
Proof. intros Hv Ht. exists (obj s p). split; [now apply valid_obj|auto]. Qed.

(** A sane object. *)
Definition known (s : pool) (p : ptr) : Prop := exists m, s.(q_heap) !! p = Some m /\ sane m.

Lemma known_valid s p : known s p -> valid s p.
Proof. intros (m & E & _). now exists m. Qed.

Lemma moves_known s s' p : moves s s' -> known s p -> known s' p.
Proof. intros Hx (m & E & Hm). destruct (Hx p m E) as (m' & E' & K). exists m'. split; [exact E'|now apply (stable m)]. Qed.

Lemma extends_known s s' p : extends s s' -> known s p -> known s' p.
Proof. intros Hx. now apply moves_known, extends_moves. Qed.

Lemma entry_known s ty k p : (forall m, ty m -> sane m) -> entry s ty k p -> known s p.
Proof. intros Hty (m & E & _ & Ht). exists m. auto. Qed.

Lemma kind_known s t k p : entry s (is_kind t) k p -> known s p.
Proof. apply entry_known. now intros m []. Qed.

Lemma txs_known s k p : entry s is_txs k p -> known s p.
Proof. apply entry_known. now intros m []. Qed.

Lemma known_obj s p : known s p -> sane (obj s p).
Proof. intros (m & E & Hm). now rewrite (obj_at _ _ _ E). Qed.

(** The containers of the pool hold objects under their keys; the queues hold
    messages of transactions. *)
Record pool_ok (s : pool) : Prop := {
  ok_txs : map_Forall (entry s is_txs) s.(q_txs);
  ok_cnd : map_Forall (entry s (is_kind MSGTYPE_CND)) s.(q_cnd);
  ok_blk : map_Forall (entry s (is_kind MSGTYPE_BLK)) s.(q_blk);
  ok_dbl : map_Forall (entry s (is_type MSGTYPE_DBL)) s.(q_dbl);
  ok_missing : map_Forall (entry s any_obj) s.(q_missing);
  ok_bad : map_Forall (fun _ p => known s p) s.(q_bad);
  ok_queues : Forall (fun p => exists k, entry s is_txs k p) (s.(q_wait) ++ s.(q_check))
}.

(** The containers, apart from the heap. *)
Definition same_maps (s s' : pool) : Prop :=
  s'.(q_txs) = s.(q_txs) /\ s'.(q_cnd) = s.(q_cnd) /\ s'.(q_blk) = s.(q_blk) /\ s'.(q_dbl) = s.(q_dbl) /\ s'.(q_missing) = s.(q_missing) /\ s'.(q_bad) = s.(q_bad) /\
  s'.(q_wait) = s.(q_wait) /\ s'.(q_check) = s.(q_check).

(** What every operation but the validator does: it extends the heap, keeps the
    invariant and the nodes. *)
Record good (s s' : pool) : Prop := { gd_ext : extends s s'; gd_nodes : s'.(q_nodes) = s.(q_nodes); gd_ok : pool_ok s -> pool_ok s' }.

#[export] Instance good_preorder : PreOrder good.
Proof. split; [now intros s|]. intros a b c [E1 N1 O1] [E2 N2 O2]. split; [now transitivity b|congruence|auto]. Qed.

Lemma same_maps_ok s s' : moves s s' -> same_maps s s' -> pool_ok s -> pool_ok s'.
Proof.
  intros Hx (E1 & E2 & E3 & E4 & E5 & E6 & E7 & E8) [O1 O2 O3 O4 O5 O6 O7]. split; rewrite ?E1, ?E2, ?E3, ?E4, ?E5, ?E6, ?E7, ?E8.
  1-5: eapply map_Forall_impl; [eassumption|]; intros k p; apply moves_entry; [apply _|exact Hx].
  - eapply map_Forall_impl; [eassumption|]; intros k p; now apply moves_known.
  - eapply Forall_impl; [eassumption|]. intros p [k Hk]. exists k. apply (moves_entry s); [apply _|exact Hx|exact Hk].
Qed.

Lemma good_same s s' : extends s s' -> same_maps s s' -> s'.(q_nodes) = s.(q_nodes) -> good s s'.
Proof. intros Hx Hs Hn. split; [exact Hx|exact Hn|]. apply same_maps_ok; [now apply extends_moves|exact Hs]. Qed.

Lemma set_obj_extends p f s : (forall m, s.(q_heap) !! p = Some m -> keeps m (f m)) -> extends s (set_obj p f s).
Proof.
  intros Hf q m E. destruct (decide (p = q)) as [->|Hne].
  - exists (f m). split; [|now apply Hf]. change (q_heap (set_obj q f s)) with (alter f q s.(q_heap)). now rewrite lookup_alter_eq, E.
  - exists m. split; [|reflexivity]. change (q_heap (set_obj p f s)) with (alter f p s.(q_heap)). now rewrite lookup_alter_ne.
Qed.

Lemma good_set_obj p f s : (forall m, s.(q_heap) !! p = Some m -> keeps m (f m)) -> good s (set_obj p f s).
Proof. intros Hf. apply good_same; [now apply set_obj_extends|now repeat split|reflexivity]. Qed.

Lemma good_replace p m s : keeps (obj s p) m -> good s (set_obj p (fun _ => m) s).
Proof. intros K. apply good_set_obj. intros m0 E. now rewrite (obj_at _ _ _ E) in K. Qed.

(** Changes outside the heap and the containers. *)
Lemma good_frame s s' : s'.(q_heap) = s.(q_heap) -> same_maps s s' -> s'.(q_nodes) = s.(q_nodes) -> good s s'.
Proof. intros Eh Es En. apply good_same; [|exact Es|exact En]. intros p m E. rewrite Eh. now exists m. Qed.

Ltac good_frame := apply good_frame; [reflexivity|now repeat split|reflexivity].

Lemma good_event e s : good s (event_ e s).
Proof. good_frame. Qed.

Lemma good_disk d s : good s (s <| q_disk := d |>).
Proof. good_frame. Qed.

Lemma good_then s1 s2 s3 : good s1 s2 -> good s2 s3 -> good s1 s3.
Proof. intros. now transitivity s2. Qed.

(** * Operations on one object *)

Lemma obj_save_good p s ok s' : obj_save p s = Some (ok, s') -> good s s'.
Proof.
  unfold obj_save. intros E. destruct (msg_save _ _) as [[[b m] d]|] eqn:Es; [|discriminate]. injection E as _ <-. eapply good_then; [|apply good_disk]. apply good_replace. now apply save_keeps in Es.
Qed.

Lemma obj_load_good who p s n s' : obj_load who p s = Some (n, s') -> good s s'.
Proof. unfold obj_load. intros E. destruct (load _ _ _) as [[b m]|] eqn:Es; [|discriminate]. injection E as _ <-. apply good_replace. now apply load_keeps in Es. Qed.

Lemma obj_unload_good who p s : good s (obj_unload who p s).
Proof. apply good_set_obj. intros m _. apply unload_keeps. Qed.

Lemma alloc_good m s : good s (alloc m s).2 /\ (alloc m s).2.(q_heap) !! (alloc m s).1 = Some m.
Proof.
  unfold alloc. cbn [fst snd]. set (p := fresh (dom s.(q_heap))). assert (Hp : s.(q_heap) !! p = None) by (apply not_elem_of_dom, is_fresh). split; [|apply lookup_insert_eq].
  apply good_same; [|now repeat split|reflexivity]. intros q m0 E. exists m0. split; [|reflexivity]. change (<[p := m]> s.(q_heap) !! q = Some m0). rewrite lookup_insert_ne; [exact E|congruence].
Qed.

(** * Changes of one container *)

Lemma good_bad h p s : known s p -> good s (s <| q_bad ::= <[h := p]> |>).
Proof.
  intros Hv. split; [intros q m E; now exists m|reflexivity|]. intros [O1 O2 O3 O4 O5 O6 O7]. split; try assumption. now apply map_Forall_insert_2.
Qed.

Lemma good_bad_delete h s : good s (s <| q_bad ::= delete h |>).
Proof. split; [intros q m E; now exists m|reflexivity|]. intros [O1 O2 O3 O4 O5 O6 O7]. split; try assumption. now apply map_Forall_delete. Qed.

Lemma good_dbl k p s : entry s (is_type MSGTYPE_DBL) k p -> good s (s <| q_dbl ::= <[k := p]> |>).
Proof. intros He. split; [intros q m E; now exists m|reflexivity|]. intros [O1 O2 O3 O4 O5 O6 O7]. split; try assumption. now apply map_Forall_insert_2. Qed.

Lemma good_cnd k p s : entry s (is_kind MSGTYPE_CND) k p -> good s (s <| q_cnd ::= <[k := p]> |>).
Proof. intros He. split; [intros q m E; now exists m|reflexivity|]. intros [O1 O2 O3 O4 O5 O6 O7]. split; try assumption. now apply map_Forall_insert_2. Qed.

Lemma good_blk k p s : entry s (is_kind MSGTYPE_BLK) k p -> good s (s <| q_blk ::= <[k := p]> |>).
Proof. intros He. split; [intros q m E; now exists m|reflexivity|]. intros [O1 O2 O3 O4 O5 O6 O7]. split; try assumption. now apply map_Forall_insert_2. Qed.

Lemma good_txs k p s : entry s is_txs k p -> good s (s <| q_txs ::= <[k := p]> |>).
Proof. intros He. split; [intros q m E; now exists m|reflexivity|]. intros [O1 O2 O3 O4 O5 O6 O7]. split; try assumption. now apply map_Forall_insert_2. Qed.

Lemma missing_erase_good p s : good s (missing_msgs_erase p s).
Proof. split; [intros q m E; now exists m|reflexivity|]. intros [O1 O2 O3 O4 O5 O6 O7]. split; try assumption. now apply map_Forall_delete. Qed.

Lemma missing_insert_good p s : known s p -> good s (missing_msgs_insert p s).
Proof.
  intros Hv. unfold missing_msgs_insert. destruct (_ =? _); [reflexivity|]. split; [intros q m E; now exists m|reflexivity|]. intros [O1 O2 O3 O4 O5 O6 O7]. split; try assumption.
  apply map_Forall_insert_2; [|assumption]. exact (entry_obj s any_obj p (known_valid _ _ Hv) I).
Qed.

Lemma enqueue_good p s : known s p -> is_txs (obj s p) -> good s (enqueue p s).
Proof.
  intros Hv Ht. assert (He : exists k, entry s is_txs k p) by (eexists; apply entry_obj; [now apply known_valid|exact Ht]).
  unfold enqueue. destruct (_ <=? _); (split; [intros q m E; now exists m|reflexivity|]; intros [O1 O2 O3 O4 O5 O6 O7]; split; try assumption).
  - apply Forall_app in O7 as [Ow Oc]. apply Forall_app_2; [|exact Oc]. apply Forall_app_2; [exact Ow|]. now apply List.Forall_cons.
  - apply Forall_app in O7 as [Ow Oc]. apply Forall_app_2; [exact Ow|]. apply Forall_app_2; [exact Oc|]. now apply List.Forall_cons.
Qed.

Lemma update_good msg osg s : good s (obj_update msg osg s).
Proof.
  unfold obj_update. cbv zeta. pose proof (update_keeps (obj s msg) (obj s osg)) as [K1 K2]. assert (Es : o_status (msg_update (obj s msg) (obj s osg)).1 = o_status (obj s msg)) by reflexivity.
  destruct (msg_update (obj s msg) (obj s osg)) as [m o]. cbn [fst snd] in *. eapply good_then; [apply good_replace; exact K1|]. apply good_set_obj. intros m0 E.
  unfold set_obj in E. cbn [q_heap] in E. destruct (decide (msg = osg)) as [->|Hne].
  - assert (E' : (fun _ => m) <$> s.(q_heap) !! osg = Some m0) by (rewrite <- E; symmetry; apply lookup_alter_eq). destruct (s.(q_heap) !! osg); [|discriminate]. injection E' as <-.
    destruct K1 as [A1 A2 A3 A4], K2 as [B1 B2 B3 B4]. split; [now rewrite B1|now rewrite B2|now rewrite B3|rewrite Es; exact B4].
  - assert (E' : s.(q_heap) !! osg = Some m0) by (rewrite <- E; symmetry; now apply lookup_alter_ne). now rewrite (obj_at _ _ _ E') in K2.
Qed.

Lemma know_good msg osg s : good s (obj_know msg osg s).
Proof. apply good_set_obj. now split. Qed.

Lemma path_good p s f : good s (set_obj p (fun o => o <| o_path := f o |>) s).
Proof. apply good_set_obj. now split. Qed.

(** * Bad messages and double spends *)

Lemma good_valid s s' p : good s s' -> valid s p -> valid s' p.
Proof. intros G. apply extends_valid, G. Qed.

Lemma good_known s s' p : good s s' -> known s p -> known s' p.
Proof. intros G. apply extends_known, G. Qed.

Lemma bad_insert_good p s s' : known s p -> bad_insert p s = Some s' -> good s s'.
Proof.
  intros Hv E. unfold bad_insert in E. destruct (negb _) eqn:Hb; [|discriminate]. destruct (_ !! _) as [q|].
  - destruct (negb (has_bits (o_status (obj s p)) MSGSTAT_SAV)); [|discriminate]. cbv zeta in E. injection E as <-. set (s1 := set_obj p _ s). assert (G1 : good s s1) by (apply good_set_obj; intros m _; apply keeps_lor).
    destruct (_ && _); [|exact G1]. eapply good_then; [exact G1|]. apply good_set_obj. intros m _. now apply keeps_clear.
  - destruct (if has_bits _ _ then _ else _) as [s1|] eqn:E1; [|discriminate]. injection E as <-. assert (G1 : good s s1).
    { destruct (has_bits _ MSGSTAT_SAV).
      - destruct (msg_bad_insert _ _) as [[[b m] d]|] eqn:Em; [|discriminate]. injection E1 as <-. eapply good_then; [|apply good_disk]. apply good_replace. now apply bad_insert_keeps in Em.
      - destruct (obj_save _ _) as [[b s2]|] eqn:Em; [|discriminate]. injection E1 as <-. eapply good_then; [|eapply obj_save_good; exact Em]. apply good_set_obj. intros m _. apply keeps_lor. }
    eapply good_then; [exact G1|]. apply good_bad. now apply (good_known s).
Qed.

Lemma bad_recover_good p s s' : bad_recover p s = Some s' -> good s s'.
Proof.
  intros E. unfold bad_recover in E. set (s0 := s <| q_bad ::= _ |>) in E. assert (G0 : good s s0) by apply good_bad_delete. eapply good_then; [exact G0|]. clearbody s0. destruct (has_bits _ _).
  - destruct (msg_bad_recover _ _) as [[[b m] d]|] eqn:Em; [|discriminate]. injection E as <-. eapply good_then; [|apply good_disk]. apply good_replace. now apply bad_recover_keeps in Em.
  - set (s1 := set_obj p _ s0) in E. assert (G1 : good s0 s1) by (apply good_set_obj; intros m _; now apply keeps_clear). eapply good_then; [exact G1|]. clearbody s1.
    destruct (_ =? 0); (destruct (obj_save _ _) as [[b s3]|] eqn:Em; [|discriminate]; injection E as <-).
    + eapply good_then; [|eapply obj_save_good; exact Em]. apply path_good.
    + eapply obj_save_good; exact Em.
Qed.

Lemma double_spend_good p s : good s (double_spend p s).
Proof. unfold double_spend. destruct (_ <=? _); [reflexivity|]. eapply good_then; [|apply good_event]. good_frame. Qed.

Lemma dohash_dbl_type m : hashtype (m <| o_num := dohash_dbl m |>) = MSGTYPE_DBL.
Proof.
  unfold hashtype. change (o_num _) with (hash_num 0 MSGTYPE_DBL m.(o_msid) m.(o_svid)). unfold hash_num, MSGTYPE_DBL. change 0xff with (Z.ones 8).
  rewrite Z.land_ones, Z.shiftr_div_pow2 by lia. replace (0 + 2 ^ 8 * 0 + 2 ^ 16 * m.(o_msid) + 2 ^ 48 * m.(o_svid)) with ((m.(o_msid) + 2 ^ 32 * m.(o_svid)) * 2 ^ 8 * 2 ^ 8) by lia.
  rewrite Z.div_mul by lia. apply Z.mod_mul. lia.
Qed.

Lemma proof_good time p1 p2 s s' : create_double_spend_proof time p1 p2 s = Some s' -> good s s'.
Proof.
  intros E. unfold create_double_spend_proof in E. destruct (_ && _ && _ && _); [|discriminate]. destruct (negb _); [|discriminate].
  destruct (pool_known_dbl _ _); [injection E as <-; reflexivity|]. destruct (_ <=? _); [injection E as <-; reflexivity|].
  destruct (obj_load BANK_MAX p1 s) as [[n1 s1]|] eqn:E1; [|discriminate]. apply obj_load_good in E1. eapply good_then; [exact E1|].
  destruct (obj_load BANK_MAX p2 s1) as [[n2 s2]|] eqn:E2; [|discriminate]. apply obj_load_good in E2. eapply good_then; [exact E2|]. clear E1 E2.
  destruct (o_data (obj s2 p1)) as [d1|]; [|discriminate]. destruct (o_data (obj s2 p2)) as [d2|]; [|discriminate]. destruct (_ =? nthz d2 0); [|discriminate].
  destruct (if _ =? MSGTYPE_MSG then _ else _) as [msha|]; [|injection E as <-; eapply good_then; apply obj_unload_good].
  set (dbl0 := (message_len _ _) <| o_msid := _ |> <| o_svid := _ |> <| o_now := time |> <| o_peer := _ |>) in E. set (dbl := null_signature _) in E.
  assert (Ht : hashtype dbl = MSGTYPE_DBL) by (apply (dohash_dbl_type dbl0)). clearbody dbl. destruct (alloc_good dbl s2) as [G3 Ha]. destruct (alloc dbl s2) as [p s3]. cbn [fst snd] in G3, Ha.
  eapply good_then; [exact G3|]. set (s4 := obj_unload BANK_MAX p2 _) in E. assert (G4 : good s3 s4) by (eapply good_then; apply obj_unload_good). eapply good_then; [exact G4|].
  set (s5 := s4 <| q_dbl ::= _ |>) in E. assert (G5 : good s4 s5).
  { apply good_dbl. apply (extends_entry s3); [apply _|apply G4|]. exists dbl. auto. }
  eapply good_then; [exact G5|]. clearbody s5. eapply good_then; [apply double_spend_good|]. set (s6 := set_obj p _ _) in E.
  assert (G6 : good (double_spend p s5) s6) by apply path_good. eapply good_then; [exact G6|]. destruct (obj_save p s6) as [[b s7]|] eqn:E7; [|discriminate]. injection E as <-. eapply obj_save_good; exact E7.
Qed.

Lemma neighbour_good time q p s r s' : known s p -> check_neighbour time q p s = Some (Some (r, s')) -> good s s'.
Proof.
  intros Hv E. destruct q as [q|]; [|discriminate]. cbn in E. destruct (same_number _ _); [|discriminate]. destruct (_ && _); [|injection E as _ <-; reflexivity].
  destruct (bad_insert p s) as [s1|] eqn:E1; [|discriminate]. apply bad_insert_good in E1; [|exact Hv]. destruct (create_double_spend_proof _ _ _ _) as [s2|] eqn:E2; [|discriminate].
  injection E as _ <-. eapply good_then; [exact E1|]. eapply proof_good; exact E2.
Qed.

Lemma check_dbl_good time msgs k p s r s' : known s p -> check_dbl time msgs k p s = Some (r, s') -> good s s'.
Proof.
  intros Hv E. unfold check_dbl in E. destruct (negb _); [|discriminate]. destruct (check_neighbour time (prev_of k _) p s) as [[[r1 s1]|]|] eqn:E1; [|..]; try discriminate.
  - injection E as _ <-. now apply neighbour_good in E1.
  - destruct (check_neighbour time (next_of k _) p s) as [[[r1 s1]|]|] eqn:E2; try discriminate; injection E as _ <-; [now apply neighbour_good in E2|reflexivity].
Qed.

(** * Insertion *)

Lemma entry_valid s ty k p : entry s ty k p -> valid s p.
Proof. intros (m & E & _). now exists m. Qed.

Lemma good_chain s1 s2 s3 p : good s1 s2 -> known s1 p -> (known s2 p -> good s2 s3) -> good s1 s3.
Proof. intros G Hv Hg. eapply good_then; [exact G|]. apply Hg. now apply (good_known s1). Qed.

(** Objects after good operations. *)
Lemma good_stable ty `{Stable ty} s s' p : good s s' -> known s p -> ty (obj s p) -> ty (obj s' p).
Proof.
  intros [Hx _ _] Hv. destruct (Hx p _ (valid_obj _ _ (known_valid _ _ Hv))) as (m' & E & K). rewrite (obj_at _ _ _ E). now apply stable, keeps_id.
Qed.

Lemma dbl_insert_good msg s r s' : pool_ok s -> known s msg -> dbl_insert msg s = Some (r, s') -> good s s'.
Proof.
  intros Ok Hv E. unfold dbl_insert in E. destruct (Z.eqb_spec (hashtype (obj s msg)) MSGTYPE_DBL) as [Ht|]; [|discriminate]. destruct (q_dbl s !! _) as [osg|] eqn:Eo.
  - destruct (completes _ _ _); [|injection E as _ <-; apply know_good]. destruct (_ <=? _); [injection E as _ <-; apply missing_erase_good|].
    set (s1 := set_obj osg _ _) in E. assert (G1 : good s s1) by (eapply good_then; [apply update_good|apply path_good]). eapply good_then; [exact G1|]. clearbody s1.
    destruct (obj_save osg s1) as [[ok s2]|] eqn:E2; [|discriminate]. apply obj_save_good in E2. eapply good_then; [exact E2|]. destruct ok; [|discriminate]. injection E as _ <-.
    eapply good_then; [apply missing_erase_good|]. eapply good_then; [|apply obj_unload_good]. destruct (pool_known_dbl _ _); [reflexivity|apply double_spend_good].
  - destruct (_ =? header_length); injection E as _ <-; [|reflexivity]. set (s1 := s <| q_dbl ::= _ |>).
    assert (G1 : good s s1) by (apply good_dbl, entry_obj; [exact (known_valid _ _ Hv)|exact Ht]). eapply (good_chain _ _ _ msg G1 Hv). apply missing_insert_good.
Qed.

(** A message that was announced is completed, or announced again. *)
Lemma complete_good msg osg s f : good s (set_obj osg (fun o => o <| o_path := f o |>) (obj_update msg osg s)).
Proof. eapply good_then; [apply update_good|apply path_good]. Qed.

(** The checks of a message that is announced and of one that is completed. *)
Lemma announce_good time msgs k msg s c r s' : known s msg ->
  (let* (r, s) := check_dbl time msgs k msg (missing_msgs_insert msg s) in if negb (r =? 0) then Some (dbl_result s c, s) else Some (1, s)) = Some (r, s') -> good s s'.
Proof.
  intros Hv E. eapply (good_chain _ _ _ msg (missing_insert_good _ _ Hv) Hv). intros Hv2.
  destruct (check_dbl _ _ _ _ _) as [[c2 s2]|] eqn:E2; [|discriminate]. apply check_dbl_good in E2; [|exact Hv2]. destruct (negb _); injection E as _ <-; exact E2.
Qed.

Lemma completed_good time msgs k msg osg e s c r s' : known s osg ->
  (let* (r, s) := check_dbl time msgs k osg (missing_msgs_erase msg s) in if r <? 0 then Some (dbl_result s c, s) else Some (1, event_ e s)) = Some (r, s') -> good s s'.
Proof.
  intros Ho E. eapply (good_chain _ _ _ osg (missing_erase_good msg s) Ho). intros Ho2.
  destruct (check_dbl _ _ _ _ _) as [[c2 s2]|] eqn:E2; [|discriminate]. apply check_dbl_good in E2; [|exact Ho2]. eapply good_then; [exact E2|].
  destruct (c2 <? 0); injection E as _ <-; [reflexivity|apply good_event].
Qed.

Lemma cnd_insert_good time msg s r s' : pool_ok s -> known s msg -> cnd_insert time msg s = Some (r, s') -> good s s'.
Proof.
  intros Ok Hv E. unfold cnd_insert in E. destruct (Z.eqb_spec (hashtype (obj s msg)) MSGTYPE_CND) as [Ht|]; [|discriminate].
  assert (Gi : good s (s <| q_cnd ::= <[o_num (obj s msg) := msg]> |>)) by (apply good_cnd, entry_obj; [exact (known_valid _ _ Hv)|exact (conj Ht (known_obj _ _ Hv))]). destruct (q_cnd s !! _) as [osg|] eqn:Eo.
  - pose proof (kind_known _ _ _ _ (ok_cnd _ Ok _ _ Eo)) as Ho. destruct (completes _ _ _); [|injection E as _ <-; apply know_good].
    set (s1 := set_obj osg _ _) in E. assert (G1 : good s s1) by apply complete_good. destruct (_ <? _); [injection E as _ <-; exact G1|].
    eapply (good_chain _ _ _ osg G1 Ho). clear G1. clearbody s1. intros Ho1. now apply completed_good in E.
  - destruct (_ =? header_length).
    + eapply (good_chain _ _ _ msg Gi Hv). intros Hv1. now apply announce_good in E.
    + destruct (_ =? q_svid s); [|injection E as _ <-; reflexivity]. destruct (_ =? _); [|discriminate]. injection E as _ <-.
      eapply good_then; [exact Gi|]. eapply good_then; [|apply good_event]. apply path_good.
Qed.

Lemma blk_insert_good time msg s r s' : pool_ok s -> known s msg -> blk_insert time msg s = Some (r, s') -> good s s'.
Proof.
  intros Ok Hv E. unfold blk_insert in E. destruct (Z.eqb_spec (hashtype (obj s msg)) MSGTYPE_BLK) as [Ht|]; [|discriminate].
  assert (Gi : good s (s <| q_blk ::= <[o_num (obj s msg) := msg]> |>)) by (apply good_blk, entry_obj; [exact (known_valid _ _ Hv)|exact (conj Ht (known_obj _ _ Hv))]). destruct (q_blk s !! _) as [osg|] eqn:Eo.
  - pose proof (kind_known _ _ _ _ (ok_blk _ Ok _ _ Eo)) as Ho. destruct (completes _ _ _); [|injection E as _ <-; apply know_good].
    set (s1 := set_obj osg _ _) in E. assert (G1 : good s s1) by apply complete_good.
    eapply (good_chain _ _ _ osg G1 Ho). clear G1. clearbody s1. intros Ho1. now apply completed_good in E.
  - destruct (_ =? header_length).
    + eapply (good_chain _ _ _ msg Gi Hv). intros Hv1. now apply announce_good in E.
    + assert (Go : good s (event_ (BlkValidate msg) (set_obj msg (fun m => m <| o_path := m.(o_msid) |>) (s <| q_blk ::= <[o_num (obj s msg) := msg]> |>)))).
      { eapply good_then; [exact Gi|]. eapply good_then; [|apply good_event]. apply path_good. }
      destruct (_ =? q_svid s); [destruct (_ =? _); [|discriminate]; injection E as _ <-; exact Go|]. destruct (_ =? _); injection E as _ <-; [exact Go|reflexivity].
Qed.

Lemma txs_insert_good time msg s r s' : pool_ok s -> known s msg -> txs_insert time msg s = Some (r, s') -> good s s'.
Proof.
  intros Ok Hv E. pose proof (known_obj _ _ Hv) as Hm. unfold txs_insert in E. destruct (Z.eqb_spec (hashtype (obj s msg)) MSGTYPE_MSG) as [Ht|]; [|discriminate]. destruct (has_bits _ SERVER_DBL); [injection E as _ <-; reflexivity|].
  assert (Gi : good s (s <| q_txs ::= <[o_num (obj s msg) := msg]> |>)) by (apply good_txs, entry_obj; [exact (known_valid _ _ Hv)|exact (conj (or_introl Ht) Hm)]). destruct (q_txs s !! _) as [osg|] eqn:Eo.
  - pose proof (ok_txs _ Ok _ _ Eo) as He. pose proof (txs_known _ _ _ He) as Ho. destruct He as (mo & Emo & _ & Hto). destruct (completes _ _ _); [|injection E as _ <-; apply know_good].
    destruct (_ && _); [destruct (bad_insert msg s) as [s1|] eqn:E1; [|discriminate]; injection E as _ <-; now apply bad_insert_good in E1|].
    set (s1 := missing_msgs_erase msg _) in E. assert (G1 : good s s1) by (eapply good_then; [apply complete_good|apply missing_erase_good]).
    assert (Ht1 : is_txs (obj s1 osg)) by (apply (good_stable _ _ _ _ G1 Ho); now rewrite (obj_at _ _ _ Emo)).
    eapply (good_chain _ _ _ osg G1 Ho). clear G1. clearbody s1. intros Ho1.
    destruct (if negb _ then _ else _) as [[c s2]|] eqn:E2; [|discriminate]. assert (G2 : good s1 s2) by (destruct (negb _); [now apply check_dbl_good in E2|injection E2 as _ <-; reflexivity]).
    eapply (good_chain _ _ _ osg G2 Ho1). intros Ho2. destruct (c <? 0); [injection E as _ <-; reflexivity|]. destruct (obj_save osg s2) as [[ok s3]|] eqn:E3; [|discriminate]. destruct ok; [|discriminate].
    injection E as _ <-. apply obj_save_good in E3. eapply (good_chain _ _ _ osg E3 Ho2). intros Ho3. eapply (good_chain _ _ _ osg (obj_unload_good _ _ _) Ho3). intros Ho4.
    apply enqueue_good; [exact Ho4|]. apply (good_stable _ _ _ _ (obj_unload_good _ _ _) Ho3), (good_stable _ _ _ _ E3 Ho2), (good_stable _ _ _ _ G2 Ho1), Ht1.
  - destruct (_ =? header_length).
    + eapply (good_chain _ _ _ msg Gi Hv). intros Hv1. destruct (q_do_sync _); [injection E as _ <-; now apply missing_insert_good|]. now apply announce_good in E.
    + destruct (_ =? q_svid s); [|injection E as _ <-; reflexivity]. set (s1 := set_obj msg _ _) in E.
      assert (G1 : good s s1) by (eapply good_then; [exact Gi|apply path_good]). pose proof (good_stable is_txs _ _ _ G1 Hv (conj (or_introl Ht) Hm)) as Ht1. eapply (good_chain _ _ _ msg G1 Hv). clear G1. clearbody s1. intros Hv1.
      destruct (obj_save msg s1) as [[ok s2]|] eqn:E2; [|discriminate]. destruct ok; [|discriminate]. destruct (_ =? _) in E; [|discriminate]. injection E as _ <-.
      apply obj_save_good in E2. eapply (good_chain _ _ _ msg E2 Hv1). intros Hv2. eapply (good_chain _ _ _ msg (obj_unload_good _ _ _) Hv2). intros Hv3.
      destruct (has_bits _ _); [reflexivity|]. apply enqueue_good; [exact Hv3|]. apply (good_stable _ _ _ _ (obj_unload_good _ _ _) Hv2), (good_stable _ _ _ _ E2 Hv1), Ht1.
Qed.

Lemma message_insert_good time msg s r s' : pool_ok s -> known s msg -> message_insert time msg s = Some (r, s') -> good s s'.
Proof.
  intros Ok Hv E. unfold message_insert in E. destruct (_ =? MSGTYPE_MSG); [now apply txs_insert_good in E|]. destruct (_ =? MSGTYPE_CND); [now apply cnd_insert_good in E|].
  destruct (_ =? MSGTYPE_BLK); [now apply blk_insert_good in E|]. destruct (_ =? MSGTYPE_DBL); [now apply dbl_insert_good in E|]. injection E as _ <-. reflexivity.
Qed.
