(* ===== verification/PoolProps.v ===== *)
(** Theorems on the pool of messages: the containers stay consistent, the
    messages of a node are executed in order and once each, a message that was
    announced is stored, a double spend is found and proved, and a case in which
    it is not. *)

From stdpp Require Import base gmap list.
From Stdlib Require Import ZArith Lia.
From S2P Require Import Prelude Params HashTree Usertxs Accounts Servers Ledger Demo Message MerklePath MsgTree MsgFile MsgFileProps MsgHead MsgHeadProps Pool PoolInv.

(** * The validator *)

Lemma ask_good time rnd p s : good s (ask time rnd p s).
Proof.
  unfold ask. pose proof (request_keeps time (rnd p) (obj s p)) as K. destruct (obj_request _ _ _) as [svid m]. cbn [snd] in K. pose proof (good_replace p m s K) as G. destruct (_ =? 0); [exact G|].
  eapply good_then; [exact G|apply good_event].
Qed.

Lemma asks_good time rnd l s : good s (foldl (fun s p => ask time rnd p s) s l).
Proof. revert s; induction l as [|p l IH]; intros s; cbn; [reflexivity|]. eapply good_then; [apply ask_good|apply IH]. Qed.

Lemma missing_sent_remove_good svid s : good s (missing_sent_remove svid s).
Proof.
  unfold missing_sent_remove. generalize (map snd (elems s.(q_missing))) as l. intros l. revert s; induction l as [|p l IH]; intros s; cbn; [reflexivity|].
  eapply good_then; [|apply IH]. apply good_set_obj. intros m _. apply with_peers_keeps.
Qed.

Lemma ask_missing_good time rnd s : good s (ask_missing time rnd s).
Proof.
  unfold ask_missing. eapply good_then; [|apply asks_good]. split; [intros q m E; now exists m|reflexivity|]. intros [O1 O2 O3 O4 O5 O6 O7]. split; try assumption.
  intros k p Hk. apply map_lookup_filter_Some in Hk as [Hk _]. exact (O5 k p Hk).
Qed.

Lemma take_waiting_good s : good s (take_waiting s).
Proof.
  split; [intros q m E; now exists m|reflexivity|]. intros [O1 O2 O3 O4 O5 O6 O7]. split; try assumption. apply Forall_app in O7 as [Ow Oc].
  assert (Hf : forall b, Forall (fun p => exists k, entry s is_txs k p) (filter (fun p => wait_ready s p = b) s.(q_wait))).
  { intros b. apply Forall_forall. intros p Hp. apply list_elem_of_filter in Hp as [_ Hp]. rewrite Forall_forall in Ow. exact (Ow p Hp). }
  apply Forall_app_2; [apply Hf|]. apply Forall_app_2; [exact Oc|apply Hf].
Qed.

Lemma idle_good time rnd s : good s (validator_idle time rnd s).
Proof. eapply good_then; [apply ask_missing_good|apply take_waiting_good]. Qed.

Lemma speed_up_good time num s : good s (speed_up time num s).
Proof. unfold speed_up. destruct (head _) as [[k p]|]; [|reflexivity]. destruct (_ <? _); [|reflexivity]. apply good_set_obj. now split. Qed.

Lemma raise_msid_good m s : good s (raise_msid m s).
Proof. unfold raise_msid. destruct (_ && _); [good_frame|reflexivity]. Qed.

Lemma move_to_block_good p s s' : move_to_block p s = Some s' -> good s s'.
Proof.
  unfold move_to_block. destruct (_ <? _); [|intros E; injection E as <-; reflexivity]. destruct (msg_move _ _ _) as [[m d]|] eqn:Em; [|discriminate]. intros E; injection E as <-.
  eapply good_then; [|apply good_disk]. apply good_replace. now apply move_keeps in Em.
Qed.

(** A message that is executed: it is the next of its node. *)
Definition advances (s s' : pool) (m : mobj) : Prop :=
  (exists p m', s'.(q_heap) !! p = Some m' /\ keeps m m') /\ has_bits m.(o_status) MSGSTAT_COM = true /\
  0 <= m.(o_svid) /\ (nthn s.(q_nodes) m.(o_svid)).(n_msid) + 1 = m.(o_msid) /\ s'.(q_nodes) = alter (commit_node m) (Z.to_nat m.(o_svid)) s.(q_nodes).

Record vgood (s s' : pool) : Prop := {
  vg_ext : extends s s'; vg_ok : pool_ok s -> pool_ok s';
  vg_nodes : s'.(q_nodes) = s.(q_nodes) \/ exists m, advances s s' m
}.

Lemma good_vgood s s' : good s s' -> vgood s s'.
Proof. intros [G1 G2 G3]. split; [exact G1|exact G3|now left]. Qed.

Lemma vgood_before s1 s2 s3 : good s1 s2 -> vgood s2 s3 -> vgood s1 s3.
Proof. intros [E1 N1 O1] [E2 O2 N2]. split; [now transitivity s2|auto|]. rewrite <- N1. destruct N2 as [N2|[m (A & B & S & C & D)]]; [now left|right]. exists m. rewrite N1 in C, D. now repeat split. Qed.

Section Run.
Context {L : Type} (process : mobj -> L -> bool * L).

Lemma committed_vgood time p s s' : valid s p -> 0 <= (obj s p).(o_svid) -> (nthn s.(q_nodes) (obj s p).(o_svid)).(n_msid) + 1 = (obj s p).(o_msid) -> committed time p s = Some s' -> vgood s s'.
Proof.
  intros Hv Hsv Hn E. unfold committed in E. set (s1 := set_obj p _ s) in E. assert (G1 : good s s1) by (apply good_set_obj; intros m _; apply keeps_lor).
  assert (H1 : s1.(q_heap) !! p = Some ((obj s p) <| o_status ::= fun x => Z.lor x MSGSTAT_COM |>)) by (etransitivity; [apply lookup_alter_eq|]; now rewrite (valid_obj _ _ Hv)).
  rewrite (obj_at _ _ _ H1) in E. set (m := (obj s p) <| o_status ::= _ |>) in *.
  set (s2 := s1 <| q_nodes ::= _ |>) in E. set (s4 := speed_up _ _ _) in E.
  assert (G34 : good s2 s4) by (eapply (good_then _ (raise_msid m s2)); [apply raise_msid_good|apply speed_up_good]).
  destruct (move_to_block p s4) as [s5|] eqn:E5; [|discriminate]. apply move_to_block_good in E5 as G45.
  assert (G : good s2 s').
  { eapply good_then; [exact G34|]. eapply good_then; [exact G45|]. injection E as <-. eapply good_then; [apply (obj_unload_good s5.(q_svid) p)|].
    destruct (negb _); [eapply good_then; apply good_event|good_frame]. }
  assert (E12 : extends s1 s2) by (intros q x Hq; now exists x). split.
  - transitivity s1; [apply G1|]. transitivity s2; [exact E12|apply G].
  - intros Ok. apply G. apply (same_maps_ok s1); [now apply extends_moves|now repeat split|now apply G1].
  - right. exists m. split; [|split; [|split; [exact Hsv|split; [exact Hn|]]]].
    + destruct (gd_ext _ _ G p m H1) as (m' & E' & K). now exists p, m'.
    + exact (has_bits_set (obj s p).(o_status) MSGSTAT_COM ltac:(discriminate)).
    + exact (gd_nodes _ _ G).
Qed.

Lemma judged_next s p : sane (obj s p) -> judge s p = Executed -> (nthn s.(q_nodes) (obj s p).(o_svid)).(n_msid) + 1 = (obj s p).(o_msid).
Proof.
  intros [Hm _] E. unfold judge in E. destruct (has_bits _ MSGSTAT_BAD); [discriminate|]. destruct (has_bits _ MSGSTAT_COM); [discriminate|]. destruct (_ && _); [discriminate|].
  destruct (Z.leb_spec (o_msid (obj s p)) (n_msid (nthn (q_nodes s) (o_svid (obj s p))))) as [|Hlt]; [discriminate|]. destruct (is_next s p) eqn:En; [|discriminate].
  unfold is_next in En. apply Z.eqb_eq in En. pose proof (Z.mod_pos_bound (o_msid (obj s p) - 1) (2 ^ 32) ltac:(lia)). unfold u32 in En. rewrite En in Hlt |- *. rewrite Z.mod_small by lia. lia.
Qed.

Lemma validator_vgood time rnd prev s l prev' s' l' : pool_ok s -> validator process time rnd prev s l = Some (prev', s', l') -> vgood s s'.
Proof.
  intros Ok E. unfold validator in E. set (s0 := match prev with None => s | Some _ => _ end) in E. assert (G0 : good s s0) by (unfold s0; destruct prev; [good_frame|reflexivity]).
  eapply vgood_before; [exact G0|]. assert (Ok0 := gd_ok _ _ G0 Ok). clearbody s0. destruct (q_check s0) as [|p rest] eqn:Ec; [injection E as _ <- _; apply good_vgood, idle_good|].
  pose proof (ok_queues _ Ok0) as Oq. rewrite Ec in Oq. apply Forall_app in Oq as [Ow Oc]. apply List.Forall_cons_iff in Oc as [[k Hp] Oc].
  set (s1 := s0 <| q_check := rest |>) in E. assert (G1 : good s0 s1).
  { split; [intros q m Eq; now exists m|reflexivity|]. intros [O1 O2 O3 O4 O5 O6 O7]. split; try assumption. now apply Forall_app_2. }
  eapply vgood_before; [exact G1|]. destruct (bool_decide _); [injection E as _ <- _; apply good_vgood; reflexivity|].
  set (s2 := s1 <| q_busy ::= _ |>) in E. assert (G2 : good s1 s2) by good_frame. eapply vgood_before; [exact G2|].
  assert (Hp2 : entry s2 is_txs k p) by exact Hp. clearbody s2. clear s1 G1 G2. pose proof (entry_valid _ _ _ _ Hp2) as Hv. destruct Hp2 as (m & Em & _ & Hm). rewrite <- (obj_at _ _ _ Em) in Hm.
  destruct (judge s2 p) eqn:Ej; [injection E as _ <- _; apply good_vgood; reflexivity|..].
  - injection E as _ <- _. apply good_vgood. split; [intros q m0 Eq; now exists m0|reflexivity|]. intros [O1 O2 O3 O4 O5 O6 O7]. split; try assumption.
    apply Forall_app in O7 as [Ow' Oc']. apply Forall_app_2; [|exact Oc']. apply Forall_app_2; [exact Ow'|]. apply List.Forall_cons; [|apply List.Forall_nil]. exists (o_num (obj s2 p)). exact (entry_obj s2 is_txs p Hv Hm).
  - pose proof (judged_next s2 p (proj2 Hm) Ej) as Hn. destruct (obj_load _ p s2) as [[n s3]|] eqn:El; [|discriminate]. apply obj_load_good in El. eapply vgood_before; [exact El|].
    destruct (negb _); [|discriminate]. destruct (process _ l) as [[] l2].
    + destruct (committed _ _ _) as [s4|] eqn:E4; [|discriminate]. injection E as _ <- _. destruct (gd_ext _ _ El p _ (valid_obj _ _ Hv)) as (m3 & E3 & K3).
      apply committed_vgood in E4; [exact E4|now apply (good_valid s2)|rewrite (obj_at _ _ _ E3), (ks_svid _ _ K3); apply (proj2 Hm)|].
      rewrite (obj_at _ _ _ E3), (ks_svid _ _ K3), (ks_msid _ _ K3), (gd_nodes _ _ El). exact Hn.
    + destruct (negb _); [|discriminate]. destruct (bad_insert p s3) as [s4|] eqn:E4; [|discriminate]. injection E as _ <- _. apply good_vgood. apply bad_insert_good in E4; [exact E4|apply (good_known s2); [exact El|]]. exists (obj s2 p). split; [now apply valid_obj|apply (proj2 Hm)].
Qed.

(** * Runs *)

(** The node: the pool, the message of the validator and the ledger.  A step
    stores a new message, sets a new one aside, recovers a bad one, forgets a
    peer, or is a round of the validator: what happens within a block.  Runs over
    the ends of blocks are those of [node_step] in [PoolBlocks]. *)
Abbreviation state := (pool * option ptr * L)%type.

Inductive pool_step : state -> state -> Prop :=
  | step_insert m time r s s' v l : sane m -> message_insert time (alloc m s).1 (alloc m s).2 = Some (r, s') -> pool_step (s, v, l) (s', v, l)
  | step_bad m s s' v l : sane m -> bad_insert (alloc m s).1 (alloc m s).2 = Some s' -> pool_step (s, v, l) (s', v, l)
  | step_recover p s s' v l : bad_recover p s = Some s' -> pool_step (s, v, l) (s', v, l)
  | step_gone svid s v l : pool_step (s, v, l) (missing_sent_remove svid s, v, l)
  | step_validate time rnd s v l s' v' l' : validator process time rnd v s l = Some (v', s', l') -> pool_step (s, v, l) (s', v', l').

Lemma step_vgood a b : pool_step a b -> pool_ok a.1.1 -> vgood a.1.1 b.1.1.
Proof.
  intros Hst. destruct Hst as [m time r s s' v l Hm E|m s s' v l Hm E|p s s' v l E|svid s v l|time rnd s v l s' v' l' E]; cbn [fst]; intros Ok.
  - destruct (alloc_good m s) as [G Ha]. destruct (alloc m s) as [p s1]. cbn [fst snd] in *. eapply vgood_before; [exact G|]. apply good_vgood.
    apply (message_insert_good time p s1 r); [now apply G|now exists m|exact E].
  - destruct (alloc_good m s) as [G Ha]. destruct (alloc m s) as [p s1]. cbn [fst snd] in *. eapply vgood_before; [exact G|]. apply good_vgood. apply (bad_insert_good p); [now exists m|exact E].
  - now apply good_vgood, (bad_recover_good p).
  - apply good_vgood, missing_sent_remove_good.
  - exact (validator_vgood time rnd v s l v' s' l' Ok E).
Qed.

Lemma run_ok a b : rtc pool_step a b -> pool_ok a.1.1 -> pool_ok b.1.1 /\ extends a.1.1 b.1.1.
Proof.
  induction 1 as [a|a b c Hs _ IH]; intros Ok; [split; [exact Ok|reflexivity]|]. destruct (step_vgood _ _ Hs Ok) as [E1 O1 _]. destruct (IH (O1 Ok)) as [O2 E2]. split; [exact O2|now transitivity b.1.1].
Qed.

(** The last number of a node, and an executed message with a number. *)
Definition number_of (s : pool) (svid : Z) : Z := (nthn s.(q_nodes) svid).(n_msid).
Definition executed (s : pool) (svid n : Z) : Prop :=
  exists p m, s.(q_heap) !! p = Some m /\ m.(o_svid) = svid /\ m.(o_msid) = n /\ has_bits m.(o_status) MSGSTAT_COM = true.

Lemma executed_extends s s' svid n : extends s s' -> executed s svid n -> executed s' svid n.
Proof. intros Hx (p & m & E & E1 & E2 & E3). destruct (Hx p m E) as (m' & E' & K). exists p, m'. rewrite (ks_svid _ _ K), (ks_msid _ _ K). pose proof (ks_com _ _ K). auto. Qed.

Lemma vgood_number s s' svid : 0 <= svid -> vgood s s' ->
  number_of s' svid = number_of s svid \/ (number_of s' svid = number_of s svid + 1 /\ executed s' svid (number_of s' svid)).
Proof.
  intros Hs [_ _ [E|(m & (p & m' & Em & K) & Hc & Hsv & Hn & E)]]; unfold number_of; [left; now rewrite E|]. rewrite E. unfold nthn in *.
  rewrite list_lookup_total_alter. destruct (decide _) as [[Ei Hl]|Hne]; [right|now left]. apply Z2Nat.inj in Ei; [|exact Hsv|exact Hs]. subst svid.
  change (n_msid (commit_node m _)) with m.(o_msid). split; [now symmetry|]. exists p, m'. pose proof (ks_com _ _ K Hc). now rewrite (ks_svid _ _ K), (ks_msid _ _ K).
Qed.

(** C13: over every run of the pool within a block (until the end of the block
    merges the elected list and may take messages back), the number of a node
    never goes down and grows by one at a time: for each number it passed there
    is an executed message of the node with this number. *)
Theorem executed_in_order a b svid : 0 <= svid -> rtc pool_step a b -> pool_ok a.1.1 ->
  number_of a.1.1 svid <= number_of b.1.1 svid /\ forall n, number_of a.1.1 svid < n <= number_of b.1.1 svid -> executed b.1.1 svid n.
Proof.
  intros Hs Hr. induction Hr as [a|a b c Hab Hbc IH]; intros Ok; [split; [lia|intros n Hn; lia]|]. pose proof (step_vgood _ _ Hab Ok) as V. destruct (IH (vg_ok _ _ V Ok)) as [H1 H2].
  destruct (run_ok _ _ Hbc (vg_ok _ _ V Ok)) as [_ Hx]. destruct (vgood_number _ _ svid Hs V) as [E|[E Hn]]; rewrite E in *.
  - split; [exact H1|exact H2].
  - split; [lia|]. intros n Hlt. destruct (decide (n = number_of a.1.1 svid + 1)) as [->|Hne]; [|apply H2; lia]. apply (executed_extends b.1.1); [exact Hx|exact Hn].
Qed.
End Run.

(** * Storing a message *)

Lemma elem_of_entries (msgs : gmap Z ptr) q : q ∈ elems msgs <-> msgs !! q.1 = Some q.2.
Proof. destruct q as [k p]. apply elem_of_elems. Qed.

Lemma prev_of_entry k (msgs : gmap Z ptr) p : prev_of k (elems msgs) = Some p -> exists k', k' < k /\ msgs !! k' = Some p.
Proof.
  unfold prev_of. destruct (last _) as [[k' p']|] eqn:E; [|discriminate]. cbn. intros Ep. injection Ep as <-. apply last_Some_elem_of, list_elem_of_filter in E as [Hk He].
  exists k'. split; [exact Hk|]. now apply (elem_of_entries msgs (k', p')).
Qed.

Lemma next_of_entry k (msgs : gmap Z ptr) p : next_of k (elems msgs) = Some p -> exists k', k < k' /\ msgs !! k' = Some p.
Proof.
  unfold next_of. destruct (head _) as [[k' p']|] eqn:E; [|discriminate]. cbn. intros Ep. injection Ep as <-.
  assert (He : (k', p') ∈ filter (fun q => k < q.1) (elems msgs)) by (apply head_Some_elem_of in E; exact E). apply list_elem_of_filter in He as [Hk He].
  exists k'. split; [exact Hk|]. now apply (elem_of_entries msgs (k', p')).
Qed.

(** No other message of the map has this number. *)
Definition alone (msgs : gmap Z ptr) (k : Z) : Prop :=
  forall k' p, msgs !! k' = Some p -> k' <> k -> Z.land k' 0xFFFFFFFFFFFF0000 <> Z.land k 0xFFFFFFFFFFFF0000.

Lemma check_dbl_alone time k p s : pool_ok s -> s.(q_txs) !! k = Some p -> alone s.(q_txs) k -> (obj s p).(o_data) <> None -> check_dbl time s.(q_txs) k p s = Some (0, s).
Proof.
  intros Ok Hp Ha Hd. unfold check_dbl. rewrite bool_decide_eq_false_2 by exact Hd. cbn [negb].
  assert (Hk : o_num (obj s p) = k) by (destruct (ok_txs _ Ok _ _ Hp) as (m & E & Em & _); now rewrite (obj_at _ _ _ E)).
  assert (Hn : forall k' q, s.(q_txs) !! k' = Some q -> k' <> k -> check_neighbour time (Some q) p s = Some None).
  { intros k' q Hq Hne. destruct (ok_txs _ Ok _ _ Hq) as (m & E & Em & _). cbn. unfold same_number. rewrite (obj_at _ _ _ E), Em, Hk. now rewrite (proj2 (Z.eqb_neq _ _) (Ha _ _ Hq Hne)). }
  destruct (prev_of k _) as [q|] eqn:Eq; [apply prev_of_entry in Eq as (k1 & H1 & E1); rewrite (Hn k1 q E1) by lia|];
    (destruct (next_of k _) as [q2|] eqn:Eq2; [apply next_of_entry in Eq2 as (k2 & H2 & E2); rewrite (Hn k2 q2 E2) by lia|]); reflexivity.
Qed.

Lemma set_obj_at p f s : valid s p -> obj (set_obj p f s) p = f (obj s p).
Proof. intros Hv. apply obj_at. etransitivity; [apply lookup_alter_eq|]. now rewrite (valid_obj _ _ Hv). Qed.

Lemma update_at msg osg s : valid s osg -> obj (obj_update msg osg s) osg = (msg_update (obj s msg) (obj s osg)).2.
Proof.
  intros Hv. unfold obj_update. cbv zeta. pose proof (good_replace msg (msg_update (obj s msg) (obj s osg)).1 s (proj1 (update_keeps _ _))) as G.
  generalize dependent (msg_update (obj s msg) (obj s osg)). intros [m o] G. exact (set_obj_at osg (fun _ => o) _ (good_valid _ _ _ G Hv)).
Qed.

(** An announced message has the type of the one that completes it. *)
Lemma key_type s msg osg t : pool_ok s -> s.(q_txs) !! (obj s msg).(o_num) = Some osg -> hashtype (obj s msg) = t -> hashtype (obj s osg) = t.
Proof. intros Ok E Ht. destruct (ok_txs _ Ok _ _ E) as (m & Em & Ek & _). rewrite (obj_at _ _ _ Em), <- Ht. unfold hashtype. now rewrite Ek. Qed.

Section Store.
Context `{Sha256}.

(** A full message of transactions arrives for one that was announced, and no
    other message of its node has the number. *)
Record arriving (s : pool) (msg osg : ptr) (svid msid : Z) (data sigh file : list Z) : Prop := {
  ar_parsed : exists l, parsed svid msid data l; ar_tree : hash_tree svid msid data = Gives (sigh, file);
  ar_valid : valid s msg; ar_type : hashtype (obj s msg) = MSGTYPE_MSG; ar_svid : (obj s msg).(o_svid) = svid; ar_msid : (obj s msg).(o_msid) = msid;
  ar_len : (obj s msg).(o_len) = Z.of_nat (length data); ar_data : (obj s msg).(o_data) = Some file; ar_sigh : (obj s msg).(o_sigh) = sigh;
  ar_known : s.(q_txs) !! (obj s msg).(o_num) = Some osg; ar_short : (obj s osg).(o_len) = header_length;
  ar_osvid : (obj s osg).(o_svid) = svid; ar_omsid : (obj s osg).(o_msid) = msid;
  ar_bad : has_bits (obj s osg).(o_status) MSGSTAT_BAD = false; ar_val : has_bits (obj s osg).(o_status) MSGSTAT_VAL = false;
  ar_last : has_bits (nthn s.(q_last) svid).(n_status) SERVER_DBL = false; ar_sync : s.(q_do_sync) = false; ar_now : 0 < s.(q_now) < 2 ^ 32;
  ar_alone : alone s.(q_txs) (obj s msg).(o_num);
  ar_file : (length (default [] (s.(q_disk).(d_msg) !! (s.(q_now), MSGTYPE_MSG, svid, msid, None))) <= length file)%nat
}.

Lemma arriving_ready s msg osg svid msid data sigh file : pool_ok s -> arriving s msg osg svid msid data sigh file ->
  ready svid msid data sigh file ((msg_update (obj s msg) (obj s osg)).2 <| o_path := s.(q_now) |>).
Proof.
  intros Ok [[l Ap] A2 A3 A4 A5 A6 A7 A8 A9 A10 A11 A12 A13 A14 A15 A16 A17 A18 A19 A20]. pose proof (key_type _ _ _ _ Ok A10 A4) as Ht.
  pose proof (pd_len _ _ _ _ Ap) as Hl. unfold msg_update.
  set (o := obj s osg) in *. set (o1 := _ <| o_got := _ |>). change (o_len o1) with (o_len (obj s msg)). rewrite A7, (proj2 (Z.ltb_lt _ _)) by (unfold header_length; lia).
  split; try (change (hashtype _) with (hashtype o)); cbn [fst snd].
  all: try assumption.
  - exact (has_bits_set o.(o_status) MSGSTAT_DAT ltac:(discriminate)).
  - etransitivity; [exact (has_bits_other o.(o_status) MSGSTAT_DAT MSGSTAT_BAD eq_refl)|exact A14].
Qed.

Lemma unload_fields who m : o_now (unload who m) = o_now m /\ o_path (unload who m) = o_path m /\ o_status (unload who m) = o_status m /\ o_sigh (unload who m) = o_sigh m /\ o_len (unload who m) = o_len m /\
  forall p, makefilename p (unload who m) = makefilename p m.
Proof. unfold unload. repeat (destruct (_ : bool); [repeat split; fail|]); repeat (destruct (_ : bool)); repeat split. Qed.

(** Saving and unloading a full message. *)
Lemma stored_in_block s p o svid msid data l sigh file : valid s p -> obj s p = o -> ready svid msid data sigh file o -> parsed svid msid data l -> hash_tree svid msid data = Gives (sigh, file) ->
  (length (default [] (s.(q_disk).(d_msg) !! (o.(o_path), MSGTYPE_MSG, svid, msid, None))) <= length file)%nat ->
  exists s2, obj_save p s = Some (true, s2) /\ let s3 := obj_unload s2.(q_svid) p s2 in
    (obj s3 p).(o_path) = o.(o_path) /\ (obj s3 p).(o_sigh) = sigh /\ has_bits (obj s3 p).(o_status) MSGSTAT_SAV = true /\ (obj s3 p).(o_now) = o.(o_now) /\
    s3.(q_disk).(d_msg) !! makefilename o.(o_path) (obj s3 p) = Some file /\
    s3.(q_missing) = s.(q_missing) /\ s3.(q_now) = s.(q_now) /\ s3.(q_wait) = s.(q_wait) /\ s3.(q_check) = s.(q_check).
Proof.
  intros Hv Eo Rd Hp Ht Hold. pose proof Rd as [R1 R2 R3 R4 R5 R6 R7 R8 R9].
  assert (Hold' : (length (default [] (d_msg (q_disk s) !! makefilename (o_path o) o)) <= length file)%nat) by (unfold makefilename; rewrite R1, R2, R3, R8; exact Hold).
  destruct (save_writes _ _ _ _ _ _ _ (q_disk s) Hp Ht Rd Hold') as (d' & Es & Ef & _). unfold obj_save. rewrite Eo, Es. cbv beta iota.
  set (o' := o <| o_status ::= fun x => Z.lor x MSGSTAT_SAV |>) in *. set (s2 := (set_obj p (fun _ => o') s) <| q_disk := d' |>). exists s2. split; [reflexivity|]. cbv zeta.
  assert (Hv2 : valid s2 p).
  { apply (good_valid s); [|exact Hv]. eapply good_then; [|apply good_disk]. apply good_replace. rewrite Eo. now apply save_keeps in Es. }
  assert (E3 : obj (obj_unload s2.(q_svid) p s2) p = unload (q_svid s2) o').
  { unfold obj_unload. rewrite set_obj_at by exact Hv2. f_equal. exact (set_obj_at p (fun _ => o') s Hv). }
  destruct (unload_fields (q_svid s2) o') as (U1 & U2 & U3 & U4 & U5 & U6). rewrite E3, U1, U2, U3, U4, U6.
  split; [reflexivity|]. split; [exact R6|]. split; [exact (has_bits_set o.(o_status) MSGSTAT_SAV ltac:(discriminate))|]. split; [reflexivity|]. split; [|repeat split].
  change (q_disk (obj_unload _ p s2)) with d'. rewrite <- Ef. f_equal. unfold makefilename.
  assert (Eb : has_bits o'.(o_status) MSGSTAT_BAD = false) by (etransitivity; [exact (has_bits_other o.(o_status) MSGSTAT_SAV MSGSTAT_BAD eq_refl)|exact R8]). rewrite Eb, R8. reflexivity.
Qed.

(** C16: a message of transactions that arrives for an announced one is written
    to the file of its block and no longer missing, and it is queued for the
    validator, or for the next block when its time is later; this holds when no
    other message of the node has the number, the announced one is neither bad
    nor elected, the node is not marked for a double spend, no sync is under way
    and no longer file is overwritten ([arriving]). *)
Theorem announced_message_stored time s msg osg svid msid data sigh file : pool_ok s -> arriving s msg osg svid msid data sigh file ->
  exists s', txs_insert time msg s = Some (1, s') /\ s'.(q_missing) !! (obj s msg).(o_num) = None /\
    (obj s' osg).(o_path) = s.(q_now) /\ (obj s' osg).(o_sigh) = sigh /\ has_bits (obj s' osg).(o_status) MSGSTAT_SAV = true /\
    s'.(q_disk).(d_msg) !! makefilename s.(q_now) (obj s' osg) = Some file /\
    (if u32 (s.(q_now) + BLOCKSEC) <=? (obj s msg).(o_now) then s'.(q_wait) = s.(q_wait) ++ [osg] /\ s'.(q_check) = s.(q_check)
     else s'.(q_check) = s.(q_check) ++ [osg] /\ s'.(q_wait) = s.(q_wait)).
Proof.
  intros Ok Ar. pose proof (arriving_ready _ _ _ _ _ _ _ _ Ok Ar) as Rd. destruct Ar as [[l Ap] A2 A3 A4 A5 A6 A7 A8 A9 A10 A11 A12 A13 A14 A15 A16 A17 A18 A19 A20].
  pose proof (entry_valid _ _ _ _ (ok_txs _ Ok _ _ A10)) as Ho. unfold txs_insert. rewrite A4, A5, A16, A10. change (MSGTYPE_MSG =? MSGTYPE_MSG) with true. cbv beta iota.
  assert (Hc : completes s msg osg = true) by (unfold completes; rewrite A7, A11; pose proof (pd_len _ _ _ _ Ap); rewrite (proj2 (Z.ltb_lt _ _)) by (unfold header_length; lia); reflexivity).
  rewrite Hc, A15. cbn [andb]. set (s1 := missing_msgs_erase msg _). assert (G1 : good s s1) by (eapply good_then; [apply complete_good|apply missing_erase_good]).
  set (o := (msg_update (obj s msg) (obj s osg)).2 <| o_path := s.(q_now) |>) in Rd.
  assert (E1 : obj s1 osg = o).
  { change (obj s1 osg) with (obj (set_obj osg (fun o => o <| o_path := s.(q_now) |>) (obj_update msg osg s)) osg). rewrite set_obj_at, update_at by first [exact Ho|apply (good_valid s); [apply update_good|exact Ho]]. reflexivity. }
  assert (Hnow : o_now o = o_now (obj s msg)) by (unfold o, msg_update; cbn [snd]; destruct (_ <? _); reflexivity).
  assert (Hpath : o_path o = q_now s) by reflexivity.
  assert (Em1 : q_missing s1 = delete (o_num (obj s msg)) (q_missing s)).
  { set (sp := set_obj osg (fun o => o <| o_path := s.(q_now) |>) (obj_update msg osg s)) in *. change (q_missing s1) with (delete (o_num (obj sp msg)) (q_missing s)). f_equal.
    destruct (gd_ext _ _ (complete_good msg osg s (fun _ => s.(q_now))) msg _ (valid_obj _ _ A3)) as (m' & Em' & K). fold sp in Em'. now rewrite (obj_at _ _ _ Em'), (ks_num _ _ K). }
  assert (Es1 : q_txs s1 = q_txs s /\ q_disk s1 = q_disk s /\ q_now s1 = q_now s /\ q_wait s1 = q_wait s /\ q_check s1 = q_check s /\ q_do_sync s1 = q_do_sync s) by (repeat split).
  clearbody s1 o. destruct Es1 as (T1 & T2 & T3 & T4 & T5 & T6). rewrite T6, A17. cbn [negb].
  assert (E2 : check_dbl time (q_txs s1) (o_num (obj s msg)) osg s1 = Some (0, s1)).
  { apply check_dbl_alone; rewrite ?T1; [now apply G1|exact A10|exact A19|rewrite E1, (re_data _ _ _ _ _ _ Rd); discriminate]. }
  rewrite E2. change (0 <? 0) with false. cbv beta iota. destruct (stored_in_block s1 osg o svid msid data l sigh file) as (s2 & Ev & V);
    [now apply (good_valid s)|exact E1|exact Rd|exact Ap|exact A2|now rewrite T2, Hpath|].
  rewrite Ev. cbv beta iota. set (s3 := obj_unload _ osg s2) in *. clearbody s3. destruct V as (V1 & V2 & V3 & V4 & V5 & V6 & V7 & V8 & V9).
  exists (enqueue osg s3). split; [reflexivity|]. unfold enqueue. rewrite V7, T3, V4, Hnow.
  destruct (_ <=? _); cbn; (split; [rewrite V6, Em1; apply lookup_delete_eq|]); rewrite <- Hpath, V8, V9, T4, T5; repeat split; assumption.
Qed.
End Store.

(** * Finding a double spend *)

Section Double.
Context `{Sha256}.

Lemma obj_other p q f s : p <> q -> obj (set_obj p f s) q = obj s q.
Proof. intros Hne. unfold obj. change (q_heap (set_obj p f s)) with (alter f p s.(q_heap)). now rewrite lookup_total_alter_ne. Qed.

(** The queues and settings, which these operations leave alone. *)
Definition settings (s : pool) := (s.(q_wait), s.(q_check), s.(q_txs), s.(q_do_sync), s.(q_svid), s.(q_last), s.(q_now)).

(** What loading and saving a message do not change. *)
Record same_body (m m' : mobj) : Prop := {
  sb_num : m'.(o_num) = m.(o_num); sb_svid : m'.(o_svid) = m.(o_svid); sb_msid : m'.(o_msid) = m.(o_msid); sb_len : m'.(o_len) = m.(o_len); sb_sigh : m'.(o_sigh) = m.(o_sigh);
  sb_bad : has_bits m.(o_status) MSGSTAT_BAD = true -> has_bits m'.(o_status) MSGSTAT_BAD = true
}.

(** A full message whose bytes are in memory or in its file. *)
Definition held (m : mobj) (d : disk) (f : list Z) : Prop :=
  hashtype m = MSGTYPE_MSG /\ m.(o_path) <> 0 /\ m.(o_len) <> header_length /\ (m.(o_data) = Some f \/ (m.(o_data) = None /\ d.(d_msg) !! makefilename m.(o_path) m = Some f)).

Lemma load_held who m d f : held m d f -> exists n m', load who m d = Some (n, m') /\ m'.(o_data) = Some f /\ same_body m m'.
Proof.
  intros (Ht & Hp & Hl & Hd). unfold load. set (m0 := m <| o_busy ::= _ |>). change (o_path m0) with m.(o_path). change (o_data m0) with m.(o_data). change (o_len m0) with m.(o_len).
  change (makefilename (o_path m) m0) with (makefilename (o_path m) m). rewrite (proj2 (Z.eqb_neq _ _) Hp), (proj2 (Z.eqb_neq _ _) Hl). cbn [negb]. destruct Hd as [Hd|[Hd Hf]]; rewrite Hd.
  - rewrite bool_decide_eq_false_2 by discriminate. cbn [negb andb]. eexists _, m0. split; [reflexivity|]. split; [exact Hd|now split].
  - rewrite Hf, bool_decide_eq_true_2 by reflexivity. cbn [negb andb].
    set (m1 := m0 <| o_data := Some f |>). change (o_len m1) with m.(o_len). rewrite (proj2 (Z.eqb_neq _ _) Hl). eexists _, _. split; [reflexivity|]. split; [reflexivity|].
    split; try reflexivity. apply has_bits_lor.
Qed.

Lemma unload_body who m : same_body m (unload who m).
Proof. unfold unload. repeat (destruct (_ : bool); try now split). Qed.

(** [bad_insert] of a message in memory that is not saved and not known as bad. *)
Record fresh_full (s : pool) (p : ptr) (m : mobj) (f : list Z) : Prop := {
  ff_obj : s.(q_heap) !! p = Some m; ff_data : m.(o_data) = Some f; ff_type : hashtype m = MSGTYPE_MSG; ff_path : m.(o_path) <> 0; ff_len : m.(o_len) <> header_length;
  ff_dat : has_bits m.(o_status) MSGSTAT_DAT = true; ff_bad : has_bits m.(o_status) MSGSTAT_BAD = false; ff_sav : has_bits m.(o_status) MSGSTAT_SAV = false;
  ff_total : rdz f (Z.to_nat (m.(o_len) + 32 + 4)) 4 <> 0; ff_new : s.(q_bad) !! m.(o_sigh) = None
}.

Lemma bad_insert_new p s m f : fresh_full s p m f ->
  exists m' s', bad_insert p s = Some s' /\ s'.(q_heap) = <[p := m']> s.(q_heap) /\ m'.(o_data) = Some f /\ hashtype m' = MSGTYPE_MSG /\ m'.(o_path) = m.(o_path) /\ same_body m m' /\
    has_bits m'.(o_status) MSGSTAT_BAD = true /\ settings s' = settings s /\ s'.(q_dbl_srvs) = s.(q_dbl_srvs) /\
    (forall q g, q <> p -> held (obj s q) s.(q_disk) g -> has_bits (obj s q).(o_status) MSGSTAT_BAD = false -> held (obj s q) s'.(q_disk) g).
Proof.
  intros [F1 F2 F3 F4 F5 F6 F7 F8 F9 F10]. unfold bad_insert. rewrite (obj_at _ _ _ F1), F7, F10, F8. cbn [negb].
  set (m1 := m <| o_status ::= fun x => Z.lor x MSGSTAT_BAD |>). assert (Hv : valid s p) by now exists m.
  set (s1 := set_obj p _ s). assert (E1 : obj s1 p = m1) by (unfold s1; rewrite set_obj_at, (obj_at _ _ _ F1) by exact Hv; reflexivity).
  unfold obj_save, msg_save. rewrite E1. assert (Hd : has_bits m1.(o_status) MSGSTAT_DAT = true) by (etransitivity; [exact (has_bits_other m.(o_status) MSGSTAT_BAD MSGSTAT_DAT eq_refl)|exact F6]).
  assert (Hb : has_bits m1.(o_status) MSGSTAT_BAD = true) by exact (has_bits_set m.(o_status) MSGSTAT_BAD ltac:(discriminate)). rewrite Hd, Hb. cbn [negb].
  change (o_path m1) with m.(o_path). rewrite (proj2 (Z.eqb_neq _ _) F4). change (o_data m1) with m.(o_data). rewrite F2. unfold saved_part. change (hashtype m1) with (hashtype m). rewrite F3.
  change (MSGTYPE_MSG =? MSGTYPE_MSG) with true. change (o_len m1) with m.(o_len). rewrite (proj2 (Z.eqb_neq _ _) F9). cbn [negb]. cbv beta iota.
  set (m2 := m1 <| o_status ::= fun x => Z.lor x MSGSTAT_SAV |>). set (d' := _ <| d_msg ::= _ |>). exists m2. eexists. split; [reflexivity|].
  split; [|split; [exact F2|split; [exact F3|split; [reflexivity|split; [|split; [|split; [reflexivity|split; [reflexivity|]]]]]]]].
  - change (alter (fun _ => m2) p (alter (fun m => m <| o_status ::= fun x => Z.lor x MSGSTAT_BAD |>) p s.(q_heap)) = <[p := m2]> s.(q_heap)). apply map_eq. intros q. destruct (decide (q = p)) as [->|Hne].
    + now rewrite !lookup_alter_eq, lookup_insert_eq, F1.
    + now rewrite !lookup_alter_ne, lookup_insert_ne by congruence.
  - split; try reflexivity. intros _. exact (has_bits_lor m1.(o_status) MSGSTAT_SAV MSGSTAT_BAD Hb).
  - exact (has_bits_lor m1.(o_status) MSGSTAT_SAV MSGSTAT_BAD Hb).
  - intros q g Hne (G1 & G2 & G3 & G4) Gb. split; [exact G1|]. split; [exact G2|]. split; [exact G3|]. destruct G4 as [G4|[G4 G5]]; [now left|right]. split; [exact G4|].
    change (q_disk _) with d'. etransitivity; [|exact G5]. apply lookup_insert_ne. unfold makefilename. rewrite Hb, Gb. congruence.
Qed.

(** Loading two objects. *)
Lemma obj_load_held who p s f : valid s p -> held (obj s p) s.(q_disk) f ->
  exists n m', obj_load who p s = Some (n, set_obj p (fun _ => m') s) /\ m'.(o_data) = Some f /\ same_body (obj s p) m'.
Proof. intros Hv Hh. destruct (load_held who _ _ _ Hh) as (n & m' & E & Ed & Eb). exists n, m'. unfold obj_load. rewrite E. auto. Qed.

(** What must be known to prove a double spend of two messages. *)
Record provable (s : pool) (q p : ptr) (f1 f2 : list Z) : Prop := {
  pv_ne : q <> p; pv_q : valid s q; pv_p : valid s p; pv_h1 : held (obj s q) s.(q_disk) f1; pv_h2 : held (obj s p) s.(q_disk) f2;
  pv_b1 : nthz f1 0 = MSGTYPE_MSG; pv_b2 : nthz f2 0 = MSGTYPE_MSG; pv_svid : (obj s q).(o_svid) = (obj s p).(o_svid); pv_msid : (obj s q).(o_msid) = (obj s p).(o_msid);
  pv_sigh : (obj s q).(o_sigh) <> (obj s p).(o_sigh); pv_sync : s.(q_do_sync) = false; pv_own : (obj s p).(o_svid) <> s.(q_svid); pv_new : (obj s p).(o_svid) ∉ s.(q_dbl_srvs);
  pv_next : (nthn s.(q_last) (obj s p).(o_svid)).(n_msid) + 1 = (obj s p).(o_msid); pv_range : 0 < (obj s p).(o_msid) < 2 ^ 32; pv_now : s.(q_now) <> 0
}.

Lemma before_last s p : (nthn s.(q_last) (obj s p).(o_svid)).(n_msid) + 1 = (obj s p).(o_msid) -> 0 < (obj s p).(o_msid) < 2 ^ 32 -> before_double s p = Some (nthn s.(q_last) (obj s p).(o_svid)).(n_msha).
Proof. intros Hn Hr. unfold before_double. rewrite <- Hn at 2. rewrite Z.add_simpl_r, u32_small, Z.eqb_refl, orb_true_r by lia. reflexivity. Qed.

(** The last steps: the proof is stored, the node marked, the proof saved. *)
Lemma store_proof p dbl s : s.(q_heap) !! p = Some dbl -> hashtype dbl = MSGTYPE_DBL -> has_bits dbl.(o_status) MSGSTAT_DAT = true -> dbl.(o_data) <> None -> s.(q_now) <> 0 ->
  (nthn s.(q_last) dbl.(o_svid)).(n_msid) < dbl.(o_msid) ->
  exists ok s', obj_save p (set_obj p (fun m => m <| o_path := s.(q_now) |>) (double_spend p s)) = Some (ok, s') /\ settings s' = settings s /\ s'.(q_dbl_srvs) = {[dbl.(o_svid)]} ∪ s.(q_dbl_srvs) /\
    s'.(q_dbl) = s.(q_dbl) /\ (obj s' p).(o_data) = dbl.(o_data) /\ forall q, q <> p -> obj s' q = obj s q.
Proof.
  intros Hp Ht Hd Hn Hnow Hl. unfold double_spend. rewrite (obj_at _ _ _ Hp), (proj2 (Z.leb_gt _ _) Hl). set (s1 := event_ _ _). assert (Hp1 : s1.(q_heap) !! p = Some dbl) by exact Hp.
  assert (Hv : valid s1 p) by now exists dbl. change (q_now s1) with (q_now s). set (s2 := set_obj p (fun m => m <| o_path := s.(q_now) |>) s1).
  assert (E2 : obj s2 p = dbl <| o_path := s.(q_now) |>) by (unfold s2; rewrite set_obj_at, (obj_at _ _ _ Hp1) by exact Hv; reflexivity).
  assert (Hv2 : valid s2 p) by (apply (good_valid s1); [apply path_good|exact Hv]).
  unfold obj_save, msg_save. rewrite E2. set (m := dbl <| o_path := s.(q_now) |>). change (o_status m) with dbl.(o_status). change (o_path m) with s.(q_now). change (o_data m) with dbl.(o_data).
  rewrite Hd, (proj2 (Z.eqb_neq _ _) Hnow). cbn [negb]. destruct dbl.(o_data) as [d|] eqn:Ed; [|contradiction]. unfold saved_part. change (hashtype m) with (hashtype dbl). rewrite Ht.
  change (MSGTYPE_DBL =? MSGTYPE_MSG) with false. cbv beta iota. eexists _, _. split; [reflexivity|]. split; [reflexivity|]. split; [reflexivity|]. split; [reflexivity|]. split.
  - match goal with |- o_data (obj ?x p) = _ => assert (Ex : obj x p = m <| o_status ::= fun s0 => Z.lor s0 MSGSTAT_SAV |>) by exact (set_obj_at p (fun _ => m <| o_status ::= fun s0 => Z.lor s0 MSGSTAT_SAV |>) s2 Hv2) end.
    rewrite Ex. exact Ed.
  - intros q Hq. etransitivity; [exact (obj_other p q _ s2 (not_eq_sym Hq))|]. exact (obj_other p q _ s1 (not_eq_sym Hq)).
Qed.

Lemma proof_made time q p s f1 f2 : provable s q p f1 f2 ->
  exists s' pr, create_double_spend_proof time q p s = Some s' /\ settings s' = settings s /\ (obj s p).(o_svid) ∈ s'.(q_dbl_srvs) /\ same_body (obj s p) (obj s' p) /\
    s'.(q_dbl) !! hash_num 0 MSGTYPE_DBL (obj s p).(o_msid) (obj s p).(o_svid) = Some pr /\
    (obj s' pr).(o_data) = Some (dbl_bytes (nthn s.(q_last) (obj s p).(o_svid)).(n_msha) (take (Z.to_nat (obj s q).(o_len)) f1) (take (Z.to_nat (obj s p).(o_len)) f2)).
Proof.
  intros [P1 P2 P3 P4 P5 P6 P7 P8 P9 P10 P11 P12 P13 P14 P15 P16]. unfold create_double_spend_proof.
  rewrite P8, P9, !Z.eqb_refl, P11. rewrite bool_decide_eq_false_2 by exact P10. cbn [negb andb]. rewrite (proj2 (Z.eqb_neq _ _) P12). cbn [negb].
  unfold pool_known_dbl. rewrite bool_decide_eq_false_2 by exact P13. rewrite (proj2 (Z.leb_gt _ _)) by lia.
  destruct (obj_load_held BANK_MAX q s f1 P2 P4) as (n1 & m1 & E1 & D1 & B1). rewrite E1. cbv beta iota. set (s1 := set_obj q (fun _ => m1) s).
  assert (Ep1 : obj s1 p = obj s p) by now apply obj_other. assert (G1 : good s s1) by (apply (obj_load_good BANK_MAX q s n1 s1); exact E1).
  destruct (obj_load_held BANK_MAX p s1 f2) as (n2 & m2 & E2 & D2 & B2); [now apply (good_valid s)|rewrite Ep1; exact P5|]. rewrite E2. cbv beta iota. set (s2 := set_obj p (fun _ => m2) s1).
  assert (G2 : good s1 s2) by (apply (obj_load_good BANK_MAX p s1 n2 s2); exact E2). rewrite Ep1 in B2.
  assert (Hv1 : valid s1 q) by now apply (good_valid s). assert (Hp1 : valid s1 p) by now apply (good_valid s).
  assert (Ep2 : obj s2 p = m2) by exact (set_obj_at p (fun _ => m2) s1 Hp1).
  assert (Eq2 : obj s2 q = m1) by (etransitivity; [exact (obj_other p q _ s1 (not_eq_sym P1))|exact (set_obj_at q (fun _ => m1) s P2)]).
  rewrite Ep2, Eq2, D1, D2, P6, P7. change (MSGTYPE_MSG =? MSGTYPE_MSG) with true. cbv beta iota.
  assert (Eb : before_double s2 p = Some (n_msha (nthn s.(q_last) (obj s p).(o_svid)))).
  { rewrite before_last; rewrite Ep2, ?(sb_svid _ _ B2), ?(sb_msid _ _ B2); [reflexivity|exact P14|exact P15]. }
  rewrite Eb, (sb_len _ _ B1), (sb_len _ _ B2). cbv beta iota. set (dbl0 := _ <| o_peer := _ |>). set (dbl := null_signature _).
  assert (F1 : o_num dbl = hash_num 0 MSGTYPE_DBL (obj s p).(o_msid) (obj s p).(o_svid)) by reflexivity. assert (F2 : hashtype dbl = MSGTYPE_DBL) by exact (dohash_dbl_type dbl0).
  assert (F3 : has_bits dbl.(o_status) MSGSTAT_DAT = true) by reflexivity. assert (F5 : dbl.(o_svid) = (obj s p).(o_svid) /\ dbl.(o_msid) = (obj s p).(o_msid)) by (split; reflexivity).
  set (bs := dbl_bytes _ _ _). assert (F4 : o_data dbl = Some bs) by reflexivity. clearbody bs dbl. clear dbl0. destruct F5 as [F5 F6].
  destruct (alloc_good dbl s2) as [G3 Ha]. unfold alloc. cbn [fst snd] in G3, Ha. set (pr := fresh (dom s2.(q_heap))) in *. set (s3 := s2 <| q_heap ::= <[pr := dbl]> |>) in *.
  assert (Hf : s2.(q_heap) !! pr = None) by (apply not_elem_of_dom, is_fresh).
  assert (Hpr : pr <> p /\ pr <> q) by (split; intros ->; [destruct (good_valid _ _ _ G2 Hp1) as [x Hx]|destruct (good_valid _ _ _ G2 Hv1) as [x Hx]]; congruence). destruct Hpr as [Hpp Hpq].
  assert (Ep3 : obj s3 p = m2) by (rewrite <- Ep2; unfold obj, s3; cbn; now rewrite lookup_total_insert_ne).
  assert (Hv3 : valid s3 p) by (apply (good_valid s2); [exact G3|apply (good_valid s1); [exact G2|exact Hp1]]).
  set (s4 := obj_unload BANK_MAX p (obj_unload BANK_MAX q s3)). set (s5 := s4 <| q_dbl ::= <[o_num dbl := pr]> |>).
  assert (Ep5 : obj s5 p = unload BANK_MAX m2).
  { change (obj s5 p) with (obj s4 p). unfold s4, obj_unload. rewrite set_obj_at by (apply (good_valid s3); [apply obj_unload_good|exact Hv3]). f_equal. etransitivity; [now apply obj_other|exact Ep3]. }
  assert (Hh5 : s5.(q_heap) !! pr = Some dbl).
  { change (alter (unload BANK_MAX) p (alter (unload BANK_MAX) q s3.(q_heap)) !! pr = Some dbl). rewrite !lookup_alter_ne by congruence. exact Ha. }
  assert (Es5 : settings s5 = settings s) by reflexivity. assert (Ed5 : q_dbl_srvs s5 = q_dbl_srvs s) by reflexivity. assert (Eq5 : q_dbl s5 !! o_num dbl = Some pr) by apply lookup_insert_eq.
  assert (En5 : q_now s5 = q_now s) by reflexivity. assert (El5 : q_last s5 = q_last s) by reflexivity. clearbody s5.
  destruct (store_proof pr dbl s5 Hh5 F2 F3) as (ok & s' & E' & S1 & S2 & S3 & S4 & S5); [rewrite F4; discriminate|now rewrite En5|rewrite El5, F5, F6; lia|].
  rewrite E'. exists s', pr. split; [reflexivity|]. split; [now rewrite S1|]. split; [rewrite S2, F5; set_solver|]. split; [|split].
  - rewrite S5, Ep5 by congruence. destruct B2 as [C1 C2 C3 C4 C5 C6], (unload_body BANK_MAX m2) as [U1 U2 U3 U4 U5 U6]. split; [congruence..|auto].
  - now rewrite S3, <- F1.
  - now rewrite S4.
Qed.

(** A second full message with the number of the stored message [q] arrives. *)
Record second (s : pool) (msg osg q : ptr) (svid msid : Z) (data sigh file f1 : list Z) : Prop := {
  se_parsed : exists l, parsed svid msid data l; se_tree : hash_tree svid msid data = Gives (sigh, file);
  se_valid : valid s msg; se_type : hashtype (obj s msg) = MSGTYPE_MSG; se_svid : (obj s msg).(o_svid) = svid; se_msid : (obj s msg).(o_msid) = msid;
  se_len : (obj s msg).(o_len) = Z.of_nat (length data); se_data : (obj s msg).(o_data) = Some file; se_sigh : (obj s msg).(o_sigh) = sigh;
  se_known : s.(q_txs) !! (obj s msg).(o_num) = Some osg; se_short : (obj s osg).(o_len) = header_length; se_osvid : (obj s osg).(o_svid) = svid; se_omsid : (obj s osg).(o_msid) = msid;
  se_status : Z.land (obj s osg).(o_status) (Z.lor MSGSTAT_BAD (Z.lor MSGSTAT_VAL MSGSTAT_SAV)) = 0; se_nobad : s.(q_bad) !! sigh = None;
  se_last : has_bits (nthn s.(q_last) svid).(n_status) SERVER_DBL = false; se_sync : s.(q_do_sync) = false; se_now : s.(q_now) <> 0; se_own : svid <> s.(q_svid);
  se_new : svid ∉ s.(q_dbl_srvs); se_next : (nthn s.(q_last) svid).(n_msid) + 1 = msid;
  se_near : prev_of (obj s msg).(o_num) (elems s.(q_txs)) = Some q \/ (prev_of (obj s msg).(o_num) (elems s.(q_txs)) = None /\ next_of (obj s msg).(o_num) (elems s.(q_txs)) = Some q);
  se_same : same_number (obj s q) (obj s osg) = true; se_q : valid s q; se_qmsg : q <> msg; se_qosg : q <> osg; se_held : held (obj s q) s.(q_disk) f1; se_full : header_length < (obj s q).(o_len);
  se_first : nthz f1 0 = MSGTYPE_MSG; se_qbad : has_bits (obj s q).(o_status) MSGSTAT_BAD = false; se_qsvid : (obj s q).(o_svid) = svid; se_qmsid : (obj s q).(o_msid) = msid;
  se_differ : (obj s q).(o_sigh) <> sigh
}.

Lemma land_zero x a b : Z.land x (Z.lor a b) = 0 -> has_bits x a = false /\ Z.land x b = 0.
Proof. rewrite Z.land_lor_distr_r. intros E. apply Z.lor_eq_0_iff in E as [E1 E2]. unfold has_bits. now rewrite E1. Qed.

(** The announced message after the bytes have arrived. *)
Lemma second_full s msg osg q svid msid data sigh file f1 : pool_ok s -> second s msg osg q svid msid data sigh file f1 ->
  let s1 := missing_msgs_erase msg (set_obj osg (fun o => o <| o_path := s.(q_now) |>) (obj_update msg osg s)) in
  exists o, fresh_full s1 osg o file /\ o.(o_num) = (obj s osg).(o_num) /\ o.(o_svid) = svid /\ o.(o_msid) = msid /\ o.(o_len) = Z.of_nat (length data) /\ o.(o_sigh) = sigh /\
    nthz file 0 = MSGTYPE_MSG /\ take (length data) file = data /\ good s s1 /\ obj s1 q = obj s q /\ q_disk s1 = q_disk s /\ settings s1 = settings s /\ q_dbl_srvs s1 = q_dbl_srvs s.
Proof.
  intros Ok [[l C1] C2 C3 C4 C5 C6 C7 C8 C9 C10 C11 C12 C13 C14 C15 C16 C17 C18 C19 C20 C21 C22 C23 C24 C25 C26 C27 C28 C29 C30 C31 C32 C33] s1.
  pose proof (entry_valid _ _ _ _ (ok_txs _ Ok _ _ C10)) as Ho. pose proof (key_type _ _ _ _ Ok C10 C4) as Hto.
  assert (G1 : good s s1) by (eapply good_then; [apply complete_good|apply missing_erase_good]). destruct (parsed_tree _ _ _ _ C1) as [Hci Ht]. rewrite C2 in Ht. injection Ht as _ Efile.
  destruct (msg_file_total svid msid data (cut_txs l) 0 Hci ltac:(lia)) as (T1 & _ & _). rewrite <- Efile in T1. pose proof (pd_len _ _ _ _ C1) as Hl.
  apply land_zero in C14 as [Hbad C14]. apply land_zero in C14 as [_ Hsav]. assert (Hsav' : has_bits (o_status (obj s osg)) MSGSTAT_SAV = false) by (unfold has_bits; now rewrite Hsav).
  set (o := ((msg_update (obj s msg) (obj s osg)).2) <| o_path := s.(q_now) |>).
  assert (E1 : obj s1 osg = o).
  { change (obj s1 osg) with (obj (set_obj osg (fun o => o <| o_path := s.(q_now) |>) (obj_update msg osg s)) osg). rewrite set_obj_at, update_at by first [exact Ho|apply (good_valid s); [apply update_good|exact Ho]]. reflexivity. }
  assert (Eh : s1.(q_heap) !! osg = Some o) by (rewrite <- E1; apply valid_obj, (good_valid s); assumption).
  assert (Eo : o = ((obj s osg) <| o_len := Z.of_nat (length data) |> <| o_data := Some file |> <| o_know ::= know_insert_ (obj s msg).(o_peer) |> <| o_sigh := sigh |> <| o_peer := (obj s msg).(o_peer) |>
      <| o_now := (obj s msg).(o_now) |> <| o_got := (obj s msg).(o_got) |>) <| o_status ::= fun x => Z.lor x MSGSTAT_DAT |> <| o_path := s.(q_now) |>).
  { unfold o, msg_update. cbn [snd]. rewrite C7, C8, C9. match goal with |- context [header_length <? ?x] => change x with (Z.of_nat (length data)) end. rewrite (proj2 (Z.ltb_lt _ _)) by (unfold header_length; lia). reflexivity. }
  clearbody o. exists o. assert (Hst : o.(o_status) = Z.lor (obj s osg).(o_status) MSGSTAT_DAT) by (rewrite Eo; reflexivity). assert (Hlo : o.(o_len) = Z.of_nat (length data)) by (rewrite Eo; reflexivity).
  assert (Hof : o.(o_num) = (obj s osg).(o_num) /\ o.(o_svid) = (obj s osg).(o_svid) /\ o.(o_msid) = (obj s osg).(o_msid) /\ o.(o_data) = Some file /\ o.(o_sigh) = sigh /\ o.(o_path) = s.(q_now)) by (rewrite Eo; repeat split).
  destruct Hof as (N1 & N2 & N3 & N4 & N5 & N6). clear Eo.
  split; [split; rewrite ?Hst, ?Hlo|].
  - exact Eh.
  - exact N4.
  - unfold hashtype. rewrite N1. exact Hto.
  - rewrite N6. exact C18.
  - unfold header_length. lia.
  - apply has_bits_set. discriminate.
  - rewrite has_bits_other by reflexivity. exact Hbad.
  - rewrite has_bits_other by reflexivity. exact Hsav'.
  - replace (Z.to_nat (Z.of_nat (length data) + 32 + 4)) with (length data + 36)%nat by lia. rewrite T1. rewrite Efile. unfold msg_file, with_tree. rewrite length_app. lia.
  - rewrite N5. exact C15.
  - rewrite N1, N2, N3, N5. split; [reflexivity|]. split; [exact C12|]. split; [exact C13|]. split; [exact Hlo|]. split; [reflexivity|].
    split; [rewrite Efile, <- (nthz_rd _ 4), (file_head svid msid 0 data (cut_txs l)), nthz_rd by lia; apply (first_byte (length data)); [apply (pd_bytes _ _ _ _ C1)|apply (pd_head _ _ _ _ C1)|unfold MSGTYPE_MSG; lia]|].
    split; [rewrite Efile; unfold msg_file, with_tree; now rewrite take_app_length|]. split; [exact G1|]. split; [|repeat split].
    change (obj s1 q) with (obj (set_obj osg (fun o => o <| o_path := s.(q_now) |>) (obj_update msg osg s)) q). unfold obj_update. cbv zeta. now rewrite !obj_other by congruence.
Qed.


End Double.

(** * Examples *)

(** Messages of node 1 with number 5, as node 2 has received them. *)
Definition demo_receive (n : nat) : mobj :=
  match message_made (H := quick_sha) (H0 := toy_ed) (fun _ => zero_user) MSGTYPE_MSG (demo_text n) 1 5 1000 (Some demo_key) demo_key demo_msha with
  | Some m =>
      match receive (H := quick_sha) (H0 := toy_ed) demo_view 2 1001 (take (78 + 4 * n) (default [] m.(o_data))) with
      | Some (Insert m) => m
      | _ => message_read []
      end
  | None => message_read []
  end.
Definition demo_full2 : mobj := Eval vm_compute in demo_receive 2.
Definition demo_full3 : mobj := Eval vm_compute in demo_receive 3.
Definition demo_file (m : mobj) : list Z := default [] m.(o_data).
Definition demo_short (k : Z) : mobj := (message_read (MSGTYPE_GET :: le_bytes 7 0)) <| o_num := k |> <| o_svid := 1 |> <| o_msid := 5 |>.
Definition demo_stored (m : mobj) : mobj := m <| o_path := 992 |> <| o_status := Z.lor MSGSTAT_DAT MSGSTAT_SAV |>.

Definition demo_pool (heap : gmap ptr mobj) (txs : gmap Z ptr) (queue : list ptr) : pool :=
  {| q_heap := heap; q_disk := {| d_msg := ∅; d_und := ∅; d_inx := ∅ |}; q_txs := txs; q_cnd := ∅; q_blk := ∅; q_dbl := ∅; q_missing := ∅; q_ldc := ∅; q_bad := ∅;
     q_wait := []; q_check := queue; q_busy := ∅; q_dbl_srvs := ∅; q_nodes := replicate 3 demo_sender; q_last := replicate 3 demo_sender; q_now := 992; q_last_now := 960;
     q_last_block := 960; q_svid := 2; q_msid := 1; q_do_sync := false; q_block_only := false; q_events := [] |}.

Definition entryb (s : pool) (q : Z * ptr) : bool :=
  match s.(q_heap) !! q.2 with
  | Some m => (m.(o_num) =? q.1) && (hashtype m =? MSGTYPE_MSG) && (0 <=? m.(o_msid)) && (m.(o_msid) <? 2 ^ 32) && (0 <=? m.(o_svid)) && (m.(o_svid) <? 2 ^ 16) && (Z.shiftr m.(o_num) 16 =? m.(o_msid) + 2 ^ 32 * m.(o_svid))
  | None => false
  end.

Lemma entryb_ok s q : entryb s q = true -> entry s is_txs q.1 q.2.
Proof.
  unfold entryb. destruct (_ !! _) as [m|] eqn:E; [|discriminate]. intros Hb. repeat (apply andb_true_iff in Hb as [Hb ?]). exists m. split; [exact E|]. unfold is_txs, sane.
  repeat match goal with X : (_ =? _) = true |- _ => apply Z.eqb_eq in X | X : (_ <=? _) = true |- _ => apply Z.leb_le in X | X : (_ <? _) = true |- _ => apply Z.ltb_lt in X end. auto 6.
Qed.

Lemma demo_pool_ok heap txs queue : forallb (entryb (demo_pool heap txs queue)) (elems txs) = true ->
  forallb (fun p => entryb (demo_pool heap txs queue) (from_option o_num 0 (heap !! p), p)) queue = true -> pool_ok (demo_pool heap txs queue).
Proof.
  intros Ht Hq. rewrite forallb_forall in Ht, Hq. split; try apply map_Forall_empty.
  - intros k p Hk. apply (entryb_ok _ (k, p)), Ht, list_elem_of_In. now apply elem_of_elems.
  - apply List.Forall_forall. intros p Hp. eexists. exact (entryb_ok _ _ (Hq p Hp)).
Qed.

Definition demo_announced : pool := demo_pool (<[0%nat := demo_short demo_full3.(o_num)]> (<[1%nat := demo_full3]> ∅)) (<[demo_full3.(o_num) := 0%nat]> ∅) [].

Lemma demo_parsed2 : parsed 1 5 (take 86 (demo_file demo_full2)) (blank_cut 2).
Proof. split; [apply bytes_check; reflexivity|vm_compute; split; reflexivity|reflexivity|lia|lia|exists 3%nat; reflexivity|vm_compute; discriminate]. Qed.

Lemma demo_parsed3 : parsed 1 5 (take 90 (demo_file demo_full3)) (blank_cut 3).
Proof. split; [apply bytes_check; reflexivity|vm_compute; split; reflexivity|reflexivity|lia|lia|exists 3%nat; reflexivity|vm_compute; discriminate]. Qed.

Lemma announced_message_stored_witness :
  exists s', txs_insert 1001 1 demo_announced = Some (1, s') /\ s'.(q_missing) !! (obj demo_announced 1).(o_num) = None /\
    (obj s' 0).(o_path) = 992 /\ (obj s' 0).(o_sigh) = demo_full3.(o_sigh) /\ has_bits (obj s' 0).(o_status) MSGSTAT_SAV = true /\
    s'.(q_disk).(d_msg) !! makefilename 992 (obj s' 0) = Some (demo_file demo_full3) /\
    (if u32 (992 + BLOCKSEC) <=? (obj demo_announced 1).(o_now) then s'.(q_wait) = [] ++ [0%nat] /\ s'.(q_check) = [] else s'.(q_check) = [] ++ [0%nat] /\ s'.(q_wait) = []).
Proof.
  apply (announced_message_stored (H := quick_sha) 1001 demo_announced 1 0 1 5 (take 90 (demo_file demo_full3)) demo_full3.(o_sigh) (demo_file demo_full3)).
  - apply demo_pool_ok; reflexivity.
  - constructor.
    2: vm_compute; reflexivity.
    3-16: reflexivity.
    + exists (blank_cut 3). exact demo_parsed3.
    + exists demo_full3. reflexivity.
    + change (q_now demo_announced) with 992. lia.
    + intros k p Hk Hne. change (<[demo_full3.(o_num) := 0%nat]> (∅ : gmap Z ptr) !! k = Some p) in Hk. apply lookup_insert_Some in Hk as [[<- _]|[_ Hk]]; [contradiction|now rewrite lookup_empty in Hk].
    + vm_compute. lia.
Defined.

(** The stored message 3 in the queue, the message 2 with the same number announced
    and arriving. *)
Definition demo_double : pool :=
  demo_pool (<[0%nat := demo_short demo_full2.(o_num)]> (<[1%nat := demo_full2]> (<[2%nat := demo_stored demo_full3]> ∅))) (<[demo_full2.(o_num) := 0%nat]> (<[demo_full3.(o_num) := 2%nat]> ∅)) [2%nat].


(** An announcement of a third message stands between the two, so that the
    stored one is not a neighbour: both messages with one number are queued and
    no proof is made. *)
Definition demo_hidden : pool :=
  demo_pool (<[0%nat := demo_short demo_full2.(o_num)]> (<[1%nat := demo_full2]> (<[2%nat := demo_stored demo_full3]> (<[3%nat := demo_short (demo_full2.(o_num) - 1)]> ∅))))
    (<[demo_full2.(o_num) := 0%nat]> (<[demo_full2.(o_num) - 1 := 3%nat]> (<[demo_full3.(o_num) := 2%nat]> ∅))) [2%nat].

Theorem double_spend_missed :
  exists s', pool_ok demo_hidden /\ txs_insert 1001 1 demo_hidden = Some (1, s') /\ s'.(q_check) = [2%nat; 0%nat] /\ same_number (obj s' 0) (obj s' 2) = true /\
    (obj s' 0).(o_sigh) <> (obj s' 2).(o_sigh) /\ has_bits (obj s' 0).(o_status) MSGSTAT_BAD = false /\ s'.(q_dbl) = ∅.
Proof.
  eexists. split; [apply demo_pool_ok; reflexivity|]. split; [vm_compute; reflexivity|]. split; [reflexivity|]. split; [reflexivity|]. split; [vm_compute; discriminate|]. split; reflexivity.
Qed.

(** The validator takes the message of the queue and executes it. *)
Definition demo_process (m : mobj) (l : nat) : bool * nat := (true, S l).
Definition demo_queued : pool := demo_pool (<[2%nat := demo_stored demo_full3]> ∅) (<[demo_full3.(o_num) := 2%nat]> ∅) [2%nat].
Definition demo_done : pool := match validator demo_process 1002 (fun _ => 0) None demo_queued 7%nat with Some (_, s, _) => s | None => demo_queued end.

Lemma demo_run : rtc (pool_step demo_process) (demo_queued, None, 7%nat) (demo_done, Some 2%nat, 8%nat).
Proof. apply rtc_once. apply (step_validate _ 1002 (fun _ => 0)). vm_compute. reflexivity. Qed.

Lemma demo_queued_ok : pool_ok demo_queued.
Proof. apply demo_pool_ok; reflexivity. Qed.

Lemma executed_in_order_witness : number_of demo_queued 1 <= number_of demo_done 1 /\ forall n, number_of demo_queued 1 < n <= number_of demo_done 1 -> executed demo_done 1 n.
Proof. apply (executed_in_order demo_process (demo_queued, None, 7%nat) (demo_done, Some 2%nat, 8%nat) 1); [lia|exact demo_run|exact demo_queued_ok]. Defined.

Example demo_numbers : number_of demo_queued 1 = 4 /\ number_of demo_done 1 = 5.
Proof. split; vm_compute; reflexivity. Qed.
