(* ===== verification/Merge.v ===== *)
(** The messages of the elected list and the messages of the node
    ([LAST_block_final] of [escd/server.cpp]): the list is merged with the
    container of messages, then messages that were not elected are undone,
    moved or removed and elected ones queued or asked for. *)

From stdpp Require Import base gmap list.
From Stdlib Require Import ZArith Lia.
From S2P Require Import Prelude Params HashTree Usertxs Accounts Servers Ledger Message MerklePath MsgTree MsgFile MsgHead Pool.

(** * Merging the lists *)

(** The same node and number, by the keys. *)
Definition same_key (a b : Z) : bool := Z.land (Z.lxor a b) 0xFFFFFFFFFFFF0000 =? 0.

Definition bad_unless (p : ptr) (s : pool) : option pool := if has_bits (obj s p).(o_status) MSGSTAT_BAD then Some s else bad_insert p s.

Definition obj_move (path : Z) (p : ptr) (s : pool) : option pool :=
  let* (m, d) := msg_move path (obj s p) s.(q_disk) in Some ((set_obj p (fun _ => m) s) <| q_disk := d |>).

(** A message of the list belongs to the block. *)
Definition to_block (p : ptr) (s : pool) : option pool :=
  let* s := obj_move s.(q_now) p s in Some (set_obj p (fun m => m <| o_path := s.(q_now) |>) s).

(** Messages with the number [k] are bad; the rest of the container. *)
Fixpoint bad_same (k : Z) (t : list (Z * ptr)) (s : pool) : option (list (Z * ptr) * pool) :=
  match t with
  | [] => Some ([], s)
  | (tk, tp) :: t' => if same_key tk k then let* s := bad_unless tp s in bad_same k t' s else Some (t, s)
  end.

(** The messages before [k]. *)
Fixpoint skip_less (k : Z) (t : list (Z * ptr)) (s : pool) : option (list (Z * ptr) * pool) :=
  match t with
  | [] => Some ([], s)
  | (tk, tp) :: t' =>
      if tk <? k then
        let* s := (if same_key tk k then bad_unless tp s else Some s) in
        skip_less k t' s
      else Some (t, s)
  end.

(** A message of the list with the key of one of the node: the object that is
    kept. *)
Definition merge_equal (k : Z) (lp tp : ptr) (s : pool) : option (ptr * pool) :=
  if negb (has_bits (obj s tp).(o_status) MSGSTAT_DAT) then
    Some (tp, set_obj tp (fun m => m <| o_status ::= fun x => Z.lor x MSGSTAT_VAL |> <| o_sigh := (obj s lp).(o_sigh) |>) s)
  else if negb (bool_decide ((obj s tp).(o_sigh) = (obj s lp).(o_sigh))) then
    let* s := (if Z.land (obj s tp).(o_status) (Z.lor MSGSTAT_BAD MSGSTAT_DAT) =? MSGSTAT_DAT then bad_insert tp s else Some s) in
    Some (lp, s <| q_txs ::= <[k := lp]> |>)
  else Some (tp, s).

Fixpoint merge_loop (l t : list (Z * ptr)) (add : gmap Z ptr) (recover : gset ptr) (s : pool) : option (list (Z * ptr) * gmap Z ptr * gset ptr * pool) :=
  match l with
  | [] => Some (t, add, recover, s)
  | (k, lp) :: l =>
      let* (t, s) := skip_less k t s in
      match t with
      | (tk, tp) :: t' =>
          if tk =? k then
            let* (p, s) := merge_equal k lp tp s in
            let recover := if has_bits (obj s p).(o_status) MSGSTAT_BAD then {[p]} ∪ recover else recover in
            let* s := to_block p (set_obj p (fun m => m <| o_status ::= fun x => Z.lor x MSGSTAT_VAL |>) s) in
            let* (t, s) := bad_same k t' s in
            merge_loop l t add recover s
          else
            let* s := (if same_key tk k then bad_unless tp s else Some s) in
            check bool_decide (s.(q_txs) !! k = None) in
            let* s := to_block lp s in
            merge_loop l t (<[k := lp]> add) recover s
      | [] =>
          check bool_decide (s.(q_txs) !! k = None) in
          let* s := to_block lp s in
          merge_loop l t (<[k := lp]> add) recover s
      end
  end.

(** The bad messages of the list are recovered; the set is ordered by the
    addresses of the objects, which the model leaves open. *)
Fixpoint recover_all (ps : list ptr) (s : pool) : option pool :=
  match ps with
  | [] => Some s
  | p :: ps => check has_bits (obj s p).(o_status) MSGSTAT_VAL in let* s := bad_recover p s in recover_all ps s
  end.

(** The merge with the elected list [final], and the queues behind it. *)
Definition merge_final (final : gmap Z ptr) (s : pool) : option pool :=
  let l := elems final in
  let* (t, add, recover, s) := merge_loop l (elems s.(q_txs)) ∅ ∅ s in
  let* s := match last l with None => Some s | Some (k, _) => let* (_, s) := bad_same k t s in Some s end in
  let s := s <| q_txs ::= fun m => m ∪ add |> in
  let* s := recover_all (elements recover) s in
  Some (s <| q_wait := s.(q_check) ++ s.(q_wait) |> <| q_check := [] |>).

(** * Cleaning the container *)

Section Clean.
(** The ledger and [undo_message], which gives the hash and the time of the
    message before. *)
Context {L : Type} (undo : mobj -> L -> option (list Z * Z * L)).

(** The pool, the ledger and the own messages to be signed again. *)
Record cleaning := { z_s : pool; z_l : L; z_sign : list ptr }.

Definition on_pool (f : pool -> option pool) (z : cleaning) : option cleaning := let* s := f z.(z_s) in Some (z <| z_s := s |>).
Definition on_obj (p : ptr) (f : mobj -> mobj) (z : cleaning) : cleaning := z <| z_s ::= set_obj p f |>.

Definition undo_obj (p : ptr) (z : cleaning) : option cleaning :=
  let s := z.(z_s) in
  let* (n, s) := obj_load s.(q_svid) p s in
  check negb (n =? 0) in
  let m := obj s p in
  check has_bits m.(o_status) MSGSTAT_COM in
  let* (msha, mtim, l) := undo m z.(z_l) in
  let s := s <| q_nodes ::= alter (fun n => n <| n_msid := u32 (m.(o_msid) - 1) |> <| n_msha := msha |> <| n_mtim := mtim |>) (Z.to_nat m.(o_svid)) |> in
  let s := set_obj p (fun m => m <| o_status ::= fun x => clear_bits x MSGSTAT_COM |>) (obj_unload s.(q_svid) p s) in
  Some (z <| z_s := s |> <| z_l := l |>).

Definition erase (k : Z) (z : cleaning) : cleaning := z <| z_s ::= fun s => s <| q_txs ::= delete k |> |>.

(** The first [p] of a queue is removed. *)
Fixpoint remove_first (p : ptr) (l : list ptr) : list ptr := match l with [] => [] | q :: l => if decide (q = p) then l else q :: remove_first p l end.

Definition queue (p : ptr) (s : pool) : pool := s <| q_wait ::= remove_first p |> <| q_check ::= cons p |>.

(** An elected message that is not executed. *)
Definition schedule (k : Z) (p : ptr) (s : pool) : option pool :=
  let m := obj s p in
  if m.(o_msid) =? 0xFFFFFFFF then
    check has_bits (nthn s.(q_nodes) m.(o_svid)).(n_status) SERVER_DBL in
    Some (set_obj p (fun m => m <| o_status ::= fun x => Z.lor x MSGSTAT_COM |>) s)
  else if has_bits m.(o_status) MSGSTAT_DAT then Some (queue p s)
  else match s.(q_bad) !! m.(o_sigh) with
  | Some q =>
      if (obj s q).(o_num) =? m.(o_num) then
        check has_bits (obj s q).(o_status) MSGSTAT_DAT in
        let* s := bad_recover q (s <| q_txs ::= <[k := q]> |>) in
        let* s := obj_move s.(q_now) q s in
        Some (queue q (set_obj q (fun m => m <| o_status ::= fun x => Z.lor x MSGSTAT_VAL |>) s))
      else Some (s <| q_missing ::= <[m.(o_num) := p]> |>)
  | None => Some (s <| q_missing ::= <[m.(o_num) := p]> |>)
  end.

(** One message; [None] is a failed assertion, the end of the process, or the
    late message that was not executed, whose element is used, and erased again,
    after it was erased.  The node of a bad message is read from the erased
    element too; it is taken to be still there. *)
Definition clean_one (k : Z) (p : ptr) (minmsid : Z) (z : cleaning) : option cleaning :=
  let s := z.(z_s) in
  let m := obj s p in
  let own := m.(o_svid) =? s.(q_svid) in
  let val := has_bits m.(o_status) MSGSTAT_VAL in
  let com := has_bits m.(o_status) MSGSTAT_COM in
  let next := u32 (s.(q_now) + BLOCKSEC) in
  if m.(o_msid) <=? minmsid then Some (erase k (z <| z_s ::= fun s => s <| q_disk ::= remove_undo m |> |>))
  else if has_bits m.(o_status) MSGSTAT_BAD then
    let* z := (if com then undo_obj p z else Some z) in
    let z := erase k z in
    Some (if own then z <| z_s ::= event_ Shutdown |> else z)
  else if negb val && com then
    let* z := undo_obj p z in
    if (obj z.(z_s) p).(o_now) <? z.(z_s).(q_now) then
      let* z := on_pool (bad_insert p) z in
      Some (if own then z <| z_sign ::= cons p |> else erase k z)
    else
      let* z := on_pool (obj_move next p) z in
      Some (z <| z_s ::= fun s => s <| q_wait ::= fun w => w ++ [p] |> |>)
  else if negb val && negb (m.(o_path) =? 0) && (m.(o_path) <=? s.(q_now)) then
    check negb (m.(o_now) <? s.(q_last_now)) in on_pool (obj_move next p) z
  else if val && negb com then on_pool (schedule k p) z
  else Some z.

(** [minmsid] of a node; [nodes] is read where the node has no entry. *)
Definition min_msid (s : pool) (svid : Z) : option Z := if Z.of_nat (length s.(q_last)) <=? svid then None else Some 0.

(** The loop, from the last message to the first. *)
Fixpoint clean_loop (l : list (Z * ptr)) (lastsvid minmsid : Z) (z : cleaning) : option cleaning :=
  match l with
  | [] => Some z
  | (k, p) :: l =>
      let svid := (obj z.(z_s) p).(o_svid) in
      let* minmsid := (if svid =? lastsvid then Some minmsid else min_msid z.(z_s) svid) in
      let* z := clean_one k p minmsid z in
      clean_loop l svid minmsid z
  end.

Definition clean_txs (z : cleaning) : option cleaning := clean_loop (rev (elems z.(z_s).(q_txs))) 0 0 z.

(** The part of [LAST_block_final] behind the list. *)
Definition LAST_block_merge (final : gmap Z ptr) (s : pool) (l : L) (sign : list ptr) : option cleaning :=
  let* s := merge_final final s in
  let* z := clean_txs {| z_s := s; z_l := l; z_sign := sign |} in
  Some (z <| z_s ::= fun s => s <| q_block_only := true |> |>).
End Clean.
