(* ===== verification/MergeProps.v ===== *)
(** After the election the messages of the node agree with the elected list. *)

From stdpp Require Import base gmap list.
From Stdlib Require Import ZArith Lia.
From S2P Require Import Prelude Params HashTree Usertxs Accounts Servers Ledger Message MerklePath MsgTree MsgFile MsgHead Pool PoolInv PoolProps Merge.

(** * Bits of the status *)

Lemma lor_other x y b : Z.land y b = 0 -> has_bits (Z.lor x y) b = has_bits x b.
Proof. intros Hy. unfold has_bits. now rewrite Z.land_lor_distr_l, Hy, Z.lor_0_r. Qed.

Lemma lor_same x b : b <> 0 -> has_bits (Z.lor x b) b = true.
Proof.
  intros Hb. unfold has_bits. apply negb_true_iff, Z.eqb_neq. intros E. apply Hb. rewrite <- E. apply Z.bits_inj'.
  intros i _. rewrite Z.land_spec, Z.lor_spec. now destruct (Z.testbit x i), (Z.testbit b i).
Qed.

Lemma clear_other x y b : Z.land y b = 0 -> has_bits (clear_bits x y) b = has_bits x b.
Proof.
  intros Hy. unfold has_bits, clear_bits. f_equal. f_equal. apply Z.bits_inj'. intros i _. rewrite !Z.land_spec, Z.ldiff_spec.
  pose proof (f_equal (fun z => Z.testbit z i) Hy) as Hi. cbn beta in Hi. rewrite Z.land_spec, Z.bits_0 in Hi.
  destruct (Z.testbit x i), (Z.testbit b i), (Z.testbit y i); cbn in *; congruence.
Qed.

Lemma clear_same x b : has_bits (clear_bits x b) b = false.
Proof.
  unfold has_bits, clear_bits. apply negb_false_iff, Z.eqb_eq. apply Z.bits_inj'. intros i _. rewrite Z.land_spec, Z.ldiff_spec, Z.bits_0.
  destruct (Z.testbit x i), (Z.testbit b i); reflexivity.
Qed.

(** * What the operations keep *)

Definition is_val (m : mobj) : bool := has_bits m.(o_status) MSGSTAT_VAL.
Definition is_com (m : mobj) : bool := has_bits m.(o_status) MSGSTAT_COM.
Definition is_bad (m : mobj) : bool := has_bits m.(o_status) MSGSTAT_BAD.
Definition is_dat (m : mobj) : bool := has_bits m.(o_status) MSGSTAT_DAT.

(** The number, the hash and the marks of an object, without the mark of bad
    ones. *)
Record ident (m m' : mobj) : Prop := {
  mk_num : m'.(o_num) = m.(o_num); mk_msid : m'.(o_msid) = m.(o_msid); mk_sigh : m'.(o_sigh) = m.(o_sigh);
  mk_val : is_val m' = is_val m; mk_com : is_com m' = is_com m; mk_dat : is_dat m = true -> is_dat m' = true
}.
Definition marks (m m' : mobj) : Prop := ident m m' /\ is_bad m' = is_bad m.

#[export] Instance ident_preorder : PreOrder ident.
Proof. split; [now intros m|]. intros a b c [] []. split; [congruence..|auto]. Qed.
#[export] Instance marks_preorder : PreOrder marks.
Proof. split; [now intros m|]. intros a b c [? ?] [? ?]. split; [now transitivity b|congruence]. Qed.

(** The bad messages with the number [k] are complete and stored under their
    hashes. *)
Definition bad_at (k : Z) (s : pool) : Prop :=
  forall h q, s.(q_bad) !! h = Some q -> exists m, s.(q_heap) !! q = Some m /\ (m.(o_num) = k -> m.(o_sigh) = h /\ is_dat m = true).

Definition stored (s : pool) : Prop := map_Forall (fun _ q => valid s q) s.(q_bad).

(** An operation that changes objects with numbers in [K], and marks those in [E]
    as elected. *)
Record step (K E : Z -> Prop) (s s' : pool) : Prop := {
  st_heap : forall q m, s.(q_heap) !! q = Some m -> exists m', s'.(q_heap) !! q = Some m' /\ m'.(o_num) = m.(o_num) /\ m'.(o_msid) = m.(o_msid) /\
    (~ E m.(o_num) -> is_val m' = is_val m) /\ (~ K m.(o_num) -> marks m m');
  st_bad : forall k, ~ K k -> bad_at k s -> bad_at k s';
  st_stored : stored s -> stored s';
  st_dom : forall q, valid s' q -> valid s q
}.
Definition none (_ : Z) : Prop := False.

Lemma step_refl K E s : step K E s s.
Proof. split; [|auto..]. intros q m Em. exists m. repeat split; auto. Qed.

Lemma step_trans K E a b c : step K E a b -> step K E b c -> step K E a c.
Proof.
  intros [H1 B1 S1 D1'] [H2 B2 S2 D2']. split; [|auto..]. intros q m Em. destruct (H1 q m Em) as (m1 & E1 & N1 & D1 & V1 & K1). destruct (H2 q m1 E1) as (m2 & E2 & N2 & D2 & V2 & K2).
  exists m2. rewrite N1 in *. split_and!; [exact E2|congruence..|intros HE; rewrite V2, V1; auto|]. intros HK. transitivity m1; auto.
Qed.

Lemma step_weaken K E K' E' s s' : (forall k, K k -> K' k) -> (forall k, E k -> E' k) -> step K E s s' -> step K' E' s s'.
Proof.
  intros HK HE [H B W D]. split; [|eauto..]. intros q m Em. destruct (H q m Em) as (m' & E1 & N & S & V & M). exists m'. split_and!; eauto.
Qed.

Lemma step_none K E s s' : step none none s s' -> step K E s s'.
Proof. now apply step_weaken. Qed.

(** The heap decides, when the stored bad messages are old or in [K]. *)
Lemma step_intro (K E : Z -> Prop) s s' :
  (forall q m, s.(q_heap) !! q = Some m -> exists m', s'.(q_heap) !! q = Some m' /\ m'.(o_num) = m.(o_num) /\ m'.(o_msid) = m.(o_msid) /\
    (~ E m.(o_num) -> is_val m' = is_val m) /\ (~ K m.(o_num) -> marks m m')) ->
  (forall h q, s'.(q_bad) !! h = Some q -> s.(q_bad) !! h = Some q \/ exists m, s.(q_heap) !! q = Some m /\ K m.(o_num)) -> (forall q, valid s' q -> valid s q) -> step K E s s'.
Proof.
  intros Hh Hb Hd. split; [exact Hh| | |exact Hd].
  2:{ intros Hw h q Eq. destruct (Hb h q Eq) as [E0|(m & Em & _)]; [destruct (Hw h q E0) as [m Em]|]; destruct (Hh q m Em) as (m' & E' & _); now exists m'. }
  intros k HK Hk h q Eq. destruct (Hb h q Eq) as [E0|(m & Em & HKm)].
  - destruct (Hk h q E0) as (m & Em & Hs). destruct (Hh q m Em) as (m' & E' & N & _ & _ & M). exists m'. split; [exact E'|]. rewrite N. intros Ek.
    destruct (Hs Ek) as [Es Ed]. assert (HM : marks m m') by (apply M; now rewrite Ek). destruct HM as [HM _]. split; [rewrite (mk_sigh _ _ HM); exact Es|now apply (mk_dat _ _ HM)].
  - destruct (Hh q m Em) as (m' & E' & N & _). exists m'. split; [exact E'|]. intros Ek. exfalso. apply HK. rewrite <- Ek, N. exact HKm.
Qed.

Lemma step_set_obj (K E : Z -> Prop) p f s :
  (forall m, s.(q_heap) !! p = Some m -> (f m).(o_num) = m.(o_num) /\ (f m).(o_msid) = m.(o_msid) /\ (~ E m.(o_num) -> is_val (f m) = is_val m) /\ (~ K m.(o_num) -> marks m (f m))) ->
  step K E s (set_obj p f s).
Proof.
  intros Hf. apply step_intro; [|auto|intros q [m Em]; cbn in Em; apply lookup_alter_Some in Em as [(-> & m0 & Em & _)|[_ Em]]; eexists; exact Em]. intros q m Em. change (q_heap (set_obj p f s)) with (alter f p s.(q_heap)). destruct (decide (q = p)) as [->|Hne].
  - exists (f m). rewrite lookup_alter_eq, Em. split; [reflexivity|now apply Hf].
  - exists m. rewrite lookup_alter_ne by congruence. repeat split; auto.
Qed.

Lemma step_frame K E s s' : s'.(q_heap) = s.(q_heap) -> s'.(q_bad) = s.(q_bad) -> step K E s s'.
Proof. intros Eh Eb. apply step_none, step_intro; [|rewrite Eb; auto|unfold valid; now rewrite Eh]. intros q m Em. exists m. rewrite Eh. repeat split; auto. Qed.

(** The containers the merge works on. *)
Definition same_box (s s' : pool) : Prop :=
  s'.(q_txs) = s.(q_txs) /\ s'.(q_missing) = s.(q_missing) /\ s'.(q_check) = s.(q_check) /\ s'.(q_now) = s.(q_now) /\ s'.(q_last) = s.(q_last).

#[export] Instance same_box_preorder : PreOrder same_box.
Proof. split; [now repeat split|]. unfold same_box. intros a b c. intuition congruence. Qed.

(** Objects in [P] may become bad and be stored so; nothing else changes. *)
Record calm (P : ptr -> Prop) (s s' : pool) : Prop := {
  cm_heap : forall q, option_Forall2 (fun m m' => ident m m' /\ (~ P q -> is_bad m' = is_bad m)) (s.(q_heap) !! q) (s'.(q_heap) !! q);
  cm_bad : forall h q, s'.(q_bad) !! h = Some q -> s.(q_bad) !! h = Some q \/ P q /\ exists m, s.(q_heap) !! q = Some m /\ m.(o_sigh) = h;
  cm_box : same_box s s'
}.
Definition nobody (_ : ptr) : Prop := False.

Lemma calm_at P s s' q m : calm P s s' -> s.(q_heap) !! q = Some m -> exists m', s'.(q_heap) !! q = Some m' /\ ident m m' /\ (~ P q -> is_bad m' = is_bad m).
Proof. intros [H _ _] E. specialize (H q). rewrite E in H. inversion H as [? m' [Hi Hb]|]. subst. eauto. Qed.

Lemma calm_back P s s' q m' : calm P s s' -> s'.(q_heap) !! q = Some m' -> exists m, s.(q_heap) !! q = Some m /\ ident m m'.
Proof. intros [H _ _] E. specialize (H q). rewrite E in H. inversion H as [m ? [Hi Hb]|]. subst. eauto. Qed.

Lemma calm_refl P s : calm P s s.
Proof. split; [|auto|reflexivity]. intros q. destruct (_ !! q); constructor. split; [reflexivity|auto]. Qed.

Lemma calm_trans P a b c : calm P a b -> calm P b c -> calm P a c.
Proof.
  intros H1 H2. split.
  - intros q. pose proof (cm_heap _ _ _ H2 q) as G. destruct (cm_heap _ _ _ H1 q) as [x y [I1 B1]|]; inversion G as [? z [I2 B2]|]; constructor. split; [now transitivity y|]. intros Hn. rewrite B2, B1; auto.
  - intros h q E. destruct (cm_bad _ _ _ H2 h q E) as [E1|[HP (m & Em & Es)]]; [now apply (cm_bad _ _ _ H1)|]. destruct (calm_back _ _ _ _ _ H1 Em) as (m0 & E0 & I0).
    right. split; [exact HP|]. exists m0. split; [exact E0|]. now rewrite <- (mk_sigh _ _ I0).
  - transitivity b; [apply H1|apply H2].
Qed.

Lemma calm_weaken (P P' : ptr -> Prop) s s' : (forall q, P q -> P' q) -> calm P s s' -> calm P' s s'.
Proof.
  intros HP [H B X]. split; [|intros h q E; destruct (B h q E) as [?|[? ?]]; auto|exact X]. intros q. destruct (H q) as [x y [I Hb]|]; constructor. split; [exact I|auto].
Qed.

Lemma calm_nobody P s s' : calm nobody s s' -> calm P s s'.
Proof. now apply calm_weaken. Qed.

Lemma calm_set_obj (P : ptr -> Prop) p f s : (forall m, s.(q_heap) !! p = Some m -> ident m (f m) /\ (~ P p -> is_bad (f m) = is_bad m)) -> calm P s (set_obj p f s).
Proof.
  intros Hf. split; [|auto|now repeat split]. intros q. change (q_heap (set_obj p f s)) with (alter f p s.(q_heap)). destruct (decide (q = p)) as [->|Hne].
  - rewrite lookup_alter_eq. destruct (_ !! p) as [m|]; constructor. now apply Hf.
  - rewrite lookup_alter_ne by congruence. destruct (_ !! q); constructor. split; [reflexivity|auto].
Qed.

Lemma calm_marks p f s : (forall m, s.(q_heap) !! p = Some m -> marks m (f m)) -> calm nobody s (set_obj p f s).
Proof. intros Hf. apply calm_set_obj. intros m Em. destruct (Hf m Em). auto. Qed.

Lemma calm_frame P s s' : s'.(q_heap) = s.(q_heap) -> s'.(q_bad) = s.(q_bad) -> same_box s s' -> calm P s s'.
Proof. intros Eh Eb Hb. split; [|rewrite Eb; auto|exact Hb]. intros q. rewrite Eh. destruct (_ !! q); constructor. split; [reflexivity|auto]. Qed.

Lemma calm_disk d s : calm nobody s (s <| q_disk := d |>).
Proof. now apply calm_frame. Qed.

(** In terms of the numbers. *)
Lemma calm_step (P : ptr -> Prop) (K : Z -> Prop) s s' : (forall q m, P q -> s.(q_heap) !! q = Some m -> K m.(o_num)) -> calm P s s' -> step K none s s'.
Proof.
  intros HP Hc. apply step_intro.
  - intros q m Em. destruct (calm_at _ _ _ _ _ Hc Em) as (m' & E' & I & B). exists m'. split_and!; [exact E'|apply I..|intros _; apply I|]. intros HK. split; [exact I|]. apply B. intros HPq. now apply HK, (HP q).
  - intros h q Eq. destruct (cm_bad _ _ _ Hc h q Eq) as [?|[HPq (m & Em & _)]]; [now left|]. right. exists m. split; [exact Em|now apply (HP q)].
  - intros q [m' E']. destruct (calm_back _ _ _ _ _ Hc E') as (m & Em & _). now exists m.
Qed.

Lemma calm_bad_at (P : ptr -> Prop) k s s' : (forall q m, P q -> s.(q_heap) !! q = Some m -> m.(o_num) = k -> is_dat m = true) -> calm P s s' -> bad_at k s -> bad_at k s'.
Proof.
  intros HP Hc Hk h q Eq. destruct (cm_bad _ _ _ Hc h q Eq) as [E0|[HPq (m & Em & Es)]].
  - destruct (Hk h q E0) as (m & Em & Hs). destruct (calm_at _ _ _ _ _ Hc Em) as (m' & E' & I & _). exists m'. split; [exact E'|]. rewrite (mk_num _ _ I), (mk_sigh _ _ I). intros Hn.
    destruct (Hs Hn). split; [assumption|now apply (mk_dat _ _ I)].
  - destruct (calm_at _ _ _ _ _ Hc Em) as (m' & E' & I & _). exists m'. split; [exact E'|]. rewrite (mk_num _ _ I), (mk_sigh _ _ I). intros Hn. split; [exact Es|]. apply (mk_dat _ _ I), (HP q); auto.
Qed.

(** * Operations on one object *)

Lemma save_marks m d ok m' d' : msg_save m d = Some (ok, m', d') -> marks m m'.
Proof.
  unfold msg_save. destruct (negb _); [intros E; injection E as <- <- <-; reflexivity|]. destruct (_ =? 0); [intros E; injection E as <- <- <-; reflexivity|].
  intros E. inv_opt. subst. split; [|cbn; now apply lor_other]. split; try reflexivity; try (cbn; now apply lor_other). apply has_bits_lor.
Qed.

Lemma move_marks path m d m' d' : msg_move path m d = Some (m', d') -> marks m m'.
Proof. unfold msg_move. destruct (_ || _); [intros E; injection E as <- _; reflexivity|]. intros E. inv_opt. subst. now repeat split. Qed.

Lemma obj_save_calm p s ok s' : obj_save p s = Some (ok, s') -> calm nobody s s'.
Proof.
  unfold obj_save. intros E. inv_opt. subst s'. eapply calm_trans; [|apply calm_disk].
  apply calm_marks. intros m0 Em. apply save_marks in E0. now rewrite (obj_at _ _ _ Em) in E0.
Qed.

Lemma obj_move_calm path p s s' : obj_move path p s = Some s' -> calm nobody s s'.
Proof.
  unfold obj_move. intros E. inv_opt. subst s'. eapply calm_trans; [|apply calm_disk].
  apply calm_marks. intros m0 Em. apply move_marks in E0. now rewrite (obj_at _ _ _ Em) in E0.
Qed.

Lemma to_block_calm p s s' : to_block p s = Some s' -> calm nobody s s'.
Proof. unfold to_block. intros E. inv_opt. subst s'. eapply calm_trans; [eapply obj_move_calm; eassumption|]. apply calm_marks. now repeat split. Qed.

Lemma lor_bad_ident m : ident m (m <| o_status ::= fun x => Z.lor x MSGSTAT_BAD |>).
Proof. split; try reflexivity; try (cbn; now apply lor_other). apply has_bits_lor. Qed.

Lemma clear_bad_ident m : ident m (m <| o_status ::= fun x => clear_bits x MSGSTAT_BAD |>).
Proof. split; try reflexivity; try (cbn; now apply clear_other). now apply has_bits_clear. Qed.

Lemma calm_bad_mark p s : calm (eq p) s (set_obj p (fun m => m <| o_status ::= fun x => Z.lor x MSGSTAT_BAD |>) s).
Proof. apply calm_set_obj. intros m _. split; [apply lor_bad_ident|]. intros Hn. destruct (Hn eq_refl). Qed.

Lemma calm_bad_store p m s : s.(q_heap) !! p = Some m -> calm (eq p) s (s <| q_bad ::= <[m.(o_sigh) := p]> |>).
Proof.
  intros Em. split; [|cbn; intros h q Eq; apply lookup_insert_Some in Eq as [[<- <-]|[_ Eq]]; eauto|now repeat split]. intros q. cbn. destruct (_ !! q); constructor. split; [reflexivity|auto].
Qed.

(** Only the message itself becomes bad. *)
Lemma bad_insert_calm p s s' : valid s p -> bad_insert p s = Some s' -> calm (eq p) s s'.
Proof.
  intros [m Em] E. unfold bad_insert in E. rewrite (obj_at _ _ _ Em) in E. inv_opt. pose proof (calm_bad_mark p s) as Hset.
  destruct (q_bad s !! o_sigh m) as [q|] eqn:Eq.
  - inv_opt. subst s'. destruct (_ && _); [|exact Hset]. eapply calm_trans; [exact Hset|]. apply calm_nobody, calm_marks. intros m0 _. split; [|cbn; now apply clear_other].
    split; try reflexivity; try (cbn; now apply clear_other). now apply has_bits_clear.
  - inv_opt. subst s'. assert (H1 : calm (eq p) s p0).
    { destruct (has_bits (o_status m) MSGSTAT_SAV).
      - inv_opt. subst p0. unfold msg_bad_insert in E. inv_opt. destruct (retarget _ _ _) as [b0 d0]. injection E as <- <- <-. eapply calm_trans; [|apply calm_nobody, calm_disk].
        apply calm_set_obj. intros m0 E2. rewrite Em in E2. injection E2 as <-. split; [apply lor_bad_ident|]. intros Hn. destruct (Hn eq_refl).
      - inv_opt. subst p0. eapply calm_trans; [exact Hset|]. apply calm_nobody. eapply obj_save_calm; eassumption. }
    eapply calm_trans; [exact H1|]. destruct (calm_at _ _ _ _ _ H1 Em) as (m1 & Em1 & _). rewrite (obj_at _ _ _ Em1). now apply calm_bad_store.
Qed.

Lemma bad_unless_calm p s s' : valid s p -> bad_unless p s = Some s' -> calm (eq p) s s'.
Proof. intros Hv E. unfold bad_unless in E. destruct (has_bits _ _); [injection E as <-; apply calm_refl|]. now apply bad_insert_calm. Qed.

Lemma calm_valid P s s' p : calm P s s' -> valid s p -> valid s' p.
Proof. intros Hc [m Em]. destruct (calm_at _ _ _ _ _ Hc Em) as (m' & E' & _). now exists m'. Qed.

Lemma calm_unstore h s : calm nobody s (s <| q_bad ::= delete h |>).
Proof.
  split; [|cbn; intros h' q Eq; apply lookup_delete_Some in Eq as [_ Eq]; auto|now repeat split]. intros q. cbn. destruct (_ !! q); constructor. split; [reflexivity|auto].
Qed.

(** A recovered message is not bad. *)
Lemma bad_recover_calm p s s' : bad_recover p s = Some s' -> calm (eq p) s s' /\ (forall m, s'.(q_heap) !! p = Some m -> is_bad m = false).
Proof.
  unfold bad_recover. set (s1 := s <| q_bad ::= _ |>). assert (H1 : calm (eq p) s s1) by apply calm_nobody, calm_unstore. change (obj s1 p) with (obj s p).
  destruct (has_bits _ _); intros E; inv_opt.
  - subst s'. unfold msg_bad_recover in E0. inv_opt. destruct (retarget _ _ _) as [b0 d0]. injection E0 as <- <- <-. split.
    + eapply calm_trans; [exact H1|]. eapply calm_trans; [|apply calm_nobody, calm_disk]. apply calm_set_obj. intros m0 E2. change (s.(q_heap) !! p = Some m0) in E2. rewrite (obj_at _ _ _ E2).
      split; [apply clear_bad_ident|]. intros Hn. destruct (Hn eq_refl).
    + intros m Em. cbn in Em. apply lookup_alter_Some in Em as [(_ & m0 & _ & ->)|[Hn _]]; [apply clear_same|congruence].
  - subst s'. set (s2 := set_obj p _ s1) in *. assert (H2 : calm (eq p) s1 s2) by (apply calm_set_obj; intros m0 _; split; [apply clear_bad_ident|intros Hn; destruct (Hn eq_refl)]).
    set (s3 := if _ =? 0 then _ else s2) in *. assert (H3 : calm nobody s2 s3) by (unfold s3; destruct (_ =? 0); [apply calm_marks; now repeat split|apply calm_refl]).
    apply obj_save_calm in E0. pose proof (calm_trans _ _ _ _ H3 E0) as H4. split; [eapply calm_trans; [exact H1|]; eapply calm_trans; [exact H2|]; now apply calm_nobody|].
    intros m Em. destruct (calm_back _ _ _ _ _ H4 Em) as (m2 & E2 & I2). destruct (calm_at _ _ _ _ _ H4 E2) as (m' & E' & _ & B'). rewrite Em in E'. injection E' as <-. rewrite B' by tauto.
    cbn in E2. apply lookup_alter_Some in E2 as [(_ & m0 & _ & ->)|[Hn _]]; [apply clear_same|congruence].
Qed.

(** * The lists *)

(** The objects of a list have its keys as numbers. *)
Definition listed (s : pool) (t : list (Z * ptr)) : Prop := forall k p, (k, p) ∈ t -> exists m, s.(q_heap) !! p = Some m /\ m.(o_num) = k.

Lemma step_listed K E s s' t : step K E s s' -> listed s t -> listed s' t.
Proof. intros [H _ _ _] Hl k p Hp. destruct (Hl k p Hp) as (m & Em & <-). destruct (H p m Em) as (m' & E' & N & _). eauto. Qed.

Lemma listed_sub s t t' : t' ⊆ t -> listed s t -> listed s t'.
Proof. intros Hs Hl k p Hp. apply Hl, Hs, Hp. Qed.

(** One message of the list: objects with its number change, the stored bad
    messages stay right. *)
Definition one_step (k : Z) (s s' : pool) : Prop := step (eq k) (eq k) s s' /\ forall j, bad_at j s -> bad_at j s'.

Lemma one_step_trans k a b c : one_step k a b -> one_step k b c -> one_step k a c.
Proof. intros [? ?] [? ?]. split; [now apply (step_trans _ _ _ b)|auto]. Qed.

Lemma calm_one_step k s s' : calm nobody s s' -> one_step k s s'.
Proof. intros Hc. split; [apply step_none; now apply (calm_step nobody)|]. intros j. now apply (calm_bad_at nobody). Qed.

(** Changing an object that keeps its hash. *)
Lemma set_one_step k p f s : (forall m, s.(q_heap) !! p = Some m -> m.(o_num) = k) ->
  (forall m, (f m).(o_num) = m.(o_num) /\ (f m).(o_msid) = m.(o_msid)) ->
  (forall m, s.(q_heap) !! p = Some m -> is_dat m = true -> (f m).(o_sigh) = m.(o_sigh) /\ is_dat (f m) = true) -> one_step k s (set_obj p f s).
Proof.
  intros Hk Hn Hf. split.
  - apply step_set_obj. intros m Em. destruct (Hn m). split_and!; [auto..|intros Hc; destruct Hc; symmetry; now apply Hk|intros Hc; destruct Hc; symmetry; now apply Hk].
  - intros j Hj h q Eq. destruct (Hj h q Eq) as (m & Em & Hs). change (q_heap (set_obj p f s)) with (alter f p s.(q_heap)). destruct (decide (q = p)) as [->|Hne].
    + exists (f m). rewrite lookup_alter_eq, Em. split; [reflexivity|]. destruct (Hn m) as [-> _]. intros Ej. destruct (Hs Ej) as [Es Ed]. destruct (Hf m Em Ed). split; [congruence|assumption].
    + exists m. rewrite lookup_alter_ne by congruence. auto.
Qed.

Lemma val_one_step k p s : (forall m, s.(q_heap) !! p = Some m -> m.(o_num) = k) -> one_step k s (set_obj p (fun m => m <| o_status ::= fun x => Z.lor x MSGSTAT_VAL |>) s).
Proof. intros Hk. apply set_one_step; [exact Hk|auto|]. intros m _ Hd. split; [reflexivity|]. now apply has_bits_lor. Qed.

Lemma frame_one_step k s s' : s'.(q_heap) = s.(q_heap) -> s'.(q_bad) = s.(q_bad) -> one_step k s s'.
Proof. intros Eh Eb. split; [now apply step_frame|]. unfold bad_at. now rewrite Eb, Eh. Qed.

Lemma merge_equal_spec k lp tp s p s' ml : s.(q_txs) !! k = Some tp -> listed s [(k, tp)] -> s.(q_heap) !! lp = Some ml -> ml.(o_num) = k -> merge_equal k lp tp s = Some (p, s') ->
  one_step k s s' /\ s'.(q_txs) = <[k := p]> s.(q_txs) /\ exists m, s'.(q_heap) !! p = Some m /\ m.(o_num) = k /\ m.(o_sigh) = ml.(o_sigh).
Proof.
  intros Et Hl El Ek. destruct (Hl k tp) as (mt & Em & Hk); [left|]. unfold merge_equal. rewrite (obj_at _ _ _ Em), (obj_at _ _ _ El).
  destruct (has_bits (o_status mt) MSGSTAT_DAT) eqn:Ed; cbn [negb].
  - destruct (bool_decide_reflect (mt.(o_sigh) = ml.(o_sigh))) as [Es|Hne]; cbn [negb].
    + intros E. injection E as <- <-. split; [split; [apply step_refl|auto]|]. rewrite insert_id by exact Et. eauto.
    + intros E. inv_opt. subst p s'. assert (Hc : calm (eq tp) s p0).
      { destruct (_ =? MSGSTAT_DAT); [apply bad_insert_calm; [now exists mt|exact E0]|injection E0 as <-; apply calm_refl]. }
      assert (H1 : one_step k s p0).
      { split; [|intros j; apply (calm_bad_at (eq tp)); [intros q m <- Eq _; rewrite Em in Eq; injection Eq as <-; exact Ed|exact Hc]].
        apply (step_weaken (eq k) none); [auto|intros ? []|]. apply (calm_step (eq tp)); [|exact Hc]. intros q m <- Eq. congruence. }
      split; [eapply one_step_trans; [exact H1|now apply frame_one_step]|]. cbn. destruct (cm_box _ _ _ Hc) as [-> _]. split; [reflexivity|].
      destruct (calm_at _ _ _ _ _ Hc El) as (m' & E' & I & _). exists m'. rewrite (mk_num _ _ I), (mk_sigh _ _ I). auto.
  - intros E. injection E as <- <-. rewrite insert_id by exact Et. split; [|split; [reflexivity|]].
    + apply set_one_step; [congruence|auto|]. intros m E1 Hd. unfold is_dat in Hd. congruence.
    + eexists. split; [apply lookup_alter_Some; left; eauto|auto].
Qed.

Lemma suffix_keys (t t' : list (Z * ptr)) k : t `suffix_of` t' -> k ∉ t'.*1 -> k ∉ t.*1.
Proof. intros [u ->] Hk Hin. apply Hk. rewrite fmap_app. apply elem_of_app. now right. Qed.

Section Lists.
(** The elected keys, of which no two have the same node and number, and the
    messages of the node. *)
Context (F : Z -> Prop) (T : list (Z * ptr)).
Hypothesis apart : forall j k, F j -> F k -> same_key j k = true -> j = k.

(** Another message with the number of an elected one. *)
Definition rival (j : Z) : Prop := exists k, F k /\ same_key j k = true /\ j <> k.
Definition victim (q : ptr) : Prop := exists j, (j, q) ∈ T /\ rival j.

Lemma rival_not_elected k : rival k -> ~ F k.
Proof. intros (j & Hj & Hs & Hne) Hk. auto. Qed.

Lemma victim_step s s' : listed s T -> calm victim s s' -> step rival none s s'.
Proof. intros Hl. apply calm_step. intros q m (j & Hq & Hr) Em. destruct (Hl j q Hq) as (m' & E' & <-). congruence. Qed.

Lemma victim_bad_unless k j p s s' : F k -> (j, p) ∈ T -> j <> k -> listed s T -> (if same_key j k then bad_unless p s else Some s) = Some s' -> calm victim s s'.
Proof.
  intros Hk Hp Hne Hl. destruct (same_key j k) eqn:Es; [|intros E; injection E as <-; apply calm_refl]. intros E. apply (calm_weaken (eq p)).
  - intros q <-. exists j. split; [exact Hp|]. exists k. auto.
  - apply bad_unless_calm; [|exact E]. destruct (Hl j p Hp) as (m & Em & _). now exists m.
Qed.

Lemma victim_listed s s' t : listed s T -> calm victim s s' -> listed s t -> listed s' t.
Proof. intros Hl Hc. eapply step_listed. now apply victim_step. Qed.

Lemma skip_less_spec k : F k -> forall t s t' s', t ⊆ T -> listed s T -> skip_less k t s = Some (t', s') -> calm victim s s' /\ t' `suffix_of` t.
Proof.
  intros Hk. induction t as [|[j p] t IH]; intros s t' s' Ht Hl E; cbn [skip_less] in E; [injection E as <- <-; split; [apply calm_refl|reflexivity]|].
  destruct (Z.ltb_spec j k) as [Hlt|]; [|injection E as <- <-; split; [apply calm_refl|reflexivity]]. inv_opt. apply (victim_bad_unless k j p) in E0; [|auto|apply Ht; left|lia|auto].
  apply IH in E as [Hc Hs]; [|intros x Hx; apply Ht; now right|now apply (victim_listed s)]. split; [now apply (calm_trans _ _ p0)|now apply suffix_cons_r].
Qed.

Lemma bad_same_spec k : F k -> forall t s t' s', t ⊆ T -> k ∉ t.*1 -> listed s T -> bad_same k t s = Some (t', s') -> calm victim s s' /\ t' `suffix_of` t.
Proof.
  intros Hk. induction t as [|[j p] t IH]; intros s t' s' Ht Hn Hl E; cbn [bad_same] in E; [injection E as <- <-; split; [apply calm_refl|reflexivity]|]. cbn in Hn. apply not_elem_of_cons in Hn as [Hne Hn].
  destruct (same_key j k) eqn:Es; [|injection E as <- <-; split; [apply calm_refl|reflexivity]]. inv_opt. assert (Hc0 : calm victim s p0) by (apply (victim_bad_unless k j p); [auto|apply Ht; left|congruence|auto|now rewrite Es]).
  apply IH in E as [Hc Hs]; [|intros x Hx; apply Ht; now right|exact Hn|now apply (victim_listed s)]. split; [now apply (calm_trans _ _ p0)|now apply suffix_cons_r].
Qed.

(** The object of an elected message: it is marked, has the elected hash, and if
    it is bad it will be recovered. *)
Definition elected (s : pool) (k : Z) (h : list Z) (recover : gset ptr) (p : ptr) : Prop :=
  exists m, s.(q_heap) !! p = Some m /\ m.(o_num) = k /\ m.(o_sigh) = h /\ is_val m = true /\ (is_bad m = true -> p ∈ recover).

Lemma step_elected K E s s' k h rec rec' p : step K E s s' -> ~ K k -> rec ⊆ rec' -> elected s k h rec p -> elected s' k h rec' p.
Proof.
  intros [H _ _ _] HK Hr (m & Em & N & S & V & B). destruct (H p m Em) as (m' & E' & N' & _ & _ & M). destruct M as [I Hb]; [now rewrite N|]. exists m'.
  rewrite (mk_sigh _ _ I), (mk_val _ _ I), Hb. split_and!; [auto|congruence|auto|auto|]. intros Hbad. now apply Hr, B.
Qed.

(** The result for the list [l]. *)
Record merged (l : list (Z * ptr)) (add : gmap Z ptr) (rec : gset ptr) (s : pool) (add' : gmap Z ptr) (rec' : gset ptr) (s' : pool) : Prop := {
  md_step : step (fun k => rival k \/ k ∈ l.*1) F s s';
  md_rec : rec ⊆ rec';
  md_bad : forall k, F k -> bad_at k s -> bad_at k s';
  md_txs : forall k, k ∉ l.*1 -> s'.(q_txs) !! k = s.(q_txs) !! k /\ add' !! k = add !! k;
  md_in : forall k p, (k, p) ∈ l -> exists q, elected s' k (obj s p).(o_sigh) rec' q /\ (s'.(q_txs) !! k = Some q \/ s'.(q_txs) !! k = None /\ add' !! k = Some q)
}.

Lemma merged_nil add rec s : merged [] add rec s add rec s.
Proof. split; auto; [apply step_refl|now intros k p []%elem_of_nil]. Qed.

(** The messages of the list as they are made. *)
Definition candidates (s : pool) (l : list (Z * ptr)) : Prop := forall k p, (k, p) ∈ l -> elected s k (obj s p).(o_sigh) ∅ p.

Lemma elected_hash s k h rec p : elected s k h rec p -> (obj s p).(o_sigh) = h.
Proof. intros (m & Em & _ & <- & _). now rewrite (obj_at _ _ _ Em). Qed.

Lemma step_candidate K E s s' k p : step K E s s' -> ~ K k -> elected s k (obj s p).(o_sigh) ∅ p -> (obj s' p).(o_sigh) = (obj s p).(o_sigh) /\ elected s' k (obj s' p).(o_sigh) ∅ p.
Proof. intros Hs HK Hp. apply (step_elected _ _ _ _ _ _ _ ∅ _ Hs HK) in Hp; [|reflexivity]. pose proof (elected_hash _ _ _ _ _ Hp) as Eh. now rewrite Eh. Qed.

(** One message and the rest of the list. *)
Lemma merged_cons k p l add rec s add1 rec1 s1 add' rec' s' q :
  F k -> k ∉ l.*1 -> (forall j, j ∈ l.*1 -> F j) -> candidates s l ->
  step (fun j => rival j \/ j = k) F s s1 -> (forall j, F j -> bad_at j s -> bad_at j s1) -> rec ⊆ rec1 ->
  (forall j, j <> k -> s1.(q_txs) !! j = s.(q_txs) !! j /\ add1 !! j = add !! j) ->
  elected s1 k (obj s p).(o_sigh) rec1 q -> (s1.(q_txs) !! k = Some q \/ s1.(q_txs) !! k = None /\ add1 !! k = Some q) ->
  merged l add1 rec1 s1 add' rec' s' -> merged ((k, p) :: l) add rec s add' rec' s'.
Proof.
  intros Fk Hk Fl Hl Hs Hb Hr Ht He Hq [Ms Mr Mb Mt Mi]. pose proof (rival_not_elected k) as Rk. split.
  - eapply step_trans; [eapply step_weaken; [| |exact Hs]|eapply step_weaken; [| |exact Ms]]; cbn; auto.
    + intros j [Hj| ->]; [now left|right; left].
    + intros j [Hj|Hj]; [now left|right; now right].
  - now transitivity rec1.
  - auto.
  - cbn. intros j [Hne Hj]%not_elem_of_cons. destruct (Mt j Hj) as [-> ->]. now apply Ht.
  - intros j r [E|Hin]%elem_of_cons.
    + injection E as -> ->. exists q. split; [|destruct (Mt k Hk) as [-> ->]; exact Hq]. eapply step_elected; [exact Ms| |exact Mr|exact He]. intros [?|?]; [now apply Rk|contradiction].
    + assert (Hj : j ∈ l.*1) by (apply list_elem_of_fmap; now exists (j, r)). destruct (step_candidate _ _ _ _ j r Hs) as [<- _]; [|now apply Hl|now apply Mi].
      intros [Hr' | ->]; [now apply (rival_not_elected j); auto|contradiction].
Qed.

Lemma rest_candidates k l s s1 : k ∉ l.*1 -> (forall j, j ∈ l.*1 -> F j) -> step (fun j => rival j \/ j = k) F s s1 -> candidates s l -> candidates s1 l.
Proof.
  intros Hk Fl Hs Hc j r Hin. assert (Hj : j ∈ l.*1) by (apply list_elem_of_fmap; now exists (j, r)). apply (step_candidate _ _ _ _ _ _ Hs); [|now apply Hc].
  intros [Hr | ->]; [now apply (rival_not_elected j); auto|contradiction].
Qed.

(** Steps of the loop as steps for the message [k]. *)
Lemma victim_entry k s s' : listed s T -> calm victim s s' -> step (fun j => rival j \/ j = k) F s s'.
Proof. intros Hl Hc. eapply step_weaken; [| |now apply victim_step]; [auto|intros ? []]. Qed.

Lemma one_entry k s s' : F k -> one_step k s s' -> step (fun j => rival j \/ j = k) F s s'.
Proof. intros Fk [Hs _]. eapply step_weaken; [| |exact Hs]; [intros j <-; auto|now intros j <-]. Qed.

Lemma victim_bad_at k s s' : F k -> listed s T -> calm victim s s' -> bad_at k s -> bad_at k s'.
Proof. intros Fk Hl Hc. eapply st_bad; [now apply victim_step|]. intros Hr. now apply (rival_not_elected k). Qed.

Lemma candidates_rest k p l s : candidates s ((k, p) :: l) -> candidates s l.
Proof. intros Hc j q Hq. apply Hc. now right. Qed.

Lemma new_entry k p l add rec s s1 s2 add' rec' s' :
  F k -> k ∉ l.*1 -> (forall j, j ∈ l.*1 -> F j) -> candidates s ((k, p) :: l) -> listed s T -> calm victim s s1 -> s1.(q_txs) !! k = None -> to_block p s1 = Some s2 ->
  merged l (<[k := p]> add) rec s2 add' rec' s' -> merged ((k, p) :: l) add rec s add' rec' s'.
Proof.
  intros Fk Hk Fl Hc Hl H1 Hn H2 HM. apply to_block_calm in H2. pose proof (cm_box _ _ _ H1) as [E1 _]. pose proof (cm_box _ _ _ H2) as [E2 _].
  assert (Hs : step (fun j => rival j \/ j = k) F s s2) by (apply (step_trans _ _ _ s1); [now apply victim_entry|apply one_entry; [exact Fk|now apply calm_one_step]]).
  apply (merged_cons k p l add rec s (<[k := p]> add) rec s2 add' rec' s' p); auto; [now apply (candidates_rest k p)|..].
  - intros j Fj Hj. apply (calm_one_step k _ _ H2). now apply (victim_bad_at j s).
  - intros j Hne. rewrite E2, E1, lookup_insert_ne by congruence. auto.
  - assert (He : elected s k (obj s p).(o_sigh) ∅ p) by (apply Hc; left).
    apply (step_elected none none s1 s2 k _ rec rec); [now apply (calm_step nobody)|intros []|reflexivity|]. apply (step_elected rival none s s1 k _ ∅ rec p); [now apply victim_step| |apply empty_subseteq|exact He].
    intros Hr. now apply (rival_not_elected k).
  - right. rewrite E2, lookup_insert_eq. auto.
Qed.

Lemma known_entry k p tp l add rec s s1 q s2 s3 s4 add' rec' s' :
  F k -> k ∉ l.*1 -> (forall j, j ∈ l.*1 -> F j) -> candidates s ((k, p) :: l) -> listed s T -> (k, tp) ∈ T -> s.(q_txs) !! k = Some tp ->
  calm victim s s1 -> merge_equal k p tp s1 = Some (q, s2) -> to_block q (set_obj q (fun m => m <| o_status ::= fun x => Z.lor x MSGSTAT_VAL |>) s2) = Some s3 -> calm victim s3 s4 ->
  merged l add (if has_bits (obj s2 q).(o_status) MSGSTAT_BAD then {[q]} ∪ rec else rec) s4 add' rec' s' -> merged ((k, p) :: l) add rec s add' rec' s'.
Proof.
  intros Fk Hk Fl Hc Hl Htp Et H1 H2 H3 H4 HM. set (rec1 := if has_bits _ _ then _ else rec) in *. apply to_block_calm in H3. pose proof (cm_box _ _ _ H1) as [E1 _]. pose proof (cm_box _ _ _ H3) as [E3 _]. pose proof (cm_box _ _ _ H4) as [E4 _].
  assert (He : elected s1 k (obj s p).(o_sigh) ∅ p).
  { apply (step_elected rival none s s1 k _ ∅ ∅); [now apply victim_step| |reflexivity|apply Hc; left]. intros Hr. now apply (rival_not_elected k). }
  destruct He as (ml & El & Nl & Sl & _). pose proof (victim_step _ _ Hl H1) as S1. pose proof (step_listed _ _ _ _ _ S1 Hl) as L1.
  destruct (merge_equal_spec k p tp s1 q s2 ml) as (O2 & T2 & m & Em & Nm & Sm); [congruence|intros j r Hj; apply L1; now apply list_elem_of_singleton in Hj as [= -> ->]|auto..|].
  assert (O3 : one_step k s1 s3).
  { eapply one_step_trans; [exact O2|]. eapply one_step_trans; [apply (val_one_step k q); congruence|now apply calm_one_step]. }
  pose proof (step_listed _ _ _ _ _ (proj1 O3) L1) as L3. change (q_txs (set_obj q _ s2)) with (q_txs s2) in E3.
  apply (merged_cons k p l add rec s add rec1 s4 add' rec' s' q); auto; [now apply (candidates_rest k p)|..].
  - apply (step_trans _ _ _ s1); [now apply victim_entry|]. apply (step_trans _ _ _ s3); [now apply one_entry|now apply victim_entry].
  - intros j Fj Hj. apply (victim_bad_at j s3); auto. apply O3. now apply (victim_bad_at j s).
  - unfold rec1. destruct (has_bits _ _); set_solver.
  - intros j Hne. rewrite E4, E3, T2, E1, lookup_insert_ne by congruence. auto.
  - apply (step_elected rival none s3 s4 k _ rec1 rec1); [now apply victim_step|intros Hr; now apply (rival_not_elected k)|reflexivity|].
    eapply (step_elected none none _ s3 k _ rec1 rec1); [apply (calm_step nobody); [now intros ? ? []|exact H3]|intros []|reflexivity|].
    eexists. split; [apply lookup_alter_Some; left; eauto|]. split_and!; [exact Nm|cbn; congruence|now apply lor_same|]. unfold is_bad, rec1. cbn. rewrite lor_other, (obj_at _ _ _ Em) by reflexivity. intros ->. set_solver.
  - left. rewrite E4, E3, T2. apply lookup_insert_eq.
Qed.

(** The state of the loop over the container. *)
Record walk (t : list (Z * ptr)) (s : pool) : Prop := {
  wk_listed : listed s T; wk_sub : t ⊆ T; wk_nodup : NoDup t.*1; wk_txs : forall k p, (k, p) ∈ t -> s.(q_txs) !! k = Some p
}.

Lemma walk_suffix t t' s : t' `suffix_of` t -> walk t s -> walk t' s.
Proof.
  intros [u ->] [Hl Hs Hn Ht]. split; [exact Hl|intros x Hx; apply Hs, elem_of_app; now right|rewrite fmap_app in Hn; now apply NoDup_app in Hn|].
  intros k p Hp. apply Ht, elem_of_app. now right.
Qed.

Lemma walk_calm t s s' : calm victim s s' -> walk t s -> walk t s'.
Proof. intros Hc [Hl Hs Hn Ht]. split; [now apply (victim_listed s)|auto..|]. destruct (cm_box _ _ _ Hc) as [-> _]. exact Ht. Qed.

Lemma walk_one t k s s' : one_step k s s' -> k ∉ t.*1 -> (forall j, j <> k -> s'.(q_txs) !! j = s.(q_txs) !! j) -> walk t s -> walk t s'.
Proof.
  intros [Hs _] Hk Ho [Hl Hsub Hn Ht]. split; [now apply (step_listed _ _ _ _ _ Hs)|auto..|]. intros j p Hp. rewrite Ho; [now apply Ht|]. intros ->. apply Hk, list_elem_of_fmap. now exists (k, p).
Qed.

Lemma new_walk k p t l s s1 s2 : F k -> k ∉ l.*1 -> (forall j, j ∈ l.*1 -> F j) -> walk t s -> candidates s ((k, p) :: l) -> calm victim s s1 -> to_block p s1 = Some s2 ->
  walk t s2 /\ candidates s2 l.
Proof.
  intros Fk Hk Fl Hw Hc H1 H2. apply to_block_calm in H2. pose proof (wk_listed _ _ Hw) as Hl. split; [apply (walk_calm t s1); [now apply calm_nobody|now apply (walk_calm t s)]|].
  apply (rest_candidates k l s); auto; [|now apply (candidates_rest k p)]. apply (step_trans _ _ _ s1); [now apply victim_entry|]. apply one_entry; [exact Fk|now apply calm_one_step].
Qed.

Lemma known_walk k p tp t l s s1 q s2 s3 : F k -> k ∉ l.*1 -> (forall j, j ∈ l.*1 -> F j) -> walk ((k, tp) :: t) s -> candidates s ((k, p) :: l) -> calm victim s s1 ->
  merge_equal k p tp s1 = Some (q, s2) -> to_block q (set_obj q (fun m => m <| o_status ::= fun x => Z.lor x MSGSTAT_VAL |>) s2) = Some s3 -> walk t s3 /\ candidates s3 l.
Proof.
  intros Fk Hk Fl Hw Hc H1 H2 H3. apply to_block_calm in H3. pose proof (wk_listed _ _ Hw) as Hl. pose proof (walk_calm _ _ _ H1 Hw) as W1.
  assert (He : elected s1 k (obj s p).(o_sigh) ∅ p).
  { apply (step_elected rival none s s1 k _ ∅ ∅); [now apply victim_step| |reflexivity|apply Hc; left]. intros Hr. now apply (rival_not_elected k). }
  destruct He as (ml & El & Nl & _). destruct (merge_equal_spec k p tp s1 q s2 ml) as (O2 & T2 & m & Em & Nm & Sm); [apply (wk_txs _ _ W1); left| |auto..|].
  { intros j r Hj. apply (wk_listed _ _ W1). apply list_elem_of_singleton in Hj as [= -> ->]. apply (wk_sub _ _ W1). left. }
  assert (O3 : one_step k s1 s3).
  { eapply one_step_trans; [exact O2|]. eapply one_step_trans; [apply (val_one_step k q); congruence|now apply calm_one_step]. }
  pose proof (wk_nodup _ _ W1) as Hn. cbn in Hn. apply NoDup_cons in Hn as [Hkt _]. split.
  - apply (walk_one t k s1); [exact O3|exact Hkt| |apply (walk_suffix ((k, tp) :: t)); [now apply suffix_cons_r|exact W1]]. intros j Hne. destruct (cm_box _ _ _ H3) as [-> _]. cbn. rewrite T2. now apply lookup_insert_ne.
  - apply (rest_candidates k l s); auto; [|now apply (candidates_rest k p)]. apply (step_trans _ _ _ s1); [now apply victim_entry|now apply one_entry].
Qed.

Lemma merge_loop_spec l : forall t add rec s t' add' rec' s', NoDup l.*1 -> (forall k, k ∈ l.*1 -> F k) -> candidates s l -> walk t s ->
  merge_loop l t add rec s = Some (t', add', rec', s') -> merged l add rec s add' rec' s' /\ t' `suffix_of` t /\ (forall k, k ∈ l.*1 -> k ∉ t'.*1).
Proof.
  induction l as [|[k p] l IH]; intros t add rec s t' add' rec' s' Hnd Fl Hc Hw E; [injection E as <- <- <- <-; split_and!; [apply merged_nil|reflexivity|now intros k ?%elem_of_nil]|].
  cbn [merge_loop] in E. cbn in Hnd. apply NoDup_cons in Hnd as [Hk Hnd]. assert (Fk : F k) by (apply Fl; left). assert (Fl' : forall j, j ∈ l.*1 -> F j) by (intros j Hj; apply Fl; now right).
  pose proof (wk_listed _ _ Hw) as Hl.
  assert (Hnew : forall t2 s2, calm victim s s2 -> t2 `suffix_of` t ->
    (check bool_decide (s2.(q_txs) !! k = None) in let* s := to_block p s2 in merge_loop l t2 (<[k := p]> add) rec s) = Some (t', add', rec', s') ->
    merged ((k, p) :: l) add rec s add' rec' s' /\ t' `suffix_of` t /\ (forall j, j ∈ ((k, p) :: l).*1 -> j ∉ t'.*1)).
  { clear E. intros t2 s2 H2 Hs2 E. inv_opt. destruct (new_walk k p t2 l s s2 p0) as [W2 C2]; auto; [now apply (walk_suffix t)|]. apply IH in E as (HM & Hs & Hn); auto.
    apply bool_decide_eq_true in E0. split_and!; [now apply (new_entry k p l add rec s s2 p0)|now transitivity t2|]. cbn. intros j [->|Hj]%elem_of_cons; [|now apply Hn].
    apply (suffix_keys _ t2 _ Hs). intros Hj. apply list_elem_of_fmap in Hj as ([j r] & Ej & Hr). cbn in Ej. subst j. pose proof (walk_calm t s s2 H2 Hw) as W. apply (wk_txs _ _ (walk_suffix _ _ _ Hs2 W)) in Hr. congruence. }
  destruct (skip_less k t s) as [[t1 s1]|] eqn:E1; [|discriminate]. cbn in E. apply skip_less_spec in E1 as [H1 Hs1]; [|auto|apply Hw|auto].
  destruct t1 as [|[tk tp] t1]; [now apply (Hnew [] s1)|]. pose proof (walk_suffix _ _ _ Hs1 Hw) as W1. destruct (Z.eqb_spec tk k) as [->|Hne].
  - inv_opt. assert (Hkt : k ∉ t1.*1) by (pose proof (wk_nodup _ _ W1) as Hn; cbn in Hn; now apply NoDup_cons in Hn). destruct (known_walk k p tp t1 l s s1 n p0 p1) as [W3 C3]; auto. apply bad_same_spec in E2 as [H4 Hs4]; [|auto|apply W3|auto|apply W3].
    apply IH in E as (HM & Hs & Hn); [| auto | auto | |apply (walk_suffix t1); [exact Hs4|now apply (walk_calm t1 p1)]].
    + split_and!; [|etransitivity; [exact Hs|]; etransitivity; [exact Hs4|]; etransitivity; [|exact Hs1]; now apply suffix_cons_r|].
      2:{ cbn. intros j [->|Hj]%elem_of_cons; [|now apply Hn]. apply (suffix_keys _ l0 _ Hs), (suffix_keys _ t1 _ Hs4), Hkt. }
      apply (known_entry k p tp l add rec s s1 n p0 p1 p2); auto; [apply (wk_sub _ _ W1); left|apply (wk_txs _ _ W1); left].
    + intros j r Hj. apply (step_candidate rival none p1); [apply victim_step; [apply W3|exact H4]| |now apply C3]. intros Hr. apply (rival_not_elected j Hr), Fl'. apply list_elem_of_fmap. now exists (j, r).
  - inv_opt. apply (Hnew ((tk, tp) :: t1) p0); [|exact Hs1|now rewrite E1, E2]. apply (calm_trans _ _ s1); [exact H1|]. apply (victim_bad_unless k tk tp); auto; [apply (wk_sub _ _ W1); left|apply (walk_calm _ _ _ H1 Hw)].
Qed.
End Lists.

(** * The end of the merge *)

Lemma bad_recover_store p s s' : bad_recover p s = Some s' -> s'.(q_bad) = delete (o_sigh (obj s p)) (q_bad s).
Proof.
  unfold bad_recover. destruct (has_bits _ _); intros E; inv_opt; subst s'; [reflexivity|]. unfold obj_save in E0. inv_opt. subst. now destruct (_ =? 0).
Qed.

Lemma recover_bad_at p k s s' : bad_recover p s = Some s' -> bad_at k s -> bad_at k s'.
Proof.
  intros E Hk h q Eq. rewrite (bad_recover_store _ _ _ E) in Eq. apply lookup_delete_Some in Eq as [_ Eq]. destruct (Hk h q Eq) as (m & Em & Hs).
  apply bad_recover_calm in E as [Hc _]. destruct (calm_at _ _ _ _ _ Hc Em) as (m' & E' & I & _). exists m'. split; [exact E'|]. rewrite (mk_num _ _ I), (mk_sigh _ _ I). intros Hn. destruct (Hs Hn).
  split; [assumption|now apply (mk_dat _ _ I)].
Qed.

(** All messages of the set are recovered and no other becomes bad. *)
Lemma recover_all_spec ps : forall s s', recover_all ps s = Some s' ->
  calm (fun q => q ∈ ps) s s' /\ (forall k, bad_at k s -> bad_at k s') /\
  (forall q m m', s.(q_heap) !! q = Some m -> s'.(q_heap) !! q = Some m' -> is_bad m' = true -> (q ∉ ps) /\ is_bad m = true).
Proof.
  induction ps as [|p ps IH]; intros s s' E; cbn [recover_all] in E.
  - injection E as <-. split_and!; [apply calm_refl|auto|]. intros q m m' E1 E2 Hb. split; [apply not_elem_of_nil|congruence].
  - inv_opt. destruct (bad_recover_calm _ _ _ E1) as [H1 B1]. destruct (IH _ _ E) as (H2 & K2 & B2). split_and!.
    + apply (calm_trans _ _ p0); [eapply calm_weaken; [|exact H1]; intros q <-; left|eapply calm_weaken; [|exact H2]; intros q Hq; now right].
    + intros k Hk0. apply K2. now apply (recover_bad_at p k s).
    + intros q m m' Em Em' Hb. destruct (calm_at _ _ _ _ _ H1 Em) as (m1 & Em1 & I1 & Hm1). destruct (B2 q m1 m' Em1 Em' Hb) as [Hn Hb1]. destruct (decide (q = p)) as [->|Hne].
      * rewrite (B1 m1 Em1) in Hb1. discriminate.
      * rewrite Hm1 in Hb1 by congruence. split; [|exact Hb1]. apply not_elem_of_cons. auto.
Qed.

(** What the merge makes of the pool. *)
Record enforced (final : gmap Z ptr) (s s' : pool) : Prop := {
  en_in : forall k p, final !! k = Some p -> exists q m, s'.(q_txs) !! k = Some q /\ s'.(q_heap) !! q = Some m /\ m.(o_num) = k /\ m.(o_sigh) = (obj s p).(o_sigh) /\ is_val m = true /\ is_bad m = false;
  en_out : forall k, final !! k = None -> s'.(q_txs) !! k = s.(q_txs) !! k;
  en_back : forall q m', s'.(q_heap) !! q = Some m' -> exists m, s.(q_heap) !! q = Some m /\ m.(o_num) = m'.(o_num) /\ m.(o_msid) = m'.(o_msid);
  en_heap : forall q m, s.(q_heap) !! q = Some m -> exists m', s'.(q_heap) !! q = Some m' /\ m'.(o_num) = m.(o_num) /\ m'.(o_msid) = m.(o_msid) /\ (final !! m.(o_num) = None -> is_val m' = is_val m);
  en_bad : forall k, is_Some (final !! k) -> bad_at k s -> bad_at k s';
  en_stored : stored s -> stored s';
  en_listed : map_Forall (fun k q => exists m, s'.(q_heap) !! q = Some m /\ m.(o_num) = k) s'.(q_txs)
}.

(** The elected list: messages made for it, one for each node and number. *)
Record elected_list (final : gmap Z ptr) (s : pool) : Prop := {
  el_made : candidates s (elems final);
  el_apart : forall j k, is_Some (final !! j) -> is_Some (final !! k) -> same_key j k = true -> j = k
}.

(** The messages behind the last of the list. *)
Lemma last_same_spec (F : Z -> Prop) T (l t : list (Z * ptr)) s s' :
  (forall k, k ∈ l.*1 -> F k /\ k ∉ t.*1) -> t ⊆ T -> listed s T ->
  (match last l with None => Some s | Some (k, _) => let* (_, s) := bad_same k t s in Some s end) = Some s' -> calm (victim F T) s s'.
Proof.
  intros HF Ht Hl. destruct (last l) as [[k p]|] eqn:El; [|intros E; injection E as <-; apply calm_refl]. intros E. inv_opt. subst s'.
  destruct (HF k) as [Fk Hk]; [apply list_elem_of_fmap; exists (k, p); split; [reflexivity|]; now apply last_Some_elem_of|].
  now apply (bad_same_spec F T k Fk t s l0 p0).
Qed.

Lemma merge_final_spec final s s' : map_Forall (fun k q => exists m, s.(q_heap) !! q = Some m /\ m.(o_num) = k) s.(q_txs) -> elected_list final s ->
  merge_final final s = Some s' -> enforced final s s'.
Proof.
  intros Htx [Hc Ha] E. set (F := fun k => is_Some (final !! k)). set (T := elems s.(q_txs)).
  assert (Hl : listed s T) by (intros k p Hp; apply elem_of_elems in Hp; now apply (Htx k)).
  assert (FE : forall k, k ∈ (elems final).*1 <-> F k) by (intros k; apply elems_keys).
  unfold merge_final in E. inv_opt. subst s'.
  assert (Hw : walk T T s) by (split; [exact Hl|reflexivity|apply elems_nodup|intros k p2 Hp; now apply elem_of_elems]).
  apply (merge_loop_spec F T Ha) in E0 as (HM & Hs & Hn); [|apply elems_nodup|apply FE|exact Hc|exact Hw]. destruct HM as [M1 _ M3 M4 M5].
  assert (Lp : listed p0 T) by now apply (step_listed _ _ _ _ _ M1).
  apply (last_same_spec F T) in E1; [|intros k Hk; split; [now apply FE|now apply Hn]|intros x Hx; destruct Hs as [u Eu]; fold T in Eu; rewrite Eu; apply elem_of_app; now right|exact Lp].
  set (p' := p <| q_txs ::= _ |>) in E2. destruct (recover_all_spec _ _ _ E2) as (R1 & R2 & R3).
  pose proof (cm_box _ _ _ E1) as [T1 _]. pose proof (cm_box _ _ _ R1) as [T2 _]. cbn in T2. rewrite T1 in T2.
  assert (Rk : forall k, F k -> ~ rival F k) by (intros k Fk Hr; now apply (rival_not_elected F Ha k Hr)).
  assert (Hin : forall k r, final !! k = Some r -> exists q m, p1.(q_txs) !! k = Some q /\ p1.(q_heap) !! q = Some m /\ m.(o_num) = k /\ m.(o_sigh) = (obj s r).(o_sigh) /\ is_val m = true /\ is_bad m = false).
  { intros k r Hk. apply elem_of_elems in Hk as Hin. destruct (M5 k r Hin) as (q & He & Hq). assert (Fk : F k) by now exists r.
    apply (step_elected _ _ p0 p k _ g g q (victim_step F T _ _ Lp E1)) in He as (m & Em & N & S & V & B); [|auto|reflexivity].
    destruct (calm_at _ _ _ q m R1) as (m' & Em' & I & _); [exact Em|]. exists q, m'. rewrite T2, (mk_num _ _ I), (mk_sigh _ _ I), (mk_val _ _ I). split_and!; auto.
    - apply lookup_union_Some_raw. destruct Hq as [?|[? ?]]; auto.
    - apply not_true_is_false. intros Hb. destruct (R3 q m m' Em Em' Hb) as [Hg Hbm]. apply Hg, elem_of_elements, B, Hbm. }
  assert (Hout : forall k, final !! k = None -> p1.(q_txs) !! k = s.(q_txs) !! k).
  { intros k Hk. assert (Hk' : k ∉ (elems final).*1) by (rewrite FE; unfold F; rewrite Hk; apply is_Some_None). destruct (M4 k Hk') as [E3 E4]. rewrite T2, lookup_union, E3, E4, lookup_empty. now destruct (s.(q_txs) !! k). }
  assert (Hst : step (fun _ => True) F s p1).
  { apply (step_trans _ _ _ p0); [eapply step_weaken; [| |exact M1]; auto|]. apply (step_trans _ _ _ p); [eapply step_weaken; [| |exact (victim_step F T _ _ Lp E1)]; [auto|intros ? []]|].
    apply (step_trans _ _ _ p'); [now apply step_frame|]. eapply step_weaken; [| |eapply (calm_step _ (fun _ => True)); [|exact R1]]; [auto|intros ? []|auto]. }
  split; cbn.
  - exact Hin.
  - exact Hout.
  - intros q m' Em'. destruct (st_dom _ _ _ _ Hst q) as [m Em]; [now exists m'|]. destruct (st_heap _ _ _ _ Hst q m Em) as (m1 & E1' & N & S & _). exists m. rewrite Em' in E1'. injection E1' as <-. auto.
  - intros q m Em. destruct (st_heap _ _ _ _ Hst q m Em) as (m' & E' & N & S & V & _). exists m'. split_and!; auto. intros Hk. apply V. unfold F. rewrite Hk. apply is_Some_None.
  - intros k Fk Hk. apply R2. change (bad_at k p). apply (victim_bad_at F T Ha k p0); auto.
  - apply Hst.
  - intros k q Hq. destruct (final !! k) as [r|] eqn:Hk.
    + destruct (Hin k r Hk) as (q' & m & Eq & Em & N & _). cbn in Hq. rewrite Hq in Eq. injection Eq as <-. eauto.
    + cbn in Hq. rewrite Hout in Hq by exact Hk. destruct (Htx k q Hq) as (m & Em & <-). destruct (st_heap _ _ _ _ Hst q m Em) as (m' & E' & N & _). eauto.
Qed.

(** * Cleaning *)

Lemma hash_signature_status m m' : hash_signature m = Some m' -> m'.(o_status) = m.(o_status).
Proof. unfold hash_signature. intros E. inv_opt. destruct (_ =? MSGTYPE_DBL); now injection E as <-. Qed.

Lemma load_val who m d n m' : load who m d = Some (n, m') -> is_val m' = is_val m.
Proof.
  unfold load. destruct (_ =? 0); [intros E; now injection E as _ <-|]. destruct (_ && _); [intros E; now injection E as _ <-|]. destruct (_ !! _) as [f|]; [|intros E; now injection E as _ <-].
  intros E. destruct (if _ =? header_length then _ else _) as [m2|] eqn:E2; [|discriminate]. injection E as _ <-. unfold is_val. cbn. rewrite lor_other by reflexivity. f_equal.
  destruct (_ =? header_length); [|now injection E2 as <-]. destruct (_ =? MSGTYPE_MSG); [now injection E2 as <-|]. now apply hash_signature_status in E2.
Qed.

Lemma unload_status who m : (unload who m).(o_status) = m.(o_status).
Proof. unfold unload. repeat (destruct (_ : bool); try reflexivity). Qed.

(** Changing one object. *)
Lemma step_only (K E : Z -> Prop) p m m' s s' : s.(q_heap) !! p = Some m -> s'.(q_heap) = <[p := m']> s.(q_heap) -> s'.(q_bad) = s.(q_bad) ->
  m'.(o_num) = m.(o_num) -> m'.(o_msid) = m.(o_msid) -> K m.(o_num) -> (~ E m.(o_num) -> is_val m' = is_val m) -> step K E s s'.
Proof.
  intros Em Eh Eb N S HK HE. apply step_intro; [|rewrite Eb; auto|unfold valid; rewrite Eh; intros q; destruct (decide (q = p)) as [->|]; [now rewrite Em|now rewrite lookup_insert_ne by congruence]]. intros q m0 Eq. rewrite Eh. destruct (decide (q = p)) as [->|Hne].
  - exists m'. rewrite lookup_insert_eq. rewrite Em in Eq. injection Eq as <-. split_and!; auto; intros; contradiction.
  - exists m0. rewrite lookup_insert_ne by congruence. split_and!; auto. intros _. reflexivity.
Qed.

(** The object after undo: not executed, elected as before. *)
Lemma undo_obj_spec {L} (undo : mobj -> L -> option (list Z * Z * L)) p m z z' : z.(z_s).(q_heap) !! p = Some m -> undo_obj undo p z = Some z' ->
  step (eq m.(o_num)) none z.(z_s) z'.(z_s) /\ same_box z.(z_s) z'.(z_s) /\
  exists m', z'.(z_s).(q_heap) !! p = Some m' /\ m'.(o_num) = m.(o_num) /\ is_val m' = is_val m /\ is_com m' = false.
Proof.
  intros Em. unfold undo_obj, obj_load. rewrite (obj_at _ _ _ Em). intros E. inv_opt. subst z' p0. pose proof (load_val _ _ _ _ _ E1) as Hv. pose proof (load_keeps _ _ _ _ _ E1) as [Kn _ Km _].
  set (who := q_svid _). set (m' := (unload who m0) <| o_status ::= fun x => clear_bits x MSGSTAT_COM |>). pose proof (unload_keeps who m0) as [Un _ Um _].
  assert (Hh : forall f, alter (fun m => m <| o_status ::= fun x => clear_bits x MSGSTAT_COM |>) p (alter (unload who) p (alter (fun _ => m0) p f.(q_heap))) = alter (fun _ => m') p f.(q_heap)) by (intros f; now rewrite !alter_alter_eq).
  assert (Hh' : alter (fun _ => m') p z.(z_s).(q_heap) = <[p := m']> z.(z_s).(q_heap)).
  { apply map_eq. intros q. destruct (decide (q = p)) as [->|Hne]; [now rewrite lookup_alter_eq, lookup_insert_eq, Em|now rewrite lookup_alter_ne, lookup_insert_ne by congruence]. }
  assert (Vm : is_val m' = is_val m) by (unfold is_val, m'; cbn; rewrite clear_other, unload_status by reflexivity; exact Hv).
  assert (Nm : m'.(o_num) = m.(o_num)) by (change (o_num (unload who m0) = o_num m); congruence). assert (Sm : m'.(o_msid) = m.(o_msid)) by (change (o_msid (unload who m0) = o_msid m); congruence).
  split_and!.
  - apply (step_only _ _ p m m'); auto. rewrite <- Hh'. apply (Hh z.(z_s)).
  - now repeat split.
  - exists m'. split_and!; [|exact Nm|exact Vm|apply clear_same]. transitivity (alter (fun _ => m') p z.(z_s).(q_heap) !! p); [f_equal; apply (Hh z.(z_s))|]. rewrite Hh'. apply lookup_insert_eq.
Qed.

(** An entry of the container agrees with the list: executed messages are
    elected, and elected ones executed, queued or asked for. *)
Definition settled (s : pool) (k : Z) (q : ptr) : Prop :=
  exists m, s.(q_heap) !! q = Some m /\ m.(o_num) = k /\ (is_com m = true -> is_val m = true) /\
    (is_val m = true -> is_com m = true \/ q ∈ s.(q_check) \/ s.(q_missing) !! k = Some q).

(** Cleaning the entry [k] with the object [m]. *)
Record cleaned (k : Z) (m : mobj) (s s' : pool) : Prop := {
  cl_step : step (eq k) (eq k) s s';
  cl_other : forall j, j <> k -> s'.(q_txs) !! j = s.(q_txs) !! j /\ s'.(q_missing) !! j = s.(q_missing) !! j;
  cl_check : forall q, q ∈ s.(q_check) -> q ∈ s'.(q_check);
  cl_settled : forall q, s'.(q_txs) !! k = Some q -> settled s' k q;
  cl_stay : is_val m = true -> is_bad m = false -> 0 < m.(o_msid) -> bad_at k s ->
    exists q m', s'.(q_txs) !! k = Some q /\ s'.(q_heap) !! q = Some m' /\ is_val m' = true /\ is_bad m' = false /\ m'.(o_sigh) = m.(o_sigh);
  cl_val : is_val m = false -> forall q, s'.(q_txs) !! k = Some q -> exists m', s'.(q_heap) !! q = Some m' /\ is_val m' = false
}.

(** The entry goes. *)
Lemma cleaned_erase k m s s1 s' : (is_val m = true -> is_bad m = false -> 0 < m.(o_msid) -> False) -> step (eq k) (eq k) s s1 -> same_box s s1 ->
  step (eq k) (eq k) s1 s' -> s'.(q_txs) = delete k s1.(q_txs) -> s'.(q_missing) = s1.(q_missing) -> s'.(q_check) = s1.(q_check) -> cleaned k m s s'.
Proof.
  intros Hno Hs (T1 & M1 & C1 & _) Hs' T2 M2 C2. split.
  - now apply (step_trans _ _ _ s1).
  - intros j Hj. rewrite T2, M2, T1, M1, lookup_delete_ne by congruence. auto.
  - intros q. now rewrite C2, C1.
  - intros q. rewrite T2, lookup_delete_eq. discriminate.
  - intros Hv Hb Hm. destruct (Hno Hv Hb Hm).
  - intros _ q. rewrite T2, lookup_delete_eq. discriminate.
Qed.

(** The entry stays with its object. *)
Lemma cleaned_keep k p m m' s s' : s.(q_txs) !! k = Some p -> step (eq k) (eq k) s s' -> s'.(q_txs) = s.(q_txs) -> (forall j, j <> k -> s'.(q_missing) !! j = s.(q_missing) !! j) ->
  (forall q, q ∈ s.(q_check) -> q ∈ s'.(q_check)) -> s'.(q_heap) !! p = Some m' -> m'.(o_num) = k -> is_val m' = is_val m -> (is_com m' = true -> is_val m = true) ->
  (is_val m = true -> is_bad m' = is_bad m /\ m'.(o_sigh) = m.(o_sigh) /\ (is_com m' = true \/ p ∈ s'.(q_check) \/ s'.(q_missing) !! k = Some p)) -> cleaned k m s s'.
Proof.
  intros Et Hs T1 M1 C1 Em Nm Vm Cm Hv. split; auto.
  - intros j Hj. rewrite T1, M1; auto.
  - intros q. rewrite T1, Et. intros [= <-]. exists m'. rewrite Vm. split_and!; auto. intros V. now apply Hv.
  - intros V B _ _. exists p, m'. rewrite T1, Vm. destruct (Hv V) as (-> & -> & _). auto.
  - intros V q. rewrite T1, Et. intros [= <-]. exists m'. rewrite Vm. auto.
Qed.

Lemma marks_keep k p m s s' : s.(q_txs) !! k = Some p -> s.(q_heap) !! p = Some m -> m.(o_num) = k -> calm nobody s s' -> is_com m = is_val m \/ is_val m = false /\ is_com m = false -> cleaned k m s s'.
Proof.
  intros Et Em Nm Hc Hm. destruct (calm_at _ _ _ _ _ Hc Em) as (m' & Em' & I & B). destruct (cm_box _ _ _ Hc) as (T1 & M1 & C1 & _).
  apply (cleaned_keep k p m m'); auto; [apply step_none; now apply (calm_step nobody)|now rewrite M1|now rewrite C1|rewrite (mk_num _ _ I); auto|apply I|rewrite (mk_com _ _ I); intuition congruence|].
  intros V. split_and!; [apply B; tauto|apply I|]. left. rewrite (mk_com _ _ I). intuition congruence.
Qed.

(** A message stored as bad takes the place of an empty one. *)
Lemma recovered_spec k p m q mq s s1 s2 : s.(q_txs) !! k = Some p -> s.(q_heap) !! p = Some m -> is_val m = true -> s.(q_bad) !! m.(o_sigh) = Some q ->
  s.(q_heap) !! q = Some mq -> mq.(o_num) = k -> bad_recover q (s <| q_txs ::= <[k := q]> |>) = Some s1 -> obj_move s1.(q_now) q s1 = Some s2 ->
  cleaned k m s (queue q (set_obj q (fun m => m <| o_status ::= fun x => Z.lor x MSGSTAT_VAL |>) s2)).
Proof.
  intros Et Em Vm Eb Eq Nq E1 E2. destruct (bad_recover_calm _ _ _ E1) as [H1 B1]. apply obj_move_calm in E2.
  destruct (calm_at _ _ _ q mq H1) as (m1 & Em1 & I1 & _); [exact Eq|]. destruct (calm_at _ _ _ q m1 E2) as (m2 & Em2 & I2 & B2); [exact Em1|].
  set (s3 := set_obj q _ s2). set (m3 := m2 <| o_status ::= fun x => Z.lor x MSGSTAT_VAL |>). assert (Em3 : s3.(q_heap) !! q = Some m3) by (apply lookup_alter_Some; left; eauto).
  assert (N2 : m2.(o_num) = k) by (rewrite (mk_num _ _ I2), (mk_num _ _ I1); exact Nq).
  destruct (cm_box _ _ _ H1) as (T1 & M1 & C1 & _). destruct (cm_box _ _ _ E2) as (T2 & M2 & C2 & _). cbn in T1, M1, C1.
  assert (Tq : (queue q s3).(q_txs) = <[k := q]> s.(q_txs)) by (cbn; congruence).
  split.
  - apply (step_trans _ _ _ (s <| q_txs ::= <[k := q]> |>)); [now apply step_frame|]. apply (step_trans _ _ _ s1).
    { apply (step_weaken (eq k) none); [auto|intros ? []|]. apply (calm_step (eq q)); [|exact H1]. intros r mr <- Er. cbn in Er. congruence. }
    apply (step_trans _ _ _ s2); [apply step_none; now apply (calm_step nobody)|]. apply (step_trans _ _ _ s3); [apply (val_one_step k q); congruence|now apply step_frame].
  - intros j Hj. rewrite Tq, lookup_insert_ne by congruence. cbn. rewrite M2, M1. auto.
  - intros r Hr. cbn. rewrite C2, C1. now right.
  - intros r. rewrite Tq, lookup_insert_eq. intros [= <-]. exists m3. split_and!; [exact Em3|exact N2|intros _; now apply lor_same|]. intros _. right. left. cbn. left.
  - intros _ _ _ Hk. exists q, m3. rewrite Tq, lookup_insert_eq. split_and!; [reflexivity|exact Em3|now apply lor_same| |].
    + unfold is_bad, m3. cbn. rewrite lor_other by reflexivity. rewrite <- (B1 m1 Em1). apply B2. intros [].
    + change (o_sigh m2 = o_sigh m). rewrite (mk_sigh _ _ I2), (mk_sigh _ _ I1). destruct (Hk _ _ Eb) as (m' & E' & Hs). rewrite Eq in E'. injection E' as <-. now apply Hs.
  - intros Hf. congruence.
Qed.

Lemma schedule_spec k p m s s' : s.(q_txs) !! k = Some p -> s.(q_heap) !! p = Some m -> m.(o_num) = k -> is_val m = true -> stored s -> schedule k p s = Some s' -> cleaned k m s s'.
Proof.
  intros Et Em Nm Vm Hk. unfold schedule. rewrite (obj_at _ _ _ Em). cbn zeta. destruct (_ =? 0xFFFFFFFF).
  - intros E. inv_opt. subst s'. apply (cleaned_keep k p m (m <| o_status ::= fun x => Z.lor x MSGSTAT_COM |>)); auto.
    + apply set_one_step; [congruence|auto|]. intros m0 _ Hd. split; [reflexivity|now apply has_bits_lor].
    + apply lookup_alter_Some. left. eauto.
    + unfold is_val. cbn. now apply lor_other.
    + intros _. split_and!; [unfold is_bad; cbn; now apply lor_other|reflexivity|left; now apply lor_same].
  - assert (Hmis : cleaned k m s (s <| q_missing ::= <[m.(o_num) := p]> |>)).
    { apply (cleaned_keep k p m m); auto; [now apply step_frame|intros j Hj; cbn; rewrite Nm; now apply lookup_insert_ne|]. intros _. split_and!; auto. right. right. cbn. rewrite Nm. apply lookup_insert_eq. }
    destruct (has_bits (o_status m) MSGSTAT_DAT); [intros E; injection E as <-; apply (cleaned_keep k p m m); auto; [now apply step_frame|intros q Hq; now right|intros _; split_and!; auto; right; left; left]|].
    destruct (q_bad s !! o_sigh m) as [q|] eqn:Eb; [|intros E; injection E as <-; exact Hmis]. destruct (Z.eqb_spec (o_num (obj s q)) (o_num m)) as [Nq|]; [|intros E; injection E as <-; exact Hmis].
    intros E. inv_opt. subst s'. destruct (Hk _ _ Eb) as [mq Eq]. rewrite (obj_at _ _ _ Eq) in Nq. now apply (recovered_spec k p m q mq s p0 p1); auto; congruence.
Qed.

Lemma step_weak_one k s s' : step (eq k) none s s' -> step (eq k) (eq k) s s'.
Proof. apply step_weaken; [auto|intros ? []]. Qed.

Section Cleaning.
Context {L : Type} (undo : mobj -> L -> option (list Z * Z * L)).

Lemma undone_late k p m m1 s s1 s2 : s.(q_txs) !! k = Some p -> step (eq k) (eq k) s s1 -> same_box s s1 -> s1.(q_heap) !! p = Some m1 -> m1.(o_num) = k ->
  is_val m = false -> is_val m1 = false -> is_com m1 = false -> calm (eq p) s1 s2 -> cleaned k m s s2.
Proof.
  intros Et Hs (T1 & M1 & C1 & _) Em N V V1 Cm Hc. destruct (calm_at _ _ _ _ _ Hc Em) as (m2 & Em2 & I & _). destruct (cm_box _ _ _ Hc) as (T2 & M2 & C2 & _).
  apply (cleaned_keep k p m m2); auto; [|congruence|congruence|rewrite C2, C1; auto|rewrite (mk_num _ _ I); auto|rewrite (mk_val _ _ I); congruence|rewrite (mk_com _ _ I); congruence|congruence].
  apply (step_trans _ _ _ s1); [exact Hs|]. apply step_weak_one, (calm_step (eq p)); [|exact Hc]. intros q mq <- Eq. congruence.
Qed.

(** Queues that the merge does not look at. *)
Lemma cleaned_frame k m s s1 s2 : cleaned k m s s1 -> s2.(q_heap) = s1.(q_heap) -> s2.(q_bad) = s1.(q_bad) -> s2.(q_txs) = s1.(q_txs) -> s2.(q_missing) = s1.(q_missing) -> s2.(q_check) = s1.(q_check) -> cleaned k m s s2.
Proof.
  intros [A B C D E G] Eh Eb Et Em Ec. split; rewrite ?Et, ?Em, ?Ec, ?Eh; auto; [|].
  - apply (step_trans _ _ _ s1); [exact A|now apply step_frame].
  - intros q Hq. destruct (D q Hq) as (m' & X). exists m'. now rewrite Eh, Em, Ec.
Qed.

Lemma cleaned_drop k m s s1 : is_val m = false -> cleaned k m s s1 -> cleaned k m s (s1 <| q_txs ::= delete k |>).
Proof.
  intros Hv [A B C D E G]. split; [apply (step_trans _ _ _ s1); [exact A|now apply step_frame]| |exact C| |congruence|]; cbn.
  - intros j Hj. rewrite lookup_delete_ne by congruence. now apply B.
  - intros q. rewrite lookup_delete_eq. discriminate.
  - intros _ q. rewrite lookup_delete_eq. discriminate.
Qed.

Lemma clean_one_spec k p m z z' : z.(z_s).(q_txs) !! k = Some p -> z.(z_s).(q_heap) !! p = Some m -> m.(o_num) = k -> stored z.(z_s) -> clean_one undo k p 0 z = Some z' ->
  cleaned k m z.(z_s) z'.(z_s).
Proof.
  intros Et Em Nm Hst. unfold clean_one. rewrite (obj_at _ _ _ Em). cbn zeta. destruct (Z.leb_spec m.(o_msid) 0) as [Hle|Hgt].
  { intros E. injection E as <-. apply (cleaned_erase k m _ z.(z_s)); [lia|apply step_refl|reflexivity|now apply step_frame|reflexivity..]. }
  fold (is_bad m) (is_val m) (is_com m). destruct (is_bad m) eqn:Hb.
  { intros E. inv_opt. subst z'. assert (H1 : step (eq k) (eq k) z.(z_s) c.(z_s) /\ same_box z.(z_s) c.(z_s)).
    { destruct (is_com m); [|injection E0 as <-; split; [apply step_refl|reflexivity]]. apply (undo_obj_spec undo p m) in E0 as (Hs & Hx & _); [|exact Em]. rewrite Nm in Hs. split; [now apply step_weak_one|exact Hx]. }
    destruct H1 as [H1 H2]. assert (Hno : is_val m = true -> is_bad m = false -> 0 < m.(o_msid) -> False) by (intros _ Hf _; congruence).
    destruct (_ =? _); (apply (cleaned_erase k m _ c.(z_s)); [exact Hno|exact H1|exact H2|now apply step_frame|reflexivity..]). }
  destruct (is_val m) eqn:Hv; cbn [negb andb].
  { destruct (is_com m) eqn:Hc; cbn [negb].
    - intros E. injection E as <-. apply (marks_keep k p); auto; [apply calm_refl|left; congruence].
    - unfold on_pool. intros E. inv_opt. subst z'. cbn. now apply (schedule_spec k p m). }
  destruct (is_com m) eqn:Hc.
  - intros E. inv_opt. apply (undo_obj_spec undo p m) in E0 as (Hs & Hx & m1 & Em1 & N1 & V1 & C1); [|exact Em]. rewrite Nm in *. apply step_weak_one in Hs. rewrite Hv in V1.
    destruct (_ <? _); unfold on_pool in E; inv_opt.
    + subst z' c0. assert (Hcl : cleaned k m (z_s z) p0) by (apply (undone_late k p m m1 _ (z_s c)); auto; apply bad_insert_calm; [now exists m1|assumption]).
      destruct (_ =? _); [exact Hcl|]. now apply cleaned_drop.
    + subst z' c0. cbn. apply (cleaned_frame k m _ p0); [|reflexivity..]. apply (undone_late k p m m1 _ (z_s c)); auto. apply calm_nobody. eapply obj_move_calm; eassumption.
  - cbn [negb andb]. assert (Hm : is_com m = is_val m \/ is_val m = false /\ is_com m = false) by auto. destruct (_ && _); [|intros E; injection E as <-; apply (marks_keep k p); auto; apply calm_refl].
    unfold on_pool. intros E. inv_opt. subst z'. cbn. apply (marks_keep k p); auto. eapply obj_move_calm; eassumption.
Qed.

(** The entry [k] with the object [m] after cleaning. *)
Record outcome (k : Z) (m : mobj) (s s' : pool) : Prop := {
  oc_settled : forall q, s'.(q_txs) !! k = Some q -> settled s' k q;
  oc_stay : is_val m = true -> is_bad m = false -> 0 < m.(o_msid) -> bad_at k s ->
    exists q m', s'.(q_txs) !! k = Some q /\ s'.(q_heap) !! q = Some m' /\ is_val m' = true /\ is_bad m' = false /\ m'.(o_sigh) = m.(o_sigh);
  oc_val : is_val m = false -> forall q, s'.(q_txs) !! k = Some q -> exists m', s'.(q_heap) !! q = Some m' /\ is_val m' = false
}.

(** Steps for other entries do not change it. *)
Lemma outcome_later K E k m s s1 s' : (forall q m1, s1.(q_txs) !! k = Some q -> s1.(q_heap) !! q = Some m1 -> m1.(o_num) = k) -> outcome k m s s1 -> step K E s1 s' -> ~ K k ->
  s'.(q_txs) !! k = s1.(q_txs) !! k -> s'.(q_missing) !! k = s1.(q_missing) !! k -> (forall q, q ∈ s1.(q_check) -> q ∈ s'.(q_check)) -> outcome k m s s'.
Proof.
  intros Hn [A B C] Hs HK Et Em Hc. split; rewrite ?Et.
  - intros q Hq. destruct (A q Hq) as (m1 & E1 & N1 & X & Y). destruct (st_heap _ _ _ _ Hs q m1 E1) as (m2 & E2 & N2 & _ & _ & M). destruct M as [I _]; [congruence|].
    exists m2. rewrite (mk_com _ _ I), (mk_val _ _ I), Em. split_and!; [exact E2|congruence|exact X|]. intros V. destruct (Y V) as [?|[?|?]]; auto.
  - intros V Hb Hm Hk. destruct (B V Hb Hm Hk) as (q & m1 & Hq & E1 & V1 & B1 & S1). destruct (st_heap _ _ _ _ Hs q m1 E1) as (m2 & E2 & N2 & _ & _ & M). destruct M as [I Hb2]; [rewrite (Hn q m1 Hq E1); exact HK|].
    exists q, m2. rewrite (mk_val _ _ I), (mk_sigh _ _ I), Hb2. auto.
  - intros V q Hq. destruct (C V q Hq) as (m1 & E1 & V1). destruct (st_heap _ _ _ _ Hs q m1 E1) as (m2 & E2 & N2 & _ & _ & M). destruct M as [I _]; [rewrite (Hn q m1 Hq E1); exact HK|].
    exists m2. rewrite (mk_val _ _ I). auto.
Qed.

Lemma outcome_before k m m1 s s1 s' : marks m m1 -> (bad_at k s -> bad_at k s1) -> outcome k m1 s1 s' -> outcome k m s s'.
Proof. intros [I B] Hk [X Y W]. rewrite (mk_val _ _ I), B, (mk_msid _ _ I), (mk_sigh _ _ I) in *. split; auto. Qed.

Lemma cleaned_outcome k m s s' : cleaned k m s s' -> outcome k m s s'.
Proof. intros []. now split. Qed.

(** All entries of a list. *)
Record swept (l : list (Z * ptr)) (s s' : pool) : Prop := {
  sw_step : step (fun k => k ∈ l.*1) (fun k => k ∈ l.*1) s s';
  sw_other : forall j, j ∉ l.*1 -> s'.(q_txs) !! j = s.(q_txs) !! j /\ s'.(q_missing) !! j = s.(q_missing) !! j;
  sw_check : forall q, q ∈ s.(q_check) -> q ∈ s'.(q_check);
  sw_in : forall k p m, (k, p) ∈ l -> s.(q_heap) !! p = Some m -> outcome k m s s'
}.

Lemma min_msid_zero s svid r : min_msid s svid = Some r -> r = 0.
Proof. unfold min_msid. destruct (_ <=? _); now intros [= <-]. Qed.

Lemma clean_loop_spec l : forall lastsvid z z', NoDup l.*1 -> (forall k p, (k, p) ∈ l -> z.(z_s).(q_txs) !! k = Some p) -> listed z.(z_s) l -> stored z.(z_s) ->
  clean_loop undo l lastsvid 0 z = Some z' -> swept l z.(z_s) z'.(z_s).
Proof.
  induction l as [|[k p] l IH]; intros lastsvid z z' Hnd Ht Hl Hst E; cbn [clean_loop] in E.
  - injection E as <-. split; [apply step_refl|auto|auto|now intros ? ? ? ?%elem_of_nil].
  - cbn in Hnd. apply NoDup_cons in Hnd as [Hk Hnd]. destruct (Hl k p) as (m & Em & Nm); [left|]. inv_opt.
    assert (z0 = 0) as -> by (destruct (_ =? lastsvid); [congruence|now apply min_msid_zero in E0]). apply (clean_one_spec k p m) in E1; [|apply Ht; left|auto..]. pose proof (cleaned_outcome _ _ _ _ E1) as Ho. destruct E1 as [A1 A2 A3 A4 _ _].
    assert (Hne : forall j r, (j, r) ∈ l -> j <> k) by (intros j r Hj ->; apply Hk, list_elem_of_fmap; now exists (k, r)).
    apply IH in E; [|exact Hnd|intros j r Hj; rewrite (proj1 (A2 j (Hne j r Hj))); apply Ht; now right|apply (step_listed _ _ _ _ _ A1); intros j r Hj; apply Hl; now right|now apply (st_stored _ _ _ _ A1)].
    destruct E as [B1 B2 B3 B4]. split.
    + cbn. apply (step_trans _ _ _ c.(z_s)); [eapply step_weaken; [| |exact A1]; intros j <-; left|eapply step_weaken; [| |exact B1]; intros j Hj; now right].
    + cbn. intros j [Hj Hjl]%not_elem_of_cons. destruct (B2 j Hjl) as [-> ->]. now apply A2.
    + auto.
    + intros j r mr [E|Hin]%elem_of_cons Er.
      * injection E as -> ->. rewrite Em in Er. injection Er as <-. destruct (B2 k Hk) as [T2 M2]. eapply (outcome_later _ _ k m _ c.(z_s)); [|exact Ho|exact B1|exact Hk|exact T2|exact M2|exact B3].
        intros q mq Hq Eq. destruct (A4 q Hq) as (m' & E' & N' & _). congruence.
      * destruct (st_heap _ _ _ _ A1 r mr Er) as (m1 & E1 & N1 & _ & _ & M). destruct (Hl j r) as (m0 & E0' & N0); [now right|]. rewrite Er in E0'. injection E0' as <-.
        assert (Hjk : k <> mr.(o_num)) by (rewrite N0; intros ->; now apply (Hne j r)).
        apply (outcome_before j mr m1 _ c.(z_s)); [now apply M|apply (st_bad _ _ _ _ A1); congruence|now apply (B4 j r)].
Qed.
End Cleaning.

(** * The theorem *)

(** C12: after the election, every message of the elected list is in the container
    of the node under its key, with the elected hash, marked as elected and not
    bad, and it is executed, queued for execution or asked for; and no other
    message of the container is executed, unless it was elected for an earlier
    block. *)
Theorem final_list_enforced {L} (undo : mobj -> L -> option (list Z * Z * L)) final s l sign z :
  pool_ok s -> elected_list final s -> (forall q m, s.(q_heap) !! q = Some m -> is_Some (final !! m.(o_num)) -> 0 < m.(o_msid)) -> (forall k, is_Some (final !! k) -> bad_at k s) ->
  LAST_block_merge undo final s l sign = Some z ->
  (forall k p, final !! k = Some p -> exists q m, z.(z_s).(q_txs) !! k = Some q /\ z.(z_s).(q_heap) !! q = Some m /\ m.(o_sigh) = (obj s p).(o_sigh) /\ is_val m = true /\ is_bad m = false /\
    (is_com m = true \/ q ∈ z.(z_s).(q_check) \/ z.(z_s).(q_missing) !! k = Some q)) /\
  (forall k q, z.(z_s).(q_txs) !! k = Some q -> final !! k = None ->
    exists p, s.(q_txs) !! k = Some p /\ (is_val (obj s p) = false -> is_com (obj z.(z_s) q) = false)).
Proof.
  intros Hok Hel Hms Hbd E. unfold LAST_block_merge in E. inv_opt. subst z. unfold clean_txs in E1.
  apply merge_final_spec in E0 as [I1 I2 I3 I4 I5 I6 I7]; [|intros k q Hq; destruct (ok_txs _ Hok k q Hq) as (m & Em & N & _); eauto|exact Hel].
  cbn [z_s] in E1. set (t := rev (elems p.(q_txs))) in *.
  assert (Hp : t ≡ₚ elems p.(q_txs)) by (symmetry; apply Permutation_rev).
  assert (Hin : forall k q, (k, q) ∈ t <-> p.(q_txs) !! k = Some q) by (intros k q; rewrite Hp; apply elem_of_elems).
  apply clean_loop_spec in E1 as [S1 S2 S3 S4]; cbn [z_s] in *; [|rewrite Hp; apply elems_nodup|apply Hin|intros k q Hq; apply I7, Hin, Hq|apply I6; intros h q Hq; exact (known_valid _ _ (ok_bad _ Hok h q Hq))].
  split; cbn.
  - intros k r Hk. destruct (I1 k r Hk) as (q & m & Hq & Em & N & Sg & V & B). destruct (S4 k q m) as [A1 A2 _]; [now apply Hin|exact Em|].
    assert (Hm : 0 < m.(o_msid)) by (destruct (I3 q m Em) as (m0 & E0 & N0 & M0); rewrite <- M0; apply (Hms q m0 E0); rewrite N0, N; eauto).
    assert (Hb : bad_at k p) by (apply I5; [eauto|]; apply Hbd; eauto). destruct (A2 V B Hm Hb) as (q' & m' & Hq' & Em' & V' & B' & Sg').
    destruct (A1 q' Hq') as (m1 & E1 & _ & _ & X). rewrite Em' in E1. injection E1 as <-. exists q', m'. split_and!; auto. congruence.
  - intros k q Hq Hk. destruct (decide (k ∈ t.*1)) as [Hkt|Hkt].
    2:{ destruct (S2 k Hkt) as [Eq _]. rewrite Eq in Hq. destruct Hkt. apply list_elem_of_fmap. exists (k, q). split; [reflexivity|now apply Hin]. }
    apply list_elem_of_fmap in Hkt as ([k' r] & Ek & Hr). cbn in Ek. subst k'. apply Hin in Hr as Hr'. rewrite (I2 k Hk) in Hr'. exists r. split; [exact Hr'|].
    destruct (ok_txs _ Hok k r Hr') as (m & Em & N & _). rewrite (obj_at _ _ _ Em). intros V. destruct (I4 r m Em) as (m1 & Em1 & N1 & _ & V1). rewrite <- V1 in V by now rewrite N.
    destruct (S4 k r m1 Hr Em1) as [A1 _ A3]. destruct (A3 V q Hq) as (m2 & Em2 & V2). destruct (A1 q Hq) as (m3 & Em3 & _ & X & _). rewrite Em2 in Em3. injection Em3 as <-.
    match goal with |- is_com ?o = _ => change o with (obj c.(z_s) q) end. rewrite (obj_at _ _ _ Em2). apply not_true_is_false. intros C. rewrite (X C) in V2. discriminate.
Qed.

(** A message in memory. *)
Definition demo_obj (hv msid svid : Z) (hash status : Z) (data : option (list Z)) : mobj :=
  {| o_num := hash_num hv MSGTYPE_MSG msid svid; o_svid := svid; o_msid := msid; o_now := 1000; o_got := 0; o_path := 0; o_peer := 0; o_len := 100; o_data := data; o_status := status;
     o_sigh := replicate 32 hash; o_know := []; o_busy := ∅; o_sent := ∅ |}.

(** A complete elected message, an executed one that was not elected, and an
    elected one the node does not have. *)
Definition demo_before : pool :=
  demo_pool (<[0%nat := demo_obj 7 5 1 7 9 (Some [])]> (<[1%nat := demo_obj 3 4 0 3 5 (Some [])]> (<[2%nat := demo_obj 8 6 1 8 8 None]> ∅)))
    (<[hash_num 7 MSGTYPE_MSG 5 1 := 0%nat]> (<[hash_num 3 MSGTYPE_MSG 4 0 := 1%nat]> ∅)) [].
Definition demo_final : gmap Z ptr := <[hash_num 7 MSGTYPE_MSG 5 1 := 0%nat]> (<[hash_num 8 MSGTYPE_MSG 6 1 := 2%nat]> ∅).
Definition demo_undo (m : mobj) (l : list Z) : option (list Z * Z * list Z) := Some (replicate 32 0, 0, m.(o_num) :: l).

Lemma demo_final_cases k p : demo_final !! k = Some p -> k = hash_num 7 MSGTYPE_MSG 5 1 /\ p = 0%nat \/ k = hash_num 8 MSGTYPE_MSG 6 1 /\ p = 2%nat.
Proof. unfold demo_final. intros H. apply lookup_insert_Some in H as [[<- <-]|[_ H]]; [auto|]. apply lookup_insert_Some in H as [[<- <-]|[_ H]]; [auto|]. now rewrite lookup_empty in H. Qed.

Example demo_merge : option_map (fun z => (z.(z_s).(q_check), elems z.(z_s).(q_missing), z.(z_l), map snd (elems z.(z_s).(q_txs)))) (LAST_block_merge demo_undo demo_final demo_before [] []) =
  Some ([0%nat], [(hash_num 8 MSGTYPE_MSG 6 1, 2%nat)], [hash_num 3 MSGTYPE_MSG 4 0], [1%nat; 0%nat; 2%nat]).
Proof. vm_compute. reflexivity. Qed.

Definition demo_after : cleaning (L := list Z) := match LAST_block_merge demo_undo demo_final demo_before [] [] with Some z => z | None => {| z_s := demo_before; z_l := []; z_sign := [] |} end.

Lemma demo_heap q m : demo_before.(q_heap) !! q = Some m -> 0 < m.(o_msid).
Proof.
  intros H. cbn in H. apply lookup_insert_Some in H as [[_ <-]|[_ H]]; [reflexivity|]. apply lookup_insert_Some in H as [[_ <-]|[_ H]]; [reflexivity|].
  apply lookup_insert_Some in H as [[_ <-]|[_ H]]; [reflexivity|]. now rewrite lookup_empty in H.
Qed.

Lemma demo_elected : elected_list demo_final demo_before.
Proof.
  split.
  - intros k p Hk. apply elem_of_elems, demo_final_cases in Hk as [[-> ->]|[-> ->]]; (eexists; split; [vm_compute; reflexivity|]; split_and!; [reflexivity..|discriminate]).
  - intros j k [p Hj] [q Hk]. apply demo_final_cases in Hj as [[-> _]|[-> _]]; apply demo_final_cases in Hk as [[-> _]|[-> _]]; vm_compute; congruence.
Qed.

Lemma final_list_enforced_witness :
  (forall k p, demo_final !! k = Some p -> exists q m, demo_after.(z_s).(q_txs) !! k = Some q /\ demo_after.(z_s).(q_heap) !! q = Some m /\ m.(o_sigh) = (obj demo_before p).(o_sigh) /\
    is_val m = true /\ is_bad m = false /\ (is_com m = true \/ q ∈ demo_after.(z_s).(q_check) \/ demo_after.(z_s).(q_missing) !! k = Some q)) /\
  (forall k q, demo_after.(z_s).(q_txs) !! k = Some q -> demo_final !! k = None ->
    exists p, demo_before.(q_txs) !! k = Some p /\ (is_val (obj demo_before p) = false -> is_com (obj demo_after.(z_s) q) = false)).
Proof.
  apply (final_list_enforced demo_undo demo_final demo_before [] []).
  - apply demo_pool_ok; vm_compute; reflexivity.
  - exact demo_elected.
  - intros q m Hq _. exact (demo_heap q m Hq).
  - intros k _ h q Hq. change (demo_before.(q_bad)) with (∅ : gmap (list Z) ptr) in Hq. rewrite lookup_empty in Hq. discriminate.
  - vm_compute. reflexivity.
Defined.

(** * Gaps *)

(** An executed message whose key is the key of the elected one (they share one
    byte of the hash) is replaced in the container and never undone. *)
Definition demo_replaced : pool :=
  demo_pool (<[0%nat := demo_obj 7 5 1 7 5 (Some [])]> (<[1%nat := demo_obj 7 5 1 8 8 None]> ∅)) (<[hash_num 7 MSGTYPE_MSG 5 1 := 0%nat]> ∅) [].

Theorem executed_rival_not_undone :
  exists z, LAST_block_merge demo_undo (<[hash_num 7 MSGTYPE_MSG 5 1 := 1%nat]> ∅) demo_replaced [] [] = Some z /\ z.(z_l) = [] /\ is_com (obj z.(z_s) 0) = true /\ is_val (obj z.(z_s) 0) = false /\
    map snd (elems z.(z_s).(q_txs)) = [1%nat] /\ z.(z_s).(q_nodes) = demo_replaced.(q_nodes).
Proof. eexists. split; [vm_compute; reflexivity|]. repeat split. Qed.

(** Of two rivals behind an elected message only the first becomes bad, when the
    list goes on. *)
Definition demo_rivals : pool :=
  demo_pool (<[0%nat := demo_obj 8 5 1 8 1 (Some [])]> (<[1%nat := demo_obj 9 5 1 9 1 (Some [])]> (<[2%nat := demo_obj 7 5 1 7 8 None]> (<[3%nat := demo_obj 7 6 1 6 8 None]> ∅))))
    (<[hash_num 8 MSGTYPE_MSG 5 1 := 0%nat]> (<[hash_num 9 MSGTYPE_MSG 5 1 := 1%nat]> ∅)) [].

Theorem second_rival_stays :
  exists z, LAST_block_merge demo_undo (<[hash_num 7 MSGTYPE_MSG 5 1 := 2%nat]> (<[hash_num 7 MSGTYPE_MSG 6 1 := 3%nat]> ∅)) demo_rivals [] [] = Some z /\
    map snd (elems z.(z_s).(q_txs)) = [2%nat; 1%nat; 3%nat] /\ is_bad (obj z.(z_s) 0) = true /\ is_bad (obj z.(z_s) 1) = false.
Proof. eexists. split; [vm_compute; reflexivity|]. repeat split. Qed.
