(* ===== verification/PoolBlocks.v ===== *)
(** Runs of the pool over the ends of blocks: the steps of [PoolProps], within a
    block, and the merge of an elected list into the container of messages
    ([LAST_block_final] of [escd/server.cpp]), which undoes messages, drops them
    from the container, puts others in their place and changes the queues. *)

From stdpp Require Import base gmap list relations.
From Stdlib Require Import ZArith Lia.
From S2P Require Import Prelude Params HashTree Usertxs Accounts Servers Ledger Demo Message MerklePath MsgTree MsgFile MsgFileProps MsgHead MsgHeadProps Pool PoolInv PoolProps Merge MergeProps.

(** What every step of the merge does. *)
Record merging (s s' : pool) : Prop := { mg_moves : moves s s'; mg_ok : pool_ok s -> pool_ok s' }.

#[export] Instance merging_preorder : PreOrder merging.
Proof. split; [now intros s|]. intros a b c [M1 O1] [M2 O2]. split; [now transitivity b|auto]. Qed.

Lemma good_merging s s' : good s s' -> merging s s'.
Proof. intros [E _ O]. split; [now apply extends_moves|exact O]. Qed.

Lemma merging_then s1 s2 s3 : merging s1 s2 -> merging s2 s3 -> merging s1 s3.
Proof. intros. now transitivity s2. Qed.

Lemma merging_known s s' p : merging s s' -> known s p -> known s' p.
Proof. intros [M _]. now apply moves_known. Qed.

(** Entries of the lists the merge goes through. *)
Definition entries (s : pool) (l : list (Z * ptr)) : Prop := Forall (fun q => entry s is_txs q.1 q.2) l.

Lemma merging_entries s s' l : merging s s' -> entries s l -> entries s' l.
Proof. intros [M _] He. eapply Forall_impl; [exact He|]. intros q. apply moves_entry; [apply _|exact M]. Qed.

(** * The merge *)

Lemma bad_unless_merging p s s' : known s p -> bad_unless p s = Some s' -> merging s s'.
Proof. intros Hp. unfold bad_unless. destruct (has_bits _ _); [intros E; injection E as <-; reflexivity|]. intros E. now apply good_merging, (bad_insert_good p). Qed.

Lemma obj_move_merging path p s s' : obj_move path p s = Some s' -> merging s s'.
Proof.
  unfold obj_move. destruct (msg_move _ _ _) as [[m d]|] eqn:E; [|discriminate]. intros E1. injection E1 as <-. apply good_merging. eapply good_then; [|apply good_disk].
  apply good_replace. now apply move_keeps in E.
Qed.

Lemma to_block_merging p s s' : to_block p s = Some s' -> merging s s'.
Proof.
  unfold to_block. destruct (obj_move _ _ _) as [s1|] eqn:E; [|discriminate]. intros E1. injection E1 as <-. apply obj_move_merging in E. eapply merging_then; [exact E|].
  apply good_merging, path_good.
Qed.

Lemma val_merging p s : merging s (set_obj p (fun m => m <| o_status ::= fun x => Z.lor x MSGSTAT_VAL |>) s).
Proof. apply good_merging, good_set_obj. intros m _. apply keeps_lor. Qed.

Lemma txs_merging k p s : entry s is_txs k p -> merging s (s <| q_txs ::= <[k := p]> |>).
Proof. intros He. now apply good_merging, good_txs. Qed.

Lemma bad_same_merging k t : forall s t' s', entries s t -> bad_same k t s = Some (t', s') -> merging s s' /\ entries s' t'.
Proof.
  induction t as [|[tk tp] t IH]; intros s t' s' Ht E; cbn [bad_same] in E; [injection E as <- <-; split; [reflexivity|exact Ht]|].
  apply List.Forall_cons_iff in Ht as [H1 H2]. destruct (same_key _ _); [|injection E as <- <-; split; [reflexivity|now apply List.Forall_cons]].
  destruct (bad_unless tp s) as [s1|] eqn:E1; [|discriminate]. apply bad_unless_merging in E1; [|now apply txs_known in H1].
  destruct (IH s1 t' s' (merging_entries _ _ _ E1 H2) E) as [M Hs]. split; [now transitivity s1|exact Hs].
Qed.

Lemma skip_less_merging k t : forall s t' s', entries s t -> skip_less k t s = Some (t', s') -> merging s s' /\ entries s' t'.
Proof.
  induction t as [|[tk tp] t IH]; intros s t' s' Ht E; cbn [skip_less] in E; [injection E as <- <-; split; [reflexivity|exact Ht]|].
  destruct (tk <? k); [|injection E as <- <-; split; [reflexivity|exact Ht]]. apply List.Forall_cons_iff in Ht as [H1 H2].
  destruct (if same_key _ _ then _ else _) as [s1|] eqn:E1; [|discriminate].
  assert (M1 : merging s s1) by (destruct (same_key _ _); [apply bad_unless_merging in E1; [exact E1|now apply txs_known in H1]|injection E1 as <-; reflexivity]).
  destruct (IH s1 t' s' (merging_entries _ _ _ M1 H2) E) as [M Hs]. split; [now transitivity s1|exact Hs].
Qed.

Lemma merge_equal_merging k lp tp s p s' : entry s is_txs k lp -> entry s is_txs k tp -> merge_equal k lp tp s = Some (p, s') -> merging s s'.
Proof.
  intros Hl Ht E. unfold merge_equal in E. destruct (negb (has_bits _ MSGSTAT_DAT)).
  - injection E as _ <-. apply good_merging, good_set_obj. intros m _. etransitivity; [apply (keeps_lor m MSGSTAT_VAL)|]. now split.
  - destruct (negb _); [|injection E as _ <-; reflexivity]. destruct (if _ =? _ then _ else _) as [s1|] eqn:E1; [|discriminate]. injection E as _ <-.
    assert (M1 : merging s s1) by (destruct (_ =? _); [apply good_merging, (bad_insert_good tp); [now apply txs_known in Ht|exact E1]|injection E1 as <-; reflexivity]).
    eapply merging_then; [exact M1|]. apply txs_merging. apply (moves_entry s); [apply _|apply M1|exact Hl].
Qed.

(** What is put into the container behind the loop. *)
Definition added (s : pool) (add : gmap Z ptr) : Prop := map_Forall (entry s is_txs) add.

Lemma merging_added s s' add : merging s s' -> added s add -> added s' add.
Proof. intros [M _] Ha k p Hk. apply (moves_entry s); [apply _|exact M|exact (Ha k p Hk)]. Qed.

Lemma merge_loop_merging l : forall t add rec s t' add' rec' s', entries s l -> entries s t -> added s add ->
  merge_loop l t add rec s = Some (t', add', rec', s') -> merging s s' /\ entries s' t' /\ added s' add'.
Proof.
  induction l as [|[k lp] l IH]; intros t add rec s t' add' rec' s' Hl Ht Ha E; cbn [merge_loop] in E.
  { injection E as <- <- <- <-. split; [reflexivity|now split]. }
  apply List.Forall_cons_iff in Hl as [Hlp Hl]. cbn [fst snd] in Hlp.
  destruct (skip_less k t s) as [[t1 s1]|] eqn:E1; [|discriminate]. apply skip_less_merging in E1 as [M1 Ht1]; [|exact Ht].
  assert (Hl1 := merging_entries _ _ _ M1 Hl). assert (Ha1 := merging_added _ _ _ M1 Ha). assert (Hlp1 : entry s1 is_txs k lp) by (apply (moves_entry s); [apply _|apply M1|exact Hlp]).
  assert (New : forall s2, merging s1 s2 -> (check bool_decide (s2.(q_txs) !! k = None) in let* s3 := to_block lp s2 in merge_loop l t1 (<[k := lp]> add) rec s3) = Some (t', add', rec', s') ->
    merging s s' /\ entries s' t' /\ added s' add').
  { clear E. intros s2 M2 E2. destruct (bool_decide (q_txs s2 !! k = None)); [|discriminate E2]. destruct (to_block lp s2) as [s3|] eqn:E3; [|discriminate]. apply to_block_merging in E3.
    assert (M : merging s1 s3) by now transitivity s2.
    apply IH in E2 as (M4 & R); [|now apply (merging_entries s1)|now apply (merging_entries s1)|].
    - split; [|exact R]. transitivity s1; [exact M1|]. now transitivity s3.
    - apply map_Forall_insert_2; [apply (moves_entry s1); [apply _|apply M|exact Hlp1]|now apply (merging_added s1)]. }
  destruct t1 as [|[tk tp] t1]; [exact (New s1 ltac:(reflexivity) E)|]. pose proof Ht1 as Hc. apply List.Forall_cons_iff in Hc as [Htp Ht1']. cbn [fst snd] in Htp.
  destruct (Z.eqb_spec tk k) as [->|].
  2:{ destruct (if same_key _ _ then _ else _) as [s2|] eqn:E2; [|discriminate]. apply (New s2); [|exact E].
      destruct (same_key _ _); [apply bad_unless_merging in E2; [exact E2|now apply txs_known in Htp]|injection E2 as <-; reflexivity]. }
  destruct (merge_equal k lp tp s1) as [[p s2]|] eqn:E2; [|discriminate]. apply merge_equal_merging in E2; [|assumption..].
  set (rec1 := if has_bits _ _ then _ else _) in E. destruct (to_block p _) as [s3|] eqn:E3; [|discriminate]. apply to_block_merging in E3.
  assert (M3 : merging s1 s3) by (transitivity s2; [exact E2|]; eapply merging_then; [apply (val_merging p)|exact E3]).
  destruct (bad_same k t1 s3) as [[t4 s4]|] eqn:E4; [|discriminate]. apply bad_same_merging in E4 as [M4 Ht4]; [|now apply (merging_entries s1)].
  assert (M : merging s1 s4) by now transitivity s3.
  apply IH in E as (M5 & R); [|now apply (merging_entries s1)|exact Ht4|now apply (merging_added s1)]. split; [|exact R]. transitivity s1; [exact M1|]. now transitivity s4.
Qed.

Lemma recover_all_merging ps : forall s s', recover_all ps s = Some s' -> merging s s'.
Proof.
  induction ps as [|p ps IH]; intros s s' E; cbn [recover_all] in E; [injection E as <-; reflexivity|]. destruct (has_bits _ _); [|discriminate].
  destruct (bad_recover p s) as [s1|] eqn:E1; [|discriminate]. apply bad_recover_good, good_merging in E1. eapply merging_then; [exact E1|exact (IH _ _ E)].
Qed.

Lemma elems_entries s (m : gmap Z ptr) : added s m -> entries s (elems m).
Proof. intros Ha. apply List.Forall_forall. intros [k p] Hi. apply list_elem_of_In, elem_of_elems in Hi. exact (Ha k p Hi). Qed.

Lemma merge_final_merging final s s' : pool_ok s -> added s final -> merge_final final s = Some s' -> merging s s'.
Proof.
  intros Ok Hf E. unfold merge_final in E. destruct (merge_loop _ _ _ _ _) as [[[[t add] rec] s1]|] eqn:E1; [|discriminate].
  apply merge_loop_merging in E1 as (M1 & Ht & Ha); [|now apply elems_entries|apply elems_entries, Ok|apply map_Forall_empty].
  destruct (match last _ with None => _ | Some _ => _ end) as [s2|] eqn:E2; [|discriminate].
  assert (M2 : merging s1 s2).
  { destruct (last _) as [[k q]|]; [|injection E2 as <-; reflexivity]. destruct (bad_same k t s1) as [[t' s3]|] eqn:E3; [|discriminate]. injection E2 as <-. exact (proj1 (bad_same_merging _ _ _ _ _ Ht E3)). }
  set (s3 := s2 <| q_txs ::= _ |>) in E. assert (M3 : merging s2 s3).
  { split; [intros p m Em; now exists m|]. intros [O1 O2 O3 O4 O5 O6 O7]. split; try assumption. apply map_Forall_union_2; [exact O1|exact (merging_added s1 s2 add M2 Ha)]. }
  destruct (recover_all _ s3) as [s4|] eqn:E4; [|discriminate]. apply recover_all_merging in E4. injection E as <-.
  transitivity s1; [exact M1|]. transitivity s2; [exact M2|]. transitivity s3; [exact M3|]. transitivity s4; [exact E4|].
  split; [intros p m Em; now exists m|]. intros [O1 O2 O3 O4 O5 O6 O7]. split; try assumption.
  change (Forall (fun p => exists k, entry s4 is_txs k p) ((s4.(q_check) ++ s4.(q_wait)) ++ [])). rewrite app_nil_r. apply Forall_app in O7 as [Ow Oc]. now apply Forall_app_2.
Qed.

(** * The cleaning *)

Lemma queue_merging p s : (exists k, entry s is_txs k p) -> merging s (queue p s).
Proof.
  intros Hp. split; [intros q m Em; now exists m|]. intros [O1 O2 O3 O4 O5 O6 O7]. split; try assumption. apply Forall_app in O7 as [Ow Oc].
  change (Forall (fun p => exists k, entry s is_txs k p) (remove_first p s.(q_wait) ++ p :: s.(q_check))). apply Forall_app_2; [|now apply List.Forall_cons].
  clear Oc. induction Ow as [|q l Hq Hl IH]; cbn; [apply List.Forall_nil|]. destruct (decide _); [exact Hl|now apply List.Forall_cons].
Qed.

Lemma missing_merging k p s : entry s any_obj k p -> merging s (s <| q_missing ::= <[k := p]> |>).
Proof. intros He. split; [intros q m Em; now exists m|]. intros [O1 O2 O3 O4 O5 O6 O7]. split; try assumption. now apply map_Forall_insert_2. Qed.

Lemma wait_merging p s : (exists k, entry s is_txs k p) -> merging s (s <| q_wait ::= fun w => w ++ [p] |>).
Proof.
  intros Hp. split; [intros q m Em; now exists m|]. intros [O1 O2 O3 O4 O5 O6 O7]. split; try assumption. apply Forall_app in O7 as [Ow Oc].
  apply Forall_app_2; [|exact Oc]. apply Forall_app_2; [exact Ow|]. apply List.Forall_cons; [exact Hp|apply List.Forall_nil].
Qed.

Lemma delete_merging k s : merging s (s <| q_txs ::= delete k |>).
Proof. split; [intros q m Em; now exists m|]. intros [O1 O2 O3 O4 O5 O6 O7]. split; try assumption. now apply map_Forall_delete. Qed.

(** Two sane objects with one header are alike. *)
Lemma same_header m m' : sane m -> sane m' -> m'.(o_num) = m.(o_num) -> is_txs m -> is_txs m'.
Proof.
  intros (A1 & A2 & A3) S' E [Ht _]. split; [|exact S']. destruct S' as (B1 & B2 & B3). rewrite E, A3 in B3. assert (m'.(o_msid) = m.(o_msid)) by lia.
  assert (Ety : hashtype m' = hashtype m) by (unfold hashtype; now rewrite E). unfold is_marker in *. now rewrite Ety, H.
Qed.

Lemma schedule_merging k p s s' : pool_ok s -> entry s is_txs k p -> schedule k p s = Some s' -> merging s s'.
Proof.
  intros Ok Hp E. unfold schedule in E. assert (Hq : exists j, entry s is_txs j p) by eauto. destruct Hp as (m & Em & Ek & Ht). rewrite (obj_at _ _ _ Em) in E.
  assert (Hm : entry s any_obj m.(o_num) p) by (exists m; split; [exact Em|split; [reflexivity|exact I]]). destruct (_ =? 0xFFFFFFFF).
  { destruct (has_bits _ SERVER_DBL); [|discriminate]. injection E as <-. apply good_merging, good_set_obj. intros x _. apply keeps_lor. }
  destruct (has_bits _ MSGSTAT_DAT); [injection E as <-; now apply queue_merging|]. destruct (s.(q_bad) !! _) as [q|] eqn:Eq; [|injection E as <-; now apply missing_merging].
  destruct (ok_bad _ Ok _ _ Eq) as (mq & Emq & Sq). rewrite (obj_at _ _ _ Emq) in E. destruct (Z.eqb_spec mq.(o_num) m.(o_num)) as [En|]; [|injection E as <-; now apply missing_merging].
  destruct (has_bits _ MSGSTAT_DAT); [|discriminate]. assert (Hq2 : entry s is_txs k q) by (exists mq; split; [exact Emq|split; [congruence|]]; apply (same_header m); [apply Ht|exact Sq|exact En|exact Ht]).
  assert (M1 : merging s (s <| q_txs ::= <[k := q]> |>)) by now apply txs_merging.
  destruct (bad_recover q _) as [s1|] eqn:E1; [|discriminate]. apply bad_recover_good, good_merging in E1. destruct (obj_move _ q s1) as [s2|] eqn:E2; [|discriminate]. apply obj_move_merging in E2. injection E as <-.
  set (s3 := set_obj q _ s2). assert (M3 : merging s s3) by (transitivity (s <| q_txs ::= <[k := q]> |>); [exact M1|]; transitivity s1; [exact E1|]; transitivity s2; [exact E2|]; apply val_merging).
  transitivity s3; [exact M3|]. apply queue_merging. exists k. apply (moves_entry s); [apply _|apply M3|exact Hq2].
Qed.

Section Clean.
Context {L : Type} (undo : mobj -> L -> option (list Z * Z * L)).

Lemma undo_obj_merging p z z' : undo_obj undo p z = Some z' -> merging z.(z_s) z'.(z_s).
Proof.
  unfold undo_obj. destruct (obj_load _ _ _) as [[n s1]|] eqn:E1; [|discriminate]. apply obj_load_good, good_merging in E1. destruct (negb _); [|discriminate]. destruct (has_bits _ _); [|discriminate].
  destruct (undo _ _) as [[[msha mtim] l]|]; [|discriminate]. intros E. injection E as <-. cbn [z_s]. transitivity s1; [exact E1|]. set (s2 := s1 <| q_nodes ::= _ |>).
  assert (M2 : merging s1 s2) by (split; [intros q m Em; now exists m|apply same_maps_ok; [intros q m Em; now exists m|now repeat split]]).
  transitivity s2; [exact M2|]. transitivity (obj_unload s2.(q_svid) p s2); [apply good_merging, obj_unload_good|].
  assert (Mv : forall f s, (forall m, same_id m (f m)) -> moves s (set_obj p f s)).
  { intros f s Hf q m Em. change (q_heap (set_obj p f s)) with (alter f p s.(q_heap)). destruct (decide (p = q)) as [->|Hne]; [exists (f m); rewrite lookup_alter_eq, Em; auto|].
    exists m. rewrite lookup_alter_ne by exact Hne. split; [exact Em|reflexivity]. }
  split; [apply Mv; now split|]. apply same_maps_ok; [apply Mv; now split|now repeat split].
Qed.

Lemma clean_one_merging k p minmsid z z' : pool_ok z.(z_s) -> entry z.(z_s) is_txs k p -> clean_one undo k p minmsid z = Some z' -> merging z.(z_s) z'.(z_s).
Proof.
  intros Ok Hp E. unfold clean_one in E. set (s := z.(z_s)) in *. destruct (_ <=? minmsid).
  { injection E as <-. cbn. eapply merging_then; [|apply delete_merging]. apply good_merging, good_frame; [reflexivity|now repeat split|reflexivity]. }
  destruct (has_bits _ MSGSTAT_BAD).
  { destruct (if has_bits _ MSGSTAT_COM then _ else _) as [z1|] eqn:E1; [|discriminate]. assert (M1 : merging s z1.(z_s)) by (destruct (has_bits _ _); [now apply undo_obj_merging in E1|injection E1 as <-; reflexivity]).
    injection E as <-. transitivity z1.(z_s); [exact M1|]. destruct (_ =? _); cbn; [|apply delete_merging]. eapply merging_then; [apply delete_merging|]. apply good_merging, good_event. }
  destruct (negb _ && has_bits _ MSGSTAT_COM).
  { destruct (undo_obj undo p z) as [z1|] eqn:E1; [|discriminate]. apply undo_obj_merging in E1. transitivity z1.(z_s); [exact E1|].
    assert (Hp1 : entry z1.(z_s) is_txs k p) by (apply (moves_entry s); [apply _|apply E1|exact Hp]). destruct (_ <? _).
    - unfold on_pool in E. destruct (bad_insert p _) as [s2|] eqn:E2; [|discriminate]. injection E as <-. apply bad_insert_good, good_merging in E2; [|now apply txs_known in Hp1].
      destruct (_ =? _); cbn; [exact E2|]. eapply merging_then; [exact E2|apply delete_merging].
    - unfold on_pool in E. destruct (obj_move _ p _) as [s2|] eqn:E2; [|discriminate]. injection E as <-. cbn. apply obj_move_merging in E2. eapply merging_then; [exact E2|]. apply wait_merging.
      exists k. apply (moves_entry z1.(z_s)); [apply _|apply E2|exact Hp1]. }
  destruct (_ && _ && _).
  { destruct (negb _); [|discriminate]. unfold on_pool in E. destruct (obj_move _ p _) as [s2|] eqn:E2; [|discriminate]. injection E as <-. now apply obj_move_merging in E2. }
  destruct (_ && _); [|injection E as <-; reflexivity]. unfold on_pool in E. destruct (schedule k p _) as [s2|] eqn:E2; [|discriminate]. injection E as <-. now apply schedule_merging in E2.
Qed.

Lemma clean_loop_merging l : forall lastsvid minmsid z z', pool_ok z.(z_s) -> entries z.(z_s) l -> clean_loop undo l lastsvid minmsid z = Some z' -> merging z.(z_s) z'.(z_s).
Proof.
  induction l as [|[k p] l IH]; intros lastsvid minmsid z z' Ok Hl E; cbn [clean_loop] in E; [injection E as <-; reflexivity|]. apply List.Forall_cons_iff in Hl as [Hp Hl].
  destruct (if _ =? lastsvid then _ else _) as [mm|]; [|discriminate]. destruct (clean_one undo k p mm z) as [z1|] eqn:E1; [|discriminate]. apply clean_one_merging in E1; [|exact Ok|exact Hp].
  transitivity z1.(z_s); [exact E1|]. apply (IH _ _ _ _ (mg_ok _ _ E1 Ok) (merging_entries _ _ _ E1 Hl) E).
Qed.

Lemma merge_keeps final s l sign z : pool_ok s -> added s final -> LAST_block_merge undo final s l sign = Some z -> merging s z.(z_s).
Proof.
  intros Ok Hf E. unfold LAST_block_merge in E. destruct (merge_final final s) as [s1|] eqn:E1; [|discriminate]. apply merge_final_merging in E1; [|exact Ok|exact Hf].
  destruct (clean_txs undo _) as [z1|] eqn:E2; [|discriminate]. injection E as <-. transitivity s1; [exact E1|]. assert (Ok1 := mg_ok _ _ E1 Ok).
  unfold clean_txs in E2. apply clean_loop_merging in E2; [|exact Ok1|].
  - eapply merging_then; [exact E2|]. apply good_merging, good_frame; [reflexivity|now repeat split|reflexivity].
  - cbn [z_s]. apply List.Forall_forall. intros q Hq. apply In_rev in Hq. pose proof (elems_entries _ _ (ok_txs _ Ok1)) as He. unfold entries in He. rewrite List.Forall_forall in He. now apply He.
Qed.
End Clean.

(** * Runs *)

Section Blocks.
Context {L : Type} (process : mobj -> L -> bool * L) (undo : mobj -> L -> option (list Z * Z * L)).
Abbreviation state := (pool * option ptr * L)%type.

(** A step of the pool within a block; a new object for a message of a list; the
    end of a block, with an elected list of messages and double spends; and
    whatever else the node does, which leaves objects and containers alone (the
    clock, the records of the nodes, the settings). *)
Inductive node_step : state -> state -> Prop :=
  | step_pool a b : pool_step process a b -> node_step a b
  | step_wanted m s v l : sane m -> node_step (s, v, l) ((alloc m s).2, v, l)
  | step_block_end final sign s v l z : added s final -> LAST_block_merge undo final s l sign = Some z -> node_step (s, v, l) (z.(z_s), v, z.(z_l))
  | step_other s s' v l l' : s'.(q_heap) = s.(q_heap) -> same_maps s s' -> node_step (s, v, l) (s', v, l').

Lemma node_step_merging a b : node_step a b -> pool_ok a.1.1 -> merging a.1.1 b.1.1.
Proof.
  intros [x y Hs|m s v l Hm|final sign s v l z Hf E|s s' v l l' Eh Em] Ok; cbn [fst].
  - destruct (step_vgood _ _ _ Hs Ok) as [V1 V2 _]. split; [now apply extends_moves|exact V2].
  - apply good_merging, alloc_good.
  - exact (merge_keeps undo final s l sign z Ok Hf E).
  - assert (Hx : moves s s') by (intros p m E; rewrite Eh; now exists m). split; [exact Hx|]. now apply same_maps_ok.
Qed.

End Blocks.

