(* ===== verification/Snapshot.v ===== *)
(** Accounts at an earlier block, from the account files and the undo files:
    sending a bank to a node that joins and receiving it ([write_bank] and
    [handle_read_bank] of [escd/peer.hpp], [need_bank] and [have_bank] of
    [escd/server.cpp]), the snapshot of a period ([db_backup] of
    [common/helper/blocks.cpp]) and the answer of [get_accounts]
    ([common/command/getaccounts.cpp]). *)

From stdpp Require Import base gmap list.
From Stdlib Require Import ZArith Lia.
From S2P Require Import Prelude Params HashTree Usertxs Accounts Servers Ledger Undo Message MerklePath MsgTree MsgFile MsgHead.

Definition MAX_UNDO := 128.

(** * Files of records

    An open account or undo file.  All of them are written in whole records,
    so the position is a number of records; at the end of the file a read
    leaves buffer and position as they are. *)

Record rfd := { f_recs : list user_t; f_pos : Z }.

Definition recs (b : bank) : list user_t := get_user b <$> uids (file_users b).
Definition fopen (b : bank) : rfd := {| f_recs := recs b; f_pos := 0 |}.

Definition read_rec (f : rfd) : option user_t * rfd :=
  match f.(f_recs) !! Z.to_nat f.(f_pos) with
  | Some u => (Some u, f <| f_pos ::= Z.succ |>)
  | None => (None, f)
  end.

(** [lseek] with [SEEK_CUR]; a negative position is an error. *)
Definition seek_cur (n : Z) (f : rfd) : rfd := if f.(f_pos) + n <? 0 then f else f <| f_pos ::= Z.add n |>.

(** The file with these records. *)
Definition bank_of_list (l : list user_t) : bank := list_to_map (zip (uids (Z.of_nat (length l))) l).

(** * Sending a bank *)

(** The undo files in turn, into the buffer [u]: the files, the buffer and
    whether a record was found, in which case the remaining files skip one. *)
Fixpoint from_undo (ud : list rfd) (u : user_t) : list rfd * user_t * bool :=
  match ud with
  | [] => ([], u, false)
  | f :: ud =>
      let '(r, f) := read_rec f in
      let u := default u r in
      if negb (u.(u_msid) =? 0) then (f :: map (seek_cur 1) ud, u, true)
      else let '(ud, u, found) := from_undo ud u in (f :: ud, u, found)
  end.

(** The record of the last undo file is read once more. *)
Definition confirm_last (ud : list rfd) (u : user_t) : list rfd * user_t :=
  match last ud with
  | None => (ud, u)
  | Some ld =>
      let '(v, ld) := read_rec (seek_cur (-1) ld) in
      (removelast ud ++ [ld], match v with Some v => if v.(u_msid) =? 0 then u else v | None => u end)
  end.

(** One account into the buffer [u]. *)
Definition bank_user (fd : rfd) (ud : list rfd) (u : user_t) : rfd * list rfd * user_t :=
  let '(ud, u, found) := from_undo ud (u <| u_msid := 0 |>) in
  if found then (seek_cur 1 fd, ud, u)
  else
    let '(r, fd) := read_rec fd in
    let '(ud, u) := confirm_last ud (default u r) in
    (fd, ud, u).

(** A message with a part of a bank: its header and its records. *)
Record chunk := { c_head : list Z; c_users : list user_t }.

Definition chunk_head (len msid bk : Z) : list Z := MSGTYPE_USR :: le_bytes 3 len ++ le_bytes 2 msid ++ le_bytes 2 bk.

Section Send.
Context `{Sha256}.
(** What the memory of the message holds before the account is read. *)
Context (junk : Z -> user_t).

(** The accounts [ids] with the running totals; [None]: the checksum of an
    account is wrong and the peer is left. *)
Fixpoint bank_users (bk : Z) (ids : list Z) (fd : rfd) (ud : list rfd) (weight csum : Z) :
    option (list user_t * rfd * list rfd * Z * Z) :=
  match ids with
  | [] => Some ([], fd, ud, weight, csum)
  | id :: ids =>
      let '(fd, ud, u) := bank_user fd ud (junk id) in
      check (u_csum (user_csum u bk id) =? u.(u_csum)) in
      let* (l, fd, ud, weight, csum) := bank_users bk ids fd ud (i64 (weight + u.(u_weight))) (Z.lxor csum u.(u_csum)) in
      Some (u :: l, fd, ud, weight, csum)
  end.

(** The loop over the messages: what is sent and whether the peer is kept.
    The fuel is the number of accounts; every message takes one. *)
Fixpoint write_chunks (fuel : nat) (n : node) (bk users user msid : Z) (fd : rfd) (ud : list rfd) (weight csum : Z) : list chunk * bool :=
  match fuel with
  | O => ([], true)
  | S fuel =>
      if negb (user <? users) then ([], true)
      else
        let end_ := if users <? user + MESSAGE_CHUNK then users else user + MESSAGE_CHUNK in
        match bank_users bk (seqZ user (end_ - user)) fd ud weight csum with
        | None => ([], false)
        | Some (l, fd, ud, weight, csum) =>
            let c := {| c_head := chunk_head (end_ - user) msid bk; c_users := l |} in
            if (end_ =? users) && negb ((n.(n_weight) =? weight) && (n.(n_hash) =? csum)) then ([c], false)
            else let '(cs, ok) := write_chunks fuel n bk users end_ (msid + 1) fd ud weight csum in (c :: cs, ok)
        end
  end.

(** The undo files of the blocks [path+BLOCKSEC .. now] that can be opened;
    one that is missing is created where the block has a directory ([dir]). *)
Definition sent_undos (s : server) (dir : Z -> bool) (path bk : Z) : list (Z * bank) :=
  omap (fun block =>
    match s.(und_) !! (block, bk) with
    | Some f => Some (block, f)
    | None => if dir block then Some (block, ∅) else None
    end) (seqZ (u32 (path + BLOCKSEC)) (s.(srvs_).(sv_now) + 1 - u32 (path + BLOCKSEC))).

(** [write_bank] for the accounts of the bank [bk] at the end of block [path];
    [nodes] are those of the file [servers.srv] of the block.  The state, the
    messages sent and whether the peer is kept. *)
Definition write_bank (dir : Z -> bool) (nodes : list node) (path bk : Z) (s : server) : server * list chunk * bool :=
  if MAX_UNDO <? 1 + u32 (s.(srvs_).(sv_now) - path) / BLOCKSEC then (s, [], false)
  else match nodes !! Z.to_nat bk with
  | None => (s, [], false)
  | Some n =>
      match s.(usr_) !! bk with
      | None => (s, [], false)
      | Some b =>
          let ud := sent_undos s dir path bk in
          let s := s <| und_ ::= fun u => foldl (fun u p => <[(p.1, bk) := p.2]> u) u ud |> in
          let '(cs, ok) := write_chunks (Z.to_nat n.(n_users)) n bk n.(n_users) 0 0 (fopen b) (fopen <$> ud.*2) 0 0 in
          (s, cs, ok)
      end
  end.
End Send.

(** * Receiving a bank *)

(** The variables [hrb_last_*] of a peer. *)
Record bank_peer := { hrb_last_bank : Z; hrb_last_msid : Z; hrb_last_weight : Z; hrb_last_csum : Z }.

(** What the peers share: [do_sync], the last block, the banks still needed, the
    account files and the ones being received, [usr/%04X.dat.%04X]. *)
Record bank_sync := { y_do_sync : bool; y_last : servers; y_missing : gset Z; y_usr : banks; y_tmp : gmap (Z * Z) (list user_t) }.

(** [need_bank] and [have_bank]. *)
Definition bank_num (y : bank_sync) (bk : Z) : Z := hash_num 0 MSGTYPE_USR y.(y_last).(sv_now) bk.
Definition need_bank (y : bank_sync) (bk : Z) : Z := if bool_decide (bank_num y bk ∈ y.(y_missing)) then bank_num y bk else 0.
Definition have_bank (hnum : Z) (y : bank_sync) : bank_sync := y <| y_missing ::= fun m => m ∖ {[hnum]} |>.

(** What follows a message: the next one is read, the peer is left, the process
    ends. *)
Inductive bank_next :=
  | ReadNext
  | Leave
  | Exit.

Section Receive.
Context `{Sha256}.

(** The totals of the records of a message, from account [uid] on. *)
Fixpoint add_users (bk uid : Z) (us : list user_t) (p : bank_peer) : bank_peer :=
  match us with
  | [] => p
  | u :: us => add_users bk (u32 (uid + 1)) us (p <| hrb_last_weight ::= fun w => i64 (w + u.(u_weight)) |> <| hrb_last_csum ::= fun c => Z.lxor c (u_csum (user_csum u bk uid)) |>)
  end.

(** The end of a bank. *)
Definition bank_done (svid bk hnum : Z) (p : bank_peer) (y : bank_sync) : bank_next * bank_sync :=
  let n := nth_node y.(y_last) bk in
  if negb (n.(n_weight) =? p.(hrb_last_weight)) then (Leave, y)
  else if negb (n.(n_hash) =? p.(hrb_last_csum)) then (Leave, y)
  else
    let y := y <| y_usr ::= <[bk := bank_of_list (default [] (y.(y_tmp) !! (bk, svid)))]> |> <| y_tmp ::= delete (bk, svid) |> in
    (ReadNext, have_bank hnum y).

(** [handle_read_bank] of the peer [svid] for a message of [len] records, part
    [msid] of the bank [bk]. *)
Definition handle_read_bank (svid len msid bk : Z) (us : list user_t) (p : bank_peer) (y : bank_sync) : bank_next * bank_peer * bank_sync :=
  if negb y.(y_do_sync) then (ReadNext, p, y)
  else if (bk =? 0) || (n_nodes y.(y_last) <=? bk) then (Leave, p, y)
  else if (nth_node y.(y_last) bk).(n_users) <? u32 (len + 0x10000 * msid) then (Leave, p, y)
  else
    let hnum := need_bank y bk in
    if hnum =? 0 then (ReadNext, p, y)
    else
      let store p file :=
        let y := y <| y_tmp ::= <[(bk, svid) := file ++ us]> |> in
        let p := add_users bk (u32 (0x10000 * msid)) us p in
        if u32 (len + 0x10000 * msid) <? (nth_node y.(y_last) bk).(n_users) then (ReadNext, p, y)
        else let '(r, y) := bank_done svid bk hnum p y in (r, p, y) in
      if msid =? 0 then store {| hrb_last_bank := bk; hrb_last_msid := 0; hrb_last_weight := 0; hrb_last_csum := 0 |} []
      else if negb (p.(hrb_last_bank) =? bk) || negb (p.(hrb_last_msid) =? u32 (msid - 1)) then (Leave, p, y <| y_tmp ::= delete (bk, svid) |>)
      else match y.(y_tmp) !! (bk, svid) with
      | None => (Exit, p <| hrb_last_msid := u16 msid |>, y)
      | Some file => store (p <| hrb_last_msid := u16 msid |>) file
      end.

(** A message as it arrives: its header is read by [message::header]. *)
Definition read_chunk (svid time : Z) (c : chunk) (p : bank_peer) (y : bank_sync) : option (bank_next * bank_peer * bank_sync) :=
  let* (r, m) := msg_header svid time (message_read c.(c_head)) in
  if r =? 2 then Some (handle_read_bank svid m.(o_len) m.(o_msid) m.(o_svid) c.(c_users) p y) else Some (Leave, p, y).

Fixpoint read_chunks (svid time : Z) (cs : list chunk) (p : bank_peer) (y : bank_sync) : option (bank_next * bank_peer * bank_sync) :=
  match cs with
  | [] => Some (ReadNext, p, y)
  | c :: cs =>
      let* (r, p, y) := read_chunk svid time c p y in
      match r with ReadNext => read_chunks svid time cs p y | _ => Some (r, p, y) end
  end.
End Receive.

(** * The snapshot of a period *)

Definition is_snapshot_directory (block : Z) : bool := block / BLOCKSEC mod BLOCKDIV =? 0.

(** The blocks [block .. now] up to the first without a directory; the fuel is
    the number of blocks.  Their undo files are opened, and created where they
    are missing. *)
Fixpoint backup_blocks (fuel : nat) (dir : Z -> bool) (block now : Z) : list Z :=
  match fuel with
  | O => []
  | S fuel => if negb (block <=? now) then [] else if negb (dir block) then [] else block :: backup_blocks fuel dir (block + BLOCKSEC) now
  end.
Definition backup_undos (s : server) (bk : Z) (blocks : list Z) : list bank := map (fun b => default ∅ (s.(und_) !! (b, bk))) blocks.
Definition create_undos (bk : Z) (blocks : list Z) (u : gmap (Z * Z) bank) : gmap (Z * Z) bank :=
  foldl (fun u b => match u !! (b, bk) with Some _ => u | None => <[(b, bk) := ∅]> u end) u blocks.

(** The record of account [user] in the undo files, into the buffer [u]. *)
Fixpoint find_undo (ud : list bank) (user : Z) (u : user_t) : user_t :=
  match ud with
  | [] => u
  | f :: ud =>
      let u := default u (recs f !! Z.to_nat user) in
      if negb (u.(u_msid) =? 0) then u else find_undo ud user u
  end.

(** One account of a snapshot. *)
Definition backup_user (ud : list bank) (fd : rfd) (user : Z) : rfd * user_t :=
  let u := find_undo ud user zero_user in
  if negb (u.(u_msid) =? 0) then (seek_cur 1 fd, u)
  else
    let '(r, fd) := read_rec fd in
    let u := default u r in
    (fd, match last ud with
         | None => u
         | Some f => match recs f !! Z.to_nat user with Some v => if v.(u_msid) =? 0 then u else v | None => u end
         end).

Fixpoint backup_users (ud : list bank) (fd : rfd) (ids : list Z) : list user_t :=
  match ids with
  | [] => []
  | user :: ids => let '(fd, u) := backup_user ud fd user in u :: backup_users ud fd ids
  end.

(** The temporary files of the banks [bks], each written over what it held;
    [None] is an exception, the second part is false when a bank is missing. *)
Fixpoint backup_banks (s : server) (nodes : list node) (blocks : list Z) (old : Z -> list user_t) (bks : list Z) : option (list (Z * list user_t) * bool) :=
  match bks with
  | [] => Some ([], true)
  | bk :: bks =>
      match s.(usr_) !! bk with
      | None => Some ([], false)
      | Some b =>
          let ud := backup_undos s bk blocks in
          let* n := nodes !! Z.to_nat bk in
          let l := backup_users ud (fopen b) (uids n.(n_users)) in
          let* (r, ok) := backup_banks s nodes blocks old bks in
          Some ((bk, l ++ drop (length l) (old bk)) :: r, ok)
      end
  end.

(** [db_backup] at time [time] with [n] nodes: the undo files of the block are
    replaced by the snapshot.  [nodes] are those of the file [servers.srv]. *)
Definition db_backup (dir : Z -> bool) (nodes : list node) (time block n : Z) (old : Z -> list user_t) (s : server) : option server :=
  if negb (is_snapshot_directory block) then Some s
  else
    let now := time - time mod BLOCKSEC in
    let blocks := backup_blocks (Z.to_nat (now - block + 1)) dir block now in
    let* (files, ok) := backup_banks s nodes blocks old (seqZ 1 (n - 1)) in
    let s := s <| und_ ::= fun u => foldl (fun u p => create_undos p.1 blocks u) u files |> in
    Some (if ok then s <| und_ ::= fun u => foldl (fun u p => <[(block, p.1) := bank_of_list p.2]> u) u files |> else s).

(** * The command [get_accounts]

    [prepareResponse] for the first [users] accounts of a bank: the account file
    with the records of the undo file of one block in place. *)

Inductive accounts_result :=
  | eBankNotFound
  | eUndoNotFound
  | Accounts_ (l : list user_t).

Fixpoint response_users (users : nat) (fd undo : rfd) : list user_t :=
  match users with
  | O => []
  | S users =>
      let '(r, fd) := read_rec fd in
      let '(v, undo) := read_rec undo in
      match v with
      | Some v => if v.(u_msid) =? 0 then default zero_user r else v
      | None => default zero_user r
      end :: response_users users fd undo
  end.

Definition prepareResponse (s : server) (path bk users : Z) : accounts_result :=
  match s.(usr_) !! bk with
  | None => eBankNotFound
  | Some b =>
      match s.(und_) !! (path, bk) with
      | None => eUndoNotFound
      | Some f => if file_users f =? 0 then eUndoNotFound else Accounts_ (response_users (Z.to_nat users) (fopen b) (fopen f))
      end
  end.

(** The request at the last block ([GetAccountsHandler::onExecute]). *)
Definition get_accounts (s : server) (block bk : Z) : accounts_result :=
  prepareResponse s (if block =? 0 then s.(last_srvs_).(sv_now) else block) bk
    (if n_nodes s.(last_srvs_) <=? bk then 0 else (last_node s bk).(n_users)).
