(* ===== verification/SnapshotProps.v ===== *)
(** Theorems on accounts at an earlier block: the undo files of a block hold
    what the accounts were before it, the banks sent to a node that joins and
    the snapshots of a period are the accounts of their block. *)

From stdpp Require Import base gmap list.
From Stdlib Require Import ZArith Lia.
From S2P Require Import Prelude Params HashTree Usertxs Accounts Servers Ledger Process Undo Invariant Demo ProcessProps UndoProps Message MerklePath MsgTree MsgFile MsgHead Snapshot.

(** * The undo file of a block *)

(** An account before the blocks of the undo files [ud], for the account file
    [b] of today. *)
Definition account_at (ud : list bank) (b : bank) (uid : Z) : user_t := default (get_user b uid) (undo_value ud uid).

Lemma changed_bit_mark ch k uid : 0 <= k -> 0 <= uid -> (Z.to_nat (k / 64) < length ch)%nat ->
  changed_bit (mark_changed ch k) uid = changed_bit ch uid || (uid =? k).
Proof.
  intros Hk Hu Hl. unfold changed_bit, mark_changed, nthz. pose proof (Z.div_pos k 64). pose proof (Z.div_pos uid 64).
  pose proof (Z.div_mod k 64). pose proof (Z.div_mod uid 64). pose proof (Z.mod_pos_bound uid 64). pose proof (Z.mod_pos_bound k 64).
  destruct (decide (uid / 64 = k / 64)) as [E|E].
  - rewrite E, list_lookup_insert_eq by assumption. cbn [from_option id]. rewrite Z.lor_spec, Z.shiftl_1_l, Z.pow2_bits_eqb by lia. f_equal.
    destruct (Z.eqb_spec uid k) as [->|]; [now rewrite Z.eqb_refl|apply Z.eqb_neq; lia].
  - rewrite list_lookup_insert_ne by lia. rewrite (proj2 (Z.eqb_neq uid k)) by congruence. now rewrite orb_false_r.
Qed.

Lemma save_undo_loop_spec l ch file ch' file' uid :
  NoDup l.*1 -> (forall k u, (k, u) ∈ l -> 0 <= k) -> 0 <= uid -> save_undo_loop l ch file = Some (ch', file') ->
  length ch' = length ch /\
  (uid ∉ l.*1 -> changed_bit ch' uid = changed_bit ch uid /\ get_user file' uid = get_user file uid) /\
  (forall u, (uid, u) ∈ l -> changed_bit ch' uid = true /\ get_user file' uid = if changed_bit ch uid then get_user file uid else u).
Proof.
  intros Hd Hk Hu. revert ch file. induction l as [|[k u] l IH]; intros ch file E; cbn [save_undo_loop] in E.
  - simplify_eq. split_and!; [reflexivity|auto|]. intros u Hin. now apply elem_of_nil in Hin.
  - inv_opt. apply Nat.ltb_lt in E0. cbn in Hd. apply NoDup_cons in Hd as [Hk1 Hd].
    pose proof (Hk k u ltac:(left)) as Hk0. specialize (IH Hd (fun k' u' Hin => Hk k' u' (list_elem_of_further _ _ _ Hin))).
    destruct (changed_bit ch k) eqn:Ec.
    + destruct (IH _ _ E) as (L & A & B). split_and!; [exact L| |].
      * intros Hn. apply A. intros Hin. apply Hn. now right.
      * intros v [Hv|Hv]%elem_of_cons; [|now apply B]. simplify_eq. rewrite Ec. destruct (A Hk1) as [-> ->]. auto.
    + destruct (IH _ _ E) as (L & A & B).
      assert (Lm : length (mark_changed ch k) = length ch) by (unfold mark_changed; apply length_insert).
      split_and!; [congruence| |].
      * intros Hn. apply not_elem_of_cons in Hn as [Hn1 Hn2]. destruct (A Hn2) as [-> ->].
        rewrite changed_bit_mark, get_user_insert, decide_False, (proj2 (Z.eqb_neq uid k)), orb_false_r by (assumption || congruence). auto.
      * intros v [Hv|Hv]%elem_of_cons.
        -- simplify_eq. destruct (A Hk1) as [-> ->]. rewrite changed_bit_mark, Ec, get_user_insert, decide_True, Z.eqb_refl by (assumption || reflexivity). auto.
        -- destruct (B v Hv) as [-> ->]. assert (Hne : uid <> k). { intros ->. apply Hk1. apply (list_elem_of_fmap_2 fst _ (k, v) Hv). }
           rewrite changed_bit_mark, get_user_insert, decide_False, (proj2 (Z.eqb_neq uid k)), orb_false_r by assumption. auto.
Qed.

(** What [save_undo] does to the file and the marks of an account. *)
Lemma save_undo_spec n undo users file n' file' uid :
  (forall k u, undo !! k = Some u -> 0 <= k) -> 0 <= uid < n.(n_users) -> save_undo n undo users file = Some (n', file') ->
  changed_bit n'.(n_changed) uid = changed_bit n.(n_changed) uid || bool_decide (is_Some (undo !! uid)) /\
  get_user file' uid = if changed_bit n.(n_changed) uid then get_user file uid else default (get_user file uid) (undo !! uid).
Proof.
  intros Hk Hu E. unfold save_undo in E. inv_opt. simplify_eq. cbn.
  set (m := if _ <=? _ then _ else _) in *.
  assert (Hm : changed_bit (n_changed m) uid = changed_bit (n_changed n) uid).
  { unfold m. destruct (Z.leb_spec (n_users n) users); [|reflexivity]. cbn. apply changed_bit_resize; [lia|].
    pose proof (Z.div_le_mono uid users 64). lia. }
  rewrite <- Hm. clearbody m. clear Hm.
  assert (Hk' : forall k u, (k, u) ∈ elems undo -> 0 <= k) by (intros k u Hin; apply elem_of_elems in Hin; eauto).
  destruct (save_undo_loop_spec _ _ _ _ _ uid (elems_nodup undo) Hk' ltac:(lia) E0) as (_ & A & B).
  destruct (undo !! uid) as [u|] eqn:Eu; cbn.
  - destruct (B u) as [-> ->]; [now apply elem_of_elems|]. now rewrite orb_true_r.
  - assert (Hn : uid ∉ (elems undo).*1).
    { intros Hin. apply list_elem_of_fmap in Hin as ([k u] & -> & Hin). apply elem_of_elems in Hin. cbn in Eu. congruence. }
    destruct (A Hn) as [-> ->]. rewrite orb_false_r. split; [reflexivity|]. now destruct (changed_bit (n_changed m) uid).
Qed.

Section Snapshot.
Context `{Sha256}.

(** The undo file of bank [bk] in the open block holds the accounts [b0] the
    block began with: every account is either marked and saved or as it was. *)
Record undo_kept (b0 : bank) (users bk : Z) (s : server) : Prop := {
  uk_users : users <= n_users (cur_node s bk);
  uk_saved : forall uid, 0 <= uid < users -> changed_bit (n_changed (cur_node s bk)) uid = true ->
    get_user (s.(und_) !!! (s.(srvs_).(sv_now), bk)) uid = get_user b0 uid;
  uk_same : forall uid, 0 <= uid < users -> changed_bit (n_changed (cur_node s bk)) uid = false ->
    u_msid (get_user (s.(und_) !!! (s.(srvs_).(sv_now), bk)) uid) = 0 /\ get_user (bank_of s.(usr_) bk) uid = get_user b0 uid
}.

(** So the file leads back to [b0]. *)
Lemma kept_account b0 users bk s uid :
  undo_kept b0 users bk s -> (forall i, 0 <= i < users -> u_msid (get_user b0 i) <> 0) -> 0 <= uid < users ->
  account_at [s.(und_) !!! (s.(srvs_).(sv_now), bk)] (bank_of s.(usr_) bk) uid = get_user b0 uid.
Proof.
  intros [_ Hs Hn] Hm Hu. unfold account_at. cbn [undo_value]. specialize (Hm uid Hu).
  destruct (changed_bit (n_changed (cur_node s bk)) uid) eqn:Ec.
  - rewrite (Hs uid Hu Ec). now rewrite (proj2 (Z.eqb_neq _ _)) by assumption.
  - destruct (Hn uid Hu Ec) as [-> ->]. reflexivity.
Qed.

(** A block begins with empty undo files and no marks. *)
Lemma kept_start b users bk s :
  users <= n_users (cur_node s bk) -> s.(und_) !! (s.(srvs_).(sv_now), bk) = None -> Forall (eq 0) (n_changed (cur_node s bk)) ->
  b = bank_of s.(usr_) bk -> undo_kept b users bk s.
Proof.
  intros Hu Hn Hc ->. assert (Hf : forall uid, changed_bit (n_changed (cur_node s bk)) uid = false).
  { intros uid. unfold changed_bit, nthz. destruct (n_changed (cur_node s bk) !! Z.to_nat (uid / 64)) as [x|] eqn:E; cbn; [|apply Z.testbit_0_l].
    rewrite Forall_lookup in Hc. rewrite <- (Hc _ _ E). apply Z.testbit_0_l. }
  split; [assumption|intros uid _ E; now rewrite Hf in E|]. intros uid _ _. split; [|reflexivity].
  unfold lookup_total, map_lookup_total. rewrite Hn. reflexivity.
Qed.

(** The accounts of a message are saved before they are written. *)
Lemma commit_accounts_und s m ousers l s' :
  0 <= m.(m_svid) < n_nodes s.(srvs_) -> commit_accounts s m ousers l = Some s' ->
  exists n f, save_undo ((cur_node s m.(m_svid)) <| n_weight := i64 (n_weight (cur_node s m.(m_svid)) + l_weight l) |> <| n_hash := Z.lxor (n_hash (cur_node s m.(m_svid))) (l_csum l) |>)
      l.(l_undo) ousers (s.(und_) !!! (s.(srvs_).(sv_now), m.(m_svid))) = Some (n, f) /\
    cur_node s' m.(m_svid) = n /\ s'.(und_) = <[(s.(srvs_).(sv_now), m.(m_svid)) := f]> s.(und_) /\ s'.(srvs_).(sv_now) = s.(srvs_).(sv_now).
Proof.
  intros Hin E. unfold commit_accounts in E. inv_opt. subst s'. unfold server_save_undo in E0. inv_opt.
  match type of E with save_undo (cur_node (put_cur_node ?s1 _ _) _) _ _ _ = _ =>
    assert (Hin1 : 0 <= m_svid m < n_nodes (srvs_ s1)) by exact Hin;
    rewrite cur_put, decide_True in E by (first [exact Hin1|reflexivity|lia]) end.
  match type of E with save_undo _ _ _ _ = Some (?n, ?f) => exists n, f end.
  subst s0. split; [exact E|]. split; [|split; reflexivity].
  match type of E with save_undo ?nd _ _ _ = Some (?n, _) => change (cur_node (put_cur_node (put_cur_node s (m_svid m) nd) (m_svid m) n) (m_svid m) = n) end.
  rewrite cur_put; [now rewrite decide_True by reflexivity|..]; unfold n_nodes in *; rewrite ?length_put; lia.
Qed.

(** An operation that saves the accounts [undo] of bank [svid] in the undo file
    of the block before it changes them. *)
Record saves (svid : Z) (undo : gmap Z user_t) (s s' : server) : Prop := {
  sa_now : s'.(srvs_).(sv_now) = s.(srvs_).(sv_now);
  sa_und : forall bk, bk <> svid -> s'.(und_) !!! (s.(srvs_).(sv_now), bk) = s.(und_) !!! (s.(srvs_).(sv_now), bk);
  sa_node : forall bk, 0 <= bk -> bk <> svid -> n_changed (cur_node s' bk) = n_changed (cur_node s bk) /\ n_users (cur_node s' bk) = n_users (cur_node s bk);
  sa_bank : forall bk uid, bk <> svid -> get_user (bank_of s'.(usr_) bk) uid = get_user (bank_of s.(usr_) bk) uid;
  sa_users : n_users (cur_node s svid) <= n_users (cur_node s' svid);
  sa_old : forall uid v, undo !! uid = Some v -> v = get_user (bank_of s.(usr_) svid) uid;
  sa_rest : forall uid, 0 <= uid < n_users (cur_node s svid) -> undo !! uid = None -> get_user (bank_of s'.(usr_) svid) uid = get_user (bank_of s.(usr_) svid) uid;
  sa_mark : forall uid, 0 <= uid < n_users (cur_node s svid) ->
    changed_bit (n_changed (cur_node s' svid)) uid = changed_bit (n_changed (cur_node s svid)) uid || bool_decide (is_Some (undo !! uid));
  sa_file : forall uid, 0 <= uid < n_users (cur_node s svid) ->
    let old := get_user (s.(und_) !!! (s.(srvs_).(sv_now), svid)) uid in
    get_user (s'.(und_) !!! (s.(srvs_).(sv_now), svid)) uid = if changed_bit (n_changed (cur_node s svid)) uid then old else default old (undo !! uid)
}.

(** Such an operation keeps the undo file of every bank complete. *)
Lemma saves_kept svid undo s s' b0 users bk : 0 <= bk -> saves svid undo s s' -> undo_kept b0 users bk s -> undo_kept b0 users bk s'.
Proof.
  intros Hbk [Sn Su Sd Sb Sg So Sr Sm Sf] [Ku Ks Kn]. destruct (decide (bk = svid)) as [->|Hne].
  - split; [lia| |]; rewrite Sn; intros uid Hu Hc; rewrite Sm in Hc by lia; rewrite Sf by lia; cbv zeta.
    + destruct (changed_bit (n_changed (cur_node s svid)) uid) eqn:Eb; [now apply Ks|].
      cbn in Hc. apply bool_decide_eq_true in Hc as [v Hv]. rewrite Hv. cbn. rewrite (So _ _ Hv). now apply Kn.
    + apply orb_false_iff in Hc as [Hc1 Hc2]. rewrite Hc1. apply bool_decide_eq_false in Hc2.
      destruct (undo !! uid) eqn:Ev; [exfalso; eauto|]. cbn. rewrite (Sr uid) by (assumption || lia). now apply Kn.
  - destruct (Sd bk Hbk Hne) as [E1 E2]. split; [lia| |]; rewrite Sn, E1; intros uid Hu Hc; rewrite (Su bk Hne); rewrite ?(Sb bk uid Hne); auto.
Qed.

(** Executing a message is such an operation. *)
Lemma process_message_saves e s m s' : msg_pre s m -> process_message e s m = Ok s' -> exists undo, saves m.(m_svid) undo s s'.
Proof.
  intros P E. destruct (message_final e s m s' P E) as (tm & sL & lL & l2 & s1 & El & In & Id & Il & Ec & Pk).
  pose proof (process_loop_rest _ _ _ _ _ _ _ _ _ _ (bytes_drop _ _ (mp_data _ _ P)) El) as (_ & _ & _ & Eund).
  pose proof (mp_svid _ _ P) as Hsv.
  assert (HinL : 0 <= m_svid m < n_nodes (srvs_ sL)) by (unfold n_nodes in *; rewrite (ni_len _ _ _ _ In); exact Hsv).
  destruct (commit_accounts_und _ _ _ _ _ HinL Ec) as (n & f & Es & En & Eu & Ew).
  destruct (commit_accounts_node _ _ _ _ _ HinL Ec) as (_ & _ & Hus & _ & _ & _ & Hoth).
  assert (Eund' : und_ s' = <[(sv_now (srvs_ s), m_svid m) := f]> (und_ s)).
  { rewrite (po_und _ _ Pk). cbn. rewrite Eu, Eund, (ni_now _ _ _ _ In). reflexivity. }
  assert (Ebank : forall j uid, get_user (bank_of (usr_ s') j) uid = get_user (bank_of (usr_ s1) j) uid) by (intros; now rewrite (po_usr _ _ Pk)).
  assert (Ench : forall j, 0 <= j -> n_changed (cur_node s' j) = n_changed (cur_node s1 j) /\ n_users (cur_node s' j) = n_users (cur_node s1 j)).
  { intros j Hj. rewrite (po_node _ _ Pk j Hj). now cbn. }
  pose proof (ni_grow _ _ _ _ In) as Hg. pose proof (ni_users _ _ _ _ In) as Hnu. rewrite Eund, (ni_now _ _ _ _ In) in Es.
  assert (Hsp : forall uid, 0 <= uid < n_users (cur_node s (m_svid m)) -> _) by
    (intros uid Hu; apply (save_undo_spec _ _ _ _ _ _ uid) in Es; [exact Es| |cbn; lia];
     intros k u Hk; rewrite (li_undo _ _ _ _ Il) in Hk; destruct (l_changes l2 !! k) eqn:Ek; [|discriminate]; apply (li_dom _ _ _ _ Il k); eauto).
  exists (l_undo l2). split.
  - rewrite (po_now _ _ Pk). cbn. rewrite Ew. apply (ni_now _ _ _ _ In).
  - intros bk Hne. rewrite Eund'. apply lookup_total_insert_ne. congruence.
  - intros bk Hbk Hne. destruct (Ench bk Hbk) as [-> ->]. rewrite (Hoth bk Hbk Hne), (ni_other _ _ _ _ In bk Hbk Hne). auto.
  - intros bk uid Hne. rewrite Ebank, (commit_accounts_disk _ _ _ _ _ _ _ Ec), decide_False by assumption. now rewrite (di_other _ _ _ _ Id).
  - rewrite (proj2 (Ench _ (proj1 Hsv))), Hus, Hnu. lia.
  - intros uid v Hv. rewrite (li_undo _ _ _ _ Il) in Hv. destruct (l_changes l2 !! uid); [|discriminate]. destruct (uid <? _); [|discriminate]. now simplify_eq.
  - intros uid Hu Hn. rewrite Ebank, (commit_accounts_disk _ _ _ _ _ _ _ Ec), decide_True by reflexivity.
    rewrite (li_undo _ _ _ _ Il) in Hn. destruct (l_changes l2 !! uid) eqn:Ech; cbn; [|now apply (di_bank _ _ _ _ Id)].
    rewrite (proj2 (Z.ltb_lt _ _)) in Hn by lia. discriminate.
  - intros uid Hu. rewrite (proj1 (Ench _ (proj1 Hsv))), En, (proj1 (Hsp uid Hu)). cbn. now rewrite (ni_changed _ _ _ _ In) by assumption.
  - intros uid Hu. cbv zeta. rewrite Eund', lookup_total_insert_eq, (proj2 (Hsp uid Hu)). cbn. now rewrite (ni_changed _ _ _ _ In) by assumption.
Qed.

(** A run of messages in one block. *)
Inductive messages_run (e : env) : server -> server -> Prop :=
  | run_none s : messages_run e s s
  | run_message s m s1 s2 : msg_pre s m -> process_message e s m = Ok s1 -> messages_run e s1 s2 -> messages_run e s s2.

(** C29: The undo file of a block is complete: whatever messages a node has
    executed since the block began, every account a bank had then (with its
    non-zero [msid]) is found again from the undo file of the block and the
    account file of today, in any bank. *)
Theorem undo_file_complete e s s' bk users :
  0 <= bk -> users <= n_users (cur_node s bk) -> s.(und_) !! (s.(srvs_).(sv_now), bk) = None -> Forall (eq 0) (n_changed (cur_node s bk)) ->
  (forall uid, 0 <= uid < users -> u_msid (get_user (bank_of s.(usr_) bk) uid) <> 0) -> messages_run e s s' ->
  forall uid, 0 <= uid < users ->
  account_at [s'.(und_) !!! (s'.(srvs_).(sv_now), bk)] (bank_of s'.(usr_) bk) uid = get_user (bank_of s.(usr_) bk) uid.
Proof.
  intros Hbk Hu Hn Hc Hm R uid Hi. apply (kept_account _ users); [|exact Hm|exact Hi].
  pose proof (kept_start _ users bk s Hu Hn Hc eq_refl) as K. clear Hu Hn Hc Hm. generalize dependent (bank_of (usr_ s) bk). intros b K.
  induction R as [|s m s1 s2 P E R IH]; [exact K|]. destruct (process_message_saves e s m s1 P E) as [undo S]. apply IH.
  exact (saves_kept _ undo s s1 b users bk Hbk S K).
Qed.

(** * Reading the files *)

(** Behind the end of a file there is no account. *)
Lemma get_user_behind b uid : file_users b <= uid -> get_user b uid = zero_user.
Proof. intros Hu. unfold get_user, lookup_total, map_lookup_total. now rewrite file_users_spec by assumption. Qed.

Lemma recs_lookup b uid : 0 <= uid -> recs b !! Z.to_nat uid = if uid <? file_users b then Some (get_user b uid) else None.
Proof.
  intros Hu. unfold recs. rewrite list_lookup_fmap. unfold uids. destruct (Z.ltb_spec uid (file_users b)).
  - rewrite lookup_seqZ_lt by lia. cbn. do 2 f_equal. lia.
  - now rewrite lookup_seqZ_ge by lia.
Qed.

(** The position of an open file when account [i] is due: behind the end it
    does not matter. *)
Definition at_user (i : Z) (f : rfd) (b : bank) : Prop :=
  f.(f_recs) = recs b /\ (i <= file_users b -> f.(f_pos) = i) /\ (file_users b < i -> file_users b <= f.(f_pos) <= i).

Lemma fopen_at b : at_user 0 (fopen b) b.
Proof. pose proof (file_users_pos b). split_and!; cbn; [reflexivity|lia|lia]. Qed.

Lemma fopen_all bs : Forall2 (at_user 0) (fopen <$> bs) bs.
Proof. induction bs; cbn; constructor; [apply fopen_at|assumption]. Qed.

Lemma read_rec_at i f b : 0 <= i -> at_user i f b ->
  (read_rec f).1 = (if i <? file_users b then Some (get_user b i) else None) /\ at_user (i + 1) (read_rec f).2 b.
Proof.
  intros Hi (Hr & H1 & H2). pose proof (file_users_pos b) as Hp. unfold read_rec. rewrite Hr. destruct (Z.ltb_spec i (file_users b)).
  - rewrite H1, recs_lookup, (proj2 (Z.ltb_lt _ _)) by lia. split; [reflexivity|]. split_and!; cbn; [exact Hr|lia..].
  - assert (Hf : file_users b <= f_pos f <= i) by (destruct (decide (file_users b < i)); [auto|rewrite H1 by lia; lia]).
    rewrite recs_lookup, (proj2 (Z.ltb_ge _ _)) by lia. split; [reflexivity|]. split_and!; cbn; [exact Hr|lia..].
Qed.

Lemma seek_one_at i f b : 0 <= i -> at_user i f b -> at_user (i + 1) (seek_cur 1 f) b.
Proof.
  intros Hi (Hr & H1 & H2). pose proof (file_users_pos b) as Hp. assert (Hf : 0 <= f_pos f) by lia.
  unfold seek_cur. rewrite (proj2 (Z.ltb_ge _ _)) by lia. split_and!; cbn; [exact Hr|lia..].
Qed.

(** The undo files in turn. *)
Lemma from_undo_at i ud bs u : 0 <= i -> Forall2 (at_user i) ud bs -> u_msid u = 0 ->
  exists ud' u', from_undo ud u = (ud', u', bool_decide (is_Some (undo_value bs i))) /\ Forall2 (at_user (i + 1)) ud' bs /\
    match undo_value bs i with Some v => u' = v | None => u_msid u' = 0 end.
Proof.
  intros Hi Hf. revert u. induction Hf as [|f b ud bs Hb Hf IH]; intros u Hu; [exists [], u; now split_and!|].
  cbn [from_undo undo_value]. destruct (read_rec_at i f b Hi Hb) as [Hr Ha]. destruct (read_rec f) as [r f']. cbn in Hr, Ha.
  assert (Hd : u_msid (default u r) = u_msid (get_user b i) /\ (u_msid (get_user b i) <> 0 -> default u r = get_user b i)).
  { subst r. destruct (Z.ltb_spec i (file_users b)); cbn; [auto|]. rewrite get_user_behind by assumption. cbn. split; [exact Hu|intros []; reflexivity]. }
  destruct Hd as [Hd1 Hd2]. rewrite Hd1. destruct (Z.eqb_spec (u_msid (get_user b i)) 0) as [E|E]; cbn [negb].
  - destruct (IH (default u r)) as (ud' & u' & -> & Hf' & Hv); [congruence|]. exists (f' :: ud'), u'. split_and!; [reflexivity|now constructor|exact Hv].
  - exists (f' :: map (seek_cur 1) ud), (get_user b i). rewrite Hd2 by assumption. split_and!; [reflexivity| |reflexivity].
    constructor; [exact Ha|]. clear IH. induction Hf; cbn; constructor; [now apply seek_one_at|assumption].
Qed.

Lemma undo_value_last bs b i : last bs = Some b -> undo_value bs i = None -> u_msid (get_user b i) = 0.
Proof.
  intros (bs0 & ->)%last_Some. induction bs0 as [|x bs IH]; cbn.
  - destruct (Z.eqb_spec (u_msid (get_user b i)) 0); [auto|discriminate].
  - destruct (_ =? _); [exact IH|discriminate].
Qed.

(** The second look at the last undo file changes nothing when the file is
    empty or has all accounts. *)
Lemma confirm_last_at i ud bs u : 0 <= i -> Forall2 (at_user (i + 1)) ud bs -> undo_value bs i = None ->
  (forall b, last bs = Some b -> file_users b = 0 \/ i < file_users b) ->
  exists ud', confirm_last ud u = (ud', u) /\ Forall2 (at_user (i + 1)) ud' bs.
Proof.
  intros Hi Hf Hn Hl. unfold confirm_last. destruct (last ud) as [ld|] eqn:El; [|eauto].
  destruct (last_Some ud ld) as [(ud0 & ->) _]; [exact El|]. apply Forall2_app_inv_l in Hf as (bs0 & bl & Hf & Hb & ->).
  inversion Hb as [|? b ? ? Hb1 Hb2]; subst. inversion Hb2; subst. rewrite last_snoc in Hl. specialize (Hl b eq_refl).
  assert (Hm : u_msid (get_user b i) = 0).
  { apply (undo_value_last (bs0 ++ [b])); [apply last_snoc|exact Hn]. }
  rewrite removelast_last. destruct Hb1 as (Hr & H1 & H2). pose proof (file_users_pos b) as Hp.
  assert (Hk : exists r ld', read_rec (seek_cur (-1) ld) = (r, ld') /\ (r = None \/ r = Some (get_user b i)) /\ at_user (i + 1) ld' b).
  { unfold seek_cur, read_rec, at_user. destruct Hl as [Hz|Hz].
    - assert (Hnil : f_recs ld = []) by (rewrite Hr; unfold recs; now rewrite Hz).
      destruct (Z.ltb_spec (f_pos ld + -1) 0); cbn; rewrite Hnil; do 2 eexists; (split; [reflexivity|]); cbn; (split; [auto|]); split_and!; (congruence || lia).
    - specialize (H1 ltac:(lia)). rewrite (proj2 (Z.ltb_ge _ _)) by lia. cbn. rewrite Hr, recs_lookup, (proj2 (Z.ltb_lt _ _)) by lia.
      do 2 eexists. split; [reflexivity|]. cbn. split; [right; do 2 f_equal; lia|]. split_and!; (assumption || lia). }
  destruct Hk as (r & ld' & -> & Hrr & Ha). exists (ud0 ++ [ld']). split.
  - f_equal. destruct Hrr as [->| ->]; [reflexivity|]. now rewrite Hm.
  - apply Forall2_app; [assumption|]. now constructor.
Qed.

(** One account that is sent. *)
Lemma bank_user_at i fd ud b bs u : 0 <= i < file_users b -> at_user i fd b -> Forall2 (at_user i) ud bs ->
  (forall f, last bs = Some f -> file_users f = 0 \/ i < file_users f) ->
  exists fd' ud', bank_user fd ud u = (fd', ud', account_at bs b i) /\ at_user (i + 1) fd' b /\ Forall2 (at_user (i + 1)) ud' bs.
Proof.
  intros Hi Hb Hf Hl. unfold bank_user.
  destruct (from_undo_at i ud bs (u <| u_msid := 0 |>) ltac:(lia) Hf ltac:(destruct u; reflexivity)) as (ud' & u' & -> & Hf' & Hv). unfold account_at.
  destruct (undo_value bs i) as [v|] eqn:Ev; cbn [from_option id].
  - rewrite bool_decide_true by eauto. subst u'. do 2 eexists. split; [reflexivity|]. split; [|exact Hf']. apply seek_one_at; [lia|exact Hb].
  - rewrite bool_decide_false by (intros [? ?]; discriminate). destruct (read_rec_at i fd b ltac:(lia) Hb) as [Hr Ha].
    destruct (read_rec fd) as [r fd']. cbn in Hr, Ha. rewrite (proj2 (Z.ltb_lt _ _)) in Hr by lia. subst r. cbn [from_option id].
    destruct (confirm_last_at i ud' bs (get_user b i) ltac:(lia) Hf' Ev Hl) as (ud'' & -> & Hf''). eauto.
Qed.

Definition records_weight (w : Z) (l : list user_t) : Z := foldl (fun s u => i64 (s + u.(u_weight))) w l.
Definition records_csum (c : Z) (l : list user_t) : Z := foldl (fun s u => Z.lxor s u.(u_csum)) c l.

Lemma bank_users_at junk bk b bs k : forall i fd ud w c,
  0 <= i -> i + Z.of_nat k <= file_users b -> at_user i fd b -> Forall2 (at_user i) ud bs ->
  (forall j, i <= j < i + Z.of_nat k -> csum_ok bk (account_at bs b j) j) ->
  (forall f, last bs = Some f -> file_users f = 0 \/ i + Z.of_nat k <= file_users f) ->
  let l := account_at bs b <$> seqZ i (Z.of_nat k) in
  exists fd' ud', bank_users junk bk (seqZ i (Z.of_nat k)) fd ud w c = Some (l, fd', ud', records_weight w l, records_csum c l) /\
    at_user (i + Z.of_nat k) fd' b /\ Forall2 (at_user (i + Z.of_nat k)) ud' bs.
Proof.
  induction k as [|k IH]; intros i fd ud w c Hi Hk Hb Hf Hc Hl.
  { cbn. exists fd, ud. rewrite Z.add_0_r. auto. }
  rewrite seqZ_cons by lia. rewrite <- (Nat2Z.inj_pred (S k)) by lia. cbn [Nat.pred]. unfold Z.succ.
  destruct (bank_user_at i fd ud b bs (junk i) ltac:(lia) Hb Hf) as (fd1 & ud1 & E1 & Hb1 & Hf1); [intros f Hf0; destruct (Hl f Hf0); lia|].
  cbn [bank_users]. rewrite E1. rewrite (Hc i) by lia. rewrite Z.eqb_refl.
  destruct (IH (i + 1) fd1 ud1 (i64 (w + u_weight (account_at bs b i))) (Z.lxor c (u_csum (account_at bs b i)))) as (fd2 & ud2 & E2 & Hb2 & Hf2);
    [lia|lia|exact Hb1|exact Hf1|intros j Hj; apply Hc; lia|intros f Hf0; destruct (Hl f Hf0); lia|].
  rewrite E2. exists fd2, ud2. replace (i + Z.of_nat (S k)) with (i + 1 + Z.of_nat k) by lia. auto.
Qed.

Lemma add_users_sum bk us : forall uid p, 0 <= uid -> uid + Z.of_nat (length us) < 2 ^ 32 ->
  (forall i u, us !! i = Some u -> csum_ok bk u (uid + Z.of_nat i)) ->
  add_users bk uid us p = p <| hrb_last_weight := records_weight (hrb_last_weight p) us |> <| hrb_last_csum := records_csum (hrb_last_csum p) us |>.
Proof.
  induction us as [|u us IH]; intros uid p Hu Hl Hc; [now destruct p|]. cbn [add_users]. cbn [length] in Hl.
  rewrite u32_small by lia. rewrite IH; [|lia|lia|].
  - pose proof (Hc 0%nat u eq_refl) as Ec. rewrite Nat2Z.inj_0, Z.add_0_r in Ec. rewrite Ec. now destruct p.
  - intros i v Hv. pose proof (Hc (S i) v Hv) as Ec. replace (uid + 1 + Z.of_nat i) with (uid + Z.of_nat (S i)) by lia. exact Ec.
Qed.

Lemma get_bank_of_list l i : 0 <= i -> get_user (bank_of_list l) i = default zero_user (l !! Z.to_nat i).
Proof.
  intros Hi. unfold get_user, bank_of_list, lookup_total, map_lookup_total. unfold uids.
  assert (Hlk : (list_to_map (zip (seqZ 0 (Z.of_nat (length l))) l) : bank) !! i = l !! Z.to_nat i); [|now rewrite Hlk].
  assert (Hz : (zip (seqZ 0 (Z.of_nat (length l))) l).*1 = seqZ 0 (Z.of_nat (length l))) by (apply fst_zip; rewrite length_seqZ; lia).
  destruct (l !! Z.to_nat i) as [u|] eqn:E.
  - apply elem_of_list_to_map_1; [rewrite Hz; apply NoDup_seqZ|]. apply list_elem_of_lookup. exists (Z.to_nat i).
    rewrite lookup_zip_with, E, lookup_seqZ_lt by (apply lookup_lt_Some in E; lia). cbn. do 2 f_equal. lia.
  - apply not_elem_of_list_to_map_1. rewrite Hz. intros Hin%elem_of_seqZ. apply lookup_ge_None in E. lia.
Qed.

(** The header of a part is read as it was written. *)
Lemma chunk_header svid time len bk : 0 <= len <= MESSAGE_CHUNK -> 0 <= bk < 2 ^ 16 ->
  exists m, msg_header svid time (message_read (chunk_head len 0 bk)) = Some (2, m) /\ o_len m = len /\ o_msid m = 0 /\ o_svid m = bk.
Proof.
  unfold MESSAGE_CHUNK. intros Hl Hb. unfold chunk_head.
  assert (H1 : rdz (MSGTYPE_USR :: le_bytes 3 len ++ le_bytes 2 0 ++ le_bytes 2 bk) 1 3 = len) by (rewrite <- (app_nil_r (le_bytes 2 bk)); read_fields; lia).
  assert (H2 : rdz (MSGTYPE_USR :: le_bytes 3 len ++ le_bytes 2 0 ++ le_bytes 2 bk) 4 2 = 0) by (rewrite <- (app_nil_r (le_bytes 2 bk)); read_fields; lia).
  assert (H3 : rdz (MSGTYPE_USR :: le_bytes 3 len ++ le_bytes 2 0 ++ le_bytes 2 bk) 6 2 = bk) by (rewrite <- (app_nil_r (le_bytes 2 bk)); read_fields; lia).
  set (d := MSGTYPE_USR :: _) in *. assert (Hd : nthz d 0 = MSGTYPE_USR) by reflexivity. clearbody d.
  unfold msg_header. cbn [message_read o_know o_busy o_sent o_data]. rewrite Hd, H1, H2, H3. cbn -[realloc MESSAGE_CHUNK rdz].
  rewrite (proj2 (Z.ltb_ge _ _)) by (unfold MESSAGE_CHUNK; lia). eexists. split; [reflexivity|]. auto.
Qed.

(** * Sending and receiving a bank *)

Lemma check_sums n b users l : n_users n = users -> l = get_user b <$> uids users ->
  node_sums n b = (n_weight n =? records_weight 0 l) && (n_hash n =? records_csum 0 l).
Proof.
  intros <- ->. unfold node_sums, bank_weights, bank_csums, records_weight, records_csum.
  generalize (uids (n_users n)) as ids, 0 at 1 3. intros ids z.
  assert (Hw : foldl (fun s u => i64 (s + u_weight u)) z (get_user b <$> ids) = foldl (fun s w => i64 (s + w)) z ((fun i => u_weight (get_user b i)) <$> ids)).
  { revert z. induction ids as [|i ids IH]; intros z; [reflexivity|]. cbn. apply IH. }
  assert (Hc : forall c, foldl (fun s u => Z.lxor s (u_csum u)) c (get_user b <$> ids) = foldl Z.lxor c ((fun i => u_csum (get_user b i)) <$> ids)).
  { induction ids as [|i ids IH]; intros c; [reflexivity|]. cbn. apply IH. intros. clear. revert z. induction ids as [|? ? IH]; intros z; [reflexivity|]. cbn. apply IH. }
  rewrite Hc. now rewrite Hw.
Qed.

(** A bank of one message. *)
Lemma write_one junk bk n b bs ud :
  0 < n_users n <= MESSAGE_CHUNK -> n_users n <= file_users b -> Forall2 (at_user 0) ud bs ->
  (forall j, 0 <= j < n_users n -> csum_ok bk (account_at bs b j) j) ->
  (forall f, last bs = Some f -> file_users f = 0 \/ n_users n <= file_users f) ->
  let l := account_at bs b <$> uids (n_users n) in
  (n_weight n =? records_weight 0 l) && (n_hash n =? records_csum 0 l) = true ->
  write_chunks junk (Z.to_nat (n_users n)) n bk (n_users n) 0 0 (fopen b) ud 0 0 = ([{| c_head := chunk_head (n_users n) 0 bk; c_users := l |}], true).
Proof.
  intros Hu Hb Hf Hc Hl l Ht. destruct (Z.to_nat (n_users n)) as [|k] eqn:Ek; [lia|]. cbn [write_chunks].
  rewrite (proj2 (Z.ltb_lt 0 _)) by lia. cbn [negb].
  assert (Ee : (if n_users n <? 0 + MESSAGE_CHUNK then n_users n else 0 + MESSAGE_CHUNK) = n_users n) by (destruct (Z.ltb_spec (n_users n) (0 + MESSAGE_CHUNK)); lia).
  rewrite Ee, Z.sub_0_r.
  destruct (bank_users_at junk bk b bs (Z.to_nat (n_users n)) 0 (fopen b) ud 0 0) as (fd' & ud' & E & _ & _);
    [lia|lia|apply fopen_at|exact Hf|intros j Hj; apply Hc; lia|intros f Hf0; specialize (Hl f Hf0); lia|].
  rewrite Z2Nat.id in E by lia. unfold l, uids in *. rewrite E, Z.eqb_refl, Ht. cbn [andb negb].
  destruct k; cbn [write_chunks]; [reflexivity|]. now rewrite (proj2 (Z.ltb_ge _ _)) by lia.
Qed.

(** The receiver of a whole bank. *)
Lemma read_one svid time bk us n p y :
  0 < Z.of_nat (length us) <= MESSAGE_CHUNK -> 0 < bk < 2 ^ 16 -> y.(y_do_sync) = true -> bk < n_nodes y.(y_last) -> nth_node y.(y_last) bk = n ->
  n_users n = Z.of_nat (length us) -> bank_num y bk ∈ y.(y_missing) -> 0 <= y.(y_last).(sv_now) ->
  (forall i u, us !! i = Some u -> csum_ok bk u (Z.of_nat i)) -> (n_weight n =? records_weight 0 us) && (n_hash n =? records_csum 0 us) = true ->
  exists p' y', read_chunks svid time [{| c_head := chunk_head (Z.of_nat (length us)) 0 bk; c_users := us |}] p y = Some (ReadNext, p', y') /\
    y'.(y_usr) = <[bk := bank_of_list us]> y.(y_usr) /\ y'.(y_missing) = y.(y_missing) ∖ {[bank_num y bk]}.
Proof.
  intros Hl Hbk Hs Hn En Eu Hm H0 Hc Ht. pose proof Hl as Hl'. unfold MESSAGE_CHUNK in Hl'.
  destruct (chunk_header svid time (Z.of_nat (length us)) bk ltac:(lia) ltac:(lia)) as (m & Em & E1 & E2 & E3).
  cbn [read_chunks]. unfold read_chunk. cbn [c_head c_users]. rewrite Em, E1, E2, E3. cbn [Z.eqb Pos.eqb].
  unfold handle_read_bank. rewrite Hs, En, Eu, Z.mul_0_r, Z.add_0_r, u32_small by lia. cbn [negb].
  rewrite (proj2 (Z.eqb_neq bk 0)), (proj2 (Z.leb_gt _ _)), Z.ltb_irrefl by lia. cbn [orb]. unfold need_bank. rewrite bool_decide_true by assumption.
  assert (Hb : bank_num y bk <> 0) by (unfold bank_num, hash_num, MSGTYPE_USR; lia).
  rewrite (proj2 (Z.eqb_neq _ 0) Hb). cbn [Z.eqb]. cbn [y_last set]. rewrite En, Eu, Z.ltb_irrefl.
  change (u32 0) with 0. rewrite add_users_sum; [|lia|lia|intros i u Hi; now apply Hc].
  unfold bank_done. cbn [hrb_last_weight hrb_last_csum y_last]. apply andb_true_iff in Ht as [Ht1 Ht2].
  change (nth_node (y_last _) bk) with (nth_node (y_last y) bk). rewrite En. cbn. rewrite Ht1, Ht2. cbn.
  do 2 eexists. split; [reflexivity|]. cbn. rewrite lookup_insert_eq. auto.
Qed.

(** C28: A bank sent to a node that joins arrives: if the undo files lead back
    to the accounts [b0] of block [path], the block's node has the totals of
    [b0], there is one message's worth of accounts, and the last undo file is
    empty or reaches over all accounts, then [write_bank] sends the bank and
    [handle_read_bank], fed with what was sent, stores exactly [b0] as the
    account file and asks for the bank no more. *)
Theorem bank_transfer junk dir nodes path bk n s b b0 svid time p y :
  nodes !! Z.to_nat bk = Some n -> s.(usr_) !! bk = Some b -> 0 < bk < 2 ^ 16 -> 1 + u32 (s.(srvs_).(sv_now) - path) / BLOCKSEC <= MAX_UNDO ->
  0 < n_users n <= MESSAGE_CHUNK -> n_users n <= file_users b ->
  let bs := (sent_undos s dir path bk).*2 in
  (forall uid, 0 <= uid < n_users n -> account_at bs b uid = get_user b0 uid) ->
  (forall f, last bs = Some f -> file_users f = 0 \/ n_users n <= file_users f) ->
  node_sums n b0 = true -> (forall uid, 0 <= uid < n_users n -> csum_ok bk (get_user b0 uid) uid) ->
  y.(y_do_sync) = true -> bk < n_nodes y.(y_last) -> nth_node y.(y_last) bk = n -> bank_num y bk ∈ y.(y_missing) -> 0 <= y.(y_last).(sv_now) ->
  exists s' cs p' y', write_bank junk dir nodes path bk s = (s', cs, true) /\ read_chunks svid time cs p y = Some (ReadNext, p', y') /\
    (forall uid, 0 <= uid < n_users n -> get_user (bank_of y'.(y_usr) bk) uid = get_user b0 uid) /\ bank_num y bk ∉ y'.(y_missing).
Proof.
  intros En Eb Hbk Hold Hu Hfu bs Hacc Hlast Hck Hcs Ys Yn Yb Ym Y0.
  assert (El : account_at bs b <$> uids (n_users n) = get_user b0 <$> uids (n_users n)).
  { apply list_fmap_ext. intros i uid Hi. apply list_elem_of_lookup_2 in Hi. unfold uids in Hi. apply elem_of_seqZ in Hi. apply Hacc. lia. }
  rewrite (check_sums n b0 _ _ eq_refl eq_refl), <- El in Hck. set (l := account_at bs b <$> uids (n_users n)) in *.
  assert (Hlen : Z.of_nat (length l) = n_users n) by (unfold l, uids; rewrite length_fmap, length_seqZ; lia).
  assert (Hlk : forall i u, l !! i = Some u -> Z.of_nat i < n_users n /\ u = get_user b0 (Z.of_nat i)).
  { intros i u Hi. pose proof (lookup_lt_Some _ _ _ Hi) as Hlt. split; [lia|]. rewrite El in Hi. unfold uids in Hi.
    rewrite list_lookup_fmap, lookup_seqZ_lt in Hi by lia. cbn in Hi. now simplify_eq. }
  destruct (read_one svid time bk l n p y) as (p' & y' & Er & Eu & Em); try assumption; [lia|now symmetry| |].
  { intros i u Hi. destruct (Hlk i u Hi) as [Hi' ->]. apply Hcs. lia. }
  rewrite Hlen in Er. eexists _, [{| c_head := _; c_users := l |}], p', y'. split; [|split; [exact Er|split]].
  - unfold write_bank. rewrite (proj2 (Z.ltb_ge _ _) Hold), En, Eb. cbv zeta. fold bs.
    rewrite (write_one junk bk n b bs _ Hu Hfu (fopen_all bs)); [|intros j Hj; rewrite Hacc by assumption; now apply Hcs|exact Hlast|exact Hck].
    reflexivity.
  - intros uid Hi. rewrite Eu. unfold bank_of. rewrite lookup_total_insert_eq, get_bank_of_list by lia.
    destruct (l !! Z.to_nat uid) as [u|] eqn:E; [|apply lookup_ge_None in E; lia]. destruct (Hlk _ _ E) as [_ ->]. cbn. f_equal. lia.
  - rewrite Em. set_solver.
Qed.

(** A bank of more accounts than one message holds is never stored: the sender
    makes messages of [MESSAGE_CHUNK] accounts, the receiver counts [0x10000]
    accounts a message, so none of them completes the bank. *)
Theorem big_bank_never_stored svid len msid bk us p y :
  MESSAGE_CHUNK < n_users (nth_node y.(y_last) bk) < 2 ^ 32 -> 0 <= msid -> 0 <= len <= MESSAGE_CHUNK ->
  msid * MESSAGE_CHUNK + len <= n_users (nth_node y.(y_last) bk) ->
  let y' := (handle_read_bank svid len msid bk us p y).2 in y'.(y_usr) = y.(y_usr) /\ y'.(y_missing) = y.(y_missing).
Proof.
  intros Hu Hm Hl Hs. cbv zeta. set (n := n_users (nth_node (y_last y) bk)) in *.
  assert (Hd : (u32 (len + 0x10000 * msid) <? n) = true).
  { unfold MESSAGE_CHUNK in *. rewrite u32_small by lia. apply Z.ltb_lt. lia. }
  unfold handle_read_bank. fold n. destruct (negb (y_do_sync y)); [auto|]. destruct (_ || _); [auto|]. destruct (n <? _); [auto|].
  destruct (need_bank y bk =? 0); [auto|]. cbn [y_last]. change (nth_node (y_last (y <| y_tmp ::= _ |>)) bk) with (nth_node (y_last y) bk).
  fold n. rewrite Hd. destruct (msid =? 0); [auto|]. destruct (_ || _); [auto|]. destruct (y_tmp y !! (bk, svid)); auto.
Qed.

(** * The snapshot of a period *)

Lemma find_undo_at bs i u : 0 <= i -> u_msid u = 0 ->
  match undo_value bs i with Some v => find_undo bs i u = v | None => u_msid (find_undo bs i u) = 0 end.
Proof.
  intros Hi. revert u. induction bs as [|b bs IH]; intros u Hu; [exact Hu|]. cbn [find_undo undo_value]. rewrite recs_lookup by assumption.
  assert (Hd : u_msid (default u (if i <? file_users b then Some (get_user b i) else None)) = u_msid (get_user b i) /\
    (u_msid (get_user b i) <> 0 -> default u (if i <? file_users b then Some (get_user b i) else None) = get_user b i)).
  { destruct (Z.ltb_spec i (file_users b)); cbn; [auto|]. rewrite get_user_behind by assumption. cbn. split; [exact Hu|intros []; reflexivity]. }
  destruct Hd as [Hd1 Hd2]. rewrite Hd1. destruct (Z.eqb_spec (u_msid (get_user b i)) 0) as [E|E]; cbn [negb]; [|now apply Hd2].
  apply IH. congruence.
Qed.

Lemma undo_value_nonzero bs i v : undo_value bs i = Some v -> u_msid v <> 0.
Proof. induction bs as [|b bs IH]; cbn; [discriminate|]. destruct (Z.eqb_spec (u_msid (get_user b i)) 0); [exact IH|congruence]. Qed.

Lemma backup_user_at i fd b bs : 0 <= i < file_users b -> at_user i fd b ->
  exists fd', backup_user bs fd i = (fd', account_at bs b i) /\ at_user (i + 1) fd' b.
Proof.
  intros Hi Hb. unfold backup_user, account_at. pose proof (find_undo_at bs i zero_user ltac:(lia) eq_refl) as Hf.
  destruct (undo_value bs i) as [v|] eqn:Ev; cbn [from_option id].
  - rewrite Hf, (proj2 (Z.eqb_neq _ 0)) by now apply undo_value_nonzero in Ev. cbn [negb]. eexists. split; [reflexivity|]. now apply seek_one_at; [lia|].
  - rewrite Hf. cbn [Z.eqb negb]. destruct (read_rec_at i fd b ltac:(lia) Hb) as [Hr Ha]. destruct (read_rec fd) as [r fd']. cbn in Hr, Ha.
    rewrite (proj2 (Z.ltb_lt _ _)) in Hr by lia. subst r. cbn [from_option id]. eexists. split; [|exact Ha]. f_equal.
    destruct (last bs) as [f|] eqn:El; [|reflexivity]. rewrite recs_lookup by lia. destruct (i <? file_users f); [|reflexivity].
    now rewrite (undo_value_last bs f i El Ev).
Qed.

Lemma backup_users_at bs b k : forall i fd, 0 <= i -> i + Z.of_nat k <= file_users b -> at_user i fd b ->
  backup_users bs fd (seqZ i (Z.of_nat k)) = account_at bs b <$> seqZ i (Z.of_nat k).
Proof.
  induction k as [|k IH]; intros i fd Hi Hk Hb; [reflexivity|].
  rewrite seqZ_cons by lia. rewrite <- (Nat2Z.inj_pred (S k)) by lia. cbn [Nat.pred]. unfold Z.succ. cbn [backup_users fmap list_fmap].
  destruct (backup_user_at i fd b bs ltac:(lia) Hb) as (fd' & -> & Hb'). f_equal. apply IH; [lia|lia|exact Hb'].
Qed.

Lemma backup_banks_at s nodes blocks old bks : forall files,
  backup_banks s nodes blocks old bks = Some (files, true) ->
  files.*1 = bks /\ forall bk l, (bk, l) ∈ files -> exists b n, s.(usr_) !! bk = Some b /\ nodes !! Z.to_nat bk = Some n /\
    (0 <= n_users n <= file_users b -> forall uid, 0 <= uid < n_users n ->
      l !! Z.to_nat uid = Some (account_at (backup_undos s bk blocks) b uid)).
Proof.
  induction bks as [|bk bks IH]; intros files E; cbn [backup_banks] in E; [simplify_eq; split; [reflexivity|]; intros ? ? Hin; now apply elem_of_nil in Hin|].
  destruct (usr_ s !! bk) as [b|] eqn:Eb; [|discriminate]. set (ud := backup_undos _ _ _) in E. inv_opt. simplify_eq.
  destruct (IH _ eq_refl) as [F1 F2]. split; [cbn; congruence|]. intros k l' Hin. apply elem_of_cons in Hin as [Hin|Hin]; [|now apply F2].
  simplify_eq. exists b, n. split_and!; [assumption..|]. intros Hn uid Hu. fold ud.
  assert (El : backup_users ud (fopen b) (uids (n_users n)) = account_at ud b <$> uids (n_users n)).
  { unfold uids. rewrite <- (Z2Nat.id (n_users n)) by lia. apply backup_users_at; [lia|lia|apply fopen_at]. }
  rewrite El. rewrite lookup_app_l by (rewrite length_fmap; unfold uids; rewrite length_seqZ; lia).
  unfold uids. rewrite list_lookup_fmap, lookup_seqZ_lt by lia. cbn. do 2 f_equal. lia.
Qed.

(** C30: The snapshot of a period: [db_backup] of block [block] leaves in every
    bank an undo file with all accounts of the block's node, each as it was
    before the block by the undo files and the account file.  So the snapshot
    stands for the undo file it replaces: whatever files [later] follow, the
    accounts found through it are those found through the undo files. *)
Theorem snapshot_is_undo dir nodes time block n old s s' bk nd b :
  db_backup dir nodes time block n old s = Some s' -> is_snapshot_directory block = true ->
  (forall j, 1 <= j < n -> is_Some (s.(usr_) !! j)) -> 1 <= bk < n -> nodes !! Z.to_nat bk = Some nd -> s.(usr_) !! bk = Some b -> 0 <= n_users nd <= file_users b ->
  let now := time - time mod BLOCKSEC in
  let ud := backup_undos s bk (backup_blocks (Z.to_nat (now - block + 1)) dir block now) in
  exists f, s'.(und_) !! (block, bk) = Some f /\
    (forall uid, 0 <= uid < n_users nd -> get_user f uid = account_at ud b uid) /\
    (forall uid later, 0 <= uid < n_users nd -> u_msid (account_at ud b uid) <> 0 -> account_at (f :: later) b uid = account_at ud b uid).
Proof.
  intros E Hs Hall Hbk En Eb Hu now ud. unfold db_backup in E. rewrite Hs in E. cbn [negb] in E. cbv zeta in E. fold now in E.
  set (blocks := backup_blocks _ _ _ _) in *. inv_opt. rename l into files, b0 into ok.
  assert (Hok : ok = true).
  { clear E. revert E0. assert (Hj : forall j, j ∈ seqZ 1 (n - 1) -> is_Some (usr_ s !! j)) by (intros j Hj%elem_of_seqZ; apply Hall; lia). revert files Hj.
    induction (seqZ 1 (n - 1)) as [|j l IH]; intros files Hj E; cbn [backup_banks] in E; [now simplify_eq|].
    destruct (Hj j) as [x Ex]; [left|]. rewrite Ex in E. inv_opt. simplify_eq. eapply IH; [|reflexivity]. intros i Hi. apply Hj. now right. }
  subst ok s'. cbn. destruct (backup_banks_at _ _ _ _ _ _ E0) as [F1 F2].
  assert (Hin : bk ∈ files.*1) by (rewrite F1; apply elem_of_seqZ; lia). assert (Hnd : NoDup files.*1) by (rewrite F1; apply NoDup_seqZ).
  apply list_elem_of_fmap in Hin as ([k l] & -> & Hin). cbn [fst] in *. destruct (F2 _ _ Hin) as (b' & n' & Eb' & En' & Hl). simplify_eq.
  assert (Hlk : forall u0 : gmap (Z * Z) bank, foldl (fun u p => <[(block, p.1) := bank_of_list p.2]> u) u0 files !! (block, k) = Some (bank_of_list l)).
  { clear -Hin Hnd. induction files as [|[j m] files IH] using rev_ind; [now apply elem_of_nil in Hin|]. intros u0. rewrite foldl_app. cbn.
    rewrite fmap_app in Hnd. apply NoDup_app in Hnd as (Hd & Hx & _). apply elem_of_app in Hin as [Hin|Hin%list_elem_of_singleton].
    - rewrite lookup_insert_ne; [now apply IH|]. intros [= ->]. apply (Hx k); [now apply (list_elem_of_fmap_2 fst _ (k, l))|left].
    - simplify_eq. apply lookup_insert_eq. }
  exists (bank_of_list l). split; [apply Hlk|].
  assert (Hg : forall uid, 0 <= uid < n_users nd -> get_user (bank_of_list l) uid = account_at ud b uid).
  { intros uid Hi. rewrite get_bank_of_list by lia. now rewrite (Hl Hu uid Hi). }
  split; [exact Hg|]. intros uid later Hi Hm. unfold account_at at 1. cbn [undo_value]. rewrite (Hg uid Hi). now rewrite (proj2 (Z.eqb_neq _ 0) Hm).
Qed.
End Snapshot.

(** * On a small ledger *)

Definition snap_s : server := Eval vm_compute in match process_message (H := toy_sha) demo_env demo_s demo_m with Ok s => s | _ => demo_s end.
Definition snap_y : bank_sync := Eval vm_compute in
  {| y_do_sync := true; y_last := srvs_ demo_s; y_missing := {[hash_num 0 MSGTYPE_USR demo_now 1]}; y_usr := ∅; y_tmp := ∅ |}.

Lemma undo_file_complete_witness : messages_run (H := toy_sha) demo_env demo_s snap_s /\
  account_at [snap_s.(und_) !!! (snap_s.(srvs_).(sv_now), 1)] (bank_of snap_s.(usr_) 1) 1 = get_user (bank_of demo_s.(usr_) 1) 1.
Proof.
  assert (R : messages_run (H := toy_sha) demo_env demo_s snap_s).
  { eapply run_message; [exact demo_pre|vm_compute; reflexivity|apply run_none]. }
  split; [exact R|]. refine (undo_file_complete (H := toy_sha) demo_env demo_s snap_s 1 2 _ _ _ _ _ R 1 _).
  - discriminate.
  - vm_compute. congruence.
  - vm_compute. reflexivity.
  - vm_compute. repeat constructor.
  - intros uid Hu. assert (uid = 0 \/ uid = 1) as [-> | ->] by lia; vm_compute; congruence.
  - lia.
Defined.

Lemma bank_transfer_witness : exists s' cs p' y',
  write_bank (H := toy_sha) (fun _ => zero_user) (fun _ => false) (sv_nodes (srvs_ demo_s)) (demo_now - BLOCKSEC) 1 snap_s = (s', cs, true) /\
  read_chunks (H := toy_sha) 2 demo_now cs {| hrb_last_bank := 0; hrb_last_msid := 0; hrb_last_weight := 0; hrb_last_csum := 0 |} snap_y = Some (ReadNext, p', y') /\
  get_user (bank_of y'.(y_usr) 1) 1 = get_user (bank_of demo_s.(usr_) 1) 1.
Proof.
  refine (match bank_transfer (H := toy_sha) (fun _ => zero_user) (fun _ => false) (sv_nodes (srvs_ demo_s)) (demo_now - BLOCKSEC) 1 (cur_node demo_s 1) snap_s (bank_of snap_s.(usr_) 1)
    (bank_of demo_s.(usr_) 1) 2 demo_now {| hrb_last_bank := 0; hrb_last_msid := 0; hrb_last_weight := 0; hrb_last_csum := 0 |} snap_y _ _ _ _ _ _ _ _ _ _ _ _ _ _ _ with
    ex_intro _ s' (ex_intro _ cs (ex_intro _ p' (ex_intro _ y' (conj E1 (conj E2 (conj E3 _)))))) => ex_intro _ s' (ex_intro _ cs (ex_intro _ p' (ex_intro _ y' (conj E1 (conj E2 (E3 1 _)))))) end).
  all: cycle -1.
  - vm_compute. split; congruence.
  - vm_compute. reflexivity.
  - vm_compute. reflexivity.
  - lia.
  - vm_compute. congruence.
  - vm_compute. split; congruence.
  - vm_compute. congruence.
  - intros uid Hu. change (n_users (cur_node demo_s 1)) with 2 in Hu. assert (uid = 0 \/ uid = 1) as [-> | ->] by lia; vm_compute; reflexivity.
  - intros f Hf. right. vm_compute in Hf. injection Hf as <-. vm_compute. congruence.
  - vm_compute. reflexivity.
  - intros uid Hu. change (n_users (cur_node demo_s 1)) with 2 in Hu. assert (uid = 0 \/ uid = 1) as [-> | ->] by lia; vm_compute; reflexivity.
  - reflexivity.
  - vm_compute. congruence.
  - vm_compute. reflexivity.
  - apply (bool_decide_unpack _). vm_compute. exact I.
  - vm_compute. congruence.
Defined.

(** A ledger of one bank with three accounts; the undo file of the open block
    holds the first. *)
Definition three_s : server := Eval vm_compute in
  let s := demo_server (H := toy_sha) [[10; 20; 30]] in s <| und_ := {[(demo_now, 1) := {[0 := get_user (bank_of s.(usr_) 1) 0]}]} |>.

(** The second look at the last undo file reads the record before the end of
    the file for every account behind it: the bank is sound and every account
    is found from the files, yet the peer gets nothing. *)
Theorem short_undo_file_not_sent :
  let s := three_s in
  (forall uid, 0 <= uid < 3 -> account_at [und_ s !!! (demo_now, 1)] (bank_of s.(usr_) 1) uid = get_user (bank_of s.(usr_) 1) uid) /\
  check_nodehash (cur_node s 1) (s.(usr_) !! 1) = Some true /\
  (bank_user (fopen (bank_of s.(usr_) 1)) [fopen (und_ s !!! (demo_now, 1))] zero_user).2 = get_user (bank_of s.(usr_) 1) 0 /\
  (let '(fd, ud, _) := bank_user (fopen (bank_of s.(usr_) 1)) [fopen (und_ s !!! (demo_now, 1))] zero_user in (bank_user fd ud zero_user).2) = get_user (bank_of s.(usr_) 1) 0 /\
  (write_bank (H := toy_sha) (fun _ => zero_user) (fun _ => false) (sv_nodes (srvs_ s)) (demo_now - BLOCKSEC) 1 s).1.2 = [] /\
  (write_bank (H := toy_sha) (fun _ => zero_user) (fun _ => false) (sv_nodes (srvs_ s)) (demo_now - BLOCKSEC) 1 s).2 = false.
Proof.
  cbv zeta. split_and!; try (vm_compute; reflexivity).
  intros uid Hu. assert (uid = 0 \/ uid = 1 \/ uid = 2) as [-> | [-> | ->]] by lia; vm_compute; reflexivity.
Qed.

(** The checksums of the records that arrive are not checked, only computed
    anew: records with wrong checksums are stored, and the account file then
    fails the check of the bank. *)
Theorem wrong_checksums_stored :
  let us := map (fun u => u <| u_csum := 0 |>) (recs (bank_of demo_s.(usr_) 1)) in
  exists p' y', read_chunks (H := toy_sha) 2 demo_now [{| c_head := chunk_head 2 0 1; c_users := us |}]
      {| hrb_last_bank := 0; hrb_last_msid := 0; hrb_last_weight := 0; hrb_last_csum := 0 |} snap_y = Some (ReadNext, p', y') /\
    y'.(y_missing) = ∅ /\ check_nodehash (cur_node demo_s 1) (y'.(y_usr) !! 1) = Some false.
Proof. cbv zeta. do 2 eexists. split; [vm_compute; reflexivity|]. split; vm_compute; reflexivity. Qed.

(** Two accounts, one changed in the last block and one in the open block. *)
Definition mixed_s : server := Eval vm_compute in
  let s := demo_server (H := toy_sha) [[100; 200]] in
  let b := bank_of s.(usr_) 1 in
  s <| last_srvs_ ::= fun v => v <| sv_now := demo_now - BLOCKSEC |> |>
    <| und_ := <[(demo_now - BLOCKSEC, 1) := {[0 := (get_user b 0) <| u_weight := 1 |>]}]> {[(demo_now, 1) := {[1 := (get_user b 1) <| u_weight := 2 |>]}]} |>.

(** [get_accounts] answers with accounts of different times: the first as it was
    before the last block, the second as it is in the open block. *)
Theorem get_accounts_mixes :
  let s := mixed_s in
  let weights r := match r with Accounts_ l => map u_weight l | _ => [] end in
  let at_ ud := map (fun uid => u_weight (account_at ud (bank_of s.(usr_) 1) uid)) (uids 2) in
  weights (get_accounts s 0 1) = [1; 200] /\
  at_ [und_ s !!! (demo_now - BLOCKSEC, 1); und_ s !!! (demo_now, 1)] = [1; 2] /\ at_ [und_ s !!! (demo_now, 1)] = [100; 2] /\ at_ [] = [100; 200].
Proof. vm_compute. split_and!; reflexivity. Qed.

(** The block of a period. *)
Definition period_block : Z := 0x5F000000.
Lemma snapshot_is_undo_witness : exists s' f,
  db_backup (fun b => (b =? period_block)) (sv_nodes (srvs_ snap_s)) (period_block + 3) period_block 2 (fun _ => []) snap_s = Some s' /\
  s'.(und_) !! (period_block, 1) = Some f /\ get_user f 1 = get_user (bank_of demo_s.(usr_) 1) 1.
Proof.
  set (s' := db_backup (fun b => (b =? period_block)) (sv_nodes (srvs_ snap_s)) (period_block + 3) period_block 2 (fun _ => []) snap_s).
  destruct s' as [t|] eqn:E; [|vm_compute in E; discriminate].
  refine (match snapshot_is_undo (fun b => (b =? period_block)) (sv_nodes (srvs_ snap_s)) (period_block + 3) period_block 2 (fun _ => []) snap_s t 1 (cur_node snap_s 1) (bank_of snap_s.(usr_) 1)
    E _ _ _ _ _ _ with ex_intro _ f (conj E1 (conj E2 _)) => ex_intro _ t (ex_intro _ f (conj eq_refl (conj E1 (eq_trans (E2 1 _) _)))) end).
  - vm_compute. reflexivity.
  - intros j Hj. assert (j = 1) as -> by lia. vm_compute. eauto.
  - lia.
  - vm_compute. reflexivity.
  - vm_compute. reflexivity.
  - vm_compute. split; congruence.
  - vm_compute. split; congruence.
  - vm_compute. reflexivity.
Defined.
