(* ===== verification/Join.v ===== *)
(** How a node that joins obtains the chain: headers of blocks ([write_headers],
    [handle_next_header], [handle_read_headers] of [escd/peer.hpp] and the list
    [headers] of [escd/server.cpp]), lists of messages with the signatures of
    the block ([write_msglist], [handle_read_msglist], [msgl_process]), the list
    of nodes ([write_servers], [handle_read_servers]) and the decision of
    [authenticate] to use a peer. *)

From stdpp Require Import base gmap list.
From Stdlib Require Import ZArith Lia.
From S2P Require Import Prelude Params HashTree Usertxs Accounts Servers Chain MsgTree TxProof.

(** * Links on the wire *)

Definition sizeof_headlink : nat := 4+4+4+32+32+32.

Definition link_bytes (l : headlink_t) : list Z :=
  le_bytes 4 l.(l_msg) ++ le_bytes 4 l.(l_nod) ++ le_bytes 4 l.(l_div) ++ l.(l_msghash) ++ l.(l_nodhash) ++ l.(l_viphash).

Definition read_link (d : list Z) : headlink_t :=
  {| l_msg := rdz d 0 4; l_nod := rdz d 4 4; l_div := rdz d 8 4; l_msghash := rd d 12 32; l_nodhash := rd d 44 32; l_viphash := rd d 76 32 |}.

Section Headers.
Context `{Sha256}.

(** * The node that has the chain *)

(** The loop of [write_headers] over the blocks before [to]: the links, and the
    hash before the first one. *)
Fixpoint header_links (fuel : nat) (files : gmap Z (list Z)) (now to : Z) : option (list servers) :=
  match fuel with
  | O => Some []
  | S fuel =>
      if now <? to then
        let* s := header_get files (new_servers now) in
        let* l := header_links fuel files (u32 (now + BLOCKSEC)) to in
        Some (s :: l)
      else Some []
  end.

(** [write_headers]: [to] is the block of the handshake, [pad] are bytes of the
    message that are not set. *)
Definition write_headers (files : gmap Z (list Z)) (pad : list Z) (to from : Z) : answer (list Z) :=
  if to <? from then
    match header_get files (new_servers from) with
    | None => Refuses
    | Some s => Gives ([MSGTYPE_NHD] ++ le_bytes 4 from ++ take 3 pad ++ s.(sv_oldhash) ++ link_bytes (filllink s))
    end
  else
    let num := u32 (u32 (to - from) / BLOCKSEC - 1) in
    refuse! num =? 0 in
    match header_links (Z.to_nat (u32 (to - from) / BLOCKSEC + 1)) files (u32 (from + BLOCKSEC)) to with
    | None => Refuses
    | Some l =>
        ensure! len l =? num in
        Gives (match l with [] => [] | s :: _ => s.(sv_oldhash) end ++ concat (map (fun s => link_bytes (filllink s)) l))
    end.

(** * The node that joins *)

Definition get_last_header (headers : list servers) (head : header_t) : servers :=
  match last headers with Some s => s | None => loadhead (new_servers 0) head end.

(** The loop over the links: each is hashed with the hash of the one before.
    [None]: the links end behind the data. *)
Fixpoint load_links (fuel : nat) (now to : Z) (oldh d : list Z) : option (list servers) :=
  match fuel with
  | O => Some []
  | S fuel =>
      if now <? to then
        check (sizeof_headlink <=? length d)%nat in
        let s := loadlink (new_servers 0) (read_link d) now oldh in
        let* l := load_links fuel (u32 (now + BLOCKSEC)) to s.(sv_nowhash) (drop sizeof_headlink d) in
        Some (s :: l)
      else Some []
  end.

(** The blocks of [handle_read_headers], up to the block [head] of the peer;
    [data] is what the peer sends.  [Refuses] is [leave] or an exception; the
    empty list means that there is nothing to load. *)
Definition read_headers (sync_ls : servers) (head : header_t) (data : list Z) : answer (list servers) :=
  let to := head.(h_now) in
  let from := sync_ls.(sv_now) in
  if to <=? from then Gives []
  else
    let num := (to - from) / BLOCKSEC in
    ensure! 0 <? num in
    let top := loadhead (new_servers 0) head in
    if 1 <? num then
      refuse! negb (len data =? 32 + Z.of_nat sizeof_headlink * (num - 1)) in
      match load_links (Z.to_nat num) (u32 (from + BLOCKSEC)) to (rd data 0 32) (drop 32 data) with
      | None => Aborts
      | Some l =>
          refuse! negb (bool_decide (option_map sv_nowhash (last l) = Some head.(h_oldhash))) in
          refuse! negb (bool_decide (option_map sv_oldhash (list.head l) = Some sync_ls.(sv_nowhash))) in
          Gives (l ++ [top])
      end
    else
      refuse! negb (bool_decide (top.(sv_oldhash) = sync_ls.(sv_nowhash))) in
      Gives [top].

(** [add_headers]; the iterator [it] passes the blocks that are known. *)
Fixpoint new_headers (back : servers) (l : list servers) : list servers :=
  match l with [] => [] | s :: l' => if s.(sv_now) <=? back.(sv_now) then new_headers back l' else l end.

Definition add_headers (do_sync : bool) (peer_headers headers : list servers) : list servers :=
  if negb do_sync then headers
  else match last headers with
  | None => peer_headers
  | Some back =>
      match peer_headers with
      | [] => headers
      | first :: _ =>
          let it := new_headers back peer_headers in
          if negb (back.(sv_now) =? u32 (first.(sv_now) - BLOCKSEC)) then headers else headers ++ it
      end
  end.

(** [handle_next_header] and [add_next_header]; [None]: [back] of an empty list. *)
Definition add_next_header (last_srvs : servers) (from : Z) (peer_ls : servers) (headers : list servers) : option (list servers) :=
  match last headers with
  | None => if bool_decide (peer_ls.(sv_oldhash) = last_srvs.(sv_nowhash)) then Some (headers ++ [peer_ls]) else None
  | Some back =>
      Some (if (back.(sv_now) =? u32 (from - BLOCKSEC)) && bool_decide (peer_ls.(sv_oldhash) = back.(sv_nowhash)) then headers ++ [peer_ls] else headers)
  end.
Definition handle_next_header (last_srvs : servers) (data : list Z) (headers : list servers) : option (list servers) :=
  let from := rdz data 1 4 in
  add_next_header last_srvs from (loadlink (new_servers 0) (read_link (drop (8+32) data)) from (rd data 8 32)) headers.

(** * Signatures and lists of messages *)

Definition sizeof_svsi : nat := 2+64.
Definition svsi_bytes (v : svsi_t) : list Z := le_bytes 2 v.1 ++ v.2.
Definition read_svsi (d : list Z) : svsi_t := (rdz d 0 2, rd d 2 64).
Fixpoint read_svsis (n : nat) (d : list Z) : list svsi_t :=
  match n with O => [] | S n => read_svsi d :: read_svsis n (drop sizeof_svsi d) end.

(** [get_signatures] for the list of messages: the votes for the block. *)
Definition get_signatures (fl : sigfiles) (path : Z) : list svsi_t := default [] (fl.(sf_ok) !! path).

(** [put_signatures] *)
Definition put_signatures (head : header_t) (a : list svsi_t) (fl : sigfiles) : sigfiles :=
  fl <| sf_ok ::= <[head.(h_now) := take (Z.to_nat head.(h_vok)) a]> |>
     <| sf_no ::= <[head.(h_now) := take (Z.to_nat head.(h_vno)) (drop (Z.to_nat head.(h_vok)) a)]> |>.

Definition sizeof_entry : Z := 2+4+32.
Definition msglist_len (vok msg : Z) : Z := 12 + vok * Z.of_nat sizeof_svsi + 32 + msg * sizeof_entry.

(** [write_msglist]; [Refuses] is a return without an answer. *)
Definition write_msglist (fl : sigfiles) (lists : gmap Z (list Z)) (now : Z) : answer (list Z) :=
  match header_get fl.(sf_hdr) (new_servers now) with
  | None => Refuses
  | Some header =>
      let sigs := get_signatures fl now in
      let nok := u32 (len sigs) in
      let vok := u16 nok in
      let list := msgl_get header (lists !! now) in
      refuse! negb (len list =? 32 + header.(sv_msg) * sizeof_entry) in
      Gives ([MSGTYPE_MSP] ++ le_bytes 3 (msglist_len vok header.(sv_msg)) ++ le_bytes 4 header.(sv_now) ++ le_bytes 4 nok ++
             concat (map svsi_bytes (take (Z.to_nat vok) sigs)) ++ list)
  end.

(** The joining node: the list of headers, the last block it has, its files, the
    block whose list it asked for (0: none), the messages it misses. *)
Record joiner := {
  jn_headers : list servers; jn_last : servers; jn_files : sigfiles; jn_lists : gmap Z (list Z); jn_get : Z; jn_missing : gmap Z lmsg; jn_fast : Z
}.

(** [msgl_process] on the list behind the signatures; [None]: the 16-bit counter
    of [msgl_map] does not reach the number of messages. *)
Definition msgl_process (mysvid : Z) (header : servers) (data : list Z) (j : joiner) : option joiner :=
  if negb (j.(jn_get) =? header.(sv_now)) then Some j
  else
    check header.(sv_msg) <? 2 ^ 16 in
    let map := msgl_map (Z.to_nat header.(sv_msg)) (drop 32 data) mysvid ∅ in
    match (msgl_put header map (Some (take 32 data)) (Some (default [] (j.(jn_lists) !! header.(sv_now))))).1 with
    | Gives (_, file, _) => Some (j <| jn_lists ::= <[header.(sv_now) := file]> |> <| jn_missing := map |> <| jn_get := 0 |>)
    | Refuses => Some j
    | Aborts => None
    end.

Section Signed.
Context (sign_open : list Z -> list Z -> list Z -> bool).

Definition few (vok : Z) (last : servers) (mins : Z) : bool := (vok * 2 <? last.(sv_vtot)) && (vok <? mins).

(** [handle_read_msglist]: whether the connection stays, and the node. *)
Definition handle_read_msglist (mysvid mins : Z) (data : list Z) (j : joiner) : option (bool * joiner) :=
  let now := rdz data 4 4 in
  if negb (j.(jn_get) =? now) then Some (false, j)
  else
    let header := default (new_servers now) (header_get j.(jn_files).(sf_hdr) (new_servers now)) in
    let vok := u16 (rdz data 8 4) in
    let header := header <| sv_vok := vok |> in
    let list := drop (Z.to_nat (12 + vok * Z.of_nat sizeof_svsi)) data in
    if negb (len data =? msglist_len vok header.(sv_msg)) then Some (false, j)
    else if negb (bool_decide (take 32 list = header.(sv_msghash))) then Some (false, j)
    else if few vok j.(jn_last) mins then Some (false, j)
    else
      let header := header <| sv_vno := 0 |> in
      let '(head, _, (last, fl)) := check_signatures sign_open j.(jn_last) j.(jn_files) (Servers.header header) (read_svsis (Z.to_nat vok) (drop 12 data)) true in
      let j := j <| jn_last := last |> <| jn_files := fl |> in
      if few head.(h_vok) last mins then Some (false, j)
      else
        let '(hdr, srv) := header_put header (default [] (fl.(sf_hdr) !! now)) (default [] (fl.(sf_srv) !! now)) in
        let j := j <| jn_files ::= fun fl => fl <| sf_hdr ::= <[now := hdr]> |> <| sf_srv ::= <[now := srv]> |> |> in
        let* j := msgl_process mysvid header list j in
        Some (true, j).

(** * The list of nodes *)

Definition write_servers (last : servers) (now : Z) : answer (list Z) :=
  refuse! negb (last.(sv_now) =? now) in
  match copy_nodes last (Z.to_nat last.(sv_nod)) with
  | None => Refuses
  | Some ns => Gives (concat (map node_data ns))
  end.

(** [fast_sync] when the nodes have arrived; [do_fast] is 2 until one peer has
    served them. *)
Definition fast_sync (head : header_t) (nods : list node) (a : list svsi_t) (j : joiner) : joiner :=
  if j.(jn_fast) <? 2 then j
  else
    let last := overwrite j.(jn_last) head nods in
    let fl := put_signatures head a (j.(jn_files) <| sf_srv ::= fun f => <[last.(sv_now) := put last (default [] (f !! last.(sv_now)))]> f |>) in
    j <| jn_last := last |> <| jn_files := fl |> <| jn_fast := 1 |>.

(** [handle_read_servers]; [None] is an exception, which closes the connection. *)
Definition handle_read_servers (head : header_t) (a : list svsi_t) (data : list Z) (j : joiner) : option joiner :=
  if j.(jn_fast) <? 2 then Some j
  else
    check (len data =? head.(h_nod) * 128) in
    let* ns := nodes_read (replicate (Z.to_nat head.(h_nod)) zero_node) data in
    check check_nodes ns head.(h_nodhash) in
    Some (fast_sync head ns a j).

(** * Handshake *)

Record handshake := { hs_head : header_t; hs_msid : Z; hs_msha : list Z; hs_do_sync : bool }.

(** What [authenticate] decides: no connection, the signatures of the last block
    for a peer that joins, messages for a peer in sync, or to join through the
    peer. *)
Inductive auth := A_leave | A_provide | A_in_sync | A_join.

(** The first part of [authenticate]: [now] is the clock, [msgnow] the time in the
    message of the peer [svid], [nodes] the number of nodes; two warnings about
    the own last message have no effect. *)
Definition authenticate (now mysvid svid msgnow nodes : Z) (duplicate incoming : bool) (last : servers) (mins : Z) (peer_hs sync_hs : handshake) : auth :=
  let p := peer_hs.(hs_head) in
  let y := sync_hs.(hs_head) in
  if svid =? mysvid then A_leave
  else if duplicate then A_leave
  else if (nodes <? p.(h_nod)) && incoming then A_leave
  else if (u32 (now + 2) <? msgnow) || (msgnow <? u32 (now - 2)) then A_leave
  else if (p.(h_now) =? y.(h_now)) && negb (bool_decide (p.(h_oldhash) = y.(h_oldhash))) then A_leave
  else if (p.(h_now) =? y.(h_now)) && negb (bool_decide (p.(h_nowhash) = y.(h_nowhash))) then A_leave
  else if negb sync_hs.(hs_do_sync) then
    if y.(h_now) <? p.(h_now) then A_leave
    else if peer_hs.(hs_do_sync) then A_provide else A_in_sync
  else if negb (p.(h_now) =? u32 (now - now mod BLOCKSEC - BLOCKSEC)) || peer_hs.(hs_do_sync) then A_leave
  else if few p.(h_vok) last mins then A_leave
  else A_join.

(** The second part, for a node that joins: signatures, nodes when [fast], and
    headers, from the bytes the peer sends for each; [read_only] is node 0.
    [None] is an early end of the connection or a failed assertion; links that
    do not fit end the connection and leave the list of headers as it is.  The votes go to [add_electors], which is not modelled. *)
Definition join_sync (fast read_only : bool) (mins : Z) (peer_hs sync_hs : handshake) (sigs nods heads : list Z) (j : joiner) : option joiner :=
  let head := peer_hs.(hs_head) in
  let n := Z.to_nat (head.(h_vok) + head.(h_vno)) in
  check (length sigs =? n * sizeof_svsi)%nat in
  let a := read_svsis n sigs in
  let* (head, a, j) := (if fast && read_only then Some (head, a, j)
    else
      let '(head, a, (last, fl)) := check_signatures sign_open j.(jn_last) j.(jn_files) head a true in
      check negb (few head.(h_vok) last mins) in
      Some (head, a, j <| jn_last := last |> <| jn_files := fl |>)) in
  let* j := (if fast then handle_read_servers head a nods j else Some j) in
  let start := if fast then Servers.header j.(jn_last) else sync_hs.(hs_head) in
  match read_headers (get_last_header j.(jn_headers) start) head heads with
  | Gives [] => Some j
  | Gives hs => Some (j <| jn_headers ::= add_headers true hs |>)
  | Refuses => Some j
  | Aborts => None
  end.
End Signed.
End Headers.
