(* ===== verification/JoinProps.v ===== *)
(** The list of headers of a joining node is a chain of hashes that begins at
    its last block, whatever its peers send and in whatever order; headers,
    message lists and nodes sent by a node are accepted as they are. *)

From stdpp Require Import base gmap list relations.
From Stdlib Require Import ZArith Lia.
From S2P Require Import Prelude Params HashTree Usertxs Accounts Servers Ledger Block Chain MsgTree TxProof Join.

Section Headers.
Context `{Sha256}.

(** * Chains *)

(** The hash of a block is the hash of its fields. *)
Definition hashed (s : servers) : Prop := s.(sv_nowhash) = (hashnow s).(sv_nowhash).

(** [b] is the block after [a]. *)
Record follows (a b : servers) : Prop := {
  fo_hash : b.(sv_oldhash) = a.(sv_nowhash); fo_now : b.(sv_now) = a.(sv_now) + BLOCKSEC; fo_hashed : hashed b
}.

Fixpoint chain (a : servers) (l : list servers) : Prop := match l with [] => True | b :: l => follows a b /\ chain b l end.

Lemma chain_app a l l' : chain a (l ++ l') <-> chain a l /\ chain (List.last l a) l'.
Proof.
  revert a; induction l as [|b l IH]; intros a; [cbn; tauto|]. change ((b :: l) ++ l') with (b :: l ++ l'). cbn [chain]. rewrite IH.
  replace (List.last (b :: l) a) with (List.last l b); [tauto|]. destruct l as [|c l]; [reflexivity|]. clear. revert c. induction l as [|d l IH]; intros c; [reflexivity|]. exact (IH d).
Qed.

Lemma last_default {A} (l : list A) a b : last l = Some b -> List.last l a = b.
Proof. induction l as [|c [|d l] IH]; [discriminate|now intros [= ->]|]. exact IH. Qed.

Lemma loadlink_hashed s link path oldh : hashed (loadlink s link path oldh).
Proof. reflexivity. Qed.
Lemma loadhead_hashed s head : hashed (loadhead s head).
Proof. reflexivity. Qed.

Lemma chain_now a l b : chain a l -> last l = Some b -> b.(sv_now) = a.(sv_now) + BLOCKSEC * Z.of_nat (length l).
Proof.
  revert a; induction l as [|c l IH]; intros a Hc Hl; [discriminate|]. destruct Hc as [Hf Hc]. destruct l as [|d l].
  - injection Hl as <-. rewrite (fo_now _ _ Hf). cbn. lia.
  - rewrite (IH c Hc Hl), (fo_now _ _ Hf). cbn [length]. lia.
Qed.

(** * Reading headers *)

(** The links of [load_links] are a chain with the numbers from [now] on. *)
Lemma load_links_chain fuel : forall now to oldh d l a, load_links fuel now to oldh d = Some l -> a.(sv_nowhash) = oldh -> now = a.(sv_now) + BLOCKSEC -> 0 <= now -> to + BLOCKSEC < 2 ^ 32 -> chain a l.
Proof.
  induction fuel as [|fuel IH]; intros now to oldh d l a E Ha Hn H0 Ht; cbn [load_links] in E; [injection E as <-; exact I|].
  destruct (Z.ltb_spec now to) as [Hlt|]; [|injection E as <-; exact I]. inv_opt. subst l. split; [split; [now rewrite Ha|exact Hn|apply loadlink_hashed]|].
  apply (IH _ _ _ _ _ _ E1); [reflexivity| | |exact Ht]; rewrite u32_small by (unfold BLOCKSEC in *; lia); [reflexivity|unfold BLOCKSEC; lia].
Qed.

(** How many links there are. *)
Lemma load_links_length fuel : forall now to oldh d l, load_links fuel now to oldh d = Some l -> 0 <= now -> to + BLOCKSEC < 2 ^ 32 -> (to - now + BLOCKSEC - 1) / BLOCKSEC <= Z.of_nat fuel ->
  Z.of_nat (length l) = Z.max 0 ((to - now + BLOCKSEC - 1) / BLOCKSEC) /\ (length l * sizeof_headlink <= length d)%nat.
Proof.
  induction fuel as [|fuel IH]; intros now to oldh d l E H0 Ht Hf; cbn [load_links] in E; [injection E as <-; cbn; lia|].
  destruct (Z.ltb_spec now to) as [Hlt|Hge].
  - inv_opt. subst l. apply Nat.leb_le in E0. rewrite u32_small in E1 by (unfold BLOCKSEC in *; lia). apply IH in E1 as [E1 E2]; [|unfold BLOCKSEC; lia|exact Ht|].
    + rewrite length_drop in E2. cbn [length]. assert ((to - now + BLOCKSEC - 1) / BLOCKSEC = (to - (now + BLOCKSEC) + BLOCKSEC - 1) / BLOCKSEC + 1).
      { rewrite <- Z.div_add by discriminate. f_equal. lia. }
      assert (0 <= (to - (now + BLOCKSEC) + BLOCKSEC - 1) / BLOCKSEC) by (apply Z.div_pos; unfold BLOCKSEC in *; lia). lia.
    + replace ((to - now + BLOCKSEC - 1) / BLOCKSEC) with ((to - (now + BLOCKSEC) + BLOCKSEC - 1) / BLOCKSEC + 1) in Hf by (rewrite <- Z.div_add by discriminate; f_equal; lia). lia.
  - injection E as <-. split; [|cbn; lia]. assert ((to - now + BLOCKSEC - 1) / BLOCKSEC < 1) by (apply Z.div_lt_upper_bound; unfold BLOCKSEC in *; lia). cbn. lia.
Qed.

(** The blocks that are accepted are a chain from the last block of the node to
    the block of the peer. *)
Lemma read_headers_chain sync_ls head data hs :
  0 <= sync_ls.(sv_now) -> head.(h_now) + BLOCKSEC < 2 ^ 32 -> (head.(h_now) - sync_ls.(sv_now)) mod BLOCKSEC = 0 -> read_headers sync_ls head data = Gives hs -> hs <> [] ->
  chain sync_ls hs /\ last hs = Some (loadhead (new_servers 0) head).
Proof.
  intros H0 Ht Hm E Hne. unfold read_headers in E. destruct (Z.leb_spec head.(h_now) sync_ls.(sv_now)) as [|Hlt]; [injection E as <-; contradiction|].
  set (num := (h_now head - sv_now sync_ls) / BLOCKSEC) in *. assert (Hnum : h_now head = sv_now sync_ls + BLOCKSEC * num) by (pose proof (Z.div_mod (h_now head - sv_now sync_ls) BLOCKSEC ltac:(discriminate)); unfold num; lia).
  destruct (Z.ltb_spec 0 num) as [Hp|]; [|discriminate]. destruct (Z.ltb_spec 1 num) as [H1|H1].
  - destruct (negb (len data =? _)); [discriminate|]. destruct (load_links _ _ _ _ _) as [l|] eqn:El; [|discriminate].
    case_bool_decide as Eo; [|discriminate]. case_bool_decide as Ef; [|discriminate]. cbn [negb] in E. injection E as <-. split; [|apply last_snoc].
    rewrite u32_small in El by (unfold BLOCKSEC in *; lia).
    pose proof (load_links_chain _ _ _ _ _ _ (sync_ls <| sv_nowhash := rd data 0 32 |>) El eq_refl eq_refl ltac:(cbn; unfold BLOCKSEC; lia) Ht) as Hc.
    apply load_links_length in El as [Ell _]; [|unfold BLOCKSEC; lia|exact Ht|]; cycle 1.
    { replace (h_now head - (sv_now sync_ls + BLOCKSEC) + BLOCKSEC - 1) with (BLOCKSEC * num + (- 1)) by lia. rewrite Z.mul_comm, Z.div_add_l by discriminate. change (- 1 / BLOCKSEC) with (- 1). lia. }
    replace (h_now head - (sv_now sync_ls + BLOCKSEC) + BLOCKSEC - 1) with (num * BLOCKSEC + (- 1)) in Ell by lia. rewrite Z.div_add_l in Ell by discriminate. change (- 1 / BLOCKSEC) with (- 1) in Ell.
    assert (Hc' : chain sync_ls l).
    { destruct l as [|b l]; [exact I|]. destruct Hc as [[F1 F2 F3] Hc]. split; [split; [|exact F2|exact F3]|exact Hc]. cbn in Ef. congruence. }
    apply chain_app. split; [exact Hc'|]. split; [|exact I]. destruct (last l) as [b|] eqn:Eb; [|discriminate]. cbn in Eo. injection Eo as Eo.
    rewrite (last_default _ _ _ Eb). split; [cbn; congruence| |apply loadhead_hashed]. rewrite (chain_now _ _ _ Hc' Eb). cbn. lia.
  - case_bool_decide as Ef; [|discriminate]. injection E as <-. split; [|reflexivity]. split; [|exact I]. split; [exact Ef|cbn; replace num with 1 in Hnum by lia; lia|apply loadhead_hashed].
Qed.
(** * Sending headers *)

(** A block as the joining node keeps it. *)
Definition block_copy (s : servers) : servers := loadlink (new_servers 0) (filllink s) s.(sv_now) s.(sv_oldhash).

Lemma block_copy_hash s : hashed s -> (block_copy s).(sv_nowhash) = s.(sv_nowhash).
Proof. intros Hs. rewrite Hs. reflexivity. Qed.

(** The header file of a block as [header_put] wrote it. *)
Record kept (files : gmap Z (list Z)) (s : servers) : Prop := {
  kp_wf : srv_wf s; kp_now : s.(sv_now) <> 0; kp_file : exists old, files !! s.(sv_now) = Some (data_write s false old)
}.

Lemma header_get_kept files s : kept files s -> header_get files (new_servers s.(sv_now)) = Some (s <| sv_txs := 0 |> <| sv_nodes := [] |>).
Proof.
  intros [Hw Hn [old Ef]]. unfold header_get. cbn [sv_now new_servers]. rewrite Ef. cbn. unfold data_write. rewrite app_nil_r, pwrite_0, data_read_head by exact Hw. cbn.
  rewrite (proj2 (Z.eqb_neq _ _) Hn), Z.eqb_refl. reflexivity.
Qed.

Lemma read_link_bytes l d : 0 <= l.(l_msg) < 2 ^ 32 -> 0 <= l.(l_nod) < 2 ^ 32 -> 0 <= l.(l_div) < 2 ^ 32 ->
  length l.(l_msghash) = 32%nat -> length l.(l_nodhash) = 32%nat -> length l.(l_viphash) = 32%nat -> read_link (link_bytes l ++ d) = l.
Proof.
  intros Hm Hn Hd L1 L2 L3. destruct l as [m n dv h1 h2 h3]. unfold read_link, link_bytes. cbn [l_msg l_nod l_div l_msghash l_nodhash l_viphash] in *. rewrite <- !(assoc_L (++)). f_equal.
  - now rewrite rdz_here.
  - rewrite rdz_skip, rdz_here by lia. reflexivity.
  - do 2 rewrite rdz_skip by lia. now rewrite rdz_here.
  - do 3 rewrite rd_app_skip by (rewrite ?length_le_bytes; lia). rewrite !length_le_bytes. now apply rd_app_here.
  - do 4 rewrite rd_app_skip by (rewrite ?length_le_bytes, ?L1; lia). rewrite !length_le_bytes, L1. now apply rd_app_here.
  - do 5 rewrite rd_app_skip by (rewrite ?length_le_bytes, ?L1, ?L2; lia). rewrite !length_le_bytes, L1, L2. now apply rd_app_here.
Qed.

Lemma chain_hashed a l s : chain a l -> s ∈ l -> hashed s.
Proof. revert a; induction l as [|b l IH]; intros a Hc Hs; [now apply elem_of_nil in Hs|]. destruct Hc as [Hf Hc]. apply elem_of_cons in Hs as [->|Hs]; [apply Hf|eauto]. Qed.

Lemma read_link_fill s d : srv_wf s -> read_link (link_bytes (filllink s) ++ d) = filllink s.
Proof. intros []. apply read_link_bytes; cbn; try assumption. destruct sw_nod as [-> ?]. lia. Qed.

Lemma length_link s : srv_wf s -> length (link_bytes (filllink s)) = sizeof_headlink.
Proof. intros []. unfold link_bytes. cbn [filllink l_msg l_nod l_div l_msghash l_nodhash l_viphash]. rewrite !length_app, !length_le_bytes. rewrite sw_mh, sw_nh, sw_vh. reflexivity. Qed.

Lemma length_links l : Forall srv_wf l -> length (concat (map (fun s => link_bytes (filllink s)) l)) = (sizeof_headlink * length l)%nat.
Proof. induction 1 as [|s l Hs _ IH]; [reflexivity|]. cbn [map concat length]. rewrite length_app, IH, (length_link s Hs). lia. Qed.

(** The blocks before the last one. *)
Lemma chain_before a l b : chain a (l ++ [b]) -> b.(sv_now) = a.(sv_now) + BLOCKSEC * (Z.of_nat (length l) + 1).
Proof. intros Hc. rewrite (chain_now _ _ b Hc) by apply last_snoc. rewrite length_app. cbn. lia. Qed.

Lemma header_links_kept files b : b.(sv_now) + BLOCKSEC < 2 ^ 32 -> forall l a fuel, chain a (l ++ [b]) -> Forall (kept files) l -> 0 <= a.(sv_now) -> (length l < fuel)%nat ->
  header_links fuel files (u32 (a.(sv_now) + BLOCKSEC)) b.(sv_now) = Some (map (fun s => s <| sv_txs := 0 |> <| sv_nodes := [] |>) l).
Proof.
  intros Hb. induction l as [|c l IH]; intros a fuel Hc Hk Ha Hf; (destruct fuel as [|fuel]; [cbn in Hf; lia|]); pose proof (chain_before _ _ _ Hc) as Hn.
  - rewrite u32_small by (unfold BLOCKSEC in *; cbn in Hn; lia). cbn [header_links]. replace (_ <? _) with false; [reflexivity|]. symmetry. apply Z.ltb_ge. cbn in Hn. lia.
  - inversion Hk as [|? ? Hkc Hkl]; subst. destruct Hc as [Hf' Hc]. rewrite <- (fo_now _ _ Hf'). cbn [length] in *. unfold BLOCKSEC in Hn.
    pose proof (fo_now _ _ Hf') as Hcn. unfold BLOCKSEC in Hcn. rewrite u32_small by (unfold BLOCKSEC in *; lia). cbn [header_links]. replace (_ <? _) with true by (symmetry; apply Z.ltb_lt; lia).
    rewrite (header_get_kept files c Hkc). cbn [map]. rewrite (IH c fuel) by (auto || lia). reflexivity.
Qed.

Lemma load_links_sent b : b.(sv_now) + BLOCKSEC < 2 ^ 32 -> forall l a fuel, chain a (l ++ [b]) -> Forall srv_wf l -> 0 <= a.(sv_now) -> (length l < fuel)%nat ->
  load_links fuel (u32 (a.(sv_now) + BLOCKSEC)) b.(sv_now) a.(sv_nowhash) (concat (map (fun s => link_bytes (filllink s)) l)) = Some (map block_copy l).
Proof.
  intros Hb. induction l as [|c l IH]; intros a fuel Hc Hk Ha Hf; (destruct fuel as [|fuel]; [cbn in Hf; lia|]); pose proof (chain_before _ _ _ Hc) as Hn.
  - rewrite u32_small by (unfold BLOCKSEC in *; cbn in Hn; lia). cbn [load_links]. replace (_ <? _) with false; [reflexivity|]. symmetry. apply Z.ltb_ge. cbn in Hn. lia.
  - inversion Hk as [|? ? Hkc Hkl]; subst. destruct Hc as [Hf' Hc]. rewrite <- (fo_now _ _ Hf'). cbn [length] in *. unfold BLOCKSEC in Hn.
    pose proof (fo_now _ _ Hf') as Hcn. unfold BLOCKSEC in Hcn. rewrite u32_small by (unfold BLOCKSEC in *; lia). cbn [load_links map concat]. replace (_ <? _) with true by (symmetry; apply Z.ltb_lt; lia).
    rewrite length_app, (length_link c Hkc), (proj2 (Nat.leb_le _ _)) by lia. rewrite (read_link_fill c _ Hkc), drop_app_length' by (symmetry; now apply length_link). rewrite <- (fo_hash _ _ Hf').
    change (loadlink _ (filllink c) _ _) with (block_copy c). rewrite (block_copy_hash c (fo_hashed _ _ Hf')), (IH c fuel) by (auto || lia). reflexivity.
Qed.

(** C26: the headers a node sends are accepted by a node whose last block is before
    them in the chain: the list it adds are the blocks of the chain, with their
    hashes, up to the block of the handshake. *)
Theorem headers_transfer files pad a l b :
  chain a (l ++ [b]) -> Forall (kept files) l -> 0 <= a.(sv_now) -> length a.(sv_nowhash) = 32%nat -> b.(sv_now) + BLOCKSEC < 2 ^ 32 ->
  exists data, (l <> [] -> write_headers files pad b.(sv_now) a.(sv_now) = Gives data) /\
    read_headers a (header b) data = Gives (map block_copy (l ++ [b])) /\ map sv_nowhash (map block_copy (l ++ [b])) = map sv_nowhash (l ++ [b]).
Proof.
  intros Hc Hk Ha Hh Hb. pose proof (chain_before _ _ _ Hc) as Hn.
  assert (Hmap : map sv_nowhash (map block_copy (l ++ [b])) = map sv_nowhash (l ++ [b])) by (rewrite map_map; apply map_ext_in; intros s Hs; apply block_copy_hash; apply (chain_hashed _ _ _ Hc); now apply list_elem_of_In).
  exists (match l with [] => [] | _ => a.(sv_nowhash) ++ concat (map (fun s => link_bytes (filllink s)) l) end).
  assert (Hd : (b.(sv_now) - a.(sv_now)) / BLOCKSEC = Z.of_nat (length l) + 1) by (rewrite Hn; replace (_ - _) with ((Z.of_nat (length l) + 1) * BLOCKSEC) by lia; now apply Z.div_mul).
  assert (Hr : 0 <= b.(sv_now) - a.(sv_now) < 2 ^ 32) by (unfold BLOCKSEC in *; lia).
  split_and!; [| |exact Hmap].
  - intros Hl. destruct l as [|c l]; [contradiction|]. unfold write_headers. replace (b.(sv_now) <? a.(sv_now)) with false by (symmetry; apply Z.ltb_ge; lia).
    rewrite (u32_small (b.(sv_now) - a.(sv_now))), Hd by exact Hr. rewrite (u32_small (_ + 1 - 1)) by (unfold BLOCKSEC in *; cbn [length] in *; lia).
    replace (_ =? 0) with false by (symmetry; apply Z.eqb_neq; cbn [length]; lia). cbn [negb].
    rewrite (header_links_kept files b Hb (c :: l) a) by (auto || (cbn [length]; lia)). rewrite length_map. replace (_ =? _) with true by (symmetry; apply Z.eqb_eq; lia). cbn [negb map].
    rewrite map_map. destruct Hc as [Hf _]. cbn. now rewrite (fo_hash _ _ Hf).
  - unfold read_headers. cbn [header h_now h_oldhash]. replace (_ <=? _) with false by (symmetry; apply Z.leb_gt; unfold BLOCKSEC in *; lia). rewrite Hd. replace (0 <? _) with true by (symmetry; apply Z.ltb_lt; lia). cbn [negb].
    destruct l as [|c l].
    + change (1 <? Z.of_nat (@length servers []) + 1) with false. destruct Hc as [Hf _]. rewrite bool_decide_true by (cbn; now apply Hf). reflexivity.
    + replace (1 <? _) with true by (symmetry; apply Z.ltb_lt; cbn [length]; lia). assert (Hw : Forall srv_wf (c :: l)) by (eapply Forall_impl; [exact Hk|]; intros s Hs; apply Hs).
      replace (len _ =? _) with true; [|symmetry; apply Z.eqb_eq; rewrite length_app, Hh, (length_links _ Hw); lia]. cbn [negb].
      rewrite rd_app_here, drop_app_length' by (exact Hh || (symmetry; exact Hh)). rewrite (load_links_sent b Hb (c :: l) a) by (auto || lia).
      rewrite bool_decide_true; [rewrite bool_decide_true; [cbn [negb]; now rewrite map_app|]|].
      * destruct Hc as [Hf _]. cbn. f_equal. now apply Hf.
      * apply chain_app in Hc as [Hc [Hf _]]. destruct (last (c :: l)) as [d|] eqn:Ed; [|apply last_None in Ed; discriminate]. rewrite (last_default _ _ _ Ed) in Hf. change (map block_copy (c :: l)) with (block_copy <$> (c :: l)).
        rewrite fmap_last, Ed. cbn. rewrite (fo_hash _ _ Hf). f_equal. apply block_copy_hash. apply (chain_hashed _ _ _ Hc). now apply last_Some_elem_of.
Qed.

(** * Peers in any order *)

Section Peers.
(** The last block of the node, of which its handshake tells. *)
Context (base : servers) (mysvid mins : Z).

(** The list of headers, and for each peer that is being read the block its
    headers have to follow. *)
Definition heads := (list servers * gmap Z servers)%type.

(** A peer that was accepted at the time [now] begins ([h_start]: the lock of
    [get_last_header]), its links arrive and are added ([h_finish]: the lock of
    [add_headers]), a single header arrives ([h_next]); the first header has the
    number the node asks for. *)
Inductive hstep : heads -> heads -> Prop :=
  | h_start p hs pend : hstep (hs, pend) (hs, <[p := get_last_header hs (header base)]> pend)
  | h_finish p y peer_hs sync_hs now msgnow nodes duplicate incoming data new hs pend :
      2 * BLOCKSEC <= now < 2 ^ 32 -> pend !! p = Some y ->
      authenticate now mysvid p msgnow nodes duplicate incoming base mins peer_hs sync_hs = A_join ->
      read_headers y peer_hs.(hs_head) data = Gives new -> new <> [] -> hstep (hs, pend) (add_headers true new hs, delete p pend)
  | h_next data hs hs' pend :
      BLOCKSEC <= rdz data 1 4 < 2 ^ 32 -> (hs = [] -> rdz data 1 4 = base.(sv_now) + BLOCKSEC) -> handle_next_header base data hs = Some hs' -> hstep (hs, pend) (hs', pend).

Lemma joined_head now p msgnow nodes duplicate incoming peer_hs sync_hs : 2 * BLOCKSEC <= now < 2 ^ 32 ->
  authenticate now mysvid p msgnow nodes duplicate incoming base mins peer_hs sync_hs = A_join ->
  peer_hs.(hs_head).(h_now) mod BLOCKSEC = 0 /\ peer_hs.(hs_head).(h_now) + BLOCKSEC < 2 ^ 32.
Proof.
  intros Hn E. unfold authenticate in E. repeat match type of E with (if ?c then _ else _) = _ => destruct c eqn:?; try discriminate end.
  match goal with Hx : negb (_ =? _) || _ = false |- _ => apply orb_false_iff in Hx as [Hx _]; apply negb_false_iff, Z.eqb_eq in Hx; rename Hx into Ex end.
  pose proof (Z.mod_pos_bound now BLOCKSEC ltac:(reflexivity)) as Hm. rewrite u32_small in Ex by (unfold BLOCKSEC in *; lia). rewrite Ex. split; [|unfold BLOCKSEC in *; lia].
  rewrite (Z.div_mod now BLOCKSEC) at 1 by discriminate. replace (_ - _) with ((now / BLOCKSEC - 1) * BLOCKSEC) by lia. now apply Z.mod_mul.
Qed.

(** Like the last block. *)
Definition like_base (y : servers) : Prop := y.(sv_now) = base.(sv_now) /\ y.(sv_nowhash) = base.(sv_nowhash).

Lemma chain_like y l : like_base y -> chain y l -> chain base l.
Proof. intros [Hn Hh]. destruct l as [|b l]; [auto|]. intros [[F1 F2 F3] Hc]. split; [split; congruence|exact Hc]. Qed.

Record linked (x : heads) : Prop := { lk_chain : chain base x.1; lk_pend : map_Forall (fun _ y => like_base y \/ y ∈ x.1) x.2 }.

Lemma chain_elem_now a l y : chain a l -> y ∈ l -> exists i, (i < length l)%nat /\ l !! i = Some y /\ y.(sv_now) = a.(sv_now) + BLOCKSEC * (Z.of_nat i + 1).
Proof.
  revert a; induction l as [|b l IH]; intros a Hc Hy; [now apply elem_of_nil in Hy|]. destruct Hc as [Hf Hc]. apply elem_of_cons in Hy as [->|Hy].
  - exists 0%nat. rewrite (fo_now _ _ Hf). cbn. split_and!; [lia|reflexivity|lia].
  - destruct (IH b Hc Hy) as (i & Hi & Ei & En). exists (S i). rewrite En, (fo_now _ _ Hf). cbn [length]. split_and!; [lia|exact Ei|lia].
Qed.

Hypothesis base_ok : 0 <= base.(sv_now) /\ base.(sv_now) mod BLOCKSEC = 0 /\ hashed base.

Lemma pend_now hs y : chain base hs -> like_base y \/ y ∈ hs -> base.(sv_now) <= y.(sv_now) /\ y.(sv_now) mod BLOCKSEC = 0.
Proof.
  intros Hc Hy. destruct base_ok as (H0 & Hm & _). destruct Hy as [[-> _]|Hy]; [split; [lia|exact Hm]|]. destruct (chain_elem_now _ _ _ Hc Hy) as (i & _ & _ & ->).
  split; [unfold BLOCKSEC; lia|]. rewrite Z.mul_comm, Z.mod_add by discriminate. exact Hm.
Qed.

Lemma last_in_nonempty (hs : list servers) : hs <> [] -> exists b, last hs = Some b.
Proof. destruct (last hs) eqn:E; [eauto|]. now apply last_None in E. Qed.

(** New headers go behind the block they follow, or nowhere. *)
Lemma add_headers_linked y new hs : chain base hs -> like_base y \/ y ∈ hs -> y.(sv_now) < 2 ^ 32 -> chain y new -> new <> [] ->
  chain base (add_headers true new hs) /\ (forall x, x ∈ hs -> x ∈ add_headers true new hs).
Proof.
  intros Hc Hy Hr Hn Hne. pose proof (pend_now hs y Hc Hy) as [Hb _]. unfold add_headers. cbn [negb]. destruct (last hs) as [back|] eqn:El.
  2:{ apply last_None in El. subst hs. split; [|intros x Hx; now apply elem_of_nil in Hx]. destruct Hy as [Hy|Hy]; [now apply (chain_like y)|now apply elem_of_nil in Hy]. }
  destruct new as [|first new]; [contradiction|]. destruct (Z.eqb_spec back.(sv_now) (u32 (first.(sv_now) - BLOCKSEC))) as [E|]; cbn [negb]; [|auto].
  destruct Hn as [Hf Hn]. rewrite (fo_now _ _ Hf) in E. replace (_ + BLOCKSEC - BLOCKSEC) with y.(sv_now) in E by lia. rewrite u32_small in E by (destruct base_ok; lia).
  pose proof (chain_now _ _ _ Hc El) as Ebn. assert (Hlen : (0 < length hs)%nat) by (destruct hs; [discriminate|cbn; lia]).
  assert (Hyb : y = back).
  { destruct Hy as [[Hyn _]|Hy]; [unfold BLOCKSEC in *; lia|]. destruct (chain_elem_now _ _ _ Hc Hy) as (i & Hi & Ei & En). assert (i = pred (length hs)) as -> by (unfold BLOCKSEC in *; lia).
    rewrite last_lookup in El. congruence. }
  subst y. cbn [new_headers]. rewrite (proj2 (Z.leb_gt _ _)) by (rewrite (fo_now _ _ Hf); unfold BLOCKSEC; lia). split; [|intros x Hx; apply elem_of_app; now left].
  apply chain_app. split; [exact Hc|]. rewrite (last_default _ _ _ El). now split.
Qed.

Lemma next_header_linked data hs hs' : chain base hs -> BLOCKSEC <= rdz data 1 4 < 2 ^ 32 -> (hs = [] -> rdz data 1 4 = base.(sv_now) + BLOCKSEC) -> handle_next_header base data hs = Some hs' ->
  chain base hs' /\ (forall x, x ∈ hs -> x ∈ hs').
Proof.
  intros Hc Hr He. unfold handle_next_header, add_next_header. set (s := loadlink _ _ _ _). assert (Hs : hashed s) by reflexivity. destruct (last hs) as [back|] eqn:El.
  - destruct (Z.eqb_spec back.(sv_now) (u32 (rdz data 1 4 - BLOCKSEC))) as [E|]; cbn [andb]; [|intros [= <-]; auto]. case_bool_decide as Eo; [|intros [= <-]; auto]. intros [= <-].
    split; [|intros x Hx; apply elem_of_app; now left]. apply chain_app. split; [exact Hc|]. rewrite (last_default _ _ _ El). split; [|exact I]. split; [exact Eo| |exact Hs].
    rewrite u32_small in E by (unfold BLOCKSEC in *; lia). change (rdz data 1 4 = back.(sv_now) + BLOCKSEC). lia.
  - apply last_None in El. subst hs. case_bool_decide as Eo; [|discriminate]. intros [= <-]. split; [|intros x Hx; now apply elem_of_nil in Hx]. split; [|exact I]. split; [exact Eo|exact (He eq_refl)|exact Hs].
Qed.

Lemma hstep_linked x x' : hstep x x' -> linked x -> linked x'.
Proof.
  intros Hs [Hc Hp]. destruct Hs as [p hs pend|p y peer_hs sync_hs now msgnow nodes dup inc data new hs pend Hnow Hy Ha Hr Hne|data hs hs' pend Hb He Hn]; cbn [fst snd] in *.
  - split; [exact Hc|]. apply map_Forall_insert_2; [|exact Hp]. unfold get_last_header. destruct (last hs) as [b|] eqn:El; [right; now apply last_Some_elem_of|left]. split; [reflexivity|].
    destruct base_ok as (_ & _ & ->). reflexivity.
  - destruct (joined_head _ _ _ _ _ _ _ _ Hnow Ha) as [Hm Hlt]. pose proof (Hp p y Hy) as Hyo. destruct (pend_now hs y Hc Hyo) as [H0 Hym].
    destruct (read_headers_chain y (hs_head peer_hs) data new) as [Hch _]; [destruct base_ok; lia|exact Hlt| |exact Hr|exact Hne|].
    { rewrite Zminus_mod, Hm, Hym. reflexivity. }
    assert (Hy32 : y.(sv_now) < 2 ^ 32).
    { unfold read_headers in Hr. destruct (Z.leb_spec (h_now (hs_head peer_hs)) (sv_now y)); [injection Hr as <-; contradiction|unfold BLOCKSEC in *; lia]. }
    destruct (add_headers_linked y new hs Hc Hyo Hy32 Hch Hne) as [Hc' Hin]. split; [exact Hc'|]. cbn. apply map_Forall_delete. intros q z Hz. destruct (Hp q z Hz); auto.
  - destruct (next_header_linked data hs hs' Hc Hb He Hn) as [Hc' Hin]. split; [exact Hc'|]. cbn. intros q z Hz. destruct (Hp q z Hz); auto.
Qed.

(** C24: whatever headers a joining node gets from its peers, and however their
    deliveries interleave, its list of headers is a chain of hashes and block
    numbers that begins behind its own last block, provided that a single header
    that arrives while the list is empty has the number the node asked for
    ([wrong_header_accepted] shows that the code does not test this number). *)
Theorem headers_stay_linked hs pend : rtc hstep ([], ∅) (hs, pend) -> chain base hs.
Proof.
  intros Hr. apply (lk_chain (hs, pend)). assert (H0 : linked ([], ∅)) by (split; [exact I|apply map_Forall_empty]). induction Hr as [x|x y z Hxy _ IH]; [exact H0|]. apply IH. now apply (hstep_linked x).
Qed.
End Peers.
End Headers.

(** * Lists of messages *)

Section Lists.
Context `{Sha256}.

(** The list as another node keys it: only the byte of the hash in the keys
    depends on the node. *)
Definition rekey (mysvid : Z) (q : Z * lmsg) : Z * lmsg := (listed_key mysvid q.2, listed q.2).

Lemma list_key_parts mysvid m : msg_ok m -> exists lo, 0 <= lo < 2 ^ 16 /\ listed_key mysvid m = lo + 2 ^ 16 * (m.(lm_msid) + 2 ^ 32 * m.(lm_svid)).
Proof.
  intros ([_ Hb] & Hs & Hm). unfold listed_key, list_key.
  assert (Ht : le_val (le_bytes 4 m.(lm_msid) ++ le_bytes 2 m.(lm_svid)) = m.(lm_msid) + 2 ^ 32 * m.(lm_svid)).
  { rewrite le_val_app, length_le_bytes, !le_val_bytes_small by (change (256 ^ Z.of_nat 4) with (2 ^ 32); change (256 ^ Z.of_nat 2) with (2 ^ 16); assumption). reflexivity. }
  destruct (_ =? 0xffffffff); [exists (256 * MSGTYPE_DBL)|exists (nthz m.(lm_sigh) (Z.to_nat (mysvid mod 32)) + 256 * MSGTYPE_MSG)]; (split; [|cbn [app le_val]; rewrite Ht; lia]); [unfold MSGTYPE_DBL; lia|].
  pose proof (nthz_byte m.(lm_sigh) (Z.to_nat (mysvid mod 32)) Hb). unfold MSGTYPE_MSG. lia.
Qed.

(** Messages of one block: fields in range, keys of the node [svid], and one
    message for each node and number. *)
Record block_list (svid : Z) (mp : gmap Z lmsg) : Prop := {
  bl_size : 0 < len (elems mp) < 2 ^ 16;
  bl_ok : Forall (fun q => msg_ok q.2 /\ q.1 = listed_key svid q.2) (elems mp);
  bl_one : forall j k m n, mp !! j = Some m -> mp !! k = Some n -> m.(lm_svid) = n.(lm_svid) -> m.(lm_msid) = n.(lm_msid) -> j = k
}.

Lemma rekey_order svid mysvid mp p q : block_list svid mp -> p ∈ elems mp -> q ∈ elems mp -> p.1 < q.1 -> (rekey mysvid p).1 < (rekey mysvid q).1.
Proof.
  intros [_ Ho H1] Hp Hq Hlt. rewrite Forall_forall in Ho. destruct (Ho p Hp) as [Op Kp], (Ho q Hq) as [Oq Kq]. destruct p as [j m], q as [k n]. cbn [fst snd] in *.
  destruct (list_key_parts svid m Op) as (a & Ha & Ea), (list_key_parts svid n Oq) as (b & Hb & Eb), (list_key_parts mysvid m Op) as (c & Hc & Ec), (list_key_parts mysvid n Oq) as (d & Hd & Ed).
  cbn [rekey fst snd]. rewrite Ec, Ed. apply elem_of_elems in Hp, Hq. destruct Op as (_ & Sm & Mm), Oq as (_ & Sn & Mn).
  enough (m.(lm_msid) + 2 ^ 32 * m.(lm_svid) <> n.(lm_msid) + 2 ^ 32 * n.(lm_svid)) by lia.
  intros E. assert (m.(lm_svid) = n.(lm_svid) /\ m.(lm_msid) = n.(lm_msid)) as [E1 E2] by lia. pose proof (H1 j k m n Hp Hq E1 E2). lia.
Qed.

Lemma foldl_insert_lookup {A} (f : A -> Z * lmsg) l : NoDup (map (fun a => (f a).1) l) -> forall acc : gmap Z lmsg, (forall a, a ∈ l -> acc !! (f a).1 = None) -> forall k y,
  foldl (fun acc a => <[(f a).1 := (f a).2]> acc) acc l !! k = Some y <-> acc !! k = Some y \/ exists a, a ∈ l /\ f a = (k, y).
Proof.
  intros Hnd. induction l as [|a l IH]; intros acc Ha k y; cbn [foldl].
  - split; [auto|]. intros [?|(a & Hin & _)]; [assumption|now apply elem_of_nil in Hin].
  - cbn [map] in Hnd. apply NoDup_cons in Hnd as [Hni Hnd]. rewrite (IH Hnd).
    + rewrite lookup_insert_Some. split.
      * intros [[[<- <-]|[Hne Hk]]|(b & Hb & Eb)]; [right; exists a; split; [left|now destruct (f a)]|auto|right; exists b; split; [now right|exact Eb]].
      * intros [Hk|(b & Hb & Eb)]; [|apply elem_of_cons in Hb as [->|Hb]; [left; left; now rewrite Eb|right; eauto]].
        left. right. split; [|exact Hk]. intros E. rewrite <- E in Hk. rewrite (Ha a) in Hk by left. discriminate.
    + intros b Hb. rewrite lookup_insert_ne; [apply Ha; now right|]. intros E. apply Hni. apply list_elem_of_fmap. exists b. auto.
Qed.

(** The map another node makes of the list. *)
Lemma msgl_map_rekey svid mysvid mp r : block_list svid mp ->
  elems (msgl_map (length (elems mp)) (concat (map (fun q => entry_bytes q.2) (elems mp)) ++ r) mysvid ∅) = map (rekey mysvid) (elems mp).
Proof.
  intros Hb. rewrite msgl_map_entries by (eapply Forall_impl; [exact (bl_ok _ _ Hb)|]; now intros q []). apply (elems_map mp); [intros p q; now apply (rekey_order svid mysvid mp)|].
  intros k y. change (foldl _ _ _) with (foldl (fun (acc : gmap Z lmsg) q => <[(rekey mysvid q).1 := (rekey mysvid q).2]> acc) ∅ (elems mp)). rewrite foldl_insert_lookup; [| |intros a _; apply lookup_empty].
  - rewrite lookup_empty. split; [intros [?|?]; [discriminate|assumption]|auto].
  - assert (Hord : forall p q, p ∈ elems mp -> q ∈ elems mp -> p.1 < q.1 -> (rekey mysvid p).1 < (rekey mysvid q).1) by (intros p q; now apply (rekey_order svid mysvid mp)).
    pose proof (elems_strict mp) as Hst. clear Hb. induction Hst as [|p l Hl IH Hp]; [constructor|]. cbn [map]. constructor; [|apply IH; intros a b Ha Hb; apply Hord; now right].
    intros Hin. apply list_elem_of_fmap in Hin as (q & Eq & Hq). rewrite Forall_forall in Hp. pose proof (Hord p q ltac:(left) ltac:(now right) (Hp q Hq)). lia.
Qed.

Lemma number_unsaved n l : Forall (fun q => q.2.(lm_status) = MSGSTAT_VAL) l -> number_msgs n l = Gives l.
Proof.
  intros Hl. revert n. induction Hl as [|[k m] l Hm _ IH]; intros n; [reflexivity|]. cbn [number_msgs]. cbn [snd] in Hm. unfold save_mnum. rewrite Hm. destruct (negb _); [|change (negb (has_bits MSGSTAT_VAL MSGSTAT_SAV)) with true; cbv iota]; now rewrite IH.
Qed.

(** A map with the hashes of a list is stored when its hash is asked for. *)
Lemma msgl_put_again s1 mp1 cmp1 old1 s1' f1 l1 x1 s2 mp2 old2 : msgl_put s1 mp1 cmp1 (Some old1) = (Gives (s1', f1, l1), x1) -> sighs (elems mp2) = sighs (elems mp1) ->
  Forall (fun q => q.2.(lm_status) = MSGSTAT_VAL) (elems mp2) -> exists r, msgl_put s2 mp2 (Some s1'.(sv_msghash)) (Some old2) = (Gives r, r.1.1).
Proof.
  intros E Hs Hv. unfold msgl_put in *. rewrite tree_of_sighs in *. rewrite Hs. destruct (finish (tree_of (sighs (elems mp1)))) as [[t a] h]. cbv zeta in *.
  destruct (match cmp1 with Some _ => _ | None => _ end); [discriminate|]. destruct (number_msgs 0 (elems mp1)); try discriminate. injection E as <- _ _ _. cbn [sv_msghash].
  rewrite bool_decide_true by reflexivity. cbn [negb]. rewrite number_unsaved by exact Hv. eexists (_, _, _). reflexivity.
Qed.

(** The part of the file of a list that is sent. *)
Lemma list_prefix l hs rest : Forall (fun q => msg_ok q.2) l ->
  take (Z.to_nat (32 + len l * (2 + 4 + 32))) (drop 4 (list_bytes (merkle_root (sighs l)) l hs ++ rest)) = merkle_root (sighs l) ++ concat (map (fun q => entry_bytes q.2) l).
Proof.
  intros Ho. pose proof (list_root_length l Ho) as Hr. pose proof (entries_length l Ho) as He. unfold list_bytes. rewrite <- !(assoc_L (++)). rewrite drop_app_length' by (symmetry; apply length_le_bytes).
  rewrite (assoc_L (++)). apply take_app_length'. rewrite length_app, Hr, He. lia.
Qed.

Definition sig_ok (v : svsi_t) : Prop := 0 <= v.1 < 2 ^ 16 /\ length v.2 = 64%nat.

Lemma length_svsi v : sig_ok v -> length (svsi_bytes v) = sizeof_svsi.
Proof. intros [_ Hl]. unfold svsi_bytes. rewrite length_app, length_le_bytes, Hl. reflexivity. Qed.

Lemma length_svsis l : Forall sig_ok l -> length (concat (map svsi_bytes l)) = (length l * sizeof_svsi)%nat.
Proof. induction 1 as [|v l Hv _ IH]; [reflexivity|]. cbn [map concat length]. rewrite length_app, length_svsi, IH by exact Hv. lia. Qed.

Lemma read_svsis_bytes l r : Forall sig_ok l -> read_svsis (length l) (concat (map svsi_bytes l) ++ r) = l.
Proof.
  induction 1 as [|[i g] l Hv _ IH]; [reflexivity|]. cbn [length map concat read_svsis]. rewrite <- (assoc_L (++)), drop_app_length', IH by (symmetry; now apply length_svsi). f_equal.
  destruct Hv as [Hi Hg]. cbn [fst snd] in *. unfold read_svsi, svsi_bytes. cbn [fst snd]. rewrite <- !(assoc_L (++)), rdz_here by exact Hi. rewrite rd_app_skip, length_le_bytes by (rewrite length_le_bytes; lia). now rewrite rd_app_here.
Qed.

Lemma save_signature_vtot s fl path v ok : (save_signature s fl path v.1 v.2 ok).1.(sv_vtot) = s.(sv_vtot).
Proof. unfold save_signature. case_bool_decide; [reflexivity|]. destruct (_ =? _); [|reflexivity]. destruct ok; reflexivity. Qed.

Lemma save_signatures_vtot l path : forall st, (foldl (fun st v => save_signature st.1 st.2 path v.1 v.2 true) st l).1.(sv_vtot) = st.1.(sv_vtot).
Proof. induction l as [|v l IH]; intros st; [reflexivity|]. cbn [foldl]. rewrite IH. apply save_signature_vtot. Qed.

Lemma check_signatures_vtot sign_open s fl head a save : (check_signatures sign_open s fl head a save).2.1.(sv_vtot) = s.(sv_vtot).
Proof.
  unfold check_signatures. destruct (keep_loop _ _ 0 0 a) as [i b]. destruct (keep_loop _ _ _ _ b) as [k c]. cbn. destruct (_ && _); [|reflexivity]. apply save_signatures_vtot.
Qed.

Section Signed.
Context (sign_open : list Z -> list Z -> list Z -> bool).

(** The block [s] with the messages [mp] in the files of the node [svid]. *)
Record list_stored (svid : Z) (fl : sigfiles) (lists : gmap Z (list Z)) (s : servers) (mp : gmap Z lmsg) : Prop := {
  ls_header : kept fl.(sf_hdr) s; ls_block : block_list svid mp;
  ls_list : exists s0 cmp old s1 f l x, msgl_put s0 mp cmp (Some old) = (Gives (s1, f, l), x) /\ lists !! s.(sv_now) = Some f /\ s.(sv_msg) = s1.(sv_msg) /\ s.(sv_msghash) = s1.(sv_msghash);
  ls_sigs : len (get_signatures fl s.(sv_now)) < 2 ^ 16 /\ Forall sig_ok (get_signatures fl s.(sv_now))
}.

(** A node that asked for the list of the block, has its header, and knows the
    keys of enough signers. *)
Record awaits (mins : Z) (sigs : list svsi_t) (s : servers) (j : joiner) : Prop := {
  aw_get : j.(jn_get) = s.(sv_now);
  aw_header : exists sj, kept j.(jn_files).(sf_hdr) sj /\ sj.(sv_now) = s.(sv_now) /\ filllink sj = filllink s /\ sj.(sv_oldhash) = s.(sv_oldhash) /\ sj.(sv_nowhash) = s.(sv_nowhash);
  aw_sigs : Forall (fun v => vote_valid sign_open j.(jn_last) (header s) v = true) sigs;
  aw_few : few (len sigs) j.(jn_last) mins = false;
  aw_fst : has_bits (nth_node j.(jn_last) 0).(n_status) SERVER_FST = false
}.

(** The bytes of [write_msglist]. *)
Lemma write_msglist_bytes svid fl lists s mp : list_stored svid fl lists s mp ->
  let sigs := get_signatures fl s.(sv_now) in
  exists tail, length tail = 3%nat /\ s.(sv_msg) = len (elems mp) /\ length s.(sv_msghash) = 32%nat /\
  write_msglist fl lists s.(sv_now) = Gives ([MSGTYPE_MSP] ++ tail ++ le_bytes 4 s.(sv_now) ++ le_bytes 4 (len sigs) ++ concat (map svsi_bytes sigs) ++
    s.(sv_msghash) ++ concat (map (fun q => entry_bytes q.2) (elems mp))).
Proof.
  intros [Hk [Hs Ho _] (s0 & cmp & old & s1 & f & l & x & Ep & Ef & Em & Eh) [Hn Hg]]. cbv zeta. set (sigs := get_signatures fl s.(sv_now)) in *.
  assert (Hmo : Forall (fun q => msg_ok q.2) (elems mp)) by (eapply Forall_impl; [exact Ho|]; now intros q []).
  assert (H25 : 0 < len (elems mp) < 2 ^ 25) by lia. destruct (msgl_put_result _ _ _ _ _ _ _ _ H25 Hmo Ep) as (P1 & P2 & _ & rest & ->). pose proof (list_root_length _ Hmo) as Hr. pose proof (entries_length _ Hmo) as He.
  exists (le_bytes 3 (msglist_len (len sigs) s.(sv_msg))). rewrite length_le_bytes, Em, Eh, P1, P2. split_and!; [reflexivity|reflexivity|exact Hr|].
  unfold write_msglist. rewrite (header_get_kept _ _ Hk). cbn [sv_msg sv_now]. unfold msgl_get. cbn [sv_msg]. rewrite Ef. change (sv_msg (s <| sv_txs := 0 |> <| sv_nodes := [] |>)) with (sv_msg s). change (sv_now (s <| sv_txs := 0 |> <| sv_nodes := [] |>)) with (sv_now s).
  rewrite Em, P1. fold sigs. rewrite (u32_small (len sigs)), (u16_small (len sigs)), Nat2Z.id, (take_ge sigs) by lia. rewrite list_prefix by (exact Hmo || lia).
  replace (negb _) with false; [reflexivity|]. symmetry. apply negb_false_iff, Z.eqb_eq. rewrite length_app, Hr, He. unfold sizeof_entry. lia.
Qed.

(** The fields of the message. *)
Lemma msglist_fields tail now nok (sb lb : list Z) : length tail = 3%nat -> 0 <= now < 2 ^ 32 -> 0 <= nok < 2 ^ 16 -> length sb = (Z.to_nat nok * sizeof_svsi)%nat ->
  let d := [MSGTYPE_MSP] ++ tail ++ le_bytes 4 now ++ le_bytes 4 nok ++ sb ++ lb in
  rdz d 4 4 = now /\ rdz d 8 4 = nok /\ drop 12 d = sb ++ lb /\ drop (Z.to_nat (12 + nok * Z.of_nat sizeof_svsi)) d = lb /\ len d = 12 + nok * Z.of_nat sizeof_svsi + len lb.
Proof.
  intros Ht Hn Hk Hs. cbv zeta. set (r := sb ++ lb).
  assert (Ed : drop 12 ([MSGTYPE_MSP] ++ tail ++ le_bytes 4 now ++ le_bytes 4 nok ++ r) = r).
  { rewrite !(assoc_L (++)). apply drop_app_length'. rewrite !length_app, !length_le_bytes, Ht. reflexivity. }
  split_and!; [| |exact Ed| |].
  - unfold rdz. do 2 rewrite rd_app_skip by (rewrite ?Ht; cbn; lia). rewrite Ht. change (4 - length [MSGTYPE_MSP] - 3)%nat with 0%nat. apply rdz_here. change (256 ^ Z.of_nat 4) with (2 ^ 32). lia.
  - unfold rdz. do 3 rewrite rd_app_skip by (rewrite ?Ht, ?length_le_bytes; cbn; lia). rewrite Ht, length_le_bytes. change (8 - length [MSGTYPE_MSP] - 3 - 4)%nat with 0%nat. apply rdz_here. change (256 ^ Z.of_nat 4) with (2 ^ 32). lia.
  - replace (Z.to_nat _) with (12 + length sb)%nat by lia. rewrite <- drop_drop, Ed. unfold r. now rewrite drop_app_length.
  - unfold r. rewrite !length_app, !length_le_bytes, Ht. cbn [length]. lia.
Qed.

(** All signatures are kept. *)
Lemma all_signatures s fl head a : head.(h_vno) = 0 -> 0 <= head.(h_vok) < 2 ^ 16 -> head.(h_vok) = len a -> has_bits (nth_node s 0).(n_status) SERVER_FST = false ->
  Forall (fun v => vote_valid sign_open s head v = true) a -> (check_signatures sign_open s fl head a true).1.1.(h_vok) = len a.
Proof.
  intros Hno Hr Hok Hf Hv. pose proof (check_signatures_filters sign_open s fl head a true) as Hc. destruct (check_signatures sign_open s fl head a true) as [[head' a'] st].
  cbn [fst]. destruct Hc as (-> & _); [lia|lia|lia|lia|exact Hf|]. rewrite Hok, Nat2Z.id, take_ge by lia. f_equal. f_equal. clear -Hv. induction Hv as [|v a Hv _ IH]; [reflexivity|]. rewrite filter_cons_True by exact Hv. now f_equal.
Qed.

(** C27: the list of the messages of a block, sent by a node that has the block, is
    accepted by a joining node that has its header and knows enough of its
    signers: the messages the node then asks for are those of the block. *)
Theorem msglist_transfer svid mysvid mins fl lists s mp j :
  list_stored svid fl lists s mp -> awaits mins (get_signatures fl s.(sv_now)) s j ->
  exists data j', write_msglist fl lists s.(sv_now) = Gives data /\ handle_read_msglist sign_open mysvid mins data j = Some (true, j') /\
    j'.(jn_get) = 0 /\ elems j'.(jn_missing) = map (rekey mysvid) (elems mp).
Proof.
  intros Hls [Hget (sj & Hkj & Hnow & Hfill & Hold & Hnw) Hsig Hfew Hfst]. destruct (write_msglist_bytes svid fl lists s mp Hls) as (tail & Htl & Hmsg & Hmh & Ew). destruct Hls as [Hk Hb (s0 & cmp & old & s1 & f & l & x & Ep & Ef & Em & Eh) [Hn Hg]].
  set (sigs := get_signatures fl s.(sv_now)) in *. set (lb := s.(sv_msghash) ++ _) in Ew. assert (Hsl : length (concat (map svsi_bytes sigs)) = (Z.to_nat (len sigs) * sizeof_svsi)%nat) by (rewrite length_svsis by exact Hg; lia).
  destruct (msglist_fields tail s.(sv_now) (len sigs) (concat (map svsi_bytes sigs)) lb Htl (sw_now _ (kp_wf _ _ Hk)) ltac:(lia) Hsl) as (R1 & R2 & R3 & R4 & R5). cbv zeta in R1, R2, R3, R4, R5.
  set (data := [MSGTYPE_MSP] ++ _) in *. exists data.
  unfold handle_read_msglist. rewrite R1, R2, Hget, Z.eqb_refl. cbn [negb]. rewrite <- Hnow, (header_get_kept _ _ Hkj), Hnow. cbn [default]. rewrite (u16_small (len sigs)) by lia. rewrite R4, R3, R5.
  set (h0 := _ <| sv_vok := _ |>). set (h1 := h0 <| sv_vno := 0 |>). injection Hfill as F1 F2 F3 F4 F5 F6.
  assert (M0 : h0.(sv_msg) = len (elems mp)) by (rewrite <- Hmsg; exact F1). assert (Mh : h0.(sv_msghash) = s.(sv_msghash)) by exact F4.
  assert (Hll : len lb = 32 + len (elems mp) * sizeof_entry).
  { unfold lb. rewrite length_app, Hmh, entries_length by (eapply Forall_impl; [exact (bl_ok _ _ Hb)|]; now intros q []). unfold sizeof_entry. lia. }
  rewrite M0, Mh. replace (_ =? _) with true by (symmetry; apply Z.eqb_eq; unfold msglist_len; lia). cbn [negb].
  assert (Htk : take 32 lb = s.(sv_msghash)) by (unfold lb; apply take_app_length'; now symmetry). rewrite bool_decide_true by exact Htk. cbn [negb]. rewrite Hfew.
  rewrite Nat2Z.id, read_svsis_bytes by exact Hg.
  pose proof (check_signatures_vtot sign_open (jn_last j) (jn_files j) (header h1) sigs true) as Hvt.
  assert (Hcv : (check_signatures sign_open (jn_last j) (jn_files j) (header h1) sigs true).1.1.(h_vok) = len sigs).
  { apply all_signatures; [reflexivity|cbn; lia|reflexivity|exact Hfst|]. eapply Forall_impl; [exact Hsig|]. intros v. unfold vote_valid, header_data. cbn. rewrite Hnow, F1, F2, F3, F4, F5, F6, Hold, Hnw. auto. }
  destruct (check_signatures sign_open (jn_last j) (jn_files j) (header h1) sigs true) as [[head a'] [last' fl']]. cbn [fst snd] in Hvt, Hcv. rewrite Hcv.
  assert (Hfew' : few (len sigs) last' mins = false) by (unfold few in *; now rewrite Hvt). rewrite Hfew'. destruct (header_put _ _ _) as [hdr srv].
  set (j1 := _ <| jn_files ::= _ |>). unfold msgl_process.
  change (j1.(jn_get)) with j.(jn_get). change (h1.(sv_now)) with sj.(sv_now). change (h1.(sv_msg)) with h0.(sv_msg). rewrite Hget, Hnow, Z.eqb_refl, M0, Nat2Z.id. cbn [negb].
  rewrite (proj2 (Z.ltb_lt _ _)) by apply (bl_size _ _ Hb). assert (Hdr : drop 32 lb = concat (map (fun q => entry_bytes q.2) (elems mp)) ++ []) by (unfold lb; rewrite app_nil_r; apply drop_app_length'; now symmetry).
  rewrite Hdr, Htk. pose proof (msgl_map_rekey svid mysvid mp [] Hb) as Hmk. set (mp2 := msgl_map _ _ _ _) in *.
  destruct (msgl_put_again s0 mp cmp old s1 f l x h1 mp2 (default [] (jn_lists j1 !! sv_now s)) Ep) as (r & Er).
  { rewrite Hmk. unfold sighs. rewrite map_map. reflexivity. }
  { rewrite Hmk. apply Forall_map, Forall_true. reflexivity. }
  rewrite Eh, Er. destruct r as [[sr fr] lr]. cbn [fst]. eexists. split_and!; [exact Ew|reflexivity|reflexivity|exact Hmk].
Qed.
End Signed.
End Lists.

(** * Gaps *)

Section Gaps.
Context `{Sha256}.

(** A request for the headers after the block of the handshake ends the node: the
    number of links wraps around and the assertion on the end of the data fails. *)
Theorem header_request_aborts files pad to : 0 <= to -> to + BLOCKSEC < 2 ^ 32 -> write_headers files pad to to = Aborts.
Proof.
  intros H0 H1. unfold write_headers. rewrite Z.ltb_irrefl, Z.sub_diag. change (u32 (u32 0 / BLOCKSEC - 1)) with (2 ^ 32 - 1). change (Z.to_nat (u32 0 / BLOCKSEC + 1)) with 1%nat. cbn [header_links].
  rewrite u32_small by (unfold BLOCKSEC in *; lia). replace (_ <? _) with false by (symmetry; apply Z.ltb_ge; unfold BLOCKSEC; lia). reflexivity.
Qed.
End Gaps.

(** * Examples *)

Definition demo_block (now : Z) (old : list Z) : servers := hashnow (H := quick_sha) ((new_servers now) <| sv_oldhash := old |>).
Definition demo_b0 : servers := Eval vm_compute in demo_block 1024 zero_hash.
Definition demo_b1 : servers := Eval vm_compute in demo_block 1536 demo_b0.(sv_nowhash).
Definition demo_b2 : servers := Eval vm_compute in demo_block 2048 demo_b1.(sv_nowhash).

Lemma demo_chain : chain (H := quick_sha) demo_b0 [demo_b1; demo_b2].
Proof. split; [split; reflexivity|]. split; [split; reflexivity|exact I]. Qed.

Lemma demo_kept : kept (<[1536 := data_write demo_b1 false []]> ∅) demo_b1.
Proof.
  split; [|discriminate|exists []; apply lookup_insert_eq]. split; cbn [demo_b1 sv_now sv_msg sv_div sv_vok sv_vno sv_vtot sv_nod sv_nodes]; [lia|lia|lia|reflexivity..|lia|lia|lia|split; [reflexivity|lia]|constructor].
Qed.

Lemma headers_transfer_witness : exists data, ([demo_b1] <> [] -> write_headers (<[1536 := data_write demo_b1 false []]> ∅) [] 2048 1024 = Gives data) /\
  read_headers (H := quick_sha) demo_b0 (header demo_b2) data = Gives (map (block_copy (H := quick_sha)) ([demo_b1] ++ [demo_b2])) /\
  map sv_nowhash (map (block_copy (H := quick_sha)) ([demo_b1] ++ [demo_b2])) = map sv_nowhash ([demo_b1] ++ [demo_b2]).
Proof. apply (headers_transfer (H := quick_sha) (<[1536 := data_write demo_b1 false []]> ∅) [] demo_b0 [demo_b1] demo_b2 demo_chain); [constructor; [exact demo_kept|constructor]|discriminate|reflexivity|reflexivity]. Defined.

(** Node 1 serves the block after the last one of the node. *)
Definition demo_peer : handshake := {| hs_head := header demo_b1; hs_msid := 0; hs_msha := zero_hash; hs_do_sync := false |}.
Definition demo_own : handshake := {| hs_head := header demo_b0; hs_msid := 0; hs_msha := zero_hash; hs_do_sync := true |}.

Lemma demo_join_run : rtc (hstep (H := quick_sha) demo_b0 2 0) ([], ∅) ([block_copy (H := quick_sha) demo_b1], delete 1 (<[1 := get_last_header (H := quick_sha) [] (header demo_b0)]> ∅)).
Proof.
  eapply rtc_l; [apply (h_start _ _ _ 1)|]. apply rtc_once.
  refine (h_finish (H := quick_sha) demo_b0 2 0 1 (get_last_header (H := quick_sha) [] (header demo_b0)) demo_peer demo_own 2050 2050 5 false true [] [block_copy (H := quick_sha) demo_b1] [] _ _ _ _ _ _).
  - unfold BLOCKSEC. lia.
  - apply lookup_insert_eq.
  - vm_compute. reflexivity.
  - vm_compute. reflexivity.
  - discriminate.
Qed.

Lemma headers_stay_linked_witness : chain (H := quick_sha) demo_b0 [block_copy (H := quick_sha) demo_b1].
Proof. apply (headers_stay_linked (H := quick_sha) demo_b0 2 0) with (2 := demo_join_run). split; [discriminate|]. split; reflexivity. Defined.

(** A first single header with a number that was not asked for, here that of the
    last block itself, is taken, and the headers of another peer go behind it
    although they do not follow it. *)
Definition demo_wrong : list Z := [MSGTYPE_NHD] ++ le_bytes 4 1024 ++ [0; 0; 0] ++ demo_b0.(sv_nowhash) ++ link_bytes (filllink demo_b1).

Theorem wrong_header_accepted :
  exists f, handle_next_header (H := quick_sha) demo_b0 demo_wrong [] = Some [f] /\ f.(sv_now) = demo_b0.(sv_now) /\
    read_headers (H := quick_sha) demo_b0 (header demo_b1) [] = Gives [block_copy (H := quick_sha) demo_b1] /\
    add_headers true [block_copy (H := quick_sha) demo_b1] [f] = [f; block_copy (H := quick_sha) demo_b1] /\ (block_copy (H := quick_sha) demo_b1).(sv_oldhash) <> f.(sv_nowhash).
Proof. eexists. split; [vm_compute; reflexivity|]. split; [reflexivity|]. split; [vm_compute; reflexivity|]. split; [vm_compute; reflexivity|]. vm_compute. discriminate. Qed.

(** Node 1 has the block, node 2 joins. *)
Definition demo_full : servers := Eval vm_compute in
  hashnow (H := quick_sha) ((new_servers 2560) <| sv_msg := sv_msg demo_put2.1.1 |> <| sv_msghash := sv_msghash demo_put2.1.1 |> <| sv_oldhash := demo_b2.(sv_nowhash) |>).
Definition demo_sigs : list svsi_t := [(1, replicate 64 3)].
Definition demo_sender : sigfiles := {| sf_ok := <[2560 := demo_sigs]> ∅; sf_no := ∅; sf_hdr := <[2560 := data_write demo_full false []]> ∅; sf_srv := ∅ |}.
Definition demo_joiner : joiner :=
  {| jn_headers := [demo_b2; demo_full]; jn_last := (new_servers 2048) <| sv_vtot := 1 |> <| sv_nodes := [zero_node; zero_node <| n_status := SERVER_VIP |>] |>;
     jn_files := {| sf_ok := ∅; sf_no := ∅; sf_hdr := <[2560 := data_write demo_full false []]> ∅; sf_srv := ∅ |}; jn_lists := ∅; jn_get := 2560; jn_missing := ∅; jn_fast := 0 |}.
Definition demo_open (_ _ _ : list Z) : bool := true.

Lemma demo_full_kept : kept (<[2560 := data_write demo_full false []]> ∅) demo_full.
Proof.
  split; [|discriminate|exists []; apply lookup_insert_eq]. split; cbn [demo_full sv_now sv_msg sv_div sv_vok sv_vno sv_vtot sv_nod sv_nodes]; [lia|lia|lia|reflexivity..|lia|lia|lia|split; [reflexivity|lia]|constructor].
Qed.

(** One message for each node and number, as a test. *)
Definition one_each (mp : gmap Z lmsg) : bool :=
  forallb (fun p => forallb (fun q => implb ((p.2.(lm_svid) =? q.2.(lm_svid)) && (p.2.(lm_msid) =? q.2.(lm_msid))) (p.1 =? q.1)) (elems mp)) (elems mp).

Lemma one_each_ok mp : one_each mp = true -> forall j k m n, mp !! j = Some m -> mp !! k = Some n -> m.(lm_svid) = n.(lm_svid) -> m.(lm_msid) = n.(lm_msid) -> j = k.
Proof.
  intros Ht j k m n Hm Hn E1 E2. unfold one_each in Ht. rewrite forallb_forall in Ht. apply elem_of_elems, list_elem_of_In in Hm, Hn. specialize (Ht (j, m) Hm). cbn beta in Ht. rewrite forallb_forall in Ht.
  specialize (Ht (k, n) Hn). cbn [fst snd] in Ht. rewrite E1, E2, !Z.eqb_refl in Ht. now apply Z.eqb_eq.
Qed.

Lemma demo_block_list : block_list 1 demo_keyed.
Proof.
  split.
  - rewrite demo_keyed_elems. cbn [length]. lia.
  - rewrite demo_keyed_elems. pose proof (msgs_okb [(0, demo_msg); (0, demo_msg2)] eq_refl) as Ho. inversion Ho as [|? ? H1 Ho']; inversion Ho' as [|? ? H2 _].
    apply List.Forall_cons; [split; [exact H1|reflexivity]|]. apply List.Forall_cons; [split; [exact H2|reflexivity]|]. apply List.Forall_nil.
  - apply one_each_ok. vm_compute. reflexivity.
Qed.

Lemma demo_list_stored : list_stored (H := quick_sha) 1 demo_sender (<[2560 := demo_put2.1.2]> ∅) demo_full demo_keyed.
Proof.
  split; [exact demo_full_kept|exact demo_block_list| |].
  - exists demo_srv, None, [1; 2; 3], demo_put2.1.1, demo_put2.1.2, demo_put2.2, demo_put2.1.1. split; [exact demo_keyed_put|]. split; [apply lookup_insert_eq|]. split; vm_compute; reflexivity.
  - change (get_signatures demo_sender (sv_now demo_full)) with demo_sigs. split; [reflexivity|]. repeat constructor; vm_compute; congruence.
Qed.

Lemma demo_awaits : awaits demo_open 0 demo_sigs demo_full demo_joiner.
Proof.
  split; [reflexivity| |repeat constructor|reflexivity|reflexivity]. exists demo_full. split; [exact demo_full_kept|auto].
Qed.

Lemma msglist_transfer_witness : exists data j', write_msglist demo_sender (<[2560 := demo_put2.1.2]> ∅) (sv_now demo_full) = Gives data /\
  handle_read_msglist (H := quick_sha) demo_open 2 0 data demo_joiner = Some (true, j') /\ j'.(jn_get) = 0 /\ elems j'.(jn_missing) = map (rekey 2) (elems demo_keyed).
Proof. exact (msglist_transfer (H := quick_sha) demo_open 1 2 0 demo_sender _ demo_full demo_keyed demo_joiner demo_list_stored demo_awaits). Defined.

(** * Joining through a peer *)

Section Joining.
Context `{Sha256} (sign_open : list Z -> list Z -> list Z -> bool).

Lemma read_headers_last y head data hs : read_headers y head data = Gives hs -> hs = [] \/ last hs = Some (loadhead (new_servers 0) head).
Proof.
  unfold read_headers. destruct (_ <=? _); [intros [= <-]; auto|]. set (num := _ / BLOCKSEC). destruct (0 <? num); [|discriminate]. destruct (1 <? num).
  - destruct (negb _); [discriminate|]. destruct (load_links _ _ _ _ _) as [l|]; [|discriminate]. destruct (negb _); [discriminate|]. destruct (negb _); [discriminate|]. intros [= <-]. right. apply last_snoc.
  - destruct (negb _); [discriminate|]. intros [= <-]. now right.
Qed.

Lemma new_headers_last back hs s : last hs = Some s -> new_headers back hs = [] \/ last (new_headers back hs) = Some s.
Proof.
  induction hs as [|h hs IH]; [discriminate|]. cbn [new_headers]. destruct (_ <=? _); [|now right]. intros Hl. destruct hs as [|h' hs]; [now left|]. now apply IH.
Qed.

(** Adding headers changes nothing, or the list ends with the new ones. *)
Lemma add_headers_last hs headers s : last hs = Some s -> add_headers true hs headers = headers \/ last (add_headers true hs headers) = Some s.
Proof.
  intros Hl. unfold add_headers. cbn [negb]. destruct (last headers) as [back|]; [|now right]. destruct hs as [|h hs]; [discriminate|]. destruct (negb _); [now left|].
  destruct (new_headers_last back (h :: hs) s Hl) as [->|Hn]; [left; apply app_nil_r|]. right. now rewrite last_app, Hn.
Qed.

(** C25: when a node that joins, not in fast mode and with signatures checked (no
    [SERVER_FST]), takes headers from a peer whose counts of signatures add up to
    less than 2^16, they lead to the block of the handshake of the peer, and among the signatures the peer sent for that
    block there are enough valid ones of VIP nodes the joining node knows. *)
Theorem joined_block_signed read_only mins peer_hs sync_hs sigs nods heads j j' :
  let head := peer_hs.(hs_head) in
  0 <= head.(h_vok) -> 0 <= head.(h_vno) -> head.(h_vok) + head.(h_vno) < 2 ^ 16 -> has_bits (nth_node j.(jn_last) 0).(n_status) SERVER_FST = false ->
  join_sync sign_open false read_only mins peer_hs sync_hs sigs nods heads j = Some j' -> j'.(jn_headers) <> j.(jn_headers) ->
  last j'.(jn_headers) = Some (loadhead (new_servers 0) head) /\
  few (len (filter (fun v => vote_valid sign_open j.(jn_last) head v = true) (take (Z.to_nat head.(h_vok)) (read_svsis (Z.to_nat (head.(h_vok) + head.(h_vno))) sigs)))) j.(jn_last) mins = false.
Proof.
  intros head Hok Hno Hs Hf. unfold join_sync. fold head. cbn [andb]. set (n := Z.to_nat (head.(h_vok) + head.(h_vno))). intros E. set (a := read_svsis n sigs) in *.
  assert (Hal : length a = n) by (unfold a; clear; revert sigs; induction n as [|k IH]; intros d; [reflexivity|]; cbn [read_svsis length]; now rewrite IH).
  pose proof (check_signatures_filters sign_open (jn_last j) (jn_files j) head a true Hok Hno Hs ltac:(lia) Hf) as Hc. cbv zeta in Hc.
  pose proof (check_signatures_vtot sign_open (jn_last j) (jn_files j) head a true) as Hvt.
  assert (Hhd : exists x y, (check_signatures sign_open (jn_last j) (jn_files j) head a true).1.1 = head <| h_vok := x |> <| h_vno := y |>).
  { unfold check_signatures. destruct (keep_loop _ _ 0 0 a). destruct (keep_loop _ _ _ _ l). eauto. }
  destruct (check_signatures sign_open (jn_last j) (jn_files j) head a true) as [[head' a'] [last' fl']]. cbn [fst snd] in *. destruct Hhd as (x & y & ->). destruct Hc as (Ec & _). inv_opt.
  intros Hne. apply negb_true_iff in E2. rewrite Ec in E2. unfold few in *. rewrite Hvt in E2. split; [|exact E2]. subst h j0.
  change (jn_headers (j <| jn_last ::= _ |> <| jn_files ::= _ |>)) with (jn_headers j) in E.
  destruct (read_headers _ _ _) as [hs| |] eqn:Er; try discriminate; [|injection E as <-; contradiction]. apply read_headers_last in Er as [->|Hl]; [injection E as <-; contradiction|].
  destruct hs as [|h hs]; [discriminate|]. injection E as <-. change (jn_headers (_ <| jn_headers ::= ?f |>)) with (add_headers true (h :: hs) (jn_headers j)) in *.
  destruct (add_headers_last (h :: hs) (jn_headers j) _ Hl) as [Ea|Ea]; [contradiction|]. exact Ea.
Qed.
End Joining.

(** * The list of nodes *)

Section Nodes.
Context `{Sha256}.

Lemma node_data_copy old n : node_data (peer_copy old n) = node_data n.
Proof. reflexivity. Qed.

Lemma copies_read ns : Forall node_wf ns -> nodes_read (replicate (length ns) zero_node) (concat (map node_data (map (peer_copy zero_node) ns))) = Some (map (peer_copy zero_node) ns).
Proof.
  intros Hw. rewrite map_map, <- (app_nil_r (concat _)). change (map (fun x => node_data (peer_copy zero_node x)) ns) with (map node_data ns). rewrite nodes_read_data by (rewrite ?length_replicate; auto). f_equal.
  clear Hw. induction ns as [|n ns IH]; [reflexivity|]. cbn. now rewrite IH.
Qed.

Lemma length_nodes ns : Forall node_wf ns -> length (concat (map node_data (map (peer_copy zero_node) ns))) = (128 * length ns)%nat.
Proof.
  induction 1 as [|n ns (Hp & Hm & _) _ IH]; [reflexivity|]. cbn [map concat length]. rewrite length_app, IH, node_data_copy. unfold node_data. rewrite !length_app, !length_le_bytes, Hp, Hm. lia.
Qed.

Lemma finish_nodhash s last vips : servers_finish s = Some (last, vips) -> last.(sv_nodhash) = nodes_hash last.(sv_nodes).
Proof.
  unfold servers_finish. intros E. destruct (update_viphash _) as [[s1 v]|]; [|discriminate]. cbn [fst snd] in E. injection E as <- _.
  unfold clear_undo, nodes_hash. cbn. now rewrite map_map.
Qed.

(** C38: the nodes of a finished block, as [write_servers] sends them to a node
    that joins in fast mode and has no nodes yet, are accepted by
    [handle_read_servers]: their number is the one of the header, the tree
    [check_nodes] builds of their bytes has the hash that [finish] stored in the
    header, and they become the nodes of the joining node, which takes over the
    header of the block. *)
Theorem servers_transfer s last vips a j : servers_finish s = Some (last, vips) -> srv_wf last -> j.(jn_fast) = 2 -> length j.(jn_last).(sv_nodes) = 0%nat ->
  exists data j', write_servers last last.(sv_now) = Gives data /\ handle_read_servers (header last) a data j = Some j' /\
    j'.(jn_fast) = 1 /\ header j'.(jn_last) = header last /\ j'.(jn_last).(sv_nodes) = map (peer_copy zero_node) last.(sv_nodes).
Proof.
  intros Hfin Hw Hf Hn. pose proof (finish_nodhash _ _ _ Hfin) as Hh. destruct (sw_nod _ Hw) as [En _]. unfold write_servers. rewrite Z.eqb_refl. cbn [negb]. unfold copy_nodes. rewrite En, Nat2Z.id, Nat.eqb_refl. set (ns := map (peer_copy zero_node) (sv_nodes last)).
  exists (concat (map node_data ns)), (fast_sync (header last) ns a j). split; [reflexivity|]. split.
  - unfold handle_read_servers. rewrite Hf. change (2 <? 2) with false. cbv iota. change (h_nod (header last)) with (sv_nod last). change (h_nodhash (header last)) with (sv_nodhash last). rewrite En, Nat2Z.id.
    replace (len _ =? _) with true; [|symmetry; apply Z.eqb_eq; unfold ns; rewrite length_nodes by exact (sw_nodes _ Hw); lia].
    unfold ns. rewrite copies_read by exact (sw_nodes _ Hw). rewrite check_nodes_hash, bool_decide_true by (now rewrite nodes_hash_copy). reflexivity.
  - unfold fast_sync. rewrite Hf. change (2 <? 2) with false. cbv iota. split; [reflexivity|]. split; [reflexivity|]. cbn -[peer_copy]. apply nil_length_inv in Hn. rewrite Hn, En, Nat2Z.id. cbn [length app]. rewrite Nat.sub_0_r.
    rewrite take_ge, drop_ge, app_nil_r by (rewrite length_replicate; lia). unfold ns. clear. induction (sv_nodes last) as [|n l IH]; [reflexivity|]. cbn. now rewrite IH.
Qed.
End Nodes.

(** A joining node that waits for the nodes. *)
Definition demo_waiting : joiner :=
  {| jn_headers := []; jn_last := new_servers 0; jn_files := demo_fl; jn_lists := ∅; jn_get := 0; jn_missing := ∅; jn_fast := 2 |}.

Lemma servers_transfer_witness :
  exists last vips data j', servers_finish (H := toy_sha) demo_srv = Some (last, vips) /\ length last.(sv_nodes) = 3%nat /\
    write_servers last last.(sv_now) = Gives data /\ handle_read_servers (H := toy_sha) (header last) [] data demo_waiting = Some j' /\
    j'.(jn_last).(sv_nodes) = map (peer_copy zero_node) last.(sv_nodes).
Proof.
  assert (Hok : match servers_finish (H := toy_sha) demo_srv with Some (last, _) => srv_wfb last && (length last.(sv_nodes) =? 3)%nat | None => false end = true) by (vm_compute; reflexivity).
  destruct (servers_finish (H := toy_sha) demo_srv) as [[last vips]|] eqn:E; [|discriminate Hok]. apply andb_true_iff in Hok as [Hw Hn].
  destruct (servers_transfer (H := toy_sha) demo_srv last vips [] demo_waiting E (srv_wfb_ok _ Hw) eq_refl eq_refl) as (data & j' & H1 & H2 & _ & _ & H3).
  exists last, vips, data, j'. split_and!; [reflexivity|now apply Nat.eqb_eq|exact H1|exact H2|exact H3].
Defined.

(** Node 2 joins through node 1, whose key signed the block. *)
Definition demo_signed : handshake := {| hs_head := (header demo_b1) <| h_vok := 1 |>; hs_msid := 0; hs_msha := zero_hash; hs_do_sync := false |}.
Definition demo_start : joiner := demo_joiner <| jn_headers := [] |>.

Lemma joined_block_signed_witness : exists j', join_sync (H := quick_sha) demo_open false false 0 demo_signed demo_own (svsi_bytes (1, replicate 64 3)) [] [] demo_start = Some j' /\
  last j'.(jn_headers) = Some (loadhead (H := quick_sha) (new_servers 0) demo_signed.(hs_head)) /\
  few (len (filter (fun v => vote_valid demo_open demo_start.(jn_last) demo_signed.(hs_head) v = true) (take 1 (read_svsis 1 (svsi_bytes (1, replicate 64 3)))))) demo_start.(jn_last) 0 = false.
Proof.
  eexists. split; [vm_compute; reflexivity|].
  refine (joined_block_signed (H := quick_sha) demo_open false 0 demo_signed demo_own (svsi_bytes (1, replicate 64 3)) [] [] demo_start _ _ _ _ _ _ _).
  - discriminate.
  - discriminate.
  - reflexivity.
  - reflexivity.
  - vm_compute. reflexivity.
  - discriminate.
Defined.

(** The header of a block is stored with the number of signatures the peer sent,
    not with that of the valid ones. *)
Definition demo_open1 (_ _ sig : list Z) : bool := bool_decide (sig = replicate 64 3).
Definition demo_sender2 : sigfiles := demo_sender <| sf_ok := <[2560 := demo_sigs ++ [(1, replicate 64 4)]]> ∅ |>.

Theorem claimed_votes_stored :
  exists data j', write_msglist demo_sender2 (<[2560 := demo_put2.1.2]> ∅) 2560 = Gives data /\ handle_read_msglist (H := quick_sha) demo_open1 2 0 data demo_joiner = Some (true, j') /\
    option_map sv_vok (header_get j'.(jn_files).(sf_hdr) (new_servers 2560)) = Some 2 /\ get_signatures j'.(jn_files) 2560 = demo_sigs.
Proof. eexists _, _. split; [vm_compute; reflexivity|]. split; [vm_compute; reflexivity|]. split; vm_compute; reflexivity. Qed.
