(* ===== verification/Archive.v ===== *)
(** Archives of old blocks: [createArch] and [getFileHandle] of
    [common/helper/libarchive.cpp], the reader of files of a block
    ([common/helper/blockfilereader.cpp]) and the archiving of old blocks
    ([common/helper/blocks.cpp]). *)

From stdpp Require Import base gmap list.
From Stdlib Require Import ZArith Lia.
From S2P Require Import Prelude Params Snapshot.

Definition BLOCKS_COMPRESSED_SHIFT := 4096.

(** [int] of a value. *)
Definition to_int (x : Z) : Z := (x + 2 ^ 31) mod 2 ^ 32 - 2 ^ 31.

(** * The directory of a block *)

(** The files of [def_file_index]. *)
Inductive def_file :=
  | header_hdr
  | servers_srv
  | signatures_ok
  | signatures_no
  | hlog_hlg
  | msglist_dat.

#[export] Instance def_file_dec : EqDecision def_file.
Proof. solve_decision. Defined.

(** The fixed files and the messages [%02x_%04x_%08x.msg].  The name of a
    message is the number of its type, node and [msid]; as all fields have a
    fixed width the order of the numbers is that of the names. *)
Record block_dir := { bd_def : def_file -> option (list Z); bd_msg : gmap Z (list Z) }.

Definition msg_name (t svid msid : Z) : Z := t * 2 ^ 48 + svid * 2 ^ 32 + msid.

Inductive file_name :=
  | DefName (f : def_file)
  | MsgName (t svid msid : Z)
  | OtherName.

Definition dir_file (d : block_dir) (name : file_name) : option (list Z) :=
  match name with
  | DefName f => d.(bd_def) f
  | MsgName t svid msid => d.(bd_msg) !! msg_name t svid msid
  | OtherName => None
  end.

(** * Making an archive *)

Definition size_of (l : list Z) : Z := u32 (Z.of_nat (length l)).

(** The fixed files behind the header, with their sizes. *)
Definition def_files : list def_file := [servers_srv; signatures_ok; signatures_no; hlog_hlg; msglist_dat].
Definition def_index (d : block_dir) : list (list Z) := map (fun f => default [] (d.(bd_def) f)) def_files.

(** The messages that are not empty, in the order of their names. *)
Definition msg_index (d : block_dir) : list (Z * list Z) := elems (filter (fun p => 0 < Z.of_nat (length p.2)) d.(bd_msg)).

(** The jump positions of files; that of an empty fixed file is 0. *)
Fixpoint def_jumps (offset : Z) (l : list (list Z)) : list Z * Z :=
  match l with
  | [] => ([], offset)
  | f :: l => let '(js, o) := def_jumps (u32 (offset + size_of f)) l in ((if 0 <? size_of f then offset else 0) :: js, o)
  end.
Fixpoint msg_jumps (offset : Z) (l : list (list Z)) : list Z :=
  match l with
  | [] => []
  | f :: l => offset :: msg_jumps (u32 (offset + size_of f)) l
  end.

(** [createArch]: [None] when it fails, which an absent or an empty header
    makes it do. *)
Definition createArch (d : block_dir) : option (list Z) :=
  match d.(bd_def) header_hdr with
  | None | Some [] => None
  | Some h =>
      let msgs := (msg_index d).*2 in
      let offset := u32 (size_of h + (5 + Z.of_nat (length msgs)) * 4) in
      let '(js, offset) := def_jumps offset (def_index d) in
      let defs := concat (map (fun f => if 0 <? size_of f then f else []) (def_index d)) in
      Some (h ++ concat (map (le_bytes 4) (js ++ msg_jumps offset msgs)) ++ defs ++ concat msgs)
  end.

(** * Finding a file *)

Definition sizeof_ServersHeader := 218.

(** A read of [n] bytes at [off]; [None]: the archive ends before. *)
Definition arch_read (arch : list Z) (off : Z) (n : nat) : option Z :=
  if off + Z.of_nat n <=? Z.of_nat (length arch) then Some (rdz arch (Z.to_nat off) n) else None.

(** The next file behind a fixed one. *)
Definition next_jump (js : list Z) (size : Z) : Z := default (u32 size) (head (filter (fun j => 0 < j) js)).

(** The search in the list of messages from record [i] on. *)
Fixpoint find_record (arch : list Z) (list_at svid msid : Z) (n : nat) (i num : Z) : option (option (Z * Z)) :=
  match n with
  | O => Some None
  | S n =>
      let* node := arch_read arch (list_at + 36 + 38 * i) 2 in
      let* id := arch_read arch (list_at + 36 + 38 * i + 2) 4 in
      let* _ := arch_read arch (list_at + 36 + 38 * i + 6) 32 in
      if (node =? svid) && (id =? msid) then
        let* offset := arch_read arch (sizeof_ServersHeader + 20 + 4 * i) 4 in
        let* next := (if i <? num - 1 then arch_read arch (sizeof_ServersHeader + 20 + 4 * i + 4) 4 else Some (u32 (Z.of_nat (length arch)))) in
        Some (Some (offset, u64 (next - offset)))
      else find_record arch list_at svid msid n (i + 1) num
  end.

(** [getFileHandle]: offset and size of a file, [Some None] when it returns
    false, [None] when a read passes the end of the archive. *)
Definition getFileHandle (arch : list Z) (name : file_name) : option (option (Z * Z)) :=
  let size := Z.of_nat (length arch) in
  check sizeof_ServersHeader <=? size in
  let* j1 := arch_read arch sizeof_ServersHeader 4 in
  let* j2 := arch_read arch (sizeof_ServersHeader + 4) 4 in
  let* j3 := arch_read arch (sizeof_ServersHeader + 8) 4 in
  let* j4 := arch_read arch (sizeof_ServersHeader + 12) 4 in
  let* j5 := arch_read arch (sizeof_ServersHeader + 16) 4 in
  let def j js := if j =? 0 then Some None else Some (Some (j, u64 (next_jump js size - j))) in
  match name with
  | MsgName _ svid msid =>
      if j5 =? 0 then Some None
      else
        let* num := arch_read arch j5 4 in
        let* _ := arch_read arch (j5 + 4) 32 in
        find_record arch j5 svid msid (Z.to_nat num) 0 num
  | DefName msglist_dat =>
      if j5 =? 0 then Some None
      else if rdz arch 8 4 =? 0 then Some (Some (j5, u64 (size - j5)))
      else
        let* first := arch_read arch (sizeof_ServersHeader + 20) 4 in
        Some (Some (j5, u32 (first - j5)))
  | DefName header_hdr => Some (Some (0, u64 (next_jump [j1; j2; j3; j4; j5] size)))
  | DefName servers_srv => def j1 [j2; j3; j4; j5]
  | DefName signatures_ok => def j2 [j3; j4; j5]
  | DefName signatures_no => def j3 [j4; j5]
  | DefName hlog_hlg => def j4 [j5]
  | OtherName => Some None
  end.

(** * Reading a file of a block *)

(** [BlockFileReader]: the open file and its position, begin and size of the
    part. *)
Record reader := { r_file : list Z; r_pos : Z; m_seek : Z; m_fileSize : Z }.

Definition openFile (f : list Z) : reader := {| r_file := f; r_pos := 0; m_seek := 0; m_fileSize := Z.of_nat (length f) |}.
Definition openFromArch (arch : list Z) (name : file_name) : option (option reader) :=
  let* r := getFileHandle arch name in
  Some (option_map (fun '(off, size) => {| r_file := arch; r_pos := off; m_seek := off; m_fileSize := size |}) r).

Definition isOpen (r : reader) : bool := 0 <? r.(m_fileSize).
Definition getSize (r : reader) : Z := u32 r.(m_fileSize).

(** [read]: [None] is a failed assertion. *)
Definition reader_read (size : Z) (r : reader) : option (list Z * reader) :=
  let cur := to_int r.(r_pos) in
  check 0 <=? cur in
  let end_ := u64 (r.(m_fileSize) + r.(m_seek)) in
  let size := if end_ <? u32 (size + cur) then u32 (end_ - cur) else size in
  let got := take (Z.to_nat size) (drop (Z.to_nat r.(r_pos)) r.(r_file)) in
  Some (got, r <| r_pos ::= Z.add (Z.of_nat (length got)) |>).

Inductive whence :=
  | SEEK_SET
  | SEEK_CUR
  | SEEK_END.

Definition reader_lseek (position : Z) (w : whence) (r : reader) : bool * reader :=
  let offset := i64 match w with SEEK_CUR => position | SEEK_END => r.(m_fileSize) + position | SEEK_SET => position + r.(m_seek) end in
  let end_ := i64 (r.(m_fileSize) + r.(m_seek)) in
  let to := if end_ <? offset then end_ else match w with SEEK_CUR => r.(r_pos) + offset | _ => offset end in
  if to <? 0 then (false, r) else (true, r <| r_pos := to |>).

(** * The store of blocks *)

(** Directories, archives, and the blocks whose directory [und] is left. *)
Record block_store := { bs_dir : gmap Z block_dir; bs_arch : gmap Z (list Z); bs_und : gset Z }.

(** The constructor from a path: the file of the directory if it exists, that of
    the archive otherwise; [Some None] when nothing is open. *)
Definition open_block_file (s : block_store) (block : Z) (name : file_name) : option (option reader) :=
  match s.(bs_dir) !! block ≫= fun d => dir_file d name with
  | Some f => Some (Some (openFile f))
  | None =>
      match s.(bs_arch) !! block with
      | Some a => openFromArch a name
      | None => Some None
      end
  end.

(** [remove_block] and [remove_block_exclude] of the directory. *)
Definition remove_block (block : Z) (s : block_store) : block_store := s <| bs_dir ::= delete block |> <| bs_und ::= fun u => u ∖ {[block]} |>.
Definition remove_block_exclude (block : Z) (s : block_store) : block_store := s <| bs_dir ::= delete block |>.

(** The loop of [arch_old_blocks]. *)
Fixpoint arch_loop (n : nat) (time : Z) (s : block_store) : block_store :=
  match n with
  | O => s
  | S n =>
      let time := u32 (time - BLOCKSEC) in
      match s.(bs_dir) !! time with
      | None => s
      | Some d =>
          match d.(bd_def) header_hdr with
          | None => s
          | Some _ =>
              match createArch d with
              | Some a =>
                  let s := s <| bs_arch ::= <[time := a]> |> in
                  arch_loop n time (if is_snapshot_directory time then remove_block_exclude time s else remove_block time s)
              | None => arch_loop n time (s <| bs_arch ::= delete time |>)
              end
          end
      end
  end.
Definition arch_old_blocks (currentTime : Z) (s : block_store) : block_store :=
  let shift := if BLOCKS_COMPRESSED_SHIFT <=? BLOCKDIV then BLOCKDIV + 1 else BLOCKS_COMPRESSED_SHIFT in
  arch_loop 50 (u32 (currentTime - (shift - 1) * BLOCKSEC)) s.
