(* ===== verification/ArchiveProps.v ===== *)
(** Theorems on the archives of old blocks: a file read from the archive is the
    file of the directory the archive was made of. *)

From stdpp Require Import base gmap list.
From Stdlib Require Import ZArith Lia.
From S2P Require Import Prelude Params Message MsgFile MsgHead Snapshot Archive.

(** * The layout of an archive *)

(** [f] lies at [off] in [a]. *)
Definition part_of (a : list Z) (off : Z) (f : list Z) : Prop := exists pre post, a = pre ++ f ++ post /\ Z.of_nat (length pre) = off.

Lemma part_app a off f g : part_of a off (f ++ g) -> part_of a off f /\ part_of a (off + Z.of_nat (length f)) g.
Proof.
  intros (pre & post & -> & Hl). split.
  - exists pre, (g ++ post). now rewrite <- !app_assoc.
  - exists (pre ++ f), post. rewrite <- !app_assoc, length_app. split; [reflexivity|lia].
Qed.

Lemma part_whole a : part_of a 0 a.
Proof. exists [], []. now rewrite app_nil_r. Qed.

(** Reading inside a part. *)
Lemma part_read a off f x n : part_of a off f -> 0 <= x -> x + Z.of_nat n <= Z.of_nat (length f) -> arch_read a (off + x) n = Some (rdz f (Z.to_nat x) n).
Proof.
  intros (pre & post & -> & Hl) Hx Hn. unfold arch_read. rewrite !length_app, (proj2 (Z.leb_le _ _)) by lia. f_equal. unfold rdz. f_equal.
  rewrite rd_app_skip by lia. rewrite !rd_in by (rewrite ?length_app; lia). rewrite drop_app_le, take_app_le by (rewrite ?length_drop; lia).
  replace (Z.to_nat (off + x) - length pre)%nat with (Z.to_nat x) by lia. reflexivity.
Qed.

Lemma length_table l : length (concat (map (le_bytes 4) l)) = (4 * length l)%nat.
Proof. induction l as [|x l IH]; [reflexivity|]. cbn [map concat length]. rewrite length_app, length_le_bytes, IH. lia. Qed.

(** An entry of the table of positions. *)
Lemma table_read a off l i v : part_of a off (concat (map (le_bytes 4) l)) -> l !! i = Some v -> 0 <= v < 2 ^ 32 -> arch_read a (off + 4 * Z.of_nat i) 4 = Some v.
Proof.
  intros Hp Hi Hv. pose proof (lookup_lt_Some _ _ _ Hi) as Hl. rewrite (part_read _ _ _ _ _ Hp) by (rewrite ?length_table; lia). f_equal.
  rewrite <- (take_drop_middle l i v Hi), map_app, concat_app. cbn [map concat]. unfold rdz.
  rewrite rd_app_skip by (rewrite length_table, length_take; lia). rewrite length_table, length_take.
  replace (Z.to_nat (4 * Z.of_nat i) - 4 * (i `min` length l))%nat with 0%nat by lia. rewrite rd_app_here by apply length_le_bytes.
  now apply le_val_bytes_small.
Qed.

(** Sizes of lists of files. *)
Definition total (l : list (list Z)) : Z := Z.of_nat (length (concat l)).

Lemma total_cons f l : total (f :: l) = Z.of_nat (length f) + total l.
Proof. unfold total. cbn. rewrite length_app. lia. Qed.

Lemma total_pos l : 0 <= total l.
Proof. unfold total. lia. Qed.

Lemma total_take l i f : l !! i = Some f -> total (take (S i) l) = total (take i l) + Z.of_nat (length f) /\ total (take (S i) l) <= total l.
Proof.
  intros Hi. rewrite (take_S_r _ _ _ Hi). unfold total. rewrite concat_app. cbn. rewrite app_nil_r, length_app. split; [lia|].
  rewrite <- (take_drop (S i) l) at 2. rewrite (take_S_r _ _ _ Hi), concat_app, concat_app. cbn. rewrite app_nil_r, !length_app. lia.
Qed.

(** File [i] of a list of files. *)
Lemma part_nth a off l i f : part_of a off (concat l) -> l !! i = Some f -> part_of a (off + total (take i l)) f.
Proof.
  intros Hp Hi. rewrite <- (take_drop_middle l i f Hi), concat_app in Hp. cbn [concat] in Hp.
  apply part_app in Hp as [_ Hp]. now apply part_app in Hp as [Hp _].
Qed.

Lemma size_small f : Z.of_nat (length f) < 2 ^ 32 -> size_of f = Z.of_nat (length f).
Proof. intros Hf. apply u32_small. lia. Qed.

Lemma msg_jumps_nth off l i f : 0 <= off -> off + total l < 2 ^ 32 -> l !! i = Some f -> msg_jumps off l !! i = Some (off + total (take i l)).
Proof.
  revert off i. induction l as [|g l IH]; intros off i Ho Ht Hi; [discriminate|]. rewrite total_cons in Ht. pose proof (total_pos l).
  destruct i as [|i]; cbn; [f_equal; unfold total; cbn; lia|]. rewrite size_small, u32_small by lia. cbn in Hi.
  rewrite (IH _ i) by (assumption || lia). f_equal. rewrite total_cons. lia.
Qed.

(** The positions of the fixed files. *)
Definition jump (off : Z) (f : list Z) : Z := if 0 <? Z.of_nat (length f) then off else 0.

Fixpoint jumps (off : Z) (l : list (list Z)) : list Z :=
  match l with
  | [] => []
  | f :: l => jump off f :: jumps (off + Z.of_nat (length f)) l
  end.

Lemma length_jumps off l : length (jumps off l) = length l.
Proof. revert off; induction l; intros off; cbn; auto. Qed.

Lemma def_jumps_spec off l : 0 <= off -> off + total l < 2 ^ 32 -> def_jumps off l = (jumps off l, off + total l).
Proof.
  revert off. induction l as [|f l IH]; intros off Ho Ht; [cbn; now rewrite Z.add_0_r|]. rewrite total_cons in *. pose proof (total_pos l).
  cbn [def_jumps]. rewrite size_small, u32_small, IH by lia. now rewrite Z.add_assoc.
Qed.

Lemma jump_range off l j : 0 <= off -> off + total l < 2 ^ 32 -> j ∈ jumps off l -> 0 <= j < 2 ^ 32.
Proof.
  revert off. induction l as [|f l IH]; intros off Ho Ht Hj; [now apply elem_of_nil in Hj|]. rewrite total_cons in Ht. pose proof (total_pos l).
  apply elem_of_cons in Hj as [->|Hj]; [unfold jump; destruct (0 <? _); lia|]. apply (IH (off + Z.of_nat (length f))); (assumption || lia).
Qed.

(** The first file that is not empty begins where the list does. *)
Lemma next_jump_here off l size : 0 < off -> (exists f, f ∈ l /\ f <> []) -> next_jump (jumps off l) size = off.
Proof.
  intros Ho (f & Hf & Hn). unfold next_jump. revert off Ho. induction l as [|g l IH]; intros off Ho; [now apply elem_of_nil in Hf|].
  cbn [jumps]. unfold jump. destruct g as [|x g]; cbn [length].
  - change (0 <? Z.of_nat 0) with false. cbv iota. rewrite filter_cons_False by (cbv beta; lia). rewrite Z.add_0_r. apply IH; [|exact Ho].
    apply elem_of_cons in Hf as [->|Hf]; [contradiction|exact Hf].
  - rewrite (proj2 (Z.ltb_lt _ _)) by lia. rewrite filter_cons_True by (cbv beta; lia). reflexivity.
Qed.

(** * Directories that are archived *)

Definition name_svid (k : Z) : Z := k / 2 ^ 32 mod 2 ^ 16.
Definition name_msid (k : Z) : Z := k mod 2 ^ 32.

(** A directory with its header and its list of messages: the messages of the
    directory are those of the list, in the order of their names. *)
Record dir_ok (d : block_dir) : Prop := {
  do_head : exists h, d.(bd_def) header_hdr = Some h /\ length h = 218%nat /\ rdz h 8 4 = Z.of_nat (size d.(bd_msg));
  do_names : forall k f, d.(bd_msg) !! k = Some f -> f <> [] /\ exists svid msid, k = msg_name MSGTYPE_MSG svid msid /\ 0 <= svid < 2 ^ 16 /\ 0 <= msid < 2 ^ 32;
  do_list : exists ml, d.(bd_def) msglist_dat = Some ml /\ rdz ml 0 4 = Z.of_nat (size d.(bd_msg)) /\ 36 + 38 * Z.of_nat (size d.(bd_msg)) <= Z.of_nat (length ml) /\
    forall i k, (elems d.(bd_msg)).*1 !! i = Some k -> rdz ml (36 + 38 * i) 2 = name_svid k /\ rdz ml (36 + 38 * i + 2) 4 = name_msid k;
  do_total : 218 + 4 * (5 + Z.of_nat (size d.(bd_msg))) + total (def_index d) + total (elems d.(bd_msg)).*2 < 2 ^ 31
}.

Lemma name_fields svid msid : 0 <= svid < 2 ^ 16 -> 0 <= msid < 2 ^ 32 ->
  name_svid (msg_name MSGTYPE_MSG svid msid) = svid /\ name_msid (msg_name MSGTYPE_MSG svid msid) = msid.
Proof.
  intros Hs Hm. unfold name_svid, name_msid, msg_name, MSGTYPE_MSG. split.
  - replace (3 * 2 ^ 48 + svid * 2 ^ 32 + msid) with (msid + (3 * 2 ^ 16 + svid) * 2 ^ 32) by lia. rewrite Z.div_add, Z.div_small by lia.
    rewrite Z.add_0_l, Z.add_comm, Z.mod_add by lia. apply Z.mod_small. lia.
  - replace (3 * 2 ^ 48 + svid * 2 ^ 32 + msid) with (msid + (3 * 2 ^ 16 + svid) * 2 ^ 32) by lia. rewrite Z.mod_add by lia. apply Z.mod_small. lia.
Qed.

Lemma msg_index_all d : dir_ok d -> msg_index d = elems d.(bd_msg).
Proof.
  intros O. unfold msg_index. f_equal. apply map_filter_id. intros k f Hf. destruct (do_names _ O k f Hf) as [Hn _]. cbn. destruct f; [contradiction|]. cbn [length]. lia.
Qed.

Lemma length_elems {A} (m : gmap Z A) : length (elems m) = size m.
Proof. now rewrite elems_perm, length_map_to_list. Qed.

(** The archive of such a directory. *)
Definition files_at (d : block_dir) : Z := 218 + 4 * (5 + Z.of_nat (size d.(bd_msg))).

Lemma archive_layout d : dir_ok d -> exists a h, createArch d = Some a /\ d.(bd_def) header_hdr = Some h /\ part_of a 0 h /\
  part_of a 218 (concat (map (le_bytes 4) (jumps (files_at d) (def_index d) ++ msg_jumps (files_at d + total (def_index d)) (elems d.(bd_msg)).*2))) /\
  part_of a (files_at d) (concat (def_index d)) /\ part_of a (files_at d + total (def_index d)) (concat (elems d.(bd_msg)).*2) /\
  Z.of_nat (length a) = files_at d + total (def_index d) + total (elems d.(bd_msg)).*2.
Proof.
  intros O. destruct (do_head _ O) as (h & Eh & Hh & _). pose proof (do_total _ O) as Ht. pose proof (total_pos (def_index d)). pose proof (total_pos (elems d.(bd_msg)).*2).
  unfold createArch. rewrite Eh, (msg_index_all d O). destruct h as [|x h']; [discriminate|]. set (h := x :: h') in *.
  rewrite length_fmap, length_elems, size_small, Hh by (rewrite Hh; lia).
  rewrite u32_small by lia. replace (Z.of_nat 218 + (5 + Z.of_nat (size (bd_msg d))) * 4) with (files_at d) by (unfold files_at; lia).
  assert (Hf : files_at d + total (def_index d) + total (elems d.(bd_msg)).*2 < 2 ^ 31) by (unfold files_at; lia). unfold files_at in Hf at 1. fold (files_at d).
  assert (Hp : 0 <= files_at d) by (unfold files_at; lia). rewrite def_jumps_spec by (unfold files_at in *; lia).
  set (T := concat (map (le_bytes 4) _)).
  assert (ED : concat (map (fun f => if 0 <? size_of f then f else []) (def_index d)) = concat (def_index d)).
  { assert (HD : forall l, total l < 2 ^ 32 -> map (fun f => if 0 <? size_of f then f else []) l = l); [|now rewrite HD by lia].
    induction l as [|f l IH]; intros Hl; [reflexivity|]. rewrite total_cons in Hl. pose proof (total_pos l). cbn [map]. rewrite IH, size_small by lia. f_equal. destruct f; [reflexivity|].
    now rewrite (proj2 (Z.ltb_lt _ _)) by (cbn [length]; lia). }
  rewrite ED. assert (HT : Z.of_nat (length T) = 4 * (5 + Z.of_nat (size (bd_msg d)))).
  { unfold T. rewrite length_table, length_app, length_jumps. unfold def_index. rewrite length_map. cbn [length def_files].
    assert (Hm : forall o l, length (msg_jumps o l) = length l) by (intros o l; revert o; induction l; intros o; cbn; auto). rewrite Hm, length_fmap, length_elems. lia. }
  eexists _, h. split; [reflexivity|]. split; [reflexivity|]. set (a := h ++ T ++ _ ++ _).
  pose proof (part_whole a) as P. unfold a at 2 in P. apply part_app in P as [P1 P]. apply part_app in P as [P2 P]. apply part_app in P as [P3 P4].
  rewrite Hh in *. change (0 + Z.of_nat 218) with 218 in *. rewrite HT in *. fold (files_at d) in P3, P4. split_and!; try assumption.
  unfold a. rewrite !length_app, !Nat2Z.inj_add, HT, Hh. unfold files_at, total. lia.
Qed.

(** * Every file is found *)

(** The positions of the fixed files. *)
Lemma archive_jumps d a : dir_ok d ->
  part_of a 218 (concat (map (le_bytes 4) (jumps (files_at d) (def_index d) ++ msg_jumps (files_at d + total (def_index d)) (elems d.(bd_msg)).*2))) ->
  forall i j, jumps (files_at d) (def_index d) !! i = Some j -> arch_read a (218 + 4 * Z.of_nat i) 4 = Some j.
Proof.
  intros O Hp i j Hj. eapply table_read; [exact Hp|rewrite lookup_app_l by (apply lookup_lt_Some in Hj; exact Hj); exact Hj|].
  pose proof (do_total _ O) as Ht. pose proof (total_pos (elems d.(bd_msg)).*2).
  apply (jump_range (files_at d) (def_index d)); [unfold files_at; lia|unfold files_at; lia|]. now apply list_elem_of_lookup_2 in Hj.
Qed.

(** The position of message [i]. *)
Lemma archive_msg_jump d a i f : dir_ok d ->
  part_of a 218 (concat (map (le_bytes 4) (jumps (files_at d) (def_index d) ++ msg_jumps (files_at d + total (def_index d)) (elems d.(bd_msg)).*2))) ->
  (elems d.(bd_msg)).*2 !! i = Some f ->
  arch_read a (sizeof_ServersHeader + 20 + 4 * Z.of_nat i) 4 = Some (files_at d + total (def_index d) + total (take i (elems d.(bd_msg)).*2)).
Proof.
  intros O Hp Hi. pose proof (do_total _ O) as Ht. pose proof (total_take _ _ _ Hi) as [Hs1 Hs2]. pose proof (total_pos (def_index d)).
  pose proof (total_pos (take i (elems d.(bd_msg)).*2)).
  assert (Hm : msg_jumps (files_at d + total (def_index d)) (elems d.(bd_msg)).*2 !! i = Some (files_at d + total (def_index d) + total (take i (elems d.(bd_msg)).*2))).
  { apply (msg_jumps_nth _ _ _ f); [unfold files_at; lia|unfold files_at; lia|exact Hi]. }
  replace (sizeof_ServersHeader + 20 + 4 * Z.of_nat i) with (218 + 4 * Z.of_nat (5 + i)) by (unfold sizeof_ServersHeader; lia).
  eapply table_read; [exact Hp| |unfold files_at in *; lia]. rewrite lookup_app_r; rewrite length_jumps; unfold def_index at 1; rewrite length_map; cbn [length def_files]; [|lia].
  replace (5 + i - 5)%nat with i by lia. exact Hm.
Qed.

(** The search in the list of messages stops at the record of the message. *)
Lemma find_record_at a at_ ml svid msid num n : forall i k,
  part_of a at_ ml -> (forall j, (i <= j <= i + k)%nat -> 36 + 38 * Z.of_nat j + 38 <= Z.of_nat (length ml)) ->
  (forall j, (i <= j < i + k)%nat -> (rdz ml (36 + 38 * j) 2, rdz ml (36 + 38 * j + 2) 4) <> (svid, msid)) ->
  rdz ml (36 + 38 * (i + k)) 2 = svid -> rdz ml (36 + 38 * (i + k) + 2) 4 = msid -> (k < n)%nat ->
  find_record a at_ svid msid n (Z.of_nat i) num =
    let* offset := arch_read a (sizeof_ServersHeader + 20 + 4 * Z.of_nat (i + k)) 4 in
    let* next := (if Z.of_nat (i + k) <? num - 1 then arch_read a (sizeof_ServersHeader + 20 + 4 * Z.of_nat (i + k) + 4) 4 else Some (u32 (Z.of_nat (length a)))) in
    Some (Some (offset, u64 (next - offset))).
Proof.
  induction n as [|n IH]; intros i k Hp Hl Hn Hs Hm Hk; [lia|]. cbn [find_record].
  pose proof (Hl i ltac:(lia)) as Hli.
  rewrite <- !Z.add_assoc, (part_read a at_ ml (36 + 38 * Z.of_nat i) 2 Hp) by lia.
  rewrite (part_read a at_ ml (36 + (38 * Z.of_nat i + 2)) 4 Hp), (part_read a at_ ml (36 + (38 * Z.of_nat i + 6)) 32 Hp) by lia.
  replace (Z.to_nat (36 + 38 * Z.of_nat i)) with (36 + 38 * i)%nat by lia. replace (Z.to_nat (36 + (38 * Z.of_nat i + 2))) with (36 + 38 * i + 2)%nat by lia.
  destruct k as [|k].
  - rewrite Nat.add_0_r in *. rewrite Hs, Hm, !Z.eqb_refl. reflexivity.
  - destruct (_ && _) eqn:E.
    + apply andb_true_iff in E as [E1%Z.eqb_eq E2%Z.eqb_eq]. destruct (Hn i ltac:(lia)). congruence.
    + replace (Z.of_nat i + 1) with (Z.of_nat (S i)) by lia. replace (i + S k)%nat with (S i + k)%nat in * by lia.
      rewrite (IH (S i) k Hp); [now rewrite <- !Z.add_assoc|intros j Hj; apply Hl; lia|intros j Hj; apply Hn; lia|assumption..|lia].
Qed.

(** The positions read by [getFileHandle]. *)
Definition def_content (d : block_dir) (f : def_file) : list Z := default [] (d.(bd_def) f).
Definition def_pos (d : block_dir) (i : nat) : Z := files_at d + total (take i (def_index d)).

Lemma jumps_five d : jumps (files_at d) (def_index d) =
  [jump (def_pos d 0) (def_content d servers_srv); jump (def_pos d 1) (def_content d signatures_ok); jump (def_pos d 2) (def_content d signatures_no);
   jump (def_pos d 3) (def_content d hlog_hlg); jump (def_pos d 4) (def_content d msglist_dat)].
Proof.
  unfold def_index, def_pos, def_index. cbn [map def_files take jumps]. fold (def_content d servers_srv) (def_content d signatures_ok) (def_content d signatures_no) (def_content d hlog_hlg) (def_content d msglist_dat).
  rewrite !total_cons. unfold total. cbn [concat length]. f_equal; [f_equal; lia|]. f_equal; [f_equal; lia|]. f_equal; [f_equal; lia|]. f_equal; [f_equal; lia|]. f_equal. f_equal. lia.
Qed.

Lemma jumps_suffix d i : (i <= 5)%nat -> drop i (jumps (files_at d) (def_index d)) = jumps (def_pos d i) (drop i (def_index d)).
Proof.
  unfold def_pos. generalize (files_at d) as o, (def_index d) as l. intros o l _. revert o l. induction i as [|i IH]; intros o l; [unfold total; cbn; now rewrite drop_0, Z.add_0_r|].
  destruct l as [|f l]; [reflexivity|]. cbn [jumps drop take]. rewrite IH, total_cons. f_equal. lia.
Qed.

Lemma jump_full off f : f <> [] -> jump off f = off.
Proof. intros Hf. unfold jump. destruct f; [contradiction|]. now rewrite (proj2 (Z.ltb_lt _ _)) by (cbn [length]; lia). Qed.

Lemma def_pos_next d i c : def_index d !! i = Some c -> def_pos d (S i) = def_pos d i + Z.of_nat (length c).
Proof. intros Hi. unfold def_pos. destruct (total_take _ _ _ Hi) as [-> _]. lia. Qed.

Lemma def_pos_range d i : dir_ok d -> 0 < def_pos d i /\ def_pos d i <= files_at d + total (def_index d) /\ files_at d + total (def_index d) + total (elems d.(bd_msg)).*2 < 2 ^ 31.
Proof.
  intros O. pose proof (do_total _ O). pose proof (total_pos (take i (def_index d))). unfold def_pos. fold (files_at d) in *. unfold files_at at 1. split_and!; [lia| |assumption].
  rewrite <- (take_drop i (def_index d)) at 2. unfold total. rewrite concat_app, length_app. lia.
Qed.

(** A fixed file before the list of messages. *)
Lemma next_def d i c size : dir_ok d -> (i < 4)%nat -> def_index d !! i = Some c ->
  u64 (next_jump (drop (S i) (jumps (files_at d) (def_index d))) size - def_pos d i) = Z.of_nat (length c).
Proof.
  intros O Hi Hc. rewrite jumps_suffix by lia. destruct (def_pos_range d (S i) O) as (H1 & H2 & H3). pose proof (total_pos (elems d.(bd_msg)).*2).
  destruct (do_list _ O) as (ml & Em & _ & Hml & _). rewrite next_jump_here; [|lia|].
  - rewrite (def_pos_next d i c Hc). unfold u64. destruct (def_pos_range d i O) as (H4 & _). rewrite (def_pos_next d i c Hc) in *. rewrite Z.mod_small; lia.
  - exists ml. split; [|intros ->; cbn in Hml; lia]. apply list_elem_of_lookup. exists (4 - S i)%nat. rewrite lookup_drop. replace (S i + (4 - S i))%nat with 4%nat by lia.
    unfold def_index. cbn. now rewrite Em.
Qed.

Section Handle.
Context (d : block_dir) (a h : list Z).
Hypothesis ok : dir_ok d.
Hypothesis head_at : part_of a 0 h.
Hypothesis head_is : d.(bd_def) header_hdr = Some h.
Hypothesis table_at : part_of a 218 (concat (map (le_bytes 4) (jumps (files_at d) (def_index d) ++ msg_jumps (files_at d + total (def_index d)) (elems d.(bd_msg)).*2))).
Hypothesis defs_at : part_of a (files_at d) (concat (def_index d)).
Hypothesis msgs_at : part_of a (files_at d + total (def_index d)) (concat (elems d.(bd_msg)).*2).
Hypothesis size_is : Z.of_nat (length a) = files_at d + total (def_index d) + total (elems d.(bd_msg)).*2.

Lemma jump_reads :
  (sizeof_ServersHeader <=? Z.of_nat (length a)) = true /\
  arch_read a sizeof_ServersHeader 4 = Some (jump (def_pos d 0) (def_content d servers_srv)) /\
  arch_read a (sizeof_ServersHeader + 4) 4 = Some (jump (def_pos d 1) (def_content d signatures_ok)) /\
  arch_read a (sizeof_ServersHeader + 8) 4 = Some (jump (def_pos d 2) (def_content d signatures_no)) /\
  arch_read a (sizeof_ServersHeader + 12) 4 = Some (jump (def_pos d 3) (def_content d hlog_hlg)) /\
  arch_read a (sizeof_ServersHeader + 16) 4 = Some (jump (def_pos d 4) (def_content d msglist_dat)).
Proof.
  pose proof (archive_jumps d a ok table_at) as R. rewrite jumps_five in R.
  split; [apply Z.leb_le; rewrite size_is; pose proof (total_pos (def_index d)); pose proof (total_pos (elems d.(bd_msg)).*2); unfold files_at, sizeof_ServersHeader; lia|].
  split_and!; [apply (R 0%nat)|apply (R 1%nat)|apply (R 2%nat)|apply (R 3%nat)|apply (R 4%nat)]; reflexivity.
Qed.

Lemma def_part i c : def_index d !! i = Some c -> part_of a (def_pos d i) c.
Proof. intros Hi. unfold def_pos. now apply part_nth. Qed.

(** A fixed file. *)
Lemma handle_def i f c : (i < 4)%nat -> def_files !! i = Some f -> d.(bd_def) f = Some c -> c <> [] ->
  getFileHandle a (DefName f) = Some (Some (def_pos d i, Z.of_nat (length c))) /\ part_of a (def_pos d i) c.
Proof.
  intros Hi Hf Hc Hn. assert (Hx : def_index d !! i = Some c) by (unfold def_index; rewrite list_lookup_fmap, Hf; cbn; now rewrite Hc).
  split; [|now apply def_part]. destruct (def_pos_range d i ok) as (Hp & _). pose proof (next_def d i c (Z.of_nat (length a)) ok Hi Hx) as Hs.
  destruct jump_reads as (R & R0 & R1 & R2 & R3 & R4). unfold getFileHandle. rewrite R, R0, R1, R2, R3, R4. rewrite jumps_five in Hs.
  assert (Hj : jump (def_pos d i) (def_content d f) = def_pos d i) by (apply jump_full; unfold def_content; now rewrite Hc).
  assert (Hz : (def_pos d i =? 0) = false) by (apply Z.eqb_neq; lia).
  destruct i as [|[|[|[|i]]]]; [..|lia]; cbn in Hf; injection Hf as <-; cbn [drop] in Hs; rewrite Hj, Hz; now rewrite Hs.
Qed.

Lemma five_files : def_pos d 5 = files_at d + total (def_index d).
Proof. unfold def_pos. now rewrite take_ge. Qed.

Lemma list_pos ml : d.(bd_def) msglist_dat = Some ml -> ml <> [] ->
  arch_read a (sizeof_ServersHeader + 16) 4 = Some (def_pos d 4) /\ part_of a (def_pos d 4) ml /\ def_pos d 4 + Z.of_nat (length ml) = files_at d + total (def_index d) /\ 0 < def_pos d 4.
Proof.
  intros Em Hn. assert (Hx : def_index d !! 4%nat = Some ml) by (unfold def_index; cbn; now rewrite Em).
  destruct jump_reads as (_ & _ & _ & _ & _ & R4). rewrite R4. unfold def_content. rewrite Em. cbn [from_option id]. rewrite jump_full by assumption.
  split_and!; [reflexivity|now apply def_part| |apply (def_pos_range d 4 ok)]. rewrite <- five_files. symmetry. now apply def_pos_next.
Qed.

(** The list of messages. *)
Lemma handle_list ml : d.(bd_def) msglist_dat = Some ml -> ml <> [] ->
  getFileHandle a (DefName msglist_dat) = Some (Some (def_pos d 4, Z.of_nat (length ml))) /\ part_of a (def_pos d 4) ml.
Proof.
  intros Em Hn. destruct (list_pos ml Em Hn) as (R4' & Hp & Hl & H0). split; [|exact Hp].
  destruct jump_reads as (R & R0 & R1 & R2 & R3 & _). unfold getFileHandle. rewrite R, R0, R1, R2, R3, R4'. rewrite (proj2 (Z.eqb_neq _ 0)) by lia.
  destruct (def_pos_range d 4 ok) as (_ & _ & Ht). pose proof (total_pos (elems d.(bd_msg)).*2) as Htp.
  assert (Hcount : rdz a 8 4 = Z.of_nat (size (bd_msg d))).
  { destruct (do_head _ ok) as (h' & Eh & Hh & Hc). rewrite head_is in Eh. injection Eh as <-. destruct head_at as (pre & post & -> & Hpre).
    destruct pre; [|cbn [length] in Hpre; lia]. cbn [app]. rewrite <- Hc. apply rdz_app_l. lia. }
  rewrite Hcount. destruct (Z.eqb_spec (Z.of_nat (size (bd_msg d))) 0) as [E|E].
  - assert (Hz : total (elems (bd_msg d)).*2 = 0). { destruct (elems (bd_msg d)) eqn:El; [reflexivity|]. pose proof (length_elems (bd_msg d)) as Hle. rewrite El in Hle. cbn in Hle. lia. }
    rewrite size_is, Hz. do 3 f_equal. unfold u64. rewrite Z.mod_small; lia.
  - assert (Hm : exists f, (elems (bd_msg d)).*2 !! 0%nat = Some f). { apply lookup_lt_is_Some_2. rewrite length_fmap, length_elems. lia. }
    destruct Hm as [f Hf]. pose proof (archive_msg_jump d a 0 f ok table_at Hf) as Hj. change (4 * Z.of_nat 0) with 0 in Hj. rewrite Z.add_0_r in Hj. rewrite Hj.
    change (total (take 0 (elems (bd_msg d)).*2)) with 0. do 3 f_equal. rewrite u32_small; lia.
Qed.

(** A message. *)
Lemma handle_msg svid msid f : d.(bd_msg) !! msg_name MSGTYPE_MSG svid msid = Some f -> 0 <= svid < 2 ^ 16 -> 0 <= msid < 2 ^ 32 ->
  exists off, getFileHandle a (MsgName MSGTYPE_MSG svid msid) = Some (Some (off, Z.of_nat (length f))) /\ part_of a off f.
Proof.
  intros Hf Hs Hm. destruct (do_list _ ok) as (ml & Em & Hnum & Hlen & Hrec). assert (Hml : ml <> []) by (intros ->; cbn in Hlen; lia).
  destruct (list_pos ml Em Hml) as (R4' & Hp & Hl & H0). destruct jump_reads as (R & R0 & R1 & R2 & R3 & _).
  assert (Hin : (msg_name MSGTYPE_MSG svid msid, f) ∈ elems (bd_msg d)) by now apply elem_of_elems. apply list_elem_of_lookup in Hin as [i Hi].
  pose proof (lookup_lt_Some _ _ _ Hi) as Hlt. rewrite length_elems in Hlt.
  assert (Hi1 : (elems (bd_msg d)).*1 !! i = Some (msg_name MSGTYPE_MSG svid msid)) by (rewrite list_lookup_fmap, Hi; reflexivity).
  assert (Hi2 : (elems (bd_msg d)).*2 !! i = Some f) by (rewrite list_lookup_fmap, Hi; reflexivity).
  exists (files_at d + total (def_index d) + total (take i (elems (bd_msg d)).*2)). split; [|now apply part_nth].
  unfold getFileHandle. rewrite R, R0, R1, R2, R3, R4'. rewrite (proj2 (Z.eqb_neq _ 0)) by lia.
  pose proof (part_read a _ ml 0 4 Hp ltac:(lia) ltac:(lia)) as Rn. rewrite Z.add_0_r in Rn. rewrite Rn. change (Z.to_nat 0) with 0%nat. rewrite Hnum.
  rewrite (part_read a _ ml 4 32 Hp) by lia. destruct (name_fields svid msid Hs Hm) as [F1 F2]. destruct (Hrec i _ Hi1) as [E1 E2].
  pose proof (find_record_at a (def_pos d 4) ml svid msid (Z.of_nat (size (bd_msg d))) (size (bd_msg d)) 0 i Hp) as Hfr. change (0 + i)%nat with i in Hfr.
  rewrite Nat2Z.id. change 0 with (Z.of_nat 0). rewrite Hfr; [|intros j Hj; lia| |congruence|congruence|exact Hlt].
  - rewrite (archive_msg_jump d a i f ok table_at Hi2). destruct (total_take _ _ _ Hi2) as [T1 T2]. destruct (def_pos_range d 4 ok) as (_ & _ & Ht).
    pose proof (total_pos (take i (elems (bd_msg d)).*2)). destruct (Z.ltb_spec (Z.of_nat i) (Z.of_nat (size (bd_msg d)) - 1)) as [Hn|Hn].
    + assert (Hg : exists g, (elems (bd_msg d)).*2 !! S i = Some g) by (apply lookup_lt_is_Some_2; rewrite length_fmap, length_elems; lia). destruct Hg as [g Hg].
      pose proof (archive_msg_jump d a (S i) g ok table_at Hg) as Hj. replace (sizeof_ServersHeader + 20 + 4 * Z.of_nat i + 4) with (sizeof_ServersHeader + 20 + 4 * Z.of_nat (S i)) by lia.
      rewrite Hj, T1. do 3 f_equal. unfold u64. rewrite Z.mod_small; lia.
    + assert (Hall : take (S i) (elems (bd_msg d)).*2 = (elems (bd_msg d)).*2) by (apply take_ge; rewrite length_fmap, length_elems; lia). rewrite Hall in T1.
      rewrite size_is, u32_small by lia. do 3 f_equal. unfold u64. rewrite Z.mod_small; lia.
  - intros j Hj. assert (Hk : exists k, (elems (bd_msg d)).*1 !! j = Some k) by (apply lookup_lt_is_Some_2; rewrite length_fmap, length_elems; lia). destruct Hk as [k Hk].
    destruct (Hrec j k Hk) as [-> ->]. intros [= G1 G2].
    assert (Hk' : k = msg_name MSGTYPE_MSG svid msid).
    { rewrite list_lookup_fmap in Hk. destruct (elems (bd_msg d) !! j) as [[k' g]|] eqn:Ej; [|discriminate]. cbn in Hk. injection Hk as <-.
      apply list_elem_of_lookup_2, elem_of_elems in Ej. destruct (do_names _ ok _ _ Ej) as (_ & sv & ms & -> & A1 & A2). destruct (name_fields sv ms A1 A2). congruence. }
    subst k. pose proof (NoDup_lookup _ _ _ _ (elems_nodup (bd_msg d)) Hk Hi1). lia.
Qed.

(** The header: its bytes are the first of what is read. *)
Lemma handle_header : getFileHandle a (DefName header_hdr) = Some (Some (0, files_at d)) /\ part_of a 0 h.
Proof.
  split; [|exact head_at]. destruct (do_list _ ok) as (ml & Em & _ & Hlen & _).
  destruct jump_reads as (R & R0 & R1 & R2 & R3 & R4). unfold getFileHandle. rewrite R, R0, R1, R2, R3, R4. rewrite <- jumps_five.
  destruct (def_pos_range d 0 ok) as (H0 & H1 & H2). pose proof (total_pos (elems d.(bd_msg)).*2). assert (E0 : def_pos d 0 = files_at d) by (unfold def_pos; change (total (take 0 (def_index d))) with 0; lia). rewrite E0 in H0, H1.
  rewrite next_jump_here; [do 3 f_equal; unfold u64; rewrite Z.mod_small; lia|lia|].
  exists ml. split; [|intros ->; cbn in Hlen; lia]. unfold def_index. cbn. rewrite Em. do 4 right. left.
Qed.
End Handle.

(** The files of a block other than its header. *)
Definition proper_name (name : file_name) : Prop :=
  match name with
  | DefName header_hdr => False
  | DefName _ => True
  | MsgName t svid msid => t = MSGTYPE_MSG /\ 0 <= svid < 2 ^ 16 /\ 0 <= msid < 2 ^ 32
  | OtherName => False
  end.

Lemma archive_files d : dir_ok d -> exists a, createArch d = Some a /\ Z.of_nat (length a) < 2 ^ 31 /\
  forall name f, proper_name name -> dir_file d name = Some f -> f <> [] ->
  exists off, getFileHandle a name = Some (Some (off, Z.of_nat (length f))) /\ part_of a off f.
Proof.
  intros O. destruct (archive_layout d O) as (a & h & Ea & Eh & P1 & P2 & P3 & P4 & Hl). exists a. split; [exact Ea|].
  split; [rewrite Hl; apply (def_pos_range d 0 O)|]. intros name f Hn Hf Hne. destruct name as [[]|t svid msid|]; cbn in Hn, Hf; try contradiction.
  - eexists. exact (handle_def d a O P2 P3 Hl 0 servers_srv f ltac:(lia) eq_refl Hf Hne).
  - eexists. exact (handle_def d a O P2 P3 Hl 1 signatures_ok f ltac:(lia) eq_refl Hf Hne).
  - eexists. exact (handle_def d a O P2 P3 Hl 2 signatures_no f ltac:(lia) eq_refl Hf Hne).
  - eexists. exact (handle_def d a O P2 P3 Hl 3 hlog_hlg f ltac:(lia) eq_refl Hf Hne).
  - eexists. exact (handle_list d a h O P1 Eh P2 P3 P4 Hl f Hf Hne).
  - destruct Hn as (-> & Hs & Hm). exact (handle_msg d a O P2 P3 P4 Hl svid msid f Hf Hs Hm).
Qed.

(** * Reading through an archive *)

(** What the clients of a reader do: they read, and seek from the beginning. *)
Inductive op :=
  | Read (size : Z)
  | Seek (position : Z).
Definition op_ok (o : op) : Prop := match o with Read n | Seek n => 0 <= n < 2 ^ 31 end.

Fixpoint run_ops (ops : list op) (r : reader) : option (list (list Z)) :=
  match ops with
  | [] => Some []
  | Read n :: ops => let* (got, r) := reader_read n r in let* l := run_ops ops r in Some (got :: l)
  | Seek p :: ops => run_ops ops (reader_lseek p SEEK_SET r).2
  end.

(** A reader of the part [f] of [a] and one of the file [f], at the same place. *)
Record same_place (f : list Z) (r r' : reader) : Prop := {
  sp_file : r.(r_file) = f; sp_seek : r.(m_seek) = 0; sp_size : r.(m_fileSize) = Z.of_nat (length f);
  sp_part : part_of r'.(r_file) r'.(m_seek) f; sp_size' : r'.(m_fileSize) = Z.of_nat (length f);
  sp_pos : r'.(r_pos) = r'.(m_seek) + r.(r_pos); sp_in : 0 <= r.(r_pos) <= Z.of_nat (length f);
  sp_bound : Z.of_nat (length r'.(r_file)) < 2 ^ 31
}.

Lemma part_range a off f : part_of a off f -> 0 <= off /\ off + Z.of_nat (length f) <= Z.of_nat (length a).
Proof. intros (pre & post & -> & Hl). rewrite !length_app. lia. Qed.

Lemma to_int_small x : 0 <= x < 2 ^ 31 -> to_int x = x.
Proof. intros Hx. unfold to_int. rewrite Z.mod_small; lia. Qed.

Lemma part_take a off f p n : part_of a off f -> 0 <= p -> (Z.to_nat p + n <= length f)%nat -> take n (drop (Z.to_nat (off + p)) a) = take n (drop (Z.to_nat p) f).
Proof.
  intros (pre & post & -> & Hl) Hp Hn. rewrite drop_app_ge by lia. replace (Z.to_nat (off + p) - length pre)%nat with (Z.to_nat p) by lia.
  rewrite drop_app_le by lia. rewrite take_app_le by (rewrite length_drop; lia). reflexivity.
Qed.

Lemma read_same f n r r' : 0 <= n < 2 ^ 31 -> same_place f r r' ->
  exists got r1 r1', reader_read n r = Some (got, r1) /\ reader_read n r' = Some (got, r1') /\ same_place f r1 r1'.
Proof.
  intros Hn [Ef Es Ez Ep Ez' Ex Ei Eb]. destruct (part_range _ _ _ Ep) as [R1 R2]. unfold reader_read.
  rewrite !to_int_small by (rewrite ?Ex; lia). rewrite Es, Ez, Ez', Ef, Ex. rewrite !(proj2 (Z.leb_le 0 _)) by lia.
  assert (U1 : u64 (Z.of_nat (length f) + 0) = Z.of_nat (length f)) by (unfold u64; rewrite Z.mod_small; lia).
  assert (U2 : u64 (Z.of_nat (length f) + m_seek r') = Z.of_nat (length f) + m_seek r') by (unfold u64; rewrite Z.mod_small; lia).
  rewrite U1, U2, !(u32_small (n + _)) by lia.
  set (k := if Z.of_nat (length f) <? n + r_pos r then u32 (Z.of_nat (length f) - r_pos r) else n).
  assert (Ek : (if Z.of_nat (length f) + m_seek r' <? n + (m_seek r' + r_pos r) then u32 (Z.of_nat (length f) + m_seek r' - (m_seek r' + r_pos r)) else n) = k).
  { unfold k. destruct (Z.ltb_spec (Z.of_nat (length f)) (n + r_pos r)).
    - rewrite (proj2 (Z.ltb_lt _ _)) by lia. f_equal. lia.
    - now rewrite (proj2 (Z.ltb_ge _ _)) by lia. }
  rewrite Ek. assert (Hk : 0 <= k /\ r_pos r + k <= Z.of_nat (length f)).
  { unfold k. destruct (Z.ltb_spec (Z.of_nat (length f)) (n + r_pos r)); [rewrite u32_small by lia|]; lia. }
  clearbody k. rewrite (part_take _ _ f) by (assumption || lia). do 3 eexists. split; [reflexivity|]. split; [reflexivity|].
  assert (Hg : Z.of_nat (length (take (Z.to_nat k) (drop (Z.to_nat (r_pos r)) f))) = k) by (rewrite length_take, length_drop; lia).
  split; cbn; rewrite ?Hg; try assumption; lia.
Qed.

Lemma seek_same f p r r' : 0 <= p < 2 ^ 31 -> same_place f r r' -> same_place f (reader_lseek p SEEK_SET r).2 (reader_lseek p SEEK_SET r').2.
Proof.
  intros Hp [Ef Es Ez Ep Ez' Ex Ei Eb]. destruct (part_range _ _ _ Ep) as [R1 R2]. unfold reader_lseek. rewrite Es, Ez, Ez'.
  rewrite !i64_small by lia. set (q := Z.min p (Z.of_nat (length f))).
  assert (E1 : (if Z.of_nat (length f) + 0 <? p + 0 then Z.of_nat (length f) + 0 else p + 0) = q) by (unfold q; destruct (Z.ltb_spec (Z.of_nat (length f) + 0) (p + 0)); lia).
  assert (E2 : (if Z.of_nat (length f) + m_seek r' <? p + m_seek r' then Z.of_nat (length f) + m_seek r' else p + m_seek r') = m_seek r' + q) by
    (unfold q; destruct (Z.ltb_spec (Z.of_nat (length f) + m_seek r') (p + m_seek r')); lia).
  rewrite E1, E2, !(proj2 (Z.ltb_ge _ 0)) by (unfold q; lia). split; cbn; try assumption; unfold q; lia.
Qed.

Lemma run_same f ops : forall r r', Forall op_ok ops -> same_place f r r' -> exists l, run_ops ops r = Some l /\ run_ops ops r' = Some l.
Proof.
  induction ops as [|o ops IH]; intros r r' Ho S; [now exists []|]. apply Forall_cons in Ho as [Ho1 Ho]. destruct o as [n|p]; cbn [run_ops].
  - destruct (read_same f n r r' Ho1 S) as (got & r1 & r1' & -> & -> & S1). destruct (IH r1 r1' Ho S1) as (l & -> & ->). eauto.
  - apply IH; [exact Ho|]. now apply seek_same.
Qed.

Lemma open_same a off f : part_of a off f -> Z.of_nat (length a) < 2 ^ 31 ->
  same_place f (openFile f) {| r_file := a; r_pos := off; m_seek := off; m_fileSize := Z.of_nat (length f) |}.
Proof. intros Hp Hl. split; cbn; try assumption; try reflexivity; lia. Qed.

(** * Old blocks *)

(** What [arch_old_blocks] does to a block: nothing, or its directory becomes
    its archive. *)
Lemma arch_loop_block n : forall time s, (forall t d, s.(bs_dir) !! t = Some d -> dir_ok d) -> forall t,
  let s' := arch_loop n time s in
  (s'.(bs_dir) !! t = s.(bs_dir) !! t /\ s'.(bs_arch) !! t = s.(bs_arch) !! t) \/
  exists d a, s.(bs_dir) !! t = Some d /\ createArch d = Some a /\ s'.(bs_dir) !! t = None /\ s'.(bs_arch) !! t = Some a.
Proof.
  induction n as [|n IH]; intros time s Hd t; cbn [arch_loop]; [auto|]. set (k := u32 (time - BLOCKSEC)).
  destruct (bs_dir s !! k) as [d|] eqn:Ed; [|auto]. destruct (do_head _ (Hd _ _ Ed)) as (h & Eh & _). rewrite Eh.
  destruct (archive_files d (Hd _ _ Ed)) as (a & Ea & _). rewrite Ea.
  set (s1 := if is_snapshot_directory k then _ else _).
  assert (E1 : bs_dir s1 = delete k (bs_dir s) /\ bs_arch s1 = <[k := a]> (bs_arch s)) by (unfold s1; destruct (is_snapshot_directory k); auto).
  destruct E1 as [E1 E2]. clearbody s1.
  assert (Hd1 : forall t d, bs_dir s1 !! t = Some d -> dir_ok d) by (intros t' d' Ht; rewrite E1 in Ht; apply lookup_delete_Some in Ht as [_ Ht]; eauto).
  destruct (IH k s1 Hd1 t) as [[I1 I2]|(d' & a' & I1 & I2 & I3 & I4)]; rewrite E1 in I1; try rewrite E2 in I2.
  - destruct (decide (t = k)) as [->|Hne].
    + rewrite lookup_delete_eq in I1. rewrite lookup_insert_eq in I2. right. eauto 10.
    + rewrite lookup_delete_ne in I1 by congruence. rewrite lookup_insert_ne in I2 by congruence. auto.
  - apply lookup_delete_Some in I1 as [Hne I1]. right. eauto 10.
Qed.


(** * A small block *)

(** A header and a list of messages with these records. *)
Definition demo_header (n : Z) : list Z := replicate 8 0 ++ le_bytes 4 n ++ replicate 206 0.
Definition demo_list (l : list (Z * Z)) : list Z :=
  le_bytes 4 (Z.of_nat (length l)) ++ replicate 32 0 ++ concat (map (fun p => le_bytes 2 p.1 ++ le_bytes 4 p.2 ++ replicate 32 0) l) ++ le_bytes 4 0.

Definition demo_dir : block_dir :=
  {| bd_def := fun f => match f with
       | header_hdr => Some (demo_header 2) | servers_srv => Some [1; 2; 3] | signatures_ok => Some [4] | signatures_no => None | hlog_hlg => Some []
       | msglist_dat => Some (demo_list [(1, 5); (3, 7)]) end;
     bd_msg := <[msg_name MSGTYPE_MSG 1 5 := [10; 11; 12]]> {[msg_name MSGTYPE_MSG 3 7 := [20; 21; 22; 23]]} |}.

Lemma demo_dir_ok : dir_ok demo_dir.
Proof.
  split.
  - eexists. split; [reflexivity|]. split; vm_compute; reflexivity.
  - intros k f Hf. cbn [bd_msg demo_dir] in Hf. apply lookup_insert_Some in Hf as [[<- <-]|[_ Hf]].
    + split; [discriminate|]. exists 1, 5. split; [reflexivity|lia].
    + apply lookup_singleton_Some in Hf as [<- <-]. split; [discriminate|]. exists 3, 7. split; [reflexivity|lia].
  - eexists. split; [reflexivity|]. split; [vm_compute; reflexivity|]. split; [vm_compute; discriminate|].
    intros i k Hi. destruct i as [|[|i]]; [| |vm_compute in Hi; discriminate]; vm_compute in Hi; injection Hi as <-; vm_compute; auto.
  - vm_compute. reflexivity.
Qed.

Definition demo_block : Z := 0x5E000000.
Definition demo_store : block_store := {| bs_dir := {[demo_block := demo_dir]}; bs_arch := ∅; bs_und := ∅ |}.
Definition demo_time : Z := demo_block + BLOCKSEC * BLOCKS_COMPRESSED_SHIFT.


(** A block with the proof of a double spend: the file of the proof sorts before
    the messages, and the record of the node has no file.  The places in the
    archive are those of the records, so the message of node 1 is read as the
    proof. *)
Definition double_dir : block_dir :=
  {| bd_def := fun f => match f with
       | header_hdr => Some (demo_header 3) | msglist_dat => Some (demo_list [(1, 5); (2, 0xFFFFFFFF); (3, 7)]) | _ => None end;
     bd_msg := <[msg_name MSGTYPE_DBL 2 9 := [90; 91]]> (<[msg_name MSGTYPE_MSG 1 5 := [10; 11; 12]]> {[msg_name MSGTYPE_MSG 3 7 := [20; 21; 22; 23]]}) |}.
Definition double_store : block_store := {| bs_dir := {[demo_block := double_dir]}; bs_arch := ∅; bs_und := ∅ |}.
Definition read_all (s : block_store) (name : file_name) : option (list (list Z)) :=
  match open_block_file s demo_block name with Some (Some r) => run_ops [Read 1000] r | _ => None end.

Theorem archived_message_replaced :
  read_all double_store (MsgName MSGTYPE_MSG 1 5) = Some [[10; 11; 12]] /\
  read_all (arch_old_blocks demo_time double_store) (MsgName MSGTYPE_MSG 1 5) = Some [[90; 91]].
Proof. split; vm_compute; reflexivity. Qed.

(** The size of the header in an archive counts the table of positions. *)
Theorem archived_header_size :
  match open_block_file demo_store demo_block (DefName header_hdr), open_block_file (arch_old_blocks demo_time demo_store) demo_block (DefName header_hdr) with
  | Some (Some r), Some (Some r') => getSize r = 218 /\ getSize r' = 218 + 4 * 7
  | _, _ => False
  end.
Proof. vm_compute. auto. Qed.

(** A seek from the end of an archived file forgets where the file begins. *)
Theorem archived_seek_end :
  match open_block_file demo_store demo_block (MsgName MSGTYPE_MSG 3 7), open_block_file (arch_old_blocks demo_time demo_store) demo_block (MsgName MSGTYPE_MSG 3 7) with
  | Some (Some r), Some (Some r') => option_map fst (reader_read 2 (reader_lseek (-2) SEEK_END r).2) = Some [22; 23] /\
      option_map fst (reader_read 2 (reader_lseek (-2) SEEK_END r').2) = Some [0; 0]
  | _, _ => False
  end.
Proof. vm_compute. auto. Qed.
