(* ===== verification/Election.v ===== *)
(** The election of a block ([escd/candidate.hpp], [escd/server.cpp],
    [escd/peer.hpp]): the nodes that vote, candidates for the list of messages
    as differences to the own list, the votes and their count, and the list of
    the elected candidate. *)

From stdpp Require Import base gmap list sorting.
From Stdlib Require Import ZArith Lia.
From S2P Require Import Prelude Params Usertxs Accounts Servers Chain HashTree MerklePath MsgTree TxProof.

(** * Data *)

(** A message as the election sees it; [t_num] is [hash.num]. *)
Record tmsg := { t_num : Z; t_svid : Z; t_msid : Z; t_status : Z; t_sigh : list Z; t_got : Z }.

(** [hash.num & 0xFFFFFFFFFFFF0000] and the fields of such a key. *)
Definition kmask (k : Z) : Z := Z.land k 0xFFFFFFFFFFFF0000.
Definition key_msid (k : Z) : Z := Z.land (Z.shiftr k 16) 0xFFFFFFFF.
Definition key_svid (k : Z) : Z := u16 (Z.shiftr k 48).

Record candidate := {
  c_now : Z; c_peer : Z; c_score : Z; c_failed : bool; c_add : gmap Z (list Z); c_del : gset Z; c_mis : gset Z; c_peers : gset Z
}.

(** The part of [server] the election works on; [p_last] is [last_srvs_],
    [p_all] and [p_svids] are [LAST_block_all_msgs] and [LAST_block_svid_msgs],
    [p_sent] the own votes: the hash of the candidate and the bytes behind it. *)
Record poll := {
  p_svid : Z; p_now : Z; p_last : servers; p_dbl : gset Z; p_blk : list tmsg; p_dbls : list tmsg; p_txs : gmap Z tmsg; p_all : gmap Z tmsg; p_svids : gmap Z tmsg;
  p_cands : gmap (list Z) candidate; p_electors : gmap Z Z; p_votes_max : Z; p_do_vote : Z; p_do_block : Z; p_winner : option (list Z);
  p_block : Z; p_panic : bool; p_readonly : bool; p_sent : list (list Z * list Z)
}.

(** * Candidates ([candidate.hpp]) *)

Definition candidate_new (blk : Z) (add : gmap Z (list Z)) (del mis : gset Z) (svid : Z) (myfailed : bool) : candidate :=
  {| c_now := blk; c_peer := svid; c_score := 0; c_failed := myfailed; c_add := add; c_del := del; c_mis := mis; c_peers := ∅ |}.

Definition accept (c : candidate) : bool := negb c.(c_failed) && bool_decide (c.(c_mis) = ∅).
Definition elected_accept (c : candidate) : bool := bool_decide (c.(c_mis) = ∅).

(** [update]: [None] is the failed assertion. *)
Definition candidate_update (m : tmsg) (c : candidate) : option candidate :=
  let k := kmask m.(t_num) in
  if bool_decide (k ∈ c.(c_mis)) then
    let* h := c.(c_add) !! k in
    Some (if bool_decide (h = m.(t_sigh)) then c <| c_mis ::= fun x => x ∖ {[k]} |> else c)
  else Some c.

Definition del_missing (k : Z) (c : candidate) : candidate := c <| c_mis ::= fun x => x ∖ {[k]} |>.

(** * Voters *)

Definition known_dbl (s : poll) (svid : Z) : bool := bool_decide (svid ∈ s.(p_dbl)).

(** The test of a block message in [prepare_poll]. *)
Definition elector_msg (s : poll) (m : tmsg) : bool :=
  (m.(t_svid) <? n_nodes s.(p_last)) &&
  negb (has_bits (nth_node s.(p_last) m.(t_svid)).(n_status) SERVER_DBL || known_dbl s m.(t_svid)) &&
  (m.(t_msid) =? u32 (s.(p_now) - BLOCKSEC)) && has_bits m.(t_status) MSGSTAT_VAL.

Definition poll_set (s : poll) : gset Z :=
  let rset := list_to_set (map t_svid (filter (fun m => elector_msg s m = true) s.(p_blk))) in
  if bool_decide (rset = ∅) && (s.(p_last).(sv_now) =? (nth_node s.(p_last) 0).(n_mtim)) then {[get_vipuno s.(p_last)]} else rset.

(** The voters in the order of their weight. *)
Definition poll_rank (s : poll) : list (Z * node) :=
  stable_rank (map (fun v => (v, nth_node s.(p_last) v)) (merge_sort Z.le (elements (poll_set s)))).

Definition elector_score (n : node) : Z := u64 (Z.quot (i64 (n.(n_weight) + TOTALMASS)) (2 * (VIP_MAX + 1))).

(** The loop that gives the votes; [j] is the position. *)
Fixpoint give_votes (j : Z) (rank : list (Z * node)) (s : poll) : poll :=
  match rank with
  | [] => s
  | (v, n) :: rank =>
      let score := elector_score n in
      give_votes (j + 1) rank
        (s <| p_do_vote ::= fun d => if v =? s.(p_svid) then 1 + j else d |> <| p_electors ::= <[v := score]> |>
           <| p_votes_max ::= fun x => u64 (x + score) |>)
  end.

Definition prepare_poll (s : poll) : poll :=
  let s := s <| p_electors := ∅ |> <| p_cands ::= filter (fun q => negb (q.2.(c_now) <? s.(p_now)) = true) |>
             <| p_votes_max := 0 |> <| p_do_vote := 0 |> in
  (give_votes 0 (take (Z.to_nat VIP_MAX) (poll_rank s)) s) <| p_winner := None |>.

(** * Messages of the block *)

Section Lists.
Context `{Sha256}.
Abbreviation hash_t := (list Z).

Definition message_shash (m : gmap Z tmsg) : hash_t := SHA256 (concat (map (fun q => q.2.(t_sigh)) (elems m))).
Definition message_phash (m : gmap Z hash_t) : hash_t := SHA256 (concat (map snd (elems m))).

(** The first loop of [LAST_block_msgs]; [None] is the failed assertion. *)
Fixpoint block_msgs_loop (s : poll) (l : list (Z * tmsg)) (lastsvid minmsid nowmsid : Z) (all svids : gmap Z tmsg) : option (gmap Z tmsg * gmap Z tmsg) :=
  match l with
  | [] => Some (all, svids)
  | (k, m) :: l =>
      if negb (has_bits m.(t_status) MSGSTAT_COM) || has_bits m.(t_status) MSGSTAT_VAL then block_msgs_loop s l lastsvid minmsid nowmsid all svids
      else
        let '(lastsvid, minmsid, nowmsid) :=
          if lastsvid =? m.(t_svid) then (lastsvid, minmsid, nowmsid)
          else let min := u32 ((nth_node s.(p_last) m.(t_svid)).(n_msid) + 1) in (m.(t_svid), min, min) in
        if m.(t_msid) <? minmsid then block_msgs_loop s l lastsvid minmsid nowmsid all svids
        else check m.(t_msid) =? nowmsid in
          block_msgs_loop s l lastsvid minmsid (u32 (nowmsid + 1)) (<[kmask k := m]> all) (<[lastsvid := m]> svids)
  end.

(** [dblhash]: the mark of a node that spent twice. *)
Definition dblhash (svid : Z) : tmsg :=
  let num := le_val ([0; 0] ++ le_bytes 4 0xFFFFFFFF ++ le_bytes 2 svid) in
  {| t_num := num; t_svid := svid; t_msid := 0xffffffff; t_status := 0; t_sigh := le_bytes 8 num ++ replicate 24 0; t_got := 0 |}.

Definition add_dbl (s : poll) (all : gmap Z tmsg) (m : tmsg) : gmap Z tmsg :=
  if negb (has_bits (nth_node s.(p_last) m.(t_svid)).(n_status) SERVER_DBL) && known_dbl s m.(t_svid)
  then <[(dblhash m.(t_svid)).(t_num) := dblhash m.(t_svid)]> all else all.

Definition LAST_block_msgs (s : poll) : option poll :=
  let* (all, svids) := block_msgs_loop s (elems s.(p_txs)) 0 0 0 ∅ ∅ in
  Some (s <| p_all := foldl (add_dbl s) all s.(p_dbls) |> <| p_svids := svids |> <| p_block := s.(p_now) |>).

(** * Known candidates *)

(** [message_svidmsid] *)
Fixpoint find_msg (svid msid : Z) (l : list (Z * tmsg)) (me : option tmsg) : option tmsg :=
  match l with
  | (_, m) :: l =>
      if (m.(t_svid) =? svid) && (m.(t_msid) =? msid) then
        if has_bits m.(t_status) MSGSTAT_COM then Some m
        else find_msg svid msid l (if has_bits m.(t_status) MSGSTAT_DAT || bool_decide (me = None) then Some m else me)
      else me
  | [] => me
  end.

Definition message_svidmsid (s : poll) (svid msid : Z) : option tmsg :=
  find_msg svid msid (filter (fun q => msid * 2 ^ 16 + svid * 2 ^ 48 <= q.1) (elems s.(p_txs))) None.

(** Whether a removed message makes a candidate fail. *)
Definition del_fails (s : poll) (k : Z) : bool :=
  (key_msid k =? 0xFFFFFFFF) ||
  match message_svidmsid s (key_svid k) (key_msid k) with
  | None => false
  | Some m => has_bits m.(t_status) (Z.lor MSGSTAT_DAT MSGSTAT_VAL) && (m.(t_got) <? u32 (s.(p_now) + BLOCKSEC - MESSAGE_MAXAGE))
  end.

(** The loop over added messages of [save_candidate]. *)
Fixpoint add_loop (s : poll) (l : list (Z * hash_t)) (add : gmap Z hash_t) (del mis : gset Z) (failed : bool) :
    option (gmap Z hash_t * gset Z * gset Z * bool) :=
  match l with
  | [] => Some (add, del, mis, failed)
  | (k, h) :: l =>
      check negb (bool_decide (k ∈ del)) in
      match s.(p_all) !! k with
      | Some me =>
          if bool_decide (me.(t_sigh) = h) then add_loop s l (delete k add) del mis failed
          else add_loop s l add ({[k]} ∪ del) ({[k]} ∪ mis) failed
      | None =>
          if key_msid k =? 0xFFFFFFFF then add_loop s l add del mis failed
          else if n_nodes s.(p_last) <=? key_svid k then add_loop s l add del ({[k]} ∪ mis) true
          else if key_msid k <=? (nth_node s.(p_last) (key_svid k)).(n_msid) then add_loop s l add del ({[k]} ∪ mis) true
          else
            let here := match message_svidmsid s (key_svid k) (key_msid k) with
                        | None => false
                        | Some m => has_bits m.(t_status) MSGSTAT_COM && bool_decide (m.(t_sigh) = h)
                        end in
            add_loop s l add del (if here then mis else {[k]} ∪ mis) failed
      end
  end.

Definition save_candidate (blk : Z) (h : hash_t) (add : gmap Z hash_t) (del : gset Z) (peer : Z) (s : poll) : option poll :=
  match s.(p_cands) !! h with
  | None =>
      let failed := existsb (del_fails s) (elements del) in
      let* (add, del, mis, failed) := add_loop s (elems add) add del ∅ failed in
      Some (s <| p_cands ::= <[h := candidate_new blk add del mis peer failed]> |>)
  | Some c => Some (if peer =? 0 then s else s <| p_cands ::= <[h := c <| c_peers ::= fun x => {[peer]} ∪ x |>]> |>)
  end.

Definition known_candidate (h : hash_t) (peer : Z) (s : poll) : option (poll * candidate) :=
  let* c := s.(p_cands) !! h in
  let c := if peer =? 0 then c else c <| c_peers ::= fun x => {[peer]} ∪ x |> in
  Some (s <| p_cands ::= <[h := c]> |>, c).

Definition update_candidates (m : tmsg) (s : poll) : option poll :=
  if 0 <? s.(p_do_block) then
    check bool_decide (map_Forall (fun _ c => is_Some (candidate_update m c)) s.(p_cands)) in
    Some (s <| p_cands ::= omap (candidate_update m) |>)
  else Some s.

(** * Votes *)

(** [cnd_validate] on a vote of [svid] for block [msid]. *)
Definition cnd_validate (svid msid : Z) (cand : hash_t) (s : poll) : poll :=
  if msid <? s.(p_now) then s
  else match s.(p_electors) !! svid with
  | None => s
  | Some w =>
      if w =? 0 then s
      else match s.(p_cands) !! cand with
      | None => s
      | Some c => s <| p_cands ::= <[cand := c <| c_score ::= fun x => u64 (x + w) |>]> |> <| p_electors ::= <[svid := 0]> |>
      end
  end.

(** The bytes of a candidate behind its hash: removed and added messages. *)
Definition key_bytes (k : Z) : list Z := drop 2 (le_bytes 8 k).
Definition cand_tail (c : candidate) : list Z :=
  if bool_decide (c.(c_add) = ∅) && bool_decide (c.(c_del) = ∅) then []
  else le_bytes 4 (u32 (Z.of_nat (base.size c.(c_del)))) ++ le_bytes 4 (u32 (Z.of_nat (base.size c.(c_add)))) ++
       concat (map key_bytes (merge_sort Z.le (elements c.(c_del)))) ++ concat (map (fun q => key_bytes q.1 ++ q.2) (elems c.(c_add))).

(** [write_candidate]: the own vote, a new message that [cnd_insert] passes to
    [cnd_validate]; [None] is the failed assertion. *)
Definition write_candidate (cand : hash_t) (s : poll) : option poll :=
  if s.(p_svid) =? 0 then Some s
  else
    let s := s <| p_do_vote := 0 |> in
    let* c := s.(p_cands) !! cand in
    Some (cnd_validate s.(p_svid) s.(p_now) cand (s <| p_sent ::= fun l => l ++ [(cand, cand_tail c)] |>)).

(** The start of a block in [clock]: the poll and the own candidate. *)
Definition start_poll (s : poll) : option (hash_t * poll) :=
  let* s := LAST_block_msgs (prepare_poll s) in
  let cand := message_shash s.(p_all) in
  let* s := save_candidate s.(p_now) cand ∅ ∅ s.(p_svid) (s <| p_do_block := 1 |>) in
  Some (cand, s).

(** The order of the map of candidates. *)
Definition hash_le (p q : hash_t * candidate) : Prop := hash_gt p.1 q.1 = false.
#[local] Instance hash_le_dec : RelDecision hash_le.
Proof. intros p q. unfold hash_le. apply _. Defined.
Definition cand_list (s : poll) : list (hash_t * candidate) := merge_sort hash_le (map_to_list s.(p_cands)).

(** The loop of [count_votes]: the best two candidates and the votes. *)
Definition scan (a : option (hash_t * candidate) * option (hash_t * candidate) * Z) (q : hash_t * candidate) :
    option (hash_t * candidate) * option (hash_t * candidate) * Z :=
  let '(c1, c2, n) := a in
  let better (o : option (hash_t * candidate)) := match o with None => true | Some b => b.2.(c_score) <? q.2.(c_score) end in
  let n := u64 (n + q.2.(c_score)) in
  if better c1 then (Some q, c1, n) else if better c2 then (c1, Some q, n) else (c1, c2, n).

Definition best_two (s : poll) : option (hash_t * candidate) * option (hash_t * candidate) * Z := foldl scan (None, None, 0) (cand_list s).

Definition score_of (o : option (hash_t * candidate)) : Z := match o with None => 0 | Some q => q.2.(c_score) end.

(** The candidate is ahead of what the open votes can give the second. *)
Definition majority (s : poll) (c1 c2 : option (hash_t * candidate)) (counted : Z) : bool :=
  u64 (score_of c2 + u64 (s.(p_votes_max) - counted)) <? score_of c1.

Definition late (s : poll) (now : Z) : bool := u32 (s.(p_now) + BLOCKSEC + BLOCKSEC / 2) <? now.
Definition my_turn (s : poll) (now : Z) : bool :=
  negb (s.(p_do_vote) =? 0) && (u32 (s.(p_now) + BLOCKSEC + (s.(p_do_vote) - 1) * VOTE_DELAY) <? now).

(** The end of [LAST_block_final]: the missing messages that are committed;
    [txs] are the messages of the node then. *)
Fixpoint find_com (k : Z) (l : list (Z * tmsg)) : bool :=
  match l with
  | (_, m) :: l => (kmask (Z.lxor m.(t_num) k) =? 0) && (has_bits m.(t_status) MSGSTAT_COM || find_com k l)
  | [] => false
  end.
Definition found_missing (txs : gmap Z tmsg) (c : candidate) : candidate :=
  foldl (fun c k => if find_com k (filter (fun q => k <= q.1) (elems txs)) then del_missing k c else c)
    c (merge_sort Z.le (elements c.(c_mis))).

(** The election in [count_votes]; [txs] are the messages after
    [LAST_block_final]. *)
Definition elect (now : Z) (txs : gmap Z tmsg) (c1 c2 : option (hash_t * candidate)) (counted : Z) (best : hash_t) (s : poll) : poll :=
  if (s.(p_do_block) =? 1) && (majority s c1 c2 counted || late s now) then
    let s := if late s now then s <| p_panic := true |> <| p_readonly := true |> else s in
    s <| p_do_block := 2 |> <| p_winner := Some best |> <| p_txs := txs |> <| p_cands ::= alter (found_missing txs) best |>
  else s.

Definition winner_accepted (s : poll) : option bool :=
  if s.(p_do_block) =? 2 then let* w := s.(p_winner) in let* c := s.(p_cands) !! w in Some (elected_accept c) else Some false.

Definition count_votes (now : Z) (cand : hash_t) (txs : gmap Z tmsg) (s : poll) : option poll :=
  let '(c1, c2, counted) := best_two s in
  match c1 with
  | None => if my_turn s now then write_candidate cand s else Some s
  | Some (best, _) =>
      let s := elect now txs c1 c2 counted best s in
      let* won := winner_accepted s in
      if won then
        let s := s <| p_do_block := 3 |> in
        if s.(p_do_vote) =? 0 then Some s else write_candidate best s
      else
        let* c := s.(p_cands) !! best in
        if negb (s.(p_do_vote) =? 0) && accept c && (1 <? Z.of_nat (base.size c.(c_peers))) then write_candidate best s
        else if my_turn s now then write_candidate cand s
        else Some s
  end.
End Lists.
