(* ===== verification/ElectionProps.v ===== *)
(** Votes: the sum of the votes is kept, and a candidate elected before the
    time limit has more votes than any other can get, so that nodes with the
    same voters elect the same candidate. *)

From stdpp Require Import base gmap list sorting.
From Stdlib Require Import ZArith Lia.
From S2P Require Import Prelude Params Usertxs Accounts Servers Ledger Demo Chain HashTree MerklePath MsgTree TxProof Election.

(** * Sums over maps *)

Section Sums.
Context {K A : Type} `{Countable K}.

Definition wsum (f : K -> A -> Z) (m : gmap K A) : Z := zsum (map (fun q => f q.1 q.2) (map_to_list m)).

Lemma wsum_insert f m k x : m !! k = None -> wsum f (<[k := x]> m) = f k x + wsum f m.
Proof. intros E. unfold wsum. rewrite (zsum_perm _ _ (Permutation_map _ (map_to_list_insert m k x E))). reflexivity. Qed.

Lemma wsum_delete f m k x : m !! k = Some x -> wsum f m = f k x + wsum f (delete k m).
Proof. intros E. rewrite <- (insert_delete_id m k x E) at 1. apply wsum_insert, lookup_delete_eq. Qed.

Lemma wsum_update f m k x y : m !! k = Some x -> wsum f (<[k := y]> m) = wsum f m - f k x + f k y.
Proof.
  intros E. rewrite (wsum_delete f m k x E), <- insert_delete_eq, wsum_insert by apply lookup_delete_eq. lia.
Qed.

Lemma wsum_empty f : wsum f ∅ = 0.
Proof. unfold wsum. now rewrite map_to_list_empty. Qed.

Lemma wsum_le f g m : (forall k x, m !! k = Some x -> f k x <= g k x) -> wsum f m <= wsum g m.
Proof.
  induction m as [|k x m E IH] using map_ind; intros Hle; [now rewrite !wsum_empty|]. rewrite !wsum_insert by exact E.
  pose proof (Hle k x (lookup_insert_eq _ _ _)). enough (wsum f m <= wsum g m) by lia. apply IH. intros j y Ey. apply Hle.
  rewrite lookup_insert_ne; [exact Ey|congruence].
Qed.

Lemma wsum_ext f g m : (forall k x, m !! k = Some x -> f k x = g k x) -> wsum f m = wsum g m.
Proof. intros He. apply Z.le_antisymm; apply wsum_le; intros k x E; rewrite (He k x E); lia. Qed.

Lemma wsum_add f g m : wsum (fun k x => f k x + g k x) m = wsum f m + wsum g m.
Proof.
  induction m as [|k x m E IH] using map_ind; [now rewrite !wsum_empty|]. rewrite !wsum_insert by exact E. lia.
Qed.

Lemma wsum_zero m : wsum (fun _ _ => 0) m = 0.
Proof. induction m as [|k x m E IH] using map_ind; [apply wsum_empty|]. rewrite wsum_insert, IH by exact E. lia. Qed.

Lemma wsum_nonneg f m : (forall k x, m !! k = Some x -> 0 <= f k x) -> 0 <= wsum f m.
Proof. intros Hp. rewrite <- (wsum_zero m). apply wsum_le. exact Hp. Qed.

Lemma wsum_one (d : Z) m k : wsum (fun j _ => if bool_decide (j = k) then d else 0) m = if bool_decide (is_Some (m !! k)) then d else 0.
Proof.
  induction m as [|j x m E IH] using map_ind; [rewrite wsum_empty; now rewrite lookup_empty|]. rewrite wsum_insert, IH by exact E.
  destruct (decide (j = k)) as [->|Hn].
  - rewrite E, lookup_insert_eq. rewrite (bool_decide_eq_true_2 (k = k)), (bool_decide_eq_false_2 (is_Some None)), bool_decide_eq_true_2 by (eauto; intros [? ?]; discriminate). lia.
  - rewrite lookup_insert_ne by exact Hn. now rewrite (bool_decide_eq_false_2 (j = k)).
Qed.
End Sums.

Lemma bool_decide_ext_if {B} (P Q : Prop) `{Decision P, Decision Q} (x y : B) :
  (P <-> Q) -> (if bool_decide P then x else y) = (if bool_decide Q then x else y).
Proof. intros E. now rewrite (bool_decide_ext P Q E). Qed.

(** * The scan of the candidates *)

Section Votes.
Context `{Sha256}.
Abbreviation hash_t := (list Z).

Definition score_sum (cs : gmap hash_t candidate) : Z := wsum (fun _ c => c.(c_score)) cs.
Definition open_votes (e : gmap Z Z) : Z := wsum (fun _ x => x) e.

Record scanned (l : list (hash_t * candidate)) (a : option (hash_t * candidate) * option (hash_t * candidate) * Z) : Prop := {
  sc_none : a.1.1 = None -> l = [];
  sc_best : forall b, a.1.1 = Some b -> b ∈ l /\ forall q, q ∈ l -> q.2.(c_score) <= b.2.(c_score) /\ (q = b \/ q.2.(c_score) <= score_of a.1.2);
  sc_second : forall q, a.1.2 = Some q -> q ∈ l;
  sc_sum : a.2 = u64 (zsum (map (fun q => q.2.(c_score)) l))
}.

Lemma scan_spec l a q : Forall (fun q => 0 <= q.2.(c_score)) (l ++ [q]) -> scanned l a -> scanned (l ++ [q]) (scan a q).
Proof.
  intros Hpos [Hn Hb Hs Hsum]. destruct a as [[c1 c2] n]. cbn [fst snd] in *. apply Forall_app in Hpos as [Hl Hq]. rewrite Forall_singleton in Hq.
  assert (Esum : u64 (n + q.2.(c_score)) = u64 (zsum (map (fun q => q.2.(c_score)) (l ++ [q])))).
  { rewrite Hsum, map_app, zsum_app. cbn [map zsum foldr]. unfold u64. rewrite Z.add_0_r, Zplus_mod_idemp_l. reflexivity. }
  assert (Hsplit : forall p, p ∈ l ++ [q] -> p ∈ l \/ p = q) by (intros p Hp; apply elem_of_app in Hp as [Hp|Hp]; [now left|right; now apply list_elem_of_singleton in Hp]).
  assert (Hin : forall p, p ∈ l -> p ∈ l ++ [q]) by (intros p Hp; apply elem_of_app; now left).
  assert (Hqin : q ∈ l ++ [q]) by (apply elem_of_app; right; now apply list_elem_of_singleton).
  assert (Hp0 : forall p, p ∈ l -> 0 <= p.2.(c_score)) by (intros p Hp; rewrite Forall_forall in Hl; now apply Hl).
  unfold scan. destruct c1 as [b1|].
  2: { rewrite (Hn eq_refl) in *. split; cbn [fst snd]; [discriminate| |discriminate|exact Esum].
       intros b [= <-]. split; [exact Hqin|]. intros p Hp. apply Hsplit in Hp as [Hp| ->]; [now apply not_elem_of_nil in Hp|]. split; [lia|now left]. }
  destruct (Hb b1 eq_refl) as [Hb1 Hmax]. destruct (Z.ltb_spec b1.2.(c_score) q.2.(c_score)) as [Hlt|Hge].
  - split; cbn [fst snd]; [discriminate| |intros b [= <-]; now apply Hin|exact Esum]. intros b [= <-]. split; [exact Hqin|]. intros p Hp. cbn [score_of].
    apply Hsplit in Hp as [Hp| ->]; [destruct (Hmax p Hp); split; [lia|right; lia]|split; [lia|now left]].
  - assert (Hup : forall c2', score_of c2 <= score_of c2' -> q.2.(c_score) <= score_of c2' -> forall b, Some b1 = Some b ->
      b ∈ l ++ [q] /\ forall p, p ∈ l ++ [q] -> p.2.(c_score) <= b.2.(c_score) /\ (p = b \/ p.2.(c_score) <= score_of c2')).
    { intros c2' H1 H2 b [= <-]. split; [now apply Hin|]. intros p Hp. apply Hsplit in Hp as [Hp| ->]; [|split; [lia|now right]].
      destruct (Hmax p Hp) as [Hm [->|Hc]]; (split; [lia|]); [now left|right; lia]. }
    destruct c2 as [b2|].
    + destruct (Z.ltb_spec b2.2.(c_score) q.2.(c_score)) as [Hlt2|Hge2]; split; cbn [fst snd]; try discriminate; try exact Esum.
      * apply (Hup (Some q)); cbn [score_of]; lia.
      * intros b [= <-]. exact Hqin.
      * apply (Hup (Some b2)); cbn [score_of]; lia.
      * intros b Eb. apply Hin, Hs, Eb.
    + split; cbn [fst snd]; try discriminate; try exact Esum; [apply (Hup (Some q)); cbn [score_of]; lia|intros b [= <-]; exact Hqin].
Qed.

Lemma scan_all l : Forall (fun q : hash_t * candidate => 0 <= q.2.(c_score)) l -> scanned l (foldl scan (None, None, 0) l).
Proof.
  induction l as [|q l IH] using rev_ind; intros Hp.
  - split; cbn; try discriminate; auto.
  - rewrite foldl_app. cbn [foldl]. apply scan_spec; [exact Hp|]. apply IH. now apply Forall_app in Hp.
Qed.

(** * The invariant of a poll *)

(** The poll of voters [w], where each voter [v] votes for [vote v]: the votes
    of [cs] are counted. *)
Definition tally (w : gmap Z Z) (vote : Z -> hash_t) (cs : gset Z) (h : hash_t) : Z :=
  wsum (fun v x => if bool_decide (v ∈ cs /\ vote v = h) then x else 0) w.

(** All the votes a candidate gets in the end. *)
Definition votes_for (w : gmap Z Z) (vote : Z -> hash_t) (h : hash_t) : Z := wsum (fun v x => if bool_decide (vote v = h) then x else 0) w.

Record counting (w : gmap Z Z) (vote : Z -> hash_t) (cs : gset Z) (s : poll) : Prop := {
  co_el : s.(p_electors) = map_imap (fun v x => Some (if bool_decide (v ∈ cs) then 0 else x)) w;
  co_dom : forall v, v ∈ cs -> is_Some (w !! v) /\ is_Some (s.(p_cands) !! vote v);
  co_score : forall h c, s.(p_cands) !! h = Some c -> c.(c_score) = tally w vote cs h;
  co_sum : score_sum s.(p_cands) + open_votes s.(p_electors) = s.(p_votes_max);
  co_max : s.(p_votes_max) < 2 ^ 64
}.

Definition voters (w : gmap Z Z) : Prop := forall v x, w !! v = Some x -> 0 <= x.

Lemma tally_nonneg w vote cs h : voters w -> 0 <= tally w vote cs h.
Proof. intros Hw. apply wsum_nonneg. intros v x E. specialize (Hw v x E). case_bool_decide; lia. Qed.

Lemma co_lookup w vote cs s v : counting w vote cs s ->
  s.(p_electors) !! v = match w !! v with Some x => Some (if bool_decide (v ∈ cs) then 0 else x) | None => None end.
Proof. intros [E _ _ _ _]. rewrite E, map_lookup_imap. now destruct (w !! v). Qed.

Lemma co_open w vote cs s : counting w vote cs s -> open_votes s.(p_electors) = wsum (fun v x => if bool_decide (v ∈ cs) then 0 else x) w.
Proof.
  intros [E _ _ _ _]. rewrite E. clear E. unfold open_votes. induction w as [|v x w Ev IH] using map_ind; [reflexivity|].
  rewrite (wsum_insert _ w v x Ev), <- IH. rewrite map_imap_insert. rewrite wsum_insert; [reflexivity|]. rewrite map_lookup_imap, Ev. reflexivity.
Qed.

(** Steps that keep the votes and the scores. *)
Definition same_votes (s s' : poll) : Prop :=
  s'.(p_electors) = s.(p_electors) /\ s'.(p_votes_max) = s.(p_votes_max) /\
  forall h, c_score <$> s'.(p_cands) !! h = c_score <$> s.(p_cands) !! h.

#[global] Instance same_votes_preorder : PreOrder same_votes.
Proof.
  split.
  - intros s. now split.
  - intros s1 s2 s3 (A1 & A2 & A3) (B1 & B2 & B3). split; [congruence|]. split; [congruence|]. intros h. now rewrite B3.
Qed.

Lemma score_sum_ext (a b : gmap hash_t candidate) : (forall h, c_score <$> a !! h = c_score <$> b !! h) -> score_sum a = score_sum b.
Proof.
  intros E. assert (Ef : c_score <$> a = c_score <$> b) by (apply map_eq; intros h; rewrite !lookup_fmap; apply E).
  assert (Hs : forall m : gmap hash_t candidate, score_sum m = wsum (fun _ x => x) (c_score <$> m)).
  { intros m. unfold score_sum, wsum. f_equal. rewrite map_to_list_fmap. rewrite !map_map. reflexivity. }
  now rewrite !Hs, Ef.
Qed.

Lemma counting_same w vote cs s s' : same_votes s s' -> counting w vote cs s -> counting w vote cs s'.
Proof.
  intros (E1 & E2 & E3) [Hel Hdom Hsc Hsum Hmax].
  split; rewrite ?E1, ?E2; try assumption.
  - intros v Hv. destruct (Hdom v Hv) as [Hw Hc]. split; [exact Hw|]. specialize (E3 (vote v)). destruct Hc as [c Hc]. rewrite Hc in E3.
    destruct (p_cands s' !! vote v); [eauto|discriminate].
  - intros h c Hc. specialize (E3 h). rewrite Hc in E3. destruct (p_cands s !! h) as [c0|] eqn:E0; [|discriminate].
    injection E3 as ->. now apply Hsc.
  - rewrite (score_sum_ext _ _ E3). exact Hsum.
Qed.

(** A change of one candidate that keeps its score. *)
Lemma same_votes_insert s h c c' : s.(p_cands) !! h = Some c -> c'.(c_score) = c.(c_score) -> same_votes s (s <| p_cands ::= <[h := c']> |>).
Proof.
  intros Hc E. split; [reflexivity|]. split; [reflexivity|]. intros g. cbn. destruct (decide (g = h)) as [->|Hn].
  - rewrite lookup_insert_eq, Hc. cbn. now rewrite E.
  - now rewrite lookup_insert_ne by congruence.
Qed.

(** A new candidate has no votes. *)
Lemma counting_new w vote cs s h c : s.(p_cands) !! h = None -> c.(c_score) = 0 ->
  counting w vote cs s -> counting w vote cs (s <| p_cands ::= <[h := c]> |>).
Proof.
  intros Hn E [Hel Hdom Hsc Hsum Hmax]. split; cbn; try assumption.
  - intros v Hv. destruct (Hdom v Hv) as [Hw Hc]. split; [exact Hw|]. rewrite lookup_insert_ne; [exact Hc|]. intros ->.
    rewrite Hn in Hc. destruct Hc as [? ?]; discriminate.
  - intros g d Hg. destruct (decide (g = h)) as [->|Hgh]; [|rewrite lookup_insert_ne in Hg by congruence; now apply Hsc].
    rewrite lookup_insert_eq in Hg. injection Hg as <-. rewrite E. unfold tally. rewrite (wsum_ext _ (fun _ _ => 0)).
    + now rewrite wsum_zero.
    + intros v x Hx. rewrite bool_decide_eq_false_2; [reflexivity|]. intros [Hv <-]. destruct (Hdom v Hv) as [_ [d Hd]]. congruence.
  - unfold score_sum. rewrite wsum_insert by exact Hn. rewrite E. exact Hsum.
Qed.

Lemma tally_add w vote cs v x h : w !! v = Some x -> v ∉ cs ->
  tally w vote ({[v]} ∪ cs) h = tally w vote cs h + if bool_decide (vote v = h) then x else 0.
Proof.
  intros Hv Hn. unfold tally. set (d := if bool_decide (vote v = h) then x else 0).
  rewrite (wsum_ext _ (fun j y => (if bool_decide (j ∈ cs /\ vote j = h) then y else 0) + if bool_decide (j = v) then d else 0)).
  - rewrite wsum_add, wsum_one, (bool_decide_eq_true_2 (is_Some _)) by eauto. reflexivity.
  - intros j y Hj. destruct (decide (j = v)) as [->|Hne].
    + rewrite Hv in Hj. injection Hj as <-. rewrite (bool_decide_eq_true_2 (v = v)) by reflexivity.
      rewrite (bool_decide_eq_false_2 (v ∈ cs /\ _)) by tauto. unfold d. cbn. apply bool_decide_ext_if. set_solver.
    + rewrite (bool_decide_eq_false_2 (j = v)) by exact Hne. rewrite Z.add_0_r. apply bool_decide_ext_if. set_solver.
Qed.

(** A vote is counted once. *)
Lemma cnd_validate_counting w vote cs s svid msid cand :
  voters w -> vote svid = cand -> counting w vote cs s -> exists cs', counting w vote cs' (cnd_validate svid msid cand s).
Proof.
  intros Hw Hvote I. unfold cnd_validate. destruct (Z.ltb_spec msid s.(p_now)); [eauto|].
  rewrite (co_lookup _ _ _ _ _ I). destruct (w !! svid) as [x|] eqn:Ew; [|eauto]. destruct (bool_decide_reflect (svid ∈ cs)) as [Hin|Hin]; [eauto|].
  destruct (Z.eqb_spec x 0) as [->|Hx]; [eauto|]. destruct (s.(p_cands) !! cand) as [c|] eqn:Ec; [|eauto].
  exists ({[svid]} ∪ cs). pose proof (co_lookup _ _ _ _ svid I) as Eel. rewrite Ew, bool_decide_eq_false_2 in Eel by exact Hin.
  pose proof I as [Hel Hdom Hsc Hsum Hmax]. pose proof (Hw _ _ Ew) as Hpos.
  assert (Hsmall : u64 (c.(c_score) + x) = c.(c_score) + x).
  { apply u64_small. pose proof (Hsc _ _ Ec) as Es. pose proof (tally_nonneg w vote cs cand Hw). split; [lia|].
    unfold score_sum in Hsum. rewrite (wsum_delete _ _ _ _ Ec) in Hsum. unfold open_votes in Hsum. rewrite (wsum_delete _ _ _ _ Eel) in Hsum.
    assert (0 <= wsum (fun _ c => c.(c_score)) (delete cand s.(p_cands))).
    { apply wsum_nonneg. intros h d Hd. rewrite lookup_delete_Some in Hd. rewrite (Hsc h d) by apply Hd. now apply tally_nonneg. }
    assert (0 <= wsum (fun _ x : Z => x) (delete svid s.(p_electors))).
    { apply wsum_nonneg. intros v y Hy. rewrite lookup_delete_Some, (co_lookup _ _ _ _ _ I) in Hy. destruct Hy as [_ Hy].
      destruct (w !! v) as [z|] eqn:Ez; [|discriminate]. injection Hy as <-. specialize (Hw _ _ Ez). case_bool_decide; lia. }
    lia. }
  split; cbn.
  - rewrite Hel. apply map_eq. intros v. rewrite map_lookup_imap. destruct (decide (v = svid)) as [->|Hn].
    + rewrite lookup_insert_eq, Ew. cbn. rewrite bool_decide_eq_true_2 by set_solver. reflexivity.
    + rewrite lookup_insert_ne, map_lookup_imap by congruence. destruct (w !! v); [|reflexivity]. cbn. f_equal. apply bool_decide_ext_if. set_solver.
  - intros v Hv. apply elem_of_union in Hv as [Hv|Hv].
    + apply elem_of_singleton in Hv as ->. rewrite Ew, Hvote, lookup_insert_eq. eauto.
    + destruct (Hdom v Hv) as [H1 H2]. split; [exact H1|]. destruct (decide (vote v = cand)) as [->|Hn]; [rewrite lookup_insert_eq; eauto|].
      now rewrite lookup_insert_ne by congruence.
  - intros h d Hd. rewrite (tally_add _ _ _ _ _ _ Ew Hin), Hvote. destruct (decide (h = cand)) as [->|Hn].
    + rewrite lookup_insert_eq in Hd. injection Hd as <-. cbn. rewrite bool_decide_eq_true_2 by reflexivity. now rewrite Hsmall, (Hsc _ _ Ec).
    + rewrite lookup_insert_ne in Hd by congruence. rewrite bool_decide_eq_false_2 by congruence. rewrite Z.add_0_r. now apply Hsc.
  - unfold score_sum, open_votes. rewrite (wsum_update _ _ _ _ _ Ec), (wsum_update _ _ _ _ _ Eel). cbn.
    rewrite Hsmall. fold (score_sum s.(p_cands)) (open_votes s.(p_electors)). lia.
  - exact Hmax.
Qed.

(** * Steps of a poll *)

(** What a node does between the start of the election of a block and its end:
    votes of the network, candidates of peers, messages that arrive and the
    count; [vote v] is what voter [v] votes for, on the network as well as in
    the own vote. *)
Inductive poll_step (vote : Z -> hash_t) : poll -> poll -> Prop :=
| st_vote svid msid cand s : vote svid = cand -> poll_step vote s (cnd_validate svid msid cand s)
| st_save blk h add del peer s s' : save_candidate blk h add del peer s = Some s' -> poll_step vote s s'
| st_known h peer s s' c : known_candidate h peer s = Some (s', c) -> poll_step vote s s'
| st_update m s s' : update_candidates m s = Some s' -> poll_step vote s s'
| st_count now cand txs s s' : count_votes now cand txs s = Some s' ->
    (forall q, q ∈ s'.(p_sent) -> q.1 = vote s.(p_svid)) -> poll_step vote s s'.

Lemma save_candidate_counting w vote cs blk h add del peer s s' :
  save_candidate blk h add del peer s = Some s' -> counting w vote cs s -> counting w vote cs s'.
Proof.
  unfold save_candidate. destruct (s.(p_cands) !! h) as [c|] eqn:Ec.
  - intros [= <-]. destruct (peer =? 0); [auto|]. apply counting_same. eapply same_votes_insert; [exact Ec|reflexivity].
  - intros E. inv_opt. subst s'. now apply counting_new.
Qed.

Lemma known_candidate_same h peer s s' c : known_candidate h peer s = Some (s', c) -> same_votes s s'.
Proof.
  unfold known_candidate. destruct (s.(p_cands) !! h) as [d|] eqn:Ed; [|discriminate]. intros [= <- _].
  eapply same_votes_insert; [exact Ed|]. now destruct (peer =? 0).
Qed.

Lemma candidate_update_score m c c' : candidate_update m c = Some c' -> c'.(c_score) = c.(c_score).
Proof.
  unfold candidate_update. case_bool_decide; [|now intros [= <-]]. destruct (c_add c !! _); [|discriminate]. intros [= <-]. now case_bool_decide.
Qed.

Lemma update_candidates_same m s s' : update_candidates m s = Some s' -> same_votes s s'.
Proof.
  unfold update_candidates. destruct (0 <? s.(p_do_block)); [|now intros [= <-]]. case_bool_decide as Hall; [|discriminate]. intros [= <-].
  split; [reflexivity|]. split; [reflexivity|]. intros h. cbn. rewrite lookup_omap. destruct (s.(p_cands) !! h) as [c|] eqn:Ec; [|reflexivity].
  cbn. destruct (Hall h c Ec) as [c' Ec']. rewrite Ec'. cbn. f_equal. now apply candidate_update_score in Ec'.
Qed.

Lemma found_missing_score txs c : (found_missing txs c).(c_score) = c.(c_score).
Proof.
  unfold found_missing. generalize (merge_sort Z.le (elements (c_mis c))). intros l. revert c. induction l as [|k l IH]; intros c; [reflexivity|].
  cbn [foldl]. rewrite IH. now destruct (find_com k _).
Qed.

(** The part of the state the votes depend on. *)
Lemma counting_fields w vote cs s s' :
  s'.(p_electors) = s.(p_electors) -> s'.(p_votes_max) = s.(p_votes_max) -> s'.(p_cands) = s.(p_cands) -> counting w vote cs s -> counting w vote cs s'.
Proof. intros E1 E2 E3. apply counting_same. split; [exact E1|]. split; [exact E2|]. intros h. now rewrite E3. Qed.

Lemma cnd_validate_sent svid msid cand s : (cnd_validate svid msid cand s).(p_sent) = s.(p_sent).
Proof.
  unfold cnd_validate. destruct (msid <? s.(p_now)); [reflexivity|]. destruct (s.(p_electors) !! svid); [|reflexivity].
  destruct (z =? 0); [reflexivity|]. now destruct (s.(p_cands) !! cand).
Qed.

Lemma write_candidate_counting w vote cs cand s s' :
  voters w -> write_candidate cand s = Some s' -> (forall q, q ∈ s'.(p_sent) -> q.1 = vote s.(p_svid)) ->
  counting w vote cs s -> exists cs', counting w vote cs' s'.
Proof.
  intros Hw. unfold write_candidate. destruct (s.(p_svid) =? 0); [intros [= <-]; eauto|]. cbn.
  destruct (s.(p_cands) !! cand) as [c|]; [|discriminate]. intros [= <-] Hsent I. rewrite cnd_validate_sent in Hsent. cbn in Hsent.
  apply cnd_validate_counting with (cs := cs); [exact Hw| |].
  - symmetry. apply (Hsent (cand, cand_tail c)). set_solver.
  - eapply counting_fields; [..|exact I]; reflexivity.
Qed.

Lemma elect_same now txs c1 c2 n best s : same_votes s (elect now txs c1 c2 n best s).
Proof.
  unfold elect. destruct (_ && _); [|reflexivity]. destruct (late s now); cbn; (split; [reflexivity|]; split; [reflexivity|]; intros h; cbn;
    rewrite lookup_alter; case_decide as E; [subst h; rewrite <- option_fmap_compose; apply option_fmap_ext; intros c; apply found_missing_score|reflexivity]).
Qed.

Lemma elect_fields now txs c1 c2 n best s :
  (elect now txs c1 c2 n best s).(p_svid) = s.(p_svid) /\ (elect now txs c1 c2 n best s).(p_now) = s.(p_now) /\
  (elect now txs c1 c2 n best s).(p_do_vote) = s.(p_do_vote) /\ (elect now txs c1 c2 n best s).(p_sent) = s.(p_sent).
Proof. unfold elect. destruct (_ && _); [|auto]. now destruct (late s now). Qed.

Lemma count_votes_counting w vote cs now cand txs s s' :
  voters w -> count_votes now cand txs s = Some s' -> (forall q, q ∈ s'.(p_sent) -> q.1 = vote s.(p_svid)) ->
  counting w vote cs s -> exists cs', counting w vote cs' s'.
Proof.
  intros Hw E Hsent I. unfold count_votes in E. destruct (best_two s) as [[c1 c2] n]. destruct c1 as [[best c]|].
  2: { destruct (my_turn s now); [eapply write_candidate_counting; eauto|injection E as <-; eauto]. }
  set (s1 := elect _ _ _ _ _ _ _) in E. assert (I1 : counting w vote cs s1) by (eapply counting_same; [apply elect_same|exact I]).
  destruct (elect_fields now txs (Some (best, c)) c2 n best s) as (Esv & _). fold s1 in Esv. rewrite <- Esv in Hsent. clearbody s1.
  destruct (winner_accepted s1) as [won|]; [|discriminate]. destruct won.
  - cbn in E. assert (I2 : counting w vote cs (s1 <| p_do_block := 3 |>)) by (eapply counting_fields; [..|exact I1]; reflexivity).
    destruct (s1.(p_do_vote) =? 0); [injection E as <-; eauto|]. eapply write_candidate_counting; eauto.
  - destruct (s1.(p_cands) !! best) as [d|]; [|discriminate]. destruct (_ && _); [eapply write_candidate_counting; eauto|].
    destruct (my_turn s1 now); [eapply write_candidate_counting; eauto|injection E as <-; eauto].
Qed.

Lemma poll_step_counting w vote cs s s' : voters w -> poll_step vote s s' -> counting w vote cs s -> exists cs', counting w vote cs' s'.
Proof.
  intros Hw Hstep I. destruct Hstep as [svid msid cand s E|blk h add del peer s s' E|h peer s s' c E|m s s' E|now cand txs s s' E Hs].
  - now apply cnd_validate_counting with (cs := cs).
  - exists cs. eapply save_candidate_counting; [exact E|exact I].
  - exists cs. eapply counting_same; [eapply known_candidate_same, E|exact I].
  - exists cs. eapply counting_same; [eapply update_candidates_same, E|exact I].
  - now apply (count_votes_counting _ _ _ _ _ _ _ _ Hw E Hs I).
Qed.

Lemma poll_run_counting w vote s s' : voters w -> rtc (poll_step vote) s s' ->
  (exists cs, counting w vote cs s) -> exists cs, counting w vote cs s'.
Proof.
  intros Hw Hrun. induction Hrun as [|s1 s2 s3 Hstep _ IH]; [auto|]. intros [cs I]. apply IH. eapply poll_step_counting; [exact Hw|exact Hstep|exact I].
Qed.

(** * The start of a poll *)

Lemma insert_rank_perm x l : insert_rank x l ≡ₚ x :: l.
Proof.
  induction l as [|y l IH]; [reflexivity|]. cbn [insert_rank]. destruct (_ <? _); [reflexivity|]. rewrite IH. apply Permutation_swap.
Qed.

Lemma stable_rank_perm l : stable_rank l ≡ₚ l.
Proof.
  unfold stable_rank. enough (E : forall acc, foldl (fun acc x => insert_rank x acc) acc l ≡ₚ l ++ acc) by (rewrite E; now rewrite app_nil_r).
  induction l as [|x l IH]; intros acc; [reflexivity|]. cbn [foldl]. rewrite IH, insert_rank_perm. symmetry. apply Permutation_middle.
Qed.

(** Weights for which the votes are numbers of 57 bits. *)
Definition weights_ok (s : poll) : Prop := forall v, v ∈ poll_set s -> 0 <= (nth_node s.(p_last) v).(n_weight) <= TOTALMASS.

Lemma elector_score_bounds n : 0 <= n.(n_weight) <= TOTALMASS -> 0 <= elector_score n < 2 ^ 57.
Proof.
  intros Hn. unfold elector_score. unfold TOTALMASS in *. rewrite i64_small by lia. change (2 * (VIP_MAX + 1)) with 64.
  rewrite Z.quot_div_nonneg by lia. rewrite u64_small; [split; [apply Z.div_pos; lia|]|split; [apply Z.div_pos; lia|]]; apply Z.div_lt_upper_bound; lia.
Qed.

Lemma poll_rank_spec s : NoDup (poll_rank s).*1 /\ Forall (fun q => q.1 ∈ poll_set s /\ q.2 = nth_node s.(p_last) q.1) (poll_rank s).
Proof.
  set (base := map (fun v => (v, nth_node s.(p_last) v)) (merge_sort Z.le (elements (poll_set s)))).
  assert (E : poll_rank s ≡ₚ base) by apply stable_rank_perm.
  split.
  - rewrite E. unfold base. change (map ?f ?l) with (f <$> l). rewrite <- list_fmap_compose. rewrite (list_fmap_ext _ id) by reflexivity.
    rewrite list_fmap_id, merge_sort_Permutation. apply NoDup_elements.
  - rewrite E. unfold base. apply Forall_map, Forall_forall. intros v Hv. cbn. split; [|reflexivity].
    rewrite merge_sort_Permutation in Hv. now apply elem_of_elements in Hv.
Qed.

Lemma give_votes_spec rank j s :
  NoDup rank.*1 -> (forall v, v ∈ rank.*1 -> s.(p_electors) !! v = None) -> Forall (fun q => 0 <= elector_score q.2 < 2 ^ 57) rank ->
  voters s.(p_electors) -> open_votes s.(p_electors) = s.(p_votes_max) -> s.(p_votes_max) + Z.of_nat (length rank) * 2 ^ 57 < 2 ^ 64 ->
  let s' := give_votes j rank s in
  voters s'.(p_electors) /\ open_votes s'.(p_electors) = s'.(p_votes_max) /\ s'.(p_votes_max) < 2 ^ 64 /\ s'.(p_cands) = s.(p_cands) /\
  s'.(p_now) = s.(p_now) /\ s'.(p_sent) = s.(p_sent) /\ s'.(p_svid) = s.(p_svid).
Proof.
  revert j s. induction rank as [|[v n] rank IH]; intros j s Hnd Hnew Hsc Hv Hsum Hmax; cbv zeta.
  - cbn. cbn in Hmax. repeat split; try assumption; lia.
  - cbn [give_votes]. cbn [fmap list_fmap fst] in Hnd, Hnew. apply NoDup_cons in Hnd as [Hni Hnd]. inversion Hsc as [|? ? Hn Hsc']; subst. cbn [snd] in Hn.
    assert (Hnone : s.(p_electors) !! v = None) by (apply Hnew; left). assert (Hp : 0 <= open_votes s.(p_electors)) by (apply wsum_nonneg; exact Hv).
    cbn [length] in Hmax. match goal with |- context [give_votes _ rank ?x] => set (s1 := x) end.
    assert (E64 : u64 (s.(p_votes_max) + elector_score n) = s.(p_votes_max) + elector_score n) by (apply u64_small; lia).
    destruct (IH (j + 1) s1 Hnd) as (A1 & A2 & A3 & A4 & A5 & A6 & A7); try assumption; cbn.
    + intros u Hu. rewrite lookup_insert_ne; [apply Hnew; now right|]. intros ->. contradiction.
    + intros u x. destruct (decide (u = v)) as [->|Hne]; [rewrite lookup_insert_eq; intros [= <-]; lia|].
      rewrite lookup_insert_ne by congruence. apply Hv.
    + unfold open_votes. rewrite wsum_insert by exact Hnone. fold (open_votes s.(p_electors)). rewrite E64. lia.
    + rewrite E64. lia.
    + repeat split; assumption.
Qed.

(** No candidate of an earlier election is left. *)
Definition no_candidates (s : poll) : Prop := map_Forall (fun _ c => c.(c_now) < s.(p_now)) s.(p_cands).

Lemma prepare_poll_counting vote s : weights_ok s -> no_candidates s ->
  let s' := prepare_poll s in
  voters s'.(p_electors) /\ counting s'.(p_electors) vote ∅ s' /\ s'.(p_cands) = ∅ /\ s'.(p_now) = s.(p_now) /\ s'.(p_sent) = s.(p_sent) /\
  s'.(p_winner) = None /\ s'.(p_svid) = s.(p_svid).
Proof.
  intros Hw Hc. cbv zeta. unfold prepare_poll. match goal with |- context [give_votes 0 _ ?x] => set (s1 := x) end.
  change (poll_rank s1) with (poll_rank s). destruct (poll_rank_spec s) as [Hnd Hr]. set (rank := take _ _).
  destruct (give_votes_spec rank 0 s1) as (A1 & A2 & A3 & A4 & A5 & A6 & A7).
  - unfold rank. rewrite fmap_take. eapply sublist_NoDup; [exact Hnd|apply sublist_take].
  - intros v _. apply lookup_empty.
  - apply Forall_take. eapply Forall_impl; [exact Hr|]. intros q [Hq ->]. now apply elector_score_bounds, Hw.
  - intros v x Hx. cbn in Hx. now rewrite lookup_empty in Hx.
  - apply wsum_empty.
  - cbn. assert (length rank <= 31)%nat by (unfold rank; rewrite length_take; change (Z.to_nat VIP_MAX) with 31%nat; lia). lia.
  - assert (E0 : s1.(p_cands) = ∅).
    { cbn. apply map_eq. intros h. rewrite lookup_empty, map_lookup_filter_None. right. intros c Ec. specialize (Hc h c Ec). cbn in Hc |- *. rewrite (proj2 (Z.ltb_lt _ _)) by exact Hc. discriminate. }
    rewrite E0 in A4. set (s2 := give_votes 0 rank s1) in *. clearbody s2. clear -A1 A2 A3 A4 A5 A6 A7. cbn in A5, A6, A7. cbn.
    split; [exact A1|]. split; [|auto]. split; cbn; [| |intros h c; rewrite A4, lookup_empty; discriminate| |exact A3].
    + apply map_eq. intros v. rewrite map_lookup_imap. destruct (p_electors s2 !! v); reflexivity.
    + intros v Hv. now apply not_elem_of_empty in Hv.
    + rewrite A4. unfold score_sum. rewrite wsum_empty. exact A2.
Qed.

(** * The elected candidate *)

Lemma cand_list_perm s : cand_list s ≡ₚ map_to_list s.(p_cands).
Proof. apply merge_sort_Permutation. Qed.

Lemma elem_of_cand_list s h c : (h, c) ∈ cand_list s <-> s.(p_cands) !! h = Some c.
Proof. rewrite cand_list_perm. apply elem_of_map_to_list. Qed.

(** The candidate [elect] chooses before the time limit leads by more than the
    votes that are still open. *)
Lemma elected_leads w vote cs s c1 c2 n h c :
  voters w -> counting w vote cs s -> best_two s = (c1, c2, n) -> c1 = Some (h, c) -> majority s c1 c2 n = true ->
  forall g, g <> h -> tally w vote cs g + open_votes s.(p_electors) < tally w vote cs h.
Proof.
  intros Hw I Eb E1 Hm g Hg. pose proof I as [Hel Hdom Hsc Hsum Hmax].
  assert (Hpos : Forall (fun q : hash_t * candidate => 0 <= q.2.(c_score)) (cand_list s)).
  { apply Forall_forall. intros [k d] Hd. apply elem_of_cand_list in Hd. cbn. rewrite (Hsc _ _ Hd). now apply tally_nonneg. }
  assert (Hopen : 0 <= open_votes s.(p_electors)).
  { rewrite (co_open _ _ _ _ I). apply wsum_nonneg. intros v x Hx. specialize (Hw _ _ Hx). case_bool_decide; lia. }
  pose proof (scan_all _ Hpos) as [_ Hbest Hsec Hn]. unfold best_two in Eb. rewrite Eb in Hbest, Hsec, Hn. cbn [fst snd] in *.
  assert (Esum : zsum (map (fun q : hash_t * candidate => q.2.(c_score)) (cand_list s)) = score_sum s.(p_cands)).
  { unfold score_sum, wsum. apply zsum_perm. now rewrite cand_list_perm. }
  assert (Hscore : forall k d, s.(p_cands) !! k = Some d -> 0 <= d.(c_score) <= score_sum s.(p_cands)).
  { intros k d Hd. unfold score_sum. rewrite (wsum_delete _ _ _ _ Hd). rewrite (Hsc _ _ Hd). pose proof (tally_nonneg w vote cs k Hw).
    enough (0 <= wsum (fun _ c => c.(c_score)) (delete k s.(p_cands))) by lia.
    apply wsum_nonneg. intros j y Hy. apply lookup_delete_Some in Hy as [_ Hy]. rewrite (Hsc _ _ Hy). now apply tally_nonneg. }
  destruct (Hbest _ E1) as [Hin Hall]. apply elem_of_cand_list in Hin as Hc. pose proof (Hscore _ _ Hc) as Hcs.
  assert (H2 : 0 <= score_of c2 <= score_sum s.(p_cands)).
  { destruct c2 as [[k d]|]; cbn [score_of]; [apply (Hscore k), elem_of_cand_list, Hsec; reflexivity|lia]. }
  unfold majority in Hm. apply Z.ltb_lt in Hm. rewrite Hn, Esum, (u64_small (score_sum _)) in Hm by lia.
  rewrite (u64_small (s.(p_votes_max) - score_sum s.(p_cands))) in Hm by lia. rewrite u64_small in Hm by lia.
  rewrite E1 in Hm. cbn [score_of snd] in Hm. rewrite <- (Hsc _ _ Hc).
  enough (tally w vote cs g <= score_of c2) by lia. destruct (s.(p_cands) !! g) as [d|] eqn:Ed.
  - rewrite <- (Hsc _ _ Ed). destruct (Hall (g, d)) as [_ [Eq|Hle]]; [now apply elem_of_cand_list|congruence|exact Hle].
  - unfold tally. rewrite (wsum_ext _ (fun _ _ => 0)); [rewrite wsum_zero; lia|]. intros v x Hx. rewrite bool_decide_eq_false_2; [reflexivity|].
    intros [Hv <-]. destruct (Hdom v Hv) as [_ [? ?]]. congruence.
Qed.

(** ... and so has more votes in the end than any other. *)
Lemma leads_wins w vote cs s h g : voters w -> counting w vote cs s ->
  tally w vote cs g + open_votes s.(p_electors) < tally w vote cs h -> votes_for w vote g < votes_for w vote h.
Proof.
  intros Hw I Hlt. rewrite (co_open _ _ _ _ I) in Hlt.
  apply (Z.le_lt_trans _ (tally w vote cs g + wsum (fun v x => if bool_decide (v ∈ cs) then 0 else x) w)).
  - unfold tally, votes_for. rewrite <- wsum_add. apply wsum_le. intros v x Hx. specialize (Hw _ _ Hx).
    repeat case_bool_decide; try lia; tauto.
  - eapply Z.lt_le_trans; [exact Hlt|]. apply wsum_le. intros v x Hx. specialize (Hw _ _ Hx). repeat case_bool_decide; try lia; tauto.
Qed.

(** [s] elects [h] before the time limit. *)
Definition elects (s : poll) (h : hash_t) : Prop :=
  exists now cand txs s', count_votes now cand txs s = Some s' /\ s.(p_winner) = None /\ s'.(p_winner) = Some h /\ late s now = false.

Lemma write_candidate_winner cand s s' : write_candidate cand s = Some s' -> s'.(p_winner) = s.(p_winner).
Proof.
  unfold write_candidate. destruct (s.(p_svid) =? 0); [now intros [= <-]|]. cbn. destruct (s.(p_cands) !! cand); [|discriminate]. intros [= <-].
  unfold cnd_validate. cbn. destruct (_ <? _); [reflexivity|]. destruct (s.(p_electors) !! _); [|reflexivity]. destruct (_ =? _); [reflexivity|].
  now destruct (s.(p_cands) !! cand).
Qed.

Lemma elects_majority s h : elects s h -> exists c1 c2 n c, best_two s = (c1, c2, n) /\ c1 = Some (h, c) /\ majority s c1 c2 n = true.
Proof.
  intros (now & cand & txs & s' & E & Hnone & Hwin & Hlate). unfold count_votes in E. destruct (best_two s) as [[c1 c2] n].
  destruct c1 as [[best c]|].
  2: { destruct (my_turn s now); [apply write_candidate_winner in E|injection E as <-]; congruence. }
  assert (Ew : p_winner (elect now txs (Some (best, c)) c2 n best s) = Some h).
  { rewrite <- Hwin. set (s1 := elect _ _ _ _ _ _ _) in *. clearbody s1. destruct (winner_accepted s1) as [won|]; [|discriminate]. destruct won.
    - cbn in E. destruct (s1.(p_do_vote) =? 0); [now injection E as <-|]. now apply write_candidate_winner in E.
    - destruct (s1.(p_cands) !! best); [|discriminate]. destruct (_ && _); [now apply write_candidate_winner in E|].
      destruct (my_turn s1 now); [now apply write_candidate_winner in E|now injection E as <-]. }
  unfold elect in Ew. rewrite Hlate, orb_false_r in Ew. destruct (s.(p_do_block) =? 1); cbn in Ew; [|congruence].
  destruct (majority s (Some (best, c)) c2 n) eqn:Hm; cbn in Ew; [|congruence]. injection Ew as ->. eauto 8.
Qed.

Lemma LAST_block_msgs_same s s' : LAST_block_msgs s = Some s' -> same_votes s s'.
Proof. unfold LAST_block_msgs. destruct (block_msgs_loop _ _ _ _ _ _ _) as [[all svids]|]; [|discriminate]. intros [= <-]. now split. Qed.

Lemma save_candidate_electors blk h add del peer s s' : save_candidate blk h add del peer s = Some s' -> s'.(p_electors) = s.(p_electors).
Proof.
  unfold save_candidate. destruct (s.(p_cands) !! h); [intros [= <-]; now destruct (peer =? 0)|].
  destruct (add_loop _ _ _ _ _ _) as [[[[? ?] ?] ?]|]; [|discriminate]. now intros [= <-].
Qed.

Lemma start_poll_counting vote s0 cand s : weights_ok s0 -> no_candidates s0 -> start_poll s0 = Some (cand, s) ->
  voters s.(p_electors) /\ counting s.(p_electors) vote ∅ s.
Proof.
  intros Hw Hc E. destruct (prepare_poll_counting vote s0 Hw Hc) as (A1 & A2 & _). unfold start_poll in E. set (s1 := prepare_poll s0) in *. clearbody s1.
  destruct (LAST_block_msgs s1) as [s2|] eqn:E2; [|discriminate]. pose proof (LAST_block_msgs_same _ _ E2) as E3.
  destruct (save_candidate _ _ _ _ _ _) as [s3|] eqn:E6; [|discriminate]. injection E as _ ->.
  assert (I2 : counting s1.(p_electors) vote ∅ (s2 <| p_do_block := 1 |>)) by (eapply counting_fields; [..|exact (counting_same _ _ _ _ _ E3 A2)]; reflexivity).
  pose proof (save_candidate_counting _ _ _ _ _ _ _ _ _ _ E6 I2) as I3.
  assert (E7 : p_electors s = p_electors s1) by (rewrite (save_candidate_electors _ _ _ _ _ _ _ E6); apply E3).
  rewrite E7. auto.
Qed.

(** C11: the votes are conserved: in every state of an election the scores of
    the candidates and the votes still open sum up to all the votes, each
    score is the sum of the votes of counted voters, and nothing wraps. *)
Theorem votes_conserved vote s0 cand s s' : weights_ok s0 -> no_candidates s0 -> start_poll s0 = Some (cand, s) -> rtc (poll_step vote) s s' ->
  score_sum s'.(p_cands) + open_votes s'.(p_electors) = s'.(p_votes_max) /\ s'.(p_votes_max) < 2 ^ 64 /\
  exists cs, forall h c, s'.(p_cands) !! h = Some c -> c.(c_score) = tally s.(p_electors) vote cs h.
Proof.
  intros Hw Hc E Hrun. destruct (start_poll_counting vote s0 cand s Hw Hc E) as [Hv I0].
  destruct (poll_run_counting _ _ _ _ Hv Hrun (ex_intro _ _ I0)) as [cs [_ _ Hsc Hsum Hmax]]. eauto.
Qed.

(** C7: when every voter votes once, and the vote is the same for both nodes, two
    nodes with the same voters that start a poll without candidates and elect
    before the time limit elect the same candidate, whatever order the votes,
    candidates and messages arrive in at each of them.  (Of several votes of a
    voter the code counts the one that arrives first.) *)
Theorem election_agreement vote a0 b0 ca cb a b a' b' h g :
  weights_ok a0 -> no_candidates a0 -> start_poll a0 = Some (ca, a) -> weights_ok b0 -> no_candidates b0 -> start_poll b0 = Some (cb, b) ->
  a.(p_electors) = b.(p_electors) -> rtc (poll_step vote) a a' -> rtc (poll_step vote) b b' -> elects a' h -> elects b' g -> h = g.
Proof.
  intros Wa Na Ea Wb Nb Eb Esame Ra Rb Ha Hb.
  assert (Hwin : forall s0 c s s' k, weights_ok s0 -> no_candidates s0 -> start_poll s0 = Some (c, s) -> rtc (poll_step vote) s s' -> elects s' k ->
    forall j, j <> k -> votes_for s.(p_electors) vote j < votes_for s.(p_electors) vote k).
  { intros s0 c s s' k W N E R He j Hj. destruct (start_poll_counting vote s0 c s W N E) as [Hv I0].
    destruct (poll_run_counting _ _ _ _ Hv R (ex_intro _ _ I0)) as [cs I].
    destruct (elects_majority _ _ He) as (c1 & c2 & n & d & E1 & E2 & E3).
    eapply leads_wins; [exact Hv|exact I|]. eapply elected_leads; eauto. }
  destruct (decide (h = g)) as [|Hne]; [assumption|]. exfalso.
  pose proof (Hwin _ _ _ _ _ Wa Na Ea Ra Ha g ltac:(congruence)). pose proof (Hwin _ _ _ _ _ Wb Nb Eb Rb Hb h Hne). rewrite Esame in *. lia.
Qed.
End Votes.

(** * Two nodes elect *)

(** Four nodes, of which 1, 2 and 3 vote; node 1 has a message node 2 misses. *)
Definition demo_last : servers := demo_servers (H := quick_sha) [[10]; [10]; [10]; [10]].
Definition demo_tmsg (svid msid : Z) : tmsg :=
  {| t_num := le_val ([7; MSGTYPE_MSG] ++ le_bytes 4 msid ++ le_bytes 2 svid); t_svid := svid; t_msid := msid; t_status := MSGSTAT_COM;
     t_sigh := replicate 32 (svid + msid); t_got := demo_now |}.
Definition demo_blk (svid : Z) : tmsg :=
  {| t_num := svid; t_svid := svid; t_msid := demo_now - BLOCKSEC; t_status := MSGSTAT_VAL; t_sigh := []; t_got := 0 |}.
Definition demo_poll (svid : Z) (msgs : list tmsg) : poll :=
  {| p_svid := svid; p_now := demo_now; p_last := demo_last; p_dbl := ∅; p_blk := map demo_blk [1; 2; 3]; p_dbls := [];
     p_txs := list_to_map (map (fun m => (m.(t_num), m)) msgs); p_all := ∅; p_svids := ∅; p_cands := ∅; p_electors := ∅; p_votes_max := 0;
     p_do_vote := 0; p_do_block := 0; p_winner := None; p_block := 0; p_panic := false; p_readonly := false; p_sent := [] |}.
Definition demo_a : poll := demo_poll 1 [demo_tmsg 1 1; demo_tmsg 2 1].
Definition demo_b : poll := demo_poll 2 [demo_tmsg 2 1].
Definition demo_start (s : poll) : list Z * poll := match start_poll (H := quick_sha) s with Some r => r | None => ([], s) end.
Definition demo_choice : list Z := (demo_start demo_a).1.
Definition demo_key : Z := kmask (demo_tmsg 1 1).(t_num).
Definition demo_saved : poll :=
  match save_candidate demo_now demo_choice {[demo_key := replicate 32 2]} ∅ 1 (demo_start demo_b).2 with Some s => s | None => demo_b end.
Definition demo_counted (v : Z) (s : poll) : poll := cnd_validate 3 demo_now demo_choice (cnd_validate v demo_now demo_choice s).

Lemma demo_no_candidates s : s.(p_cands) = ∅ -> no_candidates s.
Proof. intros E. unfold no_candidates. rewrite E. apply map_Forall_empty. Qed.

Lemma demo_weights_ok svid l : weights_ok (demo_poll svid l).
Proof.
  intros v Hv. assert (E : poll_set (demo_poll svid l) = {[1; 2; 3]}) by (vm_compute; reflexivity). rewrite E in Hv.
  apply elem_of_union in Hv as [Hv|Hv]; [apply elem_of_union in Hv as [Hv|Hv]|]; apply elem_of_singleton in Hv as ->; vm_compute; split; discriminate.
Qed.

Definition demo_winner (s : poll) : option (list Z) := let* s' := count_votes demo_now demo_choice ∅ s in s'.(p_winner).

Lemma demo_elects s : negb (bool_decide (demo_winner s = None)) = true ->
  s.(p_winner) = None -> late s demo_now = false -> elects s (default [] (demo_winner s)).
Proof.
  intros E Hn Hl. unfold demo_winner in *. destruct (count_votes demo_now demo_choice ∅ s) as [s'|] eqn:Ec; [|discriminate].
  exists demo_now, demo_choice, ∅, s'. destruct (p_winner s') eqn:Ew; [auto|discriminate].
Qed.

Lemma demo_run_a : rtc (poll_step (fun _ => demo_choice)) (demo_start demo_a).2 (demo_counted 2 (demo_start demo_a).2).
Proof. do 2 (eapply rtc_r; [|now apply st_vote]). reflexivity. Qed.

Lemma demo_run_b : rtc (poll_step (fun _ => demo_choice)) (demo_start demo_b).2 (demo_counted 1 demo_saved).
Proof.
  do 2 (eapply rtc_r; [|now apply st_vote]). eapply rtc_once, (st_save _ demo_now demo_choice {[demo_key := replicate 32 2]} ∅ 1).
  vm_compute. reflexivity.
Qed.

Lemma election_agreement_witness :
  default [] (demo_winner (demo_counted 2 (demo_start demo_a).2)) = default [] (demo_winner (demo_counted 1 demo_saved)).
Proof.
  apply (election_agreement (H := quick_sha) (fun _ => demo_choice) demo_a demo_b (demo_start demo_a).1 (demo_start demo_b).1 (demo_start demo_a).2
    (demo_start demo_b).2 (demo_counted 2 (demo_start demo_a).2) (demo_counted 1 demo_saved)).
  - apply demo_weights_ok.
  - now apply demo_no_candidates.
  - vm_compute. reflexivity.
  - apply demo_weights_ok.
  - now apply demo_no_candidates.
  - vm_compute. reflexivity.
  - vm_compute. reflexivity.
  - apply demo_run_a.
  - apply demo_run_b.
  - apply demo_elects; vm_compute; reflexivity.
  - apply demo_elects; vm_compute; reflexivity.
Defined.

Lemma votes_conserved_witness :
  score_sum (demo_counted 1 demo_saved).(p_cands) + open_votes (demo_counted 1 demo_saved).(p_electors) = (demo_counted 1 demo_saved).(p_votes_max).
Proof.
  refine (proj1 (votes_conserved (H := quick_sha) (fun _ => demo_choice) demo_b (demo_start demo_b).1 (demo_start demo_b).2 (demo_counted 1 demo_saved) _ _ _ _)).
  - apply demo_weights_ok.
  - now apply demo_no_candidates.
  - vm_compute. reflexivity.
  - apply demo_run_b.
Defined.
