(* ===== verification/Sync.v ===== *)
(** The list of messages of a block between nodes ([escd/peer.hpp]): the
    exchange of lists at the end of a block ([sync_start] and what it calls),
    candidates in the votes of peers ([parse_vote]), and the list of the elected
    candidate (the first part of [LAST_block_final] in [escd/server.cpp]). *)

From stdpp Require Import base gmap list sorting.
From Stdlib Require Import ZArith Lia.
From S2P Require Import Prelude Params Usertxs Accounts Servers Chain HashTree MerklePath MsgTree TxProof Election.

Abbreviation hash_t := (list Z).

(** * Exchange of lists *)

(** What a node has for the exchange with a peer: its list, the last message of
    each node in it, [svid_msid_new] (the highest numbers both know of) and the
    number of nodes. *)
Record party := { y_all : gmap Z tmsg; y_svids : gmap Z tmsg; y_new : gmap Z Z; y_nodes : Z }.

(** What [read_peer_del] stores: [peer_del] and [PEER_block_del_start]. *)
Record peer_start := { b_del : Z; b_start : gmap Z Z }.

(** [PEER_block_del], [PEER_block_add] and [PEER_block_all]. *)
Record peer_lists := { k_del : gset Z; k_add : gmap Z hash_t; k_all : gmap Z hash_t }.

(** [write_serv_del]: where the own list ends before the peer's; [None] is the
    failed assertion on the 16-bit counter. *)
Definition del_entry (y : party) (q : Z * Z) : list (Z * Z) :=
  match y.(y_svids) !! q.1 with
  | None => [(q.1, 0)]
  | Some m => if m.(t_msid) <? q.2 then [(q.1, m.(t_msid))] else []
  end.
Definition write_serv_del (y : party) : option (list Z) :=
  let l := concat (map (del_entry y) (elems y.(y_new))) in
  let num_del := u16 (Z.of_nat (length l)) in
  check Z.of_nat (length l) =? num_del in
  Some (le_bytes 2 num_del ++ concat (map (fun q => le_bytes 2 q.1 ++ le_bytes 4 q.2) l)).

(** [read_peer_del]: [None] is an exception. *)
Fixpoint read_starts (n : nat) (nodes : Z) (d : list Z) (start : gmap Z Z) : option (gmap Z Z) :=
  match n with
  | O => Some start
  | S n =>
      let dsvid := rdz d 0 2 in
      check dsvid <? nodes in
      read_starts n nodes (drop 6 d) (<[dsvid := rdz d 2 4]> start)
  end.
Definition read_peer_del (y : party) (stream : list Z) : option peer_start :=
  let* (del, stream) := fread_le 2 stream in
  if (del =? 0) || (del =? 0xffff) then Some {| b_del := del; b_start := ∅ |}
  else
    let* (d, _) := fread (Z.to_nat (6 * del)) stream in
    let* start := read_starts (Z.to_nat del) y.(y_nodes) d ∅ in
    Some {| b_del := del; b_start := start |}.

(** The highest number of a node the peer has. *)
Definition maxmsid_of (y : party) (b : peer_start) (svid : Z) : Z :=
  match b.(b_start) !! svid with Some m => m | None => default 0 (y.(y_new) !! svid) end.

(** The loop of [write_serv_add]: the messages sent. *)
Fixpoint serv_adds (y : party) (b : peer_start) (peer_error : bool) (l : list (Z * tmsg)) (lastsvid maxmsid : Z) : list tmsg :=
  match l with
  | [] => []
  | (_, m) :: l =>
      let '(lastsvid, maxmsid) :=
        if negb (b.(b_del) =? 0xffff) && negb peer_error && negb (m.(t_svid) =? lastsvid) then (m.(t_svid), maxmsid_of y b m.(t_svid))
        else (lastsvid, maxmsid) in
      let rest := serv_adds y b peer_error l lastsvid maxmsid in
      if (b.(b_del) =? 0xffff) || peer_error || (maxmsid <? m.(t_msid)) then m :: rest else rest
  end.

Definition add_entry (m : tmsg) : list Z := le_bytes 4 m.(t_msid) ++ le_bytes 2 m.(t_svid) ++ m.(t_sigh).

(** [None]: the assertion on the 32-bit counter, or a length [4+data.size()] that
    does not fit the 32-bit length of a message, whose buffer is then too short. *)
Definition write_serv_add (y : party) (b : peer_start) (peer_error : bool) : option (list Z) :=
  let l := serv_adds y b peer_error (elems y.(y_all)) 0 0 in
  let num_add := u32 (Z.of_nat (length l)) in
  check Z.of_nat (length l) =? num_add in
  check 4 + 38 * num_add <? 2 ^ 32 in
  Some (le_bytes 4 num_add ++ concat (map add_entry l)).

(** The loop of [read_peer_add] that divides the own list. *)
Fixpoint own_lists (y : party) (b : peer_start) (l : list (Z * tmsg)) (lastsvid maxmsid : Z) (r : peer_lists) : peer_lists :=
  match l with
  | [] => r
  | (k, m) :: l =>
      let '(lastsvid, maxmsid) := if m.(t_svid) =? lastsvid then (lastsvid, maxmsid) else (m.(t_svid), maxmsid_of y b m.(t_svid)) in
      own_lists y b l lastsvid maxmsid
        (if maxmsid <? m.(t_msid) then r <| k_del ::= union {[k]} |> else r <| k_all ::= <[k := m.(t_sigh)]> |>)
  end.

(** [key] with its upper six bytes read. *)
Definition read_key (d : list Z) : Z := le_val ([0; 0] ++ rd d 0 6).
Definition add_key (k : Z) (h : hash_t) (r : peer_lists) : peer_lists :=
  {| k_del := r.(k_del) ∖ {[k]}; k_add := <[k := h]> r.(k_add); k_all := <[k := h]> r.(k_all) |}.
Definition del_key (k : Z) (r : peer_lists) : peer_lists :=
  {| k_del := {[k]} ∪ r.(k_del); k_add := delete k r.(k_add); k_all := delete k r.(k_all) |}.

(** The loop over the messages read; [None] is an exception. *)
Fixpoint read_adds (n : nat) (nodes : Z) (d : list Z) (r : peer_lists) : option peer_lists :=
  match n with
  | O => Some r
  | S n =>
      let key := read_key d in
      check key_svid key <? nodes in
      read_adds n nodes (drop 38 d) (add_key key (rd d 6 32) r)
  end.

Section Exchange.
Context `{Sha256}.

(** [read_peer_add]: the lists and whether the hash differs. The length that is
    read is the 32-bit [len] of the message; [None] is an exception, or the use of
    entries behind it that were not read. *)
Definition read_peer_add (error : bool) (y : party) (b : peer_start) (last_message_hash : hash_t) (stream : list Z) : option (peer_lists * bool) :=
  let* (num, stream) := fread_le 4 stream in
  let* (d, _) := fread (Z.to_nat (u32 (38 * num))) stream in
  check 38 * num <? 2 ^ 32 in
  let none := {| k_del := ∅; k_add := ∅; k_all := ∅ |} in
  let own := if negb error && negb (b.(b_del) =? 0xffff) then own_lists y b (elems y.(y_all)) 0 0 none else none <| k_del := dom y.(y_all) |> in
  let* r := read_adds (Z.to_nat num) y.(y_nodes) d own in
  Some (r, negb (bool_decide (last_message_hash = message_phash r.(k_all)))).

(** What [a] reads of [b] first, and again when the hash differs. *)
Definition first_lists (a b : party) : option (peer_lists * bool) :=
  let* del_b := write_serv_del b in
  let* start_a := read_peer_del a del_b in
  let* del_a := write_serv_del a in
  let* start_b := read_peer_del b del_a in
  let* add := write_serv_add b start_b false in
  read_peer_add false a start_a (message_shash b.(y_all)) add.
Definition all_lists (a b : party) : option (peer_lists * bool) :=
  let* del_b := write_serv_del b in
  let* start_a := read_peer_del a del_b in
  let* del_a := write_serv_del a in
  let* start_b := read_peer_del b del_a in
  let* add := write_serv_add b start_b true in
  read_peer_add true a start_a (message_shash b.(y_all)) add.
Definition retry (a b : party) (r : peer_lists * bool) : option (peer_lists * bool) := if r.2 then all_lists a b else Some r.

(** [sync_start] at [a] with the peer [b], which does the same. *)
Definition sync_start (a b : party) : option peer_lists :=
  let* ra := first_lists a b in
  let* rb := first_lists b a in
  let* (la, serv_error) := retry a b ra in
  let* (_, peer_error) := retry b a rb in
  if serv_error || peer_error then None else Some la.

(** [sync_finish] *)
Definition sync_finish (blk : Z) (h : hash_t) (r : peer_lists) (peer : Z) (s : poll) : option poll := save_candidate blk h r.(k_add) r.(k_del) peer s.

(** * Candidates in votes *)

Record vote_msg := { vm_msid : Z; vm_now : Z; vm_data : list Z }.

Fixpoint parse_dels (n : nat) (d : list Z) (r : peer_lists) : option (list Z * peer_lists) :=
  match n with
  | O => Some (d, r)
  | S n => check Nat.leb 6 (length d) in parse_dels n (drop 6 d) (del_key (read_key d) r)
  end.
Fixpoint parse_adds (n : nat) (d : list Z) (r : peer_lists) : option peer_lists :=
  match n with
  | O => Some r
  | S n => check Nat.leb 38 (length d) in parse_adds n (drop 38 d) (add_key (read_key d) (rd d 6 32) r)
  end.

(** The length field of a message. *)
Definition put_len (d : list Z) : list Z := take 1 d ++ le_bytes 3 (Z.of_nat (length d)) ++ drop 4 d.
Definition vote_head : nat := 4 + 64 + 10.

(** The message that is stored: its tail is rewritten for the own list. *)
Definition own_tail (m : vote_msg) (c : candidate) : vote_msg :=
  {| vm_msid := m.(vm_msid); vm_now := m.(vm_now); vm_data := put_len (take (vote_head + 32) m.(vm_data) ++ cand_tail c) |}.

(** A vote for an unknown candidate; [Refuses] is [return(0)], [Aborts] is a
    read behind the message or a failed assertion. *)
Definition parse_candidate (lists : peer_lists) (svid : Z) (m : vote_msg) (s : poll) : answer (poll * candidate) :=
  let d := m.(vm_data) in
  let len := Z.of_nat (length d) in
  let cand := rd d vote_head 32 in
  if len <? 4+64+10+32+4+2 then Refuses
  else ensure! (4+64+10+32+4+4 <=? len) in
    let num_del := rdz d (vote_head + 32) 4 in
    let num_add := rdz d (vote_head + 32 + 4) 4 in
    if (num_add =? 0) && (num_del =? 0) then Refuses
    else if len <? 4+64+10+32+4+4 + num_add*38 + u32 (num_del*6) then Refuses
    else
      match parse_dels (Z.to_nat num_del) (drop (vote_head + 32 + 8) d) lists with
      | None => Aborts
      | Some (d, r) =>
          match parse_adds (Z.to_nat num_add) d r with
          | None => Aborts
          | Some r =>
              if negb (bool_decide (cand = message_phash r.(k_all))) then Refuses
              else match save_candidate m.(vm_msid) cand r.(k_add) r.(k_del) svid s with
              | None => Aborts
              | Some s => match s.(p_cands) !! cand with Some c => Gives (s, c) | None => Aborts end
              end
          end
      end.

(** [parse_vote]: [block] is [LAST_block] when the vote arrives; the state is
    the one when the node has prepared the block. *)
Definition parse_vote (block : Z) (lists : peer_lists) (svid : Z) (m : vote_msg) (s : poll) : answer (poll * vote_msg) :=
  if (m.(vm_msid) <? block) || (u32 (block + BLOCKSEC) <? m.(vm_msid)) || (m.(vm_now) <? m.(vm_msid)) || (u32 (m.(vm_msid) + 2 * BLOCKSEC) <=? m.(vm_now))
  then Refuses
  else
    match (match known_candidate (rd m.(vm_data) vote_head 32) svid s with Some r => Gives r | None => parse_candidate lists svid m s end) with
    | Gives (s, c) => Gives (s, own_tail m c)
    | Refuses => Refuses
    | Aborts => Aborts
    end.

(** * The list of the elected candidate *)

(** A message that is only known by its hash; [None] is the failed assertion of
    [hashval]. *)
Definition final_msg (mysvid k : Z) (h : hash_t) : option tmsg :=
  check (key_msid k =? 0xffffffff) || negb (bool_decide (h = replicate 32 255)) in
  Some {| t_num := list_key mysvid (key_svid k) (key_msid k) h; t_svid := key_svid k; t_msid := key_msid k; t_status := MSGSTAT_VAL;
          t_sigh := h; t_got := 0 |}.

(** The messages kept; [insert] of a [std::map] does not replace. *)
Fixpoint final_keep (add : gmap Z hash_t) (l : list (Z * tmsg)) (r : gmap Z tmsg) : option (gmap Z tmsg) :=
  match l with
  | [] => Some r
  | (k, m) :: l =>
      let m := m <| t_status ::= fun s => Z.lor s MSGSTAT_VAL |> in
      check bool_decide (add !! k = None) in
      final_keep add l (match r !! m.(t_num) with Some _ => r | None => <[m.(t_num) := m]> r end)
  end.
Fixpoint final_add (mysvid : Z) (l : list (Z * hash_t)) (r : gmap Z tmsg) : option (gmap Z tmsg) :=
  match l with
  | [] => Some r
  | (k, h) :: l => let* m := final_msg mysvid k h in final_add mysvid l (<[m.(t_num) := m]> r)
  end.

(** Nodes marked for double spending by the list. *)
Definition final_dbl (all : list (Z * tmsg)) (add : list (Z * hash_t)) : gset Z :=
  list_to_set (map (fun q => q.2.(t_svid)) (filter (fun q => q.2.(t_msid) = 0xffffffff) all)) ∪
  list_to_set (map (fun q => key_svid q.1) (filter (fun q => key_msid q.1 = 0xffffffff) add)).

(** The check of the list; a node whose list differs exits. *)
Definition final_check (cand : hash_t) (r : gmap Z tmsg) : bool := bool_decide (message_shash r = cand).

(** The first part of [LAST_block_final]: [Aborts] is a failed assertion,
    [Refuses] the exit when the hash of the list is not the candidate's. *)
Definition final_list (cand : hash_t) (c : candidate) (s : poll) : answer (gmap Z tmsg * poll) :=
  ensure! s.(p_now) =? s.(p_block) in
  let all := elems (filter (fun q => q.1 ∉ c.(c_del)) s.(p_all)) in
  match final_keep c.(c_add) all ∅ with
  | None => Aborts
  | Some r =>
      match final_add s.(p_svid) (elems c.(c_add)) r with
      | None => Aborts
      | Some r =>
          if final_check cand r then Gives (r, s <| p_dbl ::= union (final_dbl all (elems c.(c_add))) |>) else Refuses
      end
  end.
End Exchange.
