(* ===== verification/SyncProps.v ===== *)
(** Lists of messages between nodes: two nodes that follow the protocol obtain
    each other's list, in one exchange when they agree on what both have; a
    candidate in a vote is read as the list that was voted for; and the list of
    an elected candidate has the hash that was elected. *)

From stdpp Require Import base gmap list sorting.
From Stdlib Require Import ZArith Lia.
From S2P Require Import Prelude Params Usertxs Accounts Servers Ledger Demo Chain HashTree MerklePath MsgTree TxProof Election ElectionProps Sync.

(** * Keys *)

Definition mkey (svid msid : Z) : Z := 2 ^ 16 * msid + 2 ^ 48 * svid.
Definition in_key (svid msid : Z) : Prop := 0 <= svid < 2 ^ 16 /\ 0 <= msid < 2 ^ 32.

Lemma mkey_bytes svid msid : in_key svid msid -> mkey svid msid = le_val ([0; 0] ++ le_bytes 4 msid ++ le_bytes 2 svid).
Proof.
  intros [Hs Hm]. rewrite <- (app_nil_r (le_bytes 2 svid)). unfold mkey.
  assert (Happ : forall n x l, 0 <= x < 256 ^ Z.of_nat n -> le_val (le_bytes n x ++ l) = x + 256 ^ Z.of_nat n * le_val l).
  { clear. induction n as [|n IH]; intros x l Hx; [cbn [le_bytes app]; change (256 ^ Z.of_nat 0) with 1 in *; lia|]. cbn [le_bytes app le_val].
    rewrite Nat2Z.inj_succ, Z.pow_succ_r in * by lia. rewrite IH; [|split; [apply Z.div_pos; lia|apply Z.div_lt_upper_bound; lia]].
    rewrite (Z.div_mod x 256) at 3 by lia. lia. }
  cbn [app le_val]. rewrite Happ by (change (256 ^ Z.of_nat 4) with (2 ^ 32); lia). rewrite Happ by (change (256 ^ Z.of_nat 2) with (2 ^ 16); lia).
  change (256 ^ Z.of_nat 4) with (2 ^ 32). change (256 ^ Z.of_nat 2) with (2 ^ 16). cbn [le_val]. lia.
Qed.

Lemma mkey_svid svid msid : in_key svid msid -> key_svid (mkey svid msid) = svid.
Proof.
  intros [Hs Hm]. unfold key_svid, mkey. rewrite Z.shiftr_div_pow2 by lia. rewrite (Z.mul_comm (2 ^ 48)), Z.div_add by lia.
  rewrite Z.div_small by lia. apply u16_small. lia.
Qed.

Lemma mkey_msid svid msid : in_key svid msid -> key_msid (mkey svid msid) = msid.
Proof.
  intros [Hs Hm]. unfold key_msid, mkey. rewrite Z.shiftr_div_pow2 by lia.
  replace (2 ^ 16 * msid + 2 ^ 48 * svid) with ((msid + 2 ^ 32 * svid) * 2 ^ 16) by lia. rewrite Z.div_mul by lia.
  change 0xFFFFFFFF with (Z.ones 32). rewrite Z.land_ones, Z.mul_comm, Z.mod_add by lia. apply Z.mod_small. lia.
Qed.

Lemma mkey_inj s m s' m' : in_key s m -> in_key s' m' -> mkey s m = mkey s' m' -> s = s' /\ m = m'.
Proof.
  intros H1 H2 E. pose proof (mkey_svid s m H1) as E1. pose proof (mkey_msid s m H1) as E2. rewrite E in E1, E2.
  rewrite mkey_svid in E1 by exact H2. rewrite mkey_msid in E2 by exact H2. auto.
Qed.

(** The key of an entry on the wire. *)
Lemma read_key_entry svid msid r : in_key svid msid -> read_key (le_bytes 4 msid ++ le_bytes 2 svid ++ r) = mkey svid msid.
Proof.
  intros Hk. unfold read_key. rewrite (assoc_L (++)), rd_app_here by (rewrite length_app, !length_le_bytes; reflexivity). now rewrite mkey_bytes.
Qed.

(** * The lists of a party *)

Definition hash_ok (h : hash_t) : Prop := length h = 32%nat /\ bytes h.
Definition tkey (m : tmsg) : Z := mkey m.(t_svid) m.(t_msid).
Definition tmsg_ok (m : tmsg) : Prop := in_key m.(t_svid) m.(t_msid) /\ 0 < m.(t_svid) /\ hash_ok m.(t_sigh).

(** A list of messages with their keys. *)
Definition list_ok (all : gmap Z tmsg) : Prop := map_Forall (fun k m => tmsg_ok m /\ k = tkey m) all.

Abbreviation sighs m := (t_sigh <$> m).

Section Hash.
Context `{Sha256}.

Lemma message_hashes (m : gmap Z tmsg) : message_shash m = message_phash (sighs m).
Proof. unfold message_shash, message_phash. rewrite elems_fmap, !map_map. reflexivity. Qed.
End Hash.

(** The lists of a peer as a difference to the own list. *)
Definition over (own : gmap Z tmsg) (add : gmap Z hash_t) (del : gset Z) (all : gmap Z hash_t) : Prop :=
  forall k, all !! k = match add !! k with Some h => Some h | None => if bool_decide (k ∈ del) then None else t_sigh <$> own !! k end.
Record lists_ok (own : gmap Z tmsg) (r : peer_lists) : Prop := {
  lo_over : over own r.(k_add) r.(k_del) r.(k_all);
  lo_disj : forall k, k ∈ r.(k_del) -> r.(k_add) !! k = None;
  lo_keys : map_Forall (fun k h => (exists svid msid, in_key svid msid /\ k = mkey svid msid) /\ hash_ok h) r.(k_add)
}.

Lemma add_key_ok own svid msid h r : in_key svid msid -> hash_ok h -> lists_ok own r -> lists_ok own (add_key (mkey svid msid) h r).
Proof.
  intros Hk Hh [Ho Hd Hok]. set (k := mkey svid msid). split; cbn.
  - intros j. destruct (decide (j = k)) as [->|Hn]; [now rewrite !lookup_insert_eq|]. rewrite !lookup_insert_ne by congruence. rewrite Ho.
    destruct (k_add r !! j); [reflexivity|]. apply bool_decide_ext_if. set_solver.
  - intros j Hj. rewrite lookup_insert_ne by set_solver. apply Hd. set_solver.
  - apply map_Forall_insert_2; [|exact Hok]. eauto.
Qed.

Lemma del_key_ok own k r : lists_ok own r -> lists_ok own (del_key k r).
Proof.
  intros [Ho Hd Hok]. split; cbn.
  - intros j. destruct (decide (j = k)) as [->|Hn].
    + rewrite !lookup_delete_eq, bool_decide_eq_true_2 by set_solver. reflexivity.
    + rewrite !lookup_delete_ne by congruence. rewrite Ho. destruct (k_add r !! j); [reflexivity|]. apply bool_decide_ext_if. set_solver.
  - intros j Hj. destruct (decide (j = k)) as [->|Hn]; [apply lookup_delete_eq|]. rewrite lookup_delete_ne by congruence. apply Hd. set_solver.
  - now apply map_Forall_delete.
Qed.

(** * Loops of the exchange *)

(** Messages added to the lists. *)
Definition add_all (l : list tmsg) (r : peer_lists) : peer_lists := foldl (fun r m => add_key (tkey m) m.(t_sigh) r) r l.

Lemma add_all_ok own l r : Forall tmsg_ok l -> lists_ok own r -> lists_ok own (add_all l r).
Proof.
  intros Hl. revert r. induction Hl as [|m l (Hk & _ & Hh) Hl IH]; intros r Hr; [exact Hr|]. cbn. apply IH. now apply add_key_ok.
Qed.

Lemma add_all_other l r k : (forall m, m ∈ l -> tkey m <> k) -> (add_all l r).(k_all) !! k = r.(k_all) !! k.
Proof.
  revert r. induction l as [|m l IH]; intros r Hk; [reflexivity|]. cbn. fold (add_all l (add_key (tkey m) m.(t_sigh) r)).
  rewrite IH by (intros; apply Hk; now right). cbn. apply lookup_insert_ne. apply Hk. left.
Qed.

Lemma add_all_in l r m : NoDup (map tkey l) -> m ∈ l -> (add_all l r).(k_all) !! tkey m = Some m.(t_sigh).
Proof.
  revert r. induction l as [|x l IH]; intros r Hnd Hm; [now apply not_elem_of_nil in Hm|]. cbn in Hnd. apply NoDup_cons in Hnd as [Hx Hnd].
  change (add_all (x :: l) r) with (add_all l (add_key (tkey x) x.(t_sigh) r)).
  apply elem_of_cons in Hm as [->|Hm]; [|now apply IH]. rewrite add_all_other; [apply lookup_insert_eq|].
  intros y Hy E. apply Hx. rewrite <- E. now apply list_elem_of_fmap_2.
Qed.

Lemma add_entry_read m r : tmsg_ok m -> let d := add_entry m ++ r in
  read_key d = tkey m /\ rd d 6 32 = m.(t_sigh) /\ drop 38 d = r /\ length (add_entry m) = 38%nat.
Proof.
  intros (Hk & _ & Hl & _). cbv zeta. unfold add_entry. rewrite <- !(assoc_L (++)). split; [now apply read_key_entry|].
  assert (El : length (le_bytes 4 m.(t_msid) ++ le_bytes 2 m.(t_svid) ++ m.(t_sigh)) = 38%nat) by (rewrite !length_app, !length_le_bytes, Hl; reflexivity).
  split; [|split; [|exact El]].
  - do 2 (rewrite rd_app_skip by (rewrite !length_le_bytes; lia)). rewrite !length_le_bytes. cbn [Nat.sub]. now apply rd_app_here.
  - rewrite !(assoc_L (++)). apply drop_app_length'. now rewrite <- !(assoc_L (++)).
Qed.

Lemma read_adds_entries l nodes r rest : Forall (fun m => tmsg_ok m /\ m.(t_svid) < nodes) l ->
  read_adds (length l) nodes (concat (map add_entry l) ++ rest) r = Some (add_all l r).
Proof.
  intros Hl. revert r. induction Hl as [|m l [Hm Hn] Hl IH]; intros r; [reflexivity|]. cbn [length map concat read_adds]. rewrite <- (assoc_L (++)).
  destruct (add_entry_read m (concat (map add_entry l) ++ rest) Hm) as (-> & -> & -> & _).
  unfold tkey. rewrite mkey_svid by apply Hm. rewrite (proj2 (Z.ltb_lt _ _)) by exact Hn. apply IH.
Qed.

Lemma entries_size l : Forall tmsg_ok l -> length (concat (map add_entry l)) = (38 * length l)%nat.
Proof.
  induction 1 as [|m l Hm Hl IH]; [reflexivity|]. cbn [map concat length]. rewrite length_app, IH.
  destruct (add_entry_read m [] Hm) as (_ & _ & _ & ->). lia.
Qed.

(** The loops that follow the node of a message look its number up. *)
Definition own_step (mx : Z -> Z) (r : peer_lists) (q : Z * tmsg) : peer_lists :=
  if mx q.2.(t_svid) <? q.2.(t_msid) then r <| k_del ::= union {[q.1]} |> else r <| k_all ::= <[q.1 := q.2.(t_sigh)]> |>.

Lemma own_lists_fold y b l ls mm r : (forall q, q ∈ l -> q.2.(t_svid) = ls -> mm = maxmsid_of y b ls) ->
  own_lists y b l ls mm r = foldl (own_step (maxmsid_of y b)) r l.
Proof.
  revert ls mm r. induction l as [|[k m] l IH]; intros ls mm r Hl; [reflexivity|]. cbn [own_lists foldl]. destruct (Z.eqb_spec m.(t_svid) ls) as [E|E].
  - rewrite IH by (intros q Hq; apply Hl; now right). unfold own_step at 3. cbn [fst snd]. now rewrite E, <- (Hl (k, m) ltac:(left) E).
  - rewrite IH by auto. reflexivity.
Qed.

Lemma serv_adds_filter y b l ls mm : b.(b_del) <> 0xffff -> (forall q, q ∈ l -> q.2.(t_svid) = ls -> mm = maxmsid_of y b ls) ->
  serv_adds y b false l ls mm = filter (fun m => maxmsid_of y b m.(t_svid) < m.(t_msid)) (map snd l).
Proof.
  intros Hb. revert ls mm. induction l as [|[k m] l IH]; intros ls mm Hl; [reflexivity|]. cbn [serv_adds map snd]. rewrite (proj2 (Z.eqb_neq _ _)) by exact Hb.
  cbn [negb andb orb]. rewrite filter_cons. destruct (Z.eqb_spec m.(t_svid) ls) as [E|E]; cbn [negb].
  - rewrite IH by (intros q Hq; apply Hl; now right). rewrite (Hl (k, m) ltac:(left) E), E. destruct (Z.ltb_spec (maxmsid_of y b ls) m.(t_msid)); case_decide; try lia; reflexivity.
  - rewrite IH by auto. destruct (Z.ltb_spec (maxmsid_of y b m.(t_svid)) m.(t_msid)); case_decide; try lia; reflexivity.
Qed.

Lemma serv_adds_all y b l ls mm : serv_adds y b true l ls mm = map snd l.
Proof. revert ls mm. induction l as [|[k m] l IH]; intros ls mm; [reflexivity|]. cbn [serv_adds map snd]. rewrite orb_true_r, andb_false_r. cbn. now rewrite IH. Qed.

Lemma serv_adds_sub y b e l ls mm : sublist (serv_adds y b e l ls mm) (map snd l).
Proof.
  revert ls mm. induction l as [|[k m] l IH]; intros ls mm; [constructor|]. cbn [serv_adds map snd]. destruct (_ && _ && _);
    (destruct (_ || _ || _); constructor; apply IH).
Qed.

(** The own list divided. *)
Definition divided (mx : Z -> Z) (own : gmap Z tmsg) (r : peer_lists) : Prop :=
  r.(k_add) = ∅ /\ (forall k, k ∈ r.(k_del) <-> exists m, own !! k = Some m /\ mx m.(t_svid) < m.(t_msid)) /\
  forall k, r.(k_all) !! k = match own !! k with Some m => if mx m.(t_svid) <? m.(t_msid) then None else Some m.(t_sigh) | None => None end.

Lemma own_fold_spec mx own :
  divided mx own (foldl (own_step mx) {| k_del := ∅; k_add := ∅; k_all := ∅ |} (elems own)).
Proof.
  assert (Hgen : forall l r, NoDup l.*1 -> let r' := foldl (own_step mx) r l in
    r'.(k_add) = r.(k_add) /\ (forall k, k ∈ r'.(k_del) <-> k ∈ r.(k_del) \/ exists m, (k, m) ∈ l /\ mx m.(t_svid) < m.(t_msid)) /\
    (forall k m, (k, m) ∈ l -> mx m.(t_svid) >= m.(t_msid) -> r'.(k_all) !! k = Some m.(t_sigh)) /\
    (forall k, (forall m, (k, m) ∈ l -> mx m.(t_svid) < m.(t_msid)) -> r'.(k_all) !! k = r.(k_all) !! k)).
  { induction l as [|[k m] l IH]; intros r Hnd; cbv zeta; [cbn; split; [reflexivity|]; split; [set_solver|]; split; [set_solver|reflexivity]|].
    cbn [foldl]. apply NoDup_cons in Hnd as [Hni Hnd]. destruct (IH (own_step mx r (k, m)) Hnd) as (A & B & C & D). cbv zeta in *.
    assert (Hni' : forall x, (k, x) ∉ l) by (intros x Hx; apply Hni; now apply (list_elem_of_fmap_2 fst) in Hx).
    unfold own_step in *. cbn [fst snd] in *. destruct (Z.ltb_spec (mx m.(t_svid)) m.(t_msid)) as [Hlt|Hge]; cbn in *; split; try exact A.
    - split; [|split].
      + intros j. rewrite B. set_solver.
      + intros j x Hx Hxm. apply elem_of_cons in Hx as [[= -> ->]|Hx]; [lia|now apply C].
      + intros j Hj. apply D. intros x Hx. apply Hj. now right.
    - split; [|split].
      + intros j. rewrite B. split; [set_solver|]. intros [Hj|(x & Hx & Hm)]; [now left|]. apply elem_of_cons in Hx as [[= -> ->]|Hx]; [lia|]. eauto.
      + intros j x Hx Hxm. apply elem_of_cons in Hx as [[= -> ->]|Hx]; [|now apply C]. rewrite D by (intros y Hy; now apply Hni' in Hy). apply lookup_insert_eq.
      + intros j Hj. rewrite D by (intros x Hx; apply Hj; now right). apply lookup_insert_ne. intros ->. specialize (Hj m ltac:(left)). lia. }
  destruct (Hgen (elems own) {| k_del := ∅; k_add := ∅; k_all := ∅ |} (elems_nodup own)) as (A & B & C & D). cbv zeta in *. split; [exact A|]. split.
  - intros k. rewrite B. cbn. setoid_rewrite elem_of_elems. set_solver.
  - intros k. destruct (own !! k) as [m|] eqn:Em.
    + destruct (Z.ltb_spec (mx m.(t_svid)) m.(t_msid)) as [Hlt|Hge].
      * rewrite D; [apply lookup_empty|]. intros x Hx. apply elem_of_elems in Hx. congruence.
      * apply C; [now apply elem_of_elems|lia].
    + rewrite D; [apply lookup_empty|]. intros x Hx. apply elem_of_elems in Hx. congruence.
Qed.

Lemma divided_ok mx own r : divided mx own r -> lists_ok own r.
Proof.
  intros (A & B & C). split.
  - intros k. rewrite A, lookup_empty, C. destruct (own !! k) as [m|] eqn:Em; cbn; [|now destruct (bool_decide _)].
    destruct (Z.ltb_spec (mx m.(t_svid)) m.(t_msid)).
    + rewrite bool_decide_eq_true_2; [reflexivity|]. apply B. eauto.
    + rewrite bool_decide_eq_false_2; [reflexivity|]. intros Hk. apply B in Hk as (x & Hx & Hlt). replace x with m in * by congruence. lia.
  - intros k _. now rewrite A, lookup_empty.
  - rewrite A. apply map_Forall_empty.
Qed.

(** * Where lists end *)

Definition top_of (y : party) (v : Z) : option Z := match y.(y_new) !! v with Some top => snd <$> head (del_entry y (v, top)) | None => None end.

Record party_ok (y : party) : Prop := {
  po_list : list_ok y.(y_all);
  po_size : 4 + 38 * Z.of_nat (length (elems y.(y_all))) < 2 ^ 32;
  po_svids : map_Forall (fun _ m => 0 <= m.(t_msid) < 2 ^ 32) y.(y_svids);
  po_new : map_Forall (fun v _ => 0 <= v < 2 ^ 16) y.(y_new);
  po_few : Z.of_nat (length (elems y.(y_new))) < 2 ^ 16 - 1
}.

(** The nodes of [b]'s messages are known to [a]. *)
Definition knows (a b : party) : Prop :=
  map_Forall (fun _ m => m.(t_svid) < a.(y_nodes)) b.(y_all) /\ map_Forall (fun v _ => v < a.(y_nodes)) b.(y_new).

Definition dels (y : party) : list (Z * Z) := concat (map (del_entry y) (elems y.(y_new))).

Lemma del_entry_cases y q : del_entry y q = [] \/ exists x, del_entry y q = [(q.1, x)] /\ (x = 0 \/ exists m, y.(y_svids) !! q.1 = Some m /\ x = m.(t_msid)).
Proof. unfold del_entry. destruct (_ !! _) as [m|]; [destruct (_ <? _)|]; eauto 8. Qed.

Lemma dels_sub y (l : list (Z * Z)) : sublist (concat (map (del_entry y) l)).*1 l.*1.
Proof.
  induction l as [|q l IH]; [constructor|]. cbn [map concat]. rewrite fmap_app. destruct (del_entry_cases y q) as [->|(x & -> & _)]; cbn; now constructor.
Qed.

Lemma elem_of_dels y v x : (v, x) ∈ dels y <-> top_of y v = Some x.
Proof.
  unfold dels, top_of. rewrite list_elem_of_In, in_concat. setoid_rewrite in_map_iff. setoid_rewrite <- list_elem_of_In. split.
  - intros (d & ([u top] & <- & Hin) & Hx). apply elem_of_elems in Hin. destruct (del_entry_cases y (u, top)) as [E|(z & E & _)]; rewrite E in Hx.
    + now apply not_elem_of_nil in Hx.
    + apply list_elem_of_singleton in Hx. injection Hx as -> ->. cbn [fst]. rewrite Hin. now rewrite E.
  - destruct (y.(y_new) !! v) as [top|] eqn:Et; [|discriminate]. intros E. exists (del_entry y (v, top)). split.
    + exists (v, top). split; [reflexivity|]. now apply elem_of_elems.
    + destruct (del_entry_cases y (v, top)) as [E'|(z & E' & _)]; rewrite E' in E |- *; [discriminate|]. cbn in E. injection E as ->. cbn. now left.
Qed.

Lemma dels_ok a b : party_ok b -> knows a b -> Forall (fun q => 0 <= q.1 < 2 ^ 16 /\ q.1 < a.(y_nodes) /\ 0 <= q.2 < 2 ^ 32) (dels b).
Proof.
  intros [_ _ Hs Hn _] [_ Hk]. apply Forall_forall. intros [v x] Hx. apply elem_of_dels in Hx. unfold top_of in Hx.
  destruct (b.(y_new) !! v) as [top|] eqn:Et; [|discriminate]. specialize (Hn v top Et). specialize (Hk v top Et). cbn. split; [exact Hn|]. split; [exact Hk|].
  destruct (del_entry_cases b (v, top)) as [E|(z & E & Hz)]; rewrite E in Hx; [discriminate|]. cbn in Hx. injection Hx as ->.
  destruct Hz as [->|(m & Hm & ->)]; [lia|]. exact (Hs _ _ Hm).
Qed.

Lemma read_starts_entries l nodes st : Forall (fun q => 0 <= q.1 < 2 ^ 16 /\ q.1 < nodes /\ 0 <= q.2 < 2 ^ 32) l ->
  read_starts (length l) nodes (concat (map (fun q => le_bytes 2 q.1 ++ le_bytes 4 q.2) l)) st = Some (foldl (fun st q => <[q.1 := q.2]> st) st l).
Proof.
  intros Hl. revert st. induction Hl as [|[v x] l (Hv & Hn & Hx) Hl IH]; intros st; [reflexivity|]. cbn [length map concat read_starts fst snd] in *.
  rewrite <- !(assoc_L (++)). rewrite (rdz_here 2 v) by (change (256 ^ Z.of_nat 2) with (2 ^ 16); lia). rewrite (proj2 (Z.ltb_lt _ _)) by exact Hn.
  rewrite (rdz_skip 2) by lia. cbn [Nat.sub]. rewrite (rdz_here 4 x) by (change (256 ^ Z.of_nat 4) with (2 ^ 32); lia).
  rewrite (assoc_L (++)), drop_app_length' by (rewrite length_app, !length_le_bytes; reflexivity). apply IH.
Qed.

Lemma del_exchange a b : party_ok b -> knows a b ->
  exists d st, write_serv_del b = Some d /\ read_peer_del a d = Some st /\ st.(b_del) <> 0xffff /\ forall v, st.(b_start) !! v = top_of b v.
Proof.
  intros Hb Hk. pose proof (dels_ok a b Hb Hk) as Hd. pose proof (dels_sub b (elems b.(y_new))) as Hsub. fold (dels b) in Hsub.
  assert (Hlen : Z.of_nat (length (dels b)) < 2 ^ 16 - 1).
  { apply sublist_length in Hsub. rewrite !length_fmap in Hsub. pose proof (po_few b Hb). lia. }
  assert (Hnd : NoDup (dels b).*1) by (eapply sublist_NoDup; [exact (elems_nodup b.(y_new))|exact Hsub]).
  set (enc := concat (map (fun q : Z * Z => le_bytes 2 q.1 ++ le_bytes 4 q.2) (dels b))).
  assert (Elen : length enc = (6 * length (dels b))%nat).
  { unfold enc. clear. induction (dels b) as [|q l IH]; [reflexivity|]. cbn [map concat length]. rewrite length_app, IH, length_app, !length_le_bytes. lia. }
  exists (le_bytes 2 (Z.of_nat (length (dels b))) ++ enc), {| b_del := Z.of_nat (length (dels b)); b_start := foldl (fun st q => <[q.1 := q.2]> st) ∅ (dels b) |}.
  cbn [b_del b_start]. split; [|split; [|split; [lia|]]].
  - unfold write_serv_del. fold (dels b). rewrite u16_small, Z.eqb_refl by lia. reflexivity.
  - unfold read_peer_del. rewrite fread_le_app by (change (256 ^ Z.of_nat 2) with (2 ^ 16); lia). rewrite (proj2 (Z.eqb_neq _ 0xffff)), orb_false_r by lia.
    destruct (Z.eqb_spec (Z.of_nat (length (dels b))) 0) as [E|E].
    + destruct (dels b); [reflexivity|cbn in E; lia].
    + rewrite <- (app_nil_r enc), fread_app by lia. rewrite Nat2Z.id. unfold enc. now rewrite read_starts_entries by exact Hd.
  - intros v. rewrite insert_entries, lookup_empty by exact Hnd. destruct (top_of b v) as [x|] eqn:Ex.
    + apply elem_of_dels in Ex. apply elem_of_list_to_map_1 in Ex; [|exact Hnd]. now rewrite Ex.
    + rewrite not_elem_of_list_to_map_1; [reflexivity|]. intros Hin. apply list_elem_of_fmap in Hin as ([u x] & -> & Hx). apply elem_of_dels in Hx. cbn in Ex. congruence.
Qed.

(** * The exchange *)

Definition no_lists : peer_lists := {| k_del := ∅; k_add := ∅; k_all := ∅ |}.
Definition own_part (e : bool) (y : party) (b : peer_start) : peer_lists :=
  if negb e && negb (b.(b_del) =? 0xffff) then own_lists y b (elems y.(y_all)) 0 0 no_lists else no_lists <| k_del := dom y.(y_all) |>.

Lemma list_ok_elems all : list_ok all -> Forall (fun q => tmsg_ok q.2 /\ q.1 = tkey q.2) (elems all).
Proof. intros Hl. apply Forall_forall. intros [k m] Hq. apply elem_of_elems in Hq. exact (Hl k m Hq). Qed.

Lemma own_start y q z : list_ok y.(y_all) -> q ∈ elems y.(y_all) -> q.2.(t_svid) = 0 -> z.
Proof.
  intros Hl Hq E. pose proof (list_ok_elems _ Hl) as Hf. rewrite Forall_forall in Hf. destruct (Hf q Hq) as [(_ & Hp & _) _]. lia.
Qed.

Lemma own_part_ok e y b : list_ok y.(y_all) -> lists_ok y.(y_all) (own_part e y b).
Proof.
  intros Hl. unfold own_part. destruct (_ && _).
  - rewrite own_lists_fold by (intros q Hq E; exact (own_start y q _ Hl Hq E)). eapply divided_ok, own_fold_spec.
  - split; cbn; [|intros; apply lookup_empty|apply map_Forall_empty]. intros k. rewrite !lookup_empty. destruct (y.(y_all) !! k) as [m|] eqn:Em.
    + rewrite bool_decide_eq_true_2; [reflexivity|]. apply elem_of_dom. eauto.
    + now destruct (bool_decide _).
Qed.

Lemma tkeys_nodup y : list_ok y.(y_all) -> NoDup (map tkey (map snd (elems y.(y_all)))).
Proof.
  intros Hl. rewrite map_map. assert (E : map (fun q => tkey q.2) (elems y.(y_all)) = (elems y.(y_all)).*1).
  { pose proof (list_ok_elems _ Hl) as Hf. induction Hf as [|q l [_ Hq] _ IH]; [reflexivity|]. cbn. now rewrite IH, Hq. }
  rewrite E. apply elems_nodup.
Qed.

Section Exchange.
Context `{Sha256}.

Definition got_lists (e : bool) (a b : party) (sa sb : peer_start) : peer_lists := add_all (serv_adds b sb e (elems b.(y_all)) 0 0) (own_part e a sa).

Lemma add_exchange e a b sa sb h : party_ok b -> knows a b ->
  exists d, write_serv_add b sb e = Some d /\
    read_peer_add e a sa h d = Some (got_lists e a b sa sb, negb (bool_decide (h = message_phash (got_lists e a b sa sb).(k_all)))).
Proof.
  intros Hb [Hk _]. unfold got_lists. set (l := serv_adds b sb e (elems b.(y_all)) 0 0).
  pose proof (serv_adds_sub b sb e (elems b.(y_all)) 0 0) as Hsub. fold l in Hsub.
  assert (Hl : Forall (fun m => tmsg_ok m /\ m.(t_svid) < a.(y_nodes)) l).
  { apply Forall_forall. intros m Hm. apply (elem_of_sublist _ _ _ Hm) in Hsub. apply list_elem_of_fmap in Hsub as ([k x] & -> & Hx).
    apply elem_of_elems in Hx. split; [apply (po_list b Hb k x Hx)|exact (Hk k x Hx)]. }
  assert (Hlen : 4 + 38 * Z.of_nat (length l) < 2 ^ 32) by (apply sublist_length in Hsub; rewrite length_map in Hsub; pose proof (po_size b Hb); lia).
  assert (Hok : Forall tmsg_ok l) by (eapply Forall_impl; [exact Hl|]; now intros m [Hm _]).
  exists (le_bytes 4 (Z.of_nat (length l)) ++ concat (map add_entry l)). split.
  - unfold write_serv_add. fold l. rewrite u32_small, Z.eqb_refl by lia. rewrite (proj2 (Z.ltb_lt _ _)) by lia. reflexivity.
  - unfold read_peer_add. rewrite fread_le_app by (change (256 ^ Z.of_nat 4) with (2 ^ 32); lia).
    rewrite (u32_small (38 * _)) by lia. rewrite <- (app_nil_r (concat _)), fread_app by (rewrite (entries_size l Hok); lia). rewrite (proj2 (Z.ltb_lt _ _)) by lia. rewrite Nat2Z.id. fold no_lists. fold (own_part e a sa).
    rewrite <- (app_nil_r (concat _)), read_adds_entries by exact Hl. reflexivity.
Qed.

Lemma got_lists_ok e a b sa sb : party_ok a -> party_ok b -> lists_ok a.(y_all) (got_lists e a b sa sb).
Proof.
  intros Ha Hb. apply add_all_ok; [|apply own_part_ok, Ha]. apply Forall_forall. intros m Hm.
  pose proof (elem_of_sublist _ _ _ Hm (serv_adds_sub b sb e (elems b.(y_all)) 0 0)) as Hin. apply list_elem_of_fmap in Hin as ([k x] & -> & Hx).
  apply elem_of_elems in Hx. apply (po_list b Hb k x Hx).
Qed.

(** With the whole list sent the list of the peer is the result. *)
Lemma got_all a b sa sb : party_ok b -> (got_lists true a b sa sb).(k_all) = sighs b.(y_all).
Proof.
  intros Hb. unfold got_lists. rewrite serv_adds_all. pose proof (tkeys_nodup b (po_list b Hb)) as Hnd. apply map_eq. intros k. rewrite lookup_fmap.
  destruct (b.(y_all) !! k) as [m|] eqn:Em; cbn.
  - destruct (po_list b Hb k m Em) as [_ ->]. apply add_all_in; [exact Hnd|]. apply list_elem_of_fmap. exists (tkey m, m). split; [reflexivity|]. now apply elem_of_elems.
  - rewrite add_all_other; [apply lookup_empty|]. intros m Hm E. apply list_elem_of_fmap in Hm as ([j x] & -> & Hx). apply elem_of_elems in Hx.
    destruct (po_list b Hb j x Hx) as [_ Hj]. cbn in E. congruence.
Qed.

Lemma first_lists_eq a b : party_ok a -> party_ok b -> knows a b -> knows b a ->
  exists sa sb, (forall v, sa.(b_start) !! v = top_of b v) /\ (forall v, sb.(b_start) !! v = top_of a v) /\ sa.(b_del) <> 0xffff /\ sb.(b_del) <> 0xffff /\
    first_lists a b = Some (got_lists false a b sa sb, negb (bool_decide (message_shash b.(y_all) = message_phash (got_lists false a b sa sb).(k_all)))) /\
    all_lists a b = Some (got_lists true a b sa sb, false).
Proof.
  intros Ha Hb Kab Kba. destruct (del_exchange a b Hb Kab) as (db & sa & E1 & E2 & Hda & Hsa). destruct (del_exchange b a Ha Kba) as (da & sb & E3 & E4 & Hdb & Hsb).
  exists sa, sb. do 4 (split; [assumption|]).
  destruct (add_exchange false a b sa sb (message_shash b.(y_all)) Hb Kab) as (d & E5 & E6).
  destruct (add_exchange true a b sa sb (message_shash b.(y_all)) Hb Kab) as (d' & E7 & E8).
  unfold first_lists, all_lists. rewrite E1, E2, E3, E4, E5, E7. split; [exact E6|]. rewrite E8. do 2 f_equal.
  rewrite (got_all a b sa sb Hb), <- message_hashes, bool_decide_eq_true_2 by reflexivity. reflexivity.
Qed.

Lemma retry_succeeds a b : party_ok a -> party_ok b -> knows a b -> knows b a ->
  exists r l, first_lists a b = Some r /\ retry a b r = Some (l, false) /\ lists_ok a.(y_all) l /\ message_phash l.(k_all) = message_shash b.(y_all).
Proof.
  intros Ha Hb Kab Kba. destruct (first_lists_eq a b Ha Hb Kab Kba) as (sa & sb & _ & _ & _ & _ & E1 & E2). rewrite E1.
  unfold retry. destruct (bool_decide_reflect (message_shash b.(y_all) = message_phash (got_lists false a b sa sb).(k_all))) as [E|E]; cbn [negb].
  - exists (got_lists false a b sa sb, false), (got_lists false a b sa sb). split; [reflexivity|]. split; [reflexivity|]. split; [now apply got_lists_ok|now symmetry].
  - exists (got_lists false a b sa sb, true), (got_lists true a b sa sb). split; [reflexivity|]. split; [exact E2|]. split; [now apply got_lists_ok|].
    now rewrite got_all, <- message_hashes.
Qed.

(** C9: the exchange of lists succeeds between nodes that follow the protocol,
    whatever their lists are, as long as the length of a list in bytes fits 32
    bits (up to about 113 million messages): each node ends with lists that differ from its
    own by the removed and added messages and have the hash the peer sent. *)
Theorem sync_succeeds a b : party_ok a -> party_ok b -> knows a b -> knows b a ->
  exists l, sync_start a b = Some l /\ lists_ok a.(y_all) l /\ message_phash l.(k_all) = message_shash b.(y_all).
Proof.
  intros Ha Hb Kab Kba. destruct (retry_succeeds a b Ha Hb Kab Kba) as (ra & la & E1 & E2 & Hl & Hh).
  destruct (retry_succeeds b a Hb Ha Kba Kab) as (rb & lb & E3 & E4 & _). exists la. unfold sync_start. rewrite E1, E3, E2, E4. auto.
Qed.

(** A list as [LAST_block_msgs] makes it: of each node the messages after number
    [lo] up to the last one, and marks of double spending. *)
Record follows (lo : Z -> Z) (y : party) : Prop := {
  fo_lo : forall v, 0 <= lo v;
  fo_last : map_Forall (fun v m => lo v < m.(t_msid) < 0xffffffff) y.(y_svids);
  fo_list : forall v x, in_key v x -> x <> 0xffffffff ->
    (is_Some (y.(y_all) !! mkey v x) <-> exists m, y.(y_svids) !! v = Some m /\ lo v < x <= m.(t_msid));
  fo_new : map_Forall (fun _ x => 0 <= x < 0xffffffff) y.(y_new)
}.

(** Up to which number both lists go. *)
Lemma maxmsid_spec lo a b sa v x : follows lo b -> a.(y_new) = b.(y_new) -> (forall v, sa.(b_start) !! v = top_of b v) -> 0 < x ->
  (x <= maxmsid_of a sa v <-> exists top m, b.(y_new) !! v = Some top /\ b.(y_svids) !! v = Some m /\ x <= top /\ x <= m.(t_msid)) /\
  maxmsid_of a sa v < 0xffffffff.
Proof.
  intros [_ Hlast _ Hnew] En Hs Hx. unfold maxmsid_of. rewrite Hs, En. unfold top_of, del_entry. cbn [fst snd].
  destruct (b.(y_new) !! v) as [top|] eqn:Et; [|cbn; split; [split; [lia|intros (? & ? & [=] & _)]|lia]]. specialize (Hnew v top Et). cbn in Hnew.
  destruct (b.(y_svids) !! v) as [m|] eqn:Em; [|cbn; split; [split; [lia|intros (? & ? & _ & [=] & _)]|lia]]. specialize (Hlast v m Em). cbn in Hlast.
  destruct (Z.ltb_spec m.(t_msid) top) as [Hlt|Hge]; cbn; (split; [|lia]; split;
    [intros; exists top, m; repeat split; lia|intros (? & ? & [= <-] & [= <-] & ? & ?); lia]).
Qed.

(** What both have the same, and what the peer lacks, follows from the ends. *)
Lemma kept_is_common lo a b sa k m : party_ok a -> follows lo a -> follows lo b -> a.(y_new) = b.(y_new) -> (forall v, sa.(b_start) !! v = top_of b v) ->
  a.(y_all) !! k = Some m -> m.(t_msid) <= maxmsid_of a sa m.(t_svid) ->
  is_Some (b.(y_all) !! k) /\ exists top, b.(y_new) !! m.(t_svid) = Some top /\ m.(t_msid) <= top.
Proof.
  intros Ha Fa Fb En Hs Hm Hle. destruct (po_list a Ha k m Hm) as [(Hk & _ & _) ->]. pose proof (fo_lo lo a Fa m.(t_svid)) as Hlo.
  assert (Hx : m.(t_msid) <> 0xffffffff).
  { intros E. destruct (maxmsid_spec lo a b sa m.(t_svid) 1 Fb En Hs ltac:(lia)) as [_ Hlt]. lia. }
  destruct (proj1 (fo_list lo a Fa _ _ Hk Hx) ltac:(eauto)) as (ma & _ & Hlx & _).
  destruct (maxmsid_spec lo a b sa m.(t_svid) m.(t_msid) Fb En Hs ltac:(lia)) as [Hi _]. apply Hi in Hle as (top & mb & Et & Emb & H1 & H2).
  split; [|eauto]. apply (fo_list lo b Fb _ _ Hk Hx). exists mb. auto.
Qed.

Lemma got_common lo a b sa sb : party_ok a -> party_ok b -> follows lo a -> follows lo b -> a.(y_new) = b.(y_new) ->
  (forall k ma mb, a.(y_all) !! k = Some ma -> b.(y_all) !! k = Some mb -> ma.(t_sigh) = mb.(t_sigh)) ->
  (forall v, sa.(b_start) !! v = top_of b v) -> (forall v, sb.(b_start) !! v = top_of a v) -> sa.(b_del) <> 0xffff -> sb.(b_del) <> 0xffff ->
  (got_lists false a b sa sb).(k_all) = sighs b.(y_all).
Proof.
  intros Ha Hb Fa Fb En Hag Hsa Hsb Da Db. unfold got_lists, own_part. rewrite (proj2 (Z.eqb_neq _ _)) by exact Da. cbn [negb andb].
  rewrite own_lists_fold by (intros q Hq E; exact (own_start a q _ (po_list a Ha) Hq E)).
  rewrite serv_adds_filter by (try exact Db; intros q Hq E; exact (own_start b q _ (po_list b Hb) Hq E)).
  destruct (own_fold_spec (maxmsid_of a sa) a.(y_all)) as (_ & _ & Hall). fold no_lists in Hall. set (r := foldl _ no_lists _) in *. clearbody r.
  set (sent := filter _ _).
  assert (Hsent : forall m, m ∈ sent <-> maxmsid_of b sb m.(t_svid) < m.(t_msid) /\ b.(y_all) !! tkey m = Some m).
  { intros m. unfold sent. rewrite list_elem_of_filter, list_elem_of_fmap. split.
    - intros [Hlt ([j x] & -> & Hx)]. apply elem_of_elems in Hx. destruct (po_list b Hb j x Hx) as [_ ->]. auto.
    - intros [Hlt Hx]. split; [exact Hlt|]. exists (tkey m, m). split; [reflexivity|]. now apply elem_of_elems. }
  assert (Hnd : NoDup (map tkey sent)).
  { eapply sublist_NoDup; [apply (tkeys_nodup b (po_list b Hb))|]. apply fmap_sublist, sublist_filter. }
  apply map_eq. intros k. rewrite lookup_fmap. destruct (b.(y_all) !! k) as [mb|] eqn:Eb; cbn.
  - destruct (po_list b Hb k mb Eb) as [_ Ek]. subst k. destruct (Z.ltb_spec (maxmsid_of b sb mb.(t_svid)) mb.(t_msid)) as [Hlt|Hge].
    + apply add_all_in; [exact Hnd|]. apply Hsent. auto.
    + destruct (kept_is_common lo b a sb (tkey mb) mb Hb Fb Fa (eq_sym En) Hsb Eb Hge) as [[ma Ea] (top & Et & Hle)].
      rewrite add_all_other by (intros x Hx E; apply Hsent in Hx as [Hlt Hx]; rewrite E, Eb in Hx; injection Hx as <-; lia).
      rewrite Hall, Ea. destruct (po_list a Ha _ ma Ea) as [(Hk & _ & _) E]. destruct (po_list b Hb _ mb Eb) as [(Hkb & _ & _) _].
      apply mkey_inj in E as [E1 E2]; [|assumption..]. rewrite <- E1, <- E2. rewrite (proj2 (Z.ltb_ge _ _)); [f_equal; eauto|].
      pose proof (fo_lo lo b Fb mb.(t_svid)) as Hlo.
      assert (Hx : mb.(t_msid) <> 0xffffffff) by (destruct (maxmsid_spec lo b a sb mb.(t_svid) 1 Fa (eq_sym En) Hsb ltac:(lia)); lia).
      destruct (proj1 (fo_list lo b Fb _ _ Hkb Hx) ltac:(eauto)) as (m & Em & Hm). rewrite En in Et.
      apply (maxmsid_spec lo a b sa mb.(t_svid) mb.(t_msid) Fb En Hsa); [lia|]. exists top, m. repeat split; try assumption; lia.
  - rewrite add_all_other by (intros x Hx E; apply Hsent in Hx as [_ Hx]; congruence). rewrite Hall.
    destruct (a.(y_all) !! k) as [ma|] eqn:Ea; [|reflexivity]. destruct (Z.ltb_spec (maxmsid_of a sa ma.(t_svid)) ma.(t_msid)) as [|Hge]; [reflexivity|].
    destruct (kept_is_common lo a b sa k ma Ha Fa Fb En Hsa Ea Hge) as [[? ?] _]. congruence.
Qed.

(** One exchange is enough for nodes that have the same messages where both
    have one: each sends only what lies behind the end of the other's list, and
    the lists the node computes are exactly the peer's. *)
Theorem sync_in_one lo a b : party_ok a -> party_ok b -> knows a b -> knows b a -> follows lo a -> follows lo b -> a.(y_new) = b.(y_new) ->
  (forall k ma mb, a.(y_all) !! k = Some ma -> b.(y_all) !! k = Some mb -> ma.(t_sigh) = mb.(t_sigh)) ->
  exists l, first_lists a b = Some (l, false) /\ l.(k_all) = sighs b.(y_all).
Proof.
  intros Ha Hb Kab Kba Fa Fb En Hag. destruct (first_lists_eq a b Ha Hb Kab Kba) as (sa & sb & Hsa & Hsb & Da & Db & E & _).
  pose proof (got_common lo a b sa sb Ha Hb Fa Fb En Hag Hsa Hsb Da Db) as Hg. exists (got_lists false a b sa sb). split; [|exact Hg].
  rewrite E, Hg, <- message_hashes, bool_decide_eq_true_2 by reflexivity. reflexivity.
Qed.
End Exchange.

(** * Two nodes exchange their lists *)

#[local] Instance in_key_dec s m : Decision (in_key s m).
Proof. unfold in_key. apply _. Defined.
#[local] Instance bytes_dec l : Decision (bytes l).
Proof. unfold bytes, is_byte. apply _. Defined.
#[local] Instance hash_ok_dec h : Decision (hash_ok h).
Proof. unfold hash_ok. apply _. Defined.
#[local] Instance list_ok_dec all : Decision (list_ok all).
Proof. unfold list_ok, tmsg_ok. apply _. Defined.

(** Node 1 has a message of each of nodes 1 and 2, node 2 the latter only. *)
Definition demo_one (svid : Z) : Z * tmsg := (mkey svid 1, demo_tmsg svid 1).
Definition demo_party_a : party :=
  {| y_all := list_to_map [demo_one 1; demo_one 2]; y_svids := {[1 := demo_tmsg 1 1; 2 := demo_tmsg 2 1]}; y_new := {[2 := 1]}; y_nodes := 5 |}.
Definition demo_party_b : party := {| y_all := list_to_map [demo_one 2]; y_svids := {[2 := demo_tmsg 2 1]}; y_new := {[2 := 1]}; y_nodes := 5 |}.

Lemma demo_party_ok y : list_ok y.(y_all) -> map_Forall (fun _ m => m.(t_msid) = 1) y.(y_svids) -> y.(y_new) = {[2 := 1]} ->
  Z.of_nat (length (elems y.(y_all))) < 3 -> party_ok y.
Proof.
  intros Hl Hs Hn Hlen. split; [exact Hl|lia| | |].
  - intros v m Hm. rewrite (Hs v m Hm). lia.
  - rewrite Hn. apply map_Forall_singleton. lia.
  - rewrite Hn. vm_compute. reflexivity.
Qed.

Lemma demo_a_ok : party_ok demo_party_a.
Proof. apply demo_party_ok; [apply (bool_decide_unpack _); vm_compute; exact I|apply (bool_decide_unpack _); vm_compute; exact I|reflexivity|vm_compute; reflexivity]. Qed.
Lemma demo_b_ok : party_ok demo_party_b.
Proof. apply demo_party_ok; [apply (bool_decide_unpack _); vm_compute; exact I|apply (bool_decide_unpack _); vm_compute; exact I|reflexivity|vm_compute; reflexivity]. Qed.
Lemma demo_knows_ab : knows demo_party_a demo_party_b.
Proof. split; apply (bool_decide_unpack _); vm_compute; exact I. Qed.
Lemma demo_knows_ba : knows demo_party_b demo_party_a.
Proof. split; apply (bool_decide_unpack _); vm_compute; exact I. Qed.

Lemma sync_succeeds_witness :
  exists l, sync_start (H := quick_sha) demo_party_a demo_party_b = Some l /\ lists_ok demo_party_a.(y_all) l /\
    message_phash (H := quick_sha) l.(k_all) = message_shash (H := quick_sha) demo_party_b.(y_all).
Proof. exact (sync_succeeds (H := quick_sha) _ _ demo_a_ok demo_b_ok demo_knows_ab demo_knows_ba). Defined.

(** Lists of first messages only. *)
Lemma demo_follows (vs : list Z) y : Forall (fun v => in_key v 1) vs -> NoDup vs -> y.(y_all) = list_to_map (map demo_one vs) ->
  (forall v, y.(y_svids) !! v = if bool_decide (v ∈ vs) then Some (demo_tmsg v 1) else None) -> y.(y_new) = {[2 := 1]} -> follows (fun _ => 0) y.
Proof.
  intros Hvs Hnd Ea Es En. assert (Hk : NoDup (map demo_one vs).*1).
  { change (map ?f ?l) with (f <$> l). rewrite <- list_fmap_compose. apply NoDup_fmap_2_strong; [|exact Hnd]. rewrite Forall_forall in Hvs.
    intros v w Hv Hw E. apply mkey_inj in E; [tauto|now apply Hvs..]. }
  split; [lia| | |rewrite En; apply map_Forall_singleton; lia].
  - intros v m. rewrite Es. case_bool_decide; [|discriminate]. intros [= <-]. cbn. lia.
  - intros v x Hin Hx. rewrite Ea, Es. split.
    + intros [m Hm]. apply elem_of_list_to_map_2, list_elem_of_fmap in Hm as (w & [= E ->] & Hw). rewrite Forall_forall in Hvs.
      apply mkey_inj in E as [-> ->]; [|exact Hin|now apply Hvs]. rewrite bool_decide_eq_true_2 by exact Hw. eexists. split; [reflexivity|]. cbn. lia.
    + intros (m & Hm & Hlt). case_bool_decide as Hv; [|discriminate]. injection Hm as <-. cbn in Hlt. assert (x = 1) as -> by lia. exists (demo_tmsg v 1).
      apply elem_of_list_to_map_1; [exact Hk|]. apply list_elem_of_fmap. exists v. auto.
Qed.

Lemma sync_in_one_witness :
  exists l, first_lists (H := quick_sha) demo_party_b demo_party_a = Some (l, false) /\ l.(k_all) = sighs demo_party_a.(y_all).
Proof.
  apply (sync_in_one (H := quick_sha) (fun _ => 0) _ _ demo_b_ok demo_a_ok demo_knows_ba demo_knows_ab).
  - apply (demo_follows [2]); [apply (bool_decide_unpack _); vm_compute; exact I|apply (bool_decide_unpack _); vm_compute; exact I|reflexivity| |reflexivity].
    intros v. cbn [y_svids demo_party_b]. case_bool_decide as E; [apply list_elem_of_singleton in E as ->; reflexivity|]. apply lookup_singleton_ne. set_solver.
  - apply (demo_follows [1; 2]); [apply (bool_decide_unpack _); vm_compute; exact I|apply (bool_decide_unpack _); vm_compute; exact I|reflexivity| |reflexivity].
    intros v. cbn [y_svids demo_party_a]. case_bool_decide as E.
    + apply elem_of_cons in E as [->|E]; [reflexivity|]. apply list_elem_of_singleton in E as ->. reflexivity.
    + rewrite lookup_insert_ne, lookup_singleton_ne by set_solver. reflexivity.
  - reflexivity.
  - intros k ma mb Ha Hb. apply (elem_of_list_to_map_2 [demo_one 2]) in Ha. apply (elem_of_list_to_map_2 [demo_one 1; demo_one 2]) in Hb.
    apply list_elem_of_singleton in Ha. injection Ha as -> ->. apply elem_of_cons in Hb as [E|Hb]; [discriminate|].
    apply list_elem_of_singleton in Hb. injection Hb as ->. reflexivity.
Defined.
