(* ===== verification/CandidateProps.v ===== *)
(** Candidates: what is stored for a candidate is always its list as a
    difference to the own list, so that no assertion on candidates fails and
    the list of an elected candidate has the elected hash; a vote carries the
    list of its candidate to the peers. *)

From stdpp Require Import base gmap list sorting.
From Stdlib Require Import ZArith Lia.
From S2P Require Import Prelude Params Usertxs Accounts Servers Ledger Demo Chain HashTree MerklePath MsgTree TxProof Election ElectionProps Sync SyncProps.

(** * The list of a candidate *)

Definition keys_ok (add : gmap Z hash_t) : Prop := map_Forall (fun k h => (exists svid msid, in_key svid msid /\ k = mkey svid msid) /\ hash_ok h) add.

(** [c] stands for the list [all] at a node with the list [own]. *)
Record stands_for (own : gmap Z tmsg) (c : candidate) (all : gmap Z hash_t) : Prop := {
  sf_over : over own c.(c_add) c.(c_del) all;
  sf_new : forall k, is_Some (c.(c_add) !! k) -> own !! k = None \/ k ∈ c.(c_del);
  sf_mis : c.(c_mis) ⊆ dom c.(c_add);
  sf_keys : keys_ok c.(c_add)
}.

Lemma add_loop_spec s all l add del mis failed :
  NoDup l.*1 -> (forall k h, (k, h) ∈ l -> add !! k = Some h /\ k ∉ del) -> over s.(p_all) add del all ->
  (forall k, k ∉ l.*1 -> is_Some (add !! k) -> s.(p_all) !! k = None \/ k ∈ del) -> mis ⊆ dom add -> (forall k, k ∈ l.*1 -> k ∉ mis) ->
  exists add' del' mis' failed', add_loop s l add del mis failed = Some (add', del', mis', failed') /\ over s.(p_all) add' del' all /\
    (forall k, is_Some (add' !! k) -> s.(p_all) !! k = None \/ k ∈ del') /\ mis' ⊆ dom add' /\ add' ⊆ add.
Proof.
  revert add del mis failed. induction l as [|[k h] l IH]; intros add del mis failed Hnd Hl Ho Hp Hm Hml.
  { exists add, del, mis, failed. split; [reflexivity|]. split; [exact Ho|]. split; [intros j; apply Hp, not_elem_of_nil|]. split; [exact Hm|reflexivity]. }
  cbn [add_loop]. cbn in Hnd. apply NoDup_cons in Hnd as [Hni Hnd]. destruct (Hl k h ltac:(left)) as [Hk Hkd]. rewrite bool_decide_eq_false_2 by exact Hkd. cbn [negb].
  assert (Hkm : k ∉ mis) by (apply Hml; left). assert (Hl' : forall j x, (j, x) ∈ l -> j <> k /\ add !! j = Some x /\ j ∉ del).
  { intros j x Hj. split; [|apply Hl; now right]. intros ->. apply Hni. now apply (list_elem_of_fmap_2 fst) in Hj. }
  assert (Hlk : forall j, j ∈ l.*1 -> j <> k) by (intros j Hj ->; contradiction).
  destruct (s.(p_all) !! k) as [me|] eqn:Eme.
  - case_bool_decide as Esig.
    + destruct (IH (delete k add) del mis failed Hnd) as (a' & d' & m' & f' & E & A & B & C & D); [..|exists a', d', m', f'; repeat (split; [assumption|])].
      * intros j x Hj. destruct (Hl' j x Hj) as (Hjk & Hja & Hjd). now rewrite lookup_delete_ne.
      * intros j. rewrite Ho. destruct (decide (j = k)) as [->|Hn]; [|now rewrite lookup_delete_ne].
        rewrite lookup_delete_eq, Hk, bool_decide_eq_false_2, Eme by exact Hkd. cbn. now rewrite Esig.
      * intros j Hj [x Hx]. apply lookup_delete_Some in Hx as [Hjk Hx]. apply Hp; [|eauto]. cbn. apply not_elem_of_cons. auto.
      * rewrite dom_delete_L. set_solver.
      * intros j Hj. apply Hml. now right.
      * etrans; [exact D|]. apply delete_subseteq.
    + apply IH; try assumption.
      * intros j x Hj. destruct (Hl' j x Hj) as (Hjk & Hja & Hjd). set_solver.
      * intros j. rewrite Ho. destruct (decide (j = k)) as [->|Hn]; [now rewrite Hk|]. destruct (add !! j); [reflexivity|]. apply bool_decide_ext_if. set_solver.
      * intros j Hj Hx. destruct (decide (j = k)) as [->|Hn]; [right; set_solver|]. destruct (Hp j) as [|]; [|exact Hx|now left|right; set_solver].
        cbn. apply not_elem_of_cons. auto.
      * intros j Hj. apply elem_of_union in Hj as [Hj|Hj]; [apply elem_of_singleton in Hj as ->; apply elem_of_dom; eauto|now apply Hm].
      * intros j Hj. specialize (Hlk j Hj). specialize (Hml j ltac:(now right)). set_solver.
  - assert (Hgo : forall mis', mis' = mis \/ mis' = {[k]} ∪ mis -> forall f, exists add' del' mis'' failed', add_loop s l add del mis' f = Some (add', del', mis'', failed') /\
      over s.(p_all) add' del' all /\ (forall k, is_Some (add' !! k) -> s.(p_all) !! k = None \/ k ∈ del') /\ mis'' ⊆ dom add' /\ add' ⊆ add).
    { intros mis' Hmis' f. apply IH; try assumption.
      - intros j x Hj. now destruct (Hl' j x Hj).
      - intros j Hj Hx. destruct (decide (j = k)) as [->|Hn]; [now left|]. apply Hp; [|exact Hx]. cbn. apply not_elem_of_cons. auto.
      - destruct Hmis' as [->| ->]; [exact Hm|]. intros j Hj. apply elem_of_union in Hj as [Hj|Hj]; [apply elem_of_singleton in Hj as ->; apply elem_of_dom; eauto|now apply Hm].
      - intros j Hj. specialize (Hlk j Hj). specialize (Hml j ltac:(now right)). destruct Hmis' as [->| ->]; set_solver. }
    destruct (_ =? _); [apply Hgo; auto|]. destruct (_ <=? _); [apply Hgo; auto|]. destruct (_ <=? _); [apply Hgo; auto|].
    destruct (message_svidmsid _ _ _) as [pm|]; [destruct (_ && _)|]; apply Hgo; auto.
Qed.

Section Candidates.
Context `{Sha256}.

(** What is stored under [h] stands for a list with the hash [h]. *)
Definition proper (own : gmap Z tmsg) (h : hash_t) (c : candidate) : Prop := exists all, stands_for own c all /\ message_phash all = h.
Definition cands_proper (s : poll) : Prop := map_Forall (proper s.(p_all)) s.(p_cands).

(** A new candidate stands for the lists it is made from; no assertion of
    [save_candidate] fails. *)
Lemma save_new blk h r peer s : lists_ok s.(p_all) r -> s.(p_cands) !! h = None ->
  exists c, save_candidate blk h r.(k_add) r.(k_del) peer s = Some (s <| p_cands ::= <[h := c]> |>) /\ stands_for s.(p_all) c r.(k_all) /\ c.(c_now) = blk.
Proof.
  intros [Ho Hd Hk] Hn. unfold save_candidate. rewrite Hn.
  destruct (add_loop_spec s r.(k_all) (elems r.(k_add)) r.(k_add) r.(k_del) ∅ (existsb (del_fails s) (elements r.(k_del)))) as (a & d & m & f & E & A & B & C & D).
  - apply elems_nodup.
  - intros k x Hx. apply elem_of_elems in Hx. split; [exact Hx|]. intros Hin. specialize (Hd k Hin). congruence.
  - exact Ho.
  - intros k Hni [x Hx]. exfalso. apply Hni, elems_keys. eauto.
  - set_solver.
  - set_solver.
  - rewrite E. exists (candidate_new blk a d m peer f). split; [reflexivity|]. split; [|reflexivity]. split; try assumption.
    intros k x Hx. apply (Hk k x). now apply (lookup_weaken _ _ _ _ Hx).
Qed.

Lemma save_proper blk h r peer s : lists_ok s.(p_all) r -> message_phash r.(k_all) = h -> cands_proper s ->
  exists s' c, save_candidate blk h r.(k_add) r.(k_del) peer s = Some s' /\ s'.(p_cands) !! h = Some c /\ cands_proper s' /\ s'.(p_all) = s.(p_all).
Proof.
  intros Hr Hh Hs. destruct (s.(p_cands) !! h) as [c|] eqn:Ec.
  - unfold save_candidate. rewrite Ec. destruct (peer =? 0); [eauto 8|]. eexists _, _. split; [reflexivity|]. cbn. rewrite lookup_insert_eq.
    split; [reflexivity|]. split; [|reflexivity]. apply map_Forall_insert_2; [|exact Hs]. destruct (Hs h c Ec) as (all & [A B C D] & Hall). exists all. now split.
  - destruct (save_new blk h r peer s Hr Ec) as (c & E & Hc & _). eexists _, c. split; [exact E|]. cbn. rewrite lookup_insert_eq.
    split; [reflexivity|]. split; [|reflexivity]. apply map_Forall_insert_2; [|exact Hs]. exists r.(k_all). auto.
Qed.

(** Steps that change no list; missing messages may be found. *)
Definition same_list (c c' : candidate) : Prop := c'.(c_add) = c.(c_add) /\ c'.(c_del) = c.(c_del) /\ c'.(c_mis) ⊆ c.(c_mis).

Lemma same_list_proper own h c c' : same_list c c' -> proper own h c -> proper own h c'.
Proof. intros (E1 & E2 & E3) (all & [A B C D] & Hall). exists all. split; [|exact Hall]. split; rewrite ?E1, ?E2; try assumption. set_solver. Qed.

Definition same_lists (s s' : poll) : Prop :=
  s'.(p_all) = s.(p_all) /\ s'.(p_now) = s.(p_now) /\ s'.(p_block) = s.(p_block) /\ s'.(p_svid) = s.(p_svid) /\
  forall h c', s'.(p_cands) !! h = Some c' -> exists c, s.(p_cands) !! h = Some c /\ same_list c c'.

Lemma same_list_refl c : same_list c c.
Proof. now repeat split. Qed.

#[global] Instance same_lists_preorder : PreOrder same_lists.
Proof.
  split.
  - intros s. repeat split. intros h c Hc. exists c. split; [exact Hc|apply same_list_refl].
  - intros s1 s2 s3 (A1 & A2 & A3 & A4 & A5) (B1 & B2 & B3 & B4 & B5). split; [congruence|]. split; [congruence|]. split; [congruence|]. split; [congruence|].
    intros h c3 H3. destruct (B5 h c3 H3) as (c2 & H2 & (E1 & E2 & E3)). destruct (A5 h c2 H2) as (c1 & H1 & (F1 & F2 & F3)). exists c1. split; [exact H1|].
    split; [congruence|]. split; [congruence|set_solver].
Qed.

Lemma same_lists_proper s s' : same_lists s s' -> cands_proper s -> cands_proper s'.
Proof.
  intros (E & _ & _ & _ & Hc) Hs h c' Hc'. destruct (Hc h c' Hc') as (c & Ec & Hsame). rewrite E. eapply same_list_proper; [exact Hsame|]. exact (Hs h c Ec).
Qed.

Lemma same_lists_insert s h c c' : s.(p_cands) !! h = Some c -> same_list c c' -> same_lists s (s <| p_cands ::= <[h := c']> |>).
Proof.
  intros Hc Hsame. repeat split. intros g d. cbn. destruct (decide (g = h)) as [->|Hn].
  - rewrite lookup_insert_eq. intros [= <-]. eauto.
  - rewrite lookup_insert_ne by congruence. intros Hd. exists d. split; [exact Hd|apply same_list_refl].
Qed.

Lemma cnd_validate_lists svid msid cand s : same_lists s (cnd_validate svid msid cand s).
Proof.
  unfold cnd_validate. destruct (_ <? _); [reflexivity|]. destruct (s.(p_electors) !! svid) as [w|]; [|reflexivity]. destruct (w =? 0); [reflexivity|].
  destruct (s.(p_cands) !! cand) as [c|] eqn:Ec; [|reflexivity].
  etrans; [eapply (same_lists_insert s cand c (c <| c_score ::= fun x => u64 (x + w) |>) Ec); now repeat split|]. repeat split. intros h d Hd. exists d.
  split; [exact Hd|apply same_list_refl].
Qed.

Lemma known_candidate_lists h peer s s' c : known_candidate h peer s = Some (s', c) -> same_lists s s' /\ s'.(p_cands) !! h = Some c.
Proof.
  unfold known_candidate. destruct (s.(p_cands) !! h) as [d|] eqn:Ed; [|discriminate]. intros [= <- <-]. split.
  - eapply same_lists_insert; [exact Ed|]. now destruct (peer =? 0).
  - cbn. apply lookup_insert_eq.
Qed.

(** The assertion of [update] holds. *)
Lemma update_candidates_lists m s : cands_proper s -> exists s', update_candidates m s = Some s' /\ same_lists s s'.
Proof.
  intros Hs. unfold update_candidates. destruct (0 <? s.(p_do_block)); [|exists s; split; reflexivity].
  assert (Hall : map_Forall (fun _ c => exists c', candidate_update m c = Some c' /\ same_list c c') s.(p_cands)).
  { intros h c Hc. destruct (Hs h c Hc) as (all & [_ _ Hmis _] & _). unfold candidate_update. case_bool_decide as Hin; [|exists c; split; [reflexivity|apply same_list_refl]].
    apply Hmis, elem_of_dom in Hin as [x Hx]. rewrite Hx. eexists. split; [reflexivity|]. case_bool_decide; [|apply same_list_refl]. repeat split. cbn. set_solver. }
  rewrite bool_decide_eq_true_2 by (intros h c Hc; destruct (Hall h c Hc) as (c' & -> & _); eauto). eexists. split; [reflexivity|].
  repeat split. intros h c'. cbn. rewrite lookup_omap. destruct (s.(p_cands) !! h) as [c|] eqn:Ec; [|discriminate]. cbn. intros E.
  destruct (Hall h c Ec) as (c'' & E' & Hsame). exists c. split; [reflexivity|]. congruence.
Qed.

Lemma found_missing_list txs c : same_list c (found_missing txs c).
Proof.
  unfold found_missing. generalize (merge_sort Z.le (elements (c_mis c))). intros l. assert (Hgen : forall d, same_list c d ->
    same_list c (foldl (fun c k => if find_com k (filter (fun q => k <= q.1) (elems txs)) then del_missing k c else c) d l)); [|apply Hgen, same_list_refl].
  induction l as [|k l IH]; intros d Hd; [exact Hd|]. cbn [foldl]. apply IH. destruct (find_com k _); [|exact Hd]. destruct Hd as (E1 & E2 & E3).
  split; [exact E1|]. split; [exact E2|]. cbn. set_solver.
Qed.

Lemma write_candidate_lists cand s s' : write_candidate cand s = Some s' -> same_lists s s'.
Proof.
  unfold write_candidate. destruct (s.(p_svid) =? 0); [now intros [= <-]|]. cbn. destruct (s.(p_cands) !! cand); [|discriminate]. intros [= <-].
  etrans; [|apply cnd_validate_lists]. repeat split. intros h d Hd. exists d. split; [exact Hd|apply same_list_refl].
Qed.

Lemma elect_lists now txs c1 c2 n best s : same_lists s (elect now txs c1 c2 n best s).
Proof.
  unfold elect. destruct (_ && _); [|reflexivity]. destruct (late s now); cbn; (repeat split; intros h d; cbn; rewrite lookup_alter; case_decide as E;
    [subst h; intros Hd; apply fmap_Some in Hd as (c & Hc & ->); exists c; split; [exact Hc|apply found_missing_list]|
     intros Hd; exists d; split; [exact Hd|apply same_list_refl]]).
Qed.

Lemma count_votes_lists now cand txs s s' : count_votes now cand txs s = Some s' -> same_lists s s'.
Proof.
  unfold count_votes. destruct (best_two s) as [[c1 c2] n]. destruct c1 as [[best c]|].
  2: { destruct (my_turn s now); [apply write_candidate_lists|now intros [= <-]]. }
  intros E. etrans; [apply (elect_lists now txs (Some (best, c)) c2 n best s)|]. set (s1 := elect _ _ _ _ _ _ _) in *. clearbody s1.
  destruct (winner_accepted s1) as [won|]; [|discriminate]. destruct won.
  - cbn in E. assert (E3 : same_lists s1 (s1 <| p_do_block := 3 |>)) by (repeat split; intros h d Hd; exists d; split; [exact Hd|apply same_list_refl]).
    etrans; [exact E3|]. destruct (s1.(p_do_vote) =? 0); [now injection E as <-|now apply write_candidate_lists in E].
  - destruct (s1.(p_cands) !! best); [|discriminate]. destruct (_ && _); [now apply write_candidate_lists in E|].
    destruct (my_turn s1 now); [now apply write_candidate_lists in E|now injection E as <-].
Qed.

(** * The list of an elected candidate *)

(** Messages carry their full identifier; the last two bytes are not part of
    the key. *)
Definition nums_ok (own : gmap Z tmsg) : Prop := map_Forall (fun k m => k <= m.(t_num) < k + 2 ^ 16) own.

Lemma list_key_range mysvid svid msid h : in_key svid msid -> hash_ok h ->
  mkey svid msid <= list_key mysvid svid msid h < mkey svid msid + 2 ^ 16.
Proof.
  intros Hk [Hl Hb]. rewrite (mkey_bytes _ _ Hk). unfold list_key.
  assert (Hn : is_byte (nthz h (Z.to_nat (mysvid mod 32)))).
  { unfold nthz. destruct (h !! _) as [x|] eqn:Ex; cbn; [|unfold is_byte; lia]. now apply (Forall_lookup_1 _ _ _ _ Hb) in Ex. }
  unfold is_byte in Hn. destruct (msid =? 0xffffffff); cbn [app le_val]; unfold MSGTYPE_DBL, MSGTYPE_MSG; lia.
Qed.

(** The message under a key in the final list. *)
Definition final_at (mysvid : Z) (own : gmap Z tmsg) (add : gmap Z hash_t) (k : Z) : Z * tmsg :=
  match add !! k with
  | Some h => let n := list_key mysvid (key_svid k) (key_msid k) h in
      (n, {| t_num := n; t_svid := key_svid k; t_msid := key_msid k; t_status := MSGSTAT_VAL; t_sigh := h; t_got := 0 |})
  | None => match own !! k with Some m => (m.(t_num), m <| t_status ::= fun s => Z.lor s MSGSTAT_VAL |>) | None => (0, dblhash 0) end
  end.

(** Hashes that can be part of an identifier. *)
Definition hashes_set (add : gmap Z hash_t) : Prop := map_Forall (fun k h => key_msid k = 0xffffffff \/ h <> replicate 32 255) add.

Lemma final_at_own mysvid own add k m : add !! k = None -> own !! k = Some m ->
  final_at mysvid own add k = (m.(t_num), m <| t_status ::= fun s => Z.lor s MSGSTAT_VAL |>).
Proof. unfold final_at. now intros -> ->. Qed.

Lemma final_keep_spec mysvid own add l r :
  (forall k m, (k, m) ∈ l -> own !! k = Some m /\ add !! k = None) -> NoDup (map fst (map (final_at mysvid own add) l.*1)) ->
  (forall k, k ∈ l.*1 -> r !! (final_at mysvid own add k).1 = None) ->
  final_keep add l r = Some (foldl (fun st q => <[q.1 := q.2]> st) r (map (final_at mysvid own add) l.*1)).
Proof.
  revert r. induction l as [|[k m] l IH]; intros r Hl Hnd Hr; [reflexivity|]. cbn [final_keep]. cbn [fmap list_fmap map foldl fst]. destruct (Hl k m ltac:(left)) as [Ho Ha].
  rewrite (bool_decide_eq_true_2 (add !! k = None)) by exact Ha. specialize (Hr k ltac:(left)) as Hrk. cbn in Hnd. apply NoDup_cons in Hnd as [Hni Hnd].
  rewrite (final_at_own _ _ _ _ _ Ha Ho) in Hrk, Hni |- *. cbn [fst snd] in Hrk, Hni |- *. change (t_num (m <| t_status ::= _ |>)) with (t_num m). rewrite Hrk.
  rewrite IH; [reflexivity|intros j x Hj; apply Hl; now right|exact Hnd|].
  intros j Hj. rewrite lookup_insert_ne; [apply Hr; right; exact Hj|]. intros E. apply Hni. rewrite E. now do 2 apply list_elem_of_fmap_2.
Qed.

Lemma final_add_spec mysvid own add l r : hashes_set add -> (forall k h, (k, h) ∈ l -> add !! k = Some h) ->
  final_add mysvid l r = Some (foldl (fun st q => <[q.1 := q.2]> st) r (map (final_at mysvid own add) l.*1)).
Proof.
  intros Hs. revert r. induction l as [|[k h] l IH]; intros r Hl; [reflexivity|]. cbn [final_add]. cbn [fmap list_fmap map foldl fst]. specialize (Hl k h ltac:(left)) as Hk.
  unfold final_msg. assert (Ec : (key_msid k =? 0xffffffff) || negb (bool_decide (h = replicate 32 255)) = true).
  { destruct (Hs k h Hk) as [E|E]; [now rewrite E|]. rewrite bool_decide_eq_false_2 by exact E. apply orb_true_r. }
  rewrite Ec. rewrite IH by (intros j x Hj; apply Hl; now right). unfold final_at at 2 3. rewrite Hk. reflexivity.
Qed.

(** Each key of the list of a candidate comes from the own list or is added,
    and its message has an identifier with this key. *)
Lemma final_at_cases mysvid own c all k h : list_ok own -> nums_ok own -> stands_for own c all -> all !! k = Some h ->
  (exists j, k = 2 ^ 16 * j) /\ k <= (final_at mysvid own c.(c_add) k).1 < k + 2 ^ 16 /\ t_sigh (final_at mysvid own c.(c_add) k).2 = h /\
  (is_Some (c.(c_add) !! k) \/ (c.(c_add) !! k = None /\ (k ∉ c.(c_del)) /\ is_Some (own !! k))).
Proof.
  intros Hl Hn [Ho Hnew _ Hk] E. rewrite Ho in E. unfold final_at. destruct (c.(c_add) !! k) as [x|] eqn:Ex.
  - injection E as ->. destruct (Hk k h Ex) as [(svid & msid & Hin & ->) Hh]. rewrite mkey_svid, mkey_msid by exact Hin. cbn [fst snd t_sigh].
    split; [exists (msid + 2 ^ 32 * svid); unfold mkey; lia|]. split; [now apply list_key_range|]. eauto.
  - case_bool_decide as Hd; [discriminate|]. destruct (own !! k) as [m|] eqn:Em; [|discriminate]. cbn in E. injection E as <-. cbn.
    destruct (Hl k m Em) as [_ Ek]. split; [exists (t_msid m + 2 ^ 32 * t_svid m); rewrite Ek; unfold tkey, mkey; lia|]. split; [exact (Hn k m Em)|].
    split; [reflexivity|]. right. eauto.
Qed.

(** The keys [final_list] walks over are the keys of the list. *)
Definition final_keys (own : gmap Z tmsg) (c : candidate) : list Z := (elems (filter (fun q => q.1 ∉ c.(c_del)) own)).*1 ++ (elems c.(c_add)).*1.

Lemma kept_not_added own c all k m : stands_for own c all -> (k, m) ∈ elems (filter (fun q => q.1 ∉ c.(c_del)) own) ->
  own !! k = Some m /\ c.(c_add) !! k = None /\ all !! k = Some m.(t_sigh).
Proof.
  intros [Ho Hnew _ _] Hkm. apply elem_of_elems, map_lookup_filter_Some in Hkm as [Hm Hd]. cbn in Hd. assert (Ha : c.(c_add) !! k = None).
  { destruct (c.(c_add) !! k) eqn:Ea; [|reflexivity]. destruct (Hnew k ltac:(eauto)) as [E|E]; [congruence|contradiction]. }
  rewrite Ho, Ha, bool_decide_eq_false_2, Hm by exact Hd. auto.
Qed.

Lemma elem_of_final_keys own c all k : list_ok own -> nums_ok own -> stands_for own c all -> k ∈ final_keys own c <-> is_Some (all !! k).
Proof.
  intros Hl Hn Hst. unfold final_keys. rewrite elem_of_app, !elems_keys. split.
  - intros [[m Hm]|[x Hx]]; [apply elem_of_elems, (kept_not_added _ _ _ _ _ Hst) in Hm as (_ & _ & ->); eauto|]. rewrite (sf_over _ _ _ Hst), Hx. eauto.
  - intros [x Hx]. destruct (final_at_cases 0 _ _ _ _ _ Hl Hn Hst Hx) as (_ & _ & _ & [Ha|(Ha & Hd & [m Hm])]); [now right|]. left. exists m.
    now apply map_lookup_filter_Some.
Qed.

Lemma final_keys_nodup mysvid own c all : list_ok own -> nums_ok own -> stands_for own c all ->
  NoDup (map fst (map (final_at mysvid own c.(c_add)) (final_keys own c))).
Proof.
  intros Hl Hn Hst. rewrite map_map. apply NoDup_fmap_2_strong.
  - intros j k Hj Hk E. apply (elem_of_final_keys _ _ _ _ Hl Hn Hst) in Hj as [x Hx], Hk as [y Hy].
    destruct (final_at_cases mysvid _ _ _ _ _ Hl Hn Hst Hx) as ([a ->] & Ha & _). destruct (final_at_cases mysvid _ _ _ _ _ Hl Hn Hst Hy) as ([b ->] & Hb & _).
    rewrite E in Ha. lia.
  - apply NoDup_app. split; [apply elems_nodup|]. split; [|apply elems_nodup]. intros k H1 H2. apply elems_keys in H1 as [m Hm].
    apply elem_of_elems, (kept_not_added _ _ _ _ _ Hst) in Hm as (_ & Hm & _). apply elems_keys in H2 as [x Hx]. congruence.
Qed.

Lemma final_list_spec h c s all : list_ok s.(p_all) -> nums_ok s.(p_all) -> stands_for s.(p_all) c all -> message_phash all = h ->
  hashes_set c.(c_add) -> s.(p_now) = s.(p_block) ->
  exists r s', final_list h c s = Gives (r, s') /\ elems r = map (fun q => final_at s.(p_svid) s.(p_all) c.(c_add) q.1) (elems all) /\ message_shash r = h.
Proof.
  intros Hl Hn Hst Hh Hff Hb. set (at_ := final_at s.(p_svid) s.(p_all) c.(c_add)).
  pose proof (final_keys_nodup s.(p_svid) _ _ _ Hl Hn Hst) as Hnd. fold at_ in Hnd. set (r := foldl (fun st q => <[q.1 := q.2]> st) (∅ : gmap Z tmsg) (map at_ (final_keys s.(p_all) c))).
  assert (Er : elems r = map (fun q => at_ q.1) (elems all)).
  { apply elems_map.
    - intros p q Hp Hq Hlt. destruct p as [k x], q as [j y]. apply elem_of_elems in Hp, Hq. cbn in *.
      destruct (final_at_cases s.(p_svid) _ _ _ _ _ Hl Hn Hst Hp) as ([a ->] & Ha & _). destruct (final_at_cases s.(p_svid) _ _ _ _ _ Hl Hn Hst Hq) as ([b ->] & Hb' & _).
      fold at_ in Ha, Hb'. lia.
    - intros n y. unfold r. rewrite insert_list_spec by exact Hnd. change (map at_ ?l) with (at_ <$> l). rewrite list_elem_of_fmap. split.
      + intros (k & E & Hk). apply (elem_of_final_keys _ _ _ _ Hl Hn Hst) in Hk as [x Hx]. exists (k, x). split; [now apply elem_of_elems|now symmetry].
      + intros ([k x] & Hx & E). apply elem_of_elems in Hx. exists k. split; [now symmetry|]. apply (elem_of_final_keys _ _ _ _ Hl Hn Hst). eauto. }
  assert (Eh : message_shash r = h).
  { rewrite <- Hh. unfold message_shash, message_phash. rewrite Er, map_map. do 2 f_equal. apply map_ext_in. intros [k x] Hx. cbn.
    apply list_elem_of_In, elem_of_elems in Hx. now destruct (final_at_cases s.(p_svid) _ _ _ _ _ Hl Hn Hst Hx) as (_ & _ & E & _). }
  unfold final_keys in Hnd. rewrite !map_app in Hnd. apply NoDup_app in Hnd as [Hnd _].
  unfold final_list. rewrite Hb, Z.eqb_refl. eexists r, _. split; [|auto].
  rewrite (final_keep_spec s.(p_svid) s.(p_all)); [|intros k m Hm; apply (kept_not_added _ _ _ _ _ Hst) in Hm; tauto|exact Hnd|intros; apply lookup_empty].
  rewrite (final_add_spec s.(p_svid) s.(p_all) c.(c_add)); [|exact Hff|intros k x Hx; now apply elem_of_elems]. fold at_. rewrite <- foldl_app, <- map_app.
  fold (final_keys s.(p_all) c). fold r. unfold final_check. rewrite bool_decide_eq_true_2 by exact Eh. reflexivity.
Qed.

(** * The own list *)

Lemma kmask_mod n : 0 <= n < 2 ^ 64 -> kmask n = 2 ^ 16 * (n / 2 ^ 16).
Proof.
  intros Hn. unfold kmask. change 0xFFFFFFFFFFFF0000 with (Z.shiftl (Z.ones 48) 16). rewrite <- Z.shiftr_div_pow2 by lia.
  rewrite Z.mul_comm, <- Z.shiftl_mul_pow2 by lia. apply Z.bits_inj'. intros i Hi. rewrite Z.land_spec, !Z.shiftl_spec by lia.
  destruct (Z.ltb_spec i 16) as [Hlt|Hge].
  - rewrite (Z.testbit_neg_r (Z.ones 48)), (Z.testbit_neg_r (Z.shiftr n 16)) by lia. apply andb_false_r.
  - rewrite Z.shiftr_spec by lia. replace (i - 16 + 16) with i by lia. destruct (Z.ltb_spec i 64) as [H64|H64].
    + rewrite Z.ones_spec_low by lia. apply andb_true_r.
    + rewrite Z.ones_spec_high by lia. rewrite andb_false_r. symmetry. apply Z.bits_above_log2; [lia|].
      destruct (Z.eq_dec n 0) as [->|Hz]; [cbn; lia|]. apply Z.log2_lt_pow2; [lia|]. apply (Z.lt_le_trans _ (2 ^ 64)); [lia|]. apply Z.pow_le_mono_r; lia.
Qed.

(** Messages of a node under their identifiers. *)
Definition txs_ok (txs : gmap Z tmsg) : Prop :=
  map_Forall (fun k m => k = m.(t_num) /\ tmsg_ok m /\ tkey m <= m.(t_num) < tkey m + 2 ^ 16) txs.

Lemma mkey_bound svid msid : in_key svid msid -> 0 <= mkey svid msid <= 2 ^ 64 - 2 ^ 16.
Proof. intros [Hs Hm]. unfold mkey. lia. Qed.

Lemma kmask_num m : in_key m.(t_svid) m.(t_msid) -> tkey m <= m.(t_num) < tkey m + 2 ^ 16 -> kmask m.(t_num) = tkey m.
Proof.
  intros Hk Hn. pose proof (mkey_bound _ _ Hk) as Hb. unfold tkey in *. rewrite kmask_mod by lia. unfold mkey in *.
  replace (t_num m) with ((t_num m - (2 ^ 16 * t_msid m + 2 ^ 48 * t_svid m)) + (t_msid m + 2 ^ 32 * t_svid m) * 2 ^ 16) by lia.
  rewrite Z.div_add, Z.div_small by lia. lia.
Qed.

Definition own_ok (all : gmap Z tmsg) : Prop := list_ok all /\ nums_ok all.

Lemma own_ok_insert all m : own_ok all -> tmsg_ok m -> tkey m <= m.(t_num) < tkey m + 2 ^ 16 -> own_ok (<[tkey m := m]> all).
Proof. intros [Hl Hn] Hm Hk. split; apply map_Forall_insert_2; auto. Qed.

Lemma block_msgs_ok s l ls mi no all sv all' sv' : Forall (fun q => q.1 = q.2.(t_num) /\ tmsg_ok q.2 /\ tkey q.2 <= q.2.(t_num) < tkey q.2 + 2 ^ 16) l ->
  own_ok all -> block_msgs_loop s l ls mi no all sv = Some (all', sv') -> own_ok all'.
Proof.
  intros Hl. revert ls mi no all sv. induction Hl as [|[k m] l (Ek & Hm & Hn) Hl IH]; intros ls mi no all sv Ho E; cbn [block_msgs_loop] in E; [now injection E as -> _|].
  cbn [fst snd] in *. destruct (_ || _); [eapply IH; eauto|]. destruct (_ =? m.(t_svid)).
  - destruct (_ <? _); [eapply IH; eauto|]. destruct (_ =? _); [|discriminate]. eapply IH; [|exact E]. rewrite Ek, kmask_num by (try exact Hn; apply Hm). now apply own_ok_insert.
  - destruct (_ <? _); [eapply IH; eauto|]. destruct (_ =? _); [|discriminate]. eapply IH; [|exact E]. rewrite Ek, kmask_num by (try exact Hn; apply Hm). now apply own_ok_insert.
Qed.

Lemma dblhash_ok svid : 0 < svid < 2 ^ 16 -> tmsg_ok (dblhash svid) /\ (dblhash svid).(t_num) = tkey (dblhash svid).
Proof.
  intros Hs. assert (Hk : in_key svid 0xffffffff) by (split; lia). split; [|symmetry; now apply mkey_bytes]. split; [exact Hk|]. split; [apply Hs|]. split.
  - cbn [dblhash t_sigh]. rewrite length_app, length_le_bytes, length_replicate. reflexivity.
  - apply bytes_app; [apply bytes_le_bytes|apply bytes_replicate0].
Qed.

Lemma add_dbl_ok s l all : Forall (fun m => 0 < m.(t_svid) < 2 ^ 16) l -> own_ok all -> own_ok (foldl (add_dbl s) all l).
Proof.
  intros Hl. revert all. induction Hl as [|m l Hm Hl IH]; intros all Ho; [exact Ho|]. cbn [foldl]. apply IH. unfold add_dbl. destruct (_ && _); [|exact Ho].
  destruct (dblhash_ok _ Hm) as [H1 H2]. rewrite H2. apply own_ok_insert; [exact Ho|exact H1|lia].
Qed.

Lemma LAST_block_msgs_own s s' : txs_ok s.(p_txs) -> Forall (fun m => 0 < m.(t_svid) < 2 ^ 16) s.(p_dbls) -> LAST_block_msgs s = Some s' ->
  own_ok s'.(p_all) /\ s'.(p_block) = s.(p_now) /\ s'.(p_now) = s.(p_now).
Proof.
  intros Ht Hd. unfold LAST_block_msgs. destruct (block_msgs_loop _ _ _ _ _ _ _) as [[all sv]|] eqn:E; [|discriminate]. intros [= <-]. cbn. split; [|auto].
  apply add_dbl_ok; [exact Hd|]. eapply block_msgs_ok; [..|exact E]; [|split; apply map_Forall_empty].
  apply Forall_forall. intros [k m] Hk. apply elem_of_elems in Hk. exact (Ht k m Hk).
Qed.

(** * Votes of peers *)

Lemma read_key_ok d : bytes d -> exists svid msid, in_key svid msid /\ read_key d = mkey svid msid.
Proof.
  intros Hd. pose proof (bytes_rd d 0 6 Hd) as Hb. pose proof (length_rd d 0 6) as Hl. unfold read_key. set (b := rd d 0 6) in *. clearbody b.
  exists (le_val (drop 4 b)), (le_val (take 4 b)).
  pose proof (le_bytes_val _ (bytes_take 4 b Hb)) as E1. pose proof (le_bytes_val _ (bytes_drop 4 b Hb)) as E2.
  rewrite length_take, Hl in E1. rewrite length_drop, Hl in E2. change (4 `min` 6)%nat with 4%nat in E1. change (6 - 4)%nat with 2%nat in E2.
  assert (Hk : in_key (le_val (drop 4 b)) (le_val (take 4 b))).
  { pose proof (le_val_bound _ (bytes_take 4 b Hb)) as H1. pose proof (le_val_bound _ (bytes_drop 4 b Hb)) as H2. rewrite length_take, Hl in H1. rewrite length_drop, Hl in H2.
    split; [exact H2|exact H1]. }
  split; [exact Hk|]. rewrite (mkey_bytes _ _ Hk), E1, E2, take_drop. reflexivity.
Qed.

Lemma parse_dels_ok own n d r d' r' : bytes d -> lists_ok own r -> parse_dels n d r = Some (d', r') -> bytes d' /\ lists_ok own r'.
Proof.
  revert d r. induction n as [|n IH]; intros d r Hd Hr E; cbn [parse_dels] in E; [injection E as <- <-; auto|]. destruct (Nat.leb _ _); [|discriminate].
  eapply IH; [..|exact E]; [now apply bytes_drop|now apply del_key_ok].
Qed.

Lemma parse_adds_ok own n d r r' : bytes d -> lists_ok own r -> parse_adds n d r = Some r' -> lists_ok own r'.
Proof.
  revert d r. induction n as [|n IH]; intros d r Hd Hr E; cbn [parse_adds] in E; [now injection E as <-|]. destruct (Nat.leb _ _); [|discriminate].
  destruct (read_key_ok d Hd) as (svid & msid & Hk & Ek). rewrite Ek in E. eapply IH; [..|exact E]; [now apply bytes_drop|].
  apply add_key_ok; [exact Hk|split; [apply length_rd|now apply bytes_rd]|exact Hr].
Qed.

Lemma save_fields blk h add del peer s s' : save_candidate blk h add del peer s = Some s' -> s'.(p_all) = s.(p_all) /\ s'.(p_now) = s.(p_now) /\ s'.(p_block) = s.(p_block).
Proof.
  unfold save_candidate. destruct (s.(p_cands) !! h); [intros [= <-]; now destruct (peer =? 0)|].
  destruct (add_loop _ _ _ _ _ _) as [[[[? ?] ?] ?]|]; [|discriminate]. now intros [= <-].
Qed.

(** What a vote adds is proper, whatever its bytes are. *)
Lemma parse_candidate_proper lists svid m s s' c : lists_ok s.(p_all) lists -> bytes m.(vm_data) -> cands_proper s ->
  parse_candidate lists svid m s = Gives (s', c) -> cands_proper s' /\ s'.(p_all) = s.(p_all) /\ s'.(p_now) = s.(p_now) /\ s'.(p_block) = s.(p_block).
Proof.
  intros Hr Hd Hs E. unfold parse_candidate in E. destruct (_ <? _); [discriminate|]. destruct (_ <=? _); [|discriminate]. destruct (_ && _); [discriminate|].
  destruct (_ <? _); [discriminate|]. destruct (parse_dels _ _ _) as [[d r]|] eqn:E1; [|discriminate].
  apply (parse_dels_ok s.(p_all)) in E1 as [Hd1 Hr1]; [|now apply bytes_drop|exact Hr]. destruct (parse_adds _ _ _) as [r2|] eqn:E2; [|discriminate].
  apply (parse_adds_ok s.(p_all)) in E2; [|exact Hd1|exact Hr1]. case_bool_decide as Eh; [|discriminate]. cbn [negb] in E.
  destruct (save_candidate _ _ _ _ _ _) as [s2|] eqn:E3; [|discriminate]. destruct (save_proper m.(vm_msid) _ r2 svid s E2 (eq_sym Eh) Hs) as (s3 & c3 & E4 & _ & Hp & Ha).
  rewrite E3 in E4. injection E4 as ->. destruct (_ !! _); [|discriminate]. injection E as <- _. split; [exact Hp|]. split; [exact Ha|].
  destruct (save_fields _ _ _ _ _ _ _ E3) as (_ & E5 & E6). auto.
Qed.

(** What changes candidates at a node; candidates come from the lists the node
    has of its peers. *)
Inductive list_step : poll -> poll -> Prop :=
| ls_vote svid msid cand s : list_step s (cnd_validate svid msid cand s)
| ls_sync blk r peer s s' : lists_ok s.(p_all) r -> sync_finish blk (message_phash r.(k_all)) r peer s = Some s' -> list_step s s'
| ls_parse block lists svid m s s' m' : lists_ok s.(p_all) lists -> bytes m.(vm_data) -> parse_vote block lists svid m s = Gives (s', m') -> list_step s s'
| ls_update m s s' : update_candidates m s = Some s' -> list_step s s'
| ls_count now cand txs s s' : count_votes now cand txs s = Some s' -> list_step s s'.

(** What holds in all states of an election. *)
Definition lists_inv (s : poll) : Prop := own_ok s.(p_all) /\ s.(p_now) = s.(p_block) /\ cands_proper s.

Lemma same_lists_inv s s' : same_lists s s' -> lists_inv s -> lists_inv s'.
Proof.
  intros Hsame (Ho & Hb & Hc). pose proof Hsame as (E1 & E2 & E3 & _). split; [now rewrite E1|]. split; [congruence|]. eapply same_lists_proper; [exact Hsame|exact Hc].
Qed.

Lemma list_step_inv s s' : list_step s s' -> lists_inv s -> lists_inv s'.
Proof.
  intros Hstep I. pose proof I as (Ho & Hb & Hc). destruct Hstep as [svid msid cand s|blk r peer s s' Hr E|block lists svid m s s' m' Hr Hd E|m s s' E|now cand txs s s' E].
  - eapply same_lists_inv; [apply cnd_validate_lists|exact I].
  - unfold sync_finish in E. destruct (save_proper blk _ r peer s Hr eq_refl Hc) as (s2 & c & E2 & _ & Hp & Ha). rewrite E in E2. injection E2 as <-.
    destruct (save_fields _ _ _ _ _ _ _ E) as (E3 & E4 & E5). split; [now rewrite E3|]. split; [congruence|exact Hp].
  - unfold parse_vote in E. destruct (_ || _); [discriminate|]. destruct (known_candidate _ _ _) as [[s2 c]|] eqn:Ek.
    + injection E as <- _. apply known_candidate_lists in Ek as [Ek _]. eapply same_lists_inv; [exact Ek|exact I].
    + destruct (parse_candidate _ _ _ _) as [[s2 c]| |] eqn:Ep; [|discriminate..]. injection E as <- _.
      destruct (parse_candidate_proper _ _ _ _ _ _ Hr Hd Hc Ep) as (Hp & E1 & E2 & E3). split; [now rewrite E1|]. split; [congruence|exact Hp].
  - destruct (update_candidates_lists m s Hc) as (s2 & E2 & Hsame). rewrite E in E2. injection E2 as <-. eapply same_lists_inv; [exact Hsame|exact I].
  - eapply same_lists_inv; [eapply count_votes_lists, E|exact I].
Qed.

Lemma LAST_block_msgs_cands s s' : LAST_block_msgs s = Some s' -> s'.(p_cands) = s.(p_cands).
Proof. unfold LAST_block_msgs. destruct (block_msgs_loop _ _ _ _ _ _ _) as [[? ?]|]; [|discriminate]. now intros [= <-]. Qed.

(** The state of a node before an election. *)
Definition poll_ok (s : poll) : Prop := txs_ok s.(p_txs) /\ Forall (fun m => 0 < m.(t_svid) < 2 ^ 16) s.(p_dbls) /\ no_candidates s.

Lemma give_votes_fields rank j s :
  (give_votes j rank s).(p_txs) = s.(p_txs) /\ (give_votes j rank s).(p_dbls) = s.(p_dbls) /\ (give_votes j rank s).(p_cands) = s.(p_cands).
Proof. revert j s. induction rank as [|[v n] rank IH]; intros j s; [auto|]. cbn [give_votes]. now destruct (IH (j + 1) (s <| p_do_vote ::= fun d => if v =? s.(p_svid) then 1 + j else d |> <| p_electors ::= <[v := elector_score n]> |> <| p_votes_max ::= fun x => u64 (x + elector_score n) |>)) as (-> & -> & ->). Qed.

Lemma start_poll_lists s0 cand s : poll_ok s0 -> start_poll s0 = Some (cand, s) -> lists_inv s.
Proof.
  intros (Ht & Hd & Hc) E. unfold start_poll in E.
  assert (Hp : p_txs (prepare_poll s0) = p_txs s0 /\ p_dbls (prepare_poll s0) = p_dbls s0 /\ p_cands (prepare_poll s0) = ∅).
  { unfold prepare_poll. cbn. match goal with |- context [give_votes 0 ?r ?x] => destruct (give_votes_fields r 0 x) as (-> & -> & ->) end. cbn. split; [reflexivity|].
    split; [reflexivity|]. apply map_eq. intros h. rewrite lookup_empty, map_lookup_filter_None. right. intros c Ec. specialize (Hc h c Ec). cbn in Hc |- *.
    rewrite (proj2 (Z.ltb_lt _ _)) by exact Hc. discriminate. }
  destruct Hp as (E1 & E2 & E3). destruct (LAST_block_msgs (prepare_poll s0)) as [s1|] eqn:El; [|discriminate].
  assert (E4 : p_cands s1 = ∅).
  { rewrite <- E3. now apply LAST_block_msgs_cands. }
  destruct (LAST_block_msgs_own _ _ ltac:(rewrite E1; exact Ht) ltac:(rewrite E2; exact Hd) El) as (Ho & Hb & Hn).
  set (own := {| k_del := ∅; k_add := ∅; k_all := sighs s1.(p_all) |}). set (s2 := s1 <| p_do_block := 1 |>) in *.
  assert (Hown : lists_ok s2.(p_all) own).
  { split; cbn; [|intros; apply lookup_empty|apply map_Forall_empty]. intros k. now rewrite lookup_empty, lookup_fmap. }
  destruct (save_proper s1.(p_now) (message_shash s1.(p_all)) own s1.(p_svid) s2 Hown) as (s3 & c & E5 & _ & Hp & Ha).
  { symmetry. apply message_hashes. }
  { unfold cands_proper. cbn. rewrite E4. apply map_Forall_empty. }
  cbn [own k_add k_del] in E5. rewrite E5 in E. injection E as _ <-. destruct (save_fields _ _ _ _ _ _ _ E5) as (_ & E6 & E7).
  split; [rewrite Ha; exact Ho|]. split; [rewrite E6, E7; cbn; congruence|exact Hp].
Qed.

(** C8: the elected list has the elected hash: in every state of an election
    the list that [LAST_block_final] makes for any of the candidates of the
    node has the hash of the candidate, none of the assertions fails, and a
    new message updates all candidates without a failed assertion. *)
Theorem elected_list_hash s0 cand s s' h c : poll_ok s0 -> start_poll s0 = Some (cand, s) -> rtc list_step s s' ->
  s'.(p_cands) !! h = Some c -> hashes_set c.(c_add) ->
  (exists r s'', final_list h c s' = Gives (r, s'') /\ message_shash r = h) /\ forall m, is_Some (update_candidates m s').
Proof.
  intros Hok E Hrun Hc Hff. assert (I : lists_inv s') by (apply start_poll_lists in E; [|exact Hok]; clear -Hrun E; induction Hrun; eauto using list_step_inv).
  destruct I as ([Hl Hn] & Hb & Hp). destruct (Hp h c Hc) as (all & Hst & Hh). split.
  - destruct (final_list_spec h c s' all Hl Hn Hst Hh Hff Hb) as (r & s'' & E1 & _ & E2). eauto.
  - intros m. destruct (update_candidates_lists m s' Hp) as (s'' & -> & _). eauto.
Qed.

(** * Votes relayed *)

Definition keyed (k : Z) : Prop := exists svid msid, in_key svid msid /\ k = mkey svid msid.

Lemma key_bytes_mkey svid msid : in_key svid msid -> key_bytes (mkey svid msid) = le_bytes 4 msid ++ le_bytes 2 svid.
Proof.
  intros Hk. unfold key_bytes. rewrite (mkey_bytes _ _ Hk). set (l := [0; 0] ++ le_bytes 4 msid ++ le_bytes 2 svid).
  assert (Hb : bytes l) by (unfold l; apply bytes_app; [apply (bytes_replicate0 2)|apply bytes_app; apply bytes_le_bytes]).
  assert (Hl : length l = 8%nat) by (unfold l; rewrite !length_app, !length_le_bytes; reflexivity).
  rewrite <- Hl, le_bytes_val by exact Hb. reflexivity.
Qed.

Lemma keyed_read k r : keyed k -> read_key (key_bytes k ++ r) = k /\ length (key_bytes k) = 6%nat.
Proof.
  intros (svid & msid & Hk & ->). rewrite key_bytes_mkey by exact Hk. rewrite <- (assoc_L (++)), read_key_entry by exact Hk. split; [reflexivity|].
  rewrite length_app, !length_le_bytes. reflexivity.
Qed.

Lemma parse_dels_bytes ds rest r : Forall keyed ds ->
  parse_dels (length ds) (concat (map key_bytes ds) ++ rest) r = Some (rest, foldl (fun r k => del_key k r) r ds) /\
  length (concat (map key_bytes ds)) = (6 * length ds)%nat.
Proof.
  intros Hd. revert r. induction Hd as [|k ds Hk Hd IH]; intros r; [auto|]. cbn [length map concat parse_dels foldl]. rewrite <- (assoc_L (++)).
  destruct (keyed_read k (concat (map key_bytes ds) ++ rest) Hk) as [-> Hl]. rewrite drop_app_length' by now symmetry.
  destruct (IH (del_key k r)) as [E1 E2]. rewrite (length_app (key_bytes k) (_ ++ rest)), Hl. cbn [Nat.leb Nat.add]. split; [exact E1|]. rewrite length_app, Hl, E2. lia.
Qed.

Definition add_bytes (q : Z * hash_t) : list Z := key_bytes q.1 ++ q.2.

Lemma parse_adds_bytes l r : Forall (fun q => keyed q.1 /\ hash_ok q.2) l ->
  parse_adds (length l) (concat (map add_bytes l)) r = Some (foldl (fun r q => add_key q.1 q.2 r) r l) /\
  length (concat (map add_bytes l)) = (38 * length l)%nat.
Proof.
  intros Hl. revert r. induction Hl as [|[k h] l [Hk [Hh _]] Hl IH]; intros r; [auto|]. cbn [length map concat parse_adds foldl fst snd] in *.
  change (add_bytes (k, h)) with (key_bytes k ++ h). rewrite <- !(assoc_L (++)). destruct (keyed_read k (h ++ concat (map add_bytes l)) Hk) as [-> H6].
  assert (Elen : length (key_bytes k ++ h ++ concat (map add_bytes l)) = (38 + length (concat (map add_bytes l)))%nat) by (rewrite !length_app, H6, Hh; lia).
  rewrite Elen. assert (Ed : drop 38 (key_bytes k ++ h ++ concat (map add_bytes l)) = concat (map add_bytes l)).
  { rewrite (assoc_L (++)). apply drop_app_length'. rewrite length_app, H6, Hh. reflexivity. }
  rewrite Ed. rewrite rd_app_skip, H6 by lia. cbn [Nat.sub]. rewrite rd_app_here by exact Hh. destruct (IH (add_key k h r)) as [E1 E2]. rewrite E2. split; [exact E1|lia].
Qed.

Lemma del_all_lookup ds r k : (foldl (fun r k => del_key k r) r ds).(k_all) !! k = if bool_decide (k ∈ ds) then None else r.(k_all) !! k.
Proof.
  revert r. induction ds as [|j ds IH]; intros r; [reflexivity|]. cbn [foldl]. rewrite IH. cbn. destruct (decide (j = k)) as [->|Hn].
  - rewrite (bool_decide_eq_true_2 (k ∈ k :: ds)) by left. rewrite lookup_delete_eq. now destruct (bool_decide _).
  - rewrite lookup_delete_ne by exact Hn. apply bool_decide_ext_if. rewrite elem_of_cons. naive_solver.
Qed.

Lemma add_all_lookup (l : list (Z * hash_t)) r k : NoDup l.*1 ->
  (foldl (fun r q => add_key q.1 q.2 r) r l).(k_all) !! k = match (list_to_map l : gmap Z hash_t) !! k with Some h => Some h | None => r.(k_all) !! k end.
Proof.
  intros Hnd. assert (E : (foldl (fun r q => add_key q.1 q.2 r) r l).(k_all) = foldl (fun st q => <[q.1 := q.2]> st) r.(k_all) l).
  { clear Hnd. revert r. induction l as [|q l IH]; intros r; [reflexivity|]. cbn [foldl]. now rewrite IH. }
  rewrite E. now apply insert_entries.
Qed.

Lemma parsed_ok own ds l r : lists_ok own r -> Forall (fun q => keyed q.1 /\ hash_ok q.2) l ->
  lists_ok own (foldl (fun r q => add_key q.1 q.2 r) (foldl (fun r k => del_key k r) r ds) l).
Proof.
  intros Hr Hl. assert (Hd : lists_ok own (foldl (fun r k => del_key k r) r ds)).
  { clear Hl. revert r Hr. induction ds as [|k ds IH]; intros r Hr; [exact Hr|]. cbn. apply IH. now apply del_key_ok. }
  revert Hd. generalize (foldl (fun r k => del_key k r) r ds). induction Hl as [|q l [(svid & msid & Hk & E) Hh] Hl IH]; intros x Hx; [exact Hx|].
  cbn [foldl]. apply IH. rewrite E. now apply add_key_ok.
Qed.

(** The message of a vote for candidate [h] with the bytes of [c]. *)
Definition vote_of (head : list Z) (msid now : Z) (h : hash_t) (c : candidate) : vote_msg :=
  {| vm_msid := msid; vm_now := now; vm_data := head ++ h ++ cand_tail c |}.

(** The lists read from the bytes of a candidate are its list. *)
Lemma tail_lists own lists c all : stands_for own c all -> lists.(k_all) = sighs own ->
  (foldl (fun r q => add_key q.1 q.2 r) (foldl (fun r k => del_key k r) lists (merge_sort Z.le (elements c.(c_del)))) (elems c.(c_add))).(k_all) = all.
Proof.
  intros Hst Hall. apply map_eq. intros k. rewrite add_all_lookup, del_all_lookup, Hall, lookup_fmap, (sf_over _ _ _ Hst) by apply elems_nodup.
  assert (El : (list_to_map (elems c.(c_add)) : gmap Z hash_t) !! k = c.(c_add) !! k).
  { destruct (c.(c_add) !! k) as [x|] eqn:Ex.
    - apply elem_of_list_to_map_1; [apply elems_nodup|now apply elem_of_elems].
    - apply not_elem_of_list_to_map_1. rewrite elems_keys, Ex. intros [? ?]. discriminate. }
  rewrite El. destruct (c.(c_add) !! k); [reflexivity|]. apply bool_decide_ext_if. rewrite merge_sort_Permutation. apply elem_of_elements.
Qed.

(** The fields of a vote. *)
Lemma vote_fields head h t : length head = 78%nat -> length h = 32%nat ->
  rd (head ++ h ++ t) vote_head 32 = h /\ (forall off n, rdz (head ++ h ++ t) (110 + off) n = rdz t off n) /\ drop 118 (head ++ h ++ t) = drop 8 t.
Proof.
  intros Hhead Hh. unfold vote_head. split; [rewrite rd_app_skip by lia; rewrite Hhead; cbn [Nat.add Nat.sub]; now apply rd_app_here|]. split.
  - intros off n. unfold rdz. rewrite (assoc_L (++)), rd_app_skip by (rewrite length_app; lia). rewrite length_app, Hhead, Hh. do 2 f_equal. lia.
  - rewrite (assoc_L (++)), drop_app, length_app, Hhead, Hh, drop_ge by (rewrite length_app; lia). reflexivity.
Qed.

(** Reading the bytes of a candidate. *)
Lemma parse_tail own c all lists svid head msid now h s :
  stands_for own c all -> message_phash all = h -> (forall k, k ∈ c.(c_del) -> keyed k) -> c.(c_add) <> ∅ \/ c.(c_del) <> ∅ ->
  6 * Z.of_nat (base.size c.(c_del)) < 2 ^ 32 -> Z.of_nat (base.size c.(c_add)) < 2 ^ 32 ->
  lists_ok s.(p_all) lists -> lists.(k_all) = sighs own -> s.(p_cands) !! h = None -> length head = 78%nat -> length h = 32%nat ->
  exists s' c', parse_candidate lists svid (vote_of head msid now h c) s = Gives (s', c') /\ s'.(p_cands) !! h = Some c' /\ stands_for s.(p_all) c' all.
Proof.
  intros Hst Hh Hdel Hne Hsd Hsa Hl Hall Hnew Hhead Hlen.
  set (ds := merge_sort Z.le (elements c.(c_del))). set (l := elems c.(c_add)).
  assert (Hds : Forall keyed ds) by (apply Forall_forall; intros k Hk; apply Hdel; unfold ds in Hk; rewrite merge_sort_Permutation in Hk; now apply elem_of_elements in Hk).
  assert (Hla : Forall (fun q => keyed q.1 /\ hash_ok q.2) l) by (apply Forall_forall; intros [k x] Hx; apply elem_of_elems in Hx; exact (sf_keys _ _ _ Hst k x Hx)).
  assert (Nd : length ds = base.size c.(c_del)) by (unfold ds; rewrite merge_sort_Permutation; reflexivity).
  assert (Na : length l = base.size c.(c_add)) by (unfold l; rewrite elems_perm; apply length_map_to_list).
  assert (Et : cand_tail c = le_bytes 4 (Z.of_nat (length ds)) ++ le_bytes 4 (Z.of_nat (length l)) ++ concat (map key_bytes ds) ++ concat (map add_bytes l)).
  { unfold cand_tail. fold ds l. rewrite <- Nd, <- Na, !u32_small by lia. destruct Hne as [Hne|Hne]; rewrite (bool_decide_eq_false_2 _ Hne); [|rewrite andb_false_r]; reflexivity. }
  destruct (parse_dels_bytes ds (concat (map add_bytes l)) lists Hds) as [Ed Ld]. destruct (parse_adds_bytes l (foldl (fun r k => del_key k r) lists ds) Hla) as [Ea La].
  set (dbytes := concat (map key_bytes ds)) in *. set (abytes := concat (map add_bytes l)) in *.
  set (r := foldl (fun r q => add_key q.1 q.2 r) (foldl (fun r k => del_key k r) lists ds) l) in *.
  assert (Er : r.(k_all) = all) by now apply (tail_lists own).
  destruct (save_new msid h r svid s) as (c' & Es & Hc' & _); [now apply parsed_ok|exact Hnew|]. rewrite Er in Hc'.
  exists (s <| p_cands ::= <[h := c']> |>), c'. split; [|split; [apply lookup_insert_eq|exact Hc']].
  destruct (vote_fields head h (cand_tail c) Hhead Hlen) as (F1 & F2 & F3). unfold parse_candidate, vote_of. cbn [vm_msid vm_now vm_data]. rewrite F1.
  assert (El : Z.of_nat (length (head ++ h ++ cand_tail c)) = 118 + 38 * Z.of_nat (length l) + 6 * Z.of_nat (length ds)).
  { rewrite Et, !length_app, !length_le_bytes, Hhead, Hlen, Ld, La. lia. }
  rewrite El. change (vote_head + 32)%nat with (110 + 0)%nat. rewrite F2. change (110 + 0 + 4)%nat with (110 + 4)%nat. rewrite F2. change (110 + 0 + 8)%nat with 118%nat. rewrite F3, Et.
  rewrite rdz_here, rdz_skip by (try lia; change (256 ^ Z.of_nat 4) with (2 ^ 32); lia). cbn [Nat.sub]. rewrite rdz_here by (change (256 ^ Z.of_nat 4) with (2 ^ 32); lia).
  rewrite (assoc_L (++) (le_bytes 4 _)), drop_app_length' by (rewrite length_app, !length_le_bytes; reflexivity).
  rewrite (proj2 (Z.ltb_ge _ _)), (proj2 (Z.leb_le _ _)) by lia.
  assert (Hnz : (Z.of_nat (length l) =? 0) && (Z.of_nat (length ds) =? 0) = false).
  { apply andb_false_iff. rewrite !Z.eqb_neq, Na, Nd. destruct Hne as [Hne|Hne]; [left|right]; contradict Hne.
    - apply map_size_empty_inv. lia.
    - apply leibniz_equiv, size_empty_inv. lia. }
  rewrite Hnz, (u32_small (_ * 6)), (proj2 (Z.ltb_ge _ _)) by lia. rewrite !Nat2Z.id, Ed, Ea. rewrite Er, Hh, bool_decide_eq_true_2 by reflexivity. cbn [negb].
  rewrite Es. change (p_cands (s <| p_cands ::= <[h := c']> |>)) with (<[h := c']> s.(p_cands)). rewrite lookup_insert_eq. reflexivity.
Qed.
(** C10: a vote carries the list of its candidate: a peer that has the list of
    the voter accepts the bytes [write_candidate] appends, and stores a
    candidate that stands for the same list at its own node. *)
Theorem vote_relayed own c all lists svid head msid now h s :
  stands_for own c all -> message_phash all = h -> (forall k, k ∈ c.(c_del) -> keyed k) -> c.(c_add) <> ∅ \/ c.(c_del) <> ∅ ->
  6 * Z.of_nat (base.size c.(c_del)) < 2 ^ 32 -> Z.of_nat (base.size c.(c_add)) < 2 ^ 32 ->
  lists_ok s.(p_all) lists -> lists.(k_all) = sighs own -> s.(p_cands) !! h = None -> length head = 78%nat -> length h = 32%nat ->
  0 <= msid -> msid <= now < msid + 2 * BLOCKSEC -> msid + 2 * BLOCKSEC < 2 ^ 32 ->
  exists s' c', parse_vote msid lists svid (vote_of head msid now h c) s = Gives (s', own_tail (vote_of head msid now h c) c') /\
    s'.(p_cands) !! h = Some c' /\ stands_for s.(p_all) c' all.
Proof.
  intros Hst Hh Hdel Hne Hsd Hsa Hl Hall Hnew Hhead Hlen Hm Hnow Hmax.
  destruct (parse_tail own c all lists svid head msid now h s) as (s' & c' & E & Hc); [assumption..|]. exists s', c'. split; [|exact Hc].
  destruct (vote_fields head h (cand_tail c) Hhead Hlen) as (F1 & _). unfold parse_vote. rewrite E. unfold vote_of. cbn [vm_msid vm_now vm_data].
  rewrite F1. unfold known_candidate. rewrite Hnew. rewrite Z.ltb_irrefl, !u32_small, (proj2 (Z.ltb_ge _ _)), (proj2 (Z.ltb_ge now msid)), (proj2 (Z.leb_gt _ _)) by (unfold BLOCKSEC in *; lia).
  reflexivity.
Qed.
End Candidates.

(** A message whose count of removed messages makes the 32-bit product wrap is
    not refused: the loop leaves the message. *)
Lemma parse_dels_short n d r : (length d < 6 * n)%nat -> parse_dels n d r = None.
Proof.
  revert d r. induction n as [|n IH]; intros d r Hd; [lia|]. cbn [parse_dels]. destruct (Nat.leb_spec 6 (length d)); [|reflexivity].
  apply IH. rewrite length_drop. lia.
Qed.

Lemma vote_overrun `{Sha256} lists svid m s :
  Z.of_nat (length m.(vm_data)) = 120 -> rdz m.(vm_data) 110 4 = 0x2AAAAAAB -> rdz m.(vm_data) 114 4 = 0 -> parse_candidate lists svid m s = Aborts.
Proof.
  intros Hl Hd Ha. unfold parse_candidate, vote_head. cbn [Nat.add]. rewrite Hd, Ha, Hl. change (120 <? _) with false. change (_ <=? 120) with true.
  cbn [andb]. change (0 =? 0) with true. change (0x2AAAAAAB =? 0) with false. change (120 <? _) with false. cbn [andb]. rewrite parse_dels_short; [reflexivity|].
  rewrite length_drop. lia.
Qed.

(** * Demonstration *)

Definition demo_own (vs : list Z) : gmap Z tmsg := list_to_map (map demo_one vs).
Definition own_lists_of (all : gmap Z tmsg) : peer_lists := {| k_del := ∅; k_add := ∅; k_all := sighs all |}.

Lemma own_lists_of_ok all : lists_ok all (own_lists_of all).
Proof. split; cbn; [|intros; apply lookup_empty|apply map_Forall_empty]. intros k. now rewrite lookup_empty, lookup_fmap. Qed.

Lemma demo_hash_ok x : 0 <= x < 256 -> hash_ok (replicate 32 x).
Proof. intros Hx. split; [apply length_replicate|]. apply Forall_replicate. exact Hx. Qed.

(** Node 2 with the list of node 1. *)
Definition demo_lists : peer_lists := add_key (mkey 1 1) (replicate 32 2) (own_lists_of (demo_own [2])).

Lemma demo_lists_ok : lists_ok (demo_own [2]) demo_lists.
Proof. apply add_key_ok; [split; lia|apply demo_hash_ok; lia|apply own_lists_of_ok]. Qed.

(** A candidate of node 1: its list without the message of node 2. *)
Definition demo_cand : candidate := candidate_new demo_now ∅ {[mkey 2 1]} ∅ 1 false.
Definition demo_rest : gmap Z (list Z) := delete (mkey 2 1) (sighs (demo_own [1; 2])).
Definition demo_elected : list Z := message_phash (H := quick_sha) demo_rest.

Lemma demo_stands : stands_for (demo_own [1; 2]) demo_cand demo_rest.
Proof.
  split; [|intros k [? Hk]; cbn [c_add demo_cand candidate_new] in Hk; rewrite lookup_empty in Hk; discriminate|apply empty_subseteq|apply map_Forall_empty].
  intros k. unfold demo_rest, demo_cand. cbn [c_add c_del candidate_new]. rewrite lookup_empty. destruct (decide (k = mkey 2 1)) as [->|Hn].
  - rewrite lookup_delete_eq, bool_decide_eq_true_2 by set_solver. reflexivity.
  - rewrite lookup_delete_ne, bool_decide_eq_false_2, lookup_fmap by set_solver. reflexivity.
Qed.

Definition demo_node_b : poll := demo_b <| p_all := demo_own [2] |>.

Lemma vote_relayed_witness :
  exists s' c', parse_vote (H := quick_sha) demo_now demo_lists 1 (vote_of (replicate 78 0) demo_now demo_now demo_elected demo_cand) demo_node_b =
      Gives (s', own_tail (vote_of (replicate 78 0) demo_now demo_now demo_elected demo_cand) c') /\
    s'.(p_cands) !! demo_elected = Some c' /\ stands_for (demo_own [2]) c' demo_rest.
Proof.
  apply (vote_relayed (H := quick_sha) (demo_own [1; 2])).
  - exact demo_stands.
  - reflexivity.
  - intros k Hk. change (c_del demo_cand) with ({[mkey 2 1]} : gset Z) in Hk. apply elem_of_singleton in Hk as ->. exists 2, 1. split; [split; lia|reflexivity].
  - right. unfold demo_cand. cbn [c_del candidate_new]. set_solver.
  - vm_compute. reflexivity.
  - vm_compute. reflexivity.
  - exact demo_lists_ok.
  - vm_compute. reflexivity.
  - vm_compute. reflexivity.
  - reflexivity.
  - vm_compute. reflexivity.
  - vm_compute. discriminate.
  - unfold BLOCKSEC. lia.
  - vm_compute. reflexivity.
Defined.

(** Node 2 learns the list of node 1. *)
Definition demo_synced : poll :=
  match sync_finish demo_now (message_phash (H := quick_sha) demo_lists.(k_all)) demo_lists 1 (demo_start demo_b).2 with Some s => s | None => demo_b end.

#[local] Instance txs_ok_dec txs : Decision (txs_ok txs).
Proof. unfold txs_ok, tmsg_ok, in_key, hash_ok, bytes, is_byte. apply _. Defined.

Lemma demo_poll_ok : poll_ok demo_b.
Proof. split; [apply (bool_decide_unpack _); vm_compute; exact I|]. split; [constructor|now apply demo_no_candidates]. Qed.

Lemma elected_list_hash_witness :
  exists c, demo_synced.(p_cands) !! message_phash (H := quick_sha) demo_lists.(k_all) = Some c /\
    exists r s'', final_list (H := quick_sha) (message_phash (H := quick_sha) demo_lists.(k_all)) c demo_synced = Gives (r, s'') /\
      message_shash (H := quick_sha) r = message_phash (H := quick_sha) demo_lists.(k_all).
Proof.
  destruct (demo_synced.(p_cands) !! message_phash (H := quick_sha) demo_lists.(k_all)) as [c|] eqn:Ec; [|vm_compute in Ec; discriminate].
  exists c. split; [reflexivity|]. refine (proj1 (elected_list_hash (H := quick_sha) demo_b (demo_start demo_b).1 (demo_start demo_b).2 demo_synced _ c demo_poll_ok _ _ Ec _)).
  - vm_compute. reflexivity.
  - eapply rtc_once, (ls_sync demo_now demo_lists 1); [|vm_compute; reflexivity].
    assert (E : p_all (demo_start demo_b).2 = demo_own [2]) by (vm_compute; reflexivity). rewrite E. exact demo_lists_ok.
  - vm_compute in Ec. injection Ec as <-. unfold hashes_set. apply (bool_decide_unpack _). vm_compute. exact I.
Defined.
