(* ===== verification/Userlog.v ===== *)
(** The log files of the accounts of a bank ([log/%04X/%03X/%03X/%02X.log],
    second half of [escd/office.cpp]): appending entries, dropping old ones,
    the answer to a client, the repair of a file of a wrong length. *)

From stdpp Require Import base gmap list sorting.
From Stdlib Require Import ZArith Lia.
From S2P Require Import Prelude Params HashTree Accounts Servers Ledger.

(** * Entries *)

Definition sizeof_log_t : nat := 64.
Definition PAGE : nat := 4096.

(** The bytes of a [log_t]. *)
Definition log_bytes (l : log_t) : list Z :=
  le_bytes 4 l.(lg_time) ++ le_bytes 2 l.(lg_type) ++ le_bytes 2 l.(lg_node) ++ le_bytes 4 l.(lg_nmid) ++
  le_bytes 4 l.(lg_mpos) ++ le_bytes 4 l.(lg_user) ++ le_bytes 4 l.(lg_umid) ++ le_bytes 8 l.(lg_weight) ++ rd l.(lg_info) 0 32.

Definition log_time (rec : list Z) : Z := rdz rec 0 4.

(** * Writing *)

(** [purge_log]: pages whose last entry is too old are cut off the front of a
    file that has grown to [MIN_LOG_SIZE]; [now] is the last block.
    [MAX_LOG_AGE] is a [long], so the sum is not wrapped. *)
Fixpoint purge_loop (fuel : nat) (now : Z) (f : list Z) : list Z :=
  match fuel with
  | O => f
  | S fuel =>
      if Z.of_nat (length f) <? MIN_LOG_SIZE then f
      else if now <=? log_time (drop (PAGE - sizeof_log_t) f) + MAX_LOG_AGE then f
      else purge_loop fuel now (drop PAGE f)
  end.

Definition purge_log (now : Z) (f : list Z) : list Z :=
  if negb (length f mod sizeof_log_t =? 0)%nat then f else purge_loop (length f) now f.

(** The files by account; [put_log] of one entry. *)
Abbreviation logs := (gmap Z (list Z)).

Definition put_log (user : Z) (log : log_t) (fs : logs) : logs := <[user := fs !!! user ++ log_bytes log]> fs.

Definition purge_user (now user : Z) (fs : logs) : logs := <[user := purge_log now (fs !!! user)]> fs.

(** [put_log] of a map from (account, position) to entries: the entries get
    the time [ntime]; a file is purged after its last entry.  [luser] is the
    account of the open file. *)
Fixpoint put_log_loop (now ntime : Z) (luser : option Z) (l : list (Z * log_t)) (fs : logs) : logs :=
  match l with
  | [] => match luser with Some u => purge_user now u fs | None => fs end
  | (key, log) :: l =>
      let user := u32 (key / 2 ^ 32) in
      let fs := match luser with
                | Some u => if u =? user then fs else purge_user now u fs
                | None => fs
                end in
      put_log_loop now ntime (Some user) l (put_log user (log <| lg_time := ntime |>) fs)
  end.

Definition put_log_map (now ntime : Z) (log : gmap Z log_t) (fs : logs) : logs :=
  put_log_loop now ntime None (elems log) fs.

(** * Reading *)

(** The loop of [fix_log] that moves the entries to the front: the file is
    read at [rpos] and written at [wpos]; [log] is the buffer. *)
Fixpoint fix_copy (n : nat) (rpos wpos : nat) (log f : list Z) : nat * list Z * list Z :=
  match n with
  | O => (wpos, log, f)
  | S n =>
      let got := take sizeof_log_t (drop rpos f) in
      if (length got =? sizeof_log_t)%nat
      then fix_copy n (rpos + sizeof_log_t) (wpos + sizeof_log_t) got (pwrite wpos got f)
      else (wpos, got ++ drop (length got) log, f)
  end.

(** [fix_log]: a suffix as long as the excess is appended; when the length is
    still wrong the function gives up. *)
Definition fix_log (f : list Z) : list Z :=
  let l := (length f mod sizeof_log_t)%nat in
  if (l =? 0)%nat then f
  else
    let f := f ++ replicate l 0 in
    if negb (length f mod sizeof_log_t =? 0)%nat then f
    else
      let n := (length f / sizeof_log_t - 1)%nat in
      let '(wpos, log, f) := fix_copy n l 0 (replicate sizeof_log_t 0) f in
      pwrite wpos log f.

(** The loop of [get_log]: entries older than [from] are counted in [mis]. *)
Fixpoint get_loop (fuel : nat) (from : Z) (f slog : list Z) (mis : Z) : list Z * Z :=
  match fuel with
  | O => (slog, mis)
  | S fuel =>
      let rec := take sizeof_log_t f in
      match rec with
      | [] => (slog, mis)
      | _ => if log_time rec <? from then get_loop fuel from (drop sizeof_log_t f) slog (mis + Z.of_nat (length rec))
             else get_loop fuel from (drop sizeof_log_t f) (slog ++ rec) mis
      end
  end.

(** [get_log]: the answer and the file. *)
Definition get_log (now from : Z) (f : list Z) : list Z * list Z :=
  let f := if from =? 0xFFFFFFFF then fix_log f else f in
  let len := u32 (Z.of_nat (length f)) in
  let from := if len mod Z.of_nat sizeof_log_t =? 0 then from else 0 in
  let '(slog, mis) := get_loop (length f) from f [] 0 in
  let len := u32 (len - mis) in
  (le_bytes 4 len ++ slog, if len mod Z.of_nat sizeof_log_t =? 0 then purge_log now f else f).

(** * The logs of a block *)

Definition maxl : Z := 0xFFFF.

(** One file of the server, records (account, entry): they are put in the map
    behind those read before. *)
Definition log_file (recs : list (Z * log_t)) (a : Z * gmap Z log_t) : Z * gmap Z log_t :=
  foldl (fun a (r : Z * log_t) => (u32 (a.1 + 1), <[2 ^ 32 * r.1 + a.1 := r.2]> a.2)) a recs.

(** The loop of [process_log] over the queue of messages; [path] is the
    block. *)
Fixpoint log_files (now ntime path : Z) (msglog : gmap (Z * Z * Z) (list (Z * log_t))) (mque : list (Z * Z))
    (lpos : Z) (log : gmap Z log_t) (fs : logs) : logs :=
  match mque with
  | [] => if lpos =? 0 then fs else put_log_map now ntime log fs
  | (bank, msid) :: mque =>
      match msglog !! (path, bank, msid) with
      | None => log_files now ntime path msglog mque lpos log fs
      | Some recs =>
          let '(lpos, log) := log_file recs (lpos, log) in
          if maxl <=? lpos
          then log_files now ntime path msglog mque 0 ∅ (put_log_map now ntime log fs)
          else log_files now ntime path msglog mque lpos log fs
      end
  end.

(** * Lemmas *)

Lemma length_log_bytes l : length (log_bytes l) = sizeof_log_t.
Proof. unfold log_bytes. now rewrite !length_app, !length_le_bytes, length_rd. Qed.

Definition entries (ls : list log_t) : list Z := concat (map log_bytes ls).

Lemma entries_app l k : entries (l ++ k) = entries l ++ entries k.
Proof. unfold entries. now rewrite map_app, concat_app. Qed.

Lemma length_entries ls : length (entries ls) = (length ls * sizeof_log_t)%nat.
Proof.
  induction ls as [|l ls IH]; [reflexivity|]. change (entries (l :: ls)) with (log_bytes l ++ entries ls).
  rewrite length_app, length_log_bytes, IH. reflexivity.
Qed.

Lemma drop_entries n ls : drop (n * sizeof_log_t) (entries ls) = entries (drop n ls).
Proof.
  revert ls; induction n as [|n IH]; intros [|l ls]; try reflexivity.
  change (entries (l :: ls)) with (log_bytes l ++ entries ls). cbn [drop]. rewrite <- IH.
  rewrite drop_app_ge by (rewrite length_log_bytes; lia). rewrite length_log_bytes. f_equal. lia.
Qed.

Lemma log_time_bytes l f : 0 <= l.(lg_time) < 2 ^ 32 -> log_time (log_bytes l ++ f) = l.(lg_time).
Proof. intros Hl. unfold log_time, log_bytes. rewrite <- !(assoc_L (++)). now apply rdz_here. Qed.

(** ** Purging *)

(** [f'] is [f] without pages at the front whose last entry is too old. *)
Definition purged (now : Z) (f f' : list Z) : Prop :=
  exists k, (k * PAGE <= length f)%nat /\ f' = drop (k * PAGE) f /\
    forall i, (i < k)%nat -> log_time (drop (i * PAGE + (PAGE - sizeof_log_t)) f) + MAX_LOG_AGE < now.

Lemma purged_refl now f : purged now f f.
Proof. exists 0%nat. split_and!; [cbn; lia|now rewrite drop_0|lia]. Qed.

Lemma log_time_app f e : (4 <= length f)%nat -> log_time (f ++ e) = log_time f.
Proof.
  intros Hl. unfold log_time, rdz. rewrite !rd_in by (rewrite ?length_app; lia). rewrite !drop_0. now rewrite take_app_le.
Qed.

Lemma page_inside i k : (i < k)%nat -> (i * PAGE + (PAGE - sizeof_log_t) + 4 <= k * PAGE)%nat.
Proof.
  intros Hi. assert (Hp : (sizeof_log_t + 4 <= PAGE + sizeof_log_t)%nat) by (apply Nat.leb_le; reflexivity).
  assert (Hq : (4 <= sizeof_log_t)%nat) by (apply Nat.leb_le; reflexivity). nia.
Qed.

Lemma purged_app now f f' e : purged now f f' -> purged now (f ++ e) (f' ++ e).
Proof.
  intros (k & Hk & -> & Ho). exists k. split_and!; [rewrite length_app; lia|now rewrite drop_app_le|].
  intros i Hi. pose proof (page_inside i k Hi). rewrite drop_app_le by lia. rewrite log_time_app by (rewrite length_drop; lia).
  now apply Ho.
Qed.

Lemma purged_trans now f1 f2 f3 : purged now f1 f2 -> purged now f2 f3 -> purged now f1 f3.
Proof.
  intros (k & Hk & -> & Ho) (j & Hj & -> & Ho2). rewrite length_drop in Hj. exists (k + j)%nat.
  split_and!; [lia|rewrite drop_drop; f_equal; lia|].
  intros i Hi. destruct (decide (i < k)%nat) as [Hl|Hl]; [now apply Ho|].
  specialize (Ho2 (i - k)%nat ltac:(lia)). rewrite drop_drop in Ho2.
  replace i with (k + (i - k))%nat at 1 by lia. rewrite Nat.mul_add_distr_r, <- Nat.add_assoc. exact Ho2.
Qed.

Lemma purge_log_purged now f : purged now f (purge_log now f).
Proof.
  unfold purge_log. destruct (negb _); [apply purged_refl|]. generalize (length f) at 1. intros n. revert f.
  induction n as [|n IH]; intros f; cbn [purge_loop]; [apply purged_refl|].
  destruct (Z.ltb_spec (Z.of_nat (length f)) MIN_LOG_SIZE) as [_|Hl]; [apply purged_refl|].
  destruct (Z.leb_spec now (log_time (drop (PAGE - sizeof_log_t) f) + MAX_LOG_AGE)) as [_|Ho]; [apply purged_refl|].
  eapply purged_trans; [|apply IH]. unfold MIN_LOG_SIZE in Hl. exists 1%nat. unfold PAGE in *.
  split_and!; [lia|f_equal; lia|]. intros i Hi. now replace i with 0%nat by lia.
Qed.

(** ** Delivery *)

Definition stamp (ntime : Z) (l : log_t) : log_t := l <| lg_time := ntime |>.

Definition key_user (k : Z) : Z := u32 (k / 2 ^ 32).

(** The entries of account [u] in a list with keys, and in a file of the
    server. *)
Definition of_keys (u : Z) (l : list (Z * log_t)) : list log_t := map snd (filter (fun p => key_user p.1 = u) l).
Definition of_user (u : Z) (l : list (Z * log_t)) : list log_t := map snd (filter (fun r => r.1 = u) l).

Lemma put_log_at user log fs u :
  put_log user log fs !!! u = fs !!! u ++ (if decide (user = u) then log_bytes log else []).
Proof.
  unfold put_log. destruct (decide (user = u)) as [->|Hn]; [apply lookup_total_insert_eq|].
  rewrite app_nil_r. now apply lookup_total_insert_ne.
Qed.

Lemma purge_user_at now user fs u : purged now (fs !!! u) (purge_user now user fs !!! u).
Proof.
  unfold purge_user. destruct (decide (user = u)) as [->|Hn].
  - rewrite lookup_total_insert_eq. apply purge_log_purged.
  - rewrite lookup_total_insert_ne by assumption. apply purged_refl.
Qed.

Lemma put_log_loop_delivers now ntime l luser fs u :
  purged now (fs !!! u ++ entries (map (stamp ntime) (of_keys u l))) (put_log_loop now ntime luser l fs !!! u).
Proof.
  revert luser fs; induction l as [|[key log] l IH]; intros luser fs; cbn [put_log_loop].
  { cbn. rewrite app_nil_r. destruct luser; [apply purge_user_at|apply purged_refl]. }
  set (fs1 := match luser with Some _ => _ | None => _ end).
  assert (H1 : purged now (fs !!! u) (fs1 !!! u)).
  { subst fs1. destruct luser as [w|]; [|apply purged_refl]. destruct (w =? _); [apply purged_refl|apply purge_user_at]. }
  eapply purged_trans; [apply purged_app, H1|].
  specialize (IH (Some (u32 (key / 2 ^ 32))) (put_log (u32 (key / 2 ^ 32)) (log <| lg_time := ntime |>) fs1)).
  rewrite put_log_at, <- (assoc_L (++)) in IH. unfold of_keys. rewrite filter_cons. cbn [fst].
  change (key_user key) with (u32 (key / 2 ^ 32)). now destruct (decide _).
Qed.

Lemma put_log_map_delivers now ntime log fs u :
  purged now (fs !!! u ++ entries (map (stamp ntime) (of_keys u (elems log)))) (put_log_map now ntime log fs !!! u).
Proof. apply put_log_loop_delivers. Qed.

(** An entry whose key is above those of its account comes last among them. *)
Lemma StronglySorted_filter {A} (R : A -> A -> Prop) (P : A -> Prop) `{!forall x, Decision (P x)} l :
  StronglySorted R l -> StronglySorted R (filter P l).
Proof.
  induction 1 as [|x l _ IH Hx]; [constructor|]. rewrite filter_cons. destruct (decide (P x)); [|exact IH].
  constructor; [exact IH|]. rewrite Forall_forall in *. intros y Hy. apply list_elem_of_filter in Hy as [_ Hy]. auto.
Qed.

Lemma elems_insert_last {A} (P : Z * A -> Prop) `{!forall x, Decision (P x)} (m : gmap Z A) k x :
  m !! k = None -> (forall j y, P (k, x) -> m !! j = Some y -> P (j, y) -> j < k) ->
  filter P (elems (<[k := x]> m)) = filter P (elems m) ++ filter P [(k, x)].
Proof.
  intros Hk Hm. apply (StronglySorted_unique_strong key_le).
  - intros [j y] [j' y'] H1 H2 ? ?. unfold key_le in *. cbn [fst] in *. assert (j = j') as <- by lia.
    apply list_elem_of_filter in H1 as [_ H1]. apply elem_of_elems in H1. f_equal.
    rewrite <- filter_app in H2. apply list_elem_of_filter in H2 as [_ H2]. rewrite elem_of_app, list_elem_of_singleton in H2.
    destruct H2 as [H2|H2].
    + apply elem_of_elems in H2. rewrite lookup_insert_ne in H1; congruence.
    + injection H2 as -> ->. rewrite lookup_insert_eq in H1. congruence.
  - apply StronglySorted_filter, elems_sorted.
  - apply StronglySorted_app_2; [|apply StronglySorted_filter, elems_sorted|apply StronglySorted_filter; repeat constructor].
    intros [j y] [j' y'] H1 H2. apply list_elem_of_filter in H1 as [HP H1]. apply elem_of_elems in H1.
    apply list_elem_of_filter in H2 as [HQ H2]. apply list_elem_of_singleton in H2. injection H2 as -> ->.
    specialize (Hm j y HQ H1 HP). unfold key_le. cbn. lia.
  - rewrite <- filter_app. apply filter_Permutation. rewrite !elems_perm, map_to_list_insert by assumption.
    apply Permutation_cons_append.
Qed.

(** The map holds entries of positions below [lpos]. *)
Definition below (lpos : Z) (log : gmap Z log_t) : Prop := forall k x, log !! k = Some x -> 0 <= k < 2 ^ 64 /\ k mod 2 ^ 32 < lpos.

Definition recs_ok (recs : list (Z * log_t)) : Prop := Forall (fun r => 0 <= r.1 < 2 ^ 32) recs.

Lemma key_split u p : 0 <= u < 2 ^ 32 -> 0 <= p < 2 ^ 32 ->
  key_user (2 ^ 32 * u + p) = u /\ (2 ^ 32 * u + p) mod 2 ^ 32 = p.
Proof.
  intros Hu Hp. rewrite Z.add_comm, Z.mul_comm. unfold key_user. rewrite Z.div_add, Z.mod_add by lia.
  rewrite Z.div_small, Z.mod_small by lia. split; [apply u32_small; lia|reflexivity].
Qed.

Lemma log_file_spec recs lpos log u :
  recs_ok recs -> 0 <= lpos -> lpos + Z.of_nat (length recs) < 2 ^ 32 -> below lpos log ->
  let r := log_file recs (lpos, log) in
  r.1 = lpos + Z.of_nat (length recs) /\ below r.1 r.2 /\
  of_keys u (elems r.2) = of_keys u (elems log) ++ of_user u recs.
Proof.
  intros Hr. revert lpos log. induction Hr as [|[w x] recs Hw Hr IH]; intros lpos log H0 Hl Hb; cbn zeta.
  { unfold log_file, of_user. cbn. rewrite app_nil_r. split; [lia|]. split; [exact Hb|reflexivity]. }
  cbn [length] in Hl. unfold log_file. cbn [foldl fst snd]. rewrite u32_small by lia. cbn [fst] in Hw.
  destruct (key_split w lpos Hw ltac:(lia)) as [Ku Km].
  assert (Hnew : log !! (2 ^ 32 * w + lpos) = None).
  { destruct (log !! _) eqn:E; [|reflexivity]. apply Hb in E. lia. }
  destruct (IH (lpos + 1) (<[2 ^ 32 * w + lpos := x]> log)) as (E1 & E2 & E3); [lia|lia| |].
  { intros k y. destruct (decide (k = 2 ^ 32 * w + lpos)) as [->|Hn]; [intros _; lia|].
    rewrite lookup_insert_ne by congruence. intros E. apply Hb in E. lia. }
  unfold log_file in E1, E2, E3. split; [rewrite E1; cbn; lia|]. split; [exact E2|].
  rewrite E3. unfold of_keys, of_user. rewrite elems_insert_last.
  - rewrite map_app, <- (assoc_L (++)). f_equal. rewrite !filter_cons. cbn [fst snd]. rewrite Ku.
    destruct (decide (w = u)); reflexivity.
  - exact Hnew.
  - intros j y Hw' Hj Hu. cbn [fst] in Hu, Hw'. apply Hb in Hj as [Hj Hm]. unfold key_user in *.
    rewrite u32_small in Hu by (split; [apply Z.div_pos|apply Z.div_lt_upper_bound]; lia).
    pose proof (Z.div_mod j (2 ^ 32) ltac:(lia)). lia.
Qed.

(** The records of the files in the queue. *)
Definition queue_recs (path : Z) (msglog : gmap (Z * Z * Z) (list (Z * log_t))) (mque : list (Z * Z)) : list (Z * log_t) :=
  concat (map (fun p => default [] (msglog !! (path, p.1, p.2))) mque).

Definition msglog_ok (msglog : gmap (Z * Z * Z) (list (Z * log_t))) : Prop :=
  forall k recs, msglog !! k = Some recs -> recs_ok recs /\ Z.of_nat (length recs) < 2 ^ 31.

Lemma of_user_app u l k : of_user u (l ++ k) = of_user u l ++ of_user u k.
Proof. unfold of_user. now rewrite filter_app, map_app. Qed.

Lemma below_empty : below 0 ∅.
Proof. intros k x. now rewrite lookup_empty. Qed.

Lemma log_files_delivers now ntime path msglog mque lpos log fs u :
  msglog_ok msglog -> 0 <= lpos < maxl -> below lpos log ->
  purged now (fs !!! u ++ entries (map (stamp ntime) (of_keys u (elems log) ++ of_user u (queue_recs path msglog mque))))
    (log_files now ntime path msglog mque lpos log fs !!! u).
Proof.
  intros Hok. revert lpos log fs. induction mque as [|[bank msid] mque IH]; intros lpos log fs Hl Hb; cbn [log_files].
  - cbn. rewrite app_nil_r. destruct (Z.eqb_spec lpos 0) as [->|_]; [|apply put_log_map_delivers].
    replace log with (∅ : gmap Z log_t).
    + cbn. rewrite app_nil_r. apply purged_refl.
    + symmetry. apply map_empty. intros k. destruct (log !! k) as [x|] eqn:E; [|reflexivity].
      apply Hb in E. pose proof (Z.mod_pos_bound k (2 ^ 32)). lia.
  - cbn [queue_recs map concat fst snd]. fold (queue_recs path msglog mque).
    destruct (msglog !! (path, bank, msid)) as [recs|] eqn:E; cbn [default]; [|now apply IH].
    destruct (Hok _ _ E) as [Hr Hn]. unfold maxl in Hl.
    destruct (log_file_spec recs lpos log u Hr) as (E1 & E2 & E3); [lia|lia|exact Hb|].
    destruct (log_file recs (lpos, log)) as [lpos' log'] eqn:El. cbn [fst snd] in *.
    rewrite of_user_app. change (id recs) with recs. rewrite (assoc_L (++) (of_keys u (elems log))), <- E3.
    destruct (Z.leb_spec maxl lpos').
    + rewrite map_app, entries_app, (assoc_L (++)).
      eapply purged_trans; [apply purged_app, put_log_map_delivers|].
      change (of_user u (queue_recs path msglog mque))
        with (of_keys u (elems ∅) ++ of_user u (queue_recs path msglog mque)).
      apply IH; [unfold maxl; lia|apply below_empty].
    + apply IH; [lia|exact E2].
Qed.

Lemma log_files_start now ntime path msglog mque fs u :
  msglog_ok msglog ->
  purged now (fs !!! u ++ entries (map (stamp ntime) (of_user u (queue_recs path msglog mque))))
    (log_files now ntime path msglog mque 0 ∅ fs !!! u).
Proof.
  intros Hok. change (of_user u (queue_recs path msglog mque))
    with (of_keys u (elems ∅) ++ of_user u (queue_recs path msglog mque)).
  apply log_files_delivers; [exact Hok|unfold maxl; lia|apply below_empty].
Qed.

(** ** Reading *)

Definition newer (from : Z) (ls : list log_t) : list log_t := filter (fun l => from <= l.(lg_time)) ls.

Definition times_ok (ls : list log_t) : Prop := Forall (fun l => 0 <= l.(lg_time) < 2 ^ 32) ls.

Lemma get_loop_entries from ls fuel slog mis :
  times_ok ls -> (length ls <= fuel)%nat ->
  get_loop fuel from (entries ls) slog mis =
  (slog ++ entries (newer from ls), mis + 64 * Z.of_nat (length ls) - 64 * Z.of_nat (length (newer from ls))).
Proof.
  intros Ht. revert fuel slog mis. induction Ht as [|l ls Hl Ht IH]; intros fuel slog mis Hf.
  { destruct fuel; cbn; rewrite app_nil_r; f_equal; lia. }
  destruct fuel as [|fuel]; [cbn in Hf; lia|]. cbn [length] in Hf.
  change (entries (l :: ls)) with (log_bytes l ++ entries ls). cbn [get_loop].
  rewrite take_app_length', drop_app_length' by (symmetry; apply length_log_bytes).
  assert (Ht' : log_time (log_bytes l) = lg_time l) by (rewrite <- (app_nil_r (log_bytes l)); now apply log_time_bytes).
  destruct (log_bytes l) as [|b bs] eqn:Eb; [pose proof (length_log_bytes l) as Hn; rewrite Eb in Hn; discriminate|].
  rewrite Ht', <- Eb. change (newer from (l :: ls)) with (filter (fun l => from <= lg_time l) (l :: ls)).
  rewrite filter_cons. fold (newer from ls). destruct (Z.ltb_spec (lg_time l) from) as [Hlt|Hge]; rewrite IH by lia.
  - rewrite decide_False by lia. rewrite length_log_bytes. unfold sizeof_log_t. f_equal. cbn [length]. lia.
  - rewrite decide_True by lia. change (entries (l :: ?k)) with (log_bytes l ++ entries k).
    rewrite <- (assoc_L (++)). f_equal. cbn [length]. lia.
Qed.

Lemma fix_log_whole f : (length f mod sizeof_log_t = 0)%nat -> fix_log f = f.
Proof. intros E. unfold fix_log. now rewrite E. Qed.

Lemma whole_entries ls : (length (entries ls) mod sizeof_log_t = 0)%nat.
Proof. rewrite length_entries. apply Nat.Div0.mod_mul. Qed.

(** A client that asks for the log of an account from a time on gets the
    entries of the file from that time on, all of them and in their order,
    behind their length. *)
Theorem get_log_answers now from ls :
  times_ok ls -> 64 * Z.of_nat (length ls) < 2 ^ 32 ->
  get_log now from (entries ls) =
  (le_bytes 4 (64 * Z.of_nat (length (newer from ls))) ++ entries (newer from ls), purge_log now (entries ls)).
Proof.
  intros Ht Hl. unfold get_log. rewrite fix_log_whole by apply whole_entries.
  replace (if from =? _ then _ else _) with (entries ls) by (now destruct (from =? _)).
  assert (Hn : Z.of_nat (length (entries ls)) = 64 * Z.of_nat (length ls)) by (rewrite length_entries; unfold sizeof_log_t; lia).
  assert (Hw : (length (newer from ls) <= length ls)%nat) by apply length_filter.
  assert (Hm : forall k, 64 * k mod Z.of_nat sizeof_log_t = 0) by (intros k; rewrite Z.mul_comm; now apply Z.mod_mul).
  rewrite Hn, u32_small, Hm by lia. cbn [Z.eqb].
  rewrite get_loop_entries; [|exact Ht|rewrite length_entries; unfold sizeof_log_t; lia]. cbn [app].
  replace (64 * Z.of_nat (length ls) - (0 + 64 * Z.of_nat (length ls) - 64 * Z.of_nat (length (newer from ls))))
    with (64 * Z.of_nat (length (newer from ls))) by lia.
  rewrite u32_small, Hm by lia. reflexivity.
Qed.

(** The repair of a log file of a wrong length works only when exactly half
    an entry is in excess: otherwise zeros are appended (as many as the excess,
    not as many as are missing) and the length is still wrong. *)
Theorem fix_log_gives_up f :
  (length f mod sizeof_log_t <> 0)%nat -> (length f mod sizeof_log_t <> 32)%nat ->
  fix_log f = f ++ replicate (length f mod sizeof_log_t) 0 /\ (length (fix_log f) mod sizeof_log_t <> 0)%nat.
Proof.
  intros H0 H32. unfold fix_log. cbv zeta. set (r := (length f mod sizeof_log_t)%nat) in *.
  rewrite (proj2 (Nat.eqb_neq r 0)) by assumption.
  assert (Hm : ((length f + r) mod sizeof_log_t = (r + r) mod sizeof_log_t)%nat)
    by (unfold r; now rewrite Nat.Div0.add_mod_idemp_l).
  assert (Hr : (r < sizeof_log_t)%nat) by (apply Nat.mod_upper_bound; discriminate).
  assert (Hne : ((r + r) mod sizeof_log_t <> 0)%nat).
  { unfold sizeof_log_t in *. intros E. destruct (decide (r + r < 64)%nat); [rewrite Nat.mod_small in E; lia|].
    replace (r + r)%nat with ((r + r - 64) + 1 * 64)%nat in E by lia. rewrite Nat.Div0.mod_add, Nat.mod_small in E; lia. }
  rewrite length_app, length_replicate, Hm, (proj2 (Nat.eqb_neq _ 0)) by assumption. cbn [negb].
  split; [reflexivity|]. now rewrite length_app, length_replicate, Hm.
Qed.

(** * Examples *)

Definition demo_log (t : Z) : log_t :=
  {| lg_time := t; lg_type := TXSTYPE_PUT; lg_node := 1; lg_nmid := 2; lg_mpos := 3; lg_user := 4; lg_umid := 5;
     lg_weight := 6; lg_info := replicate 32 0 |}.

Lemma get_log_answers_witness :
  get_log 0 20 (entries [demo_log 10; demo_log 20; demo_log 30]) =
  (le_bytes 4 128 ++ entries [demo_log 20; demo_log 30], purge_log 0 (entries [demo_log 10; demo_log 20; demo_log 30])).
Proof.
  refine (get_log_answers 0 20 [demo_log 10; demo_log 20; demo_log 30] _ _); [|reflexivity].
  repeat constructor; cbn; lia.
Defined.

Lemma fix_log_gives_up_witness : length (fix_log (replicate 70 1)) = 76%nat /\ (76 mod sizeof_log_t <> 0)%nat.
Proof.
  destruct (fix_log_gives_up (replicate 70 1)) as [E H]; [vm_compute; congruence|vm_compute; congruence|].
  rewrite E in *. split; [reflexivity|exact H].
Defined.
