(* ===== verification/Commands.v ===== *)
(** The commands of clients that change the chain ([common/command/*.cpp] and
    the packed records of [common/command/pods.h]): their bytes on the wire
    and in a message, what is signed, fees and amounts. *)

From stdpp Require Import base gmap list.
From Stdlib Require Import ZArith Lia.
From S2P Require Import Prelude Params HashTree Usertxs Accounts Servers Ledger Process Demo.

(** * Data *)

(** The fields all commands start with. *)
Record cmd_info := { ci_abank : Z; ci_auser : Z; ci_amsid : Z; ci_ttime : Z }.

(** The classes of modifying commands with the fields of their records; a
    target of [SendMany] is (node, user, amount).  The records are those of
    [common/command/pods.h] from [UserSendOneInfo] to [CreateAccountData], then
    [SendBroadcastInfo], [ChangeNodeKeyData], [AccountStatusInfo],
    [NodeStatusInfo], [RetrieveFundsInfo] and [LogAccountInfo]; the records of
    commands that only read are not modelled. *)
Inductive command :=
  | BroadcastMsg (i : cmd_info) (message : list Z)
  | SendOne (i : cmd_info) (bbank buser ntmass : Z) (ntinfo : list Z)
  | SendMany (i : cmd_info) (txns : list (Z * Z * Z))
  | CreateAccount (i : cmd_info) (dst_node user_id : Z) (user_pkey : list Z)
  | CreateNode (i : cmd_info)
  | RetrieveFunds (i : cmd_info) (bbank buser : Z)
  | SetAccountKey (i : cmd_info) (pubkey : list Z)
  | ChangeNodeKey (i : cmd_info) (dst_node : Z) (node_new_key old_public_key : list Z)
  | SetAccountStatus (i : cmd_info) (bbank buser status : Z)
  | SetNodeStatus (i : cmd_info) (bbank status : Z)
  | UnsetAccountStatus (i : cmd_info) (bbank buser status : Z)
  | UnsetNodeStatus (i : cmd_info) (bbank status : Z)
  | LogAccount (i : cmd_info) (userData : list Z).

Definition getInfo (c : command) : cmd_info :=
  match c with
  | BroadcastMsg i _ | SendOne i _ _ _ _ | SendMany i _ | CreateAccount i _ _ _ | CreateNode i
  | RetrieveFunds i _ _ | SetAccountKey i _ | ChangeNodeKey i _ _ _ | SetAccountStatus i _ _ _
  | SetNodeStatus i _ _ | UnsetAccountStatus i _ _ _ | UnsetNodeStatus i _ _ | LogAccount i _ => i
  end.

Definition getBankId (c : command) : Z := (getInfo c).(ci_abank).
Definition getUserId (c : command) : Z := (getInfo c).(ci_auser).
Definition getUserMessageId (c : command) : Z := (getInfo c).(ci_amsid).
Definition getTime (c : command) : Z := (getInfo c).(ci_ttime).

Definition getType (c : command) : Z :=
  match c with
  | BroadcastMsg _ _ => TXSTYPE_BRO
  | SendOne _ _ _ _ _ => TXSTYPE_PUT
  | SendMany _ _ => TXSTYPE_MPT
  | CreateAccount _ _ _ _ => TXSTYPE_USR
  | CreateNode _ => TXSTYPE_BNK
  | RetrieveFunds _ _ _ => TXSTYPE_GET
  | SetAccountKey _ _ => TXSTYPE_KEY
  | ChangeNodeKey _ _ _ _ => TXSTYPE_BKY
  | SetAccountStatus _ _ _ _ => TXSTYPE_SUS
  | SetNodeStatus _ _ _ => TXSTYPE_SBS
  | UnsetAccountStatus _ _ _ _ => TXSTYPE_UUS
  | UnsetNodeStatus _ _ _ => TXSTYPE_UBS
  | LogAccount _ _ => TXSTYPE_SAV
  end.

(** * Bytes *)

Definition info_bytes (t : Z) (i : cmd_info) : list Z :=
  t :: le_bytes 2 i.(ci_abank) ++ le_bytes 4 i.(ci_auser) ++ le_bytes 4 i.(ci_amsid) ++ le_bytes 4 i.(ci_ttime).

(** The fields between the common ones and the signature. *)
Definition field_bytes (c : command) : list Z :=
  match c with
  | BroadcastMsg _ msg => le_bytes 2 (Z.of_nat (length msg))
  | SendOne _ bb bu mass info => le_bytes 2 bb ++ le_bytes 4 bu ++ le_bytes 8 mass ++ info
  | SendMany _ txns => le_bytes 2 (Z.of_nat (length txns))
  | CreateAccount _ dst _ _ => le_bytes 2 dst
  | CreateNode _ | LogAccount _ _ => []
  | RetrieveFunds _ bb bu => le_bytes 2 bb ++ le_bytes 4 bu
  | SetAccountKey _ pk => pk
  | ChangeNodeKey _ dst pk _ => le_bytes 2 dst ++ pk
  | SetAccountStatus _ bb bu st | UnsetAccountStatus _ bb bu st => le_bytes 2 bb ++ le_bytes 4 bu ++ le_bytes 2 st
  | SetNodeStatus _ bb st | UnsetNodeStatus _ bb st => le_bytes 2 bb ++ le_bytes 4 st
  end.

Definition getData (c : command) : list Z := info_bytes (getType c) (getInfo c) ++ field_bytes c.

Definition txn_bytes (t : Z * Z * Z) : list Z := let '(bank, user, mass) := t in
  le_bytes 2 bank ++ le_bytes 4 user ++ le_bytes 8 mass.

Definition getAdditionalData (c : command) : list Z :=
  match c with
  | BroadcastMsg _ msg => msg
  | SendMany _ txns => concat (map txn_bytes txns)
  | CreateAccount _ _ user pk => le_bytes 4 user ++ pk
  | ChangeNodeKey _ _ _ old => old
  | LogAccount _ userData => userData
  | _ => []
  end.

(** What [sign] and [checkSignature] cover behind the hash of the account. *)
Definition sign_data (c : command) : list Z :=
  match c with
  | BroadcastMsg _ _ | SendMany _ _ => getData c ++ getAdditionalData c
  | _ => getData c
  end.

(** [BlockCommand::sendData]: the command on the wire, behind its length. *)
Definition sendData (c : command) (sign : list Z) : list Z := getData c ++ getAdditionalData c ++ sign.

(** The transaction in a message: [getBlockMessage] of [SendOne] and
    [ChangeNodeKey], [office::add_msg] for the other commands. *)
Definition getBlockMessage (c : command) (sign : list Z) : list Z :=
  match c with
  | SendOne _ _ _ _ _ => getData c ++ sign
  | ChangeNodeKey _ _ _ old => getData c ++ sign ++ old
  | CreateAccount _ _ _ _ | LogAccount _ _ => getData c ++ sign ++ getAdditionalData c
  | _ => getData c ++ getAdditionalData c ++ sign
  end.

(** * Fees *)

(** One more target in the [uint64_t] sum of [SendMany::getFee]. *)
Definition mpt_fee_step (abank fee : Z) (t : Z * Z * Z) : Z :=
  let '(bank, _, mass) := t in
  let fee := u64 (fee + TXS_MPT_FEE mass) in
  if abank =? bank then fee else u64 (fee + TXS_LNG_FEE mass).

Definition SendOne_getFee (abank bbank ntmass : Z) : Z :=
  let fee := i64 (TXS_PUT_FEE ntmass + if abank =? bbank then 0 else TXS_LNG_FEE ntmass) in
  if fee <? TXS_MIN_FEE then TXS_MIN_FEE else fee.

Definition SendMany_getFee (abank : Z) (txns : list (Z * Z * Z)) : Z :=
  let fee := foldl (mpt_fee_step abank) 0 txns in
  let min := TXS_MINMPT_FEE (Z.of_nat (length txns)) in
  i64 (if fee <? min then min else fee).

Definition CreateAccount_getFee (abank bbank : Z) : Z :=
  if abank =? bbank then TXS_USR_FEE else TXS_USR_FEE + TXS_RUS_FEE.

Definition getFee (c : command) : Z :=
  match c with
  | BroadcastMsg _ msg => TXS_BRO_FEE (Z.of_nat (length msg))
  | SendOne i bb _ mass _ => SendOne_getFee i.(ci_abank) bb mass
  | SendMany i txns => SendMany_getFee i.(ci_abank) txns
  | CreateAccount i dst _ _ => CreateAccount_getFee i.(ci_abank) dst
  | CreateNode _ => TXS_BNK_FEE
  | RetrieveFunds _ _ _ => TXS_GET_FEE
  | SetAccountKey _ _ => TXS_KEY_FEE
  | ChangeNodeKey _ _ _ _ => TXS_BKY_FEE
  | SetAccountStatus _ _ _ _ => TXS_SUS_FEE
  | SetNodeStatus _ _ _ => TXS_SBS_FEE
  | UnsetAccountStatus _ _ _ _ => TXS_UUS_FEE
  | UnsetNodeStatus _ _ _ => TXS_UBS_FEE
  | LogAccount _ _ => TXS_SAV_FEE
  end.

Definition SendMany_getDeduct (txns : list (Z * Z * Z)) : Z := foldl (fun d (t : Z * Z * Z) => i64 (d + t.2)) 0 txns.

Definition getDeduct (c : command) : Z :=
  match c with
  | SendOne _ _ _ mass _ => mass
  | SendMany _ txns => SendMany_getDeduct txns
  | CreateAccount _ _ _ _ => USER_MIN_MASS
  | CreateNode _ => BANK_MIN_UMASS + BANK_MIN_TMASS
  | _ => 0
  end.

(** * Reading a command from a client *)

(** [client::handle_read_txstype]: a type out of range ends the connection.
    The test is made on a [char]; for a type of 128 or more it succeeds,
    [makeCommand] has no such command and the empty pointer is used. *)
Inductive type_read := Leave | NullCommand | ReadData.

Definition makeCommand (type : Z) : bool := (0 <=? type) && (type <? TXSTYPE_MAX).

Definition handle_read_txstype (b : Z) : type_read :=
  if TXSTYPE_MAX <=? schar b then Leave else if makeCommand b then ReadData else NullCommand.

Definition read_info (f : list Z) : option (cmd_info * list Z) :=
  let* (abank, f) := fread_le 2 f in
  let* (auser, f) := fread_le 4 f in
  let* (amsid, f) := fread_le 4 f in
  let* (ttime, f) := fread_le 4 f in
  Some ({| ci_abank := abank; ci_auser := auser; ci_amsid := amsid; ci_ttime := ttime |}, f).

Fixpoint read_txns (n : nat) (f : list Z) : option (list (Z * Z * Z) * list Z) :=
  match n with
  | O => Some ([], f)
  | S n =>
      let* (bank, f) := fread_le 2 f in
      let* (user, f) := fread_le 4 f in
      let* (mass, f) := fread_le 8 f in
      let* (ts, f) := read_txns n f in
      Some ((bank, user, i64 mass) :: ts, f)
  end.

(** Target account, in three kinds of commands. *)
Definition read_target (f : list Z) : option (Z * Z * list Z) :=
  let* (bb, f) := fread_le 2 f in let* (bu, f) := fread_le 4 f in Some (bb, bu, f).

(** The data of the command and then its additional data. *)
Definition read_fields_of (t : Z) (i : cmd_info) (f : list Z) : option (command * list Z) :=
  if t =? TXSTYPE_BRO then
    let* (n, f) := fread_le 2 f in let* (msg, f) := fread (Z.to_nat n) f in Some (BroadcastMsg i msg, f)
  else if t =? TXSTYPE_PUT then
    let* (bb, bu, f) := read_target f in let* (mass, f) := fread_le 8 f in let* (info, f) := fread 32 f in
    Some (SendOne i bb bu (i64 mass) info, f)
  else if t =? TXSTYPE_MPT then
    let* (n, f) := fread_le 2 f in let* (ts, f) := read_txns (Z.to_nat n) f in Some (SendMany i ts, f)
  else if t =? TXSTYPE_USR then
    let* (dst, f) := fread_le 2 f in let* (user, f) := fread_le 4 f in let* (pk, f) := fread 32 f in
    Some (CreateAccount i dst user pk, f)
  else if t =? TXSTYPE_BNK then Some (CreateNode i, f)
  else if t =? TXSTYPE_GET then let* (bb, bu, f) := read_target f in Some (RetrieveFunds i bb bu, f)
  else if t =? TXSTYPE_KEY then let* (pk, f) := fread 32 f in Some (SetAccountKey i pk, f)
  else if t =? TXSTYPE_BKY then
    let* (dst, f) := fread_le 2 f in let* (pk, f) := fread 32 f in let* (old, f) := fread 32 f in
    Some (ChangeNodeKey i dst pk old, f)
  else if t =? TXSTYPE_SUS then
    let* (bb, bu, f) := read_target f in let* (st, f) := fread_le 2 f in Some (SetAccountStatus i bb bu st, f)
  else if t =? TXSTYPE_SBS then
    let* (bb, f) := fread_le 2 f in let* (st, f) := fread_le 4 f in Some (SetNodeStatus i bb st, f)
  else if t =? TXSTYPE_UUS then
    let* (bb, bu, f) := read_target f in let* (st, f) := fread_le 2 f in Some (UnsetAccountStatus i bb bu st, f)
  else if t =? TXSTYPE_UBS then
    let* (bb, f) := fread_le 2 f in let* (st, f) := fread_le 4 f in Some (UnsetNodeStatus i bb st, f)
  else if t =? TXSTYPE_SAV then let* (ud, f) := fread (Z.to_nat sizeof_user_t) f in Some (LogAccount i ud, f)
  else None.

(** A modifying command with its signature; [None] when the stream ends or the
    type is of another kind. *)
Definition read_command (f : list Z) : option (command * list Z * list Z) :=
  let* (t, f) := fread_le 1 f in
  let* (i, f) := read_info f in
  let* (c, f) := read_fields_of t i f in
  let* (sign, f) := fread 64 f in
  Some (c, sign, f).

(** A type byte of 128 or more: the empty pointer is used. *)
Lemma null_command_used b : 128 <= b < 256 -> handle_read_txstype b = NullCommand.
Proof.
  intros Hb. unfold handle_read_txstype, makeCommand, schar, TXSTYPE_MAX.
  rewrite (proj2 (Z.ltb_ge b 128)) by lia. rewrite (proj2 (Z.leb_gt 28 (b - 256))) by lia.
  now rewrite (proj2 (Z.ltb_ge b 28)), andb_false_r by lia.
Qed.

(** * Round trips *)

(** Fields in the range of their types. *)
Definition info_wf (i : cmd_info) : Prop :=
  0 <= i.(ci_abank) < 2 ^ 16 /\ 0 <= i.(ci_auser) < 2 ^ 32 /\ 0 <= i.(ci_amsid) < 2 ^ 32 /\ 0 <= i.(ci_ttime) < 2 ^ 32.
Definition is_key (k : list Z) : Prop := length k = 32%nat.
Definition target_wf (bb bu : Z) : Prop := 0 <= bb < 2 ^ 16 /\ 0 <= bu < 2 ^ 32.
Definition txn_wf (t : Z * Z * Z) : Prop := target_wf t.1.1 t.1.2 /\ - 2 ^ 63 <= t.2 < 2 ^ 63.

Definition cmd_wf (c : command) : Prop :=
  info_wf (getInfo c) /\
  match c with
  | BroadcastMsg _ msg => Z.of_nat (length msg) < 2 ^ 16
  | SendOne _ bb bu mass info => target_wf bb bu /\ - 2 ^ 63 <= mass < 2 ^ 63 /\ is_key info
  | SendMany _ txns => Z.of_nat (length txns) < 2 ^ 16 /\ Forall txn_wf txns
  | CreateAccount _ dst user pk => target_wf dst user /\ is_key pk
  | CreateNode _ => True
  | RetrieveFunds _ bb bu => target_wf bb bu
  | SetAccountKey _ pk => is_key pk
  | ChangeNodeKey _ dst pk old => 0 <= dst < 2 ^ 16 /\ is_key pk /\ is_key old
  | SetAccountStatus _ bb bu st | UnsetAccountStatus _ bb bu st => target_wf bb bu /\ 0 <= st < 2 ^ 16
  | SetNodeStatus _ bb st | UnsetNodeStatus _ bb st => 0 <= bb < 2 ^ 16 /\ 0 <= st < 2 ^ 32
  | LogAccount _ ud => length ud = Z.to_nat sizeof_user_t
  end.

Lemma fread_type t l : fread_le 1 (t :: l) = Some (t, l).
Proof. unfold fread_le, fread. cbn. rewrite take_0, drop_0. cbn. repeat f_equal. lia. Qed.

Lemma read_info_app i f : info_wf i ->
  read_info (le_bytes 2 i.(ci_abank) ++ le_bytes 4 i.(ci_auser) ++ le_bytes 4 i.(ci_amsid) ++ le_bytes 4 i.(ci_ttime) ++ f) =
  Some (i, f).
Proof. intros (? & ? & ? & ?). unfold read_info. fread_fields. now destruct i. Qed.

Lemma read_target_app bb bu f : target_wf bb bu -> read_target (le_bytes 2 bb ++ le_bytes 4 bu ++ f) = Some (bb, bu, f).
Proof. intros [? ?]. unfold read_target. fread_fields. reflexivity. Qed.

Lemma read_txns_app ts f :
  Forall txn_wf ts -> read_txns (length ts) (concat (map txn_bytes ts) ++ f) = Some (ts, f).
Proof.
  induction 1 as [|[[bank user] mass] ts [[Hb Hu] Hm] _ IH]; [reflexivity|].
  cbn [length read_txns map concat txn_bytes fst snd] in *. fread_fields.
  destruct (fread_i64_app mass (concat (map txn_bytes ts) ++ f) Hm) as (y & -> & ->). now rewrite IH.
Qed.

Lemma read_fields_app c f : cmd_wf c ->
  read_fields_of (getType c) (getInfo c) (field_bytes c ++ getAdditionalData c ++ f) = Some (c, f).
Proof.
  intros [_ Hw]. destruct c; cbn [getInfo getType field_bytes getAdditionalData] in *;
    unfold is_key in *; destruct_and? Hw; unfold read_fields_of;
    cbn [TXSTYPE_BRO TXSTYPE_PUT TXSTYPE_MPT TXSTYPE_USR TXSTYPE_BNK TXSTYPE_GET TXSTYPE_KEY TXSTYPE_BKY TXSTYPE_SUS
         TXSTYPE_SBS TXSTYPE_UUS TXSTYPE_UBS TXSTYPE_SAV Z.eqb Pos.eqb];
    rewrite <- ?(assoc_L (++)), ?app_nil_l; rewrite ?read_target_app by assumption; fread_fields; try reflexivity.
  - rewrite Nat2Z.id, fread_app by reflexivity. reflexivity.
  - destruct (fread_i64_app ntmass (ntinfo ++ f) ltac:(lia)) as (y & -> & ->). fread_fields. reflexivity.
  - rewrite Nat2Z.id. now rewrite read_txns_app.
  - destruct H. fread_fields. reflexivity.
Qed.

(** C22: a command arrives as it was sent: the office reads back, from the bytes
    the client writes, the command, its signature and where the next one
    starts. *)
Theorem command_wire_roundtrip c sign rest :
  cmd_wf c -> length sign = 64%nat -> read_command (sendData c sign ++ rest) = Some (c, sign, rest).
Proof.
  intros Hw Hs. unfold read_command, sendData, getData, info_bytes. rewrite <- !(assoc_L (++)). cbn [app].
  rewrite fread_type, <- !(assoc_L (++)), read_info_app by apply Hw.
  rewrite read_fields_app by assumption. now rewrite fread_app.
Qed.

(** ** The transaction in a message *)

(** What [parse] makes of the transaction.  [KEY] and [BNK] have no target
    bank: there [parse] takes the two bytes behind the common fields. *)
Definition cmd_txs (c : command) (sign : list Z) : usertxs :=
  let i := getInfo c in
  let mk bb bu tm ti := {| ttype := getType c; abank := i.(ci_abank); auser := i.(ci_auser); amsid := i.(ci_amsid);
                           ttime := i.(ci_ttime); bbank := bb; buser := bu; tmass := tm; tinfo := ti;
                           size := Z.of_nat (length (getBlockMessage c sign)) |} in
  match c with
  | BroadcastMsg _ msg => mk (Z.of_nat (length msg)) 0 0 no_info
  | SendOne _ bb bu mass info => mk bb bu mass info
  | SendMany _ txns => mk (Z.of_nat (length txns)) 0 0 no_info
  | CreateAccount _ dst _ _ => mk dst 0 0 no_info
  | CreateNode _ => mk (rdz sign 0 2) 0 0 no_info
  | RetrieveFunds _ bb bu => mk bb bu 0 no_info
  | SetAccountKey _ pk => mk (rdz pk 0 2) 0 0 no_info
  | ChangeNodeKey _ dst _ _ => mk dst 0 0 no_info
  | SetAccountStatus _ bb bu st | UnsetAccountStatus _ bb bu st => mk bb bu st no_info
  | SetNodeStatus _ bb st | UnsetNodeStatus _ bb st => mk bb 0 st no_info
  | LogAccount _ _ => mk 0 0 0 no_info
  end.

Lemma length_info_bytes t i : length (info_bytes t i) = 15%nat.
Proof. unfold info_bytes. cbn [length]. now rewrite !length_app, !length_le_bytes. Qed.

Lemma info_rdz t i rest : info_wf i ->
  let p := info_bytes t i ++ rest in
  txs_type p = t /\ rdz p 1 2 = i.(ci_abank) /\ rdz p 3 4 = i.(ci_auser) /\ rdz p 7 4 = i.(ci_amsid) /\
  rdz p 11 4 = i.(ci_ttime).
Proof.
  intros (? & ? & ? & ?) p. unfold p, info_bytes, txs_type. cbn [app]. rewrite <- !(assoc_L (++)).
  split_and!; read_fields; reflexivity.
Qed.

Lemma info_rd t i rest off n : (15 <= off)%nat -> rd (info_bytes t i ++ rest) off n = rd rest (off - 15) n.
Proof. intros Ho. rewrite rd_app_skip by (rewrite length_info_bytes; lia). now rewrite length_info_bytes. Qed.

Lemma length_txns ts : length (concat (map txn_bytes ts)) = (14 * length ts)%nat.
Proof.
  induction ts as [|[[bank user] mass] ts IH]; [reflexivity|]. cbn [map concat txn_bytes length].
  rewrite !length_app, !length_le_bytes, IH. lia.
Qed.

(** The length of a transaction, from the table and the variable part. *)
Definition block_size (c : command) : Z :=
  tlen (getType c) + 64 +
  match c with
  | BroadcastMsg _ msg => Z.of_nat (length msg)
  | SendMany _ txns => Z.of_nat (length txns) * (6 + 8)
  | CreateAccount _ _ _ _ => 4 + 32
  | ChangeNodeKey _ _ _ _ => 32
  | LogAccount _ _ => sizeof_user_t
  | _ => 0
  end.

Lemma length_block_message c sign :
  cmd_wf c -> length sign = 64%nat -> Z.of_nat (length (getBlockMessage c sign)) = block_size c.
Proof.
  intros [_ Hw] Hs. unfold block_size. destruct c; cbn [getBlockMessage getInfo getType] in *; unfold is_key in *;
    destruct_and? Hw; unfold getData; rewrite ?length_app, ?length_info_bytes;
    cbn [field_bytes getAdditionalData getType getInfo]; rewrite ?length_app, ?length_le_bytes, ?length_txns;
    cbn [length];
    match goal with |- context [tlen ?t] => let v := eval vm_compute in (tlen t) in change (tlen t) with v end;
    unfold sizeof_user_t in *; lia.
Qed.

(** The bytes behind the common fields. *)
Definition block_tail (c : command) (sign : list Z) : list Z :=
  match c with
  | CreateAccount _ _ _ _ | LogAccount _ _ | ChangeNodeKey _ _ _ _ => field_bytes c ++ sign ++ getAdditionalData c
  | _ => field_bytes c ++ getAdditionalData c ++ sign
  end.

Lemma block_message_tail c sign : getBlockMessage c sign = info_bytes (getType c) (getInfo c) ++ block_tail c sign.
Proof. destruct c; unfold getBlockMessage, getData, block_tail; cbn [getAdditionalData]; now rewrite <- !(assoc_L (++)). Qed.

Lemma parse_block_message c sign rest :
  cmd_wf c -> length sign = 64%nat -> parse (getBlockMessage c sign ++ rest) = Some (cmd_txs c sign).
Proof.
  intros Hw Hs. pose proof (length_block_message c sign Hw Hs) as Hl. unfold cmd_txs.
  rewrite block_message_tail in *. rewrite <- (assoc_L (++)). destruct Hw as [Hi Hw].
  destruct (info_rdz (getType c) (getInfo c) (block_tail c sign ++ rest) Hi) as (Ht & Hab & Hau & Ham & Htt).
  unfold parse. rewrite Ht. cbv zeta. rewrite Hab, Hau, Ham, Htt. rewrite Hl. clear Ht Hab Hau Ham Htt Hl.
  assert (Hr : forall off n, (15 <= off)%nat ->
    rdz (info_bytes (getType c) (getInfo c) ++ block_tail c sign ++ rest) off n = rdz (block_tail c sign ++ rest) (off - 15) n).
  { intros. unfold rdz. now rewrite info_rd. }
  assert (Hr' : rd (info_bytes (getType c) (getInfo c) ++ block_tail c sign ++ rest) 29 32 = rd (block_tail c sign ++ rest) 14 32).
  { apply info_rd. lia. }
  rewrite ?(Hr 15%nat), ?(Hr 17%nat), ?(Hr 21%nat), ?(Hr 19%nat) by lia. rewrite Hr'. clear Hr Hr'. cbn [Nat.sub].
  destruct c; cbn [getType getInfo block_tail field_bytes getAdditionalData block_size app] in *; unfold is_key, target_wf in *;
    destruct_and? Hw;
    cbn [TXSTYPE_MAX TXSTYPE_NON TXSTYPE_BLK TXSTYPE_TXS TXSTYPE_VIP TXSTYPE_SIG TXSTYPE_NDS TXSTYPE_MGS TXSTYPE_NOD TXSTYPE_MSG
         TXSTYPE_CON TXSTYPE_BLG TXSTYPE_INF TXSTYPE_LOG TXSTYPE_UOK
         TXSTYPE_BRO TXSTYPE_PUT TXSTYPE_MPT TXSTYPE_USR TXSTYPE_BNK TXSTYPE_GET TXSTYPE_KEY TXSTYPE_BKY TXSTYPE_SUS
         TXSTYPE_SBS TXSTYPE_UUS TXSTYPE_UBS TXSTYPE_SAV Z.leb Z.eqb Pos.eqb Z.compare Pos.compare Pos.compare_cont orb];
    rewrite <- ?(assoc_L (++)); read_fields;
    rewrite ?rdz_app_l by (rewrite ?length_app; lia); try reflexivity.
  all: try (do 2 f_equal; unfold sizeof_user_t; lia).
  all: try (do 2 f_equal; unfold tlen; cbn; lia).
  rewrite rdz_i64 by lia. rewrite rd_app_skip by (rewrite length_le_bytes; lia).
  rewrite length_le_bytes, rd_app_skip by (rewrite length_le_bytes; lia).
  rewrite length_le_bytes, rd_app_skip by (rewrite length_le_bytes; lia).
  rewrite length_le_bytes, rd_app_here by assumption. do 2 f_equal; try lia.
Qed.

(** What follows the signature. *)
Definition block_rest (c : command) : list Z :=
  match c with
  | CreateAccount _ _ _ _ | LogAccount _ _ | ChangeNodeKey _ _ _ _ => getAdditionalData c
  | _ => []
  end.

Lemma block_message_signed c sign : getBlockMessage c sign = sign_data c ++ sign ++ block_rest c.
Proof. destruct c; cbn [getBlockMessage sign_data block_rest getAdditionalData]; rewrite <- ?(assoc_L (++)), ?app_nil_r; reflexivity. Qed.

Lemma sign_mlen2_data c sign : cmd_wf c -> sign_mlen2 (cmd_txs c sign) = Z.of_nat (length (sign_data c)).
Proof.
  intros [_ Hw]. destruct c; cbn [sign_data getInfo] in *; unfold is_key in *; destruct_and? Hw;
    unfold sign_mlen2, getData; cbn [cmd_txs ttype Usertxs.bbank getType getInfo field_bytes getAdditionalData];
    rewrite ?length_app, length_info_bytes, ?length_app, ?length_le_bytes, ?length_txns;
    cbn [TXSTYPE_BRO TXSTYPE_PUT TXSTYPE_MPT TXSTYPE_USR TXSTYPE_BNK TXSTYPE_GET TXSTYPE_KEY TXSTYPE_BKY TXSTYPE_SUS
         TXSTYPE_SBS TXSTYPE_UUS TXSTYPE_UBS TXSTYPE_SAV Z.eqb Pos.eqb];
    match goal with |- context [tlen ?t] => let v := eval vm_compute in (tlen t) in change (tlen t) with v end;
    cbn [length]; lia.
Qed.

Lemma signature_at c sign rest :
  cmd_wf c -> length sign = 64%nat ->
  rd (getBlockMessage c sign ++ rest) (Z.to_nat (sign_mlen2 (cmd_txs c sign))) 64 = sign.
Proof.
  intros Hw Hs. rewrite sign_mlen2_data, Nat2Z.id by assumption. rewrite block_message_signed, <- !(assoc_L (++)).
  rewrite rd_app_skip by lia. now rewrite Nat.sub_diag, rd_app_here.
Qed.

(** C21: the transaction the office puts in a message for a command is read by
    every node as that command: [parse] gives its type, sender, number, time,
    target and amount and exactly its length, and the signature the nodes check
    is the client's over the bytes the client signed. *)
Theorem command_transaction c sign rest a :
  cmd_wf c -> length sign = 64%nat ->
  let p := getBlockMessage c sign ++ rest in
  parse p = Some (cmd_txs c sign) /\ drop (Z.to_nat (cmd_txs c sign).(size)) p = rest /\
  tx_signature p (cmd_txs c sign) a = (u_hash a, sign_data c, u_pkey a, sign).
Proof.
  intros Hw Hs p. split; [now apply parse_block_message|]. split.
  - replace (Z.to_nat _) with (length (getBlockMessage c sign)) by (destruct c; cbn [cmd_txs size]; now rewrite Nat2Z.id).
    apply drop_app_length.
  - unfold tx_signature. unfold p at 2. rewrite signature_at by assumption.
    rewrite sign_mlen2_data, Nat2Z.id by assumption. unfold p.
    rewrite block_message_signed, <- !(assoc_L (++)). now rewrite rd_app_here.
Qed.

(** * Fees of the client and of the nodes *)

Lemma mpt_targets_app ts rest :
  Forall txn_wf ts -> mpt_targets (length ts) (concat (map txn_bytes ts) ++ rest) = ts.
Proof.
  induction 1 as [|[[bank user] mass] ts [[Hb Hu] Hm] _ IH]; [reflexivity|].
  cbn [length mpt_targets map concat txn_bytes fst snd] in *. rewrite <- !(assoc_L (++)). read_fields.
  rewrite rdz_i64 by assumption. f_equal.
  replace (drop 14 _) with (concat (map txn_bytes ts) ++ rest); [exact IH|].
  rewrite !(assoc_L (++)), <- (assoc_L (++)), drop_app_length'; [reflexivity|].
  now rewrite !length_app, !length_le_bytes.
Qed.

Definition mpt_fee (abank : Z) (t : Z * Z * Z) : Z :=
  TXS_MPT_FEE t.2 + if abank =? t.1.1 then 0 else TXS_LNG_FEE t.2.

Definition amounts (ts : list (Z * Z * Z)) : Z := zsum (map snd ts).
Definition mpt_fees (abank : Z) (ts : list (Z * Z * Z)) : Z := zsum (map (mpt_fee abank) ts).

Lemma amounts_cons t ts : amounts (t :: ts) = t.2 + amounts ts.
Proof. reflexivity. Qed.
Lemma mpt_fees_cons ab t ts : mpt_fees ab (t :: ts) = mpt_fee ab t + mpt_fees ab ts.
Proof. reflexivity. Qed.

Lemma mpt_fee_bound ab t : 0 < t.2 -> 0 <= mpt_fee ab t <= t.2.
Proof.
  intros Ht. unfold mpt_fee, TXS_MPT_FEE, TXS_LNG_FEE.
  destruct (ab =? _); Z.to_euclidean_division_equations; lia.
Qed.

Lemma amounts_pos ts : Forall (fun t => 0 < t.2) ts -> 0 <= amounts ts.
Proof. induction 1; [reflexivity|]. rewrite amounts_cons. lia. Qed.

Lemma mpt_fee_step_exact ab f t :
  0 <= f -> 0 < t.2 -> f + t.2 < 2 ^ 63 -> mpt_fee_step ab f t = f + mpt_fee ab t.
Proof.
  intros Hf Ht Hb. pose proof (mpt_fee_bound ab t Ht) as Hm. destruct t as [[bank user] mass].
  unfold mpt_fee_step, mpt_fee in *. cbn [fst snd] in *.
  assert (0 <= TXS_MPT_FEE mass) by (unfold TXS_MPT_FEE; Z.to_euclidean_division_equations; lia).
  assert (0 <= TXS_LNG_FEE mass) by (unfold TXS_LNG_FEE; Z.to_euclidean_division_equations; lia).
  destruct (ab =? bank); rewrite (u64_small (f + TXS_MPT_FEE mass)) by lia; [lia|rewrite u64_small; lia].
Qed.

Lemma fee_fold_exact ab ts f :
  Forall (fun t => 0 < t.2) ts -> 0 <= f -> f + amounts ts < 2 ^ 63 ->
  foldl (mpt_fee_step ab) f ts = f + mpt_fees ab ts /\ 0 <= mpt_fees ab ts <= amounts ts.
Proof.
  intros Hp. revert f. induction Hp as [|t ts Ht Hp IH]; intros f Hf Hb; [unfold mpt_fees, amounts; cbn; lia|].
  pose proof (amounts_pos ts Hp). pose proof (mpt_fee_bound ab t Ht).
  rewrite mpt_fees_cons, amounts_cons in *. cbn [foldl].
  rewrite mpt_fee_step_exact by lia. destruct (IH (f + mpt_fee ab t)) as [-> Hr]; [lia|lia|]. lia.
Qed.

Lemma deduct_fold_exact ts d :
  Forall (fun t => 0 < t.2) ts -> 0 <= d -> d + amounts ts < 2 ^ 63 ->
  foldl (fun d (t : Z * Z * Z) => i64 (d + t.2)) d ts = d + amounts ts.
Proof.
  intros Hp. revert d. induction Hp as [|t ts Ht Hp IH]; intros d Hd Hb; [unfold amounts; cbn; lia|].
  pose proof (amounts_pos ts Hp). rewrite amounts_cons in *. cbn [foldl].
  rewrite i64_small by lia. rewrite IH; lia.
Qed.

Section Fees.

(** The loop of the nodes over the targets adds the same amounts and fees. *)
Lemma mpt_loop_exact e s ab out ts c l c' l' :
  mpt_loop e s ab out ts c l = Ok (c', l') ->
  Forall (fun t => 0 < t.2) ts /\
  (0 <= c_fee c <= c_tmass c -> c_tmass c + amounts ts < 2 ^ 63 ->
   c_fee c' = c_fee c + mpt_fees ab ts /\ c_tmass c' = c_tmass c + amounts ts).
Proof.
  revert out c l. induction ts as [|[[bank user] mass] ts IH]; intros out c l E; cbn [mpt_loop] in E.
  { inv_ok. split; [constructor|]. unfold mpt_fees, amounts. cbn. lia. }
  cbv zeta in E. inv_ok. apply Z.ltb_lt in C. apply IH in E as [Hp Hx]. split; [now constructor|].
  intros Hc Hb. pose proof (amounts_pos ts Hp). pose proof (mpt_fee_bound ab (bank, user, mass) C) as Hm.
  rewrite mpt_fees_cons, amounts_cons in *. cbn [c_fee c_tmass] in *. unfold mpt_fee in *. cbn [fst snd] in *.
  assert (0 <= TXS_MPT_FEE mass) by (unfold TXS_MPT_FEE; Z.to_euclidean_division_equations; lia).
  assert (0 <= TXS_LNG_FEE mass) by (unfold TXS_LNG_FEE; Z.to_euclidean_division_equations; lia).
  destruct (ab =? bank); cbn [negb] in *; rewrite (i64_small (c_fee c + TXS_MPT_FEE mass)) in Hx by lia;
    rewrite !i64_small in Hx by lia; destruct Hx as [-> ->]; lia.
Qed.

(** The amounts for which the arithmetic of neither side overflows. *)
Definition amounts_ok (c : command) : Prop :=
  match c with
  | SendOne _ _ _ mass _ => 0 <= mass
  | SendMany _ txns => amounts txns < 2 ^ 63
  | _ => True
  end.

Lemma mpt_targets_message i txns sign rest :
  cmd_wf (SendMany i txns) ->
  mpt_targets (length txns) (drop toaddresses (getBlockMessage (SendMany i txns) sign ++ rest)) = txns.
Proof.
  intros [_ [_ Hw]]. rewrite block_message_tail, <- (assoc_L (++)).
  replace (drop toaddresses _) with (concat (map txn_bytes txns) ++ sign ++ rest); [now apply mpt_targets_app|].
  unfold toaddresses, block_tail. cbn [field_bytes getAdditionalData]. rewrite <- !(assoc_L (++)).
  rewrite (assoc_L (++) (info_bytes _ _)), drop_app_length'; [reflexivity|].
  now rewrite length_app, length_info_bytes, length_le_bytes.
Qed.

Lemma mpt_price e s i txns sign rest l k l' :
  cmd_wf (SendMany i txns) -> amounts txns < 2 ^ 63 ->
  tx_mpt e s (getBlockMessage (SendMany i txns) sign ++ rest) (cmd_txs (SendMany i txns) sign) l = Ok (k, l') ->
  c_fee k = getFee (SendMany i txns) /\ c_deduct k = getDeduct (SendMany i txns).
Proof.
  intros Hw Ha E. unfold tx_mpt in E. cbn [cmd_txs Usertxs.bbank Usertxs.abank getInfo] in E.
  rewrite Nat2Z.id, mpt_targets_message in E by assumption. destruct Hw as [_ [Hn Hw]].
  inv_ok. apply mpt_loop_exact in E0 as [Hp Hx].
  assert (0 <= TXS_MINMPT_FEE (Z.of_nat (length txns)) < 2 ^ 63)
    by (unfold TXS_MINMPT_FEE; destruct (_ <? 10); lia).
  destruct Hx as [Hf Hd]; [cbn; lia|exact Ha|]. cbn [c_fee c_tmass flat] in Hf, Hd.
  cbn [c_fee c_deduct getFee getDeduct]. unfold SendMany_getFee, SendMany_getDeduct.
  destruct (fee_fold_exact (ci_abank i) txns 0 Hp) as [Hff Hr]; [lia|lia|].
  rewrite Hff, deduct_fold_exact by (assumption || lia). cbn. rewrite Hf, Hd, !Z.add_0_l. split; [|reflexivity].
  destruct (_ <? _); rewrite i64_small; lia.
Qed.

Lemma charge_cost c sign rest e s m usera l s' k usera' l' :
  cmd_wf c -> amounts_ok c -> locked s.(srvs_).(sv_now) (cmd_txs c sign) usera = false ->
  tx_charge e s m (getBlockMessage c sign ++ rest) (cmd_txs c sign) usera l = Ok (s', k, usera', l') ->
  c_fee k = getFee c /\ c_deduct k = getDeduct c.
Proof.
  intros Hw Ha Hl E. unfold tx_charge in E. rewrite Hl in E.
  destruct c; cbn [cmd_txs ttype getType Usertxs.bbank Usertxs.abank getInfo] in E;
    cbn [TXSTYPE_BRO TXSTYPE_PUT TXSTYPE_MPT TXSTYPE_USR TXSTYPE_BNK TXSTYPE_GET TXSTYPE_KEY TXSTYPE_BKY TXSTYPE_SUS
         TXSTYPE_SBS TXSTYPE_UUS TXSTYPE_UBS TXSTYPE_SAV Z.eqb Pos.eqb] in E.
  - inv_ok. split; reflexivity.
  - inv_ok. unfold tx_put in E0. cbn [cmd_txs Usertxs.tmass Usertxs.bbank Usertxs.buser Usertxs.abank getInfo] in E0.
    rewrite (proj2 (Z.ltb_ge ntmass 0)) in E0 by exact Ha. inv_ok. cbn [c_fee c_deduct getFee getDeduct].
    split; [|reflexivity]. unfold SendOne_getFee. destruct (ci_abank i =? bbank); reflexivity.
  - inv_ok. eapply mpt_price; eassumption.
  - destruct (tx_usr _ _ _ _ _ _) as [[s1 c1] l1] eqn:Eu. inv_ok. unfold tx_usr in Eu.
    cbn [cmd_txs Usertxs.bbank Usertxs.abank getInfo] in Eu. cbn [getFee getDeduct getInfo].
    unfold CreateAccount_getFee. destruct (ci_abank i =? dst_node); cbn [negb] in Eu; injection Eu as _ <- _; split; reflexivity.
  - inv_ok. split; reflexivity.
  - inv_ok. split; reflexivity.
  - inv_ok. split; reflexivity.
  - inv_ok. unfold tx_bky in E0. cbv zeta in E0. inv_ok. destruct (bky_node _ _ _ =? 0); inv_ok; split; reflexivity.
  - inv_ok. unfold tx_account_status in E0. inv_ok. split; reflexivity.
  - inv_ok. unfold tx_node_status in E0. inv_ok. split; reflexivity.
  - inv_ok. unfold tx_account_status in E0. inv_ok. split; reflexivity.
  - inv_ok. unfold tx_node_status in E0. inv_ok. split; reflexivity.
  - inv_ok. unfold tx_sav in E0. inv_ok. split; reflexivity.
Qed.

(** C20: client and nodes agree on the price of a command: what [getFee] and
    [getDeduct] tell the office, which takes it from the sender's balance when
    the command is accepted, is what [process_message] charges for the
    transaction, when the account is not locked and no amount is negative. *)
Theorem command_price c sign rest e s m usera l s' k usera' l' :
  cmd_wf c -> amounts_ok c -> locked s.(srvs_).(sv_now) (cmd_txs c sign) usera = false ->
  tx_charge e s m (getBlockMessage c sign ++ rest) (cmd_txs c sign) usera l = Ok (s', k, usera', l') ->
  c_fee k = getFee c /\ c_deduct k = getDeduct c.
Proof. apply charge_cost. Qed.
End Fees.

(** * Examples *)

Definition demo_info : cmd_info := {| ci_abank := 1; ci_auser := 1; ci_amsid := 1; ci_ttime := demo_now |}.

(** Two amounts, to the owner of the bank and to another bank. *)
Definition demo_many : command := SendMany demo_info [(1, 0, 5000); (2, 0, 7000)].
Definition demo_one : command := SendOne demo_info 1 0 1000 (replicate 32 0).

Lemma demo_many_wf : cmd_wf demo_many.
Proof.
  split; [vm_compute; intuition congruence|]. split; [reflexivity|].
  repeat constructor; vm_compute; congruence.
Qed.

Lemma demo_one_wf : cmd_wf demo_one.
Proof. vm_compute. intuition congruence. Qed.

Lemma command_wire_roundtrip_witness :
  read_command (sendData demo_many demo_sig ++ [3; 1]) = Some (demo_many, demo_sig, [3; 1]).
Proof. apply command_wire_roundtrip; [exact demo_many_wf|reflexivity]. Defined.

Lemma command_transaction_witness :
  parse (getBlockMessage demo_many demo_sig ++ [3; 1]) = Some (cmd_txs demo_many demo_sig).
Proof.
  apply (command_transaction demo_many demo_sig [3; 1] zero_user); [exact demo_many_wf|reflexivity].
Defined.

(** The nodes charge a transfer of 12000 and its fees: the minimum for two
    targets. *)
Lemma command_price_witness :
  exists r, tx_charge demo_env (demo_server (H := toy_sha) [[10 ^ 15; 10 ^ 11]; [10 ^ 15]])
    (demo_msg 1 1 demo_now [getBlockMessage demo_many demo_sig])
    (getBlockMessage demo_many demo_sig ++ []) (cmd_txs demo_many demo_sig)
    (demo_user (H := toy_sha) 1 1 (10 ^ 11)) (locals_init 2) = Ok r /\
  c_fee r.1.1.2 = getFee demo_many /\ getFee demo_many = TXS_MINMPT_FEE 2 /\
  c_deduct r.1.1.2 = getDeduct demo_many /\ getDeduct demo_many = 12000.
Proof.
  set (s := demo_server (H := toy_sha) [[10 ^ 15; 10 ^ 11]; [10 ^ 15]]).
  set (c := tx_charge demo_env s _ _ _ _ _). runs c r E. destruct r as [[[s' k] a'] l'].
  exists (s', k, a', l'). split; [reflexivity|]. cbn [fst snd].
  assert (Hp : c_fee k = getFee demo_many /\ c_deduct k = getDeduct demo_many).
  { refine (command_price demo_many demo_sig [] _ _ _ _ _ _ _ _ _ demo_many_wf _ _ E); vm_compute; reflexivity. }
  destruct Hp as [Hf Hd].
  split_and!; [exact Hf|reflexivity|exact Hd|reflexivity].
Defined.
