(* ===== verification/Office.v ===== *)
(** The office of a node ([escd/office.cpp]): its copy of the accounts of the
    bank, the queue of transactions for the next message and its file, the
    lists of accounts to reuse, of deposits and withdrawals of the last block,
    the locks of users. *)

From stdpp Require Import base gmap list.
From Stdlib Require Import ZArith Lia.
From S2P Require Import Prelude Params HashTree Usertxs Accounts Servers Ledger Process Userlog Commands.

(** * State *)

Record gup_t := { gp_auser : Z; gp_node : Z; gp_user : Z; gp_time : Z; gp_delta : Z }.

Record office := {
  o_svid : Z;
  o_pkey : list Z;
  o_readonly : bool;
  o_run : bool;
  o_users : Z;
  o_file : bank;                     (* ofi/%04X.dat *)
  o_message : list Z;
  o_tnum : Z;
  o_sent : Z;
  o_msd : gmap Z (list Z);           (* ofi/msg_%08X.msd, by message number *)
  o_accounts : gmap (list Z) Z;      (* keys of accounts opened for other banks *)
  o_gup : list gup_t;                (* stacks: the top is the head *)
  o_rdep : list (Z * Z);
  o_deleted : list Z;
  o_lock : gset Z;
  o_logs : logs;                     (* log files of the accounts *)
  o_div : gmap Z (list Z);           (* ofi/%04X_%08X.div, by block *)
  o_div_ready : Z;
  o_block_ready : Z;
  o_mque : list (Z * Z);             (* messages (node, number) whose logs are to be read *)
  o_logtime : gmap Z Z               (* log/time.bin of a block *)
}.

(** What the office reads of the server: the number of its last message, the
    last block, the account files, the clock, the key file and
    [ed25519_publickey].  [x_junk] is the value of
    variables that are written to a log without having been set. *)
Record srv := {
  x_msid : Z; x_last : servers; x_usr : banks; x_time : Z; x_key_file : option (list Z); x_public : list Z -> list Z; x_junk : Z
}.

(** [find_key] of the office. *)
Definition x_find_key (x : srv) (pkey : list Z) : bool := find_key x.(x_public) x.(x_key_file) pkey.

(** The codes of [common/command/errorcodes.h] that the handlers use. *)
Inductive error :=
  | eWrongSignature | eTimeInFuture | eBankNotFound | eBankIncorrect | eReadOnlyMode | eBadMsgId
  | eAmountBelowZero | eFeeBelowZero | eLowBalance | eMessageSubmitFail | eUserBadTarget | eDuplicatedTarget
  | eAmountNotPositive | eCreateAccountFail | eCreateAccountBadTiming | eSetKeyRemoteBankFail
  | eMatchSecretKeyNotFound | eBadUser | eBroadcastMaxLength | eNodeBadTarget | eNoNodeStatusChangeAuth
  | eAuthorizationError | eAccountStatusOnRemoteNode | eStatusSubmitFail | eGetUserFail | eLockUserFailed.

(** A call returns, fails with an error (and what it has changed), waits for
    the queue to be sent, or ends the process. *)
Inductive outcome (A : Type) :=
  | Done (a : A)
  | Fail (e : error) (o : office)
  | Wait
  | Exit.
Arguments Done {A} a.
Arguments Fail {A} e o.
Arguments Wait {A}.
Arguments Exit {A}.

Definition obind {A B} (c : outcome A) (k : A -> outcome B) : outcome B :=
  match c with Done a => k a | Fail e o => Fail e o | Wait => Wait | Exit => Exit end.

Notation "'run' x '<-' c 'in' k" := (obind c (fun x => k))
  (at level 10, x pattern, c at level 100, k at level 200) : esc_scope.

(** [if(!b) throw e]. *)
Notation "'unless' b 'throw' e 'at' o 'in' k" := (if b then k else Fail e o)
  (at level 10, b at level 100, e at level 9, o at level 9, k at level 200) : esc_scope.

(** [assert(b)]. *)
Notation "'assert!' b 'in' k" := (if b then k else Exit)
  (at level 10, b at level 100, k at level 200) : esc_scope.

(** [inv_done] opens a hypothesis that a call of the office returned. *)
Ltac inv_done :=
  repeat match goal with
  | E : obind ?c _ = Done _ |- _ => let a := fresh "o" in let E1 := fresh "E" in destruct c as [a| | |] eqn:E1; cbn [obind] in E; try discriminate E
  | E : (if ?b then Done _ else _) = Done _ |- _ => let C := fresh "C" in destruct b eqn:C; try discriminate E
  | E : (if ?b then _ else Exit) = Done _ |- _ => let C := fresh "C" in destruct b eqn:C; [|discriminate E]
  | E : Done _ = Done _ |- _ => injection E as E; subst
  end.

(** * Accounts *)

Definition ofi_user (o : office) (user : Z) : user_t := Accounts.get_user o.(o_file) user.
Definition put_ofi (o : office) (user : Z) (u : user_t) : office := o <| o_file ::= <[user := u]> |>.

Definition get_user_global (x : srv) (cbank cuser : Z) : option user_t :=
  let u := Accounts.get_user (bank_of x.(x_usr) cbank) cuser in
  if u.(u_msid) =? 0 then None else Some u.

Definition get_user (x : srv) (o : office) (cbank cuser : Z) : option user_t :=
  if negb (cbank =? o.(o_svid)) then get_user_global x cbank cuser
  else if o.(o_svid) =? 0 then Some zero_user
  else if o.(o_users) <=? cuser then None
  else let u := ofi_user o cuser in if u.(u_msid) =? 0 then None else Some u.

Definition check_target (x : srv) (o : office) (peer uid : Z) : bool :=
  if peer =? o.(o_svid) then (uid <? o.(o_users)) || (o.(o_svid) =? 0)
  else check_user x.(x_last).(sv_nodes) peer uid.

(** The test of [add_user] on an account of the list; [OFFICE_USER_MIN_AGE] is a
    [long], so the difference is not wrapped. *)
Definition office_reusable (when : Z) (u : user_t) : bool :=
  (u.(u_weight) <=? TXS_DIV_FEE) && has_bits u.(u_stat) USER_STAT_DELETED && (u.(u_lpath) <? when - OFFICE_USER_MIN_AGE).

Section Users.
Context `{Sha256}.

Definition new_user (x : srv) (o : office) (abank : Z) (pk : list Z) (when nuser : Z) : user_t :=
  init_user (nth_node x.(x_last) 0).(n_msha) o.(o_svid) nuser (if abank =? o.(o_svid) then USER_MIN_MASS else 0) pk when.

(** The loop over [deleted_users]; entries that fail the test are dropped. *)
Fixpoint reuse_deleted (o : office) (when : Z) (l : list Z) : option Z * list Z :=
  match l with
  | [] => (None, [])
  | nuser :: l => if office_reusable when (ofi_user o nuser) then (Some nuser, l) else reuse_deleted o when l
  end.

(** [add_user]: the number of the account, 0 for none. *)
Definition add_user (x : srv) (o : office) (abank : Z) (pk : list Z) (when : Z) : outcome (office * Z) :=
  assert! negb (o.(o_svid) =? 0) in
  let '(found, rest) := reuse_deleted o when o.(o_deleted) in
  let o := o <| o_deleted := rest |> in
  match found with
  | Some nuser => Done (put_ofi o nuser (new_user x o abank pk when nuser), nuser)
  | None =>
      if MAX_USERS <=? o.(o_users) then Done (o, 0)
      else let nuser := o.(o_users) in
           let o := o <| o_users ::= fun n => u32 (n + 1) |> in
           Done (put_ofi o nuser (new_user x o abank pk when nuser), nuser)
  end.

(** [set_user]: the record of the account and the values shown to the client. *)
Definition set_user (o : office) (user : Z) (nu : user_t) (deduct : Z) : outcome (office * user_t) :=
  assert! (user <? o.(o_users)) in
  let ou := ofi_user o user in
  let ou := ou <| u_weight := i64 (ou.(u_weight) - deduct) |> <| u_msid := nu.(u_msid) |> <| u_time := nu.(u_time) |>
               <| u_node := nu.(u_node) |> <| u_user := nu.(u_user) |> <| u_lpath := nu.(u_lpath) |>
               <| u_hash := nu.(u_hash) |> <| u_pkey := nu.(u_pkey) |> in
  Done (put_ofi o user ou, nu <| u_weight := ou.(u_weight) |> <| u_stat := ou.(u_stat) |>).

Definition delete_user (o : office) (user : Z) : outcome office :=
  assert! (user <? o.(o_users)) in
  let u := ofi_user o user in
  Done ((put_ofi o user (u <| u_stat ::= fun st => Z.lor st USER_STAT_DELETED |>)) <| o_deleted ::= fun l => l ++ [user] |>).

Definition add_remote_deposit (o : office) (buser tmass : Z) : outcome office :=
  assert! negb (o.(o_svid) =? 0) in Done (o <| o_rdep ::= cons (buser, tmass) |>).

Definition add_deposit (o : office) (buser tmass : Z) : outcome office :=
  assert! negb (o.(o_svid) =? 0) in
  let u := ofi_user o buser in
  Done (put_ofi o buser (u <| u_weight ::= fun w => i64 (w + tmass) |>)).

(** Calls of the server that only set a field. *)
Definition gup_push (o : office) (g : gup_t) : office := o <| o_gup ::= cons g |>.
Definition change_pkey (o : office) (pk : list Z) : office := o <| o_pkey := pk |>.
Definition set_readonly (o : office) (b : bool) : office := o <| o_readonly := b |>.

(** [set_account_status] and [unset_account_status]: the DELETED bit stays. *)
Definition account_status (set : bool) (o : office) (buser status : Z) : option office :=
  let u := ofi_user o buser in
  if u.(u_msid) =? 0 then None
  else let bits := Z.land status 0xFFFE in
       Some (put_ofi o buser (u <| u_stat ::= fun st => if set then Z.lor st bits else clear_bits st bits |>)).

(** ** Accounts for other banks *)

Definition try_account (x : srv) (o : office) (key : list Z) : office * bool :=
  match o.(o_accounts) !! key with
  | Some _ => (o, false)
  | None =>
      if Z.of_nat (base.size o.(o_accounts)) <=? MAX_USER_QUEUE then (o, true)
      else
        let funded (p : list Z * Z) :=
          match get_user x o o.(o_svid) p.2 with Some u => 0 <? u.(u_weight) | None => false end in
        let o := o <| o_accounts ::= filter (fun p => funded p = false) |> in
        (o, Z.of_nat (base.size o.(o_accounts)) <=? MAX_USER_QUEUE)
  end.

Definition add_account (o : office) (key : list Z) (user : Z) : office := o <| o_accounts ::= <[key := user]> |>.

(** ** After a block *)

(** [process_gup]: withdrawals of the block, the last first. *)
Definition apply_gup (now : Z) (o : office) (g : gup_t) : office :=
  let u := ofi_user o g.(gp_auser) in
  put_ofi o g.(gp_auser) (u <| u_node := g.(gp_node) |> <| u_user := g.(gp_user) |> <| u_time := g.(gp_time) |>
                            <| u_rpath := now |> <| u_weight ::= fun w => i64 (w - g.(gp_delta)) |>).

Fixpoint gup_loop (now : Z) (o : office) (l : list gup_t) : outcome office :=
  match l with
  | [] => Done o
  | g :: l => assert! (g.(gp_auser) <? o.(o_users)) in gup_loop now (apply_gup now o g) l
  end.

Definition process_gup (now : Z) (o : office) : outcome office :=
  if o.(o_svid) =? 0 then Done o
  else run o <- gup_loop now o o.(o_gup) in Done (o <| o_gup := [] |>).

(** [process_dep]: deposits from other banks. *)
Definition apply_dep (now : Z) (o : office) (d : Z * Z) : office :=
  let u := ofi_user o d.1 in
  put_ofi o d.1 (u <| u_rpath := now |> <| u_weight ::= fun w => i64 (w + d.2) |>).

Fixpoint dep_loop (now : Z) (o : office) (l : list (Z * Z)) : outcome office :=
  match l with
  | [] => Done o
  | d :: l => assert! (d.1 <? o.(o_users)) in dep_loop now (apply_dep now o d) l
  end.

Definition process_dep (now : Z) (o : office) : outcome office :=
  if o.(o_svid) =? 0 then Done o
  else run o <- dep_loop now o o.(o_rdep) in Done (o <| o_rdep := [] |>).
End Users.

(** * The queue *)

(** [add_msg]: appends a transaction to the message and to its file; the
    numbers of the message and of the transaction in it. *)
Definition add_msg (x : srv) (o : office) (data : list Z) : outcome (office * Z * Z) :=
  assert! negb (o.(o_svid) =? 0) in
  unless o.(o_run) throw eMessageSubmitFail at o in
  if MESSAGE_TNUM_MAX <=? o.(o_tnum) then Wait else
  let msid := u32 (x.(x_msid) + 1) in
  let tnum := u32 (o.(o_tnum) + 1) in
  Done (o <| o_msd ::= fun f => <[msid := f !!! msid ++ data]> f |> <| o_tnum := tnum |>
          <| o_message ::= fun l => l ++ data |>, msid, tnum).

(** [get_msg]: an empty file counts as none. *)
Definition get_msg (o : office) (msid : Z) : option (list Z) :=
  match o.(o_msd) !! msid with Some (b :: l) => Some (b :: l) | _ => None end.
Definition del_msg (o : office) (msid : Z) : office := o <| o_msd ::= delete msid |>.

(** The transaction [TXSTYPE_CON] with the address of the node. *)
Definition con_bytes (port ipv4 : Z) (version : list Z) : list Z :=
  TXSTYPE_CON :: le_bytes 2 port ++ le_bytes 4 ipv4 ++ version.

(** The transaction [TXSTYPE_UOK] that accepts an account for another bank. *)
Definition uok_bytes (abank auser amsid ttime bbank buser : Z) (pk : list Z) : list Z :=
  info_bytes TXSTYPE_UOK {| ci_abank := abank; ci_auser := auser; ci_amsid := amsid; ci_ttime := ttime |} ++
  le_bytes 2 bbank ++ le_bytes 4 buser ++ pk.

(** [add_remote_user]; 0 when no account is opened.  A queue that can not take
    the transaction leaves the account opened. *)
Definition add_remote_user `{Sha256} (x : srv) (o : office) (bbank buser : Z) (pk : list Z) : outcome (office * Z) :=
  assert! negb (o.(o_svid) =? 0) in
  if o.(o_readonly) then Done (o, 0) else
  let '(o, free) := try_account x o pk in
  if negb free then Done (o, 0) else
  let ltime := u32 x.(x_time) in
  run (o, luser) <- add_user x o bbank pk ltime in
  if luser =? 0 then Done (o, 0) else
  match add_msg x o (uok_bytes o.(o_svid) luser 0 ltime bbank buser pk) with
  | Done (o, msid, _) => Done (if msid =? 0 then o else add_account o pk luser, luser)
  | Fail _ o => Done (o, luser)
  | Wait => Wait
  | Exit => Exit
  end.

(** * Locks of users and logs *)

Definition lock_user (o : office) (cuser : Z) : office * bool :=
  if o.(o_svid) =? 0 then (o, true)
  else if CLIENT_POOL * 2 <? Z.of_nat (base.size o.(o_lock)) then (o, false)
  else if bool_decide (cuser ∈ o.(o_lock)) then (o, false)
  else (o <| o_lock ::= union {[cuser]} |>, true).

Definition unlock_user (o : office) (cuser : Z) : office :=
  if o.(o_svid) =? 0 then o else o <| o_lock ::= fun l => l ∖ {[cuser]} |>.

Definition put_ulog (x : srv) (o : office) (user : Z) (log : log_t) : office :=
  o <| o_logs ::= put_log user (log <| lg_time := u32 x.(x_time) |>) |>.

Definition put_ulog_map (x : srv) (o : office) (log : gmap Z log_t) : office :=
  o <| o_logs ::= put_log_map x.(x_last).(sv_now) (u32 x.(x_time)) log |>.

(** * Sending the queue *)

(** The part of [server::write_message] before the message is built: the
    guards (server and network agree on the number of messages, at least 5
    seconds of the block are left, the owner of the bank can pay) and the
    transactions, with the address of the node added. *)
Definition write_message (net_msid owner_weight blk_now : Z) (con : list Z) (x : srv) (line : list Z) : option (list Z * Z) :=
  check net_msid =? x.(x_msid) in
  check negb (BLOCKSEC - 5 <? u32 (x.(x_time) - blk_now)) in
  check negb (owner_weight <? MESSAGE_FEE (Z.of_nat (length con) + Z.of_nat (length line))) in
  let line := if rdz line 0 1 =? TXSTYPE_CON then line else line ++ con in
  Some (line, u32 (x.(x_msid) + 1)).

(** The part of [office::clock] that sends the queue: [accept] is
    [server::accept_message], [write] is [write_message] of the server. *)
Definition clock_send (accept : bool) (write : list Z -> option (list Z * Z)) (now : Z) (o : office) :
    option (office * list Z * Z) :=
  match o.(o_message) with
  | [] => None
  | msg =>
      if (Z.of_nat (length msg) <? MESSAGE_LEN_OK) && (o.(o_tnum) <? MESSAGE_TNUM_OK) &&
         (now <? u32 (o.(o_sent) + MESSAGE_WAIT)) then None
      else
        check accept in
        let* (line, msid) := write msg in
        Some ((del_msg (o <| o_message := [] |> <| o_tnum := 0 |>) msid) <| o_sent := now |>, line, msid)
  end.

(** The part for an empty queue: the address is queued when it is not the one
    the network knows ([update]); it is not written to the file. *)
Definition clock_update (update : bool) (con : list Z) (o : office) : office :=
  match o.(o_message) with
  | [] => if update then o <| o_message := con |> <| o_tnum ::= fun n => u32 (n + 1) |> else o
  | _ => o
  end.

(** * Blocks *)

Section Blocks.
Context `{Sha256}.

(** The dividend of an account in the period that starts at [now]. *)
Definition div_value (now newdiv : Z) (u : user_t) : Z :=
  let div :=
    if u.(u_lpath) <? u32 (now - ACCOUNT_DORMANT_AGE) then - TXS_GOK_FEE u.(u_weight)
    else if u.(u_lpath) <? u32 (now - ACCOUNT_INACTIVE_AGE) then 0
    else i64 (Z.shiftr u.(u_weight) 16 * newdiv) in
  let div := i64 (div - TXS_DIV_FEE) in
  if div <? i64 (- u.(u_weight)) then i64 (- u.(u_weight)) else div.

(** The entry of [user] in the file of dividends.  An account that the ledger
    does not have yet is taken from the office's file. *)
Definition div_entry (now newdiv : Z) (usr ofi : bank) (user : Z) : option Z :=
  match usr !! user with
  | Some u => Some (div_value now newdiv u)
  | None =>
      let* u := ofi !! user in
      Some (if now <=? u.(u_rpath) then 0 else div_value now newdiv (u <| u_weight := USER_MIN_MASS |>))
  end.

Definition users_of (o : office) : list Z := map Z.of_nat (seq 0 (Z.to_nat o.(o_users))).

(** [update_div]; a record that can not be read ends the process. *)
Definition update_div (x : srv) (now newdiv : Z) (o : office) : outcome office :=
  if o.(o_svid) =? 0 then Done o
  else match mapM (div_entry now newdiv (bank_of x.(x_usr) o.(o_svid)) o.(o_file)) (users_of o) with
       | Some divs => Done (o <| o_div ::= <[now := divs]> |>)
       | None => Exit
       end.

(** [update_block]: the server has finished a block; [msgs] are its messages. *)
Definition update_block (x : srv) (period_start now newdiv : Z) (msgs : list (Z * Z)) (o : office) : outcome office :=
  let o := o <| o_mque ::= fun q => q ++ msgs |> in
  run o <- (if period_start =? now then
              assert! negb (now =? 0) in
              run o <- update_div x now newdiv o in Done (o <| o_div_ready := now |>)
            else Done o) in
  Done (o <| o_block_ready := now |>).

(** [process_div]: the dividends go to the balances, then to the logs; the
    accounts of the file only. *)
Fixpoint div_deposits (o : office) (l : list (Z * Z)) : outcome office :=
  match l with
  | [] => Done o
  | (user, div) :: l => run o <- add_deposit o user div in div_deposits o l
  end.

Definition div_log (x : srv) (path div : Z) : log_t :=
  {| lg_time := u32 x.(x_time); lg_type := Z.lor TXSTYPE_DIV 0x8000; lg_node := 0; lg_nmid := x.(x_msid); lg_mpos := path;
     lg_user := 0; lg_umid := 0; lg_weight := div; lg_info := replicate 32 0 |}.

Definition process_div (x : srv) (path : Z) (o : office) : outcome office :=
  if o.(o_svid) =? 0 then Done o
  else match o.(o_div) !! path with
       | None => Exit
       | Some divs =>
           let l := zip (users_of o) divs in
           run o <- div_deposits o l in
           Done (o <| o_logs ::= fun fs => foldl (fun fs (p : Z * Z) => put_log p.1 (div_log x path p.2) fs) fs l |>
                   <| o_div ::= delete path |>)
       end.

(** [process_log]: the logs of the messages of a block; when the block was
    processed before, every account gets a note. *)
Definition again_log (ntime now otime : Z) : log_t :=
  {| lg_time := ntime; lg_type := Z.lor TXSTYPE_NON 0x4000; lg_node := 0; lg_nmid := otime; lg_mpos := now;
     lg_user := 0; lg_umid := 0; lg_weight := 0; lg_info := replicate 32 0 |}.

Definition process_log (x : srv) (msglog : gmap (Z * Z * Z) (list (Z * log_t))) (now : Z) (o : office) : office :=
  if o.(o_svid) =? 0 then o
  else
    let mque := o.(o_mque) ++ [(0, 0)] in
    let ntime := u32 x.(x_time) in
    let fs := match o.(o_logtime) !! now with
              | Some otime => foldl (fun fs user => put_log user (again_log ntime now otime) fs) o.(o_logs) (users_of o)
              | None => o.(o_logs)
              end in
    o <| o_logtime ::= <[now := ntime]> |>
      <| o_logs := log_files x.(x_last).(sv_now) ntime now msglog mque 0 ∅ fs |> <| o_mque := [] |>.

(** The part of [clock] after a block; [srvs_now] is the block of the server
    when it is done. *)
Definition clock_block (x : srv) (msglog : gmap (Z * Z * Z) (list (Z * log_t))) (srvs_now : Z) (o : office) : outcome office :=
  let ready := o.(o_block_ready) in
  if ready =? 0 then Done o
  else
    run o <- (if o.(o_div_ready) =? 0 then Done o else process_div x o.(o_div_ready) o) in
    let path := u32 (ready - BLOCKSEC) in
    let o := process_log x msglog path o in
    run o <- process_gup path o in
    run o <- process_dep path o in
    assert! (ready =? srvs_now) in
    Done (o <| o_block_ready := 0 |> <| o_div_ready := 0 |>).

(** [init]: the copy of the account file with the dividends that are due, the
    list of deleted accounts, an entry in every log. *)
Definition init_log (x : srv) (start_msid start_path : Z) (u : user_t) (div : Z) : log_t :=
  {| lg_time := u32 x.(x_time); lg_type := Z.lor TXSTYPE_NON 0x8000; lg_node := u.(u_node); lg_nmid := start_msid;
     lg_mpos := start_path; lg_user := u.(u_user); lg_umid := u.(u_msid); lg_weight := div;
     lg_info := le_bytes 8 u.(u_weight) ++ take 8 u.(u_hash) ++ le_bytes 4 u.(u_lpath) ++ le_bytes 4 u.(u_rpath) ++
                take 6 u.(u_pkey) ++ le_bytes 2 u.(u_stat) |}.

Definition init_user_step (x : srv) (s : server) (start_msid start_path : Z) (o : office) (p : Z * user_t) : office :=
  let '(user, u) := p in
  let '(u', _, div) := dividend s u 0 in
  let div := if div =? NODIV then 0 else div in
  let o := if has_bits u.(u_stat) USER_STAT_DELETED then o <| o_deleted ::= fun l => l ++ [user] |> else o in
  (put_ofi o user u') <| o_logs ::= put_log user (init_log x start_msid start_path u div) |>.

Definition init (x : srv) (s : server) (start_msid start_path myusers : Z) (o : office) : outcome office :=
  let o := o <| o_pkey := s.(pkey_) |> <| o_users := myusers |> in
  if myusers =? 0 then assert! (o.(o_svid) =? 0) in Done o
  else match mapM (fun user => let* u := bank_of s.(usr_) o.(o_svid) !! user in Some (user, u)) (users_of o) with
       | Some us => Done (foldl (init_user_step x s start_msid start_path) o us)
       | None => Exit
       end.
End Blocks.
