(* ===== verification/Handlers.v ===== *)
(** The handlers of modifying commands ([escd/commandhandler/*.cpp]): the
    tests of the office before a command is queued, the change of the sender's
    account, the logs; and the frame around them in [escd/client.hpp]. *)

From stdpp Require Import base gmap list.
From Stdlib Require Import ZArith Lia.
From S2P Require Import Prelude Params HashTree Usertxs Accounts Servers Ledger Process Commands Office.

(** Assignment to an [int32_t]. *)
Definition i32 (x : Z) : Z := (x + 2 ^ 31) mod 2 ^ 32 - 2 ^ 31.

(** The balance that has to stay on an account. *)
Definition min_mass (user : Z) : Z := if user =? 0 then BANK_MIN_UMASS else USER_MIN_MASS.

Section Handlers.
Context `{Sha256}.
Variable sign_open : list Z -> list Z -> list Z -> list Z -> bool.

(** * Validation *)

(** [performCommonValidation]: the signature, over the hash of the account and
    the signed part of the command, the time and the bank. *)
Definition performCommonValidation (x : srv) (o : office) (usera : user_t) (c : command) (sign : list Z) : option error :=
  if negb (sign_open usera.(u_hash) (sign_data c) usera.(u_pkey) sign) then Some eWrongSignature
  else if 3 <? i32 (getTime c - x.(x_time)) then Some eTimeInFuture
  else if negb (getBankId c =? o.(o_svid)) then Some eBankNotFound
  else None.

(** The balance a command may use: the dormant fee of the next block is kept
    back. *)
Definition dormant_soon (x : srv) (usera : user_t) : bool :=
  let next_now := u32 (x.(x_last).(sv_now) + 2 * BLOCKSEC) in
  ((next_now / BLOCKSEC) mod BLOCKDIV =? 0) && (usera.(u_lpath) <? next_now - ACCOUNT_DORMANT_AGE).

Definition available_balance (x : srv) (usera : user_t) (user : Z) : Z :=
  let b := i64 (usera.(u_weight) - min_mass user) in
  if dormant_soon x usera then i64 (b - TXS_GOK_FEE usera.(u_weight)) else b.

Definition validateModifyingCommand (x : srv) (o : office) (usera : user_t) (c : command) : option error :=
  if o.(o_svid) =? 0 then Some eBankIncorrect
  else if o.(o_readonly) then Some eReadOnlyMode
  else if negb (usera.(u_msid) =? getUserMessageId c) then Some eBadMsgId
  else if getDeduct c <? 0 then Some eAmountBelowZero
  else if getFee c <? 0 then Some eFeeBelowZero
  else if available_balance x usera (getUserId c) <? i64 (getDeduct c + getFee c) then Some eLowBalance
  else None.

(** [SendMany::checkForDuplicates]. *)
Fixpoint checkForDuplicates (seen : gset (Z * Z)) (txns : list (Z * Z * Z)) : option error :=
  match txns with
  | [] => None
  | (node, user, amount) :: txns =>
      if bool_decide ((node, user) ∈ seen) then Some eDuplicatedTarget
      else if amount <=? 0 then Some eAmountNotPositive
      else checkForDuplicates ({[(node, user)]} ∪ seen) txns
  end.

(** The status handlers share their tests. *)
Definition node_status_ok (x : srv) (o : office) (auser bbank status : Z) : option error :=
  if negb (check_target x o bbank 0) then Some eNodeBadTarget
  else if negb (auser =? 0) then Some eNoNodeStatusChangeAuth
  else if negb (Z.land status 0x7 =? 0) then Some eAuthorizationError
  else None.

Definition account_status_ok (x : srv) (o : office) (auser bbank buser status : Z) : option error :=
  if negb (check_target x o bbank buser) then Some eUserBadTarget
  else if negb (bbank =? o.(o_svid)) then Some eAccountStatusOnRemoteNode
  else if negb (Z.land status 0x1 =? 0) then Some eAuthorizationError
  else if negb (auser =? 0) && negb (auser =? buser) && negb (Z.land status 0xFFF0 =? 0) then Some eAuthorizationError
  else None.

(** [onValidate] of each handler. *)
Definition BroadcastMsg_onValidate (msg : list Z) : option error :=
  if MAX_BROADCAST_LENGTH <? Z.of_nat (length msg) then Some eBroadcastMaxLength else None.

Definition SendOne_onValidate (x : srv) (o : office) (bb bu : Z) : option error :=
  if check_target x o bb bu then None else Some eUserBadTarget.

Definition CreateAccount_onValidate (x : srv) (o : office) (dst : Z) : option error :=
  if negb (dst =? o.(o_svid)) && (BLOCKSEC ÷ 2 <? u32 x.(x_time) mod BLOCKSEC) then Some eCreateAccountBadTiming else None.

Definition RetrieveFunds_onValidate (x : srv) (o : office) (abank bb bu : Z) : option error :=
  if abank =? bb then Some eBankIncorrect
  else if check_target x o bb bu then None else Some eUserBadTarget.

Definition ChangeNodeKey_onValidate (x : srv) (auser dst : Z) (pk : list Z) : option error :=
  if (dst =? 0) && negb (x_find_key x pk) then Some eMatchSecretKeyNotFound
  else if negb (auser =? 0) then Some eBadUser else None.

Definition onValidate (x : srv) (o : office) (c : command) : option error :=
  match c with
  | BroadcastMsg _ msg => BroadcastMsg_onValidate msg
  | SendOne _ bb bu _ _ => SendOne_onValidate x o bb bu
  | SendMany _ txns => checkForDuplicates ∅ txns
  | CreateAccount _ dst _ _ => CreateAccount_onValidate x o dst
  | CreateNode _ | SetAccountKey _ _ | LogAccount _ _ => None
  | RetrieveFunds i bb bu => RetrieveFunds_onValidate x o i.(ci_abank) bb bu
  | ChangeNodeKey i dst pk _ => ChangeNodeKey_onValidate x i.(ci_auser) dst pk
  | SetAccountStatus i bb bu st | UnsetAccountStatus i bb bu st => account_status_ok x o i.(ci_auser) bb bu st
  | SetNodeStatus i bb st | UnsetNodeStatus i bb st => node_status_ok x o i.(ci_auser) bb st
  end.

(** * Execution *)

(** The sender's record after a command ([commitChanges] and the copies of it
    in the other handlers). *)
Definition advance (x : srv) (usera : user_t) (c : command) (sign : list Z) : user_t :=
  let lpath := u32 (x.(x_time) - x.(x_time) mod BLOCKSEC) in
  let u := usera <| u_msid ::= fun n => u32 (n + 1) |> <| u_time := getTime c |> <| u_lpath := lpath |>
                 <| u_hash ::= fun h => SHA256 (h ++ SHA256 sign) |> in
  match c with
  | SetAccountKey _ pk => u <| u_pkey := pk |>
  | _ => u <| u_node := 0 |> <| u_user := 0 |>
  end.

(** What is sent back to the client. *)
Record response := { r_usera : user_t; r_msid : Z; r_mpos : Z; r_new_user : Z }.

Definition charge (c : command) : Z := i64 (getDeduct c + getFee c).

(** [commitChanges]. *)
Definition commitChanges (x : srv) (o : office) (usera : user_t) (c : command) (sign : list Z) : outcome (office * response) :=
  let usera := advance x usera c sign in
  run (o, msid, mpos) <- add_msg x o (getBlockMessage c sign) in
  run (o, usera) <- set_user o (getUserId c) usera (charge c) in
  Done (o, {| r_usera := usera; r_msid := msid; r_mpos := mpos; r_new_user := 0 |}).

(** The [tInfo] of a log entry; [w] is the balance, or the new status. *)
Definition tinfo_bytes (c : command) (usera : user_t) (w : Z) : list Z :=
  le_bytes 8 w ++ le_bytes 8 (getDeduct c) ++ le_bytes 8 (getFee c) ++ le_bytes 2 usera.(u_stat) ++ take 6 usera.(u_pkey).

Definition cmd_log (x : srv) (c : command) (r : response) (node user weight : Z) (info : list Z) : log_t :=
  {| lg_time := x.(x_time); lg_type := getType c; lg_node := node; lg_nmid := r.(r_msid); lg_mpos := r.(r_mpos);
     lg_user := user; lg_umid := getUserMessageId c; lg_weight := weight; lg_info := info |}.

(** The same entry in the log of the target. *)
Definition incoming_log (c : command) (weight : Z) (l : log_t) : log_t :=
  l <| lg_type ::= fun t => Z.lor t 0x8000 |> <| lg_node := getBankId c |> <| lg_user := getUserId c |> <| lg_weight := weight |>.

Definition log_cmd (x : srv) (o : office) (c : command) (r : response) (node user weight : Z) : office :=
  put_ulog x o (getUserId c) (cmd_log x c r node user weight (tinfo_bytes c r.(r_usera) r.(r_usera).(u_weight))).

(** The logs of [SendMany]: one entry per target, the first is marked in the
    last byte of [info]; targets in this bank get an entry and the amount. *)
Definition mark_info (info : list Z) (i : nat) : list Z := <[31%nat := if (i =? 0)%nat then 1 else 0]> info.

Definition many_out (x : srv) (c : command) (r : response) (m : gmap Z log_t) (it : nat * (Z * Z * Z)) : gmap Z log_t :=
  let '(i, (node, user, amount)) := it in
  let info := mark_info (tinfo_bytes c r.(r_usera) r.(r_usera).(u_weight)) i in
  <[2 ^ 32 * getUserId c + Z.of_nat i := cmd_log x c r node user (i64 (- amount)) info]> m.

Definition many_in (x : srv) (c : command) (r : response) (o : office) (it : nat * (Z * Z * Z)) : outcome office :=
  let '(i, (node, user, amount)) := it in
  if node =? o.(o_svid) then
    let info := mark_info (tinfo_bytes c r.(r_usera) r.(r_usera).(u_weight)) i in
    let o := put_ulog x o user (incoming_log c amount (cmd_log x c r node user 0 info)) in
    if amount <? 0 then Done o else add_deposit o user amount
  else Done o.

Fixpoint many_in_loop (x : srv) (c : command) (r : response) (o : office) (l : list (nat * (Z * Z * Z))) : outcome office :=
  match l with
  | [] => Done o
  | it :: l => run o <- many_in x c r o it in many_in_loop x c r o l
  end.

(** The targets of [SendMany] in [onExecute]. *)
Fixpoint check_targets (x : srv) (o : office) (txns : list (Z * Z * Z)) : option error :=
  match txns with
  | [] => None
  | (node, user, amount) :: txns =>
      if negb (check_target x o node user) then Some eUserBadTarget
      else if amount <=? 0 then Some eAmountNotPositive
      else check_targets x o txns
  end.

(** [SetAccountStatusHandler] and [UnsetAccountStatusHandler]: the status is
    changed between queueing the transaction and the change of the sender. *)
Definition status_execute (set : bool) (x : srv) (o : office) (usera : user_t) (c : command) (sign : list Z)
    (bb bu status : Z) : outcome (office * response) :=
  let usera := advance x usera c sign in
  run (o, msid, mpos) <- add_msg x o (getBlockMessage c sign) in
  match account_status set o bu status with
  | None => Fail eStatusSubmitFail o
  | Some o =>
      run (o, usera) <- set_user o (getUserId c) usera (charge c) in
      let r := {| r_usera := usera; r_msid := msid; r_mpos := mpos; r_new_user := 0 |} in
      let log := cmd_log x c r bb bu 0 (tinfo_bytes c usera status) in
      let o := put_ulog x o (getUserId c) log in
      Done (if getBankId c =? bb then put_ulog x o bu (incoming_log c 0 log) else o, r)
  end.

(** [onExecute] of each handler; [c] is the command. *)
Definition BroadcastMsg_onExecute (x : srv) (o : office) (usera : user_t) (c : command) (sign : list Z) : outcome (office * response) :=
  run (o, r) <- commitChanges x o usera c sign in
  Done (log_cmd x o c r (getBankId c) (getUserId c) (- getDeduct c), r).

Definition LogAccount_onExecute (x : srv) (o : office) (usera : user_t) (c : command) (sign : list Z) : outcome (office * response) :=
  run (o, r) <- commitChanges x o usera c sign in
  Done (log_cmd x o c r (getBankId c) (getUserId c) (- getDeduct c), r).

Definition SendOne_onExecute (x : srv) (o : office) (usera : user_t) (c : command) (sign : list Z)
    (bb bu mass : Z) (info : list Z) : outcome (office * response) :=
  run (o, r) <- commitChanges x o usera c sign in
  let log := cmd_log x c r bb bu (i64 (- mass)) info in
  let o := put_ulog x o (getUserId c) log in
  if getBankId c =? bb then
    let o := put_ulog x o bu (incoming_log c mass log) in
    run o <- (if mass <? 0 then Done o else add_deposit o bu mass) in Done (o, r)
  else Done (o, r).

Definition SendMany_onExecute (x : srv) (o : office) (usera : user_t) (c : command) (sign : list Z)
    (txns : list (Z * Z * Z)) : outcome (office * response) :=
  match check_targets x o txns with
  | Some e => Fail e o
  | None =>
      run (o, r) <- commitChanges x o usera c sign in
      let its := zip (seq 0 (length txns)) txns in
      let o := put_ulog_map x o (foldl (many_out x c r) ∅ its) in
      run o <- many_in_loop x c r o its in Done (o, r)
  end.

(** A local account is opened first and its number written to the command. *)
Definition CreateAccount_onExecute (x : srv) (o : office) (usera : user_t) (c : command) (sign : list Z)
    (i : cmd_info) (dst : Z) (pk : list Z) : outcome (office * response) :=
  run (o, newUser) <- (if dst =? o.(o_svid) then add_user x o i.(ci_abank) pk i.(ci_ttime) else Done (o, 0)) in
  if (dst =? o.(o_svid)) && (newUser =? 0) then Fail eCreateAccountFail o else
  let c := if dst =? o.(o_svid) then CreateAccount i dst newUser pk else c in
  run (o, r) <- commitChanges x o usera c sign in
  let r := r <| r_new_user := newUser |> in
  let log := cmd_log x c r dst newUser (- getDeduct c) (tinfo_bytes c r.(r_usera) r.(r_usera).(u_weight)) in
  let o := put_ulog x o (getUserId c) log in
  Done (if i.(ci_abank) =? dst then put_ulog x o newUser (incoming_log c (getDeduct c) log) else o, r).

Definition CreateNode_onExecute (x : srv) (o : office) (usera : user_t) (c : command) (sign : list Z) : outcome (office * response) :=
  run (o, r) <- commitChanges x o usera c sign in
  Done (log_cmd x o c r 0 (getUserId c) (- getDeduct c), r).

Definition RetrieveFunds_onExecute (x : srv) (o : office) (usera : user_t) (c : command) (sign : list Z)
    (bb bu : Z) : outcome (office * response) :=
  run (o, r) <- commitChanges x o usera c sign in
  Done (log_cmd x o c r bb bu (- getDeduct c), r).

Definition SetAccountKey_onExecute (x : srv) (o : office) (usera : user_t) (c : command) (sign : list Z) : outcome (office * response) :=
  run (o, r) <- commitChanges x o usera c sign in
  Done (log_cmd x o c r 0 (getUserId c) (- getDeduct c - getFee c), r).

(** The old key is written to the command; the node's own key is replaced
    before the command is queued.  The account in the log entry is not set. *)
Definition ChangeNodeKey_onExecute (x : srv) (o : office) (usera : user_t) (c : command) (sign : list Z)
    (i : cmd_info) (dst : Z) (pk : list Z) : outcome (office * response) :=
  run (o, old) <- (if dst =? 0 then Done (o <| o_pkey := pk |>, o.(o_pkey))
                   else if dst <? n_nodes x.(x_last) then Done (o, (nth_node x.(x_last) dst).(n_pk))
                   else Fail eSetKeyRemoteBankFail o) in
  let c := ChangeNodeKey i dst pk old in
  run (o, r) <- commitChanges x o usera c sign in
  Done (log_cmd x o c r 0 x.(x_junk) (- getDeduct c), r).

Definition SetAccountStatus_onExecute (x : srv) (o : office) (usera : user_t) (c : command) (sign : list Z)
    (bb bu status : Z) : outcome (office * response) := status_execute true x o usera c sign bb bu status.

Definition UnsetAccountStatus_onExecute (x : srv) (o : office) (usera : user_t) (c : command) (sign : list Z)
    (bb bu status : Z) : outcome (office * response) := status_execute false x o usera c sign bb bu status.

Definition SetNodeStatus_onExecute (x : srv) (o : office) (usera : user_t) (c : command) (sign : list Z)
    (bb status : Z) : outcome (office * response) :=
  run (o, r) <- commitChanges x o usera c sign in
  Done (put_ulog x o (getUserId c) (cmd_log x c r bb 0 0 (tinfo_bytes c r.(r_usera) status)), r).

Definition UnsetNodeStatus_onExecute (x : srv) (o : office) (usera : user_t) (c : command) (sign : list Z)
    (bb status : Z) : outcome (office * response) :=
  run (o, r) <- commitChanges x o usera c sign in
  Done (put_ulog x o (getUserId c) (cmd_log x c r bb 0 0 (tinfo_bytes c r.(r_usera) status)), r).

Definition onExecute (x : srv) (o : office) (usera : user_t) (c : command) (sign : list Z) : outcome (office * response) :=
  match c with
  | BroadcastMsg _ _ => BroadcastMsg_onExecute x o usera c sign
  | SendOne _ bb bu mass info => SendOne_onExecute x o usera c sign bb bu mass info
  | SendMany _ txns => SendMany_onExecute x o usera c sign txns
  | CreateAccount i dst _ pk => CreateAccount_onExecute x o usera c sign i dst pk
  | CreateNode _ => CreateNode_onExecute x o usera c sign
  | RetrieveFunds _ bb bu => RetrieveFunds_onExecute x o usera c sign bb bu
  | SetAccountKey _ _ => SetAccountKey_onExecute x o usera c sign
  | ChangeNodeKey i dst pk _ => ChangeNodeKey_onExecute x o usera c sign i dst pk
  | SetAccountStatus _ bb bu st => SetAccountStatus_onExecute x o usera c sign bb bu st
  | SetNodeStatus _ bb st => SetNodeStatus_onExecute x o usera c sign bb st
  | UnsetAccountStatus _ bb bu st => UnsetAccountStatus_onExecute x o usera c sign bb bu st
  | UnsetNodeStatus _ bb st => UnsetNodeStatus_onExecute x o usera c sign bb st
  | LogAccount _ _ => LogAccount_onExecute x o usera c sign
  end.

(** [CommandHandler::execute]. *)
Definition execute (x : srv) (o : office) (usera : user_t) (c : command) (sign : list Z) : outcome (office * response) :=
  match performCommonValidation x o usera c sign with
  | Some e => Fail e o
  | None =>
      match validateModifyingCommand x o usera c with
      | Some e => Fail e o
      | None => match onValidate x o c with Some e => Fail e o | None => onExecute x o usera c sign end
      end
  end.

(** [CommandService::onExecute] inside the lock of the user
    ([client::handle_read_txs_complete]). *)
Definition client_command (x : srv) (o : office) (c : command) (sign : list Z) : outcome (office * response) :=
  let '(o, ok) := lock_user o (getUserId c) in
  if negb ok then Fail eLockUserFailed o else
  match get_user x o (getBankId c) (getUserId c) with
  | None => Fail eGetUserFail (unlock_user o (getUserId c))
  | Some usera =>
      match execute x o usera c sign with
      | Done (o, r) => Done (unlock_user o (getUserId c), r)
      | Fail e o => Fail e (unlock_user o (getUserId c))
      | Wait => Wait
      | Exit => Exit
      end
  end.
End Handlers.
