(* ===== verification/OfficeProps.v ===== *)
(** What the office promises: its queue is a message of whole transactions
    that survives a restart, the balances it keeps, and its agreement with the
    ledger. *)

From stdpp Require Import base gmap list relations.
From Stdlib Require Import ZArith Lia.
From S2P Require Import Prelude Params HashTree Usertxs Accounts Servers Ledger Process Demo Commands Office Handlers.

(** * Transactions in the queue *)

(** A whole transaction: whatever follows it, [parse] accepts it and gives its
    length. *)
Definition is_txs (t : list Z) : Prop :=
  (0 < length t)%nat /\ forall rest, exists u, parse (t ++ rest) = Some u /\ u.(size) = Z.of_nat (length t).

Lemma command_is_txs c sign : cmd_wf c -> length sign = 64%nat -> is_txs (getBlockMessage c sign).
Proof.
  intros Hw Hs. split.
  - rewrite block_message_tail, length_app, length_info_bytes. lia.
  - intros rest. exists (cmd_txs c sign). split; [now apply parse_block_message|]. now destruct c.
Qed.

Lemma con_is_txs port ipv4 version : length version = 16%nat -> is_txs (con_bytes port ipv4 version).
Proof.
  intros Hv. assert (Hl : length (con_bytes port ipv4 version) = 23%nat)
    by (unfold con_bytes; cbn [length]; rewrite !length_app, !length_le_bytes; lia).
  split; [lia|]. intros rest. rewrite Hl. unfold parse, con_bytes, txs_type. cbn [app]. rewrite rdz_type. cbn.
  eexists. split; reflexivity.
Qed.

Lemma uok_is_txs abank auser amsid ttime bbank buser pk :
  length pk = 32%nat -> is_txs (uok_bytes abank auser amsid ttime bbank buser pk).
Proof.
  intros Hp. assert (Hl : length (uok_bytes abank auser amsid ttime bbank buser pk) = 53%nat)
    by (unfold uok_bytes; rewrite !length_app, length_info_bytes, !length_le_bytes; lia).
  split; [lia|]. intros rest. rewrite Hl. unfold parse, uok_bytes, info_bytes, txs_type. cbn [app]. rewrite rdz_type. cbn.
  eexists. split; reflexivity.
Qed.

(** A queue of transactions is cut at their ends. *)
Lemma cut_queue ts rest fuel :
  Forall is_txs ts -> (length ts <= fuel)%nat ->
  exists l, cut fuel (concat ts ++ rest) (Z.of_nat (length (concat ts))) = Some l /\ length l = length ts.
Proof.
  intros Hts. revert fuel. induction Hts as [|t ts [Hp Ht] _ IH]; intros fuel Hf.
  - exists []. now destruct fuel.
  - destruct fuel as [|fuel]; [cbn in Hf; lia|]. cbn [concat cut]. rewrite <- (assoc_L (++)), length_app.
    rewrite (proj2 (Z.leb_gt _ 0)) by lia. destruct (Ht (concat ts ++ rest)) as (u & -> & Hs).
    rewrite Hs, Nat2Z.id, drop_app_length.
    replace (Z.of_nat (length t + length (concat ts)) - Z.of_nat (length t)) with (Z.of_nat (length (concat ts))) by lia.
    destruct (IH fuel) as (l & -> & Hl); [cbn in Hf; lia|]. eexists. split; [reflexivity|]. cbn. now rewrite Hl.
Qed.

Lemma length_queue ts : Forall is_txs ts -> (length ts <= length (concat ts))%nat.
Proof. induction 1 as [|t ts [Hp _] _ IH]; [reflexivity|]. cbn. rewrite length_app. lia. Qed.

(** * What a call does to the queue *)

(** Account numbers and the key in the range of their types. *)
Definition is_uid (u : Z) : Prop := 0 <= u < 2 ^ 32.
Definition good (o : office) : Prop := is_uid o.(o_users) /\ Forall is_uid o.(o_deleted) /\ is_key o.(o_pkey).

Definition same_queue (o o' : office) : Prop :=
  o'.(o_message) = o.(o_message) /\ o'.(o_tnum) = o.(o_tnum) /\ o'.(o_msd) = o.(o_msd) /\ (good o -> good o').

#[export] Instance same_queue_refl : Reflexive same_queue.
Proof. intros o. split_and!; auto. Qed.
#[export] Instance same_queue_trans : Transitive same_queue.
Proof. intros o1 o2 o3 (? & ? & ? & ?) (? & ? & ? & ?). split_and!; try congruence. auto. Qed.

(** The transaction [t] was added. *)
Definition queued (x : srv) (o o' : office) (t : list Z) : Prop :=
  let msid := u32 (x.(x_msid) + 1) in
  o.(o_tnum) < MESSAGE_TNUM_MAX /\
  o'.(o_message) = o.(o_message) ++ t /\ o'.(o_tnum) = u32 (o.(o_tnum) + 1) /\
  o'.(o_msd) = <[msid := o.(o_msd) !!! msid ++ t]> o.(o_msd) /\ (good o -> good o').

(** At most one whole transaction was added. *)
Definition queue_step (x : srv) (o o' : office) : Prop :=
  same_queue o o' \/ exists t, is_txs t /\ queued x o o' t.

Lemma same_queued x o1 o2 o3 t : same_queue o1 o2 -> queued x o2 o3 t -> queued x o1 o3 t.
Proof. intros (E1 & E2 & E3 & G) (? & ? & ? & ? & ?). rewrite E1, E2, E3 in *. split_and!; auto. Qed.

Lemma queued_same x o1 o2 o3 t : queued x o1 o2 t -> same_queue o2 o3 -> queued x o1 o3 t.
Proof. intros (? & ? & ? & ? & ?) (E1 & E2 & E3 & G). split_and!; try congruence. auto. Qed.

Lemma queue_step_l x o1 o2 o3 : same_queue o1 o2 -> queue_step x o2 o3 -> queue_step x o1 o3.
Proof. intros S [S2|(t & Ht & Q)]; [left; now transitivity o2|]. right. exists t. split; [exact Ht|]. eapply same_queued; eassumption. Qed.

Lemma queue_step_r x o1 o2 o3 : queue_step x o1 o2 -> same_queue o2 o3 -> queue_step x o1 o3.
Proof. intros [S|(t & Ht & Q)] S2; [left; now transitivity o2|]. right. exists t. split; [exact Ht|]. eapply queued_same; eassumption. Qed.

(** The state an outcome leaves, when the process goes on. *)
Definition left_by {A} (f : A -> office) (c : outcome A) (o' : office) : Prop :=
  match c with Done a => f a = o' | Fail _ o => o = o' | Wait | Exit => False end.

Lemma left_by_bind {A B} (f : B -> office) (c : outcome A) (k : A -> outcome B) o' :
  left_by f (obind c k) o' ->
  (exists a, c = Done a /\ left_by f (k a) o') \/ (exists e, c = Fail e o').
Proof. destruct c; cbn; try contradiction; [left; eauto|intros ->; right; eauto]. Qed.

Lemma same_put_ulog x o u l : same_queue o (put_ulog x o u l).
Proof. split_and!; auto. Qed.
Lemma same_put_ofi o k u : same_queue o (put_ofi o k u).
Proof. split_and!; auto. Qed.
#[export] Hint Resolve same_queue_refl same_put_ulog same_put_ofi : esc.

Lemma add_msg_queued x o data r : add_msg x o data = Done r -> queued x o r.1.1 data.
Proof.
  unfold add_msg. destruct (negb _); [|discriminate]. destruct (o_run o); [|discriminate].
  destruct (Z.leb_spec MESSAGE_TNUM_MAX (o_tnum o)); [discriminate|]. intros E. injection E as <-.
  split; [assumption|]. split_and!; auto.
Qed.

Lemma add_msg_fail x o data e o' : add_msg x o data = Fail e o' -> o' = o.
Proof.
  unfold add_msg. destruct (negb _); [|discriminate]. destruct (o_run o); [destruct (_ <=? _); discriminate|]. now intros [= _ <-].
Qed.

Lemma set_user_same o user nu d r : set_user o user nu d = Done r -> same_queue o r.1.
Proof. unfold set_user. destruct (_ <? _); [|discriminate]. intros E. injection E as <-. apply same_put_ofi. Qed.

Lemma set_user_fail o user nu d e o' : set_user o user nu d <> Fail e o'.
Proof. unfold set_user. now destruct (_ <? _). Qed.

Lemma add_deposit_same o user d o' : add_deposit o user d = Done o' -> same_queue o o'.
Proof. unfold add_deposit. destruct (negb _); [|discriminate]. intros E. injection E as <-. apply same_put_ofi. Qed.

Lemma account_status_same set o user st o' : account_status set o user st = Some o' -> same_queue o o'.
Proof. unfold account_status. destruct (_ =? 0); [discriminate|]. intros E. injection E as <-. apply same_put_ofi. Qed.

Lemma lock_user_same o u : same_queue o (lock_user o u).1.
Proof. unfold lock_user. destruct (_ =? 0); [reflexivity|]. destruct (_ <? _); [reflexivity|]. case_bool_decide; [reflexivity|]. split_and!; auto. Qed.

Lemma unlock_user_same o u : same_queue o (unlock_user o u).
Proof. unfold unlock_user. destruct (_ =? 0); [reflexivity|]. split_and!; auto. Qed.

Section Queue.
Context `{Sha256}.

Lemma reuse_deleted_uid o when l n l' :
  reuse_deleted o when l = (n, l') -> Forall is_uid l -> Forall is_uid l' /\ forall k, n = Some k -> is_uid k.
Proof.
  intros E Hl. revert E. induction Hl as [|u l Hu Hl IH]; cbn [reuse_deleted]; intros E.
  - injection E as <- <-. split; [constructor|discriminate].
  - destruct (office_reusable _ _); [|exact (IH E)]. injection E as <- <-. split; [exact Hl|]. now intros k [= <-].
Qed.

Lemma add_user_same x o ab pk when r :
  add_user x o ab pk when = Done r -> same_queue o r.1 /\ o_svid r.1 = o_svid o /\ (good o -> is_uid r.2).
Proof.
  unfold add_user. destruct (negb _); [|discriminate].
  destruct (reuse_deleted o when (o_deleted o)) as [n l'] eqn:Er. intros E.
  assert (Hd : good o -> Forall is_uid l' /\ forall k, n = Some k -> is_uid k)
    by (intros (_ & Hd & _); eapply reuse_deleted_uid; eassumption).
  assert (Hg : forall u, is_uid u -> good o -> is_uid u /\ Forall is_uid l' /\ is_key (o_pkey o)).
  { intros u Hu G. split; [exact Hu|]. split; [now apply Hd|apply G]. }
  destruct n as [n|].
  - injection E as <-. split_and!; try reflexivity; [|intros G; now apply Hd]. split_and!; try reflexivity. intros G. apply Hg; [apply G|exact G].
  - change (o_users (o <| o_deleted := l' |>)) with (o_users o) in E.
    destruct (Z.leb_spec MAX_USERS (o_users o)); injection E as <-.
    + split_and!; try reflexivity; [|intros _; unfold is_uid; cbn; lia]. split_and!; try reflexivity. intros G. apply Hg; [apply G|exact G].
    + split_and!; try reflexivity; [|intros (? & _); assumption]. split_and!; try reflexivity. intros G. apply Hg; [|exact G].
      destruct G as ([? ?] & _). unfold is_uid, MAX_USERS in *. cbn. rewrite u32_small; lia.
Qed.

Lemma commitChanges_step x o usera c sign o' :
  is_txs (getBlockMessage c sign) -> left_by fst (commitChanges x o usera c sign) o' -> queue_step x o o'.
Proof.
  intros Ht L. unfold commitChanges in L. apply left_by_bind in L as [([[o1 msid] mpos] & E & L)|(e & E)].
  2:{ apply add_msg_fail in E as ->. left. reflexivity. }
  apply add_msg_queued in E. cbn [fst] in E. apply left_by_bind in L as [([o2 u2] & E2 & L)|(e & E2)].
  2:{ now apply set_user_fail in E2. }
  apply set_user_same in E2. cbn in L. subst o'. right. eexists. split; [exact Ht|]. eapply queued_same; eassumption.
Qed.

Lemma commit_then x o usera c sign (k : office * response -> outcome (office * response)) o' :
  is_txs (getBlockMessage c sign) -> (forall o1 r o2, left_by fst (k (o1, r)) o2 -> same_queue o1 o2) ->
  left_by fst (obind (commitChanges x o usera c sign) k) o' -> queue_step x o o'.
Proof.
  intros Ht Hk L. apply left_by_bind in L as [([o1 r] & E & L)|(e & E)].
  - eapply queue_step_r; [eapply (commitChanges_step x o usera c sign o1); [exact Ht|now rewrite E]|]. eapply Hk, L.
  - eapply commitChanges_step; [exact Ht|now rewrite E].
Qed.

Lemma put_ulog_map_same x o l : same_queue o (put_ulog_map x o l).
Proof. split_and!; auto. Qed.

Lemma many_in_same x c r it o o' : left_by id (many_in x c r o it) o' -> same_queue o o'.
Proof.
  destruct it as [i [[node user] amount]]. unfold many_in. destruct (node =? _); [|intros <-; reflexivity].
  destruct (amount <? 0); [intros <-; apply same_put_ulog|]. cbv zeta.
  set (o1 := put_ulog _ _ _ _). intros L. transitivity o1; [apply same_put_ulog|].
  unfold add_deposit in *. destruct (negb _); [|contradiction]. cbn in L. subst o'. apply same_put_ofi.
Qed.

Lemma many_in_loop_same x c r l o o' : left_by id (many_in_loop x c r o l) o' -> same_queue o o'.
Proof.
  revert o; induction l as [|it l IH]; intros o; cbn [many_in_loop]; [intros <-; reflexivity|].
  intros L. apply left_by_bind in L as [(o1 & E & L)|(e & E)].
  - transitivity o1; [eapply (many_in_same x c r it); now rewrite E|now apply IH].
  - eapply (many_in_same x c r it). now rewrite E.
Qed.

(** A deposit on an account of the office, as the last action. *)
Lemma deposit_last {A} o user d (r : A) o2 :
  left_by fst (obind (if d <? 0 then Done o else add_deposit o user d) (fun o => Done (o, r))) o2 -> same_queue o o2.
Proof.
  destruct (d <? 0); [intros <-; reflexivity|]. unfold add_deposit. destruct (negb _); [|contradiction].
  cbn. intros <-. apply same_put_ofi.
Qed.

Lemma status_step set x o usera c sign bb bu st o' :
  is_txs (getBlockMessage c sign) -> left_by fst (status_execute set x o usera c sign bb bu st) o' -> queue_step x o o'.
Proof.
  intros Ht L. unfold status_execute in L. apply left_by_bind in L as [([[o1 msid] mpos] & E & L)|(e & E)].
  2:{ apply add_msg_fail in E as ->. left. reflexivity. }
  apply add_msg_queued in E. cbn [fst] in E.
  assert (Q : queue_step x o o1) by (right; eexists; split; [exact Ht|exact E]).
  destruct (account_status set o1 bu st) as [o2|] eqn:Es; [|cbn in L; now subst o'].
  apply account_status_same in Es. apply left_by_bind in L as [([o3 u3] & E3 & L)|(e & E3)];
    [|now apply set_user_fail in E3].
  apply set_user_same in E3. cbn in L. subst o'. eapply queue_step_r; [exact Q|].
  etransitivity; [exact Es|]. etransitivity; [exact E3|].
  destruct (_ =? _); [etransitivity; apply same_put_ulog|apply same_put_ulog].
Qed.

Definition keys_ok (x : srv) : Prop := forall i, is_key (nth_node x.(x_last) i).(n_pk).

(** Every handler adds at most the transaction of its command. *)
Lemma onExecute_step x o usera c sign o' :
  cmd_wf c -> length sign = 64%nat -> good o -> keys_ok x ->
  left_by fst (onExecute x o usera c sign) o' -> queue_step x o o'.
Proof.
  intros Hw Hs G K. pose proof (command_is_txs c sign Hw Hs) as Ht. destruct c; cbn [onExecute];
    unfold BroadcastMsg_onExecute, LogAccount_onExecute, SendOne_onExecute, SendMany_onExecute, CreateAccount_onExecute,
      CreateNode_onExecute, RetrieveFunds_onExecute, SetAccountKey_onExecute, ChangeNodeKey_onExecute,
      SetAccountStatus_onExecute, UnsetAccountStatus_onExecute, SetNodeStatus_onExecute, UnsetNodeStatus_onExecute; intros L;
    try (eapply commit_then; [exact Ht| |exact L]; intros o1 r o2 L2; cbn in L2; subst o2; apply same_put_ulog);
    try (eapply status_step; [exact Ht|exact L]).
  - eapply commit_then; [exact Ht| |exact L]. intros o1 r o2 L2. cbv zeta in L2.
    destruct (_ =? _); [|cbn in L2; subst o2; apply same_put_ulog].
    apply deposit_last in L2. etransitivity; [|exact L2]. etransitivity; apply same_put_ulog.
  - destruct (check_targets _ _ _); [cbn in L; subst o'; left; reflexivity|].
    eapply commit_then; [exact Ht| |exact L]. intros o1 r o2 L2. cbv zeta in L2.
    etransitivity; [apply put_ulog_map_same|]. eapply many_in_loop_same.
    apply left_by_bind in L2 as [(o3 & -> & L3)|(e & ->)]; [exact L3|reflexivity].
  - apply left_by_bind in L as [([o1 n] & E & L)|(e & E)].
    2:{ destruct (_ =? _); [|discriminate]. unfold add_user in E. destruct (negb _); [|discriminate].
        destruct (reuse_deleted _ _ _) as [[?|] ?]; [discriminate|]. destruct (_ <=? _); discriminate. }
    assert (Hq : same_queue o o1 /\ o_svid o1 = o_svid o /\ is_uid n).
    { destruct (_ =? _); [|injection E as <- <-; split; [reflexivity|split; [reflexivity|unfold is_uid; lia]]].
      apply add_user_same in E as (S & V & U). auto. }
    destruct Hq as (S & V & U). apply (queue_step_l x o o1); [exact S|].
    destruct (_ && _); [cbn in L; subst o'; left; reflexivity|]. cbv zeta in L.
    eapply commit_then; [| |exact L]; [|intros o2 r o3 L3; unfold left_by in L3; cbn [fst] in L3; rewrite <- L3].
    + destruct (dst_node =? o_svid o1); [|exact Ht]. apply command_is_txs; [|exact Hs].
      destruct Hw as (Hi & [Hd _] & Hk). split; [exact Hi|]. split; [split; [exact Hd|exact U]|exact Hk].
    + destruct (ci_abank i =? dst_node); [etransitivity; apply same_put_ulog|apply same_put_ulog].
  - destruct (dst_node =? 0) eqn:E0; cbn [obind] in L.
    + eapply queue_step_l; [|eapply commit_then; [| |exact L]; [|intros o2 r o3 L3; cbn in L3; subst o3; apply same_put_ulog]].
      * destruct Hw as (_ & _ & Hk & _). split_and!; auto. intros (? & ? & _). now split_and!.
      * apply command_is_txs; [|exact Hs]. destruct Hw as (Hi & Hd & Hk & _). split; [exact Hi|]. split_and!; try apply Hd; [exact Hk|apply G].
    + destruct (dst_node <? _); cbn [obind] in L; [|cbn in L; subst o'; left; reflexivity].
      eapply commit_then; [| |exact L]; [|intros o2 r o3 L3; cbn in L3; subst o3; apply same_put_ulog].
      apply command_is_txs; [|exact Hs]. destruct Hw as (Hi & Hd & Hk & _). split; [exact Hi|]. split_and!; try apply Hd; [exact Hk|apply K].
Qed.

Lemma client_command_step sign_open x o c sign o' :
  cmd_wf c -> length sign = 64%nat -> good o -> keys_ok x ->
  left_by fst (client_command sign_open x o c sign) o' -> queue_step x o o'.
Proof.
  intros Hw Hs G K L. unfold client_command in L. pose proof (lock_user_same o (getUserId c)) as Sl.
  destruct (lock_user o (getUserId c)) as [o1 ok]. cbn [fst] in Sl.
  destruct (negb ok); [cbn in L; subst o'; now left|]. apply (queue_step_l x o o1); [exact Sl|].
  assert (G1 : good o1) by now apply Sl.
  destruct (get_user _ _ _ _) as [usera|]; [|cbn in L; subst o'; left; apply unlock_user_same].
  destruct (execute sign_open x o1 usera c sign) as [[o2 r]|e o2| |] eqn:E; cbn in L; try contradiction; subst o';
    (eapply queue_step_r; [|apply unlock_user_same]); unfold execute in E;
    destruct (performCommonValidation _ _ _ _ _ _); try discriminate; try (injection E as <- <-; now left);
    destruct (validateModifyingCommand _ _ _ _); try discriminate; try (injection E as <- <-; now left);
    destruct (onValidate _ _ _); try discriminate; try (injection E as <- <-; now left);
    (eapply onExecute_step; [exact Hw|exact Hs|exact G1|exact K|now rewrite E]).
Qed.

Lemma try_account_same x o k : same_queue o (try_account x o k).1.
Proof.
  unfold try_account. destruct (_ !! _); [reflexivity|]. destruct (_ <=? _); [reflexivity|]. split_and!; auto.
Qed.

Lemma add_remote_user_step x o bbank buser pk o' :
  is_key pk -> left_by fst (add_remote_user x o bbank buser pk) o' -> queue_step x o o'.
Proof.
  intros Hk L. unfold add_remote_user in L. destruct (negb _); [|contradiction].
  destruct (o_readonly o); [cbn in L; subst o'; now left|].
  pose proof (try_account_same x o pk) as St. destruct (try_account x o pk) as [o1 free]. cbn [fst] in St.
  apply (queue_step_l x o o1); [exact St|]. destruct (negb free); [cbn in L; subst o'; now left|].
  apply left_by_bind in L as [([o2 luser] & E & L)|(e & E)].
  2:{ unfold add_user in E. destruct (negb _); [|discriminate].
      destruct (reuse_deleted _ _ _) as [[?|] ?]; [discriminate|]. destruct (_ <=? _); discriminate. }
  apply add_user_same in E as (S & _). apply (queue_step_l x o1 o2); [exact S|].
  destruct (luser =? 0); [cbn in L; subst o'; now left|].
  destruct (add_msg x o2 _) as [[[o3 msid] mpos]|e o3| |] eqn:E; cbn in L; try contradiction; subst o'.
  - apply add_msg_queued in E. right. eexists. split; [|eapply queued_same; [exact E|]]; [now apply uok_is_txs|].
    destruct (_ =? 0); [reflexivity|split_and!; auto].
  - apply add_msg_fail in E as ->. now left.
Qed.

(** * The office over time *)

(** The calls of clients, of the server and of the clock; [step_server] is what the
    server does meanwhile. Its message number [msid_] grows by the messages of the
    office only: the validator raises it when a message of this node that it does
    not know comes back from the network, and the queue then stays in the file of
    a number that is passed ([raised_number_strands_queue]). *)
Inductive office_step (sign_open : list Z -> list Z -> list Z -> list Z -> bool) : srv * office -> srv * office -> Prop :=
  | step_command x o c sign o' :
      cmd_wf c -> length sign = 64%nat -> keys_ok x -> left_by fst (client_command sign_open x o c sign) o' ->
      office_step sign_open (x, o) (x, o')
  | step_remote_user x o bbank buser pk o' :
      is_key pk -> left_by fst (add_remote_user x o bbank buser pk) o' -> office_step sign_open (x, o) (x, o')
  | step_send x o accept net_msid weight blk_now con now o' line msid :
      x.(x_msid) + 2 < 2 ^ 32 ->
      clock_send accept (write_message net_msid weight blk_now con x) now o = Some (o', line, msid) ->
      office_step sign_open (x, o) (x <| x_msid := msid |>, o')
  | step_update x o update port ipv4 version :
      length version = 16%nat -> office_step sign_open (x, o) (x, clock_update update (con_bytes port ipv4 version) o)
  | step_update_block x o period_start now newdiv msgs o' :
      update_block x period_start now newdiv msgs o = Done o' -> office_step sign_open (x, o) (x, o')
  | step_clock_block x o msglog srvs_now o' :
      clock_block x msglog srvs_now o = Done o' -> office_step sign_open (x, o) (x, o')
  | step_gup_push x o g : office_step sign_open (x, o) (x, gup_push o g)
  | step_change_pkey x o pk : is_key pk -> office_step sign_open (x, o) (x, change_pkey o pk)
  | step_readonly x o b : office_step sign_open (x, o) (x, set_readonly o b)
  | step_remote_deposit x o user d o' : add_remote_deposit o user d = Done o' -> office_step sign_open (x, o) (x, o')
  | step_delete x o user o' : 0 <= user -> delete_user o user = Done o' -> office_step sign_open (x, o) (x, o')
  | step_server x x' o : x'.(x_msid) = x.(x_msid) -> office_step sign_open (x, o) (x', o).

(** The queue: [pre] is the address of the node, queued by the clock without
    the file, [ts] are the transactions of clients. *)
Definition queue_is (x : srv) (o : office) (pre ts : list (list Z)) : Prop :=
  0 <= x.(x_msid) /\ (length pre <= 1)%nat /\ Forall is_txs (pre ++ ts) /\
  o.(o_message) = concat (pre ++ ts) /\ o.(o_tnum) = Z.of_nat (length (pre ++ ts)) /\ o.(o_tnum) <= MESSAGE_TNUM_MAX /\
  o.(o_msd) !!! u32 (x.(x_msid) + 1) = concat ts /\ forall k, x.(x_msid) + 1 < k -> o.(o_msd) !! k = None.

Definition queue_inv (x : srv) (o : office) : Prop := good o /\ exists pre ts, queue_is x o pre ts.

Lemma same_queue_inv x o o' : same_queue o o' -> queue_inv x o -> queue_inv x o'.
Proof.
  intros (E1 & E2 & E3 & G) (Hg & pre & ts & Q). split; [auto|]. exists pre, ts. unfold queue_is. now rewrite E1, E2, E3.
Qed.

Lemma queue_step_inv x o o' : queue_step x o o' -> queue_inv x o -> queue_inv x o'.
Proof.
  intros [S|(t & Ht & Hm & E1 & E2 & E3 & G)]; [now apply same_queue_inv|].
  intros (Hg & pre & ts & Hx & Hp & Hts & Em & En & Hn & Ef & Hk). split; [auto|]. exists pre, (ts ++ [t]).
  set (q := pre ++ ts) in *. unfold MESSAGE_TNUM_MAX in *.
  unfold queue_is, MESSAGE_TNUM_MAX. rewrite (assoc_L (++)). fold q. split; [exact Hx|]. split; [exact Hp|].
  split; [apply Forall_app; split; [exact Hts|now constructor]|].
  rewrite concat_app, length_app. cbn [concat length]. rewrite app_nil_r, E1, E2, E3, Em, En.
  split; [reflexivity|]. rewrite (u32_small (Z.of_nat (length q) + 1)) by lia. split; [lia|]. split; [lia|]. split.
  - rewrite lookup_total_insert_eq, Ef. rewrite concat_app. cbn [concat]. now rewrite app_nil_r.
  - intros k Hlt. rewrite lookup_insert_ne; [now apply Hk|]. unfold u32.
    pose proof (Z.mod_le (x_msid x + 1) (2 ^ 32)). lia.
Qed.

Lemma clock_send_inv x o accept net_msid weight blk_now con now o' line msid :
  x.(x_msid) + 2 < 2 ^ 32 -> clock_send accept (write_message net_msid weight blk_now con x) now o = Some (o', line, msid) ->
  queue_inv x o -> queue_inv (x <| x_msid := msid |>) o'.
Proof.
  intros Hm E (G & pre & ts & Hx & Hp & Hts & Em & En & Hn & Ef & Hk). unfold clock_send in E.
  destruct (o_message o) as [|b l] eqn:Eb; [discriminate|]. rewrite <- Eb in E. clear Eb. inv_opt.
  unfold write_message in E2. inv_opt. rewrite u32_small in * by lia. subst.
  split; [exact G|]. exists [], []. cbn [x_msid].
  split_and!; cbn [o_message o_tnum o_msd length app concat]; try reflexivity; try constructor; try (unfold MESSAGE_TNUM_MAX; cbn; lia).
  - cbn. rewrite u32_small by lia. rewrite lookup_total_alt, lookup_delete_ne by lia. now rewrite Hk by lia.
  - intros k Hlt. cbn in *. rewrite lookup_delete_ne by lia. apply Hk. lia.
Qed.

Lemma process_gup_same now o o' : process_gup now o = Done o' -> same_queue o o'.
Proof.
  unfold process_gup. destruct (_ =? 0); [intros E; injection E as <-; reflexivity|].
  assert (Hl : forall l o1 o2, gup_loop now o1 l = Done o2 -> same_queue o1 o2).
  { induction l as [|g l IH]; cbn [gup_loop]; intros o1 o2 E; [injection E as <-; reflexivity|].
    destruct (_ <? _); [|discriminate]. apply IH in E. etransitivity; [|exact E]. apply same_put_ofi. }
  destruct (gup_loop now o (o_gup o)) as [o1| | |] eqn:E; try discriminate. cbn. intros E2. injection E2 as <-.
  apply Hl in E. etransitivity; [exact E|]. split_and!; auto.
Qed.

Lemma process_dep_same now o o' : process_dep now o = Done o' -> same_queue o o'.
Proof.
  unfold process_dep. destruct (_ =? 0); [intros E; injection E as <-; reflexivity|].
  assert (Hl : forall l o1 o2, dep_loop now o1 l = Done o2 -> same_queue o1 o2).
  { induction l as [|g l IH]; cbn [dep_loop]; intros o1 o2 E; [injection E as <-; reflexivity|].
    destruct (_ <? _); [|discriminate]. apply IH in E. etransitivity; [|exact E]. apply same_put_ofi. }
  destruct (dep_loop now o (o_rdep o)) as [o1| | |] eqn:E; try discriminate. cbn. intros E2. injection E2 as <-.
  apply Hl in E. etransitivity; [exact E|]. split_and!; auto.
Qed.

Lemma div_deposits_same l o o' : div_deposits o l = Done o' -> same_queue o o'.
Proof.
  revert o; induction l as [|[user div] l IH]; cbn [div_deposits]; intros o E; inv_done; [reflexivity|].
  unfold add_deposit in E0. inv_done. etransitivity; [|apply IH; exact E]. apply same_put_ofi.
Qed.

Lemma process_div_same x path o o' : process_div x path o = Done o' -> same_queue o o'.
Proof.
  unfold process_div. intros E. inv_done; [reflexivity|]. destruct (o_div o !! path); [|discriminate]. inv_done.
  apply div_deposits_same in E0. etransitivity; [exact E0|]. split_and!; auto.
Qed.

Lemma process_log_same x msglog now o : same_queue o (process_log x msglog now o).
Proof. unfold process_log. destruct (_ =? 0); [reflexivity|]. split_and!; auto. Qed.

Lemma clock_block_same x msglog srvs_now o o' : clock_block x msglog srvs_now o = Done o' -> same_queue o o'.
Proof.
  unfold clock_block. intros E. inv_done; [reflexivity| |].
  all: match goal with
       | E1 : process_gup _ _ = Done ?a, E2 : process_dep _ ?a = Done ?b |- _ =>
           apply process_gup_same in E1; apply process_dep_same in E2;
           transitivity b; [transitivity a; [etransitivity; [|exact E1]|exact E2]|split_and!; auto]
       end.
  - apply process_log_same.
  - etransitivity; [eapply process_div_same; eassumption|apply process_log_same].
Qed.

Lemma update_block_same x ps now newdiv msgs o o' : update_block x ps now newdiv msgs o = Done o' -> same_queue o o'.
Proof.
  unfold update_block, update_div. intros E. destruct (ps =? now); cbn [obind] in E.
  - destruct (negb (now =? 0)); [|discriminate]. destruct (_ =? 0); [|destruct (mapM _ _); [|discriminate]];
      cbn [obind] in E; inv_done; split_and!; auto.
  - inv_done. split_and!; auto.
Qed.

Lemma delete_user_same o user o' : 0 <= user -> delete_user o user = Done o' -> same_queue o o'.
Proof.
  intros Hu. unfold delete_user. destruct (Z.ltb_spec user (o_users o)); [|discriminate]. intros E. injection E as <-.
  split_and!; auto. intros (Hn & Hd & Hk). split_and!; [exact Hn| |exact Hk].
  apply Forall_app. split; [exact Hd|]. constructor; [|constructor]. unfold is_uid in *. lia.
Qed.

Lemma clock_update_inv x o update port ipv4 version :
  length version = 16%nat -> queue_inv x o -> queue_inv x (clock_update update (con_bytes port ipv4 version) o).
Proof.
  intros Hv I. unfold clock_update. destruct (o_message o) as [|b l] eqn:Eb; [|exact I]. destruct update; [|exact I].
  destruct I as (G & pre & ts & Hx & Hp & Hts & Em & En & Hn & Ef & Hk).
  assert (Hq : pre ++ ts = []).
  { pose proof (length_queue _ Hts) as Hl. rewrite <- Em, Eb in Hl. cbn in Hl. apply length_zero_iff_nil. lia. }
  rewrite Hq in *. apply app_nil in Hq as [-> ->]. cbn in En.
  split; [exact G|]. exists [con_bytes port ipv4 version], []. split_and!; cbn; try reflexivity; try assumption.
  - constructor; [now apply con_is_txs|constructor].
  - now rewrite app_nil_r.
  - rewrite En. reflexivity.
  - rewrite En. vm_compute. discriminate.
Qed.

Lemma office_step_inv sign_open w w' :
  office_step sign_open w w' -> queue_inv w.1 w.2 -> queue_inv w'.1 w'.2.
Proof.
  intros St I. destruct St; cbn [fst snd] in *.
  - eapply queue_step_inv; [|exact I]. eapply client_command_step; [eassumption..|apply I|eassumption|eassumption].
  - eapply queue_step_inv; [|exact I]. eapply add_remote_user_step; eassumption.
  - eapply clock_send_inv; eassumption.
  - now apply clock_update_inv.
  - eapply same_queue_inv; [eapply update_block_same; eassumption|exact I].
  - eapply same_queue_inv; [eapply clock_block_same; eassumption|exact I].
  - eapply same_queue_inv; [|exact I]. split_and!; auto.
  - eapply same_queue_inv; [|exact I]. split_and!; auto. intros (? & ? & _). now split_and!.
  - eapply same_queue_inv; [|exact I]. split_and!; auto.
  - eapply same_queue_inv; [|exact I]. unfold add_remote_deposit in *. destruct (negb _); [|discriminate].
    match goal with E : Done _ = Done _ |- _ => injection E as <- end. split_and!; auto.
  - eapply same_queue_inv; [eapply delete_user_same; eassumption|exact I].
  - unfold queue_inv, queue_is in *. now rewrite H0.
Qed.

(** C19: the queue of the office is always a message of whole transactions:
    after any sequence of calls of clients, the server and the clock, as long as
    the network does not raise the number of the node, cutting it
    gives as many transactions as the office has counted, at most
    [MESSAGE_TNUM_MAX], and the file for the next message, from which a
    restarted node recovers, holds exactly the transactions of clients in their
    order (the address of the node, queued by the clock, may come first). *)
Theorem queue_recoverable sign_open x0 o0 x o :
  queue_inv x0 o0 -> rtc (office_step sign_open) (x0, o0) (x, o) ->
  exists pre ts l, (length pre <= 1)%nat /\ o.(o_message) = concat pre ++ concat ts /\
    cut (length o.(o_message)) o.(o_message) (Z.of_nat (length o.(o_message))) = Some l /\
    o.(o_tnum) = Z.of_nat (length l) /\ o.(o_tnum) <= MESSAGE_TNUM_MAX /\
    Forall is_txs ts /\ default [] (get_msg o (u32 (x.(x_msid) + 1))) = concat ts.
Proof.
  intros I R.
  assert (I' : queue_inv x o).
  { change (queue_inv (x, o).1 (x, o).2). change (queue_inv (x0, o0).1 (x0, o0).2) in I.
    induction R as [w|w1 w2 w3 St _ IH]; [exact I|]. apply IH. eapply office_step_inv; eassumption. }
  destruct I' as (_ & pre & ts & _ & Hp & Hts & Em & En & Hn & Ef & _).
  destruct (cut_queue (pre ++ ts) [] (length (o_message o)) Hts) as (l & El & Hl); [rewrite Em; now apply length_queue|].
  rewrite app_nil_r, <- Em in El. exists pre, ts, l. split; [exact Hp|]. split; [now rewrite Em, concat_app|].
  split; [exact El|]. split; [congruence|]. split; [exact Hn|]. split; [now apply Forall_app in Hts|].
  rewrite <- Ef. unfold get_msg. rewrite lookup_total_alt. now destruct (_ !! _) as [[|]|].
Qed.
End Queue.

(** * Examples *)

(** The office of bank 1 with two accounts and an empty queue. *)
Definition demo_office : office :=
  {| o_svid := 1; o_pkey := zero_hash; o_readonly := false; o_run := true; o_users := 2;
     o_file := demo_bank (H := toy_sha) 1 [10 ^ 15; 10 ^ 12]; o_message := []; o_tnum := 0; o_sent := 0; o_msd := ∅;
     o_accounts := ∅; o_gup := []; o_rdep := []; o_deleted := []; o_lock := ∅; o_logs := ∅;
     o_div := ∅; o_div_ready := 0; o_block_ready := 0; o_mque := []; o_logtime := ∅ |}.

Definition demo_srv : srv :=
  {| x_msid := 4; x_last := demo_servers (H := toy_sha) [[10 ^ 15; 10 ^ 12]; [10 ^ 15]];
     x_usr := (demo_server (H := toy_sha) [[10 ^ 15; 10 ^ 12]; [10 ^ 15]]).(usr_);
     x_time := demo_now; x_key_file := Some (replicate 64 48 ++ [10]); x_public := fun k => k; x_junk := 0 |}.

Definition demo_accept (_ _ _ _ : list Z) : bool := true.

(** Two commands of one client, the second with the next number, and the clock. *)
Definition demo_two : command :=
  SendMany {| ci_abank := 1; ci_auser := 1; ci_amsid := 2; ci_ttime := demo_now |} [(1, 0, 5000); (2, 0, 7000)].

Lemma demo_two_wf : cmd_wf demo_two.
Proof. split; [vm_compute; intuition congruence|]. split; [reflexivity|]. repeat constructor; vm_compute; congruence. Qed.

Definition office_of {A} (c : outcome (office * A)) (d : office) : office :=
  match c with Done (o, _) => o | _ => d end.

Definition demo_office1 : office :=
  office_of (client_command (H := toy_sha) demo_accept demo_srv demo_office demo_one demo_sig) demo_office.
Definition demo_office2 : office :=
  office_of (client_command (H := toy_sha) demo_accept demo_srv demo_office1 demo_two demo_sig) demo_office1.

Lemma demo_queue_inv : queue_inv demo_srv demo_office.
Proof.
  split; [split_and!; [split; reflexivity || discriminate|constructor|reflexivity]|].
  exists [], []. split; [discriminate|]. split; [cbn; lia|]. split; [constructor|]. split; [reflexivity|].
  split; [reflexivity|]. split; [discriminate|]. split; [reflexivity|]. intros k _. apply lookup_empty.
Qed.

Lemma demo_keys_ok : keys_ok demo_srv.
Proof.
  intros i. unfold nth_node. destruct (sv_nodes (x_last demo_srv) !! Z.to_nat i) as [n|] eqn:E.
  - rewrite (list_lookup_total_correct _ _ _ E). apply list_elem_of_lookup_2 in E.
    unfold demo_srv in E. cbn in E. rewrite !elem_of_cons, elem_of_nil in E. now destruct E as [->|[->|[->|[]]]].
  - rewrite list_lookup_total_alt, E. reflexivity.
Qed.

Lemma queue_recoverable_witness :
  demo_office2.(o_tnum) = 2 /\ exists pre ts l, (length pre <= 1)%nat /\ demo_office2.(o_message) = concat pre ++ concat ts /\
    cut (length demo_office2.(o_message)) demo_office2.(o_message) (Z.of_nat (length demo_office2.(o_message))) = Some l /\
    demo_office2.(o_tnum) = Z.of_nat (length l) /\ demo_office2.(o_tnum) <= MESSAGE_TNUM_MAX /\
    Forall is_txs ts /\ default [] (get_msg demo_office2 (u32 (demo_srv.(x_msid) + 1))) = concat ts.
Proof.
  split; [vm_compute; reflexivity|].
  apply (queue_recoverable (H := toy_sha) demo_accept demo_srv demo_office demo_srv demo_office2 demo_queue_inv).
  eapply rtc_l with (demo_srv, demo_office1); [|apply rtc_once].
  - apply (step_command _ _ _ demo_one demo_sig); [exact demo_one_wf|reflexivity|exact demo_keys_ok|].
    vm_compute. reflexivity.
  - apply (step_command _ _ _ demo_two demo_sig); [exact demo_two_wf|reflexivity|exact demo_keys_ok|].
    vm_compute. reflexivity.
Defined.

(** When the network raises the number of the node, the file for the next message
    is another one: the transactions that wait are in none that a restarted node
    reads. *)
Theorem raised_number_strands_queue :
  let x := demo_srv <| x_msid := 9 |> in
  demo_office2.(o_message) <> [] /\ default [] (get_msg demo_office2 (u32 (demo_srv.(x_msid) + 1))) = demo_office2.(o_message) /\
  default [] (get_msg demo_office2 (u32 (x.(x_msid) + 1))) = [].
Proof. cbv zeta. split; [vm_compute; discriminate|]. split; vm_compute; reflexivity. Qed.
