(* ===== verification/OfficeLedger.v ===== *)
(** The office against the ledger: the balances the office shows and tests
    are those the nodes compute when they execute its messages. *)

From stdpp Require Import base gmap list.
From Stdlib Require Import ZArith Lia.
From S2P Require Import Prelude Params HashTree Usertxs Accounts Servers Ledger Process Invariant Demo Userlog Commands Office Handlers OfficeProps.

(** * Logs *)

Section Logs.
Context `{Sha256}.

Lemma put_logs_at (f : Z -> log_t) (us : list Z) fs u :
  NoDup us ->
  foldl (fun fs user => put_log user (f user) fs) fs us !!! u = fs !!! u ++ (if decide (u ∈ us) then log_bytes (f u) else []).
Proof.
  intros Hn. revert fs. induction Hn as [|w us Hw _ IH]; intros fs; cbn [foldl].
  - rewrite decide_False by apply not_elem_of_nil. now rewrite app_nil_r.
  - rewrite IH, put_log_at, <- (assoc_L (++)). f_equal.
    destruct (decide (w = u)) as [->|Hne].
    + rewrite (decide_False _ _ Hw), decide_True by (now left). apply app_nil_r.
    + destruct (decide (u ∈ us)); [rewrite decide_True by (now right)|rewrite decide_False by (intros [->|]%elem_of_cons; contradiction)];
        reflexivity.
Qed.

Lemma users_of_spec o u : u ∈ users_of o <-> 0 <= u < o.(o_users).
Proof.
  unfold users_of. rewrite list_elem_of_fmap. split.
  - intros (n & -> & Hn). apply elem_of_seq in Hn. lia.
  - intros Hu. exists (Z.to_nat u). split; [lia|]. apply elem_of_seq. lia.
Qed.

Lemma users_of_nodup o : NoDup (users_of o).
Proof. unfold users_of. apply NoDup_fmap_2; [intros ? ? ?; lia|apply NoDup_seq]. Qed.

(** The note about a block that is processed again. *)
Definition again_note (x : srv) (now : Z) (o : office) (user : Z) : list Z :=
  match o.(o_logtime) !! now with
  | Some otime => if decide (user ∈ users_of o) then log_bytes (again_log (u32 x.(x_time)) now otime) else []
  | None => []
  end.

(** C23: after a block every account of the bank finds in its log exactly the
    entries the messages of the block have for it, in the order of the messages
    and of the transactions, behind what the log held before (and the note, when
    the block is processed again); only whole pages at the front whose last
    entry is too old are dropped. *)
Theorem process_log_delivers x msglog now o user :
  msglog_ok msglog -> o.(o_svid) <> 0 ->
  purged x.(x_last).(sv_now)
    ((o.(o_logs) !!! user ++ again_note x now o user) ++
     entries (map (stamp (u32 x.(x_time))) (of_user user (queue_recs now msglog (o.(o_mque) ++ [(0, 0)])))))
    ((process_log x msglog now o).(o_logs) !!! user).
Proof.
  intros Hok Hs. unfold process_log, again_note. rewrite (proj2 (Z.eqb_neq _ _)) by exact Hs.
  destruct (o_logtime o !! now) as [otime|].
  - rewrite <- (put_logs_at (fun _ => again_log (u32 (x_time x)) now otime)) by apply users_of_nodup.
    now apply log_files_start.
  - rewrite app_nil_r. now apply log_files_start.
Qed.
End Logs.

Definition demo_msglog : gmap (Z * Z * Z) (list (Z * log_t)) :=
  {[ (512, 1, 4) := [(1, demo_log 7); (0, demo_log 8); (1, demo_log 9)]; (512, 2, 9) := [(1, demo_log 3)] ]}.

(** Three entries for account 1 from two messages. *)
Lemma process_log_delivers_witness :
  purged demo_now (entries (map (stamp (u32 demo_now)) [demo_log 7; demo_log 9; demo_log 3]))
    ((process_log demo_srv demo_msglog 512 (demo_office <| o_mque := [(1, 4); (2, 9)] |>)).(o_logs) !!! 1).
Proof.
  refine (process_log_delivers demo_srv demo_msglog 512 (demo_office <| o_mque := [(1, 4); (2, 9)] |>) 1 _ _);
    [|discriminate].
  intros k recs E. unfold demo_msglog in E.
  apply lookup_insert_Some in E as [[<- <-]|[_ E]]; [|apply lookup_singleton_Some in E as [<- <-]];
    (split; [repeat constructor; cbn; lia|reflexivity]).
Defined.

(** * Dividends *)

Section Dividends.
Context `{Sha256}.

(** An account that the ledger has not paid in this period yet. *)
Definition unpaid (s : server) (u : user_t) : Prop := u.(u_rpath) < s.(period_start) /\ u.(u_lpath) < s.(period_start).

Lemma dividend_value s u fee u' fee' div :
  unpaid s u -> dividend s u fee = (u', fee', div) ->
  div = div_value s.(srvs_).(sv_now) s.(srvs_).(sv_div) u /\ u_weight u' = i64 (u_weight u + div).
Proof.
  intros [Hr Hl] E. unfold dividend in E.
  rewrite (proj2 (Z.ltb_lt _ _) Hr), (proj2 (Z.ltb_lt _ _) Hl) in E. cbn [andb] in E. cbv zeta in E.
  unfold div_value. cbv zeta. destruct (_ <? i64 (- u_weight u)); injection E as <- <- <-; split; reflexivity.
Qed.

Lemma div_deposits_at o l o' user :
  NoDup l.*1 -> div_deposits o l = Done o' ->
  (user ∉ l.*1 -> ofi_user o' user = ofi_user o user) /\
  (forall d, (user, d) ∈ l -> ofi_user o' user = (ofi_user o user) <| u_weight ::= fun w => i64 (w + d) |>).
Proof.
  revert o. induction l as [|[w d] l IH]; intros o Hn E; cbn [div_deposits fmap list_fmap] in *.
  { inv_done. split; [reflexivity|]. intros d Hd. now apply elem_of_nil in Hd. }
  apply NoDup_cons in Hn as [Hw Hn]. inv_done. unfold add_deposit in E0. inv_done.
  destruct (IH _ Hn E) as [Hout Hin]. cbn [fst] in *.
  assert (Hput : forall v, ofi_user (put_ofi o w v) user = if decide (w = user) then v else ofi_user o user).
  { intros v. unfold ofi_user, put_ofi, Accounts.get_user. cbn. destruct (decide (w = user)) as [->|Hne].
    - apply lookup_total_insert_eq. - now apply lookup_total_insert_ne. }
  split.
  - intros [Hne Hu]%not_elem_of_cons. rewrite (Hout Hu), Hput, decide_False by congruence. reflexivity.
  - intros d' [[= -> ->]|Hd]%elem_of_cons.
    + rewrite (Hout Hw), Hput, decide_True by reflexivity. reflexivity.
    + rewrite (Hin d' Hd), Hput, decide_False; [reflexivity|].
      intros ->. apply Hw. apply list_elem_of_fmap. now exists (user, d').
Qed.

Lemma zip_mapM_elem {A B} (f : A -> option B) l k a :
  mapM f l = Some k -> a ∈ l -> exists b, f a = Some b /\ (a, b) ∈ zip l k.
Proof.
  intros E%mapM_Some. induction E as [|x y l k Exy E IH]; intros Ha; [now apply elem_of_nil in Ha|].
  apply elem_of_cons in Ha as [->|Ha]; [exists y; split; [exact Exy|left]|].
  destruct (IH Ha) as (b & Hb & Hin). exists b. split; [exact Hb|now right].
Qed.

Lemma zip_mapM_fst {A B} (f : A -> option B) l k : mapM f l = Some k -> (zip l k).*1 = l.
Proof. intros E%mapM_Some. apply fst_zip. apply Forall2_length in E. lia. Qed.

(** The office pays dividends as the ledger does: when a period starts, what
    [update_div] writes to its file and [process_div] adds to the office's copy
    of an account leaves the balance that the ledger computes for it in that
    block. *)
Theorem office_dividend_matches s x o o1 o2 user u fee :
  o.(o_svid) <> 0 -> s.(srvs_).(sv_now) = s.(period_start) ->
  update_div x s.(period_start) s.(srvs_).(sv_div) o = Done o1 -> process_div x s.(period_start) o1 = Done o2 ->
  0 <= user < o.(o_users) -> bank_of x.(x_usr) o.(o_svid) !! user = Some u -> unpaid s u ->
  u_weight (ofi_user o user) = u_weight u ->
  u_weight (ofi_user o2 user) = u_weight (dividend s u fee).1.1.
Proof.
  intros Hs Hnow E1 E2 Hu Eu Hun Hw. unfold update_div in E1. rewrite (proj2 (Z.eqb_neq _ _) Hs) in E1.
  destruct (mapM _ _) as [divs|] eqn:Em; [|discriminate]. inv_done. unfold process_div in E2.
  change (o_svid (o <| o_div ::= _ |>)) with (o_svid o) in E2. rewrite (proj2 (Z.eqb_neq _ _) Hs) in E2.
  change (o_div (o <| o_div ::= ?f |>)) with (f (o_div o)) in E2. cbv beta in E2. rewrite lookup_insert_eq in E2. inv_done.
  change (users_of (o <| o_div ::= _ |>)) with (users_of o) in E.
  destruct (zip_mapM_elem _ _ _ user Em) as (d & Ed & Hd); [now apply users_of_spec|].
  apply (div_deposits_at _ _ _ user) in E as [_ Hin]; [|rewrite (zip_mapM_fst _ _ _ Em); apply users_of_nodup].
  match goal with |- u_weight (ofi_user ?z user) = _ => change (ofi_user z user) with (ofi_user o0 user) end.
  rewrite (Hin d Hd).
  unfold div_entry in Ed. rewrite Eu in Ed. injection Ed as <-.
  destruct (dividend s u fee) as [[u' fee'] div] eqn:Ediv. cbn [fst].
  destruct (dividend_value _ _ _ _ _ _ Hun Ediv) as [-> ->]. rewrite Hnow. cbn [u_weight].
  change (ofi_user (o <| o_div ::= _ |>) user) with (ofi_user o user). cbn. now rewrite Hw.
Qed.
End Dividends.

(** A period starts in the block of the example. *)
Definition demo_period : server := (demo_server (H := toy_sha) [[10 ^ 15; 10 ^ 12]; [10 ^ 15]]) <| period_start := demo_now |>.
Definition demo_div1 : office :=
  match update_div demo_srv demo_now 0 demo_office with Done o => o | _ => demo_office end.
Definition demo_div2 : office :=
  match process_div demo_srv demo_now demo_div1 with Done o => o | _ => demo_office end.

Lemma office_dividend_matches_witness :
  u_weight (ofi_user demo_div2 1) = u_weight (dividend demo_period (demo_user (H := toy_sha) 1 1 (10 ^ 12)) 0).1.1 /\
  u_weight (ofi_user demo_div2 1) = 10 ^ 12 - TXS_DIV_FEE.
Proof.
  split; [|vm_compute; reflexivity].
  refine (office_dividend_matches demo_period demo_srv demo_office demo_div1 demo_div2 1 _ 0 _ _ _ _ _ _ _ _);
    try (vm_compute; congruence).
  - vm_compute. split; congruence.
  - vm_compute. split; congruence.
Defined.

(** An account that becomes dormant 200 blocks after the period has started. *)
Definition demo_sleeper : user_t :=
  (demo_user (H := toy_sha) 1 1 (10 ^ 12)) <| u_lpath := demo_now - ACCOUNT_DORMANT_AGE + 200 * BLOCKSEC |>.

Definition demo_mid : server :=
  demo_period <| srvs_ ::= fun v => v <| sv_now := demo_now + 1024 * BLOCKSEC |> |>.

(** The office computes all dividends of a period from the block in which
    the period starts, the ledger each from the block in which it pays it: an
    account that becomes dormant in between loses a thousandth of its balance in
    the ledger, but not in the office's copy. *)
Theorem office_dividend_diverges :
  unpaid demo_mid demo_sleeper /\ demo_mid.(srvs_).(sv_now) < demo_mid.(period_start) + BLOCKDIV * BLOCKSEC /\
  div_entry demo_mid.(period_start) 0 {[1 := demo_sleeper]} ∅ 1 = Some (- TXS_DIV_FEE) /\
  (dividend demo_mid demo_sleeper 0).2 = - TXS_DIV_FEE - TXS_GOK_FEE demo_sleeper.(u_weight).
Proof. vm_compute. split_and!; reflexivity || (split; reflexivity). Qed.

(** * The balance tests of the office and of the nodes *)

Section Balance.
Context `{Sha256}.

(** The dormant fee is charged with the dividend. *)
Definition dormant_now (s : server) (a : user_t) : Prop :=
  unpaid s a /\ a.(u_lpath) < u32 (s.(srvs_).(sv_now) - ACCOUNT_DORMANT_AGE).

Lemma gok_bound w : 0 <= w -> 0 <= TXS_GOK_FEE w <= w.
Proof. intros Hw. unfold TXS_GOK_FEE. apply quot_share; lia. Qed.

(** What a dividend can cost at most. *)
Lemma dividend_loss s a fee a' fee' div :
  0 <= u_weight a <= TOTALMASS -> 0 <= s.(srvs_).(sv_div) < 2 ^ 14 -> dividend s a fee = (a', fee', div) ->
  u_weight a - TXS_DIV_FEE <= u_weight a' \/
  dormant_now s a /\ u_weight a - TXS_DIV_FEE - TXS_GOK_FEE (u_weight a) <= u_weight a'.
Proof.
  intros Hw Hd E. unfold TOTALMASS in Hw. pose proof (gok_bound (u_weight a) ltac:(lia)) as Hg.
  assert (Hf : 0 <= TXS_DIV_FEE < 2 ^ 30) by (vm_compute; intuition congruence).
  destruct (decide (unpaid s a)) as [Hu|Hu].
  2:{ left. unfold dividend in E. unfold unpaid in Hu.
      destruct (Z.ltb_spec (u_rpath a) (period_start s)); destruct (Z.ltb_spec (u_lpath a) (period_start s));
        cbn [andb] in E; try (injection E as <- <- <-; lia). tauto. }
  destruct (dividend_value _ _ _ _ _ _ Hu E) as [-> ->]. clear E. unfold div_value. cbv zeta.
  set (m := i64 (- u_weight a)). assert (Hm : m = - u_weight a) by (apply i64_small; lia). clearbody m. subst m.
  assert (Hmax : forall d0, - 2 ^ 62 <= d0 <= 2 ^ 62 ->
    u_weight a + d0 - TXS_DIV_FEE <=
    i64 (u_weight a + (if i64 (d0 - TXS_DIV_FEE) <? - u_weight a then - u_weight a else i64 (d0 - TXS_DIV_FEE)))).
  { intros d0 Hd0. rewrite (i64_small (d0 - TXS_DIV_FEE)) by lia.
    destruct (Z.ltb_spec (d0 - TXS_DIV_FEE) (- u_weight a)); rewrite i64_small; lia. }
  destruct (Z.ltb_spec (u_lpath a) (u32 (sv_now (srvs_ s) - ACCOUNT_DORMANT_AGE))) as [Hdor|_].
  { right. split; [now split|]. specialize (Hmax (- TXS_GOK_FEE (u_weight a)) ltac:(lia)). lia. }
  left. destruct (u_lpath a <? _).
  - specialize (Hmax 0 ltac:(lia)). lia.
  - assert (Hs : 0 <= Z.shiftr (u_weight a) 16 < 2 ^ 46).
    { rewrite Z.shiftr_div_pow2 by lia. split; [apply Z.div_pos; lia|apply Z.div_lt_upper_bound; lia]. }
    assert (0 <= Z.shiftr (u_weight a) 16 * sv_div (srvs_ s) <= 2 ^ 60) by nia.
    rewrite (i64_small (Z.shiftr _ _ * _)) by lia. specialize (Hmax (Z.shiftr (u_weight a) 16 * sv_div (srvs_ s)) ltac:(lia)). lia.
Qed.

(** What the office has tested. *)
Lemma validated_balance x o usera c :
  0 <= u_weight usera <= TOTALMASS -> getDeduct c + getFee c < 2 ^ 63 -> validateModifyingCommand x o usera c = None ->
  0 <= getDeduct c /\ 0 <= getFee c /\
  getDeduct c + getFee c + min_mass (getUserId c) + (if dormant_soon x usera then TXS_GOK_FEE (u_weight usera) else 0)
    <= u_weight usera.
Proof.
  intros Hw Ho E. unfold TOTALMASS in Hw. unfold validateModifyingCommand in E.
  destruct (o_svid o =? 0); [discriminate|]. destruct (o_readonly o); [discriminate|].
  destruct (negb _); [discriminate|]. destruct (Z.ltb_spec (getDeduct c) 0); [discriminate|].
  destruct (Z.ltb_spec (getFee c) 0); [discriminate|].
  destruct (Z.ltb_spec (available_balance x usera (getUserId c)) (i64 (getDeduct c + getFee c))) as [|Hb]; [discriminate|].
  rewrite i64_small in Hb by lia. unfold available_balance in Hb. cbv zeta in Hb.
  assert (Hmin : 0 <= min_mass (getUserId c) < 2 ^ 40) by (unfold min_mass; destruct (_ =? 0); vm_compute; intuition congruence).
  rewrite (i64_small (u_weight usera - _)) in Hb by lia. pose proof (gok_bound (u_weight usera) ltac:(lia)).
  split; [assumption|]. split; [assumption|]. destruct (dormant_soon x usera); [|lia]. rewrite i64_small in Hb by lia. lia.
Qed.

(** C18: a command that the office accepts can be paid when the nodes execute
    it: if the office and the ledger have the same balance for the account, the
    balance test of [process_message] succeeds, after the dividend and holding
    fee of a new period and with the dormant fee whenever the office has reckoned
    with it.  The amount must not overflow when the fee is added. *)
Theorem validated_command_affordable x o usera c sign s a fee a' fee' div k pending :
  validateModifyingCommand x o usera c = None ->
  u_weight usera = u_weight a -> 0 <= u_weight a <= TOTALMASS -> getDeduct c + getFee c < 2 ^ 63 ->
  0 <= s.(srvs_).(sv_div) < 2 ^ 14 -> (dormant_now s a -> dormant_soon x usera = true) ->
  c_deduct k = getDeduct c -> c_fee k = getFee c -> dividend s a fee = (a', fee', div) ->
  affordable (cmd_txs c sign) k a' pending = true.
Proof.
  intros Hv Hwa Hw Ho Hd Hdor Kd Kf E. rewrite <- Hwa in Hw.
  destruct (validated_balance _ _ _ _ Hw Ho Hv) as (Hde & Hfe & Hb). rewrite Hwa in *.
  pose proof (dividend_loss _ _ _ _ _ _ Hw Hd E) as Hloss. pose proof (gok_bound (u_weight a) ltac:(lia)).
  assert (Hx : exists extra, (if auser (cmd_txs c sign) =? 0 then BANK_MIN_UMASS ÷ 2 else 0) = extra /\
                             0 <= extra <= min_mass (getUserId c) - TXS_DIV_FEE).
  { eexists. split; [reflexivity|]. replace (auser (cmd_txs c sign)) with (getUserId c) by (now destruct c).
    unfold min_mass. destruct (_ =? 0); vm_compute; intuition congruence. }
  destruct Hx as (extra & Hx & Hex). unfold TOTALMASS in Hw.
  assert (0 < min_mass (getUserId c)) by (unfold min_mass; destruct (getUserId c =? 0); reflexivity).
  assert (Hneed : getDeduct c + getFee c + extra <= u_weight a').
  { destruct Hloss as [Hl|[Hdn Hl]]; [destruct (dormant_soon x usera); lia|]. rewrite (Hdor Hdn) in Hb. lia. }
  unfold affordable. rewrite Kd, Kf, Hx. assert (TXS_DIV_FEE = 20000000) by reflexivity.
  rewrite (i64_small (getDeduct c + getFee c)) by lia. rewrite (i64_small (_ + extra)) by (destruct (dormant_soon x usera); lia).
  rewrite (proj2 (Z.ltb_ge _ _)) by exact Hneed. reflexivity.
Qed.
End Balance.

Lemma validated_command_affordable_witness :
  affordable (cmd_txs demo_one demo_sig)
    {| c_deduct := getDeduct demo_one; c_fee := getFee demo_one; c_remote := 0; c_tmass := 0; c_mpt := [] |}
    (dividend demo_period (demo_user (H := toy_sha) 1 1 (10 ^ 12)) 0).1.1 0 = true.
Proof.
  destruct (dividend demo_period (demo_user (H := toy_sha) 1 1 (10 ^ 12)) 0) as [[a' fee'] div] eqn:E.
  refine (validated_command_affordable demo_srv demo_office (demo_user (H := toy_sha) 1 1 (10 ^ 12)) demo_one demo_sig
            demo_period (demo_user (H := toy_sha) 1 1 (10 ^ 12)) 0 a' fee' div _ 0 _ _ _ _ _ _ _ _ E); try reflexivity.
  - vm_compute. split; congruence.
  - vm_compute. split; congruence.
  - intros [_ Hl]. vm_compute in Hl. discriminate.
Defined.

(** * The sender's account in the office and in the ledger *)

Section Sender.
Context `{Sha256}.

(** Commands that change the pending deposits or status of their sender. *)
Definition pays_self (c : command) : bool :=
  match c with
  | SendOne i bb bu _ _ | SetAccountStatus i bb bu _ | UnsetAccountStatus i bb bu _ =>
      (bb =? i.(ci_abank)) && (bu =? i.(ci_auser))
  | SendMany i txns => existsb (fun t : Z * Z * Z => (t.1.1 =? i.(ci_abank)) && (t.1.2 =? i.(ci_auser))) txns
  | _ => false
  end.

(** The sender's record as [tx_charge] leaves it. *)
Definition charged (c : command) (a : user_t) : user_t :=
  match c with SetAccountKey _ pk => a <| u_pkey := pk |> | _ => a end.

Lemma dsu_other d uid w f : uid <> w -> (<[w := f]> d : gmap Z dsu_t) !!! uid = d !!! uid.
Proof. intros Hn. apply lookup_total_insert_ne. congruence. Qed.

Lemma mpt_loop_dsu e s ab uid out ts c l c' l' :
  existsb (fun t : Z * Z * Z => (t.1.1 =? ab) && (t.1.2 =? uid)) ts = false ->
  mpt_loop e s ab out ts c l = Ok (c', l') -> l_dsu l' !!! uid = l_dsu l !!! uid.
Proof.
  revert out c l. induction ts as [|[[bank user] mass] ts IH]; intros out c l Hn E; cbn [mpt_loop existsb] in *; [now inv_ok|].
  apply orb_false_iff in Hn as [Hn1 Hn]. cbn [fst snd] in Hn1. cbv zeta in E. inv_ok. rewrite (IH _ _ _ Hn E).
  destruct (negb (ab =? bank) && _); destruct (bank =? ab); try reflexivity;
    (apply dsu_other; intros ->; rewrite Z.eqb_refl in Hn1; discriminate).
Qed.

(** The account whose pending changes grow is not the sender. *)
Ltac not_sender Hp := apply dsu_other; intros Eu; cbn in Eu; rewrite <- Eu, Z.eqb_refl in Hp; discriminate.

Lemma charge_sender c sign rest e s m a l s' k a' l' :
  cmd_wf c -> length sign = 64%nat -> locked s.(srvs_).(sv_now) (cmd_txs c sign) a = false -> pays_self c = false ->
  tx_charge e s m (getBlockMessage c sign ++ rest) (cmd_txs c sign) a l = Ok (s', k, a', l') ->
  srvs_ s' = srvs_ s /\ period_start s' = period_start s /\ a' = charged c a /\
  l_dsu l' !!! getUserId c = l_dsu l !!! getUserId c.
Proof.
  intros Hw Hs Hl Hp E. unfold tx_charge in E. rewrite Hl in E.
  destruct c; cbn [cmd_txs ttype getType Usertxs.bbank Usertxs.abank getInfo] in E;
    cbn [TXSTYPE_BRO TXSTYPE_PUT TXSTYPE_MPT TXSTYPE_USR TXSTYPE_BNK TXSTYPE_GET TXSTYPE_KEY TXSTYPE_BKY TXSTYPE_SUS
         TXSTYPE_SBS TXSTYPE_UUS TXSTYPE_UBS TXSTYPE_SAV Z.eqb Pos.eqb] in E; cbn [charged pays_self] in *.
  - inv_ok. split_and!; reflexivity.
  - inv_ok. split_and!; try reflexivity. unfold tx_put in E0.
    cbn [cmd_txs Usertxs.tmass Usertxs.bbank Usertxs.buser Usertxs.abank getInfo] in E0. inv_ok.
    destruct (negb _ && _); destruct (bbank =? ci_abank i); try reflexivity;
      not_sender Hp.
  - inv_ok. split_and!; try reflexivity. unfold tx_mpt in E0. cbn [cmd_txs Usertxs.bbank Usertxs.abank getInfo] in E0.
    rewrite Nat2Z.id, mpt_targets_message in E0 by assumption. inv_ok. revert E. now apply mpt_loop_dsu.
  - destruct (tx_usr _ _ _ _ _ _) as [[s1 c1] l1] eqn:Eu. inv_ok. unfold tx_usr in Eu.
    destruct (negb _); injection Eu as <- _ <-; [destruct (_ =? _)|]; split_and!; reflexivity.
  - inv_ok. split_and!; reflexivity.
  - inv_ok. split_and!; reflexivity.
  - inv_ok. split_and!; try reflexivity. unfold key. rewrite block_message_tail, <- (assoc_L (++)).
    replace (txs_type _) with TXSTYPE_KEY by (unfold txs_type, info_bytes; cbn [app]; now rewrite rdz_type).
    cbn [TXSTYPE_KEY TXSTYPE_BKY Z.eqb Pos.eqb]. rewrite info_rd by lia. cbn [Nat.sub Nat.add block_tail field_bytes getAdditionalData].
    rewrite <- !(assoc_L (++)). rewrite rd_app_here by apply Hw. reflexivity.
  - inv_ok. unfold tx_bky in E0. cbv zeta in E0. inv_ok. destruct (bky_node _ _ _ =? 0); inv_ok; [split_and!; reflexivity|].
    destruct (_ =? e_svid e); split_and!; reflexivity.
  - inv_ok. unfold tx_account_status in E0. cbn [cmd_txs Usertxs.bbank Usertxs.buser Usertxs.abank getInfo] in E0. inv_ok.
    split_and!; try reflexivity. destruct (bbank =? ci_abank i); [|reflexivity].
    not_sender Hp.
  - inv_ok. unfold tx_node_status in E0. inv_ok. split_and!; try reflexivity. destruct (status_voter _ _ _); reflexivity.
  - inv_ok. unfold tx_account_status in E0. cbn [cmd_txs Usertxs.bbank Usertxs.buser Usertxs.abank getInfo] in E0. inv_ok.
    split_and!; try reflexivity. destruct (bbank =? ci_abank i); [|reflexivity].
    not_sender Hp.
  - inv_ok. unfold tx_node_status in E0. inv_ok. split_and!; try reflexivity. destruct (status_voter _ _ _); reflexivity.
  - inv_ok. unfold tx_sav in E0. inv_ok. split_and!; reflexivity.
Qed.
Lemma get_sig_message c sign rest : get_sig (cmd_txs c sign) (getBlockMessage c sign ++ rest) = sign_mlen2 (cmd_txs c sign).
Proof.
  unfold get_sig. replace (txs_type _) with (getType c); [now destruct c|].
  rewrite block_message_tail. unfold txs_type, info_bytes. cbn [app]. now rewrite rdz_type.
Qed.

(** The office's copy of an account shows what the ledger has; the block of the
    last transaction and the partner account are compared by [same_path] and
    [same_partner]. *)
Definition agrees (u a : user_t) : Prop :=
  u_msid u = u_msid a /\ u_time u = u_time a /\ u_hash u = u_hash a /\ u_pkey u = u_pkey a /\
  u_weight u = u_weight a /\ u_stat u = u_stat a /\ u_rpath u = u_rpath a.
Definition same_path (u a : user_t) : Prop := u_lpath u = u_lpath a.
Definition same_partner (u a : user_t) : Prop := u_node u = u_node a /\ u_user u = u_user a.

(** The block that the office takes a command to be in. *)
Definition office_path (x : srv) : Z := u32 (x.(x_time) - x.(x_time) mod BLOCKSEC).

(** Commands that do not reset the partner of an account that has one. *)
Definition keeps_partner (u : user_t) (c : command) : bool :=
  match c with SetAccountKey _ _ => negb ((u.(u_node) =? 0) && (u.(u_user) =? 0)) | _ => false end.

Lemma commit_record x o usera c sign o' r :
  commitChanges x o usera c sign = Done (o', r) ->
  let u := ofi_user o (getUserId c) in
  let n := advance x usera c sign in
  ofi_user o' (getUserId c) =
    u <| u_weight := i64 (u.(u_weight) - charge c) |> <| u_msid := n.(u_msid) |> <| u_time := n.(u_time) |>
      <| u_node := n.(u_node) |> <| u_user := n.(u_user) |> <| u_lpath := n.(u_lpath) |>
      <| u_hash := n.(u_hash) |> <| u_pkey := n.(u_pkey) |>.
Proof.
  unfold commitChanges. intros E. destruct (add_msg _ _ _) as [[[o1 msid] mpos]|e o1| |] eqn:Ea; try discriminate. cbn [obind] in E.
  assert (Ef : o_file o1 = o_file o).
  { unfold add_msg in Ea. destruct (negb _); [|discriminate]. destruct (o_run o); [|discriminate].
    destruct (_ <=? _); [discriminate|]. now injection Ea as <- _ _. }
  unfold set_user in E. destruct (_ <? _); [|discriminate]. cbn [obind] in E. injection E as <- _.
  unfold ofi_user, put_ofi, Accounts.get_user. cbn [o_file]. rewrite Ef. apply lookup_total_insert_eq.
Qed.

(** The two computations of the sender's new record. *)
Lemma advance_agrees x c sign u a lpath :
  agrees u a ->
  let n := advance x u c sign in
  let u' := u <| u_weight := i64 (u.(u_weight) - charge c) |> <| u_msid := n.(u_msid) |> <| u_time := n.(u_time) |>
       <| u_node := n.(u_node) |> <| u_user := n.(u_user) |> <| u_lpath := n.(u_lpath) |>
       <| u_hash := n.(u_hash) |> <| u_pkey := n.(u_pkey) |> in
  let a' := {| u_msid := u32 (u_msid (charged c a) + 1); u_time := ttime (cmd_txs c sign); u_pkey := u_pkey (charged c a);
       u_hash := SHA256 (u_hash (charged c a) ++ SHA256 sign); u_lpath := lpath; u_user := 0; u_node := 0;
       u_stat := clear_bits (Z.lor (u_stat (charged c a)) (d_sus zero_dsu)) (d_uus zero_dsu);
       u_rpath := u_rpath (charged c a);
       u_weight := i64 (u_weight (charged c a) + (d_deposit zero_dsu - getDeduct c - getFee c)); u_csum := u_csum (charged c a) |} in
  agrees u' a' /\ (office_path x = lpath -> same_path u' a') /\ (keeps_partner u c = false -> same_partner u' a').
Proof.
  intros (A1 & A2 & A3 & A4 & A5 & A6 & A7) n. cbv zeta. split_and!.
  - unfold agrees. cbn [u_msid u_time u_hash u_pkey u_weight u_stat u_rpath].
    assert (Hst : forall z, clear_bits (Z.lor z (d_sus zero_dsu)) (d_uus zero_dsu) = z)
      by (intros z; unfold clear_bits; cbn; now rewrite Z.lor_0_r, Z.ldiff_0_r).
    rewrite Hst. replace (u_weight (charged c a)) with (u_weight u) by (now destruct c).
    replace (u_stat (charged c a)) with (u_stat u) by (now destruct c).
    replace (u_hash (charged c a)) with (u_hash u) by (now destruct c).
    replace (u_msid (charged c a)) with (u_msid u) by (now destruct c).
    replace (u_rpath (charged c a)) with (u_rpath u) by (now destruct c).
    split_and!; try (subst n; now destruct c).
    cbn. apply i64_of_eqm. unfold charge. wrap_solve.
  - intros <-. subst n. now destruct c.
  - intros Hk. subst n. destruct c; try (split; reflexivity). cbn in Hk. apply negb_false_iff, andb_true_iff in Hk as [H1 H2].
    apply Z.eqb_eq in H1, H2. split; assumption.
Qed.

(** C17: the office's copy of the sender follows the ledger. If the copy and the
    account agree before a command on number, time, hash, key, balance, status and
    last dividend, then the record that the office writes when it queues the
    command and the record that the nodes compute when they execute its transaction
    agree on them again. They name the same block of the last transaction when the
    transaction is executed in the block of the office's clock, and the same
    partner account unless the command changes the key of an account that has
    one. Conditions: the account is not locked, no dividend is due, nothing is
    pending for the sender, it does not pay itself, the amounts are not negative. *)
Theorem commit_mirrors_ledger x o c sign o' r e tmax s m rest left l s' l' a l0 :
  cmd_wf c -> length sign = 64%nat -> amounts_ok c -> pays_self c = false ->
  load_account (bank_of s.(usr_) m.(m_svid)) (getUserId c) l = (a, l0) -> agrees (ofi_user o (getUserId c)) a ->
  locked s.(srvs_).(sv_now) (cmd_txs c sign) a = false -> ~ unpaid s a -> l_dsu l !!! getUserId c = zero_dsu ->
  commitChanges x o (ofi_user o (getUserId c)) c sign = Done (o', r) ->
  tx_spend e tmax s m (getBlockMessage c sign ++ rest) left (cmd_txs c sign) l = Ok (s', l') ->
  exists a', l_changes l' !! getUserId c = Some a' /\ let u' := ofi_user o' (getUserId c) in
    agrees u' a' /\ (office_path x = s.(srvs_).(sv_now) -> same_path u' a') /\
    (keeps_partner (ofi_user o (getUserId c)) c = false -> same_partner u' a').
Proof.
  intros Hw Hs Ham Hp El Hag Hl Hu Hd Ec E. assert (Eu : auser (cmd_txs c sign) = getUserId c) by (now destruct c).
  apply commit_record in Ec. cbv zeta in Ec. rewrite Ec. clear Ec.
  unfold tx_spend in E. rewrite Eu, El in E. inv_ok.
  assert (Hd1 : l_dsu r0 !!! getUserId c = zero_dsu).
  { rewrite <- Hd. unfold load_account in El.
    destruct tmax; inv_ok; destruct (l_changes l !! _); injection El as _ <-; reflexivity. }
  pose proof (charge_cost _ _ _ _ _ _ _ _ _ _ _ _ Hw Ham Hl E1) as [Kf Kd].
  destruct (charge_sender _ _ _ _ _ _ _ _ _ _ _ _ Hw Hs Hl Hp E1) as (Fs & Fp & -> & Fd).
  assert (Ediv : dividend r1 (charged c a) (l_lodiv_fee x0) = (charged c a, l_lodiv_fee x0, NODIV)).
  { unfold dividend. rewrite Fp. unfold unpaid in Hu. replace (u_rpath (charged c a)) with (u_rpath a) by (now destruct c).
    replace (u_lpath (charged c a)) with (u_lpath a) by (now destruct c).
    destruct (Z.ltb_spec (u_rpath a) (period_start s)); destruct (Z.ltb_spec (u_lpath a) (period_start s)); try reflexivity. tauto. }
  rewrite Ediv in E. inv_ok. rewrite tx_log_frame. eexists. split; [rewrite <- Eu; apply lookup_insert_eq|].
  set (lx := tx_log _ _ _ _ _ _). clearbody lx.
  match goal with |- context [l_dsu ?z !!! _] => change (l_dsu z) with (l_dsu x0) end.
  rewrite Eu, Fd, Hd1, get_sig_message, signature_at, Kf, Kd, Fs by assumption. cbv zeta.
  now apply advance_agrees.
Qed.
End Sender.

Definition demo_led : server := demo_server (H := toy_sha) [[10 ^ 15; 10 ^ 12]; [10 ^ 15]].
Definition demo_one_msg : message := demo_msg 1 5 demo_now [getBlockMessage demo_one demo_sig].

Lemma commit_mirrors_ledger_witness :
  exists o' r s' l' a',
    commitChanges (H := toy_sha) demo_srv demo_office (ofi_user demo_office 1) demo_one demo_sig = Done (o', r) /\
    tx_spend (H := toy_sha) demo_env None demo_led demo_one_msg (getBlockMessage demo_one demo_sig ++ []) 125
      (cmd_txs demo_one demo_sig) (locals_init 2) = Ok (s', l') /\
    l_changes l' !! 1 = Some a' /\ agrees (ofi_user o' 1) a' /\ same_partner (ofi_user o' 1) a'.
Proof.
  runs (tx_spend (H := toy_sha) demo_env None demo_led demo_one_msg (getBlockMessage demo_one demo_sig ++ []) 125
         (cmd_txs demo_one demo_sig) (locals_init 2)) q E. destruct q as [s' l'].
  assert (Hok : match commitChanges (H := toy_sha) demo_srv demo_office (ofi_user demo_office 1) demo_one demo_sig with
                Done _ => true | _ => false end = true) by (vm_compute; reflexivity).
  destruct (commitChanges _ _ _ _ _) as [[o' r]| | |] eqn:Ec; try discriminate. clear Hok.
  destruct (load_account (bank_of (usr_ demo_led) 1) 1 (locals_init 2)) as [a l0] eqn:El.
  assert (Ea : a = demo_user (H := toy_sha) 1 1 (10 ^ 12)).
  { change a with ((a, l0).1). rewrite <- El. vm_compute. reflexivity. }
  destruct (commit_mirrors_ledger (H := toy_sha) demo_srv demo_office demo_one demo_sig o' r demo_env None demo_led demo_one_msg
              [] 125 (locals_init 2) s' l' a l0) as (a' & Ha & Hag & _ & Hpa); try assumption; try reflexivity.
  - exact demo_one_wf.
  - vm_compute. congruence.
  - rewrite Ea. vm_compute. split_and!; reflexivity.
  - rewrite Ea. vm_compute. reflexivity.
  - rewrite Ea. intros [Hr _]. vm_compute in Hr. discriminate.
  - exists o', r, s', l', a'. split_and!; try reflexivity; try assumption; now apply Hpa.
Defined.

(** * Cases in which the office and the nodes disagree *)

(** A deleted account whose weight is exactly the fee is given away by the
    office and refused by the nodes. *)
Lemma office_reuses_rejected :
  let u := (demo_user (H := toy_sha) 1 1 TXS_DIV_FEE) <| u_stat := USER_STAT_DELETED |> <| u_lpath := 0 |> in
  office_reusable demo_now u = true /\ reusable demo_now u = false.
Proof. vm_compute. split; reflexivity. Qed.

(** The sum of amount and fee overflows and the office accepts the command. *)
Lemma office_accepts_overflow :
  validateModifyingCommand demo_srv demo_office (demo_user (H := toy_sha) 1 1 (10 ^ 12))
    (SendOne demo_info 1 0 (2 ^ 63 - 1) (replicate 32 0)) = None.
Proof. vm_compute. reflexivity. Qed.
